(* ===== verification/_CoqProject ===== *)
-Q . S2P
Prelude.v
AddressUtils.v
OptionList.v
Codec.v
CommonUtil.v
DottedQuad.v
Binding.v
AddressPool.v
Config.v
PoolInvariant.v
Server.v
ServerInvariant.v
ServerProperties.v
Startup.v
ClientOptions.v
RawPacket.v
ResultStore.v
ClientFunction.v
ClientState.v
ClientHandlers.v
ClientMessages.v
ClientEvents.v
ClientInvariant.v
ClientProperties.v
ClientTransitions.v
Interop.v
V6Message.v
V6Text.v
V6Codec.v
V6Machine.v
V6Invariant.v
V6Properties.v
V6Client.v
V6ClientProperties.v
ArpChecker.v
ArpProperties.v
ArpSockets.v
Ipv6Info.v
Ipv6InfoProperties.v
Ipv6State.v
Ipv6Client.v
Ipv6Invariant.v
Ipv6Properties.v
