(* ===== verification/Prelude.v ===== *)
(** * A DHCP server and client, modelled and verified

    The program is the DHCP service of OpenHarmony (communication_dhcp): a DHCP
    server for a network a device shares, and clients for IPv4 and IPv6.  This
    library models the server from its argument table to the last byte of a
    reply, the IPv4 client from the calls of its service to the bytes of its
    datagrams, the DHCPv6 client with its messages, state machine, socket and
    thread, the client of router advertisements from the netlink bytes to what
    it publishes, and the ARP checker.

    ** The program

    StartDhcpServerMain (dhcp_server/src/dhcp_dhcpd.cpp) puts its arguments in
    a table, loads a configuration file and lets the arguments override it,
    builds a server context and starts a thread.  The thread (BeginLooper,
    dhcp_s_server.cpp) receives datagrams, decodes their options into a list,
    dispatches on the message type, and encodes and sends the reply.  The
    handlers keep two tables: the bindings, keyed by a hash of the client's
    hardware address, and the leases of the pool, keyed by address; both are
    references shared between the handlers and the search for an address
    (dhcp_address_pool.cpp).  The leases are saved in a text file and loaded
    from it (dhcp_binding.cpp).

    The client (dhcp_client/src/dhcp_client_state_machine.cpp) is a state
    machine driven by calls of its service, by timers and by the loop of a
    task, which sends what is due and handles what it receives.  It builds and
    reads packets with dhcp_options.cpp, sends and receives them through raw
    sockets (dhcp_socket.cpp), sets the address of the interface
    (dhcp_function.cpp), probes it for conflicts, publishes results
    (dhcp_result.cpp) and keeps those of wireless networks in a file
    (dhcp_result_store_manager.cpp).

    The DHCPv6 client (dhcp_v6_client/src) is ten states over a framework for
    state machines, which belongs to another project: the handlers of a state
    (dhcp_v6_state.cpp, dhcp_v6_statemachine.cpp) build messages, start timers
    and ask the framework for the next state; the messages are encoded and
    decoded by dhcp_v6_message.cpp.  A thread of the client (dhcp_v6_client.cpp)
    receives datagrams from its socket (dhcp_v6_socket.cpp) and gives them to
    the machine.

    Addresses the kernel configures from router advertisements are followed by
    the IPv6 client (dhcp_client/src/dhcp_ipv6_client.cpp): its thread parses
    netlink messages (dhcp_ipv6_event.cpp), keeps addresses, routes and DNS
    servers (dhcp_ipv6_info.cpp, dhcp_ipv6_dns_repository.cpp) and calls back
    when they change.  The ARP checker (utils/src/dhcp_arp_checker.cpp) probes
    an address, or looks for the hardware address of gateways.

    ** The files

    - Prelude: machine integers, C strings, the bounds-checked copy, the state
      monad in which [None] is undefined behaviour, and [wp], total
      correctness, with its rules and tactics; [safe], a triple with an
      invariant, and the hints that prove it along a handler.
    - AddressUtils: address_utils.cpp; addresses are 32-bit integers in network
      byte order on a little-endian machine, as the code has them.  [InetText]
      is the interface of the C library's address conversions, with the
      documented laws [InetTextLaws]; DottedQuad is an instance.
    - OptionList: dhcp_option.cpp.  Section one is the doubly linked list on an
      explicit heap, the operations [opts_...] are its specification on plain
      sequences, and [option_list_simulation] relates the two; the rest of the
      library uses the sequences.
    - Codec: the message structure (dhcp_message.h) and ParseMessageOptions and
      ParseReplyOptions of dhcp_s_server.cpp, on the bytes of the options array.
    - CommonUtil: common_util.cpp, and the number checks of
      utils/src/dhcp_common_utils.cpp.
    - Binding: dhcp_binding.cpp, a binding and its line in the lease file.
    - AddressPool: dhcp_address_pool.cpp.  [PoolState] holds the global tables,
      the pool, the files and the clock readings; [BindingPtr] is a reference to
      an element of a table, and using the reference of an erased element is
      undefined.  [Platform] is the interface of clock and file system.
    - Config: dhcp_config.cpp, the configuration file.
    - PoolInvariant: the invariant of the tables, preserved by every operation
      of the pool.
    - Server: dhcp_s_server.cpp: replies, handlers, looper, life cycle.  The
      state [Server] is the context with the tables; what the server sends, and
      the callbacks it makes, are in its trace.  A datagram, a timeout or an
      error of the socket is an event ([recv_event]) given to [looper_body].
      [Network] is the interface of sockets and of the ARP table.
    - ServerInvariant: what each handler does, under the invariant.
    - ServerProperties: the theorems on the running server.
    - Startup: dhcp_argument.cpp and dhcp_dhcpd.cpp, a [Process] with the
      argument table, the configuration and the server.
    - ClientOptions: dhcp_client/src/dhcp_options.cpp.
    - RawPacket: dhcp_socket.cpp.  [Kernel] has the results of the coming
      system calls, the descriptors that are open and the calls made.
    - ResultStore: dhcp_result_store_manager.cpp and dhcp_result.cpp.
    - ClientFunction: dhcp_function.cpp.
    - ClientState, ClientHandlers, ClientEvents: the state machine, in this
      order its members and messages; timers, results, parsing and what is sent
      in each state; replies, configuration, the task and the calls.  The state
      [Client] holds the members, the store, the kernel and a trace of what the
      client does to its surroundings; the clock, random numbers, probes and the
      services of the platform are readings of an [Environment].  One call,
      callback or iteration of the loop is an [event].
    - ClientMessages: the six messages as lists of options, and that the code
      builds them.
    - ClientInvariant: the types and ranges of the members and that every
      handler keeps them, stays defined and sends well-formed messages.
    - ClientProperties, ClientTransitions: the theorems on the client.
    - Interop: the client's messages as the server reads them, and the exchange
      between the two programs.
    - V6Message: dhcp_v6_message.cpp, options and messages as byte sequences;
      [Inet6Text] is the interface of the conversions of IPv6 addresses, with
      the laws [Inet6TextLaws]; V6Text is an instance.
    - V6Codec: the theorems on the codec.
    - V6Machine: the states and the machine of dhcp_v6_statemachine.cpp.  What a
      handler sends, the timers it starts and the states it asks for are in a
      trace; a call of the framework is a [v6call], and their order is open.
    - V6Invariant: the successors of each state and the types of the members,
      kept by every call.  V6Properties: the theorems on the machine.
    - V6Client: dhcp_v6_client.cpp and dhcp_v6_socket.cpp, the machine with its
      socket and thread; what the machine asks for is done, sent or called back.
      [V6Platform] is the interface of the socket calls.  V6ClientProperties:
      the theorems on it.
    - ArpChecker: dhcp_arp_checker.cpp on an [ArpEnvironment], the socket calls
      and the clock.  ArpProperties: what a probe answers and when it ends;
      ArpSockets: its descriptors.
    - Ipv6Info: the public structure of the IPv6 client and its repository of
      DNS servers; [StandardLibrary] is the order of an unordered set and of
      equal elements in a sort.  Ipv6InfoProperties: the theorems on them.
    - Ipv6State: the members of the IPv6 client, the reading of netlink memory,
      which is undefined outside the buffer, and the kinds of addresses;
      [Ipv6Platform] is the interface of the kernel.  Ipv6Client: its methods,
      parsers and thread.  Ipv6Invariant: every parser stays within the
      message and keeps the structure consistent.  Ipv6Properties: the theorems.

    A definition carries the name of the function, method or type it models;
    a loop is [<function>_loop], and a part of a function has a name of its own
    and says in its comment which part it is.  C locals become [let], early
    returns become branches, logging is left out, and a null check that cannot
    fail in the model (the pointer is a value) is left out too.

    ** What is shown

    - Safety and types: [server_safe] (no sequence of messages makes the server
      touch an erased element or leave a buffer, with the invariant of every
      reachable state) and [client_safe] (the same for the client under any
      events, with the types of its members and messages);
      [AddressDistribute_safe], [option_list_simulation],
      [ParseMessageOptions_total], [SplitString_safe], [GetDhcpOption_safe],
      [GetDhcpRawPacket_safe]; descriptors are closed ([send_closes_socket],
      [interface_closes_socket]).
    - The exchange: between the two programs ([client_served]), on the server's
      side ([handshake]) and on the client's ([client_messages],
      [offer_requested], [client_handshake]); RELEASE, DECLINE and requests for
      other servers; the search grants only free, own or expired addresses and
      finds one when there is one; starting a server
      ([StartDhcpServerMain_serves], [InitializeServer_ready]); the meaning of a
      configuration file ([LoadConfig_meaning]).
    - The client's automaton: [client_refines_automaton], [bound_entered], the
      schedule of its messages ([discover_schedule]) and of its timers
      ([lease_timers]).
    - Round trips and formats: options of messages and of packets, the lease
      file, the file of results, the hardware address, the checksum of RFC 1071
      and the datagrams that carry it, DHCPv6 options and messages.
    - DHCPv6: a message decodes to the fields it was built from
      ([v6_messages]) and a decoded message is bounded by its datagram
      ([v6_reply_bounded]); under any order of calls the machine stays defined
      and moves along its automaton ([v6_safe]); the exchange from start to
      lease ([v6_exchange]), what makes it bind ([v6_bound_by_reply]), how often
      it sends ([v6_retransmissions]) and how it renews ([v6_renewal],
      [v6_bound_timers]).  The client over it has a thread and a socket only
      while it runs ([v6_client_safe]); what a round of the thread does with
      every answer of the socket ([receive_round_spec]).
    - Router advertisements: any bytes on the netlink socket leave the client
      defined and what it publishes consistent ([ipv6_client_safe]); the arrays
      of the public structure mirror its tables ([addresses_mirrored],
      [routes_kept]); announced DNS servers reach its repository
      ([rdnss_announced]), which says which are in use ([AddServers_spec]); the
      kinds and scopes of addresses ([address_kinds], [GetAddrScope_ranges]).
    - ARP: a probe ends, and says that the address is taken exactly when another
      host answered in time ([arp_probe]); the gateways it finds
      ([arp_gateways]); its descriptors ([arp_descriptors]).
    - Behaviour the code does not intend, as executions or theorems: an address
      given twice, a use of an erased element with colliding hashes, replies
      without their last two bytes, a range compared in the wrong byte order, a
      start that is lost, an expired lease that starts anew and others.  They
      bound the hypotheses of the theorems above: clients have distinct hashes,
      datagrams at most 545 bytes, and the exchange is stated for networks of
      at least 24 prefix bits.

    ** Fuel and bounds

    Loops that are not structural take fuel, and a theorem shows it suffices:
    the decoder has one unit per byte of the array, the walk over a linked list
    one per cell of the heap, the readers of files and of DHCPv6 options one per
    byte.  A walk over netlink attributes has one unit for each 4 bytes, one over
    messages one for each 16, and one more; each element is at least as long.  A
    wait of the ARP checker has a round for each millisecond of its timeout,
    [wait_fuel], the clock going forward, and a call that signals interrupt is
    tried again [patience] times.  The client's
    look-up visits at most 1780 + 128 + 64 positions and has 2000 units
    ([GetDhcpOption_safe] shows that it always ends); a 32-bit checksum is
    folded at most twice and has three units ([GetCheckSum_rfc1071]).  The
    address search is bounded by the code itself, by the number of hosts.
    Integers are [Z] with the wrap-around written where the code can overflow
    ([u8], [u32], [u64], [i32]); 64-bit times are in seconds.

    ** What is not modelled

    Sockets, threads, files and the C library are parameters with named laws.
    A local structure the client does not initialise ([GetDhcpOffer] and the
    callbacks of its timers use one) is assumed to hold texts that fit its
    arrays ([JunkLaws]).  Threads: the looper runs alone, and the events of the
    client are atomic; stopping a server from another thread is a change of
    [looperState] between two iterations; a step of a thread of an IPv6 client is
    one step between the calls of its methods.

    Not modelled: the services above the programs (dhcp_client_service_impl.cpp,
    dhcp_server_service_impl.cpp), which keep tables of clients by interface and
    pass results to other processes; the stubs and proxies of the IPC framework
    and the C interfaces in front of them, which marshal arguments for a service
    that is outside the repository; permissions, the timers' implementation,
    threads that only run a task, and logging. *)
From Stdlib Require Export ZArith Lia String Ascii Bool Btauto.
From stdpp Require Export base gmap list sorting.
Open Scope Z_scope.

(** ** Machine integers *)

Definition u8 (z : Z) : Z := z mod 2 ^ 8.
Definition u16 (z : Z) : Z := z mod 2 ^ 16.
Definition u32 (z : Z) : Z := z mod 2 ^ 32.
Definition u64 (z : Z) : Z := z mod 2 ^ 64.
Definition i32 (z : Z) : Z := (z + 2 ^ 31) mod 2 ^ 32 - 2 ^ 31.

(** A value of [uint8_t], [uint32_t], [uint64_t]. *)
Definition is_u8 (z : Z) : Prop := 0 <= z < 2 ^ 8.
Definition is_u16 (z : Z) : Prop := 0 <= z < 2 ^ 16.
Definition is_u32 (z : Z) : Prop := 0 <= z < 2 ^ 32.
Definition is_u64 (z : Z) : Prop := 0 <= z < 2 ^ 64.

(** The truth value of a C integer. *)
Definition truthy (z : Z) : bool := negb (z =? 0).

Create HintDb dhcp.
Create Rewrite HintDb dhcp.

Lemma u32_range z : is_u32 (u32 z).
Proof. unfold is_u32, u32. apply Z.mod_pos_bound. lia. Qed.

Lemma u64_range z : is_u64 (u64 z).
Proof. unfold is_u64, u64. apply Z.mod_pos_bound. lia. Qed.

Lemma u32_small z : is_u32 z -> u32 z = z.
Proof. unfold is_u32, u32. intros. by apply Z.mod_small. Qed.

Lemma u64_small z : is_u64 z -> u64 z = z.
Proof. unfold is_u64, u64. intros. by apply Z.mod_small. Qed.

#[export] Hint Resolve u32_range u64_range : dhcp.
#[export] Hint Rewrite u32_small u64_small using (auto with dhcp; lia) : dhcp.

(** ** Bytes and C strings *)

(** Memory is a list of byte values; a C string is the bytes before its NUL. *)
Abbreviation bytes := (list Z).

Definition zeros (n : nat) : bytes := replicate n 0.

Definition str (s : string) : bytes :=
  map (fun a => Z.of_N (N_of_ascii a)) (list_ascii_of_string s).

(** [strlen], and the string held by a buffer. *)
Fixpoint c_str (buf : bytes) : bytes :=
  match buf with
  | [] => []
  | b :: r => if b =? 0 then [] else b :: c_str r
  end.

Definition byte_at (l : bytes) (i : nat) : Z := nth i l 0.

(** The lines of a file. *)
Definition newline : Z := 10.

(** [fgets(line, n, fp)]: at most [n - 1] characters, up to and with a line
    end. *)
Fixpoint fgets (n : nat) (file : bytes) : bytes * bytes :=
  match n, file with
  | S (S _ as n'), c :: r =>
      if c =? newline then ([c], r) else let (l, r') := fgets n' r in (c :: l, r')
  | _, _ => ([], file)
  end.

Definition no_newline (w : bytes) : Prop := Forall (fun c => c <> newline) w.

Lemma fgets_line n line rest : no_newline line -> (S (length line) < n)%nat ->
  fgets n (line ++ newline :: rest) = (line ++ [newline], rest).
Proof.
  intros H. revert n. induction H as [|c line Hc _ IH]; intros n Hn;
    (destruct n as [|[|n]]; [cbn in Hn; lia..|]); [done|].
  change (fgets (S (S n)) ((c :: line) ++ newline :: rest)) with
    (if c =? newline then ([c], line ++ newline :: rest)
     else let (l, r') := fgets (S n) (line ++ newline :: rest) in (c :: l, r')).
  rewrite (proj2 (Z.eqb_neq _ _) Hc), IH; [done|]. cbn in Hn. lia.
Qed.

(** The first [n] bytes of [l], zero-extended. *)
Definition pad (n : nat) (l : bytes) : bytes := take n (l ++ zeros n).

Lemma length_zeros n : length (zeros n) = n.
Proof. apply length_replicate. Qed.

Lemma length_pad n l : length (pad n l) = n.
Proof. unfold pad. rewrite length_take, length_app, length_zeros. lia. Qed.

(** ** The bounds-checked copy of C11 Annex K: on a violated constraint the
    destination is cleared and an error is returned. *)
Definition memcpy_s (dest : bytes) (destMax : Z) (src : bytes) (count : Z) : bool * bytes :=
  if count <=? destMax
  then (true, take (Z.to_nat count) src ++ drop (Z.to_nat count) dest)
  else (false, zeros (Z.to_nat destMax) ++ drop (Z.to_nat destMax) dest).

(** ** State and undefined behaviour

    A computation takes the state to a result and a new state; [None] is
    undefined behaviour (a null or dangling pointer is dereferenced, or an
    array is accessed out of bounds). *)

Definition M (S A : Type) : Type := S -> option (A * S).

Definition ret {S A} (a : A) : M S A := fun s => Some (a, s).
Definition bind {S A B} (m : M S A) (k : A -> M S B) : M S B :=
  fun s => match m s with Some (a, s') => k a s' | None => None end.
Definition undef {S A} : M S A := fun _ => None.
Definition get {S A} (f : S -> A) : M S A := fun s => Some (f s, s).
Definition modify {S} (f : S -> S) : M S unit := fun s => Some (tt, f s).
Definition from_option {S A} (o : option A) : M S A :=
  fun s => match o with Some a => Some (a, s) | None => None end.

Declare Scope dhcp_scope.
Delimit Scope dhcp_scope with dhcp.
Notation "'let*' x := m 'in' k" := (bind m (fun x => k))
  (at level 10, x name, m at level 200, k at level 200) : dhcp_scope.
Notation "'let*' ' p := m 'in' k" := (bind m (fun x => match x with p => k end))
  (at level 10, p pattern, m at level 200, k at level 200) : dhcp_scope.
Notation "m ;; k" := (bind m (fun _ => k))
  (at level 100, k at level 200, right associativity) : dhcp_scope.
Open Scope dhcp_scope.

Lemma bind_some {A B} (f : A -> option B) x : mbind f (Some x) = f x.
Proof. done. Qed.

Lemma bind_assoc {S A B C} (m : M S A) (f : A -> M S B) (g : B -> M S C) s :
  bind (bind m f) g s = bind m (fun a => bind (f a) g) s.
Proof. unfold bind. by destruct (m s) as [[? ?]|]. Qed.
Lemma bind_ret {S A B} (a : A) (f : A -> M S B) s : bind (ret a) f s = f a s.
Proof. done. Qed.
Lemma bind_from_option {S A B} (a : A) (f : A -> M S B) s : bind (from_option (Some a)) f s = f a s.
Proof. done. Qed.

(** [when b m]: a statement guarded by an [if] without [else]. *)
Definition when {S} (b : bool) (m : M S unit) : M S unit :=
  if b then m else ret tt.

(** ** Total correctness: the computation is defined and ends in [Q]. *)
Definition wp {S A} (m : M S A) (Q : A -> S -> Prop) (s : S) : Prop :=
  match m s with Some (a, s') => Q a s' | None => False end.

Section Wp.
Context {S : Type}.

Lemma wp_ret {A} (a : A) Q (s : S) : Q a s -> wp (ret a) Q s.
Proof. done. Qed.

Lemma wp_bind {A B} (m : M S A) (k : A -> M S B) Q s :
  wp m (fun a s' => wp (k a) Q s') s -> wp (bind m k) Q s.
Proof. unfold wp, bind. by destruct (m s) as [[a s']|]. Qed.

Lemma wp_bind_inv {A B} (m : M S A) (k : A -> M S B) Q s :
  wp (bind m k) Q s -> wp m (fun a s' => wp (k a) Q s') s.
Proof. unfold wp, bind. by destruct (m s) as [[a s']|]. Qed.

Lemma wp_get {A} (f : S -> A) Q s : Q (f s) s -> wp (get f) Q s.
Proof. done. Qed.

Lemma wp_modify (f : S -> S) Q s : Q tt (f s) -> wp (modify f) Q s.
Proof. done. Qed.

Lemma wp_when (b : bool) m Q (s : S) :
  (b = true -> wp m Q s) -> (b = false -> Q tt s) -> wp (when b m) Q s.
Proof. destruct b; simpl; intros; [auto | apply wp_ret; auto]. Qed.

Lemma wp_if {A} (b : bool) (m1 m2 : M S A) Q s :
  (b = true -> wp m1 Q s) -> (b = false -> wp m2 Q s) ->
  wp (if b then m1 else m2) Q s.
Proof. destruct b; auto. Qed.

Lemma wp_mono {A} (m : M S A) (Q Q' : A -> S -> Prop) s :
  wp m Q s -> (forall a s', Q a s' -> Q' a s') -> wp m Q' s.
Proof. unfold wp. destruct (m s) as [[a s']|]; auto. Qed.

Lemma wp_and {A} (m : M S A) (Q Q' : A -> S -> Prop) s :
  wp m Q s -> wp m Q' s -> wp m (fun a s' => Q a s' /\ Q' a s') s.
Proof. unfold wp. destruct (m s) as [[a s']|]; auto. Qed.

Lemma wp_and_imp {A} (m : M S A) (P : Prop) (Q R : A -> S -> Prop) s :
  wp m Q s -> (P -> wp m R s) -> wp m (fun a s' => Q a s' /\ (P -> R a s')) s.
Proof. unfold wp. destruct (m s) as [[a s']|]; [|done]. by auto. Qed.

Lemma wp_run {A} (m : M S A) Q s :
  wp m Q s -> exists a s', m s = Some (a, s') /\ Q a s'.
Proof. unfold wp. destruct (m s) as [[a s']|]; [eauto | done]. Qed.

Lemma wp_intro {A} (m : M S A) (Q : A -> S -> Prop) s a s' :
  m s = Some (a, s') -> Q a s' -> wp m Q s.
Proof. unfold wp. by intros ->. Qed.
End Wp.

Lemma wp_from_option {S A} (o : option A) (Q : A -> S -> Prop) s :
  (exists a, o = Some a /\ Q a s) -> wp (from_option o) Q s.
Proof. by intros (a & -> & H). Qed.

(** ** Invariants of computations: from a state of [I] the computation is
    defined and ends in a state of [I] with a result of [R]. *)
Definition safe {S A} (I : S -> Prop) (m : M S A) (R : A -> Prop) : Prop :=
  forall s, I s -> wp m (fun a s' => R a /\ I s') s.
Definition defined {A} (o : option A) (R : A -> Prop) : Prop := exists a, o = Some a /\ R a.

Create HintDb safe.

Section Safe.
Context {S : Type} (I : S -> Prop).

Lemma safe_ret {A} (a : A) (R : A -> Prop) : R a -> safe I (ret a) R.
Proof. by intros H s Hs. Qed.

Lemma safe_mono {A} (m : M S A) (R R' : A -> Prop) : safe I m R -> (forall a, R a -> R' a) -> safe I m R'.
Proof. intros H HR s Hs. eapply wp_mono; [by apply H|]. intros a s' [Ha Hs']. auto. Qed.

Lemma safe_any {A} (m : M S A) (R : A -> Prop) : safe I m R -> safe I m (fun _ => True).
Proof. intros H. by eapply safe_mono. Qed.

Lemma safe_bind {A B} (m : M S A) (k : A -> M S B) (R : A -> Prop) (R' : B -> Prop) :
  safe I m R -> (forall a, R a -> safe I (k a) R') -> safe I (bind m k) R'.
Proof.
  intros Hm Hk s Hs. apply wp_bind. eapply wp_mono; [by apply Hm|]. intros a s' [Ha Hs']. by apply Hk.
Qed.

Lemma safe_get {A} (f : S -> A) (R : A -> Prop) : (forall s, I s -> R (f s)) -> safe I (get f) R.
Proof. intros H s Hs. split; auto. Qed.

Lemma safe_bind_get {A B} (f : S -> A) (k : A -> M S B) (R : B -> Prop) :
  (forall s, I s -> safe I (k (f s)) R) -> safe I (bind (get f) k) R.
Proof. intros H s Hs. by apply wp_bind, wp_get, H. Qed.

Lemma safe_modify (f : S -> S) (R : unit -> Prop) : R tt -> (forall s, I s -> I (f s)) -> safe I (modify f) R.
Proof. intros HR H s Hs. split; auto. Qed.

Lemma safe_if {A} (b : bool) (m1 m2 : M S A) (R : A -> Prop) :
  (b = true -> safe I m1 R) -> (b = false -> safe I m2 R) -> safe I (if b then m1 else m2) R.
Proof. destruct b; auto. Qed.

Lemma safe_when (b : bool) (m : M S unit) (R : unit -> Prop) :
  (b = true -> safe I m R) -> R tt -> safe I (when b m) R.
Proof. destruct b; simpl; intros; [auto | by apply safe_ret]. Qed.

Lemma safe_from_option {A} (o : option A) (R : A -> Prop) : defined o R -> safe I (from_option o) R.
Proof. by intros (a & -> & Ha) s Hs. Qed.
End Safe.

Lemma defined_bind {A B} (o : option A) (f : A -> option B) (R : A -> Prop) (R' : B -> Prop) :
  defined o R -> (forall a, R a -> defined (f a) R') -> defined (o ≫= f) R'.
Proof. intros (a & -> & Ha) H. rewrite bind_some. auto. Qed.

Lemma defined_some {A} (a : A) (R : A -> Prop) : R a -> defined (Some a) R.
Proof. intros H. by exists a. Qed.

(** One step of a proof of [safe]; called functions are looked up in the hints. *)
Ltac safe_step :=
  lazymatch goal with
  | |- safe _ (bind (get _) _) _ => apply safe_bind_get; intros ? ?
  | |- safe _ (bind (modify _) _) _ => apply (safe_bind _ _ _ (fun _ => True)); [apply safe_modify; [done|]|intros _ _]
  | |- safe _ (bind (when _ _) _) _ => apply (safe_bind _ _ _ (fun _ => True)); [apply safe_when; [intros ?|done]|intros _ _]
  | |- safe _ (bind (bind _ _) _) _ => eapply safe_bind; [|]
  | |- safe _ (bind (from_option _) _) _ =>
      eapply safe_bind; [apply safe_from_option; solve [eauto with safe]|intros ? ?]
  | |- safe _ (bind (ret _) _) _ => eapply safe_bind; [apply (safe_ret _ _ (fun x => x = _)); reflexivity|intros ? ->]
  | |- safe _ (bind _ _) _ => eapply safe_bind; [solve [eauto with safe]|intros ? ?]
  | |- safe _ (ret _) _ => apply safe_ret
  | |- safe _ (get _) _ => apply safe_get; intros ? ?
  | |- safe _ (modify _) _ => apply safe_modify
  | |- safe _ (when _ _) _ => apply safe_when; [intros ?|]
  | |- safe _ (if ?b then _ else _) _ => first [apply safe_if; intros ? | destruct b eqn:?]
  | |- safe _ (let (_, _) := ?x in _) _ => destruct x
  | |- safe _ (let _ := _ in _) _ => cbv zeta
  | |- safe _ (match ?x with _ => _ end) _ => destruct x eqn:?
  end.
Ltac safe_steps := repeat (safe_step; cbv beta iota).

(** One step of symbolic execution, and its iteration. *)
Ltac wp_step :=
  lazymatch goal with
  | |- wp (bind _ _) _ _ => apply wp_bind
  | |- wp (ret _) _ _ => apply wp_ret
  | |- wp (get _) _ _ => apply wp_get
  | |- wp (modify _) _ _ => apply wp_modify
  | |- wp (when _ _) _ _ => apply wp_when; intros
  | |- wp (if _ then _ else _) _ _ => apply wp_if; intros
  | |- wp (let _ := _ in _) _ _ => cbv zeta
  end.
Ltac wp_steps := repeat (wp_step; cbv beta).

(** Boolean tests to propositions. *)
Ltac btauto_hyps :=
  repeat match goal with
  | H : _ && _ = true |- _ => apply andb_prop in H as [? ?]
  | H : _ || _ = false |- _ => apply orb_false_elim in H as [? ?]
  | H : negb _ = true |- _ => apply negb_true_iff in H
  | H : negb _ = false |- _ => apply negb_false_iff in H
  | H : truthy _ = true |- _ => unfold truthy in H
  | H : truthy _ = false |- _ => unfold truthy in H
  | H : (_ =? _) = true |- _ => apply Z.eqb_eq in H
  | H : (_ =? _) = false |- _ => apply Z.eqb_neq in H
  | H : (_ <=? _) = true |- _ => apply Z.leb_le in H
  | H : (_ <=? _) = false |- _ => apply Z.leb_gt in H
  | H : (_ <? _) = true |- _ => apply Z.ltb_lt in H
  | H : (_ <? _) = false |- _ => apply Z.ltb_ge in H
  | H : (_ >? _) = true |- _ => rewrite Z.gtb_ltb in H
  | H : (_ >? _) = false |- _ => rewrite Z.gtb_ltb in H
  | H : (_ >=? _) = true |- _ => rewrite Z.geb_leb in H
  | H : (_ >=? _) = false |- _ => rewrite Z.geb_leb in H
  end.

(** Concrete byte lists are checked by computation. *)
Lemma all_u8 l : forallb (fun b => (0 <=? b) && (b <? 2 ^ 8)) l = true -> Forall is_u8 l.
Proof.
  rewrite forallb_forall, List.Forall_forall. intros H x Hx. specialize (H x Hx).
  btauto_hyps. by split.
Qed.

Lemma check_u32 z : (0 <=? z) && (z <? 2 ^ 32) = true -> is_u32 z.
Proof. unfold is_u32. intros. btauto_hyps. by split. Qed.
