(* ===== verification/AddressUtils.v ===== *)
(** Address arithmetic and address text (src/services/dhcp_server/src/address_utils.cpp).

    An IPv4 address is a [uint32_t] holding the four octets in memory order
    (network order); the machine is little-endian, so [htonl] reverses the
    bytes.  The functions below keep the order the code keeps: they swap to
    host order exactly where the code calls [htonl]. *)
From S2P Require Import Prelude.

Definition DHCP_TRUE : Z := 1.
Definition DHCP_FALSE : Z := 0.
Definition DHCP_HWADDR_LENGTH : Z := 16.
Definition DHCP_BOOT_FILE_LENGTH : Z := 128.
Definition MAC_ADDR_LENGTH : Z := 6.
Definition MAC_STRING_SIZE : Z := 17.
Definition IPV4_ADDRESS_BITS : nat := 32.
Definition BIT_MAX_VALUE : Z := 2.
Definition IP_ADDRESS_LENGTH : Z := 4.
Definition INADDR_BROADCAST : Z := 0xFFFFFFFF.
Definition INADDR_ANY : Z := 0.

(** [htonl] of the C library on a little-endian machine; [ntohl] is the same. *)
Definition htonl (x : Z) : Z :=
  Z.lor (Z.lor (Z.shiftl (Z.land x 0xFF) 24) (Z.shiftl (Z.land x 0xFF00) 8))
        (Z.lor (Z.shiftr (Z.land x 0xFF0000) 8) (Z.shiftr (Z.land x 0xFF000000) 24)).
Definition ntohl : Z -> Z := htonl.

Definition HostToNetwork (host : Z) : Z := htonl host.
Definition NetworkToHost (network : Z) : Z := ntohl network.

Definition NetworkAddress (ip netmask : Z) : Z := Z.land ip netmask.

Definition FirstIpAddress (ip netmask : Z) : Z :=
  let network := NetworkAddress ip netmask in
  let firstIp := u32 (htonl network + 1) in
  htonl firstIp.

Fixpoint HostBits_loop (i : nat) (bits net : Z) : Z :=
  match i with
  | O => bits
  | S i' =>
      let bits := bits + 1 in
      let net := Z.shiftr net 1 in
      if negb (Z.land net 1 =? 0) then bits else HostBits_loop i' bits net
  end.
Definition HostBits (netmask : Z) : Z := HostBits_loop IPV4_ADDRESS_BITS 0 (htonl netmask).

Fixpoint HostTotal_loop (i : nat) (total : Z) : Z :=
  match i with
  | O => total
  | S i' => HostTotal_loop i' (u32 (total * BIT_MAX_VALUE))
  end.
Definition HostTotal (netmask : Z) : Z :=
  let hostBits := HostBits netmask in
  u32 (HostTotal_loop (Z.to_nat hostBits) 1 - 1).

Definition BroadCastAddress (ip netmask : Z) : Z :=
  let network := NetworkAddress ip netmask in
  let broadcast := u32 (htonl network + HostTotal netmask) in
  htonl broadcast.

Definition LastIpAddress (ip netmask : Z) : Z :=
  let network := NetworkAddress ip netmask in
  let lastIp := u32 (htonl network + HostTotal netmask) in
  let lastIp := if truthy lastIp then lastIp - 1 else lastIp in
  htonl lastIp.

Definition FirstNetIpAddress (network : Z) : Z :=
  let firstIp := u32 (htonl network + 1) in
  htonl firstIp.

Definition NextIpAddress (currIp netmask offset : Z) : Z :=
  let network := NetworkAddress currIp netmask in
  let broadcast := BroadCastAddress currIp netmask in
  let lastIp := LastIpAddress currIp netmask in
  let hostTotal := HostTotal netmask in
  let next := offset in
  if (currIp =? lastIp) || (currIp =? broadcast) then FirstIpAddress currIp netmask
  else
    let next := if (next >? hostTotal) && (hostTotal >? 0) then next mod hostTotal else next in
    let nextIp := u32 (htonl currIp + next + 1) in
    let nextIp :=
      if truthy next && (nextIp >? htonl lastIp)
      then u32 (htonl network + (nextIp - htonl lastIp)) else nextIp in
    htonl nextIp.

Definition IpInNetwork (ip network netmask : Z) : Z :=
  let firstNet := NetworkAddress ip netmask in
  let secondNet := NetworkAddress network netmask in
  let beginIp := FirstIpAddress network netmask in
  let broadCast := BroadCastAddress network netmask in
  if firstNet =? secondNet
  then if (ip >=? beginIp) && (ip <=? broadCast) then DHCP_TRUE else DHCP_FALSE
  else DHCP_FALSE.

Definition IpInRange (ip beginIp endIp netmask : Z) : Z :=
  let network := NetworkAddress ip netmask in
  let firstNet := NetworkAddress beginIp netmask in
  let secondNet := NetworkAddress endIp netmask in
  if negb (network =? firstNet) || negb (firstNet =? secondNet) then 0
  else if (ip >=? beginIp) && (ip <=? endIp) then DHCP_TRUE
  else DHCP_FALSE.

(** [ParseIp]: the four bytes read as a little-endian [uint32_t]. *)
Definition ParseIp (ipAddr : bytes) : Z :=
  byte_at ipAddr 0 + byte_at ipAddr 1 * 2 ^ 8 + byte_at ipAddr 2 * 2 ^ 16
  + byte_at ipAddr 3 * 2 ^ 24.

(** The memory of a [uint32_t]. *)
Definition le32 (x : Z) : bytes :=
  [x mod 2 ^ 8; x / 2 ^ 8 mod 2 ^ 8; x / 2 ^ 16 mod 2 ^ 8; x / 2 ^ 24 mod 2 ^ 8].

(** ** Address text

    [inet_aton] and [inet_ntop] belong to the C library of the platform and
    are parameters: [inet_aton s] is the address or [None] when the call
    returns 0; [inet_ntop ip] is the text or [None] when it returns null. *)
Class InetText := {
  inet_aton : bytes -> option Z;
  inet_ntop : Z -> option bytes
}.

(** What POSIX documents of the two functions on the dotted-decimal form. *)
Class InetTextLaws (I : InetText) := {
  inet_aton_u32 : forall s ip, inet_aton s = Some ip -> is_u32 ip;
  inet_ntop_total : forall ip, is_u32 ip -> exists s, inet_ntop ip = Some s;
  inet_ntop_chars : forall ip s, inet_ntop ip = Some s ->
    Forall (fun c => c = 46 \/ 48 <= c <= 57) s /\ (1 <= length s <= 15)%nat;
  inet_aton_ntop : forall ip s, is_u32 ip -> inet_ntop ip = Some s -> inet_aton s = Some ip
}.

Definition ParseIpAddr `{InetText} (strIp : bytes) : Z :=
  match inet_aton strIp with Some ip => ip | None => 0 end.

Definition ParseStrIp `{InetText} (ipAddr : Z) : bytes :=
  match inet_ntop ipAddr with Some s => s | None => str "0.0.0.0" end.

(** ["%02x"] of a byte. *)
Definition hex_digit (d : Z) : Z := if d <? 10 then 48 + d else 97 + (d - 10).
Definition hex2 (b : Z) : bytes := [hex_digit (b / 16); hex_digit (b mod 16)].

Definition colon : Z := 58.

Definition ParseStrMac (macAddr : option bytes) (addrSize : Z) : option bytes :=
  match macAddr with
  | None => None
  | Some m =>
      if addrSize <? MAC_ADDR_LENGTH then None
      else Some (hex2 (byte_at m 0) ++ colon :: hex2 (byte_at m 1) ++ colon ::
                 hex2 (byte_at m 2) ++ colon :: hex2 (byte_at m 3) ++ colon ::
                 hex2 (byte_at m 4) ++ colon :: hex2 (byte_at m 5))
  end.

Definition IsValidHexCharAndConvert (c : Z) : Z :=
  if (48 <=? c) && (c <=? 57) then c - 48
  else if (97 <=? c) && (c <=? 102) then c - 97 + (57 - 48 + 1)
  else if (65 <=? c) && (c <=? 70) then c - 65 + (57 - 48 + 1)
  else -1.

(** The loop of [ParseMacAddress]: [i] indexes the text, [j] counts the hex
    digits of the current octet, and the octets already read stay written in
    [macAddr] when a later character is refused. *)
Fixpoint ParseMacAddress_loop (s : bytes) (i : nat) (j tmp : Z) (macAddr : bytes)
    : Z * bytes :=
  match s with
  | [] => (DHCP_TRUE, <[Z.to_nat (MAC_STRING_SIZE / 3) := tmp]> macAddr)
  | c :: s' =>
      if (j =? 0) || (j =? 1) then
        let v := IsValidHexCharAndConvert c in
        if v <? 0 then (0, macAddr)
        else ParseMacAddress_loop s' (S i) (j + 1) (u8 (Z.lor (u8 (Z.shiftl tmp 4)) v)) macAddr
      else if negb (c =? colon) then (0, macAddr)
      else ParseMacAddress_loop s' (S i) 0 0 (<[(i / 3)%nat := tmp]> macAddr)
  end.

Definition ParseMacAddress (strMac : option bytes) (macAddr : bytes) : Z * bytes :=
  match strMac with
  | None => (DHCP_FALSE, macAddr)
  | Some s =>
      if negb (Z.of_nat (length s) =? MAC_STRING_SIZE) then (DHCP_FALSE, macAddr)
      else ParseMacAddress_loop s 0 0 0 macAddr
  end.

(** ["??:%02x:??:??:%02x:%02x"], the form used in logs. *)
Definition ParseLogMac (macAddr : option bytes) : option bytes :=
  match macAddr with
  | None => None
  | Some m =>
      Some (str "??:" ++ hex2 (byte_at m 1) ++ str ":??:??:" ++ hex2 (byte_at m 4)
            ++ colon :: hex2 (byte_at m 5))
  end.

Fixpoint IsEmptyHWAddr_loop (macAddr : bytes) (i n : nat) : Z :=
  match n with
  | O => DHCP_TRUE
  | S n' => if negb (byte_at macAddr i =? 0) then DHCP_FALSE
            else IsEmptyHWAddr_loop macAddr (S i) n'
  end.
Definition IsEmptyHWAddr (macAddr : bytes) : Z :=
  IsEmptyHWAddr_loop macAddr 0 (Z.to_nat MAC_ADDR_LENGTH).

Fixpoint AddrEquels_loop (firstAddr secondAddr : bytes) (i n : nat) : Z :=
  match n with
  | O => DHCP_TRUE
  | S n' => if negb (byte_at firstAddr i =? byte_at secondAddr i) then DHCP_FALSE
            else AddrEquels_loop firstAddr secondAddr (S i) n'
  end.
Definition AddrEquels (firstAddr secondAddr : bytes) (addrLength : Z) : Z :=
  let len := addrLength in
  let len := if len >? DHCP_HWADDR_LENGTH then DHCP_HWADDR_LENGTH else len in
  AddrEquels_loop firstAddr secondAddr 0 (Z.to_nat len).

(** [hostName] is the memory the pointer designates, [DHCP_BOOT_FILE_LENGTH]
    bytes of it: the copy is bounded by that constant, not by the buffer. *)
Definition ParseHostName (strHostName : option bytes) (hostName : option bytes)
    : Z * option bytes :=
  match strHostName, hostName with
  | Some s, Some buf =>
      let '(ok, buf') := memcpy_s buf DHCP_BOOT_FILE_LENGTH s (Z.of_nat (length s)) in
      (if ok then DHCP_TRUE else DHCP_FALSE, Some buf')
  | _, _ => (DHCP_FALSE, hostName)
  end.

(** * Byte order *)

Lemma u32_bits_ext a b :
  is_u32 a -> is_u32 b ->
  (forall i, 0 <= i < 32 -> Z.testbit a i = Z.testbit b i) -> a = b.
Proof.
  unfold is_u32. intros Ha Hb Hbits. apply Z.bits_inj'. intros i Hi.
  destruct (Z_lt_le_dec i 32); [auto|].
  rewrite <- (Z.mod_small a (2 ^ 32)), <- (Z.mod_small b (2 ^ 32)) by lia.
  by rewrite !Z.mod_pow2_bits_high by lia.
Qed.

Lemma range32_cases (P : Z -> Prop) :
  Forall P (map Z.of_nat (seq 0 32)) -> forall i, 0 <= i < 32 -> P i.
Proof.
  intros HP i Hi. rewrite Forall_forall in HP. apply HP.
  apply list_elem_of_In, in_map_iff. exists (Z.to_nat i).
  split; [lia|]. apply in_seq. lia.
Qed.

(** Bit [i] of the swapped word is bit [swap_index i] of the word. *)
Definition swap_index (i : Z) : Z := 8 * (3 - i / 8) + i mod 8.

Lemma swap_index_range i : 0 <= i < 32 -> 0 <= swap_index i < 32.
Proof. unfold swap_index. intros. Z.to_euclidean_division_equations. lia. Qed.

Lemma swap_index_involutive i : 0 <= i < 32 -> swap_index (swap_index i) = i.
Proof. unfold swap_index. intros. Z.to_euclidean_division_equations. lia. Qed.

Lemma htonl_testbit x i :
  0 <= i < 32 -> Z.testbit (htonl x) i = Z.testbit x (swap_index i).
Proof.
  revert i. apply range32_cases. unfold htonl.
  repeat constructor; rewrite !Z.lor_spec, !Z.shiftl_spec, !Z.shiftr_spec, !Z.land_spec by lia;
    cbn -[Z.testbit]; rewrite ?Z.testbit_neg_r by lia;
    repeat match goal with |- context [Z.testbit (Zpos ?p) ?i] =>
      let b := eval vm_compute in (Z.testbit (Zpos p) i) in
      change (Z.testbit (Zpos p) i) with b end;
    rewrite ?andb_true_r, ?andb_false_r, ?orb_false_r; try done.
Qed.

Lemma shiftl_range a n m : 0 <= a < 2 ^ m -> 0 <= n -> 0 <= m -> 0 <= Z.shiftl a n < 2 ^ (m + n).
Proof.
  intros. rewrite Z.shiftl_mul_pow2, Z.pow_add_r by lia.
  assert (0 < 2 ^ n) by (apply Z.pow_pos_nonneg; lia). nia.
Qed.

Lemma land_nonneg_bound x m : 0 <= m -> 0 <= Z.land x m <= m.
Proof.
  intros Hm. split; [apply Z.land_nonneg; auto|].
  assert (H : Z.land x m + Z.ldiff m x = m).
  { rewrite Z.add_nocarry_lor; apply Z.bits_inj'; intros i _;
      rewrite ?Z.lor_spec, ?Z.land_spec, ?Z.ldiff_spec, ?Z.land_spec, ?Z.bits_0;
      by destruct (Z.testbit m i), (Z.testbit x i). }
  assert (0 <= Z.ldiff m x) by (apply Z.ldiff_nonneg; auto). lia.
Qed.

Lemma htonl_range x : is_u32 (htonl x).
Proof.
  assert (Hor : forall a b, is_u32 a -> is_u32 b -> is_u32 (Z.lor a b)).
  { unfold is_u32. intros a b Ha Hb. split; [apply Z.lor_nonneg; lia|].
    destruct (Z.eq_dec (Z.lor a b) 0) as [->|]; [lia|].
    apply Z.log2_lt_pow2; [pose proof (Z.lor_nonneg a b); lia|].
    rewrite Z.log2_lor by lia.
    assert (forall c, 0 <= c < 2 ^ 32 -> Z.log2 c < 32).
    { intros c Hc. destruct (Z.eq_dec c 0) as [->|]; [reflexivity|].
      apply Z.log2_lt_pow2; lia. }
    pose proof (H a). pose proof (H b). lia. }
  unfold htonl, is_u32 in *.
  pose proof (land_nonneg_bound x 0xFF ltac:(lia)).
  pose proof (land_nonneg_bound x 0xFF00 ltac:(lia)).
  pose proof (land_nonneg_bound x 0xFF0000 ltac:(lia)).
  pose proof (land_nonneg_bound x 0xFF000000 ltac:(lia)).
  rewrite !Z.shiftl_mul_pow2, !Z.shiftr_div_pow2 by lia.
  apply Hor; apply Hor; Z.to_euclidean_division_equations; lia.
Qed.

Lemma htonl_involutive_l x : is_u32 x -> htonl (htonl x) = x.
Proof.
  intros Hx. apply u32_bits_ext; [apply htonl_range | done |].
  intros i Hi. rewrite !htonl_testbit by (auto using swap_index_range).
  by rewrite swap_index_involutive.
Qed.

Lemma land_u32 a b : is_u32 b -> is_u32 (Z.land a b).
Proof. unfold is_u32. intros. pose proof (land_nonneg_bound a b). lia. Qed.

Lemma htonl_land a b : htonl (Z.land a b) = Z.land (htonl a) (htonl b).
Proof.
  apply u32_bits_ext; [apply htonl_range | apply land_u32, htonl_range |].
  intros i Hi. by rewrite Z.land_spec, !htonl_testbit, Z.land_spec by done.
Qed.

Lemma htonl_inj a b : is_u32 a -> is_u32 b -> htonl a = htonl b -> a = b.
Proof. intros Ha Hb H. rewrite <- (htonl_involutive_l a), <- (htonl_involutive_l b) by done. by f_equal. Qed.

Lemma htonl_0_iff x : is_u32 x -> htonl x = 0 <-> x = 0.
Proof.
  intros Hx. split; [|by intros ->].
  intros H. apply htonl_inj; [done | unfold is_u32; lia | done].
Qed.

#[export] Hint Resolve htonl_range land_u32 : dhcp.

(** * Host-order reading of the address operations

    [netmask_of k] is the contiguous netmask that leaves [k] host bits. *)

Definition netmask_of (k : Z) : Z := htonl (2 ^ 32 - 2 ^ k).

Definition net_part (h k : Z) : Z := h - h mod 2 ^ k.

Lemma lor_add_low a b n : 0 <= n -> 0 <= b < 2 ^ n -> Z.lor (a * 2 ^ n) b = a * 2 ^ n + b.
Proof.
  intros Hn Hb. symmetry. apply Z.add_nocarry_lor. apply Z.bits_inj'. intros i Hi.
  rewrite Z.land_spec, Z.bits_0. destruct (Z_lt_le_dec i n).
  - by rewrite Z.mul_pow2_bits_low.
  - rewrite <- (Z.mod_small b (2 ^ n)), Z.mod_pow2_bits_high, andb_false_r by lia. done.
Qed.

Lemma land_byte_mask x n : 0 <= n -> Z.land x (Z.shiftl 255 n) = (x / 2 ^ n mod 2 ^ 8) * 2 ^ n.
Proof.
  intros Hn. rewrite <- Z.shiftl_mul_pow2, <- Z.land_ones, <- Z.shiftr_div_pow2 by lia.
  change (Z.ones 8) with 255. apply Z.bits_inj'. intros i Hi.
  rewrite Z.land_spec, !Z.shiftl_spec by lia. destruct (Z_lt_le_dec i n).
  - by rewrite !(Z.testbit_neg_r _ (i - n)), andb_false_r by lia.
  - rewrite Z.land_spec, Z.shiftr_spec by lia. by replace (i - n + n) with i by lia.
Qed.

Lemma htonl_arith x :
  htonl x = (x mod 2 ^ 8) * 2 ^ 24 + (x / 2 ^ 8 mod 2 ^ 8) * 2 ^ 16
            + (x / 2 ^ 16 mod 2 ^ 8) * 2 ^ 8 + x / 2 ^ 24 mod 2 ^ 8.
Proof.
  unfold htonl.
  change 0xFF with (Z.shiftl 255 0); change 0xFF00 with (Z.shiftl 255 8).
  change 0xFF0000 with (Z.shiftl 255 16); change 0xFF000000 with (Z.shiftl 255 24).
  rewrite !land_byte_mask by lia. rewrite Z.pow_0_r, Z.div_1_r, Z.mul_1_r.
  rewrite !Z.shiftl_mul_pow2, !Z.shiftr_div_pow2 by lia.
  replace (x / 2 ^ 16 mod 2 ^ 8 * 2 ^ 16 / 2 ^ 8) with (x / 2 ^ 16 mod 2 ^ 8 * 2 ^ 8)
    by (Z.to_euclidean_division_equations; lia).
  rewrite Z.div_mul by lia.
  rewrite <- Z.mul_assoc. change (2 ^ 8 * 2 ^ 8) with (2 ^ 16).
  set (a := x mod 2 ^ 8); set (b := x / 2 ^ 8 mod 2 ^ 8);
    set (c := x / 2 ^ 16 mod 2 ^ 8); set (d := x / 2 ^ 24 mod 2 ^ 8).
  assert (0 <= a < 2 ^ 8 /\ 0 <= b < 2 ^ 8 /\ 0 <= c < 2 ^ 8 /\ 0 <= d < 2 ^ 8) as (?&?&?&?)
    by (repeat split; apply Z.mod_pos_bound; lia).
  rewrite (lor_add_low a (b * 2 ^ 16) 24), (lor_add_low c d 8) by lia.
  replace (a * 2 ^ 24 + b * 2 ^ 16) with ((a * 2 ^ 8 + b) * 2 ^ 16) by lia.
  rewrite lor_add_low by lia. lia.
Qed.

Lemma testbit_hostmask k i :
  0 <= k <= 32 -> 0 <= i < 32 -> Z.testbit (2 ^ 32 - 2 ^ k) i = (k <=? i).
Proof.
  intros Hk Hi. replace (2 ^ 32 - 2 ^ k) with (Z.shiftl (Z.ones (32 - k)) k).
  - rewrite Z.shiftl_spec by lia. destruct (Z.leb_spec k i).
    + apply Z.ones_spec_low. lia.
    + apply Z.testbit_neg_r. lia.
  - rewrite Z.shiftl_mul_pow2, Z.ones_equiv by lia.
    replace (2 ^ 32) with (2 ^ (32 - k) * 2 ^ k) by (rewrite <- Z.pow_add_r by lia; f_equal; lia). lia.
Qed.

Lemma net_part_spec h k : 0 <= k -> net_part h k = h / 2 ^ k * 2 ^ k.
Proof. unfold net_part. intros. pose proof (Z.div_mod h (2 ^ k)). lia. Qed.

Lemma net_part_range h k :
  is_u32 h -> 0 <= k <= 32 -> 0 <= net_part h k /\ net_part h k + 2 ^ k <= 2 ^ 32.
Proof.
  unfold is_u32. intros Hh Hk. rewrite net_part_spec by lia.
  assert (0 < 2 ^ k) by (apply Z.pow_pos_nonneg; lia).
  assert (0 <= h / 2 ^ k < 2 ^ (32 - k)).
  { split; [apply Z.div_pos; lia|]. apply Z.div_lt_upper_bound; [lia|].
    rewrite <- Z.pow_add_r by lia. replace (k + (32 - k)) with 32 by lia. lia. }
  replace (2 ^ 32) with (2 ^ (32 - k) * 2 ^ k) by (rewrite <- Z.pow_add_r by lia; f_equal; lia). nia.
Qed.

Lemma land_hostmask h k :
  is_u32 h -> 0 <= k <= 32 -> Z.land h (2 ^ 32 - 2 ^ k) = net_part h k.
Proof.
  intros Hh Hk. pose proof (net_part_range h k Hh Hk).
  assert (0 < 2 ^ k) by (apply Z.pow_pos_nonneg; lia).
  apply u32_bits_ext; [apply land_u32; unfold is_u32; lia | unfold is_u32; lia |].
  intros i Hi. rewrite Z.land_spec, testbit_hostmask by lia.
  rewrite net_part_spec by lia. destruct (Z.leb_spec k i).
  - rewrite Z.mul_pow2_bits by lia. rewrite Z.div_pow2_bits by lia.
    rewrite andb_true_r. f_equal. lia.
  - by rewrite Z.mul_pow2_bits_low, andb_false_r by lia.
Qed.

Lemma htonl_NetworkAddress ip k :
  is_u32 ip -> 0 <= k <= 32 ->
  htonl (NetworkAddress ip (netmask_of k)) = net_part (htonl ip) k.
Proof.
  intros Hip Hk. unfold NetworkAddress, netmask_of. rewrite htonl_land, htonl_involutive_l.
  - apply land_hostmask; [apply htonl_range | done].
  - unfold is_u32. assert (0 < 2 ^ k <= 2 ^ 32).
    { split; [apply Z.pow_pos_nonneg; lia | apply Z.pow_le_mono_r; lia]. } lia.
Qed.

Lemma range_cases (P : Z -> Prop) lo n :
  Forall P (map (fun i => lo + Z.of_nat i) (seq 0 n)) ->
  forall i, lo <= i < lo + Z.of_nat n -> P i.
Proof.
  intros HP i Hi. rewrite Forall_forall in HP. apply HP.
  apply list_elem_of_In, in_map_iff. exists (Z.to_nat (i - lo)).
  split; [lia|]. apply in_seq. lia.
Qed.

Lemma HostTotal_netmask k : 1 <= k <= 31 -> HostTotal (netmask_of k) = 2 ^ k - 1.
Proof.
  intros Hk. revert k Hk.
  enough (H : forall k, 1 <= k < 1 + Z.of_nat 31 -> HostTotal (netmask_of k) = 2 ^ k - 1)
    by (intros; apply H; lia).
  apply range_cases. repeat constructor.
Qed.

Section Host_order.
Context (ip k : Z).
Hypothesis Hip : is_u32 ip.
Hypothesis Hk : 1 <= k <= 31.
Let h := htonl ip.
Let m := netmask_of k.

Lemma pow_host_bits : 2 <= 2 ^ k <= 2 ^ 31.
Proof using Hk.
  clear -Hk. split; [change 2 with (2 ^ 1) at 1|]; apply Z.pow_le_mono_r; lia.
Qed.

Lemma htonl_FirstIpAddress : htonl (FirstIpAddress ip m) = net_part h k + 1.
Proof.
  unfold FirstIpAddress. unfold m, h.
  rewrite htonl_NetworkAddress, htonl_involutive_l by (auto using u32_range; lia).
  pose proof (net_part_range (htonl ip) k (htonl_range ip) ltac:(lia)).
  pose proof pow_host_bits. apply u32_small. unfold is_u32. lia.
Qed.

Lemma htonl_BroadCastAddress : htonl (BroadCastAddress ip m) = net_part h k + 2 ^ k - 1.
Proof.
  unfold BroadCastAddress. unfold m, h.
  rewrite htonl_NetworkAddress, HostTotal_netmask, htonl_involutive_l
    by (auto using u32_range; lia).
  pose proof (net_part_range (htonl ip) k (htonl_range ip) ltac:(lia)).
  pose proof pow_host_bits. rewrite u32_small; [|unfold is_u32]; lia.
Qed.

Lemma htonl_LastIpAddress : htonl (LastIpAddress ip m) = net_part h k + 2 ^ k - 2.
Proof.
  unfold LastIpAddress. unfold m, h.
  rewrite htonl_NetworkAddress, HostTotal_netmask by (auto using u32_range; lia).
  pose proof (net_part_range (htonl ip) k (htonl_range ip) ltac:(lia)).
  pose proof pow_host_bits. rewrite u32_small by (unfold is_u32; lia).
  unfold truthy. rewrite (proj2 (Z.eqb_neq _ 0)) by lia. cbn [negb].
  rewrite htonl_involutive_l by (unfold is_u32; lia). lia.
Qed.

(** The address after [ip], read in host order, for any offset below the
    number of hosts; the search of the pool uses the offset 0 except for a
    random start. *)
Lemma htonl_NextIpAddress offset :
  0 <= offset < 2 ^ k - 1 ->
  (h mod 2 ^ k < 2 ^ k - 2 -> h + offset + 1 < 2 ^ 32) ->
  htonl (NextIpAddress ip m offset) =
    if 2 ^ k - 2 <=? h mod 2 ^ k then net_part h k + 1
    else if truthy offset && (2 ^ k - 2 <? h mod 2 ^ k + offset + 1)
    then net_part h k + (h mod 2 ^ k + offset + 1 - (2 ^ k - 2))
    else h + offset + 1.
Proof.
  intros Hoff Hov. unfold NextIpAddress.
  pose proof htonl_LastIpAddress as HL. pose proof htonl_BroadCastAddress as HB.
  pose proof htonl_FirstIpAddress as HF.
  pose proof (htonl_NetworkAddress ip k Hip ltac:(lia)) as HN. fold m h in HN.
  pose proof (HostTotal_netmask k Hk) as HT. fold m in HT.
  pose proof (net_part_range h k (htonl_range ip) ltac:(lia)).
  pose proof pow_host_bits.
  assert (Hmod : 0 <= h mod 2 ^ k < 2 ^ k) by (apply Z.mod_pos_bound; lia).
  assert (Hh : h = net_part h k + h mod 2 ^ k) by (unfold net_part; lia).
  assert (Heq : forall x, is_u32 x -> (ip =? x) = (h =? htonl x)).
  { intros x Hx. destruct (Z.eqb_spec ip x) as [->|Hne]; [by rewrite Z.eqb_refl|].
    symmetry. apply Z.eqb_neq. intros E. apply Hne. by apply htonl_inj. }
  rewrite !Heq by apply htonl_range. rewrite HL, HB, HT.
  assert (E1 : (h =? net_part h k + 2 ^ k - 2) || (h =? net_part h k + 2 ^ k - 1)
               = (2 ^ k - 2 <=? h mod 2 ^ k)).
  { destruct (Z.eqb_spec h (net_part h k + 2 ^ k - 2)),
      (Z.eqb_spec h (net_part h k + 2 ^ k - 1)), (Z.leb_spec (2 ^ k - 2) (h mod 2 ^ k));
      simpl; lia. }
  rewrite E1. destruct (2 ^ k - 2 <=? h mod 2 ^ k) eqn:E2; [done|].
  btauto_hyps. specialize (Hov E2).
  replace (offset >? 2 ^ k - 1) with false by (symmetry; rewrite Z.gtb_ltb; apply Z.ltb_ge; lia).
  cbn [andb]. fold h. rewrite (u32_small (h + offset + 1)) by (unfold is_u32; lia).
  rewrite Z.gtb_ltb, HN.
  replace (net_part h k + 2 ^ k - 2 <? h + offset + 1)
    with (2 ^ k - 2 <? h mod 2 ^ k + offset + 1).
  2: { destruct (Z.ltb_spec (2 ^ k - 2) (h mod 2 ^ k + offset + 1)),
         (Z.ltb_spec (net_part h k + 2 ^ k - 2) (h + offset + 1)); lia. }
  destruct (truthy offset && _) eqn:E3; btauto_hyps;
    rewrite ?htonl_involutive_l; try apply u32_range; rewrite ?u32_small;
    unfold is_u32; btauto_hyps; lia.
Qed.
End Host_order.

Lemma NextIpAddress_u32 ip m offset : is_u32 (NextIpAddress ip m offset).
Proof. unfold NextIpAddress, FirstIpAddress. repeat case_match; apply htonl_range. Qed.

(** The host-order address [net + p] as the [uint32_t] the code holds. *)
Definition host_addr (net p : Z) : Z := htonl (net + p).

Lemma host_addr_of ip k : is_u32 ip -> host_addr (net_part (htonl ip) k) (htonl ip mod 2 ^ k) = ip.
Proof.
  intros Hip. unfold host_addr, net_part. rewrite Z.sub_add. by apply htonl_involutive_l.
Qed.

Section Walk.
Context (net k : Z).
Hypothesis Hk : 1 <= k <= 31.
Hypothesis Hnet : net mod 2 ^ k = 0.
Hypothesis Hnet_range : 0 <= net /\ net + 2 ^ k <= 2 ^ 32.

Lemma host_addr_u32 p : 0 <= p < 2 ^ k -> is_u32 (net + p).
Proof. unfold is_u32. lia. Qed.

Lemma host_addr_parts p :
  0 <= p < 2 ^ k -> net_part (net + p) k = net /\ (net + p) mod 2 ^ k = p.
Proof.
  intros Hp. assert (E : (net + p) mod 2 ^ k = p).
  { rewrite <- Z.add_mod_idemp_l, Hnet by lia. apply Z.mod_small. lia. }
  unfold net_part. rewrite E. lia.
Qed.

(** One step of the walk with offset 0 goes to the next host and wraps
    from the last host (and from the broadcast address) to the first. *)
Lemma NextIpAddress_step p :
  0 <= p < 2 ^ k ->
  NextIpAddress (host_addr net p) (netmask_of k) 0 =
  host_addr net (if 2 ^ k - 2 <=? p then 1 else p + 1).
Proof.
  intros Hp. pose proof (host_addr_parts p Hp) as [E1 E2].
  pose proof (host_addr_u32 p Hp) as Hu.
  assert (Hh : htonl (host_addr net p) = net + p)
    by (unfold host_addr; by rewrite htonl_involutive_l).
  apply htonl_inj; [apply NextIpAddress_u32 | apply htonl_range |].
  unfold host_addr at 2.
  assert (2 <= 2 ^ k) by (change 2 with (2 ^ 1) at 1; apply Z.pow_le_mono_r; lia).
  rewrite htonl_NextIpAddress; rewrite ?Hh, ?E2; try lia; [| apply htonl_range].
  rewrite E1. change (truthy 0) with false. cbn [andb].
  rewrite htonl_involutive_l by
    (destruct (Z.leb_spec (2 ^ k - 2) p); apply host_addr_u32; lia).
  destruct (Z.leb_spec (2 ^ k - 2) p); lia.
Qed.
End Walk.

(** [n] successive candidates of the sequential search. *)
Definition walk (netmask : Z) (n : nat) (ip : Z) : Z :=
  Nat.iter n (fun a => NextIpAddress a netmask 0) ip.

Lemma walk_add netmask n1 n2 ip : walk netmask (n1 + n2) ip = walk netmask n1 (walk netmask n2 ip).
Proof. apply Nat.iter_add. Qed.

Lemma walk_forward net k n p :
  1 <= k <= 31 -> net mod 2 ^ k = 0 -> 0 <= net /\ net + 2 ^ k <= 2 ^ 32 ->
  0 <= p -> p + Z.of_nat n <= 2 ^ k - 2 ->
  walk (netmask_of k) n (host_addr net p) = host_addr net (p + Z.of_nat n).
Proof.
  intros Hk Hm Hr Hp. induction n as [|n IH]; intros Hn; [by rewrite Z.add_0_r|].
  change (walk (netmask_of k) (S n) (host_addr net p))
    with (NextIpAddress (walk (netmask_of k) n (host_addr net p)) (netmask_of k) 0).
  rewrite IH, (NextIpAddress_step net k) by lia.
  f_equal. destruct (Z.leb_spec (2 ^ k - 2) (p + Z.of_nat n)); lia.
Qed.

Lemma walk_reaches net k p t :
  1 <= k <= 31 -> net mod 2 ^ k = 0 -> 0 <= net /\ net + 2 ^ k <= 2 ^ 32 ->
  0 <= p < 2 ^ k -> 1 <= t <= 2 ^ k - 2 ->
  exists n, (1 <= n)%nat /\ Z.of_nat n <= 2 ^ k - 2 /\
    walk (netmask_of k) n (host_addr net p) = host_addr net t.
Proof.
  intros Hk Hm Hr Hp Ht. destruct (Z_lt_le_dec p t).
  - exists (Z.to_nat (t - p)). split; [lia|]. split; [lia|].
    rewrite walk_forward by lia. f_equal. lia.
  - assert (Hwrap : forall q, 2 ^ k - 2 <= q < 2 ^ k ->
              walk (netmask_of k) 1 (host_addr net q) = host_addr net 1).
    { intros q Hq. change (walk (netmask_of k) 1 (host_addr net q))
        with (NextIpAddress (host_addr net q) (netmask_of k) 0).
      rewrite (NextIpAddress_step net k) by lia.
      f_equal. destruct (Z.leb_spec (2 ^ k - 2) q); lia. }
    destruct (Z.eq_dec p (2 ^ k - 1)) as [->|Hne].
    + exists (Z.to_nat (t - 1) + 1)%nat. split; [lia|]. split; [lia|].
      rewrite walk_add, Hwrap, walk_forward by lia. f_equal. lia.
    + exists (Z.to_nat (t - 1) + 1 + Z.to_nat (2 ^ k - 2 - p))%nat. split; [lia|]. split; [lia|].
      rewrite walk_add, (walk_forward net k _ p) by lia.
      rewrite walk_add, Hwrap, walk_forward by lia. f_equal. lia.
Qed.

Lemma walk_enumerates ip target k :
  is_u32 ip -> is_u32 target -> 1 <= k <= 31 ->
  NetworkAddress target (netmask_of k) = NetworkAddress ip (netmask_of k) ->
  target <> NetworkAddress target (netmask_of k) ->
  target <> BroadCastAddress target (netmask_of k) ->
  exists n, (1 <= n)%nat /\ Z.of_nat n < HostTotal (netmask_of k) /\
    walk (netmask_of k) n ip = target.
Proof.
  intros Hip Ht Hk Hnet Hn1 Hn2.
  pose proof (htonl_NetworkAddress ip k Hip ltac:(lia)) as E1.
  pose proof (htonl_NetworkAddress target k Ht ltac:(lia)) as E2.
  pose proof (htonl_BroadCastAddress target k Ht Hk) as E3.
  assert (Hp2 : 0 < 2 ^ k) by (apply Z.pow_pos_nonneg; lia).
  rewrite <- (host_addr_of ip k Hip), <- (host_addr_of target k Ht).
  rewrite Hnet, E1 in E2. rewrite <- E2.
  assert (Hb : forall x, 0 <= htonl x mod 2 ^ k < 2 ^ k) by (intros; apply Z.mod_pos_bound; lia).
  destruct (walk_reaches (net_part (htonl ip) k) k (htonl ip mod 2 ^ k) (htonl target mod 2 ^ k))
    as (n & H1 & H2 & H3).
  - done.
  - rewrite net_part_spec by lia. apply Z.mod_mul. lia.
  - apply net_part_range; [apply htonl_range | lia].
  - apply Hb.
  - specialize (Hb target). split.
    + enough (htonl target mod 2 ^ k <> 0) by lia. intros E. apply Hn1.
      apply htonl_inj; [done | apply land_u32, htonl_range |]. rewrite Hnet, E1, E2.
      unfold net_part. lia.
    + enough (htonl target mod 2 ^ k <> 2 ^ k - 1) by lia. intros E. apply Hn2.
      apply htonl_inj; [done | apply htonl_range |]. rewrite E3. unfold net_part. lia.
  - exists n. rewrite HostTotal_netmask by done. split; [done|]. split; [lia|done].
Qed.

(** Whatever address of a network with at most 30 prefix bits the search
    starts from, stepping with [NextIpAddress] (offset 0) meets every host
    address of that network within as many steps as there are hosts, so a
    search bounded by [HostTotal] tries all of them. *)
Theorem NextIpAddress_enumerates ip target k :
  is_u32 ip -> is_u32 target -> 1 <= k <= 31 ->
  NetworkAddress target (netmask_of k) = NetworkAddress ip (netmask_of k) ->
  target <> NetworkAddress target (netmask_of k) ->
  target <> BroadCastAddress target (netmask_of k) ->
  exists n, (1 <= n)%nat /\ Z.of_nat n < HostTotal (netmask_of k) /\
    walk (netmask_of k) n ip = target.
Proof. apply walk_enumerates. Qed.

(** The walk over 192.168.62.0/24 from 192.168.62.254 reaches 192.168.62.100. *)
Lemma NextIpAddress_enumerates_witness :
  exists n, (1 <= n)%nat /\ Z.of_nat n < HostTotal (netmask_of 8) /\
    walk (netmask_of 8) n 0xFE3EA8C0 = 0x643EA8C0.
Proof.
  apply (NextIpAddress_enumerates 0xFE3EA8C0 0x643EA8C0 8);
    [unfold is_u32; lia | unfold is_u32; lia | lia | reflexivity | discriminate | discriminate].
Defined.

(** * The broadcast address *)

Lemma htonl_lor a b : htonl (Z.lor a b) = Z.lor (htonl a) (htonl b).
Proof.
  unfold htonl. rewrite !Z.land_lor_distr_l, !Z.shiftl_lor, !Z.shiftr_lor.
  rewrite <- !Z.lor_assoc.
  apply Z.bits_inj'. intros i _. rewrite !Z.lor_spec. btauto.
Qed.

(** The broadcast address computed by adding the host total to the
    network agrees with the bitwise form [network | ~netmask] that
    [ReplyCommontOption] sends, for every contiguous netmask. *)
Theorem BroadCastAddress_bitwise ip k :
  is_u32 ip -> 1 <= k <= 31 ->
  BroadCastAddress ip (netmask_of k) =
  Z.lor (u32 (Z.lnot (netmask_of k))) (Z.land ip (netmask_of k)).
Proof.
  intros Hip Hk. assert (Hp : 2 <= 2 ^ k <= 2 ^ 31) by (by apply pow_host_bits).
  assert (Hnot : htonl (u32 (Z.lnot (netmask_of k))) = 2 ^ k - 1).
  { apply u32_bits_ext; [apply htonl_range | unfold is_u32; lia |].
    intros i Hi. rewrite htonl_testbit by done. unfold u32.
    pose proof (swap_index_range i Hi).
    rewrite Z.mod_pow2_bits_low, Z.lnot_spec by lia. unfold netmask_of.
    rewrite htonl_testbit, swap_index_involutive, testbit_hostmask by lia.
    replace (2 ^ k - 1) with (Z.ones k) by (rewrite Z.ones_equiv; lia).
    destruct (Z.leb_spec k i); [by rewrite Z.ones_spec_high by lia | by rewrite Z.ones_spec_low by lia]. }
  assert (Hu : is_u32 (Z.lor (u32 (Z.lnot (netmask_of k))) (Z.land ip (netmask_of k)))).
  { rewrite <- (htonl_involutive_l (u32 (Z.lnot (netmask_of k)))) by apply u32_range.
    rewrite <- (htonl_involutive_l (Z.land ip (netmask_of k))) by (apply land_u32, htonl_range).
    rewrite <- htonl_lor. apply htonl_range. }
  apply htonl_inj; [apply htonl_range | done |].
  rewrite htonl_BroadCastAddress, htonl_lor, Hnot by done.
  pose proof (net_part_range (htonl ip) k (htonl_range ip) ltac:(lia)).
  change (Z.land ip (netmask_of k)) with (NetworkAddress ip (netmask_of k)).
  rewrite htonl_NetworkAddress by (done || lia).
  rewrite net_part_spec, Z.lor_comm, lor_add_low by lia. lia.
Qed.

Lemma BroadCastAddress_bitwise_witness :
  BroadCastAddress 0x013EA8C0 (netmask_of 8) = 0xFF3EA8C0 /\
  BroadCastAddress 0x013EA8C0 (netmask_of 8) =
    Z.lor (u32 (Z.lnot (netmask_of 8))) (Z.land 0x013EA8C0 (netmask_of 8)).
Proof.
  split; [reflexivity | apply BroadCastAddress_bitwise; [unfold is_u32; lia | lia]].
Defined.

(** * Range test *)

Lemma u32_digits x :
  is_u32 x -> exists a b c d,
    is_u8 a /\ is_u8 b /\ is_u8 c /\ is_u8 d /\
    x = a + b * 2 ^ 8 + c * 2 ^ 16 + d * 2 ^ 24 /\
    htonl x = a * 2 ^ 24 + b * 2 ^ 16 + c * 2 ^ 8 + d.
Proof.
  intros Hx. exists (x mod 2 ^ 8), (x / 2 ^ 8 mod 2 ^ 8), (x / 2 ^ 16 mod 2 ^ 8), (x / 2 ^ 24 mod 2 ^ 8).
  rewrite htonl_arith. unfold is_u8, is_u32 in *.
  repeat split; try (apply Z.mod_pos_bound; lia);
    Z.to_euclidean_division_equations; lia.
Qed.

Lemma net_part_coarser h1 h2 k k' :
  0 <= k <= k' -> net_part h1 k = net_part h2 k -> h1 / 2 ^ k' = h2 / 2 ^ k'.
Proof.
  intros Hk H. rewrite !net_part_spec in H by lia.
  assert (0 < 2 ^ k) by (apply Z.pow_pos_nonneg; lia).
  apply Z.mul_reg_r in H; [|lia].
  replace k' with (k + (k' - k)) by lia.
  by rewrite !Z.pow_add_r, <- !Z.div_div, H by (try (apply Z.pow_nonzero || apply Z.pow_pos_nonneg); lia).
Qed.

Lemma same_prefix_diff x y k :
  is_u32 x -> is_u32 y -> 0 <= k <= 8 ->
  net_part (htonl x) k = net_part (htonl y) k ->
  x - y = 2 ^ 24 * (htonl x - htonl y).
Proof.
  intros Hx Hy Hk H. apply (net_part_coarser _ _ _ 8) in H; [|done].
  destruct (u32_digits x Hx) as (a & b & c & d & ? & ? & ? & ? & Ex & Hhx).
  destruct (u32_digits y Hy) as (a' & b' & c' & d' & ? & ? & ? & ? & Ey & Hhy).
  rewrite Hhx, Hhy in *. unfold is_u8 in *.
  replace (a * 2 ^ 24 + b * 2 ^ 16 + c * 2 ^ 8 + d) with (d + (a * 2 ^ 16 + b * 2 ^ 8 + c) * 2 ^ 8) in H by lia.
  replace (a' * 2 ^ 24 + b' * 2 ^ 16 + c' * 2 ^ 8 + d') with (d' + (a' * 2 ^ 16 + b' * 2 ^ 8 + c') * 2 ^ 8) in H by lia.
  rewrite !Z.div_add, !(Z.div_small _ (2 ^ 8)) in H by lia. lia.
Qed.

Lemma IpInRange_spec ip beginIp endIp netmask :
  IpInRange ip beginIp endIp netmask = DHCP_TRUE <->
  NetworkAddress ip netmask = NetworkAddress beginIp netmask /\
  NetworkAddress beginIp netmask = NetworkAddress endIp netmask /\ beginIp <= ip <= endIp.
Proof.
  unfold IpInRange, DHCP_TRUE, DHCP_FALSE. rewrite Z.geb_leb.
  destruct (Z.eqb_spec (NetworkAddress ip netmask) (NetworkAddress beginIp netmask)),
    (Z.eqb_spec (NetworkAddress beginIp netmask) (NetworkAddress endIp netmask)); simpl;
    try (split; [done | intros (? & ? & ?); congruence]).
  destruct (Z.leb_spec beginIp ip), (Z.leb_spec ip endIp); simpl;
    (split; [intros; repeat split; lia || done | intros (? & ? & ? & ?); lia]).
Qed.

Lemma IpInRange_bool ip beginIp endIp netmask :
  IpInRange ip beginIp endIp netmask = DHCP_TRUE \/ IpInRange ip beginIp endIp netmask = DHCP_FALSE.
Proof. unfold IpInRange. repeat case_match; auto. Qed.

Lemma IpInRange_host_order_lemma ip beginIp endIp k :
  is_u32 ip -> is_u32 beginIp -> is_u32 endIp -> 0 <= k <= 8 ->
  IpInRange ip beginIp endIp (netmask_of k) = DHCP_TRUE <->
  net_part (htonl ip) k = net_part (htonl beginIp) k /\
  net_part (htonl beginIp) k = net_part (htonl endIp) k /\
  htonl beginIp <= htonl ip <= htonl endIp.
Proof.
  intros Hi Hb He Hk. rewrite IpInRange_spec.
  assert (Hn : forall x y, NetworkAddress x (netmask_of k) = NetworkAddress y (netmask_of k) <->
            htonl (NetworkAddress x (netmask_of k)) = htonl (NetworkAddress y (netmask_of k))).
  { intros x y. split; [by intros ->|]. apply htonl_inj; apply land_u32, htonl_range. }
  rewrite !Hn, !htonl_NetworkAddress by (done || lia).
  split; intros (H1 & H2 & H3); (split; [done|split; [done|]]);
    pose proof (same_prefix_diff ip beginIp k Hi Hb Hk H1);
    pose proof (same_prefix_diff endIp ip k He Hi Hk ltac:(congruence)); lia.
Qed.

(** For netmasks of at least 24 prefix bits, [IpInRange], which compares
    addresses in network byte order, decides exactly membership in the range
    from [beginIp] to [endIp] of host addresses. *)
Theorem IpInRange_host_order ip beginIp endIp k :
  is_u32 ip -> is_u32 beginIp -> is_u32 endIp -> 0 <= k <= 8 ->
  IpInRange ip beginIp endIp (netmask_of k) = DHCP_TRUE <->
  net_part (htonl ip) k = net_part (htonl beginIp) k /\
  net_part (htonl beginIp) k = net_part (htonl endIp) k /\
  htonl beginIp <= htonl ip <= htonl endIp.
Proof. apply IpInRange_host_order_lemma. Qed.

Lemma IpInRange_host_order_witness :
  IpInRange 0x643EA8C0 0x033EA8C0 0xFE3EA8C0 (netmask_of 8) = DHCP_TRUE <->
  net_part (htonl 0x643EA8C0) 8 = net_part (htonl 0x033EA8C0) 8 /\
  net_part (htonl 0x033EA8C0) 8 = net_part (htonl 0xFE3EA8C0) 8 /\
  htonl 0x033EA8C0 <= htonl 0x643EA8C0 <= htonl 0xFE3EA8C0.
Proof. apply IpInRange_host_order; unfold is_u32; lia. Defined.

(** For a shorter prefix the byte order shows: in 10.0.0.0/16 the address
    10.0.0.250 lies between 10.0.0.200 and 10.0.1.100, and [IpInRange] refuses
    it, as it refuses every address of that range; and [IpInNetwork] refuses
    10.0.1.0, a host address of the server's own network. *)
Theorem IpInRange_wrong_order :
  let m := netmask_of 16 in
  let beginIp := 0xC800000A in
  let endIp := 0x6401000A in
  htonl beginIp <= htonl 0xFA00000A <= htonl endIp /\
  (forall ip, IpInRange ip beginIp endIp m = DHCP_FALSE) /\
  NetworkAddress 0x0001000A m = NetworkAddress 0x0100000A m /\
  IpInNetwork 0x0001000A 0x0100000A m = DHCP_FALSE.
Proof.
  split; [vm_compute; split; discriminate|]. split; [|by vm_compute].
  intros ip. destruct (IpInRange_bool ip 0xC800000A 0x6401000A (netmask_of 16)) as [H|H]; [|done].
  apply IpInRange_spec in H as (_ & _ & H). exfalso. lia.
Qed.

(** * Hardware-address text *)

Lemma hex_digit_convert d : 0 <= d < 16 -> IsValidHexCharAndConvert (hex_digit d) = d.
Proof.
  revert d. change 16 with (0 + Z.of_nat 16). apply range_cases. repeat constructor.
Qed.

Lemma octet_digits b :
  is_u8 b -> u8 (Z.lor (u8 (Z.shiftl (u8 (Z.lor (u8 (Z.shiftl 0 4)) (b / 16))) 4)) (b mod 16)) = b.
Proof.
  unfold is_u8. revert b. change (2 ^ 8) with (0 + Z.of_nat 256). apply range_cases.
  rewrite Forall_forall. intros x Hx.
  apply list_elem_of_In, in_map_iff in Hx as (i & <- & Hi%in_seq).
  assert (Hb : forallb (fun i => let b := 0 + Z.of_nat i in
    u8 (Z.lor (u8 (Z.shiftl (u8 (Z.lor (u8 (Z.shiftl 0 4)) (b / 16))) 4)) (b mod 16)) =? b)
    (seq 0 256) = true) by (vm_compute; reflexivity).
  rewrite forallb_forall in Hb. apply Z.eqb_eq, Hb, in_seq. lia.
Qed.

(** Two hex digits and the separator that follows store one octet. *)
Lemma ParseMacAddress_octet b s i mac :
  is_u8 b ->
  ParseMacAddress_loop (hex2 b ++ colon :: s) i 0 0 mac =
  ParseMacAddress_loop s (S (S (S i))) 0 0 (<[(S (S i) / 3)%nat := b]> mac).
Proof.
  intros Hb. unfold hex2. cbn [app ParseMacAddress_loop].
  assert (0 <= b / 16 < 16 /\ 0 <= b mod 16 < 16)
    by (unfold is_u8 in Hb; Z.to_euclidean_division_equations; lia).
  change (colon =? colon) with true. cbn [Z.eqb Z.add orb negb Pos.eqb Pos.add].
  rewrite !hex_digit_convert by lia.
  rewrite !(proj2 (Z.ltb_ge _ 0)) by lia. by rewrite octet_digits.
Qed.

Lemma ParseMacAddress_last_octet b i mac :
  is_u8 b ->
  ParseMacAddress_loop (hex2 b) i 0 0 mac = (DHCP_TRUE, <[5%nat := b]> mac).
Proof.
  intros Hb. unfold hex2. cbn [app ParseMacAddress_loop].
  assert (0 <= b / 16 < 16 /\ 0 <= b mod 16 < 16)
    by (unfold is_u8 in Hb; Z.to_euclidean_division_equations; lia).
  cbn [Z.eqb Z.add orb negb Pos.eqb Pos.add].
  rewrite !hex_digit_convert by lia.
  rewrite !(proj2 (Z.ltb_ge _ 0)) by lia. by rewrite octet_digits.
Qed.

Lemma ParseMacAddress_ParseStrMac_lemma mac size s buf :
  Forall is_u8 mac -> (6 <= length mac)%nat -> (6 <= length buf)%nat ->
  ParseStrMac (Some mac) size = Some s ->
  ParseMacAddress (Some s) buf = (DHCP_TRUE, take 6 mac ++ drop 6 buf).
Proof.
  intros Hm Hl Hb Hs. unfold ParseStrMac in Hs.
  destruct (size <? MAC_ADDR_LENGTH); [done|]. apply Some_inj in Hs as <-.
  destruct mac as [|a0 [|a1 [|a2 [|a3 [|a4 [|a5 mac]]]]]]; cbn in Hl; try lia.
  destruct buf as [|x0 [|x1 [|x2 [|x3 [|x4 [|x5 buf]]]]]]; cbn in Hb; try lia.
  repeat match goal with H : Forall is_u8 (_ :: _) |- _ => apply Forall_cons in H as [? H] end.
  unfold byte_at. cbn [nth]. unfold ParseMacAddress.
  match goal with |- context [Z.of_nat (length ?l)] => change (Z.of_nat (length l)) with 17 end.
  change (17 =? MAC_STRING_SIZE) with true. cbn [negb].
  rewrite !ParseMacAddress_octet, ParseMacAddress_last_octet by done. done.
Qed.

(** Reading back the text of a hardware address stores its six octets and
    leaves the rest of the buffer alone. *)
Theorem ParseMacAddress_ParseStrMac mac s buf :
  Forall is_u8 mac -> (6 <= length mac)%nat -> (6 <= length buf)%nat ->
  ParseStrMac (Some mac) DHCP_HWADDR_LENGTH = Some s ->
  ParseMacAddress (Some s) buf = (DHCP_TRUE, take 6 mac ++ drop 6 buf).
Proof. apply ParseMacAddress_ParseStrMac_lemma. Qed.

Lemma ParseMacAddress_ParseStrMac_witness :
  let mac := [0x3c; 0x07; 0xab; 0xff; 0x10; 0x9e] ++ zeros 10 in
  ParseMacAddress (Some (str "3c:07:ab:ff:10:9e")) (zeros 16) =
    (DHCP_TRUE, take 6 mac ++ drop 6 (zeros 16)).
Proof.
  cbv zeta. apply ParseMacAddress_ParseStrMac.
  - repeat constructor; discriminate.
  - cbn. lia.
  - cbn. lia.
  - reflexivity.
Defined.

Lemma IsEmptyHWAddr_spec mac :
  IsEmptyHWAddr mac = DHCP_TRUE <-> forall i, (i < 6)%nat -> byte_at mac i = 0.
Proof.
  unfold IsEmptyHWAddr. change (Z.to_nat MAC_ADDR_LENGTH) with 6%nat. cbn [IsEmptyHWAddr_loop].
  repeat match goal with |- context [byte_at mac ?i =? 0] =>
    destruct (Z.eqb_spec (byte_at mac i) 0) end; simpl;
    (split; [try done | intros H]); try (by exfalso; eauto with lia);
    try (exfalso; match goal with n : byte_at mac ?i <> 0 |- _ => apply n, H; lia end); try done.
  intros _ i Hi. do 6 (destruct i as [|i]; [done|]). lia.
Qed.

Lemma AddrEquels_spec a b :
  AddrEquels a b MAC_ADDR_LENGTH = DHCP_TRUE <-> forall i, (i < 6)%nat -> byte_at a i = byte_at b i.
Proof.
  unfold AddrEquels. change (Z.to_nat _) with 6%nat. cbn [AddrEquels_loop].
  repeat match goal with |- context [byte_at a ?i =? byte_at b ?i] =>
    destruct (Z.eqb_spec (byte_at a i) (byte_at b i)) end; simpl;
    (split; [try done | intros H]);
    try (exfalso; match goal with n : byte_at a ?i <> byte_at b ?i |- _ => apply n, H; lia end); try done.
  intros _ i Hi. do 6 (destruct i as [|i]; [done|]). lia.
Qed.

Lemma AddrEquels_bool a b n : AddrEquels a b n = DHCP_TRUE \/ AddrEquels a b n = DHCP_FALSE.
Proof.
  unfold AddrEquels. generalize 0%nat as i.
  induction (Z.to_nat _) as [|m IH]; intros i; cbn; [by left|]. case_match; auto.
Qed.
