(* ===== verification/OptionList.v ===== *)
(** DHCP options and the option list (src/services/dhcp_server/src/dhcp_option.cpp).

    The list is the doubly linked list with a sentinel node that the code
    keeps in malloc'ed memory.  Section [Heap] translates the operations
    pointer by pointer over a heap of nodes; Section [Contract] states what
    they promise as operations on the sequence of options, and the refinement
    theorems relate the two.  The other components use the sequence. *)
From S2P Require Import Prelude AddressUtils.

Definition RET_SUCCESS : Z := 0.
Definition RET_FAILED : Z := 1.
Definition RET_ERROR : Z := 2.
Definition ERR_SELECT : Z := 3.
Definition RET_BREAK : Z := 4.
Definition RET_WAIT_SAVE : Z := 5.
Definition RET_SELECT_TIME_OUT : Z := 7.
Definition DHCP_OPTION_SIZE : Z := 256.
Definition DHCP_ADDRESS_LENGTH : Z := 4.

(** Option codes of dhcp_define.h. *)
Definition PAD_OPTION : Z := 0.
Definition SUBNET_MASK_OPTION : Z := 1.
Definition TIME_OFFSET_OPTION : Z := 2.
Definition ROUTER_OPTION : Z := 3.
Definition DOMAIN_NAME_SERVER_OPTION : Z := 6.
Definition HOST_NAME_OPTION : Z := 12.
Definition DOMAIN_NAME_OPTION : Z := 15.
Definition INTERFACE_MTU_OPTION : Z := 26.
Definition BROADCAST_ADDRESS_OPTION : Z := 28.
Definition NETWORK_TIME_PROTOCOL_SERVERS_OPTION : Z := 42.
Definition VENDOR_SPECIFIC_INFO_OPTION : Z := 43.
Definition REQUESTED_IP_ADDRESS_OPTION : Z := 50.
Definition IP_ADDRESS_LEASE_TIME_OPTION : Z := 51.
Definition OPTION_OVERLOAD_OPTION : Z := 52.
Definition DHCP_MESSAGE_TYPE_OPTION : Z := 53.
Definition SERVER_IDENTIFIER_OPTION : Z := 54.
Definition PARAMETER_REQUEST_LIST_OPTION : Z := 55.
Definition MESSAGE_OPTION : Z := 56.
Definition MAXIMUM_DHCP_MESSAGE_SIZE_OPTION : Z := 57.
Definition RENEWAL_TIME_VALUE_OPTION : Z := 58.
Definition REBINDING_TIME_VALUE_OPTION : Z := 59.
Definition VENDOR_CLASS_IDENTIFIER_OPTION : Z := 60.
Definition USER_CLASS_OPTION : Z := 77.
Definition RAPID_COMMIT_OPTION : Z := 80.
Definition IPV6_ONLY_PREFERRED_OPTION : Z := 108.
Definition FORCERENEW_NONCE_OPTION : Z := 145.
Definition END_OPTION : Z := 255.

(** [data] is the array of [DHCP_OPTION_SIZE] bytes. *)
Record DhcpOption := mkOption { code : Z; length_ : Z; data : bytes }.

#[export] Instance DhcpOption_eq_dec : EqDecision DhcpOption.
Proof. solve_decision. Defined.

(** An option whose array starts with [d] and is zero after it, as a C
    initialiser builds it. *)
Definition option_of (c len : Z) (d : bytes) : DhcpOption :=
  mkOption c len (pad (Z.to_nat DHCP_OPTION_SIZE) d).

Definition wf_option (o : DhcpOption) : Prop :=
  is_u8 (code o) /\ is_u8 (length_ o) /\ length (data o) = Z.to_nat DHCP_OPTION_SIZE.

(** * Filling an option *)

Definition set_data (o : DhcpOption) (len : Z) (d : bytes) : DhcpOption :=
  mkOption (code o) len d.

Definition FillOption (pOption : option DhcpOption) (d : option bytes) (len : Z)
    : Z * option DhcpOption :=
  match pOption, d with
  | None, _ => (RET_ERROR, None)
  | Some o, None => (RET_FAILED, Some o)
  | Some o, Some d =>
      let flen := len in
      let flen := if flen >? DHCP_OPTION_SIZE - 1 then DHCP_OPTION_SIZE - 1 else flen in
      let '(ok, buf) := memcpy_s (data o) (DHCP_OPTION_SIZE - 1) d flen in
      if negb ok then (RET_ERROR, Some (set_data o (length_ o) buf))
      else (RET_SUCCESS, Some (set_data o (u8 flen) buf))
  end.

Definition FillU32Option (pOption : option DhcpOption) (u : Z) : Z * option DhcpOption :=
  match pOption with
  | None => (RET_ERROR, None)
  | Some o =>
      let '(ok, buf) := memcpy_s (data o) DHCP_OPTION_SIZE (le32 u) 4 in
      if negb ok then (RET_ERROR, Some (set_data o (length_ o) buf))
      else (RET_SUCCESS, Some (set_data o 4 buf))
  end.

Definition FillOptionData (pOption : option DhcpOption) (d : option bytes) (len : Z)
    : Z * option DhcpOption :=
  match pOption, d with
  | None, _ => (RET_ERROR, None)
  | Some o, None => (RET_FAILED, Some o)
  | Some o, Some d =>
      let flen := if len >? DHCP_OPTION_SIZE then DHCP_OPTION_SIZE else len in
      let '(ok, buf) := memcpy_s (data o) DHCP_OPTION_SIZE d flen in
      if negb ok then (RET_ERROR, Some (set_data o (length_ o) buf))
      else (RET_SUCCESS, Some (set_data o (u8 flen) buf))
  end.

Definition AppendAddressOption (pOption : option DhcpOption) (address : Z)
    : Z * option DhcpOption :=
  match pOption with
  | None => (RET_ERROR, None)
  | Some o =>
      let addrLen := length_ o in
      let spaceSize := DHCP_OPTION_SIZE - addrLen in
      if spaceSize <? DHCP_ADDRESS_LENGTH then (RET_ERROR, Some o)
      else
        let off := if addrLen >? 0 then Z.to_nat addrLen else 0%nat in
        let '(ok, tail) := memcpy_s (drop off (data o)) spaceSize (le32 address) DHCP_ADDRESS_LENGTH in
        let buf := take off (data o) ++ tail in
        if negb ok then (RET_ERROR, Some (set_data o addrLen buf))
        else (RET_SUCCESS, Some (set_data o (u8 (addrLen + DHCP_ADDRESS_LENGTH)) buf))
  end.

(** * The list in memory *)

Definition loc := positive.

Record DhcpOptionNode := mkNode {
  previous : option loc;
  next : option loc;
  node_option : DhcpOption
}.

Record DhcpOptionList := mkList { first : option loc; last_ : option loc; size_ : Z }.

(** The allocated nodes, the next address handed out, and how many more
    allocations succeed ([calloc] returns null after that). *)
Record Memory := mkMemory { heap : gmap loc DhcpOptionNode; brk : loc; avail : nat }.

Definition set_heap (h : gmap loc DhcpOptionNode) (m : Memory) : Memory :=
  mkMemory h (brk m) (avail m).

Section Heap.
Definition load (p : loc) : M Memory DhcpOptionNode :=
  fun m => match heap m !! p with Some n => Some (n, m) | None => None end.
Definition store (p : loc) (n : DhcpOptionNode) : M Memory unit :=
  fun m => match heap m !! p with
           | Some _ => Some (tt, set_heap (<[p := n]> (heap m)) m)
           | None => None
           end.
Definition free (p : loc) : M Memory unit :=
  fun m => match heap m !! p with
           | Some _ => Some (tt, set_heap (delete p (heap m)) m)
           | None => None
           end.
(** Dereferencing a pointer that may be null. *)
Definition deref (p : option loc) : M Memory loc := from_option p.

Definition set_previous (p : loc) (v : option loc) : M Memory unit :=
  let* n := load p in store p (mkNode v (next n) (node_option n)).
Definition set_next (p : loc) (v : option loc) : M Memory unit :=
  let* n := load p in store p (mkNode (previous n) v (node_option n)).

Definition zero_option : DhcpOption := option_of 0 0 [].

Definition calloc_node : M Memory (option loc) :=
  fun m => match avail m with
           | O => Some (None, m)
           | S a => let p := brk m in
               Some (Some p, mkMemory (<[p := mkNode None None zero_option]> (heap m))
                                      (Pos.succ p) a)
           end.

Definition CreateOptionNode (opt : option DhcpOption) : M Memory (option loc) :=
  match opt with
  | None => ret None
  | Some o =>
      let* pNode := calloc_node in
      match pNode with
      | None => ret None
      | Some p =>
          if length_ o =? 0 then free p ;; ret None
          else
            let '(ok, buf) := memcpy_s (data zero_option) DHCP_OPTION_SIZE (data o) (length_ o) in
            if negb ok then free p ;; ret None
            else store p (mkNode None None (mkOption (code o) (length_ o) buf)) ;; ret (Some p)
      end
  end.

Definition HasInitialized (pOptions : option DhcpOptionList) : Z :=
  match pOptions with
  | None => 0
  | Some l => if decide (first l <> None) then 1 else 0
  end.

Definition InitOptionList (pOptions : option DhcpOptionList)
    : M Memory (Z * option DhcpOptionList) :=
  match pOptions with
  | None => ret (RET_ERROR, None)
  | Some l =>
      if decide (first l <> None /\ first l = last_ l) then ret (RET_SUCCESS, Some l)
      else
        let* pNode := calloc_node in
        match pNode with
        | None => ret (1, Some l)
        | Some p =>
            set_previous p None ;; set_next p None ;;
            ret (RET_SUCCESS, Some (mkList (Some p) (Some p) 0))
        end
  end.

Definition PushBackOption (pOptions : option DhcpOptionList) (pOption : option DhcpOption)
    : M Memory (Z * option DhcpOptionList) :=
  match pOptions, pOption with
  | None, _ => ret (RET_ERROR, None)
  | Some l, None => ret (RET_ERROR, Some l)
  | Some l, Some _ =>
      if decide (first l = None) then ret (RET_SUCCESS, Some l)
      else
        let* pNode := CreateOptionNode pOption in
        match pNode with
        | None => ret (1, Some l)
        | Some p =>
            set_previous p (last_ l) ;;
            let* q := deref (last_ l) in
            set_next q (Some p) ;;
            ret (RET_SUCCESS, Some (mkList (first l) (Some p) (u64 (size_ l + 1))))
        end
  end.

Definition PushFrontOption (pOptions : option DhcpOptionList) (pOption : option DhcpOption)
    : M Memory (Z * option DhcpOptionList) :=
  match pOptions, pOption with
  | None, _ => ret (RET_ERROR, None)
  | Some l, None => ret (RET_ERROR, Some l)
  | Some l, Some _ =>
      let* pNode := CreateOptionNode pOption in
      match pNode with
      | None => ret (RET_FAILED, Some l)
      | Some p =>
          let* f := (if decide (first l = last_ l) then
            set_previous p (first l) ;;
            let* q := deref (first l) in
            set_next q (Some p) ;;
            ret (mkList (first l) (Some p) (size_ l))
          else
            let* q := deref (first l) in
            let* s := load q in
            set_next p (next s) ;;
            let* n := deref (next s) in
            set_previous n (Some p) ;;
            set_previous p (first l) ;;
            set_next q (Some p) ;;
            ret l) in
          ret (RET_SUCCESS, Some (mkList (first f) (last_ f) (u64 (size_ f + 1))))
      end
  end.

(** The search loop; the fuel is the number of allocated nodes. *)
Fixpoint GetOptionNode_loop (fuel : nat) (pNode : option loc) (c : Z) : M Memory (option loc) :=
  match pNode with
  | None => ret None
  | Some p =>
      match fuel with
      | O => undef
      | S fuel' =>
          let* n := load p in
          if negb (code (node_option n) =? c) then GetOptionNode_loop fuel' (next n) c
          else ret (Some p)
      end
  end.

Definition GetOptionNode (l : DhcpOptionList) (c : Z) : M Memory (option loc) :=
  match first l with
  | None => ret None
  | Some f =>
      let* n := load f in
      let* fuel := get (fun m => size (heap m)) in
      GetOptionNode_loop fuel (next n) c
  end.

Definition GetOption (l : DhcpOptionList) (c : Z) : M Memory (option DhcpOption) :=
  let* pNode := GetOptionNode l c in
  match pNode with
  | Some p => let* n := load p in ret (Some (node_option n))
  | None => ret None
  end.

(** Taking a node out of the chain: the common body of [RemoveOption],
    [ClearOptions] and [FreeOptionList]. *)
Definition unlink_inner (p : loc) : M Memory unit :=
  let* n := load p in
  let* q := deref (next n) in
  set_previous q (previous n) ;;
  let* n := load p in
  let* r := deref (previous n) in
  set_next r (next n).

Definition RemoveOption (pOptions : option DhcpOptionList) (c : Z)
    : M Memory (Z * option DhcpOptionList) :=
  match pOptions with
  | None => ret (RET_ERROR, None)
  | Some l =>
      if size_ l =? 0 then ret (RET_FAILED, Some l)
      else
        let* pNode := GetOptionNode l c in
        match pNode with
        | None => ret (RET_FAILED, Some l)
        | Some p =>
            let* l' := (if decide (Some p = last_ l) then
              let* n := load p in
              let* q := deref (previous n) in
              set_next q None ;;
              ret (mkList (first l) (previous n) (size_ l))
            else unlink_inner p ;; ret l) in
            free p ;;
            ret (RET_SUCCESS, Some (mkList (first l') (last_ l') (u64 (size_ l' - 1))))
        end
  end.

(** The loop of [ClearOptions] and [FreeOptionList]: free the nodes after
    the sentinel one by one. *)
Fixpoint ClearOptions_loop (fuel : nat) (pNode : option loc) (l : DhcpOptionList)
    : M Memory DhcpOptionList :=
  match pNode with
  | None => ret l
  | Some p =>
      match fuel with
      | O => undef
      | S fuel' =>
          let* l' := (if decide (Some p = last_ l) then
            let* f := deref (first l) in
            set_next f None ;;
            ret (mkList (first l) (first l) (size_ l))
          else unlink_inner p ;; ret l) in
          free p ;;
          let* f := deref (first l') in
          let* s := load f in
          ClearOptions_loop fuel' (next s) l'
      end
  end.

Definition ClearOptions (pOptions : option DhcpOptionList) : M Memory (option DhcpOptionList) :=
  match pOptions with
  | None => ret None
  | Some l =>
      if size_ l =? 0 then ret (Some l)
      else
        let* f := deref (first l) in
        let* s := load f in
        let* fuel := get (fun m => size (heap m)) in
        let* l' := ClearOptions_loop fuel (next s) l in
        let* f := deref (first l') in
        set_previous f None ;;
        set_next f None ;;
        ret (Some (mkList (Some f) (Some f) 0))
  end.

Definition FreeOptionList (pOptions : option DhcpOptionList) : M Memory (option DhcpOptionList) :=
  match pOptions with
  | None => ret None
  | Some l =>
      match first l with
      | None => ret (Some l)
      | Some f =>
          let* s := load f in
          let* fuel := get (fun m => size (heap m)) in
          let* l' := ClearOptions_loop fuel (next s) l in
          let* f := deref (first l') in
          free f ;;
          ret (Some (mkList None None 0))
      end
  end.
End Heap.

(** * What the list promises: operations on the sequence of options *)

(** The copy [CreateOptionNode] keeps: [length_] bytes of data, zeros after. *)
Definition copy_option (o : DhcpOption) : DhcpOption :=
  mkOption (code o) (length_ o)
    (take (Z.to_nat (length_ o)) (data o)
     ++ drop (Z.to_nat (length_ o)) (zeros (Z.to_nat DHCP_OPTION_SIZE))).

Definition opts_push_back (os : list DhcpOption) (o : DhcpOption) : Z * list DhcpOption :=
  if length_ o =? 0 then (1, os) else (RET_SUCCESS, os ++ [copy_option o]).

Definition opts_push_front (os : list DhcpOption) (o : DhcpOption) : Z * list DhcpOption :=
  if length_ o =? 0 then (RET_FAILED, os) else (RET_SUCCESS, copy_option o :: os).

Definition opts_get (os : list DhcpOption) (c : Z) : option DhcpOption :=
  List.find (fun o => code o =? c) os.

Fixpoint opts_delete (os : list DhcpOption) (c : Z) : list DhcpOption :=
  match os with
  | [] => []
  | o :: r => if code o =? c then r else o :: opts_delete r c
  end.
Definition opts_remove (os : list DhcpOption) (c : Z) : Z * list DhcpOption :=
  match opts_get os c with
  | None => (RET_FAILED, os)
  | Some _ => (RET_SUCCESS, opts_delete os c)
  end.

(** * The chain of nodes in memory *)

Abbreviation nodes := (list (loc * DhcpOption)).

Definition head_loc (L : nodes) (nxt : option loc) : option loc :=
  match L with [] => nxt | (x, _) :: _ => Some x end.

Fixpoint last_loc (prev : option loc) (L : nodes) : option loc :=
  match L with [] => prev | (x, _) :: r => last_loc (Some x) r end.

(** [chain h prev L nxt]: the nodes [L] are linked in order, entered from
    [prev] and left to [nxt]. *)
Fixpoint chain (h : gmap loc DhcpOptionNode) (prev : option loc) (L : nodes)
    (nxt : option loc) : Prop :=
  match L with
  | [] => True
  | (x, o) :: r => h !! x = Some (mkNode prev (head_loc r nxt) o) /\ chain h (Some x) r nxt
  end.

Definition locs (L : nodes) : list loc := map fst L.

Lemma head_loc_app L1 L2 nxt : head_loc (L1 ++ L2) nxt = head_loc L1 (head_loc L2 nxt).
Proof. by destruct L1 as [|[x o] L1]. Qed.

Lemma last_loc_app prev L1 L2 : last_loc prev (L1 ++ L2) = last_loc (last_loc prev L1) L2.
Proof. revert prev. induction L1 as [|[x o] L1 IH]; intros prev; simpl; auto. Qed.

Lemma chain_app h prev L1 L2 nxt :
  chain h prev (L1 ++ L2) nxt <->
  chain h prev L1 (head_loc L2 nxt) /\ chain h (last_loc prev L1) L2 nxt.
Proof.
  revert prev. induction L1 as [|[x o] L1 IH]; intros prev; simpl; [tauto|].
  rewrite head_loc_app, IH. tauto.
Qed.

Lemma chain_insert_ne h x n prev L nxt :
  x ∉ locs L -> chain h prev L nxt -> chain (<[x := n]> h) prev L nxt.
Proof.
  revert prev. induction L as [|[y o] L IH]; intros prev Hx; simpl; [done|].
  simpl in Hx. apply not_elem_of_cons in Hx as [Hne Hx].
  intros [H1 H2]. rewrite lookup_insert_ne by done. auto.
Qed.

Lemma chain_delete_ne h x prev L nxt :
  x ∉ locs L -> chain h prev L nxt -> chain (delete x h) prev L nxt.
Proof.
  revert prev. induction L as [|[y o] L IH]; intros prev Hx; simpl; [done|].
  simpl in Hx. apply not_elem_of_cons in Hx as [Hne Hx].
  intros [H1 H2]. rewrite lookup_delete_ne by done. auto.
Qed.

(** Writing the [next] field of the last node of a chain. *)
Lemma chain_set_last h prev L z oz nxt nxt' :
  z ∉ locs L -> chain h prev (L ++ [(z, oz)]) nxt ->
  chain (<[z := mkNode (last_loc prev L) nxt' oz]> h) prev (L ++ [(z, oz)]) nxt'.
Proof.
  intros Hz. rewrite !chain_app. intros [H1 [H2 _]]. split.
  - by apply chain_insert_ne.
  - simpl. by rewrite lookup_insert_eq.
Qed.

(** Writing the [previous] field of the first node of a chain. *)
Lemma chain_set_first h prev prev' x o L nxt :
  x ∉ locs L -> chain h prev ((x, o) :: L) nxt ->
  chain (<[x := mkNode prev' (head_loc L nxt) o]> h) prev' ((x, o) :: L) nxt.
Proof.
  intros Hx [H1 H2]. simpl. rewrite lookup_insert_eq. split; [done|]. by apply chain_insert_ne.
Qed.

Lemma chain_dom h prev L nxt x : chain h prev L nxt -> x ∈ locs L -> is_Some (h !! x).
Proof.
  revert prev. induction L as [|[y o] L IH]; intros prev; simpl; [by intros _ ?%elem_of_nil|].
  intros [H1 H2] [->|Hx]%elem_of_cons; [by rewrite H1 | eauto].
Qed.

Lemma chain_length h prev L nxt : chain h prev L nxt -> NoDup (locs L) -> (length L <= size h)%nat.
Proof.
  intros Hc Hn. replace (length L) with (length (locs L)) by apply length_map.
  rewrite <- (size_list_to_set (C := gset loc)) by done.
  rewrite <- size_dom. apply subseteq_size. intros x Hx%elem_of_list_to_set.
  apply elem_of_dom. eauto using chain_dom.
Qed.

(** * Representation *)

Definition wf_memory (m : Memory) : Prop := forall x n, heap m !! x = Some n -> (x < brk m)%positive.

(** The list structure [l] in memory [m] holds the options [os]. *)
Definition represents (m : Memory) (l : DhcpOptionList) (os : list DhcpOption) : Prop :=
  exists s so (L : nodes),
    first l = Some s /\ last_ l = last_loc (Some s) L /\ size_ l = Z.of_nat (length L) /\
    os = map snd L /\ NoDup (s :: locs L) /\ chain (heap m) None ((s, so) :: L) None /\
    wf_memory m.

Section Steps.
Lemma wp_load p Q m n : heap m !! p = Some n -> Q n m -> wp (load p) Q m.
Proof. unfold wp, load. by intros ->. Qed.
Lemma wp_set_next p v (Q : unit -> Memory -> Prop) m n :
  heap m !! p = Some n ->
  Q tt (set_heap (<[p := mkNode (previous n) v (node_option n)]> (heap m)) m) ->
  wp (set_next p v) Q m.
Proof. unfold wp, set_next, bind, load, store. intros H. by rewrite !H. Qed.
Lemma wp_set_previous p v (Q : unit -> Memory -> Prop) m n :
  heap m !! p = Some n ->
  Q tt (set_heap (<[p := mkNode v (next n) (node_option n)]> (heap m)) m) ->
  wp (set_previous p v) Q m.
Proof. unfold wp, set_previous, bind, load, store. intros H. by rewrite !H. Qed.
Lemma wp_free p (Q : unit -> Memory -> Prop) m n :
  heap m !! p = Some n -> Q tt (set_heap (delete p (heap m)) m) -> wp (free p) Q m.
Proof. unfold wp, free. by intros ->. Qed.
Lemma wp_deref p Q (m : Memory) : Q p m -> wp (deref (Some p)) Q m.
Proof. done. Qed.

(** Creating a node: nothing happens for an empty option, else a fresh
    detached node holds the copy. *)
Lemma wp_CreateOptionNode o Q m :
  wf_option o -> wf_memory m -> (0 < avail m)%nat ->
  (length_ o = 0 -> forall m', heap m' = heap m -> (brk m <= brk m')%positive ->
     avail m' = pred (avail m) -> Q None m') ->
  (length_ o <> 0 -> forall m', heap m' = <[brk m := mkNode None None (copy_option o)]> (heap m) ->
     (brk m < brk m')%positive -> avail m' = pred (avail m) -> Q (Some (brk m)) m') ->
  wp (CreateOptionNode (Some o)) Q m.
Proof.
  intros (_ & Hlen & Hd) Hm Ha H0 H1. unfold CreateOptionNode, wp, bind, calloc_node.
  destruct (avail m) as [|a] eqn:Ea; [lia|]. cbn [pred] in *.
  destruct (Z.eqb_spec (length_ o) 0) as [E|E].
  - unfold free. cbn [heap]. rewrite lookup_insert_eq. unfold ret. apply H0; [done|..|done].
    + unfold set_heap. cbn. rewrite delete_insert_eq. apply delete_id.
      destruct (heap m !! brk m) eqn:Hb; [|done]. apply Hm in Hb. lia.
    + cbn. lia.
  - unfold memcpy_s. unfold is_u8 in Hlen. change DHCP_OPTION_SIZE with 256.
    rewrite (proj2 (Z.leb_le _ 256)) by lia. cbn [negb]. unfold store. cbn [heap].
    rewrite lookup_insert_eq. unfold ret. apply H1; [done| |cbn; lia | done].
    unfold set_heap. cbn [heap]. rewrite insert_insert_eq. done.
Qed.
End Steps.

(** Removing a node that has neighbours on both sides. *)
Lemma chain_unlink h A r or_ p o q oq B nxt :
  NoDup (locs (A ++ [(r, or_)] ++ [(p, o)] ++ (q, oq) :: B)) ->
  chain h None (A ++ [(r, or_)] ++ [(p, o)] ++ (q, oq) :: B) nxt ->
  chain (delete p (<[r := mkNode (last_loc None A) (Some q) or_]>
                   (<[q := mkNode (Some r) (head_loc B nxt) oq]> h)))
        None (A ++ [(r, or_)] ++ (q, oq) :: B) nxt /\
  h !! p = Some (mkNode (Some r) (Some q) o) /\
  h !! q = Some (mkNode (Some p) (head_loc B nxt) oq) /\
  h !! r = Some (mkNode (last_loc None A) (Some p) or_) /\ p <> q /\ p <> r /\ r <> q.
Proof.
  unfold locs. rewrite !map_app. simpl. intros Hn Hc.
  apply NoDup_app in Hn as (HA & HAd & Hn).
  apply NoDup_cons in Hn as [Hr Hn]. apply NoDup_cons in Hn as [Hp Hn].
  apply NoDup_cons in Hn as [Hq Hn].
  rewrite chain_app in Hc. destruct Hc as [Hc1 Hc2]. simpl in Hc1, Hc2.
  destruct Hc2 as (Hrr & Hpp & Hqq & Hc2).
  assert (p <> q /\ p <> r /\ r <> q) as (? & ? & ?) by (repeat split; set_solver).
  split; [|by auto]. apply chain_delete_ne.
  { unfold locs. rewrite map_app. simpl. set_solver. }
  rewrite chain_app. simpl. split.
  - apply chain_insert_ne; [unfold locs; set_solver|]. by apply chain_insert_ne; [unfold locs; set_solver|].
  - rewrite lookup_insert_eq. split; [done|]. rewrite lookup_insert_ne, lookup_insert_eq by done.
    split; [done|]. apply chain_insert_ne; [unfold locs; set_solver|].
    by apply chain_insert_ne.
Qed.

(** The view of a represented list used by the proofs: the whole chain, its
    sentinel first, ends in the node [last_] points to. *)
Lemma represents_last m l os :
  represents m l os ->
  exists s so (L A0 : nodes) z oz,
    first l = Some s /\ last_ l = Some z /\ (s, so) :: L = A0 ++ [(z, oz)] /\
    size_ l = Z.of_nat (length L) /\ os = map snd L /\
    NoDup (locs (A0 ++ [(z, oz)])) /\ chain (heap m) None (A0 ++ [(z, oz)]) None /\ wf_memory m.
Proof.
  intros (s & so & L & Hf & Hl & Hs & Ho & Hn & Hc & Hw).
  destruct (exists_last (l := (s, so) :: L)) as (A0 & [z oz] & E); [done|].
  exists s, so, L, A0, z, oz.
  replace (last_loc (Some s) L) with (last_loc None ((s, so) :: L)) in Hl by done.
  rewrite E, last_loc_app in Hl. rewrite <- E. change (s :: locs L) with (locs ((s, so) :: L)) in Hn.
  naive_solver.
Qed.

(** The representation of a whole chain, sentinel included. *)
Lemma represents_intro m s so (L : nodes) n lst :
  lst = last_loc (Some s) L -> n = Z.of_nat (length L) ->
  NoDup (locs ((s, so) :: L)) -> chain (heap m) None ((s, so) :: L) None -> wf_memory m ->
  represents m (mkList (Some s) lst n) (map snd L).
Proof. intros -> -> ???. exists s, so, L. done. Qed.

Lemma size_step {A} (L : list A) : Z.of_nat (length L) < 2 ^ 64 - 1 ->
  u64 (Z.of_nat (length L) + 1) = Z.of_nat (S (length L)).
Proof. intros. rewrite u64_small; [|unfold is_u64]; lia. Qed.

(** The cell a new node gets is in no chain, and adding it keeps the memory
    well-formed. *)
Lemma fresh_cell m L : chain (heap m) None L None -> wf_memory m -> heap m !! brk m = None /\ brk m ∉ locs L.
Proof.
  intros Hc Hw. assert (Hb : heap m !! brk m = None).
  { destruct (heap m !! brk m) eqn:Hb; [|done]. apply Hw in Hb. lia. }
  split; [done|]. intros Hin. destruct (chain_dom _ _ _ _ _ Hc Hin) as [? ?]. congruence.
Qed.

Lemma fresh_wf m m' h : wf_memory m -> (brk m < brk m')%positive ->
  (forall x n, h !! x = Some n -> x = brk m \/ is_Some (heap m !! x)) -> wf_memory (set_heap h m').
Proof.
  intros Hw Hb Hh x n Hx. cbn in *. destruct (Hh x n Hx) as [->|[n' Hn']]; [lia|].
  apply Hw in Hn'. lia.
Qed.

Lemma PushBackOption_refines m l os o :
  represents m l os -> wf_option o -> (0 < avail m)%nat ->
  Z.of_nat (length os) < 2 ^ 64 - 1 ->
  wp (PushBackOption (Some l) (Some o))
     (fun '(r, l') m' => exists l2, l' = Some l2 /\ r = fst (opts_push_back os o) /\
        represents m' l2 (snd (opts_push_back os o)) /\ avail m' = pred (avail m)) m.
Proof.
  intros Hr Ho Ha Hsz.
  assert (Hr' := Hr). apply represents_last in Hr' as
    (s & so & L & A0 & z & oz & Hf & Hl & EA & Hs & Hos & Hn & Hc & Hw).
  assert (HL : length os = length L) by (by rewrite Hos, length_map).
  unfold PushBackOption, opts_push_back. rewrite decide_False by (by rewrite Hf).
  apply wp_bind, wp_CreateOptionNode; [done..| |].
  - intros E m' Eh Eb Ea. rewrite (proj2 (Z.eqb_eq _ 0)) by done. apply wp_ret.
    exists l. split; [done|]. split; [done|]. split; [|done].
    destruct Hr as (s' & so' & L' & ?). exists s', so', L'. rewrite Eh.
    split_and!; try naive_solver. intros x n Hx. rewrite Eh in Hx. apply Hw in Hx. lia.
  - intros E m' Eh Eb Ea. rewrite (proj2 (Z.eqb_neq _ 0)) by done.
    destruct (fresh_cell _ _ Hc Hw) as [Hb Hbn].
    assert (Hz : heap m !! z = Some (mkNode (last_loc None A0) None oz)).
    { apply chain_app in Hc as [_ [Hz _]]. done. }
    assert (z <> brk m) by congruence.
    wp_step. eapply wp_set_previous; [by rewrite Eh, lookup_insert_eq|].
    rewrite Hl. wp_step. apply wp_deref. wp_step.
    eapply wp_set_next; [cbn; rewrite Eh, insert_insert_eq, lookup_insert_ne by done; done|].
    apply wp_ret. eexists. split; [done|]. split; [done|]. split; [|done].
    rewrite Hf, Hs, size_step, Hos by lia.
    replace (map snd L ++ [copy_option o]) with (map snd (L ++ [(brk m, copy_option o)]))
      by (by rewrite map_app). cbn [snd].
    apply represents_intro with so; [by rewrite last_loc_app | by rewrite length_app; cbn; lia |..].
    + rewrite app_comm_cons, EA. unfold locs in *. rewrite map_app. apply NoDup_app.
      split; [done|]. split; [set_solver | cbn; apply NoDup_singleton].
    + cbn [heap set_heap]. rewrite app_comm_cons, EA, Eh, insert_insert_eq. cbn [previous node_option next].
      rewrite insert_insert_ne by done. rewrite <- app_assoc. unfold locs in Hn. rewrite map_app in Hn.
      apply NoDup_app in Hn as (HnA & HnAz & _).
      assert (HzA : z ∉ locs A0) by (intros Hin; apply (HnAz z Hin); cbn; left).
      assert (brk m ∉ locs A0 /\ brk m <> z) as [HbA Hbz].
      { unfold locs in *. rewrite map_app in Hbn. set_solver. }
      apply chain_app in Hc as [Hc1 Hc2]. rewrite chain_app. cbn. split.
      * apply chain_insert_ne; [done|]. by apply chain_insert_ne.
      * rewrite lookup_insert_ne, lookup_insert_eq by done. by rewrite lookup_insert_eq.
    + apply (fresh_wf m); [done|done|]. intros x n. cbn [heap set_heap].
      rewrite Eh, lookup_insert, lookup_insert, lookup_insert. repeat case_decide; subst; eauto.
Qed.

Definition find_node (L : nodes) (c : Z) : option (loc * DhcpOption) :=
  List.find (fun xo => code (snd xo) =? c) L.

Lemma GetOptionNode_loop_spec m prev L c fuel :
  chain (heap m) prev L None -> (length L <= fuel)%nat ->
  GetOptionNode_loop fuel (head_loc L None) c m = Some (fst <$> find_node L c, m).
Proof.
  revert prev fuel. induction L as [|[x o] L IH]; intros prev fuel Hc Hf; [by destruct fuel|].
  destruct Hc as [Hx Hc]. destruct fuel as [|fuel]; [cbn in Hf; lia|].
  cbn. unfold bind, load. rewrite Hx. cbn. destruct (code o =? c); [done|].
  cbn. rewrite (IH (Some x)); [done..|cbn in Hf; lia].
Qed.

Lemma GetOptionNode_spec m l s so L c :
  first l = Some s -> NoDup (locs ((s, so) :: L)) -> chain (heap m) None ((s, so) :: L) None ->
  GetOptionNode l c m = Some (fst <$> find_node L c, m).
Proof.
  intros Hf Hn Hc. unfold GetOptionNode. rewrite Hf. unfold bind, load, get.
  destruct Hc as [Hs Hc]. rewrite Hs. apply (GetOptionNode_loop_spec _ (Some s)); [done|].
  apply NoDup_cons in Hn as [_ Hn]. eauto using chain_length.
Qed.

Lemma find_node_snd L c : snd <$> find_node L c = opts_get (map snd L) c.
Proof.
  induction L as [|[x o] L IH]; [done|]. unfold find_node, opts_get in *. cbn. by destruct (code o =? c).
Qed.

(** The list is split at the first node with the code. *)
Lemma find_node_split L c x o :
  find_node L c = Some (x, o) ->
  exists L1 L2, L = L1 ++ (x, o) :: L2 /\ opts_delete (map snd L) c = map snd (L1 ++ L2) /\
    code o = c /\ Forall (fun xo => code (snd xo) <> c) L1.
Proof.
  induction L as [|[y oy] L IH]; [done|]. unfold find_node in *. cbn.
  destruct (Z.eqb_spec (code oy) c) as [E|E].
  - intros [= -> ->]. by exists [], L.
  - intros H. destruct (IH H) as (L1 & L2 & -> & Ed & Ec & Hf).
    exists ((y, oy) :: L1), L2. cbn. rewrite Ed. by repeat constructor.
Qed.

Lemma GetOption_refines m l os c :
  represents m l os -> GetOption l c m = Some (opts_get os c, m).
Proof.
  intros (s & so & L & Hf & _ & _ & -> & Hn & Hc & _). unfold GetOption, bind.
  rewrite (GetOptionNode_spec m l s so L) by done. rewrite <- find_node_snd.
  destruct (find_node L c) as [[x o]|] eqn:E; cbn; [|done].
  apply find_node_split in E as (L1 & L2 & -> & _).
  destruct Hc as [_ Hc]. apply chain_app in Hc as [_ [Hx _]]. unfold load. by rewrite Hx.
Qed.

(** Linking a fresh node behind the sentinel, in an empty and in a nonempty
    list. *)
Lemma wp_link_only m m' l s so o (Q : DhcpOptionList -> Memory -> Prop) :
  first l = Some s -> heap m !! brk m = None -> heap m !! s = Some (mkNode None None so) ->
  wf_memory m -> heap m' = <[brk m := mkNode None None o]> (heap m) -> (brk m < brk m')%positive ->
  (forall m2, chain (heap m2) None [(s, so); (brk m, o)] None -> wf_memory m2 -> avail m2 = avail m' ->
     Q (mkList (Some s) (Some (brk m)) (size_ l)) m2) ->
  wp (set_previous (brk m) (first l) ;; let* q := deref (first l) in
      set_next q (Some (brk m)) ;; ret (mkList (first l) (Some (brk m)) (size_ l))) Q m'.
Proof.
  intros Hf Hb Hss Hw Eh Hbrk HQ. assert (s <> brk m) by congruence. rewrite Hf. wp_steps.
  eapply wp_set_previous; [by rewrite Eh, lookup_insert_eq|]. wp_steps. apply wp_deref. wp_steps.
  eapply wp_set_next; [cbn; rewrite Eh, insert_insert_eq, lookup_insert_ne by done; done|].
  wp_steps. apply HQ; [| |done].
  - cbn. rewrite Eh, insert_insert_eq, lookup_insert_eq. by rewrite lookup_insert_ne, lookup_insert_eq.
  - apply (fresh_wf m); [done|done|]. intros x n. cbn. rewrite Eh, insert_insert_eq, !lookup_insert.
    repeat case_decide; subst; eauto.
Qed.

Lemma wp_link_first m m' l s so q oq L o (Q : DhcpOptionList -> Memory -> Prop) :
  first l = Some s -> NoDup (locs ((s, so) :: (q, oq) :: L)) ->
  chain (heap m) None ((s, so) :: (q, oq) :: L) None -> wf_memory m ->
  heap m' = <[brk m := mkNode None None o]> (heap m) -> (brk m < brk m')%positive ->
  (forall m2, chain (heap m2) None ((s, so) :: (brk m, o) :: (q, oq) :: L) None -> wf_memory m2 ->
     avail m2 = avail m' -> Q l m2) ->
  wp (let* x := deref (first l) in let* n := load x in set_next (brk m) (next n) ;;
      let* y := deref (next n) in set_previous y (Some (brk m)) ;; set_previous (brk m) (first l) ;;
      set_next x (Some (brk m)) ;; ret l) Q m'.
Proof.
  intros Hf Hn Hc Hw Eh Hbrk HQ. destruct (fresh_cell _ _ Hc Hw) as [Hb Hbn].
  cbn [locs map fst] in Hn, Hbn. apply NoDup_cons in Hn as [Hns Hn]. apply NoDup_cons in Hn as [Hnq Hn].
  assert (s <> q /\ s <> brk m /\ brk m <> q /\ brk m ∉ locs L /\ s ∉ locs L) as (? & ? & ? & ? & ?)
    by (unfold locs; set_solver).
  destruct Hc as (Hss & Hq & Hc). rewrite Hf. wp_steps. apply wp_deref. wp_steps.
  eapply wp_load; [by rewrite Eh, lookup_insert_ne by done|]. cbn [next head_loc]. wp_steps.
  eapply wp_set_next; [by rewrite Eh, lookup_insert_eq|]. wp_steps. apply wp_deref. wp_steps.
  eapply wp_set_previous; [cbn; rewrite Eh, insert_insert_eq, lookup_insert_ne by done; done|].
  wp_steps. eapply wp_set_previous;
    [cbn; rewrite lookup_insert_ne, Eh, insert_insert_eq, lookup_insert_eq by done; done|].
  wp_steps. eapply wp_set_next; [cbn; rewrite Eh, insert_insert_eq, !lookup_insert_ne by done; done|].
  wp_steps. apply HQ; [| |done].
  - cbn [chain heap set_heap head_loc previous next node_option].
    rewrite Eh, insert_insert_eq, lookup_insert_eq.
    split; [done|]. rewrite lookup_insert_ne, lookup_insert_eq by done. split; [done|].
    rewrite !lookup_insert_ne, lookup_insert_eq by done. split; [done|].
    by repeat (apply chain_insert_ne; [done|]).
  - apply (fresh_wf m); [done|done|]. intros x n. cbn. rewrite Eh, insert_insert_eq, !lookup_insert.
    repeat case_decide; subst; eauto.
Qed.

Lemma last_loc_In prev L x : last_loc (Some prev) L = Some x -> x ∈ prev :: locs L.
Proof.
  revert prev. induction L as [|[y oy] L IH]; intros prev; cbn; [intros [= ->]; left|].
  intros E. right. by apply IH.
Qed.

Lemma PushFrontOption_refines m l os o :
  represents m l os -> wf_option o -> (0 < avail m)%nat ->
  Z.of_nat (length os) < 2 ^ 64 - 1 ->
  wp (PushFrontOption (Some l) (Some o))
     (fun '(r, l') m' => exists l2, l' = Some l2 /\ r = fst (opts_push_front os o) /\
        represents m' l2 (snd (opts_push_front os o)) /\ avail m' = pred (avail m)) m.
Proof.
  intros (s & so & L & Hf & Hl & Hs & Hos & Hn & Hc & Hw) Ho Ha Hsz.
  assert (HL : length os = length L) by (by rewrite Hos, length_map).
  unfold PushFrontOption, opts_push_front.
  apply wp_bind, wp_CreateOptionNode; [done..| |].
  - intros E m' Eh Eb Ea. rewrite (proj2 (Z.eqb_eq _ 0)) by done. apply wp_ret.
    exists l. do 2 (split; [done|]). split; [|done]. exists s, so, L. rewrite Eh.
    split_and!; try done. intros x n Hx. rewrite Eh in Hx. apply Hw in Hx. lia.
  - intros E m' Eh Eb Ea. rewrite (proj2 (Z.eqb_neq _ 0)) by done.
    destruct (fresh_cell _ _ Hc Hw) as [Hb Hbn].
    assert (Hres : forall m2 lst, lst = last_loc (Some s) ((brk m, copy_option o) :: L) ->
      chain (heap m2) None ((s, so) :: (brk m, copy_option o) :: L) None -> wf_memory m2 ->
      represents m2 (mkList (Some s) lst (u64 (size_ l + 1))) (copy_option o :: os)).
    { intros m2 lst -> Hc2 Hw2. rewrite Hs, size_step, Hos by lia.
      apply (represents_intro _ s so ((brk m, copy_option o) :: L)); [done|done| |done|done].
      cbn [locs map fst] in *. apply NoDup_cons in Hn as [? ?]. apply NoDup_cons. split; [set_solver|].
      apply NoDup_cons. split; [set_solver|done]. }
    apply wp_bind. destruct L as [|[q oq] L].
    + cbn in Hl. rewrite decide_True by congruence.
      eapply wp_link_only; [done|done|apply Hc|done|done|done|]. intros m2 Hc2 Hw2 Ha2. apply wp_ret.
      eexists. do 2 (split; [done|]). split; [by apply Hres|congruence].
    + assert (last_ l <> Some s).
      { rewrite Hl. cbn. intros E'%last_loc_In. cbn in Hn. by apply NoDup_cons in Hn as [? _]. }
      rewrite decide_False by congruence. eapply wp_link_first; [done..|]. intros m2 Hc2 Hw2 Ha2. apply wp_ret.
      eexists. do 2 (split; [done|]). rewrite Hf. split; [by apply Hres; [rewrite Hl|..]|congruence].
Qed.

(** Unlinking and freeing an inner node of the chain. *)
Lemma wp_unlink_free m A r or_ p o q oq B (Q : unit -> Memory -> Prop) :
  NoDup (locs (A ++ [(r, or_)] ++ [(p, o)] ++ (q, oq) :: B)) ->
  chain (heap m) None (A ++ [(r, or_)] ++ [(p, o)] ++ (q, oq) :: B) None -> wf_memory m ->
  (forall m', chain (heap m') None (A ++ [(r, or_)] ++ (q, oq) :: B) None -> wf_memory m' ->
     avail m' = avail m -> Q tt m') ->
  wp (unlink_inner p ;; free p) Q m.
Proof.
  intros Hn Hc Hw HQ.
  destruct (chain_unlink _ _ _ _ _ _ _ _ _ _ Hn Hc) as (Hc' & Hp & Hq & Hr & ? & ? & ?).
  unfold unlink_inner. wp_steps. eapply wp_load; [done|]. wp_steps. apply wp_deref. wp_steps.
  eapply wp_set_previous; [done|]. wp_steps.
  eapply wp_load; [cbn; rewrite lookup_insert_ne by done; done|]. wp_steps. apply wp_deref.
  eapply wp_set_next; [cbn; rewrite lookup_insert_ne by done; done|].
  eapply wp_free; [cbn; rewrite !lookup_insert_ne by done; done|].
  apply HQ; [done | | done]. intros x n. cbn.
  rewrite lookup_delete, !lookup_insert. repeat case_decide; subst; try done; eauto.
Qed.

(** Unlinking and freeing the last node. *)
Lemma wp_drop_last m A r or_ p o (Q : unit -> Memory -> Prop) :
  NoDup (locs (A ++ [(r, or_)] ++ [(p, o)])) ->
  chain (heap m) None (A ++ [(r, or_)] ++ [(p, o)]) None -> wf_memory m ->
  (forall m', chain (heap m') None (A ++ [(r, or_)]) None -> wf_memory m' ->
     avail m' = avail m -> Q tt m') ->
  wp (set_next r None ;; free p) Q m.
Proof.
  intros Hn Hc Hw HQ. unfold locs in Hn. rewrite !map_app in Hn. cbn in Hn.
  apply NoDup_app in Hn as (HA & HAd & Hn). apply NoDup_cons in Hn as [Hrp Hn].
  rewrite app_assoc in Hc. apply chain_app in Hc as [Hc [Hp _]]. cbn in Hc.
  assert (Hr := Hc). apply chain_app in Hr as [_ [Hr _]]. cbn in Hr.
  assert (r <> p) by set_solver.
  wp_steps. eapply wp_set_next; [done|]. eapply wp_free; [cbn; rewrite lookup_insert_ne by done; done|].
  cbn [heap set_heap previous node_option]. apply HQ; [| | done].
  - apply chain_delete_ne; [unfold locs; rewrite map_app; cbn; set_solver|].
    eapply chain_set_last; [unfold locs; set_solver | done].
  - intros x n. cbn.
    rewrite lookup_delete, lookup_insert. repeat case_decide; subst; try done; eauto.
Qed.

Lemma NoDup_locs_drop (A B : nodes) x o :
  NoDup (locs (A ++ (x, o) :: B)) -> NoDup (locs (A ++ B)).
Proof.
  unfold locs. rewrite !map_app. cbn. rewrite !NoDup_app, NoDup_cons.
  intros (? & Hd & ? & ?). split_and!; [done | | done]. intros y Hy. specialize (Hd y Hy). set_solver.
Qed.

Lemma u64_pred n : 0 < n < 2 ^ 64 -> u64 (n - 1) = n - 1.
Proof. intros. apply u64_small. unfold is_u64. lia. Qed.

(** The list after a node is gone. *)
Lemma represents_removed m s so (L1 L2 : nodes) p o lst :
  NoDup (locs ((s, so) :: L1 ++ (p, o) :: L2)) -> Z.of_nat (length (L1 ++ (p, o) :: L2)) < 2 ^ 64 ->
  lst = last_loc (Some s) (L1 ++ L2) -> chain (heap m) None ((s, so) :: L1 ++ L2) None -> wf_memory m ->
  represents m (mkList (Some s) lst (u64 (Z.of_nat (length (L1 ++ (p, o) :: L2)) - 1))) (map snd (L1 ++ L2)).
Proof.
  intros Hn Hsz -> Hc Hw. assert (Hlen : length (L1 ++ (p, o) :: L2) = S (length (L1 ++ L2))) by (rewrite !length_app; cbn; lia).
  apply (represents_intro _ s so); [done| |by apply (NoDup_locs_drop ((s, so) :: L1) L2 p o)|done|done].
  rewrite u64_pred by lia. lia.
Qed.

Lemma last_not_inner A p o q oq (B : nodes) :
  NoDup (locs (A ++ (p, o) :: (q, oq) :: B)) -> last_loc (Some q) B <> Some p.
Proof.
  unfold locs. rewrite map_app. cbn. intros (_ & _ & Hn)%NoDup_app E%last_loc_In.
  by apply NoDup_cons in Hn as [Hn _].
Qed.

Lemma RemoveOption_refines m l os c :
  represents m l os -> Z.of_nat (length os) < 2 ^ 64 ->
  wp (RemoveOption (Some l) c)
     (fun '(r, l') m' => exists l2, l' = Some l2 /\ r = fst (opts_remove os c) /\
        represents m' l2 (snd (opts_remove os c)) /\ avail m' = avail m) m.
Proof.
  intros Hr Hsz. assert (HR := Hr).
  destruct Hr as (s & so & L & Hf & Hl & Hs & Hos & Hn & Hc & Hw).
  change (s :: locs L) with (locs ((s, so) :: L)) in Hn.
  assert (HL : length os = length L) by (by rewrite Hos, length_map).
  unfold RemoveOption, opts_remove. rewrite Hos, <- find_node_snd.
  destruct (Z.eqb_spec (size_ l) 0) as [E0|E0].
  { destruct L; [|cbn in *; lia]. subst os. by exists l. }
  apply wp_bind. eapply wp_intro; [by eapply GetOptionNode_spec|].
  destruct (find_node L c) as [[p o]|] eqn:Ef; cbn [fmap option_fmap option_map fst snd].
  2: { exists l. by rewrite <- Hos. }
  apply find_node_split in Ef as (L1 & L2 & EL & -> & _).
  destruct (exists_last (l := (s, so) :: L1)) as (A & [r or_] & EA); [done|].
  assert (Hres : forall m' lst, lst = last_loc (Some s) (L1 ++ L2) ->
    chain (heap m') None ((s, so) :: L1 ++ L2) None -> wf_memory m' ->
    represents m' (mkList (Some s) lst (u64 (size_ l - 1))) (map snd (L1 ++ L2))).
  { rewrite Hs, EL in *. intros. by apply (represents_removed _ _ so); try done; lia. }
  rewrite EL, app_comm_cons, EA, <- app_assoc in Hn, Hc.
  assert (Hprev : heap m !! p = Some (mkNode (Some r) (head_loc L2 None) o)).
  { rewrite app_assoc in Hc. apply chain_app in Hc as [_ [Hp _]]. by rewrite last_loc_app in Hp. }
  destruct L2 as [|[q oq] B].
  - assert (Hlp : last_ l = Some p) by (by rewrite Hl, EL, last_loc_app).
    rewrite decide_True by done. apply wp_bind. wp_steps. eapply wp_load; [done|].
    wp_steps. apply wp_deref. wp_steps.
    assert (HD : wp (set_next r None ;; free p) (fun _ m' => exists l2,
      Some (mkList (first l) (Some r) (u64 (size_ l - 1))) = Some l2 /\ RET_SUCCESS = RET_SUCCESS /\
      represents m' l2 (map snd (L1 ++ [])) /\ avail m' = avail m) m).
    { eapply wp_drop_last; [done..|]. intros m' Hc' Hw' Ha'. eexists. split; [done|].
      split; [done|]. split; [|done]. rewrite Hf. apply Hres; [| |done].
      - rewrite app_nil_r.
        replace (last_loc (Some s) L1) with (last_loc None ((s, so) :: L1)) by done.
        by rewrite EA, last_loc_app.
      - by rewrite app_nil_r, EA. }
    eapply wp_mono; [exact (wp_bind_inv _ _ _ _ HD)|]. intros [] m1 H1. wp_steps.
    eapply wp_mono; [exact H1|]. by intros [] m2 H2.
  - assert (Hlp : last_ l <> Some p).
    { rewrite Hl, EL, last_loc_app. rewrite app_assoc in Hn. by eapply last_not_inner. }
    rewrite decide_False by congruence.
    assert (HD : wp (unlink_inner p ;; free p) (fun _ m' => exists l2,
      Some (mkList (first l) (last_ l) (u64 (size_ l - 1))) = Some l2 /\ RET_SUCCESS = RET_SUCCESS /\
      represents m' l2 (map snd (L1 ++ (q, oq) :: B)) /\ avail m' = avail m) m).
    { eapply wp_unlink_free; [exact Hn | exact Hc | exact Hw |]. intros m' Hc' Hw' Ha'. eexists. split; [done|].
      split; [done|]. split; [|done]. rewrite Hf. apply Hres; [| |done].
      - by rewrite Hl, EL, !last_loc_app.
      - by rewrite app_comm_cons, EA, <- app_assoc. }
    wp_steps. eapply wp_mono; [exact (wp_bind_inv _ _ _ _ HD)|]. intros [] m1 H1. wp_steps.
    eapply wp_mono; [exact H1|]. by intros [] m2 H2.
Qed.

(** The clearing loop frees every node after the sentinel and ends with
    [last_] back on it. *)
Lemma ClearOptions_loop_spec L : forall m l s so fuel,
  first l = Some s -> last_ l = last_loc (Some s) L -> (length L <= fuel)%nat ->
  NoDup (locs ((s, so) :: L)) -> chain (heap m) None ((s, so) :: L) None -> wf_memory m ->
  wp (ClearOptions_loop fuel (head_loc L None) l)
     (fun l' m' => l' = mkList (Some s) (Some s) (size_ l) /\
        heap m' !! s = Some (mkNode None None so) /\ wf_memory m' /\ avail m' = avail m) m.
Proof.
  induction L as [|[p o] L IH]; intros m l s so fuel Hf Hl Hfuel Hn Hc Hw.
  { destruct fuel; apply wp_ret; destruct l, Hc; cbn in *; by simplify_eq. }
  destruct fuel as [|fuel]; [cbn in Hfuel; lia|]. cbn [length] in Hfuel.
  cbn [ClearOptions_loop head_loc]. apply wp_bind.
  assert (Hcont : forall l' m', first l' = Some s -> last_ l' = last_loc (Some s) L ->
    size_ l' = size_ l -> chain (heap m') None ((s, so) :: L) None -> wf_memory m' ->
    avail m' = avail m ->
    wp (let* f := deref (first l') in let* s0 := load f in ClearOptions_loop fuel (next s0) l')
       (fun l' m' => l' = mkList (Some s) (Some s) (size_ l) /\
          heap m' !! s = Some (mkNode None None so) /\ wf_memory m' /\ avail m' = avail m) m').
  { intros l' m' Hf' Hl' Hs' Hc' Hw' Ha'. rewrite Hf'. wp_steps. apply wp_deref. wp_steps.
    eapply wp_load; [apply Hc'|]. cbn [next]. eapply wp_mono; [eapply IH; try done; [lia|]|].
    - by apply (NoDup_locs_drop [(s, so)] L p o).
    - cbn. rewrite Hs', Ha'. done. }
  destruct L as [|[q oq] B].
  - cbn in Hl. rewrite decide_True by done. rewrite Hf. wp_steps. apply wp_deref. wp_steps.
    assert (HD : wp (set_next s None ;; free p) (fun _ m' =>
      chain (heap m') None [(s, so)] None /\ wf_memory m' /\ avail m' = avail m) m)
      by (eapply (wp_drop_last m []); [exact Hn | exact Hc | exact Hw | auto]).
    eapply wp_mono; [exact (wp_bind_inv _ _ _ _ HD)|]. intros [] m1 H1. wp_steps.
    eapply wp_mono; [exact H1|]. intros [] m2 (? & ? & ?). by apply Hcont.
  - assert (Hlp : last_ l <> Some p).
    { rewrite Hl. cbn. intros E'%last_loc_In. apply NoDup_cons in Hn as [_ Hn].
      apply NoDup_cons in Hn as [Hn _]. by apply Hn. }
    rewrite decide_False by congruence. wp_steps.
    assert (HD : wp (unlink_inner p ;; free p) (fun _ m' =>
      chain (heap m') None ((s, so) :: (q, oq) :: B) None /\ wf_memory m' /\ avail m' = avail m) m)
      by (eapply (wp_unlink_free m []); [exact Hn | exact Hc | exact Hw | auto]).
    eapply wp_mono; [exact (wp_bind_inv _ _ _ _ HD)|]. intros [] m1 H1. wp_steps.
    eapply wp_mono; [exact H1|]. intros [] m2 (? & ? & ?). by apply Hcont.
Qed.

Lemma ClearOptions_refines m l os :
  represents m l os ->
  wp (ClearOptions (Some l))
     (fun l' m' => exists l2, l' = Some l2 /\ represents m' l2 [] /\ avail m' = avail m) m.
Proof.
  intros Hr. assert (HR := Hr). destruct Hr as (s & so & L & Hf & Hl & Hs & Hos & Hn & Hc & Hw).
  unfold ClearOptions. destruct (Z.eqb_spec (size_ l) 0) as [E0|E0].
  { destruct L; [|cbn in *; lia]. subst os. by exists l. }
  rewrite Hf. wp_steps. apply wp_deref. wp_steps. eapply wp_load; [apply Hc|]. wp_steps.
  cbn [next]. eapply wp_mono; [eapply ClearOptions_loop_spec; try done|].
  { apply NoDup_cons in Hn as [_ Hn]. destruct Hc as [_ Hc]. eauto using chain_length. }
  intros l' m' (-> & Hs' & Hw' & Ha'). cbn [first]. wp_steps. apply wp_deref. wp_steps.
  eapply wp_set_previous; [done|]. wp_steps.
  eapply wp_set_next; [cbn; by rewrite lookup_insert_eq|]. wp_steps.
  eexists. split; [done|]. split; [|done].
  apply (represents_intro _ s so []); [done|done|apply NoDup_singleton|..].
  - cbn. by rewrite lookup_insert_eq.
  - intros x n. cbn. rewrite !lookup_insert. repeat case_decide; subst; eauto.
Qed.

Lemma FreeOptionList_spec m l os :
  represents m l os ->
  wp (FreeOptionList (Some l)) (fun l' m' => l' = Some (mkList None None 0) /\
     first l <> None /\ avail m' = avail m) m.
Proof.
  intros (s & so & L & Hf & Hl & Hs & Hos & Hn & Hc & Hw).
  unfold FreeOptionList. rewrite Hf. wp_steps. eapply wp_load; [apply Hc|]. wp_steps.
  cbn [next]. eapply wp_mono; [eapply ClearOptions_loop_spec; try done|].
  { apply NoDup_cons in Hn as [_ Hn]. destruct Hc as [_ Hc]. eauto using chain_length. }
  intros l' m' (-> & Hs' & Hw' & Ha'). cbn [first]. wp_steps. apply wp_deref. wp_steps.
  eapply wp_free; [done|]. wp_steps. done.
Qed.

Lemma InitOptionList_refines m :
  wf_memory m -> (0 < avail m)%nat ->
  wp (InitOptionList (Some (mkList None None 0)))
     (fun '(r, l') m' => r = RET_SUCCESS /\ exists l2, l' = Some l2 /\ represents m' l2 [] /\
        avail m' = pred (avail m)) m.
Proof.
  intros Hw Ha. unfold InitOptionList. cbn [first last_].
  rewrite decide_False by (intros [? _]; done).
  apply wp_bind. unfold calloc_node. unfold wp at 1. destruct (avail m) as [|a] eqn:Ea; [lia|].
  wp_steps. eapply wp_set_previous; [cbn; by rewrite lookup_insert_eq|]. wp_steps.
  eapply wp_set_next; [cbn; by rewrite lookup_insert_eq|]. wp_steps.
  split; [done|]. eexists. split; [done|]. split; [|done].
  apply (represents_intro _ (brk m) zero_option []); [done|done|apply NoDup_singleton|..].
  - cbn. by rewrite lookup_insert_eq.
  - intros x n. cbn. rewrite !lookup_insert. repeat case_decide; subst; [lia|].
    intros Hx. apply Hw in Hx. lia.
Qed.

(** * Sequences of operations *)

Inductive opt_cmd :=
| CPushBack (o : DhcpOption)
| CPushFront (o : DhcpOption)
| CRemove (c : Z)
| CClear.

Definition wf_cmd (c : opt_cmd) : Prop :=
  match c with CPushBack o | CPushFront o => wf_option o | _ => True end.

Definition run_cmd (c : opt_cmd) (l : DhcpOptionList) : M Memory (Z * option DhcpOptionList) :=
  match c with
  | CPushBack o => PushBackOption (Some l) (Some o)
  | CPushFront o => PushFrontOption (Some l) (Some o)
  | CRemove c => RemoveOption (Some l) c
  | CClear => let* l' := ClearOptions (Some l) in ret (RET_SUCCESS, l')
  end.

Fixpoint run_cmds (cs : list opt_cmd) (l : DhcpOptionList) : M Memory (list Z * DhcpOptionList) :=
  match cs with
  | [] => ret ([], l)
  | c :: cs =>
      let* '(r, l') := run_cmd c l in
      let* l2 := from_option l' in
      let* '(rs, l3) := run_cmds cs l2 in
      ret (r :: rs, l3)
  end.

Definition abs_cmd (c : opt_cmd) (os : list DhcpOption) : Z * list DhcpOption :=
  match c with
  | CPushBack o => opts_push_back os o
  | CPushFront o => opts_push_front os o
  | CRemove c => opts_remove os c
  | CClear => (RET_SUCCESS, [])
  end.

Fixpoint abs_cmds (cs : list opt_cmd) (os : list DhcpOption) : list Z * list DhcpOption :=
  match cs with
  | [] => ([], os)
  | c :: cs => let '(r, os1) := abs_cmd c os in
               let '(rs, os2) := abs_cmds cs os1 in (r :: rs, os2)
  end.

Lemma opts_delete_length os c : (length (opts_delete os c) <= length os)%nat.
Proof. induction os as [|o os IH]; cbn; [lia|]. case_match; cbn; lia. Qed.

Lemma abs_cmd_length c os : (length (snd (abs_cmd c os)) <= S (length os))%nat.
Proof.
  destruct c; cbn; [| | |lia].
  - unfold opts_push_back. case_match; cbn; rewrite ?length_app; cbn; lia.
  - unfold opts_push_front. case_match; cbn; lia.
  - unfold opts_remove. case_match; cbn; [pose proof (opts_delete_length os c)|]; lia.
Qed.

Lemma run_cmd_refines c m l os :
  represents m l os -> wf_cmd c -> (0 < avail m)%nat -> Z.of_nat (length os) < 2 ^ 64 - 1 ->
  wp (run_cmd c l)
     (fun '(r, l') m' => exists l2, l' = Some l2 /\ r = fst (abs_cmd c os) /\
        represents m' l2 (snd (abs_cmd c os)) /\ (pred (avail m) <= avail m')%nat) m.
Proof.
  intros Hr Hc Ha Hs. destruct c as [o|o|c|]; cbn [run_cmd abs_cmd].
  - eapply wp_mono; [by apply PushBackOption_refines|]. intros [r l'] m' (l2 & ? & ? & ? & ->). eauto.
  - eapply wp_mono; [by apply PushFrontOption_refines|]. intros [r l'] m' (l2 & ? & ? & ? & ->). eauto.
  - eapply wp_mono; [apply (RemoveOption_refines _ _ _ _ Hr); lia|].
    intros [r l'] m' (l2 & ? & ? & ? & ->). exists l2. split_and!; try done. lia.
  - apply wp_bind. eapply wp_mono; [by eapply ClearOptions_refines|].
    intros l' m' (l2 & -> & ? & Ha2). apply wp_ret. exists l2. split_and!; try done. lia.
Qed.

Lemma run_cmds_refines cs : forall m l os,
  represents m l os -> Forall wf_cmd cs -> (length cs <= avail m)%nat ->
  Z.of_nat (length os + length cs) < 2 ^ 64 - 1 ->
  wp (run_cmds cs l)
     (fun '(rs, l') m' => rs = fst (abs_cmds cs os) /\ represents m' l' (snd (abs_cmds cs os))) m.
Proof.
  induction cs as [|c cs IH]; intros m l os Hr Hwf Ha Hs; [by apply wp_ret|].
  apply Forall_cons in Hwf as [Hc Hcs]. cbn [length] in *. cbn [run_cmds abs_cmds].
  apply wp_bind. eapply wp_mono; [apply run_cmd_refines; [done|done|lia|lia]|].
  intros [r l'] m' (l2 & -> & -> & Hr' & Ha'). wp_step. unfold wp at 1, from_option.
  pose proof (abs_cmd_length c os). destruct (abs_cmd c os) as [r1 os1]. cbn [fst snd] in *.
  wp_step. eapply wp_mono; [apply (IH _ _ _ Hr'); [done|lia|lia]|].
  intros [rs l3] m3 [-> Hr3]. apply wp_ret. by destruct (abs_cmds cs os1).
Qed.

(** C19: from a freshly initialised list, every sequence of insertions at either
    end, removals and clearings runs without touching a null, dangling or freed
    node, returns the codes of the sequence operations, and leaves memory
    representing their result, where looking an option up finds the first one
    with its code. *)
Theorem option_list_simulation cs m :
  wf_memory m -> Forall wf_cmd cs -> (length cs < avail m)%nat ->
  Z.of_nat (length cs) < 2 ^ 64 - 1 ->
  wp (let* '(r, l) := InitOptionList (Some (mkList None None 0)) in
      let* l := from_option l in run_cmds cs l)
     (fun '(rs, l) m' => rs = fst (abs_cmds cs []) /\ represents m' l (snd (abs_cmds cs [])) /\
        forall c, GetOption l c m' = Some (opts_get (snd (abs_cmds cs [])) c, m')) m.
Proof.
  intros Hw Hcs Ha Hs. apply wp_bind. eapply wp_mono; [apply InitOptionList_refines; [done|lia]|].
  intros [r l'] m' (-> & l2 & -> & Hr & Ha'). wp_step. unfold wp at 1, from_option.
  eapply wp_mono; [apply (run_cmds_refines _ _ _ _ Hr); [done|lia|done]|].
  intros [rs l] m2 [-> Hr2]. split; [done|]. split; [done|]. intros c. by apply GetOption_refines.
Qed.

Definition sample_memory : Memory := mkMemory ∅ 1%positive 8.

Lemma option_list_simulation_witness :
  wp (let* '(r, l) := InitOptionList (Some (mkList None None 0)) in
      let* l := from_option l in
      run_cmds [CPushBack (option_of 53 1 [2]); CPushFront (option_of 54 4 [1;2;3;4]); CRemove 53] l)
     (fun '(rs, l) m' => rs = [0; 0; 0] /\
        represents m' l [copy_option (option_of 54 4 [1;2;3;4])] /\
        forall c, GetOption l c m' =
          Some (opts_get [copy_option (option_of 54 4 [1;2;3;4])] c, m')) sample_memory.
Proof.
  assert (Hwf : forall c len d, is_u8 c -> is_u8 len -> wf_option (option_of c len d))
    by (intros; split_and!; [done|done|apply length_pad]).
  refine (option_list_simulation
    [CPushBack (option_of 53 1 [2]); CPushFront (option_of 54 4 [1;2;3;4]); CRemove 53]
    sample_memory _ _ _ _).
  - intros x n. cbn. by rewrite lookup_empty.
  - repeat constructor; cbn; try done; apply length_pad.
  - cbn. lia.
  - cbn. lia.
Defined.

(** A list structure whose fields were never set is taken for an
    initialised list when the stale [first] and [last] happen to be equal and
    not null: [InitOptionList] reports success without allocating the
    sentinel, and the next insertion dereferences the stale pointer. *)
Theorem InitOptionList_stale p m o :
  heap m !! p = None -> wf_option o -> length_ o <> 0 -> wf_memory m -> (0 < avail m)%nat ->
  p <> brk m ->
  let l := mkList (Some p) (Some p) 0 in
  InitOptionList (Some l) m = Some ((RET_SUCCESS, Some l), m) /\
  PushBackOption (Some l) (Some o) m = None.
Proof.
  intros Hp Ho Hlen Hw Ha Hne l. split.
  - unfold InitOptionList. by rewrite decide_True.
  - unfold PushBackOption. rewrite decide_False by done.
    assert (HC : wp (CreateOptionNode (Some o)) (fun r m' => r = Some (brk m) /\
      heap m' = <[brk m := mkNode None None (copy_option o)]> (heap m)) m)
      by (apply wp_CreateOptionNode; [done..| |]; intros; [done | done]).
    apply wp_run in HC as (r & m' & E & -> & Eh). unfold bind at 1. rewrite E.
    unfold set_previous, set_next, deref, bind, from_option, load, store. rewrite Eh.
    rewrite lookup_insert_eq. cbn. rewrite Eh, lookup_insert_eq. cbn.
    rewrite !lookup_insert_ne by done. by rewrite Hp.
Qed.

Lemma InitOptionList_stale_witness :
  let l := mkList (Some 77%positive) (Some 77%positive) 0 in
  InitOptionList (Some l) sample_memory = Some ((RET_SUCCESS, Some l), sample_memory) /\
  PushBackOption (Some l) (Some (option_of 53 1 [2])) sample_memory = None.
Proof.
  apply (InitOptionList_stale 77%positive sample_memory (option_of 53 1 [2])).
  - reflexivity.
  - split_and!; [done | done | apply length_pad].
  - discriminate.
  - intros x n. cbn. by rewrite lookup_empty.
  - cbn. lia.
  - discriminate.
Defined.

(** * Address options *)

Lemma length_le32 x : length (le32 x) = 4%nat.
Proof. done. Qed.

Lemma ParseIp_le32 x l : is_u32 x -> ParseIp (le32 x ++ l) = x.
Proof.
  unfold is_u32, ParseIp, le32, byte_at. cbn [app nth]. intros.
  Z.to_euclidean_division_equations. lia.
Qed.

Lemma AppendAddressOption_room o a :
  wf_option o -> length_ o <= 252 ->
  AppendAddressOption (Some o) a =
  (RET_SUCCESS, Some (mkOption (code o) (u8 (length_ o + 4))
     (take (Z.to_nat (length_ o)) (data o) ++ le32 a ++ drop (Z.to_nat (length_ o) + 4) (data o)))).
Proof.
  intros (_ & Hl & Hd) Hle. unfold is_u8 in Hl. unfold AppendAddressOption, DHCP_ADDRESS_LENGTH, DHCP_OPTION_SIZE.
  rewrite (proj2 (Z.ltb_ge _ 4)) by lia.
  replace (if length_ o >? 0 then Z.to_nat (length_ o) else 0%nat) with (Z.to_nat (length_ o)).
  2: { rewrite Z.gtb_ltb. destruct (Z.ltb_spec 0 (length_ o)); lia. }
  unfold memcpy_s. rewrite (proj2 (Z.leb_le 4 _)) by lia.
  cbn [negb]. unfold set_data. by rewrite drop_drop.
Qed.

(** On every well-formed option, [AppendAddressOption] refuses exactly when
    fewer than four bytes are left, and otherwise keeps what was there and
    writes the address after it, from where [ParseIp] reads it back; the
    length grows by four modulo 256. *)
Theorem AppendAddressOption_spec o a :
  wf_option o -> is_u32 a ->
  if 252 <? length_ o then AppendAddressOption (Some o) a = (RET_ERROR, Some o)
  else exists o', AppendAddressOption (Some o) a = (RET_SUCCESS, Some o') /\
         wf_option o' /\ code o' = code o /\ length_ o' = u8 (length_ o + 4) /\
         take (Z.to_nat (length_ o)) (data o') = take (Z.to_nat (length_ o)) (data o) /\
         ParseIp (drop (Z.to_nat (length_ o)) (data o')) = a.
Proof.
  intros Ho Ha. destruct (Z.ltb_spec 252 (length_ o)) as [Hgt|Hle].
  - unfold AppendAddressOption, DHCP_ADDRESS_LENGTH, DHCP_OPTION_SIZE.
    by rewrite (proj2 (Z.ltb_lt _ 4)) by lia.
  - eexists. split; [by apply AppendAddressOption_room|]. destruct Ho as (Hc & Hl & Hd).
    unfold is_u8 in Hl. change (Z.to_nat DHCP_OPTION_SIZE) with 256%nat in Hd. cbn [code length_ data].
    assert (Hlt : length (take (Z.to_nat (length_ o)) (data o)) = Z.to_nat (length_ o))
      by (rewrite length_take; lia).
    split; [split; [done|split]|].
    + apply Z.mod_pos_bound. lia.
    + cbn [data]. change (Z.to_nat DHCP_OPTION_SIZE) with 256%nat.
      rewrite !length_app, Hlt, length_drop, length_le32. lia.
    + split; [done|]. split; [done|]. split.
      * by rewrite take_app_le, take_take, Nat.min_id by lia.
      * rewrite drop_app_length' by done. by apply ParseIp_le32.
Qed.

Lemma AppendAddressOption_spec_witness :
  exists o', AppendAddressOption (Some (option_of 6 4 [8;8;8;8])) 0x04040808 = (RET_SUCCESS, Some o') /\
    wf_option o' /\ code o' = 6 /\ length_ o' = u8 (4 + 4) /\
    take 4 (data o') = take 4 (data (option_of 6 4 [8;8;8;8])) /\
    ParseIp (drop 4 (data o')) = 0x04040808.
Proof.
  apply (AppendAddressOption_spec (option_of 6 4 [8;8;8;8]) 0x04040808).
  - split_and!; [done | done | apply length_pad].
  - unfold is_u32. lia.
Defined.

(** [n] addresses appended to an empty option. *)
Definition append_addresses (c : Z) (addrs : list Z) : DhcpOption :=
  fold_left (fun o a => match snd (AppendAddressOption (Some o) a) with Some o' => o' | None => o end)
    addrs (option_of c 0 []).

(** The length field is one byte, so the sixty-fourth address fits the
    array and resets the length to 0, and the list then refuses the option as
    empty: with 63 servers the option is sent, with 64 it disappears. *)
Theorem AppendAddressOption_wraps :
  length_ (append_addresses DOMAIN_NAME_SERVER_OPTION (repeat 0x08080808 63)) = 252 /\
  length_ (append_addresses DOMAIN_NAME_SERVER_OPTION (repeat 0x08080808 64)) = 0 /\
  opts_push_back [] (append_addresses DOMAIN_NAME_SERVER_OPTION (repeat 0x08080808 64)) = (1, []).
Proof. by vm_compute. Qed.
