(* ===== verification/Codec.v ===== *)
(** The DHCP message and the encoding of its options: src/services/dhcp_server/include/dhcp_message.h
    and [ParseMessageOptions], [ResetMessageOptions], [ValidateReplyOptions],
    [ParseReplyOptions] of src/services/dhcp_server/src/dhcp_s_server.cpp. *)
From S2P Require Import Prelude AddressUtils OptionList.

Definition BOOTREQUEST : Z := 1.
Definition BOOTREPLY : Z := 2.
Definition DHCP_MSG_HEADER_SIZE : Z := 234.
Definition DHCP_OPTIONS_SIZE : Z := 312.
Definition DHCP_HOST_NAME_LENGTH : Z := 64.
Definition MAGIC_COOKIE_LENGTH : Z := 4.
Definition OPT_HEADER_LENGTH : Z := 2.
Definition DHCP_MAGIC_COOKIE : Z := 0x63825363.
Definition MAGIC_COOKIE_DATA : bytes := [0x63; 0x82; 0x53; 0x63].

(** [DhcpMessageType] and [DhcpReplyType]. *)
Definition DHCPDISCOVER : Z := 1.
Definition DHCPOFFER : Z := 2.
Definition DHCPREQUEST : Z := 3.
Definition DHCPDECLINE : Z := 4.
Definition DHCPACK : Z := 5.
Definition DHCPNAK : Z := 6.
Definition DHCPRELEASE : Z := 7.
Definition DHCPINFORM : Z := 8.
Definition REPLY_NONE : Z := 0.
Definition REPLY_OFFER : Z := 1.
Definition REPLY_ACK : Z := 2.
Definition REPLY_NAK : Z := 3.

Record DhcpMessage := mkMessage {
  op : Z; htype : Z; hlen : Z; hops : Z;
  xid : Z; secs : Z; flags : Z;
  ciaddr : Z; yiaddr : Z; siaddr : Z; giaddr : Z;
  chaddr : bytes; sname : bytes; file : bytes;
  msg_options : bytes
}.

(** A message with its received length and its parsed options. *)
Record DhcpMsgInfo := mkMsgInfo {
  packet : DhcpMessage;
  msg_length : Z;
  options : list DhcpOption
}.

Definition set_msg_options (v : bytes) (p : DhcpMessage) : DhcpMessage :=
  mkMessage (op p) (htype p) (hlen p) (hops p) (xid p) (secs p) (flags p)
    (ciaddr p) (yiaddr p) (siaddr p) (giaddr p) (chaddr p) (sname p) (file p) v.
Definition set_packet (v : DhcpMessage) (m : DhcpMsgInfo) : DhcpMsgInfo :=
  mkMsgInfo v (msg_length m) (options m).
Definition set_msg_length (v : Z) (m : DhcpMsgInfo) : DhcpMsgInfo :=
  mkMsgInfo (packet m) v (options m).
Definition set_options (v : list DhcpOption) (m : DhcpMsgInfo) : DhcpMsgInfo :=
  mkMsgInfo (packet m) (msg_length m) v.

Definition le16 (x : Z) : bytes := [x mod 2 ^ 8; x / 2 ^ 8 mod 2 ^ 8].

(** The memory of a [struct DhcpMessage]: every field follows the previous
    one without padding. *)
Definition header_bytes (p : DhcpMessage) : bytes :=
  [op p; htype p; hlen p; hops p] ++ le32 (xid p) ++ le16 (secs p) ++ le16 (flags p)
  ++ le32 (ciaddr p) ++ le32 (yiaddr p) ++ le32 (siaddr p) ++ le32 (giaddr p)
  ++ chaddr p ++ sname p ++ file p.
Definition packet_bytes (p : DhcpMessage) : bytes := header_bytes p ++ msg_options p.

(** * Decoding the options of a received message *)

(** Bytes [off, off + n) of the options array, when they are inside it. *)
Definition slice (buf : bytes) (off n : Z) : option bytes :=
  if (0 <=? off) && (off + n <=? Z.of_nat (length buf))
  then Some (take (Z.to_nat n) (drop (Z.to_nat off) buf)) else None.

Definition read (buf : bytes) (off : Z) : option Z := buf !! Z.to_nat off.

(** The option loop.  [cur], [end_], [pos] and [maxPos] are offsets into
    [packet.options]; [None] is a read outside that array. *)
Fixpoint ParseMessageOptions_loop (fuel : nat) (buf : bytes) (cur end_ pos maxPos : Z)
    (opts : list DhcpOption) : option (Z * list DhcpOption) :=
  match fuel with
  | O => None
  | S fuel' =>
      if negb (cur <? end_) then Some (RET_FAILED, opts)
      else
        c ← read buf cur;
        if c =? END_OPTION then Some (RET_SUCCESS, opts)
        else
          len ← read buf (cur + 1);
          if end_ - cur - len <? OPT_HEADER_LENGTH then Some (RET_FAILED, opts)
          else if c =? PAD_OPTION then
            ParseMessageOptions_loop fuel' buf (cur + 1) end_ pos maxPos opts
          else if c =? TIME_OFFSET_OPTION then
            ParseMessageOptions_loop fuel' buf (cur + OPT_HEADER_LENGTH + len) end_ pos maxPos opts
          else
            let pos := pos + (OPT_HEADER_LENGTH + len) in
            if pos >=? maxPos then Some (RET_FAILED, opts)
            else
              d ← slice buf (cur + OPT_HEADER_LENGTH) len;
              let opts := snd (opts_push_back opts (option_of c len d)) in
              ParseMessageOptions_loop fuel' buf (cur + OPT_HEADER_LENGTH + len) end_ pos maxPos opts
  end.

Definition ParseMessageOptions (msg : DhcpMsgInfo) : option (Z * DhcpMsgInfo) :=
  if msg_length msg <? DHCP_MSG_HEADER_SIZE + MAGIC_COOKIE_LENGTH then Some (RET_FAILED, msg)
  else
    let buf := msg_options (packet msg) in
    let end_ := msg_length msg - DHCP_MSG_HEADER_SIZE in
    cookie ← slice buf 0 MAGIC_COOKIE_LENGTH;
    if negb (bool_decide (cookie = MAGIC_COOKIE_DATA)) then Some (RET_FAILED, msg)
    else
      let current := MAGIC_COOKIE_LENGTH in
      let pos := current + MAGIC_COOKIE_LENGTH in
      let maxPos := current + (DHCP_OPTION_SIZE - MAGIC_COOKIE_LENGTH - OPT_HEADER_LENGTH - 1) in
      '(r, opts) ← ParseMessageOptions_loop (S (Z.to_nat end_)) buf current end_ pos maxPos (options msg);
      Some (r, set_options opts msg).

(** * Encoding the options of a reply *)

Definition ResetMessageOptions (reply : DhcpMsgInfo) : Z * DhcpMsgInfo :=
  if Nat.eqb (length (options reply)) 0 then (RET_ERROR, reply)
  else (RET_SUCCESS,
        set_packet (set_msg_options (zeros (Z.to_nat DHCP_OPTIONS_SIZE)) (packet reply)) reply).

Definition ValidateReplyOptions (reply : DhcpMsgInfo) : Z * DhcpMsgInfo :=
  let '(ret, reply) := ResetMessageOptions reply in
  if negb (ret =? RET_SUCCESS) then (ret, reply)
  else
    let reply := set_msg_length DHCP_MSG_HEADER_SIZE reply in
    match opts_get (options reply) DHCP_MESSAGE_TYPE_OPTION with
    | None => (ret, reply)
    | Some _ => (RET_SUCCESS, reply)
    end.

(** The memory of a [struct DhcpOption]. *)
Definition option_bytes (o : DhcpOption) : bytes := code o :: length_ o :: data o.

Definition end_opt : DhcpOption := option_of END_OPTION 0 [].

(** The copying loop over the option nodes; the result is the return code,
    the options array and the number of bytes written after the cookie. *)
Fixpoint ParseReplyOptions_loop (pNode : list DhcpOption) (buf : bytes)
    (current remainingSize replyOptsLength : Z) : Z * bytes * Z :=
  match pNode with
  | [] => (RET_SUCCESS, buf, replyOptsLength)
  | o :: rest =>
      let olen := if code o =? END_OPTION then OPT_HEADER_LENGTH + 1
                  else u8 (OPT_HEADER_LENGTH + length_ o) in
      let at_ := Z.to_nat current in
      let '(ok, tail) := memcpy_s (drop at_ buf) remainingSize (option_bytes o) olen in
      let buf := take at_ buf ++ tail in
      if negb ok then (RET_FAILED, buf, replyOptsLength)
      else
        let remainingSize := remainingSize - olen in
        let current := current + olen in
        let replyOptsLength := replyOptsLength + olen in
        if code o =? END_OPTION then (RET_SUCCESS, buf, replyOptsLength)
        else if replyOptsLength >=? DHCP_OPTIONS_SIZE then (RET_FAILED, buf, replyOptsLength)
        else ParseReplyOptions_loop rest buf current remainingSize replyOptsLength
  end.

Definition ParseReplyOptions (reply : DhcpMsgInfo) : Z * DhcpMsgInfo :=
  let '(ret, reply) := ValidateReplyOptions reply in
  if negb (ret =? RET_SUCCESS) then (ret, reply)
  else
    let reply := set_options (snd (opts_push_back (options reply) end_opt)) reply in
    let olen := MAGIC_COOKIE_LENGTH in
    let remainingSize := DHCP_OPTIONS_SIZE in
    let cookie := htonl DHCP_MAGIC_COOKIE in
    let '(ok, buf) := memcpy_s (msg_options (packet reply)) remainingSize (le32 cookie) olen in
    if negb ok then (RET_FAILED, set_packet (set_msg_options buf (packet reply)) reply)
    else
      let '(ret, buf, replyOptsLength) :=
        ParseReplyOptions_loop (options reply) buf olen (remainingSize - olen) olen in
      let reply := set_packet (set_msg_options buf (packet reply)) reply in
      (ret, set_msg_length (msg_length reply + replyOptsLength) reply).

(** * Properties of the decoder *)

Lemma slice_in buf off n :
  0 <= off -> 0 <= n -> off + n <= Z.of_nat (length buf) ->
  slice buf off n = Some (take (Z.to_nat n) (drop (Z.to_nat off) buf)).
Proof.
  intros. unfold slice. rewrite (proj2 (Z.leb_le 0 _)), (proj2 (Z.leb_le _ _)) by lia. done.
Qed.

Lemma read_in buf off : 0 <= off < Z.of_nat (length buf) -> exists c, read buf off = Some c.
Proof. intros. unfold read. apply lookup_lt_is_Some_2. lia. Qed.

Lemma Forall_read (P : Z -> Prop) buf off c : Forall P buf -> read buf off = Some c -> P c.
Proof. intros H1 H2. rewrite Forall_lookup in H1. eauto. Qed.

(** What the decoder keeps of an option: a byte code other than the codes it
    treats itself, and a nonempty value inside one byte's length. *)
Definition decoded (o : DhcpOption) : Prop :=
  wf_option o /\ 1 <= length_ o /\ ~ In (code o) [PAD_OPTION; TIME_OFFSET_OPTION; END_OPTION].

Lemma opts_size_app os1 os2 f : foldr (fun (o : DhcpOption) a => f o + a) 0 (os1 ++ os2)
  = foldr (fun o a => f o + a) 0 os1 + foldr (fun o a => f o + a) 0 os2.
Proof. induction os1 as [|o os IH]; cbn; lia. Qed.

(** Bytes the options take when encoded. *)
Definition opts_size (os : list DhcpOption) : Z :=
  foldr (fun o a => OPT_HEADER_LENGTH + length_ o + a) 0 os.

Lemma opts_size_app' os1 os2 : opts_size (os1 ++ os2) = opts_size os1 + opts_size os2.
Proof. apply (opts_size_app os1 os2 (fun o => OPT_HEADER_LENGTH + length_ o)). Qed.

Lemma opts_size_nonneg os : Forall wf_option os -> 0 <= opts_size os.
Proof.
  unfold opts_size. induction 1 as [|o os (_ & Hl & _) _ IH]; cbn; [lia|].
  unfold is_u8, OPT_HEADER_LENGTH in *. lia.
Qed.

Lemma decoded_push opts c len d :
  is_u8 c -> is_u8 len -> c <> PAD_OPTION -> c <> TIME_OFFSET_OPTION -> c <> END_OPTION ->
  Forall decoded opts -> Forall decoded (snd (opts_push_back opts (option_of c len d))).
Proof.
  intros Hc Hl H1 H2 H3 Hf. unfold opts_push_back. cbn [length_ option_of].
  destruct (Z.eqb_spec len 0); [done|]. apply Forall_app. split; [done|]. apply Forall_singleton.
  unfold is_u8 in Hl.
  assert (Hlen : length (take (Z.to_nat len) (pad 256 d) ++ drop (Z.to_nat len) (zeros 256)) = 256%nat)
    by (rewrite length_app, length_take, length_drop, length_pad, length_zeros; lia).
  split; [split; [done|split; [unfold is_u8; cbn; lia | exact Hlen]]|].
  split; [cbn; lia|]. cbn. naive_solver.
Qed.

Lemma ParseMessageOptions_loop_total fuel : forall buf cur end_ pos maxPos opts,
  Forall is_u8 buf -> 0 <= cur <= end_ -> end_ < Z.of_nat (length buf) ->
  end_ - cur < Z.of_nat fuel -> Forall decoded opts ->
  exists r opts', ParseMessageOptions_loop fuel buf cur end_ pos maxPos opts = Some (r, opts') /\
    Forall decoded opts' /\ opts `prefix_of` opts' /\ (r = RET_SUCCESS \/ r = RET_FAILED) /\
    (opts_size opts' <= opts_size opts \/ opts_size opts' < opts_size opts + maxPos - pos).
Proof.
  induction fuel as [|fuel IH]; intros buf cur end_ pos maxPos opts Hb Hc He Hf Ho.
  { exfalso. cbn in Hf. lia. }
  cbn [ParseMessageOptions_loop]. destruct (Z.ltb_spec cur end_) as [Hlt|Hge]; cbn [negb].
  2: { exists RET_FAILED, opts. split_and!; auto. lia. }
  destruct (read_in buf cur) as [c Hcr]; [lia|]. rewrite Hcr. cbn [mbind option_bind].
  destruct (Z.eqb_spec c END_OPTION) as [|Hne]; [exists RET_SUCCESS, opts; split_and!; auto; lia|].
  destruct (read_in buf (cur + 1)) as [len Hlr]; [lia|]. rewrite Hlr. cbn [mbind option_bind].
  assert (Hcu : is_u8 c) by (by eapply Forall_read).
  assert (Hlu : is_u8 len) by (by eapply Forall_read).
  assert (Hl0 : 0 <= len < 256) by (unfold is_u8 in Hlu; lia). unfold OPT_HEADER_LENGTH in *.
  destruct (Z.ltb_spec (end_ - cur - len) 2); [exists RET_FAILED, opts; split_and!; auto; lia|].
  destruct (Z.eqb_spec c PAD_OPTION); [apply IH; auto; lia|].
  destruct (Z.eqb_spec c TIME_OFFSET_OPTION); [apply IH; auto; lia|].
  rewrite Z.geb_leb. destruct (Z.leb_spec maxPos (pos + (2 + len)));
    [exists RET_FAILED, opts; split_and!; auto; lia|].
  rewrite slice_in by lia. cbn [mbind option_bind].
  set (d := take _ _). pose proof (decoded_push opts c len d Hcu Hlu n n0 Hne Ho) as Hd.
  destruct (IH buf (cur + 2 + len) end_ (pos + (2 + len)) maxPos
    (snd (opts_push_back opts (option_of c len d)))) as (r & opts' & E & H1 & H2 & H3 & H4);
    [done|lia|done|lia|done|].
  exists r, opts'. split; [done|]. split; [done|].
  assert (Hsz : opts_size (snd (opts_push_back opts (option_of c len d))) <= opts_size opts + (2 + len)
    /\ opts `prefix_of` snd (opts_push_back opts (option_of c len d))).
  { unfold opts_push_back. cbn [length_ option_of]. destruct (len =? 0); cbn [snd].
    - split; [lia|done].
    - rewrite opts_size_app'. cbn. unfold OPT_HEADER_LENGTH. split; [lia|]. by eexists. }
  destruct Hsz as [Hsz Hp]. split; [by etrans|]. split; [done|]. lia.
Qed.

(** The largest message that [ReceiveDhcpMessage] accepts and whose options
    the decoder can walk without leaving the array. *)
Definition max_safe_length : Z := 545.

Lemma ParseMessageOptions_total_lemma msg :
  Forall is_u8 (msg_options (packet msg)) -> length (msg_options (packet msg)) = 312%nat ->
  msg_length msg <= max_safe_length -> Forall decoded (options msg) ->
  exists r opts, ParseMessageOptions msg = Some (r, set_options opts msg) /\
    (r = RET_SUCCESS \/ r = RET_FAILED) /\ Forall decoded opts /\
    options msg `prefix_of` opts /\ opts_size opts <= opts_size (options msg) + 244.
Proof.
  unfold max_safe_length. intros Hb Hlen Hmax Ho. unfold ParseMessageOptions.
  assert (Hsame : msg = set_options (options msg) msg) by (by destruct msg).
  unfold DHCP_MSG_HEADER_SIZE, MAGIC_COOKIE_LENGTH.
  destruct (Z.ltb_spec (msg_length msg) (234 + 4)).
  { exists RET_FAILED, (options msg). rewrite <- Hsame. split_and!; auto. lia. }
  rewrite slice_in by lia. cbn [mbind option_bind].
  case_bool_decide; cbn [negb].
  2: { exists RET_FAILED, (options msg). rewrite <- Hsame. split_and!; auto. lia. }
  destruct (ParseMessageOptions_loop_total (S (Z.to_nat (msg_length msg - 234)))
    (msg_options (packet msg)) 4 (msg_length msg - 234) (4 + 4)
    (4 + (DHCP_OPTION_SIZE - 4 - OPT_HEADER_LENGTH - 1)) (options msg))
    as (r & opts & E & H1 & H2 & H3 & H4); [done|lia|lia|lia|done|].
  rewrite E. cbn [mbind option_bind]. exists r, opts. unfold DHCP_OPTION_SIZE, OPT_HEADER_LENGTH in *.
  split_and!; auto. lia.
Qed.

(** Decoding a received message of at most 545 bytes always ends, reads
    only inside the options array, leaves the packet alone, and appends to the
    option list only well-formed nonempty options whose codes are not PAD,
    time offset or END and which take at most 244 bytes in all. *)
Theorem ParseMessageOptions_total msg :
  Forall is_u8 (msg_options (packet msg)) -> length (msg_options (packet msg)) = 312%nat ->
  msg_length msg <= max_safe_length -> Forall decoded (options msg) ->
  exists r opts, ParseMessageOptions msg = Some (r, set_options opts msg) /\
    (r = RET_SUCCESS \/ r = RET_FAILED) /\ Forall decoded opts /\
    options msg `prefix_of` opts /\ opts_size opts <= opts_size (options msg) + 244.
Proof. apply ParseMessageOptions_total_lemma. Qed.

(** A request as it arrives: 312 bytes of options of which the message's
    length covers some. *)
Definition sample_message (opts : bytes) (len : Z) : DhcpMsgInfo :=
  mkMsgInfo (mkMessage BOOTREQUEST 1 6 0 0x3903F326 0 0 0 0 0 0
    ([0x00; 0x05; 0x3C; 0x04; 0x8D; 0x59] ++ zeros 10) (zeros 64) (zeros 128) (pad 312 opts)) len [].

Lemma pad_u8 n l : Forall is_u8 l -> Forall is_u8 (pad n l).
Proof.
  intros H. unfold pad. apply Forall_take, Forall_app. split; [done|].
  apply Forall_replicate. unfold is_u8. lia.
Qed.

Lemma ParseMessageOptions_total_witness :
  exists r opts,
    ParseMessageOptions (sample_message (MAGIC_COOKIE_DATA ++ [53; 1; 1; 255]) 300) =
      Some (r, set_options opts (sample_message (MAGIC_COOKIE_DATA ++ [53; 1; 1; 255]) 300)) /\
    (r = RET_SUCCESS \/ r = RET_FAILED) /\ Forall decoded opts /\
    options (sample_message (MAGIC_COOKIE_DATA ++ [53; 1; 1; 255]) 300) `prefix_of` opts /\
    opts_size opts <= opts_size (options (sample_message (MAGIC_COOKIE_DATA ++ [53; 1; 1; 255]) 300)) + 244.
Proof.
  apply ParseMessageOptions_total.
  - apply pad_u8. repeat constructor; unfold is_u8; lia.
  - apply length_pad.
  - unfold max_safe_length. cbn. lia.
  - constructor.
Defined.

(** [DHCP_MSG_HEADER_SIZE] is two less than the offset of the options in
    the message, so for the longest accepted message (548 bytes, the size of
    the structure) the walk runs past the array: 308 pad bytes after the
    cookie make the decoder read offset 312. *)
Theorem ParseMessageOptions_overread :
  length (header_bytes (packet (sample_message [] 548))) = 236%nat /\
  length (packet_bytes (packet (sample_message [] 548))) = 548%nat /\
  ParseMessageOptions (sample_message MAGIC_COOKIE_DATA 548) = None /\
  ParseMessageOptions (sample_message MAGIC_COOKIE_DATA 546) = None.
Proof. by vm_compute. Qed.

(** The range test comes before the test for PAD and takes the byte after
    the pad as its length: an options field that decodes is refused once a pad
    byte is put between two of its options. *)
Theorem ParseMessageOptions_pad_refused :
  let opts := MAGIC_COOKIE_DATA ++ [53; 1; 1; 55; 2; 1; 3; 255] in
  let padded := MAGIC_COOKIE_DATA ++ [53; 1; 1; 0; 55; 2; 1; 3; 255] in
  ParseMessageOptions (sample_message opts 246) =
    Some (RET_SUCCESS, set_options [option_of 53 1 [1]; option_of 55 2 [1; 3]] (sample_message opts 246)) /\
  fst <$> ParseMessageOptions (sample_message padded 247) = Some RET_FAILED.
Proof. by vm_compute. Qed.

(** * Encoding and decoding *)

Definition enc_option (o : DhcpOption) : bytes :=
  code o :: length_ o :: take (Z.to_nat (length_ o)) (data o).
Definition encode (os : list DhcpOption) : bytes := List.concat (map enc_option os).

Lemma encode_app os1 os2 : encode (os1 ++ os2) = encode os1 ++ encode os2.
Proof. unfold encode. by rewrite map_app, concat_app. Qed.

Lemma length_enc_option o : wf_option o -> Z.of_nat (length (enc_option o)) = OPT_HEADER_LENGTH + length_ o.
Proof.
  intros (_ & Hl & Hd). unfold is_u8, OPT_HEADER_LENGTH in *. change (Z.to_nat _) with 256%nat in Hd.
  cbn [enc_option length]. rewrite length_take. lia.
Qed.

Lemma length_encode os : Forall wf_option os -> Z.of_nat (length (encode os)) = opts_size os.
Proof.
  induction 1 as [|o os Ho _ IH]; [done|].
  change (encode (o :: os)) with (enc_option o ++ encode os).
  rewrite length_app, Nat2Z.inj_add, IH, length_enc_option by done. done.
Qed.

Lemma read_drop buf off c rest : 0 <= off -> drop (Z.to_nat off) buf = c :: rest -> read buf off = Some c.
Proof.
  intros Ho Hd. unfold read. rewrite <- (Nat.add_0_r (Z.to_nat off)), <- lookup_drop. by rewrite Hd.
Qed.

Lemma drop_step {A} (buf l rest : list A) n m :
  drop n buf = l ++ rest -> m = length l -> drop (n + m) buf = rest.
Proof. intros H ->. rewrite <- drop_drop, H. by rewrite drop_app_length. Qed.

Lemma copy_slice c len d :
  0 <= len <= 256 -> Z.of_nat (length d) = len ->
  copy_option (option_of c len d) = mkOption c len (d ++ drop (Z.to_nat len) (zeros 256)).
Proof.
  intros Hl Hd. unfold copy_option, option_of. cbn [code length_ data].
  change (Z.to_nat DHCP_OPTION_SIZE) with 256%nat. f_equal. f_equal.
  unfold pad. rewrite take_take, Nat.min_l by lia. apply take_app_length'. lia.
Qed.

(** One option is decoded and the walk goes on after it. *)
Lemma ParseMessageOptions_step fuel buf cur end_ pos maxPos opts o d rest :
  decoded o -> 0 <= cur -> drop (Z.to_nat cur) buf = code o :: length_ o :: d ++ rest ->
  Z.of_nat (length d) = length_ o ->
  cur + (OPT_HEADER_LENGTH + length_ o) <= end_ -> pos + (OPT_HEADER_LENGTH + length_ o) < maxPos ->
  ParseMessageOptions_loop (S fuel) buf cur end_ pos maxPos opts =
  ParseMessageOptions_loop fuel buf (cur + (OPT_HEADER_LENGTH + length_ o)) end_
    (pos + (OPT_HEADER_LENGTH + length_ o)) maxPos
    (opts ++ [mkOption (code o) (length_ o) (d ++ drop (Z.to_nat (length_ o)) (zeros 256))]).
Proof.
  intros ((_ & Hl & _) & Hl1 & Hcodes) Hcur Hd Hdl Hend Hpos.
  unfold is_u8, OPT_HEADER_LENGTH in *. cbn [ParseMessageOptions_loop].
  assert (Hlen : (Z.to_nat cur + 2 + length d + length rest = length buf)%nat).
  { assert (H : length (drop (Z.to_nat cur) buf) = (2 + length d + length rest)%nat)
      by (rewrite Hd; cbn; rewrite length_app; lia). rewrite length_drop in H. lia. }
  rewrite (proj2 (Z.ltb_lt cur end_)) by lia. cbn [negb].
  rewrite (read_drop buf cur (code o) _ Hcur Hd). cbn [mbind option_bind].
  rewrite (proj2 (Z.eqb_neq (code o) END_OPTION)) by (intros E; apply Hcodes; cbn; auto).
  rewrite (read_drop buf (cur + 1) (length_ o) (d ++ rest)).
  2: lia.
  2: { rewrite Z2Nat.inj_add by lia. by apply (drop_step buf [code o]). }
  cbn [mbind option_bind]. unfold OPT_HEADER_LENGTH.
  rewrite (proj2 (Z.ltb_ge _ 2)) by lia.
  rewrite (proj2 (Z.eqb_neq (code o) PAD_OPTION)) by (intros E; apply Hcodes; cbn; auto).
  rewrite (proj2 (Z.eqb_neq (code o) TIME_OFFSET_OPTION)) by (intros E; apply Hcodes; cbn; auto).
  rewrite Z.geb_leb, (proj2 (Z.leb_gt maxPos _)) by lia.
  rewrite slice_in by lia. cbn [mbind option_bind].
  replace (take (Z.to_nat (length_ o)) (drop (Z.to_nat (cur + 2)) buf)) with d.
  2: { rewrite Z2Nat.inj_add by lia.
       rewrite (drop_step buf [code o; length_ o] (d ++ rest)) by done.
       by rewrite take_app_length' by lia. }
  unfold opts_push_back. cbn [length_ option_of].
  rewrite (proj2 (Z.eqb_neq (length_ o) 0)) by lia. cbn [snd].
  rewrite copy_slice by lia.
  by replace (cur + 2 + length_ o) with (cur + (2 + length_ o)) by lia.
Qed.

Lemma ParseMessageOptions_loop_encode os : forall fuel buf cur end_ pos maxPos opts rest,
  Forall decoded os -> 0 <= cur -> drop (Z.to_nat cur) buf = encode os ++ rest ->
  cur + opts_size os <= end_ -> pos + opts_size os < maxPos ->
  (length os <= fuel)%nat ->
  ParseMessageOptions_loop fuel buf cur end_ pos maxPos opts =
  ParseMessageOptions_loop (fuel - length os) buf (cur + opts_size os) end_
    (pos + opts_size os) maxPos (opts ++ map copy_option os).
Proof.
  induction os as [|o os IH]; intros fuel buf cur end_ pos maxPos opts rest Hos Hcur Hd Hend Hpos Hf.
  { cbn. by rewrite !Z.add_0_r, app_nil_r, Nat.sub_0_r. }
  apply Forall_cons in Hos as [Ho Hos]. destruct fuel as [|fuel]; [cbn in Hf; lia|].
  change (encode (o :: os)) with (enc_option o ++ encode os) in Hd.
  assert (Hsz : opts_size (o :: os) = OPT_HEADER_LENGTH + length_ o + opts_size os) by done.
  assert (0 <= opts_size os).
  { apply opts_size_nonneg. eapply Forall_impl; [exact Hos|]. by intros ? [? _]. }
  assert (Hwf : wf_option o) by apply Ho. assert (Hwf' := Hwf). destruct Hwf' as (_ & Hl & Hdl).
  unfold is_u8 in Hl. change (Z.to_nat DHCP_OPTION_SIZE) with 256%nat in Hdl.
  rewrite (ParseMessageOptions_step fuel buf cur end_ pos maxPos opts o
    (take (Z.to_nat (length_ o)) (data o)) (encode os ++ rest)).
  - rewrite (IH _ _ _ _ _ _ _ rest Hos).
    + rewrite Hsz. cbn [length map]. rewrite !Z.add_assoc.
      rewrite <- app_assoc. cbn [app]. replace (S fuel - S (length os))%nat with (fuel - length os)%nat by lia.
      done.
    + unfold OPT_HEADER_LENGTH. lia.
    + rewrite <- app_assoc in Hd. unfold OPT_HEADER_LENGTH in *. rewrite Z2Nat.inj_add by lia.
      apply (drop_step _ _ _ _ _ Hd).
      pose proof (length_enc_option o Hwf). unfold OPT_HEADER_LENGTH in *. lia.
    + lia.
    + lia.
    + cbn in Hf. lia.
  - done.
  - done.
  - rewrite Hd. cbn [enc_option app]. by rewrite <- app_assoc.
  - rewrite length_take. lia.
  - lia.
  - lia.
Qed.

(** What the encoder can copy without its one-byte length wrapping. *)
Definition encodable (o : DhcpOption) : Prop :=
  wf_option o /\ length_ o <= 253 /\ code o <> END_OPTION.

Lemma ParseReplyOptions_loop_encode os : forall pre rem n,
  Forall encodable os -> opts_size os <= rem -> n + opts_size os < DHCP_OPTIONS_SIZE ->
  ParseReplyOptions_loop os (pre ++ zeros (Z.to_nat rem)) (Z.of_nat (length pre)) rem n =
  (RET_SUCCESS, pre ++ encode os ++ zeros (Z.to_nat (rem - opts_size os)), n + opts_size os).
Proof.
  induction os as [|o os IH]; intros pre rem n Hos Hr Hn.
  { cbn. by rewrite Z.sub_0_r, Z.add_0_r. }
  apply Forall_cons in Hos as [(Hwf & Hl & Hc) Hos]. assert (Hwf' := Hwf). destruct Hwf' as (_ & Hl8 & Hd).
  assert (Hsz : opts_size (o :: os) = OPT_HEADER_LENGTH + length_ o + opts_size os) by done.
  assert (H0 : 0 <= opts_size os).
  { apply opts_size_nonneg. eapply Forall_impl; [exact Hos|]. by intros ? [? _]. }
  unfold is_u8, OPT_HEADER_LENGTH, DHCP_OPTIONS_SIZE in *. change (Z.to_nat DHCP_OPTION_SIZE) with 256%nat in Hd.
  cbn [ParseReplyOptions_loop]. rewrite (proj2 (Z.eqb_neq _ _) Hc).
  unfold OPT_HEADER_LENGTH, u8. rewrite (Z.mod_small (2 + length_ o)) by lia.
  rewrite Nat2Z.id, drop_app_length, take_app_length.
  unfold memcpy_s. rewrite (proj2 (Z.leb_le _ _)) by lia. cbn [negb].
  unfold DHCP_OPTIONS_SIZE. rewrite Z.geb_leb, (proj2 (Z.leb_gt 312 _)) by lia.
  replace (take (Z.to_nat (2 + length_ o)) (option_bytes o)) with (enc_option o).
  2: { unfold enc_option, option_bytes. replace (Z.to_nat (2 + length_ o)) with (S (S (Z.to_nat (length_ o)))) by lia. done. }
  replace (drop (Z.to_nat (2 + length_ o)) (zeros (Z.to_nat rem)))
    with (zeros (Z.to_nat (rem - (2 + length_ o)))).
  2: { unfold zeros. rewrite drop_replicate. f_equal. lia. }
  rewrite app_assoc. pose proof (length_enc_option o Hwf) as Hle. unfold OPT_HEADER_LENGTH in Hle.
  replace (Z.of_nat (length pre) + (2 + length_ o)) with (Z.of_nat (length (pre ++ enc_option o)))
    by (rewrite length_app; lia).
  rewrite IH by (done || lia). rewrite <- app_assoc, Hsz.
  change (encode (o :: os)) with (enc_option o ++ encode os). rewrite <- app_assoc.
  f_equal; [|lia]. f_equal. do 4 f_equal. lia.
Qed.

Lemma ParseReplyOptions_encodes_lemma reply :
  Forall encodable (options reply) ->
  opts_get (options reply) DHCP_MESSAGE_TYPE_OPTION <> None ->
  MAGIC_COOKIE_LENGTH + opts_size (options reply) < DHCP_OPTIONS_SIZE ->
  ParseReplyOptions reply =
  (RET_SUCCESS,
   mkMsgInfo
     (set_msg_options (MAGIC_COOKIE_DATA ++ encode (options reply)
        ++ zeros (Z.to_nat (308 - opts_size (options reply)))) (packet reply))
     (238 + opts_size (options reply)) (options reply)).
Proof.
  intros Hos Hmt Hsz. destruct reply as [p len os]. cbn [options packet] in *.
  unfold ParseReplyOptions, ValidateReplyOptions, ResetMessageOptions. cbn [options].
  destruct os as [|o os]; [done|]. cbn [length Nat.eqb]. cbn [negb Z.eqb RET_SUCCESS].
  unfold set_packet, set_msg_length. cbn [options packet msg_length].
  destruct (opts_get (o :: os) DHCP_MESSAGE_TYPE_OPTION); [|done]. cbn [negb Z.eqb].
  change (snd (opts_push_back (o :: os) end_opt)) with (o :: os).
  unfold MAGIC_COOKIE_LENGTH, DHCP_OPTIONS_SIZE in *.
  change (memcpy_s _ 312 (le32 (htonl DHCP_MAGIC_COOKIE)) 4)
    with (true, MAGIC_COOKIE_DATA ++ zeros (Z.to_nat 308)). cbn [negb].
  unfold set_options. cbn [options packet]. change (312 - 4) with 308.
  pose proof (ParseReplyOptions_loop_encode (o :: os) MAGIC_COOKIE_DATA 308 4 Hos) as E.
  change (Z.of_nat (length MAGIC_COOKIE_DATA)) with 4 in E.
  change ((opts_push_back (o :: os) end_opt).2) with (o :: os).
  change (negb (RET_SUCCESS =? RET_SUCCESS)) with false. cbv iota.
  rewrite E; [|lia|unfold DHCP_OPTIONS_SIZE; lia].
  unfold set_msg_options. cbn [op htype hlen hops xid secs flags ciaddr yiaddr siaddr giaddr chaddr sname file].
  unfold DHCP_MSG_HEADER_SIZE. by rewrite Z.add_assoc.
Qed.

(** The options of a reply are written as the magic cookie, the code,
    length and value of each option in list order, and zeros; the packet
    length becomes 238 plus the bytes of the options and nothing else of the
    packet changes. The END option the code pushes first is refused by the
    list, so no END byte is written. *)
Theorem ParseReplyOptions_encodes reply :
  Forall encodable (options reply) ->
  opts_get (options reply) DHCP_MESSAGE_TYPE_OPTION <> None ->
  MAGIC_COOKIE_LENGTH + opts_size (options reply) < DHCP_OPTIONS_SIZE ->
  opts_push_back (options reply) end_opt = (1, options reply) /\
  ParseReplyOptions reply =
  (RET_SUCCESS,
   mkMsgInfo
     (set_msg_options (MAGIC_COOKIE_DATA ++ encode (options reply)
        ++ zeros (Z.to_nat (308 - opts_size (options reply)))) (packet reply))
     (238 + opts_size (options reply)) (options reply)).
Proof. intros. split; [done | by apply ParseReplyOptions_encodes_lemma]. Qed.

Definition sample_reply : DhcpMsgInfo :=
  set_options [option_of 53 1 [2]; option_of 54 4 [192; 168; 62; 1]] (sample_message [] 0).

Lemma ParseReplyOptions_encodes_witness :
  opts_push_back (options sample_reply) end_opt = (1, options sample_reply) /\
  ParseReplyOptions sample_reply =
  (RET_SUCCESS,
   mkMsgInfo
     (set_msg_options (MAGIC_COOKIE_DATA ++ encode (options sample_reply)
        ++ zeros (Z.to_nat (308 - opts_size (options sample_reply)))) (packet sample_reply))
     (238 + opts_size (options sample_reply)) (options sample_reply)).
Proof.
  apply ParseReplyOptions_encodes.
  - repeat constructor; cbn; try done; unfold is_u8; lia.
  - discriminate.
  - reflexivity.
Defined.

Definition max_decoded_size : Z := 244.

Lemma ParseMessageOptions_decodes msg os rest :
  Forall decoded os -> options msg = [] ->
  msg_options (packet msg) = MAGIC_COOKIE_DATA ++ encode os ++ END_OPTION :: rest ->
  opts_size os <= max_decoded_size -> 238 + opts_size os < msg_length msg ->
  ParseMessageOptions msg = Some (RET_SUCCESS, set_options (map copy_option os) msg).
Proof.
  unfold max_decoded_size. intros Hos Hopt Hbuf Hsz Hlen.
  assert (Hwf : Forall wf_option os) by (eapply Forall_impl; [exact Hos|]; by intros ? [? _]).
  pose proof (opts_size_nonneg os Hwf). pose proof (length_encode os Hwf) as Hle.
  unfold ParseMessageOptions, DHCP_MSG_HEADER_SIZE, MAGIC_COOKIE_LENGTH.
  rewrite (proj2 (Z.ltb_ge _ _)) by lia. rewrite Hbuf.
  change (slice (MAGIC_COOKIE_DATA ++ encode os ++ END_OPTION :: rest) 0 4) with
    (slice ([0x63; 0x82; 0x53; 0x63] ++ encode os ++ END_OPTION :: rest) 0 4).
  rewrite slice_in by (rewrite ?length_app; cbn; lia). cbn [mbind option_bind].
  rewrite bool_decide_eq_true_2 by done. cbn [negb]. rewrite <- Hbuf, Hopt.
  set (end_ := msg_length msg - 234).
  assert (Hcount : (length os <= Z.to_nat end_)%nat).
  { enough (Z.of_nat (length os) <= opts_size os) by lia. clear -Hwf.
    induction Hwf as [|o os (_ & Hl & _) _ IH]; [done|]. unfold is_u8 in Hl.
    change (opts_size (o :: os)) with (OPT_HEADER_LENGTH + length_ o + opts_size os).
    unfold OPT_HEADER_LENGTH. cbn [length]. lia. }
  rewrite (ParseMessageOptions_loop_encode os _ _ _ _ _ _ _ (END_OPTION :: rest));
    [|done|lia|by rewrite Hbuf|lia|unfold DHCP_OPTION_SIZE, OPT_HEADER_LENGTH; lia|lia].
  replace (S (Z.to_nat end_) - length os)%nat with (S (Z.to_nat end_ - length os))%nat by lia.
  cbn [ParseMessageOptions_loop]. rewrite (proj2 (Z.ltb_lt _ _)) by lia. cbn [negb].
  rewrite (read_drop (msg_options (packet msg)) (4 + opts_size os) END_OPTION rest); [done|lia|].
  rewrite Hbuf, app_assoc, Z2Nat.inj_add by lia.
  apply drop_app_length'. rewrite length_app. change (length MAGIC_COOKIE_DATA) with 4%nat. lia.
Qed.

(** C21: encoding and decoding are inverse: a message whose options field is
    the cookie, the encoding of well-formed options of at most 244 bytes, and
    an END byte inside the message, decodes to exactly those options. *)
Theorem ParseMessageOptions_encode msg os rest :
  Forall decoded os -> options msg = [] ->
  msg_options (packet msg) = MAGIC_COOKIE_DATA ++ encode os ++ END_OPTION :: rest ->
  opts_size os <= max_decoded_size -> 238 + opts_size os < msg_length msg ->
  ParseMessageOptions msg = Some (RET_SUCCESS, set_options (map copy_option os) msg).
Proof. apply ParseMessageOptions_decodes. Qed.

Lemma ParseMessageOptions_encode_witness :
  let os := [option_of 53 1 [3]; option_of 50 4 [192; 168; 62; 7]] in
  let msg := sample_message (MAGIC_COOKIE_DATA ++ encode os ++ [END_OPTION]) 300 in
  ParseMessageOptions msg = Some (RET_SUCCESS, set_options (map copy_option os) msg).
Proof.
  cbv zeta. apply (ParseMessageOptions_encode _ _ (zeros 298)).
  - repeat constructor; cbn; try done; intuition discriminate.
  - reflexivity.
  - reflexivity.
  - by vm_compute.
  - reflexivity.
Defined.

(** ** The packet on the wire

    [SendDhcpOffer], [SendDhcpAck] and [SendDhcpNak] pass [length] bytes of
    the packet to [sendto]. *)
Definition wire_bytes (reply : DhcpMsgInfo) : bytes :=
  take (Z.to_nat (msg_length reply)) (packet_bytes (packet reply)).

(** The options array of a receiver whose packet buffer held [stale] before
    [n] bytes arrived over it: [sent] reaches up to its 236-byte header. *)
Definition received_options (sent stale : bytes) : bytes :=
  drop 236 sent ++ drop (length sent - 236) stale.

Definition wf_header (p : DhcpMessage) : Prop := length (header_bytes p) = 236%nat.

Lemma opts_size_count os : Forall wf_option os -> Z.of_nat (length os) <= opts_size os.
Proof.
  induction 1 as [|x xs (_ & Hl & _) _ IH]; [done|]. unfold is_u8 in Hl.
  change (opts_size (x :: xs)) with (OPT_HEADER_LENGTH + length_ x + opts_size xs).
  unfold OPT_HEADER_LENGTH. cbn [length]. lia.
Qed.

(** The bytes of an encoded reply whose length is two bytes short. *)
Lemma wire_bytes_encoded p os : wf_header p -> Forall wf_option os -> 2 <= opts_size os -> forall z os',
  wire_bytes (mkMsgInfo (set_msg_options (MAGIC_COOKIE_DATA ++ encode os ++ z) p) (238 + opts_size os) os') =
  header_bytes p ++ MAGIC_COOKIE_DATA ++ take (Z.to_nat (opts_size os - 2)) (encode os).
Proof.
  unfold wf_header. intros Hh Hwf H2 z os'. pose proof (length_encode _ Hwf) as Hlen.
  unfold wire_bytes, packet_bytes. cbn [packet msg_length].
  change (header_bytes (set_msg_options _ _)) with (header_bytes p).
  cbn [msg_options set_msg_options]. rewrite !app_assoc.
  rewrite take_app_le by (rewrite !length_app, Hh; cbn; lia).
  rewrite take_app, length_app, Hh. change (length MAGIC_COOKIE_DATA) with 4%nat.
  rewrite take_ge by (rewrite length_app, Hh; cbn; lia). do 2 f_equal. lia.
Qed.

(** What the receiver's array then holds: the last option is cut. *)
Lemma received_truncated p os o stale : wf_header p -> Forall wf_option (os ++ [o]) -> 2 <= length_ o ->
  opts_size (os ++ [o]) <= max_decoded_size -> length stale = 312%nat ->
  exists junk, received_options (header_bytes p ++ MAGIC_COOKIE_DATA
      ++ take (Z.to_nat (opts_size (os ++ [o]) - 2)) (encode (os ++ [o]))) stale =
    MAGIC_COOKIE_DATA ++ encode os ++ code o :: length_ o :: junk /\
    (length junk = 312 - 4 - length (encode os) - 2)%nat.
Proof.
  unfold wf_header, max_decoded_size. intros Hh Hwf Ho Hsz Hstale. apply Forall_app in Hwf as [Hwfs Hwfo].
  apply Forall_cons_1 in Hwfo as [(_ & Hl & Hdl) _]. pose proof (length_encode _ Hwfs) as Hlens.
  pose proof (opts_size_nonneg _ Hwfs) as H0.
  assert (Hsplit : opts_size (os ++ [o]) = opts_size os + (2 + length_ o))
    by (rewrite opts_size_app'; cbn; unfold OPT_HEADER_LENGTH; lia).
  rewrite Hsplit in *. unfold received_options. rewrite drop_app_length' by done.
  rewrite encode_app. change (encode [o]) with (enc_option o ++ []). rewrite app_nil_r.
  rewrite take_app, take_ge by lia.
  replace (Z.to_nat (opts_size os + (2 + length_ o) - 2) - length (encode os))%nat
    with (S (S (Z.to_nat (length_ o - 2)))) by lia.
  unfold enc_option. cbn [take]. eexists. split.
  { rewrite <- !app_assoc. cbn [app]. reflexivity. }
  unfold is_u8 in Hl. change (Z.to_nat DHCP_OPTION_SIZE) with 256%nat in Hdl.
  repeat first [rewrite length_app | rewrite length_take | rewrite length_drop | rewrite Hh | progress cbn [length]].
  change (length MAGIC_COOKIE_DATA) with 4%nat. lia.
Qed.

(** The decoder reads past the last option, finds no END and refuses. *)
Lemma ParseMessageOptions_cut os o junk msg : Forall decoded os -> decoded o -> 2 <= length_ o ->
  opts_size os + 2 + length_ o <= max_decoded_size ->
  msg_options (packet msg) = MAGIC_COOKIE_DATA ++ encode os ++ code o :: length_ o :: junk ->
  (length junk = 312 - 4 - length (encode os) - 2)%nat -> msg_length msg = 238 + (opts_size os + 2 + length_ o) ->
  options msg = [] -> fst <$> ParseMessageOptions msg = Some RET_FAILED.
Proof.
  unfold max_decoded_size. intros Hds Hdo Ho Hsz Hbuf Hjunk Hml Hos.
  assert (Hwfs : Forall wf_option os) by (eapply Forall_impl; [exact Hds|]; by intros ? [? _]).
  pose proof (length_encode _ Hwfs) as Hlens. pose proof (opts_size_count _ Hwfs) as Hcount.
  unfold ParseMessageOptions. rewrite Hml, Hos, Hbuf.
  unfold DHCP_MSG_HEADER_SIZE, MAGIC_COOKIE_LENGTH. rewrite (proj2 (Z.ltb_ge _ _)) by lia.
  rewrite slice_in by (rewrite ?length_app; cbn; lia). cbn [mbind option_bind].
  rewrite bool_decide_eq_true_2 by done. cbn [negb].
  set (n := opts_size os + 2 + length_ o) in *. replace (238 + n - 234) with (4 + n) by lia.
  rewrite (ParseMessageOptions_loop_encode os _ _ _ _ _ _ _ (code o :: length_ o :: junk));
    [|done|lia|done|lia|unfold DHCP_OPTION_SIZE, OPT_HEADER_LENGTH; lia|lia].
  replace (S (Z.to_nat (4 + n)) - length os)%nat with (S (S (Z.to_nat (4 + n) - length os - 1))) by lia.
  rewrite (ParseMessageOptions_step _ _ _ _ _ _ _ o (take (Z.to_nat (length_ o)) junk)
    (drop (Z.to_nat (length_ o)) junk)).
  - unfold OPT_HEADER_LENGTH. cbn [ParseMessageOptions_loop].
    rewrite (proj2 (Z.ltb_ge _ _)) by lia. done.
  - done.
  - lia.
  - rewrite take_drop, app_assoc, Z2Nat.inj_add by lia. apply drop_app_length'.
    rewrite length_app. change (length MAGIC_COOKIE_DATA) with 4%nat. lia.
  - rewrite length_take. lia.
  - unfold OPT_HEADER_LENGTH. lia.
  - unfold DHCP_OPTION_SIZE, OPT_HEADER_LENGTH. lia.
Qed.

(** The two bytes by which [DHCP_MSG_HEADER_SIZE] is short are missing at
    the end of every reply: the bytes sent end two bytes before the end of the
    last option, there is no END option, and the decoder of this server refuses
    the message whatever its buffer held before. *)
Theorem reply_truncated reply os o stale hdr :
  options reply = os ++ [o] -> wf_header (packet reply) ->
  Forall encodable (options reply) -> Forall decoded (options reply) ->
  opts_get (options reply) DHCP_MESSAGE_TYPE_OPTION <> None ->
  2 <= length_ o -> opts_size (options reply) <= max_decoded_size ->
  length stale = 312%nat ->
  let reply' := snd (ParseReplyOptions reply) in
  let received := mkMsgInfo (set_msg_options (received_options (wire_bytes reply') stale) hdr)
                            (msg_length reply') [] in
  wire_bytes reply' = header_bytes (packet reply) ++ MAGIC_COOKIE_DATA
     ++ take (Z.to_nat (opts_size (options reply) - 2)) (encode (options reply)) /\
  Z.of_nat (length (encode (options reply))) = opts_size (options reply) /\
  fst <$> ParseMessageOptions received = Some RET_FAILED.
Proof.
  unfold max_decoded_size. intros Hos Hh He Hd Hmt Ho Hsz Hstale.
  pose proof (ParseReplyOptions_encodes_lemma reply He Hmt) as E.
  rewrite E by (unfold MAGIC_COOKIE_LENGTH, DHCP_OPTIONS_SIZE; lia). cbv zeta. cbn [snd].
  assert (Hwf : Forall wf_option (options reply)) by (eapply Forall_impl; [exact Hd|]; by intros ? [? _]).
  assert (Hsplit : opts_size (options reply) = opts_size os + 2 + length_ o)
    by (rewrite Hos, opts_size_app'; cbn; unfold OPT_HEADER_LENGTH; lia).
  assert (Hnn : 0 <= opts_size os) by (apply opts_size_nonneg; rewrite Hos in Hwf; by apply Forall_app in Hwf as [? _]).
  rewrite wire_bytes_encoded by (done || lia).
  split; [done|]. split; [by apply length_encode|].
  pose proof Hsz as Hsz'. rewrite Hos in Hwf, Hd, Hsz. destruct (received_truncated (packet reply) os o stale) as (junk & Hrec & Hjunk); [done..|].
  apply Forall_app in Hd as [Hds Hdo]. apply Forall_cons_1 in Hdo as [Hdo _]. rewrite Hos, Hrec, <- Hos.
  apply (ParseMessageOptions_cut os o junk); try done; unfold max_decoded_size; cbn [msg_length]; rewrite ?Hsplit; lia.
Qed.

Lemma reply_truncated_witness :
  let reply' := snd (ParseReplyOptions sample_reply) in
  let received := mkMsgInfo (set_msg_options (received_options (wire_bytes reply') (zeros 312))
                               (packet sample_reply)) (msg_length reply') [] in
  wire_bytes reply' = header_bytes (packet sample_reply) ++ MAGIC_COOKIE_DATA
     ++ take (Z.to_nat (opts_size (options sample_reply) - 2)) (encode (options sample_reply)) /\
  Z.of_nat (length (encode (options sample_reply))) = opts_size (options sample_reply) /\
  fst <$> ParseMessageOptions received = Some RET_FAILED.
Proof.
  apply (reply_truncated sample_reply [option_of 53 1 [2]] (option_of 54 4 [192; 168; 62; 1])).
  - reflexivity.
  - reflexivity.
  - repeat constructor; cbn; try done; unfold is_u8; lia.
  - repeat constructor; cbn; try done; intuition discriminate.
  - discriminate.
  - cbn. lia.
  - by vm_compute.
  - reflexivity.
Defined.
