(* ===== verification/CommonUtil.v ===== *)
(** Text helpers of the server (src/services/dhcp_server/src/common_util.cpp)
    and the number checks of src/services/utils/src/dhcp_common_utils.cpp.

    The functions that edit a [char] buffer in place are given on the buffer,
    an index outside it being undefined ([None]); the theorems relate them to
    functions on the string the buffer holds. *)
From S2P Require Import Prelude AddressUtils OptionList.

Definition DHCP_MAX_PATH_LENGTH : Z := 256.
Definition DECIMAL_NOTATION : Z := 10.

(** * Trimming in place *)

Definition is_blank (c : Z) : bool := (c =? 32) || (c =? 9).

(** [isspace] in the C locale. *)
Definition isspace (c : Z) : bool := (c =? 32) || ((9 <=? c) && (c <=? 13)).

(** [while (p(buf[i])) ++i]. *)
Fixpoint skip_loop (p : Z -> bool) (fuel : nat) (buf : bytes) (i : nat) : option nat :=
  match fuel with
  | O => None
  | S fuel' => c ← buf !! i; if p c then skip_loop p fuel' buf (S i) else Some i
  end.

(** [while (buf[i] != '\0') buf[j++] = buf[i++]; buf[j] = '\0']. *)
Fixpoint shift_loop (fuel : nat) (buf : bytes) (i j : nat) : option bytes :=
  match fuel with
  | O => None
  | S fuel' =>
      c ← buf !! i;
      if c =? 0 then Some (<[j := 0]> buf) else shift_loop fuel' (<[j := c]> buf) (S i) (S j)
  end.

(** [while (i >= 0 && p(buf[i])) buf[i--] = '\0'], with [n = i + 1]. *)
Fixpoint erase_right_loop (p : Z -> bool) (n : nat) (buf : bytes) : option bytes :=
  match n with
  | O => Some buf
  | S i => c ← buf !! i;
           if p c then erase_right_loop p i (<[i := 0]> buf) else Some buf
  end.

(** [while (p(buf[i])) buf[i++] = '\0']. *)
Fixpoint erase_left_loop (p : Z -> bool) (fuel : nat) (buf : bytes) (i : nat)
    : option (bytes * nat) :=
  match fuel with
  | O => None
  | S fuel' => c ← buf !! i;
               if p c then erase_left_loop p fuel' (<[i := 0]> buf) (S i) else Some (buf, i)
  end.

Definition strlen (buf : bytes) : nat := length (c_str buf).

Definition LeftTrim (buf : bytes) : option bytes :=
  c ← buf !! 0%nat;
  if negb (is_blank c) then Some buf
  else i ← skip_loop is_blank (S (length buf)) buf 0;
       shift_loop (S (length buf)) buf i 0.

Definition RightTrim (buf : bytes) : option bytes :=
  c ← buf !! 0%nat;
  if c =? 0 then Some buf else erase_right_loop is_blank (strlen buf) buf.

Definition TrimString (buf : bytes) : option bytes := RightTrim buf ≫= LeftTrim.

Definition RemoveSpaceCharacters (buf : bytes) (bufSize : Z) : option (Z * bytes) :=
  if (Nat.eqb (strlen buf) 0) || (bufSize =? 0) then Some (DHCP_FALSE, buf)
  else
    buf ← erase_right_loop isspace (strlen buf) buf;
    '(buf, i) ← erase_left_loop isspace (S (length buf)) buf 0;
    buf ← shift_loop (S (length buf)) buf i 0;
    Some (DHCP_TRUE, buf).

(** * Paths *)

Definition slash : Z := 47.

(** [strrchr] with the text cut there, as [GetFilePath] does. *)
Fixpoint cut_last (c : Z) (s : bytes) : option bytes :=
  match s with
  | [] => None
  | x :: r => match cut_last c r with
              | Some t => Some (x :: t)
              | None => if x =? c then Some [] else None
              end
  end.

(** The static buffer holds the directory; a name that fills the array leaves
    it unterminated, and searching it is undefined. *)
Definition GetFilePath (fileName : option bytes) : option (option bytes) :=
  match fileName with
  | None => Some None
  | Some f =>
      if Nat.eqb (length f) 0 then Some None
      else if DHCP_MAX_PATH_LENGTH <? Z.of_nat (length f) then Some None
      else if DHCP_MAX_PATH_LENGTH =? Z.of_nat (length f) then None
      else Some (Some (match cut_last slash f with Some d => d | None => f end))
  end.

(** [CreatePath] on a file system with its two calls: [access(path, 0) == 0]
    and [mkdir]. *)
Section Create_path.
Context {FS : Type} (access_ok : FS -> bytes -> bool) (mkdir : FS -> bytes -> FS).

Definition ensure_dir (fs : FS) (path : bytes) : FS :=
  if access_ok fs path then fs else mkdir fs path.

(** [seen] is [filePath[0..i)], cut at the slash by the NUL written there. *)
Fixpoint CreatePath_loop (fs : FS) (seen rest : bytes) : FS :=
  match rest with
  | [] => fs
  | c :: r =>
      CreatePath_loop (if c =? slash then ensure_dir fs seen else fs) (seen ++ [c]) r
  end.

Definition CreatePath (fs : FS) (fileName : option bytes) : Z * FS :=
  match fileName with
  | None => (RET_FAILED, fs)
  | Some f =>
      if Nat.eqb (length f) 0 then (RET_FAILED, fs)
      else if negb (Z.of_nat (length f) <? DHCP_MAX_PATH_LENGTH) then (RET_FAILED, fs)
      else (RET_SUCCESS, ensure_dir (CreatePath_loop fs [] f) f)
  end.
End Create_path.

(** The text before and after the last slash decide; [realpath] is a
    parameter. *)
Definition IsValidPath (realpath : bytes -> option bytes) (filePath : bytes) : bool :=
  match filePath with
  | [] => false
  | _ =>
      match cut_last slash filePath with
      | None => false
      | Some path =>
          if Nat.eqb (length path) (length filePath - 1) then false
          else match realpath path with Some _ => true | None => false end
      end
  end.

(** * Numbers *)

Definition isdigit (c : Z) : bool := (48 <=? c) && (c <=? 57).

(** [std::regex_search] for ["\\d+"] and ["-\\d+"]. *)
Definition has_digit (data : bytes) : bool := existsb isdigit data.
Fixpoint has_negative (data : bytes) : bool :=
  match data with
  | [] => false
  | c :: r => ((c =? 45) && match r with d :: _ => isdigit d | [] => false end) || has_negative r
  end.

Fixpoint digits_value (acc : Z) (s : bytes) : Z :=
  match s with
  | c :: r => if isdigit c then digits_value (acc * 10 + (c - 48)) r else acc
  | [] => acc
  end.

Fixpoint skip_space (s : bytes) : bytes :=
  match s with c :: r => if isspace c then skip_space r else s | [] => [] end.

(** The subject sequence of [strtol] and its relatives in base 10: a sign and
    a magnitude. *)
Definition strto (s : bytes) : bool * Z :=
  match skip_space s with
  | 45 :: r => (true, digits_value 0 r)
  | 43 :: r => (false, digits_value 0 r)
  | r => (false, digits_value 0 r)
  end.

(** 64-bit [long] and [unsigned long]; [None] is [ERANGE]. *)
Definition strtol (s : bytes) : option Z :=
  let '(neg, m) := strto s in
  let v := if (neg : bool) then - m else m in
  if (- 2 ^ 63 <=? v) && (v <? 2 ^ 63) then Some v else None.
Definition strtoull (s : bytes) : option Z :=
  let '(neg, m) := strto s in
  if m <? 2 ^ 64 then Some (if (neg : bool) then u64 (- m) else m) else None.

Definition CheckDataLegal (data : bytes) : Z :=
  if negb (has_digit data) then 0
  else match strtol data with None => 0 | Some num => i32 num end.

Definition CheckDataToUint (data : bytes) : Z :=
  if negb (has_digit data) || has_negative data then 0
  else match strtoull data with None => 0 | Some num => u32 num end.

Definition CheckDataTolonglong (data : bytes) : Z :=
  if negb (has_digit data) then 0
  else match strtol data with None => 0 | Some num => num end.

Definition CheckDataToUint64 (data : bytes) : Z :=
  if negb (has_digit data) then 0
  else match strtoull data with None => 0 | Some num => num end.

(** ["%llu"] and ["%d"]. *)
Fixpoint dec_loop (fuel : nat) (n : Z) (acc : bytes) : bytes :=
  match fuel with
  | O => acc
  | S fuel' =>
      let acc := 48 + n mod 10 :: acc in
      if n <? 10 then acc else dec_loop fuel' (n / 10) acc
  end.
Definition dec_u64 (n : Z) : bytes := dec_loop 20 n [].
Definition dec_int (z : Z) : bytes := if z <? 0 then 45 :: dec_u64 (- z) else dec_u64 z.


(** * Addresses *)

(** [bHost]: the address is in host order. *)
Definition Ip4IntConvertToStr `{InetText} (uIp : Z) (bHost : bool) : bytes :=
  match inet_ntop (if bHost then htonl uIp else uIp) with Some s => s | None => [] end.

(** * The string in a buffer *)

(** [buf] holds the string [s]. *)
Definition holds (buf s : bytes) : Prop :=
  Forall (fun c => c <> 0) s /\ exists rest, buf = s ++ 0 :: rest.

Lemma holds_c_str buf s : holds buf s -> c_str buf = s.
Proof.
  intros [Hs [rest ->]]. induction Hs as [|c s Hc _ IH]; [done|]. cbn.
  by rewrite (proj2 (Z.eqb_neq c 0) Hc), IH.
Qed.

Lemma holds_lt buf s : holds buf s -> (length s < length buf)%nat.
Proof. intros [_ [rest ->]]. rewrite length_app. cbn. lia. Qed.

(** The functions on strings the loops compute. *)
Fixpoint drop_while (p : Z -> bool) (s : bytes) : bytes :=
  match s with c :: r => if p c then drop_while p r else s | [] => [] end.
Definition drop_right (p : Z -> bool) (s : bytes) : bytes := rev (drop_while p (rev s)).
Definition strip (p : Z -> bool) (s : bytes) : bytes := drop_while p (drop_right p s).

Lemma drop_right_snoc p s c :
  drop_right p (s ++ [c]) = if p c then drop_right p s else s ++ [c].
Proof.
  unfold drop_right. rewrite rev_app_distr. cbn. destruct (p c); [done|].
  cbn [rev]. by rewrite rev_involutive.
Qed.

Lemma Forall_drop_while (P : Z -> Prop) p s : Forall P s -> Forall P (drop_while p s).
Proof. induction 1; cbn; [done|]. destruct (p x); [done|by constructor]. Qed.

Lemma Forall_drop_right (P : Z -> Prop) p s : Forall P s -> Forall P (drop_right p s).
Proof.
  intros H. unfold drop_right. by apply Forall_rev, Forall_drop_while, Forall_rev.
Qed.

Lemma length_drop_while p s : (length (drop_while p s) <= length s)%nat.
Proof. induction s as [|c s IH]; cbn; [lia|]. destruct (p c); cbn; lia. Qed.

Lemma erase_right_loop_spec p s rest :
  exists rest', erase_right_loop p (length s) (s ++ 0 :: rest) = Some (drop_right p s ++ 0 :: rest') /\
    length (drop_right p s ++ 0 :: rest') = length (s ++ 0 :: rest).
Proof.
  revert rest. induction s as [|c s IH] using rev_ind; intros rest; [by exists rest|].
  rewrite drop_right_snoc, length_app, Nat.add_1_r. cbn [erase_right_loop].
  rewrite <- app_assoc. cbn [app]. rewrite list_lookup_middle by done. cbn [mbind option_bind].
  destruct (p c).
  - rewrite insert_app_r_alt, Nat.sub_diag by lia. cbn [insert list_insert].
    destruct (IH (0 :: rest)) as (rest' & E & L). exists rest'. split; [done|].
    rewrite L, !length_app. cbn. lia.
  - exists rest. rewrite <- app_assoc. split; [done|]. rewrite !length_app. cbn. lia.
Qed.

Lemma skip_loop_spec p s rest fuel : p 0 = false -> (length s < fuel)%nat ->
  forall pre, skip_loop p fuel (pre ++ s ++ 0 :: rest) (length pre) =
  Some (length pre + (length s - length (drop_while p s)))%nat.
Proof.
  intros H0. revert fuel. induction s as [|c s IH]; intros fuel Hf pre;
    (destruct fuel as [|fuel]; [cbn in Hf; lia|]).
  - cbn. rewrite list_lookup_middle by done. cbn. rewrite H0. f_equal. lia.
  - cbn [skip_loop app]. rewrite list_lookup_middle by done. cbn [mbind option_bind drop_while].
    destruct (p c); [|f_equal; cbn; lia].
    pose proof (length_drop_while p s). cbn in Hf.
    specialize (IH fuel ltac:(lia) (pre ++ [c])). rewrite <- app_assoc, length_app in IH.
    cbn [app length] in IH. rewrite Nat.add_1_r in IH. rewrite IH. f_equal. cbn. lia.
Qed.

Lemma shift_loop_spec s rest fuel : Forall (fun c => c <> 0) s -> (length s < fuel)%nat ->
  forall d junk, exists rest',
    shift_loop fuel (d ++ junk ++ s ++ 0 :: rest) (length d + length junk) (length d) =
      Some (d ++ s ++ 0 :: rest') /\
    length (d ++ s ++ 0 :: rest') = length (d ++ junk ++ s ++ 0 :: rest).
Proof.
  intros Hs. revert fuel. induction Hs as [|c s Hc _ IH]; intros fuel Hf d junk;
    (destruct fuel as [|fuel]; [cbn in Hf; lia|]); cbn [shift_loop];
    rewrite (app_assoc d junk), <- length_app; cbn [app];
    rewrite list_lookup_middle by done; cbn [mbind option_bind].
  - cbn [Z.eqb]. rewrite <- app_assoc, insert_app_r_alt, Nat.sub_diag by lia.
    destruct junk as [|x junk]; cbn [app insert list_insert].
    + by exists rest.
    + eexists. split; [done|]. rewrite !length_app. cbn. rewrite !length_app. cbn. lia.
  - rewrite (proj2 (Z.eqb_neq c 0) Hc), <- app_assoc, insert_app_r_alt, Nat.sub_diag by lia.
    cbn in Hf. rewrite length_app.
    destruct junk as [|x junk]; cbn [app insert list_insert].
    + destruct (IH fuel ltac:(lia) (d ++ [c]) []) as (rest' & E & L). exists rest'.
      rewrite !length_app in E. repeat rewrite <- app_assoc in E. repeat rewrite <- app_assoc in L.
      cbn [app length] in E, L |- *.
      replace (S (length d + 0)) with (length d + 1 + 0)%nat by lia.
      replace (S (length d)) with (length d + 1)%nat by lia. split; [exact E|exact L].
    + destruct (IH fuel ltac:(lia) (d ++ [c]) (junk ++ [c])) as (rest' & E & L). exists rest'.
      rewrite !length_app in E. repeat rewrite <- app_assoc in E. cbn [app length] in E |- *.
      replace (S (length d + S (length junk))) with (length d + 1 + (length junk + 1))%nat by lia.
      replace (S (length d)) with (length d + 1)%nat by lia. split; [done|].
      revert L. repeat first [rewrite length_app | progress cbn [length app]]. lia.
Qed.

Lemma erase_left_loop_spec p s rest fuel : p 0 = false -> (length s < fuel)%nat ->
  forall pre, exists junk,
    erase_left_loop p fuel (pre ++ s ++ 0 :: rest) (length pre) =
      Some (pre ++ junk ++ drop_while p s ++ 0 :: rest, (length pre + length junk)%nat) /\
    length (junk ++ drop_while p s) = length s.
Proof.
  intros H0. revert fuel. induction s as [|c s IH]; intros fuel Hf pre;
    (destruct fuel as [|fuel]; [cbn in Hf; lia|]).
  - exists []. cbn. rewrite list_lookup_middle by done. cbn. rewrite H0.
    split; [by rewrite Nat.add_0_r|done].
  - cbn [erase_left_loop app]. rewrite list_lookup_middle by done. cbn [mbind option_bind drop_while].
    destruct (p c).
    + rewrite insert_app_r_alt, Nat.sub_diag by lia. cbn [insert list_insert]. cbn in Hf.
      destruct (IH fuel ltac:(lia) (pre ++ [0])) as (junk & E & L). exists (0 :: junk).
      rewrite <- !app_assoc, length_app in E. cbn [app length] in E |- *.
      rewrite Nat.add_1_r in E. rewrite E. split; [do 2 f_equal; lia|lia].
    + exists []. cbn. split; [by rewrite Nat.add_0_r|done].
Qed.

Lemma drop_while_split p s : exists junk, s = junk ++ drop_while p s.
Proof.
  induction s as [|c s [junk E]]; cbn; [by exists []|]. destruct (p c); [|by exists []].
  exists (c :: junk). cbn. by rewrite <- E.
Qed.

Lemma LeftTrim_spec buf s : holds buf s ->
  exists buf', LeftTrim buf = Some buf' /\ holds buf' (drop_while is_blank s) /\
    length buf' = length buf.
Proof.
  intros [Hs [rest ->]]. unfold LeftTrim. destruct s as [|c s].
  { exists (0 :: rest). cbn. repeat split; [done|by exists rest]. }
  cbn [app lookup list_lookup mbind option_bind].
  destruct (is_blank c) eqn:Ec; cbn [negb].
  2: { exists (c :: s ++ 0 :: rest). cbn. rewrite Ec. repeat split; [done|by exists rest]. }
  change (c :: s ++ 0 :: rest) with ((c :: s) ++ 0 :: rest). set (l := c :: s) in *.
  pose proof (skip_loop_spec is_blank l rest (S (length (l ++ 0 :: rest))) eq_refl
    ltac:(rewrite length_app; lia) []) as E. cbn [app length] in E.
  destruct (drop_while_split is_blank l) as [junk Hj].
  replace (0 + (length l - length (drop_while is_blank l)))%nat with (length junk) in E
    by (rewrite Hj at 1; rewrite length_app; lia).
  rewrite E. cbn [mbind option_bind]. set (t := drop_while is_blank l) in *.
  destruct (shift_loop_spec t rest (S (length (l ++ 0 :: rest))) (Forall_drop_while _ _ _ Hs)
    ltac:(rewrite length_app, Hj at 1; rewrite length_app; lia) [] junk) as (rest' & E' & L).
  cbn [app length] in E', L. rewrite app_assoc, <- Hj in E', L. exists (t ++ 0 :: rest').
  split; [exact E'|]. split; [|done]. split; [by apply Forall_drop_while|by exists rest'].
Qed.

Lemma RightTrim_spec buf s : holds buf s ->
  exists buf', RightTrim buf = Some buf' /\ holds buf' (drop_right is_blank s) /\
    length buf' = length buf.
Proof.
  intros Hh. pose proof Hh as [Hs [rest ->]]. unfold RightTrim, strlen.
  rewrite (holds_c_str _ _ Hh).
  destruct (erase_right_loop_spec is_blank s rest) as (rest' & E & L).
  destruct s as [|c s].
  { exists (0 :: rest). cbn. repeat split; [done|by exists rest]. }
  cbn [app lookup list_lookup mbind option_bind].
  apply Forall_cons_1 in Hs as [Hc Hs]. rewrite (proj2 (Z.eqb_neq c 0) Hc).
  eexists. split; [exact E|]. split; [|exact L].
  split; [apply Forall_drop_right; by constructor|by exists rest'].
Qed.

Lemma TrimString_spec_lemma buf s : holds buf s ->
  exists buf', TrimString buf = Some buf' /\ holds buf' (strip is_blank s) /\
    length buf' = length buf.
Proof.
  intros H. destruct (RightTrim_spec _ _ H) as (b1 & E1 & H1 & L1).
  destruct (LeftTrim_spec _ _ H1) as (b2 & E2 & H2 & L2).
  exists b2. unfold TrimString. rewrite E1. cbn. split; [done|]. split; [done|congruence].
Qed.

Lemma RemoveSpaceCharacters_spec_lemma buf s n : holds buf s -> s <> [] -> n <> 0 ->
  exists buf', RemoveSpaceCharacters buf n = Some (DHCP_TRUE, buf') /\
    holds buf' (strip isspace s) /\ length buf' = length buf.
Proof.
  intros Hh Hne Hn. pose proof Hh as [Hs [rest ->]]. unfold RemoveSpaceCharacters, strlen.
  rewrite (holds_c_str _ _ Hh). rewrite (proj2 (Z.eqb_neq n 0) Hn).
  rewrite (proj2 (Nat.eqb_neq (length s) 0)) by (by destruct s). cbn [orb].
  destruct (erase_right_loop_spec isspace s rest) as (r1 & E1 & L1). rewrite E1. cbn [mbind option_bind].
  pose proof (Forall_drop_right _ isspace _ Hs) as Ht. set (t := drop_right isspace s) in *.
  destruct (erase_left_loop_spec isspace t r1 (S (length (t ++ 0 :: r1))) eq_refl
    ltac:(rewrite length_app; lia) []) as (junk & E2 & L2). cbn [app length] in E2.
  rewrite E2. cbn [mbind option_bind].
  set (v := drop_while isspace t) in *.
  assert (L3 : length (junk ++ v ++ 0 :: r1) = length (t ++ 0 :: r1))
    by (rewrite app_assoc, !length_app, <- L2, length_app; lia).
  destruct (shift_loop_spec v r1 (S (length (junk ++ v ++ 0 :: r1))) (Forall_drop_while _ _ _ Ht)
    ltac:(rewrite !length_app; lia) [] junk) as (r3 & E3 & L4). cbn [app length] in E3, L4.
  rewrite E3. exists (v ++ 0 :: r3). split; [done|].
  split; [split; [by apply Forall_drop_while|by exists r3]|]. congruence.
Qed.

(** * Numbers *)

Lemma digits_value_app acc s t : Forall (fun c => isdigit c = true) s ->
  digits_value acc (s ++ t) = digits_value (digits_value acc s) t.
Proof.
  intros H. revert acc. induction H as [|c s Hc _ IH]; intros acc; [done|].
  cbn. rewrite Hc. apply IH.
Qed.

Lemma isdigit_range c : isdigit c = true <-> 48 <= c <= 57.
Proof. unfold isdigit. rewrite andb_true_iff, !Z.leb_le. done. Qed.

Lemma dec_loop_spec fuel n acc : 0 <= n < 10 ^ Z.of_nat fuel -> (0 < fuel)%nat ->
  exists ds, dec_loop fuel n acc = ds ++ acc /\ ds <> [] /\
    Forall (fun c => isdigit c = true) ds /\ (length ds <= fuel)%nat /\
    forall a, digits_value a ds = a * 10 ^ Z.of_nat (length ds) + n.
Proof.
  revert n acc. induction fuel as [|fuel IH]; intros n acc Hn Hf; [lia|]. cbn [dec_loop].
  assert (Hd : isdigit (48 + n mod 10) = true) by (apply isdigit_range; pose proof (Z.mod_pos_bound n 10 ltac:(lia)); lia).
  destruct (n <? 10) eqn:E; btauto_hyps.
  - exists [48 + n mod 10]. split; [done|]. split; [done|]. split; [by constructor|].
    split; [cbn; lia|]. intros a. cbn [digits_value]. rewrite Hd. rewrite Z.mod_small by lia.
    change (Z.of_nat (length [48 + n])) with 1. lia.
  - rewrite Nat2Z.inj_succ, Z.pow_succ_r in Hn by lia.
    destruct (IH (n / 10) (48 + n mod 10 :: acc)) as (ds & E1 & H1 & H2 & H3 & H4).
    { split; [apply Z.div_pos; lia|]. apply Z.div_lt_upper_bound; lia. }
    { destruct fuel; [cbn in Hn; lia|lia]. }
    exists (ds ++ [48 + n mod 10]). rewrite <- app_assoc. split; [done|].
    split; [by destruct ds|]. split; [apply Forall_app; split; [done|by constructor]|].
    rewrite length_app. cbn [length]. split; [lia|]. intros a.
    rewrite digits_value_app, H4 by done. cbn [digits_value]. rewrite Hd.
    rewrite Nat2Z.inj_add. change (Z.of_nat 1) with 1. rewrite Z.pow_add_r by lia.
    pose proof (Z.div_mod n 10 ltac:(lia)). lia.
Qed.

Lemma dec_u64_spec n : is_u64 n ->
  dec_u64 n <> [] /\ Forall (fun c => isdigit c = true) (dec_u64 n) /\
  (length (dec_u64 n) <= 20)%nat /\ digits_value 0 (dec_u64 n) = n.
Proof.
  unfold is_u64. intros Hn. destruct (dec_loop_spec 20 n []) as (ds & E & H1 & H2 & H3 & H4).
  { change (10 ^ Z.of_nat 20) with 100000000000000000000. lia. }
  { lia. }
  unfold dec_u64. rewrite E, app_nil_r. rewrite H4. repeat split; [done..|lia].
Qed.

Lemma has_digit_all s : s <> [] -> Forall (fun c => isdigit c = true) s -> has_digit s = true.
Proof. intros Hne H. destruct H as [|c s Hc _]; [done|]. unfold has_digit. cbn. by rewrite Hc. Qed.

Lemma has_negative_all s : Forall (fun c => isdigit c = true) s -> has_negative s = false.
Proof.
  induction 1 as [|c s Hc _ IH]; [done|]. cbn. rewrite IH, orb_false_r.
  apply isdigit_range in Hc. by rewrite (proj2 (Z.eqb_neq c 45)) by lia.
Qed.

(** A text of digits is read as its value, with no sign and no spaces. *)
Lemma strto_digits s : s <> [] -> Forall (fun c => isdigit c = true) s ->
  strto s = (false, digits_value 0 s).
Proof.
  intros Hne H. destruct H as [|c s Hc _]; [done|]. unfold strto. cbn [skip_space].
  apply isdigit_range in Hc.
  assert (E : isspace c = false).
  { unfold isspace. rewrite (proj2 (Z.eqb_neq c 32)), (proj2 (Z.leb_gt c 13)) by lia.
    by rewrite andb_false_r. }
  rewrite E. destruct c as [|p|p]; try lia.
  do 6 (destruct p as [p|p|]; try lia; try done).
Qed.

Lemma dec_int_spec z : - 2 ^ 31 <= z < 2 ^ 31 -> CheckDataLegal (dec_int z) = z /\
  Forall (fun c => isdigit c = true \/ c = 45) (dec_int z) /\ dec_int z <> [] /\
  (length (dec_int z) <= 21)%nat.
Proof.
  intros Hz. unfold dec_int, CheckDataLegal, strtol.
  assert (Hi : forall w, - 2 ^ 31 <= w < 2 ^ 31 -> i32 w = w)
    by (intros w Hw; unfold i32; rewrite Z.mod_small by lia; lia).
  destruct (z <? 0) eqn:E; btauto_hyps.
  - destruct (dec_u64_spec (- z)) as (H1 & H2 & H3 & H4); [unfold is_u64; lia|].
    unfold has_digit. cbn [existsb]. fold (has_digit (dec_u64 (- z))).
    rewrite has_digit_all by done. cbn [orb negb].
    change (strto (45 :: dec_u64 (- z))) with (true, digits_value 0 (dec_u64 (- z))).
    rewrite H4, Z.opp_involutive.
    rewrite (proj2 (Z.leb_le _ _)), (proj2 (Z.ltb_lt _ _)) by lia. cbn [andb].
    split; [by apply Hi|]. split; [|split; [done|cbn [length]; lia]].
    constructor; [by right|]. eapply Forall_impl; [exact H2|]. by left.
  - destruct (dec_u64_spec z) as (H1 & H2 & H3 & H4); [unfold is_u64; lia|].
    rewrite has_digit_all, strto_digits, H4 by done. cbn [negb].
    rewrite (proj2 (Z.leb_le _ _)), (proj2 (Z.ltb_lt _ _)) by lia. cbn [andb].
    split; [by apply Hi|]. split; [|split; [done|lia]].
    eapply Forall_impl; [exact H2|]. by left.
Qed.

Lemma strtoull_dec n : is_u64 n -> strtoull (dec_u64 n) = Some n.
Proof.
  intros Hn. destruct (dec_u64_spec n Hn) as (H1 & H2 & H3 & H4).
  unfold strtoull. rewrite strto_digits, H4 by done.
  unfold is_u64 in Hn. by rewrite (proj2 (Z.ltb_lt _ _)) by lia.
Qed.

Lemma CheckDataToUint64_dec n : is_u64 n -> CheckDataToUint64 (dec_u64 n) = n.
Proof.
  intros Hn. destruct (dec_u64_spec n Hn) as (H1 & H2 & _).
  unfold CheckDataToUint64. by rewrite has_digit_all, strtoull_dec by done.
Qed.

(** * Properties *)

(** Trimming a buffer in place never leaves the buffer, keeps its size, and
    leaves in it the string without the blanks at its two ends: the blanks and
    tabs for [TrimString], every space character (line ends included) for
    [RemoveSpaceCharacters]. *)
Theorem trim_in_place buf s : holds buf s ->
  (exists buf', TrimString buf = Some buf' /\ holds buf' (strip is_blank s) /\
     length buf' = length buf) /\
  (s <> [] -> exists buf', RemoveSpaceCharacters buf (Z.of_nat (length buf)) = Some (DHCP_TRUE, buf') /\
     holds buf' (strip isspace s) /\ length buf' = length buf).
Proof.
  intros H. split; [by apply TrimString_spec_lemma|]. intros Hne.
  apply RemoveSpaceCharacters_spec_lemma; [done..|]. pose proof (holds_lt _ _ H). lia.
Qed.

Lemma trim_in_place_witness :
  let buf := str "  pool = 1	
" ++ [0; 77] in
  (exists buf', TrimString buf = Some buf' /\ holds buf' (strip is_blank (str "  pool = 1	
")) /\ length buf' = length buf) /\
  (str "  pool = 1	
" <> [] -> exists buf', RemoveSpaceCharacters buf (Z.of_nat (length buf)) = Some (DHCP_TRUE, buf') /\
     holds buf' (strip isspace (str "  pool = 1	
")) /\ length buf' = length buf).
Proof.
  apply (trim_in_place (str "  pool = 1	
" ++ [0; 77])). split; [repeat constructor; discriminate|by exists [77]].
Defined.

(** A decimal number that fits 64 bits but not 32 is accepted as an unsigned
    configuration value and silently reduced modulo 2^32; every number below
    2^32 is read as itself, and a negative one is refused. *)
Theorem CheckDataToUint_mod n : is_u64 n ->
  CheckDataToUint (dec_u64 n) = u32 n /\ (0 < n -> CheckDataToUint (45 :: dec_u64 n) = 0).
Proof.
  intros Hn. destruct (dec_u64_spec n Hn) as (H1 & H2 & _). unfold CheckDataToUint.
  rewrite has_digit_all, has_negative_all, strtoull_dec by done. split; [done|]. intros _.
  cbn [has_negative]. destruct H2 as [|c r Hc _]; [done|]. rewrite Hc. cbn [andb Z.eqb orb].
  by rewrite orb_true_r.
Qed.

Lemma CheckDataToUint_mod_witness :
  CheckDataToUint (dec_u64 4294967297) = u32 4294967297 /\
  (0 < 4294967297 -> CheckDataToUint (45 :: dec_u64 4294967297) = 0).
Proof. apply (CheckDataToUint_mod 4294967297). unfold is_u64. lia. Defined.

Section Create_path_laws.
Context {FS : Type} (access_ok : FS -> bytes -> bool) (mkdir : FS -> bytes -> FS).
(** Making a directory keeps what exists. *)
Hypothesis mkdir_keeps : forall fs p q, access_ok fs q = true -> access_ok (mkdir fs p) q = true.
(** Making a directory whose parent exists succeeds: [parent p] is where the
    last slash of [p] is, the empty text and the root always being there. *)
Hypothesis mkdir_makes : forall fs p, p <> [] ->
  (forall d, cut_last slash p = Some d -> d <> [] -> access_ok fs d = true) ->
  access_ok (mkdir fs p) p = true.

Lemma ensure_dir_keeps fs p q : access_ok fs q = true -> access_ok (ensure_dir access_ok mkdir fs p) q = true.
Proof. unfold ensure_dir. destruct (access_ok fs p); auto. Qed.

Lemma ensure_dir_makes fs p : p <> [] ->
  (forall d, cut_last slash p = Some d -> d <> [] -> access_ok fs d = true) ->
  access_ok (ensure_dir access_ok mkdir fs p) p = true.
Proof. unfold ensure_dir. intros. destruct (access_ok fs p) eqn:E; auto. Qed.

Lemma CreatePath_loop_keeps rest fs seen q :
  access_ok fs q = true -> access_ok (CreatePath_loop access_ok mkdir fs seen rest) q = true.
Proof.
  revert fs seen. induction rest as [|c rest IH]; intros fs seen H; [done|]. cbn.
  apply IH. destruct (c =? slash); [by apply ensure_dir_keeps|done].
Qed.

Lemma cut_last_app s d : cut_last slash s = Some d -> exists t, s = d ++ slash :: t.
Proof.
  revert d. induction s as [|c s IH]; cbn; [done|]. intros d.
  destruct (cut_last slash s) as [t|].
  - intros [= <-]. destruct (IH t eq_refl) as [u ->]. by exists u.
  - destruct (c =? slash) eqn:E; [|done]. intros [= <-]. apply Z.eqb_eq in E as ->. by exists s.
Qed.

(** Every prefix of what was scanned that ends before a slash is there. *)
Lemma CreatePath_loop_makes rest fs seen :
  (forall d t, seen = d ++ slash :: t -> d <> [] -> access_ok fs d = true) ->
  forall d t, seen ++ rest = d ++ slash :: t -> d <> [] ->
  access_ok (CreatePath_loop access_ok mkdir fs seen rest) d = true.
Proof.
  revert fs seen. induction rest as [|c rest IH]; intros fs seen Hs d t E Hd.
  - rewrite app_nil_r in E. cbn. eauto.
  - cbn. apply (IH _ _) with t; [|by rewrite <- app_assoc|done].
    clear d t E Hd. intros d t E Hd.
    destruct t as [|y t _] using rev_ind.
    + apply app_inj_tail in E as [-> ->]. rewrite Z.eqb_refl.
      apply ensure_dir_makes; [done|]. intros e He Hne. apply cut_last_app in He as [u ->]. eauto.
    + rewrite app_comm_cons, app_assoc in E. apply app_inj_tail in E as [-> _].
      assert (access_ok fs d = true) by eauto.
      destruct (c =? slash); [by apply ensure_dir_keeps|done].
Qed.

Lemma CreatePath_spec fs f : f <> [] -> Z.of_nat (length f) < DHCP_MAX_PATH_LENGTH ->
  fst (CreatePath access_ok mkdir fs (Some f)) = RET_SUCCESS /\
  access_ok (snd (CreatePath access_ok mkdir fs (Some f))) f = true /\
  forall d t, f = d ++ slash :: t -> d <> [] ->
    access_ok (snd (CreatePath access_ok mkdir fs (Some f))) d = true.
Proof.
  intros Hne Hl. unfold CreatePath. rewrite (proj2 (Nat.eqb_neq _ _)) by (by destruct f).
  rewrite (proj2 (Z.ltb_lt _ _) Hl). cbn [negb fst snd].
  assert (Hd : forall d t, f = d ++ slash :: t -> d <> [] ->
    access_ok (CreatePath_loop access_ok mkdir fs [] f) d = true).
  { intros d t E. apply (CreatePath_loop_makes f fs []) with t; [by destruct d0|done]. }
  split; [done|]. split.
  - apply ensure_dir_makes; [done|]. intros d E. apply cut_last_app in E as [t E]. eauto.
  - intros d t E H. apply ensure_dir_keeps. eauto.
Qed.
End Create_path_laws.

(** On a file system where making a directory under an existing parent
    succeeds and removes nothing, [CreatePath] of a name shorter than
    [DHCP_MAX_PATH_LENGTH] leaves the path and every directory above it in
    place. *)
Theorem CreatePath_ancestors {FS : Type} (access_ok : FS -> bytes -> bool)
    (mkdir : FS -> bytes -> FS) fs f :
  (forall fs p q, access_ok fs q = true -> access_ok (mkdir fs p) q = true) ->
  (forall fs p, p <> [] ->
     (forall d, cut_last slash p = Some d -> d <> [] -> access_ok fs d = true) ->
     access_ok (mkdir fs p) p = true) ->
  f <> [] -> Z.of_nat (length f) < DHCP_MAX_PATH_LENGTH ->
  let (r, fs') := CreatePath access_ok mkdir fs (Some f) in
  r = RET_SUCCESS /\ access_ok fs' f = true /\
  forall d t, f = d ++ slash :: t -> d <> [] -> access_ok fs' d = true.
Proof.
  intros Hk Hm Hne Hl. destruct (CreatePath_spec access_ok mkdir Hk Hm fs f Hne Hl) as (H1 & H2 & H3).
  by destruct (CreatePath access_ok mkdir fs (Some f)).
Qed.

(** A file system is the list of its directories. *)
Definition dirs_access (fs : list bytes) (p : bytes) : bool := bool_decide (p ∈ fs).
Definition dirs_mkdir (fs : list bytes) (p : bytes) : list bytes :=
  if match cut_last slash p with Some [] | None => true | Some d => dirs_access fs d end
  then p :: fs else fs.

Lemma CreatePath_ancestors_witness :
  let (r, fs') := CreatePath dirs_access dirs_mkdir [str "/data"] (Some (str "/data/a/b")) in
  r = RET_SUCCESS /\ dirs_access fs' (str "/data/a/b") = true /\
  forall d t, str "/data/a/b" = d ++ slash :: t -> d <> [] -> dirs_access fs' d = true.
Proof.
  apply (CreatePath_ancestors dirs_access dirs_mkdir).
  - unfold dirs_access, dirs_mkdir. intros fs p q Hq. apply bool_decide_eq_true in Hq.
    apply bool_decide_eq_true.
    match goal with |- context [if ?b then _ else _] => destruct b end; [by constructor|done].
  - unfold dirs_mkdir. intros fs p Hp Hd. unfold dirs_access at 1. apply bool_decide_eq_true.
    destruct (cut_last slash p) as [[|c d]|]; [constructor| |constructor].
    rewrite Hd; [constructor|done|done].
  - discriminate.
  - reflexivity.
Defined.
