(* ===== verification/DottedQuad.v ===== *)
(** A model of the address text of the platform's C library: the dotted-decimal
    form, which satisfies the documented laws [InetTextLaws].  The development's
    theorems take the two functions as parameters; their witnesses use this
    instance. *)
From S2P Require Import Prelude AddressUtils CommonUtil.

Definition dot : Z := 46.

Definition quad_text (a b c d : Z) : bytes :=
  dec_u64 a ++ dot :: dec_u64 b ++ dot :: dec_u64 c ++ dot :: dec_u64 d.

(** The address is in network order: the first octet is the low byte. *)
Definition quad_ntop (ip : Z) : option bytes :=
  Some (quad_text (ip mod 256) (ip / 2 ^ 8 mod 256) (ip / 2 ^ 16 mod 256) (ip / 2 ^ 24 mod 256)).

Fixpoint split_dots (cur : bytes) (s : bytes) : list bytes :=
  match s with
  | [] => [cur]
  | c :: r => if c =? dot then cur :: split_dots [] r else split_dots (cur ++ [c]) r
  end.

Definition octet (s : bytes) : option Z :=
  let v := digits_value 0 s in
  if bool_decide (s <> []) && forallb isdigit s && (v <=? 255) then Some v else None.

Definition quad_aton (s : bytes) : option Z :=
  match split_dots [] s with
  | [a; b; c; d] =>
      a ← octet a; b ← octet b; c ← octet c; d ← octet d;
      Some (a + b * 2 ^ 8 + c * 2 ^ 16 + d * 2 ^ 24)
  | _ => None
  end.

#[export] Instance DottedQuad : InetText := {| inet_aton := quad_aton; inet_ntop := quad_ntop |}.

Lemma split_dots_digits w : Forall (fun c => isdigit c = true) w -> forall cur rest,
  split_dots cur (w ++ rest) = split_dots (cur ++ w) rest.
Proof.
  induction 1 as [|c w Hc _ IH]; intros cur rest; [by rewrite app_nil_r|].
  cbn. apply isdigit_range in Hc. unfold dot. rewrite (proj2 (Z.eqb_neq c 46)) by lia.
  by rewrite IH, <- app_assoc.
Qed.

Lemma split_dots_dot cur rest : split_dots cur (dot :: rest) = cur :: split_dots [] rest.
Proof. done. Qed.

Lemma octet_dec v : 0 <= v < 256 ->
  octet (dec_u64 v) = Some v /\ Forall (fun c => isdigit c = true) (dec_u64 v).
Proof.
  intros Hv. destruct (dec_u64_spec v) as (H1 & H2 & _ & H4); [unfold is_u64; lia|].
  split; [|done]. unfold octet. rewrite H4, bool_decide_eq_true_2 by done.
  rewrite (proj2 (forallb_forall _ _)) by (by apply List.Forall_forall).
  by rewrite (proj2 (Z.leb_le _ _)) by lia.
Qed.

Lemma quad_aton_text a b c d : 0 <= a < 256 -> 0 <= b < 256 -> 0 <= c < 256 -> 0 <= d < 256 ->
  quad_aton (quad_text a b c d) = Some (a + b * 2 ^ 8 + c * 2 ^ 16 + d * 2 ^ 24).
Proof.
  intros Ha Hb Hc Hd. unfold quad_aton, quad_text.
  destruct (octet_dec a Ha) as [Ea Da]. destruct (octet_dec b Hb) as [Eb Db].
  destruct (octet_dec c Hc) as [Ec Dc]. destruct (octet_dec d Hd) as [Ed Dd].
  rewrite (split_dots_digits _ Da), split_dots_dot, (split_dots_digits _ Db), split_dots_dot,
    (split_dots_digits _ Dc), split_dots_dot.
  rewrite <- (app_nil_r (dec_u64 d)), (split_dots_digits _ Dd), !app_nil_l. cbn [split_dots].
  rewrite Ea, Eb, Ec, Ed. done.
Qed.

Lemma octet_range s v : octet s = Some v -> 0 <= v <= 255.
Proof.
  unfold octet. destruct (bool_decide _); cbn [andb]; [|done].
  destruct (forallb isdigit s) eqn:E; cbn [andb]; [|done].
  destruct (_ <=? 255) eqn:E2; [|done]. apply Z.leb_le in E2. intros [= <-]. split; [|done].
  cut (forall s, forallb isdigit s = true -> forall acc, 0 <= acc -> 0 <= digits_value acc s); [intros H; by apply H|].
  clear. induction s as [|c s IH]; [done|]. cbn. intros [Hc Hs]%andb_prop acc Ha. rewrite Hc.
  apply IH; [done|]. apply isdigit_range in Hc. lia.
Qed.

Lemma u32_octets ip : is_u32 ip ->
  ip mod 256 + ip / 2 ^ 8 mod 256 * 2 ^ 8 + ip / 2 ^ 16 mod 256 * 2 ^ 16 + ip / 2 ^ 24 mod 256 * 2 ^ 24 = ip.
Proof. unfold is_u32. intros H. Z.to_euclidean_division_equations. lia. Qed.

Lemma length_dec_octet v : 0 <= v < 256 -> (1 <= length (dec_u64 v) <= 3)%nat.
Proof.
  intros Hv.
  assert (H : forallb (fun n => let l := length (dec_u64 (Z.of_nat n)) in Nat.leb 1 l && Nat.leb l 3)
    (seq 0 256) = true) by (vm_compute; done).
  rewrite forallb_forall in H. specialize (H (Z.to_nat v)). rewrite Z2Nat.id in H by lia.
  apply andb_prop in H as [H1 H2]; [|apply in_seq; lia].
  apply Nat.leb_le in H1, H2. done.
Qed.

#[export] Instance DottedQuad_laws : InetTextLaws DottedQuad.
Proof.
  split.
  - intros s ip. cbn. unfold quad_aton.
    destruct (split_dots [] s) as [|a [|b [|c [|d [|]]]]]; try done.
    destruct (octet a) as [va|] eqn:Ea; [|done]. destruct (octet b) as [vb|] eqn:Eb; [|done].
    destruct (octet c) as [vc|] eqn:Ec; [|done]. destruct (octet d) as [vd|] eqn:Ed; [|done].
    apply octet_range in Ea, Eb, Ec, Ed. cbn. intros [= <-]. unfold is_u32. lia.
  - intros ip _. cbn. unfold quad_ntop. eauto.
  - intros ip s [= <-].
    assert (Hd : forall v, 0 <= v < 256 -> Forall (fun c => c = 46 \/ 48 <= c <= 57) (dec_u64 v) /\
      (1 <= length (dec_u64 v) <= 3)%nat).
    { intros v Hv. destruct (dec_u64_spec v) as (H1 & H2 & _); [unfold is_u64; lia|]. split.
      - eapply Forall_impl; [exact H2|]. intros c Hc. right. by apply isdigit_range.
      - by apply length_dec_octet. }
    assert (Hm : forall x, 0 <= x mod 256 < 256) by (intros; apply Z.mod_pos_bound; lia).
    destruct (Hd _ (Hm ip)) as [A1 A2]. destruct (Hd _ (Hm (ip / 2 ^ 8))) as [B1 B2].
    destruct (Hd _ (Hm (ip / 2 ^ 16))) as [C1 C2]. destruct (Hd _ (Hm (ip / 2 ^ 24))) as [D1 D2].
    unfold quad_text. split.
    + rewrite !Forall_app, !Forall_cons, !Forall_app, !Forall_cons, !Forall_app, !Forall_cons.
      unfold dot. repeat split; (assumption || by left).
    + repeat (rewrite length_app; cbn [length]). lia.
  - intros ip s Hip [= <-]. cbn [inet_aton DottedQuad].
    rewrite quad_aton_text by (apply Z.mod_pos_bound; lia).
    f_equal. by apply u32_octets.
Qed.
