(* ===== verification/Binding.v ===== *)
(** The binding record of a client and its line in the lease file
    (src/services/dhcp_server/src/dhcp_binding.cpp, include/dhcp_binding.h).

    [AddressBinding] is the structure; a [char] array is a byte list of its
    size.  The clock is read by the callers, so [IsExpire] and
    [ParseAddressBinding] take the current second. *)
From S2P Require Import Prelude AddressUtils OptionList CommonUtil DottedQuad.

Definition DHCP_LEASE_TIME : Z := 21600.
Definition DEVICE_NAME_STRING_LENGTH : Z := 64.

(** [enum BindingMode] and [enum BindingState]; the fields are plain [int]s. *)
Definition BIND_MODE_STATIC : Z := 0.
Definition BIND_MODE_DYNAMIC : Z := 1.
Definition BIND_MODE_RESERVED : Z := 2.
Definition BIND_NONE : Z := 0.
Definition BIND_PENDING : Z := 1.
Definition BIND_ASSOCIATED : Z := 2.
Definition BIND_EXPIRED : Z := 3.
Definition BIND_RELEASED : Z := 4.

Record AddressBinding := mkBinding {
  ipAddress : Z; chaddr : bytes; clientId : Z;
  bindingTime : Z; pendingTime : Z; expireIn : Z; leaseTime : Z; pendingInterval : Z;
  bindingStatus : Z; bindingMode : Z;
  deviceName : bytes; userClass : bytes; portalUrl : bytes;
  rapidCommit : bool; ipv6Only : Z
}.

#[export] Instance AddressBinding_eq_dec : EqDecision AddressBinding.
Proof. solve_decision. Defined.

(** [AddressBinding x = {0}]. *)
Definition zero_binding : AddressBinding :=
  mkBinding 0 (zeros 16) 0 0 0 0 0 0 0 0 (zeros 64) (zeros 64) (zeros 64) false 0.

Definition set_ipAddress v b := mkBinding v (chaddr b) (clientId b) (bindingTime b) (pendingTime b)
  (expireIn b) (leaseTime b) (pendingInterval b) (bindingStatus b) (bindingMode b)
  (deviceName b) (userClass b) (portalUrl b) (rapidCommit b) (ipv6Only b).
Definition set_chaddr v b := mkBinding (ipAddress b) v (clientId b) (bindingTime b) (pendingTime b)
  (expireIn b) (leaseTime b) (pendingInterval b) (bindingStatus b) (bindingMode b)
  (deviceName b) (userClass b) (portalUrl b) (rapidCommit b) (ipv6Only b).
Definition set_bindingTime v b := mkBinding (ipAddress b) (chaddr b) (clientId b) v (pendingTime b)
  (expireIn b) (leaseTime b) (pendingInterval b) (bindingStatus b) (bindingMode b)
  (deviceName b) (userClass b) (portalUrl b) (rapidCommit b) (ipv6Only b).
Definition set_pendingTime v b := mkBinding (ipAddress b) (chaddr b) (clientId b) (bindingTime b) v
  (expireIn b) (leaseTime b) (pendingInterval b) (bindingStatus b) (bindingMode b)
  (deviceName b) (userClass b) (portalUrl b) (rapidCommit b) (ipv6Only b).
Definition set_expireIn v b := mkBinding (ipAddress b) (chaddr b) (clientId b) (bindingTime b)
  (pendingTime b) v (leaseTime b) (pendingInterval b) (bindingStatus b) (bindingMode b)
  (deviceName b) (userClass b) (portalUrl b) (rapidCommit b) (ipv6Only b).
Definition set_leaseTime v b := mkBinding (ipAddress b) (chaddr b) (clientId b) (bindingTime b)
  (pendingTime b) (expireIn b) v (pendingInterval b) (bindingStatus b) (bindingMode b)
  (deviceName b) (userClass b) (portalUrl b) (rapidCommit b) (ipv6Only b).
Definition set_pendingInterval v b := mkBinding (ipAddress b) (chaddr b) (clientId b) (bindingTime b)
  (pendingTime b) (expireIn b) (leaseTime b) v (bindingStatus b) (bindingMode b)
  (deviceName b) (userClass b) (portalUrl b) (rapidCommit b) (ipv6Only b).
Definition set_bindingStatus v b := mkBinding (ipAddress b) (chaddr b) (clientId b) (bindingTime b)
  (pendingTime b) (expireIn b) (leaseTime b) (pendingInterval b) v (bindingMode b)
  (deviceName b) (userClass b) (portalUrl b) (rapidCommit b) (ipv6Only b).
Definition set_bindingMode v b := mkBinding (ipAddress b) (chaddr b) (clientId b) (bindingTime b)
  (pendingTime b) (expireIn b) (leaseTime b) (pendingInterval b) (bindingStatus b) v
  (deviceName b) (userClass b) (portalUrl b) (rapidCommit b) (ipv6Only b).
Definition set_deviceName v b := mkBinding (ipAddress b) (chaddr b) (clientId b) (bindingTime b)
  (pendingTime b) (expireIn b) (leaseTime b) (pendingInterval b) (bindingStatus b) (bindingMode b)
  v (userClass b) (portalUrl b) (rapidCommit b) (ipv6Only b).
Definition set_userClass v b := mkBinding (ipAddress b) (chaddr b) (clientId b) (bindingTime b)
  (pendingTime b) (expireIn b) (leaseTime b) (pendingInterval b) (bindingStatus b) (bindingMode b)
  (deviceName b) v (portalUrl b) (rapidCommit b) (ipv6Only b).

(** * Intervals and expiry *)

Definition PENDING_INTERVAL_MAX_TIME : Z := 1200.
Definition PENDING_INTERVAL_LEVEL0 : Z := 3.
Definition PENDING_INTERVAL_LEVEL1 : Z := 10.
Definition PENDING_INTERVAL_LEVEL2 : Z := 30.
Definition PENDING_MIN_WAITING_TIMES : Z := 1.
Definition PENDING_INTERVAL_LEVEL1_TIMES : Z := 2.
Definition PENDING_INTERVAL_LEVEL2_TIMES : Z := 5.

Definition NextPendingInterval (pendingInterval : Z) : Z :=
  let next := pendingInterval in
  if next <? PENDING_INTERVAL_LEVEL0 then u64 (next + PENDING_MIN_WAITING_TIMES)
  else if next <? PENDING_INTERVAL_LEVEL1 then u64 (next + PENDING_INTERVAL_LEVEL1_TIMES)
  else if next <? PENDING_INTERVAL_LEVEL2 then u64 (next + PENDING_INTERVAL_LEVEL2_TIMES)
  else PENDING_INTERVAL_MAX_TIME.

(** The second after which the binding has expired. *)
Definition expiry (b : AddressBinding) : Z :=
  let lt := if truthy (leaseTime b) then leaseTime b else DHCP_LEASE_TIME in
  if bindingStatus b =? BIND_PENDING then u64 (pendingTime b + lt)
  else if bindingStatus b =? BIND_ASSOCIATED then u64 (bindingTime b + lt)
  else expireIn b.

(** [curr] is [Tmspsec()]; an expired binding is marked. *)
Definition IsExpire (curr : Z) (binding : AddressBinding) : Z * AddressBinding :=
  if curr >? expiry binding then (DHCP_TRUE, set_bindingStatus BIND_EXPIRED binding)
  else (DHCP_FALSE, binding).

(** * Splitting a line *)

Fixpoint is_prefix (p s : bytes) : bool :=
  match p, s with
  | [], _ => true
  | x :: p', y :: s' => (x =? y) && is_prefix p' s'
  | _ :: _, [] => false
  end.

(** [strstr(pos, split)]: the offset of the first occurrence. *)
Fixpoint strstr (pos split : bytes) : option nat :=
  if is_prefix split pos then Some 0%nat
  else match pos with [] => None | _ :: r => S <$> strstr r split end.

Definition CheckValidSplitString (buf split : bytes) : bool :=
  if bool_decide (buf = []) || bool_decide (split = []) then false
  else if (Nat.ltb (length buf) (length split)) || (Nat.eqb (length split) 0) then false
  else if 4096 <? Z.of_nat (length buf) then false
  else true.

(** The counting pass; [None] is an iteration the fuel does not cover. *)
Fixpoint SplitString_count_loop (fuel : nat) (pos split : bytes) (num : nat) : option nat :=
  match fuel with
  | O => None
  | S fuel' =>
      match strstr pos split with
      | Some p =>
          SplitString_count_loop fuel' (drop (p + length split) pos) split
            (if Nat.eqb p 0 then num else S num)
      | None => Some (if bool_decide (pos = []) then num else S num)
      end
  end.

(** The copying pass into the array [strs] of [num + 1] pointers; a write past
    its end is undefined. *)
Definition put_token (cap : nat) (strs : list bytes) (t : bytes) : option (list bytes) :=
  if Nat.ltb (length strs) cap then Some (strs ++ [t]) else None.

Fixpoint SplitString_copy_loop (fuel : nat) (cap : nat) (pos split : bytes) (strs : list bytes)
    : option (list bytes) :=
  match fuel with
  | O => None
  | S fuel' =>
      match strstr pos split with
      | Some p =>
          strs ← (if Nat.eqb p 0 then Some strs else put_token cap strs (take p pos));
          SplitString_copy_loop fuel' cap (drop (p + length split) pos) split strs
      | None => if bool_decide (pos = []) then Some strs else put_token cap strs pos
      end
  end.

(** The strings before the terminating null pointer, or [None] for a null
    result; the outer option is undefined behaviour.  Allocation succeeds. *)
Definition SplitString (buf split : bytes) : option (option (list bytes)) :=
  if negb (CheckValidSplitString buf split) then Some None
  else
    num ← SplitString_count_loop (S (length buf)) buf split 0;
    if Nat.eqb num 0 then Some None
    else strs ← SplitString_copy_loop (S (length buf)) num buf split [];
         Some (Some strs).

(** * Writing and reading a line *)

Definition BINDING_MAC_ADDR_POS : nat := 0.
Definition BINDING_IP_ADDR_POS : nat := 1.
Definition BINDING_LEASE_TIME_POS : nat := 2.
Definition BINDING_BINDING_TIME_POS : nat := 3.
Definition BINDING_PENDING_TIME_POS : nat := 4.
Definition BINDING_PENDING_INTERVAL_POS : nat := 5.
Definition BINDING_BINDING_MODE_POS : nat := 6.
Definition BINDING_BINDING_STATUS_POS : nat := 7.
Definition BINDING_DEVICE_NAME_POS : nat := 8.
Definition BINDING_STRING_SIZE : nat := 8.
Definition BINDING_STRING_MAX_SIZE : nat := 9.
Definition BINDING_MIN_LENGTH : Z := 20.

Definition space : Z := 32.

(** ["%s"] of [deviceName]: the characters up to a NUL, which may run on into
    the arrays after it; [None] when none of the three ends the string. *)
Definition name_text (b : AddressBinding) : option bytes :=
  let mem := deviceName b ++ userClass b ++ portalUrl b in
  if bool_decide (0 ∈ mem) then Some (c_str mem) else None.

Definition binding_text `{InetText} (b : AddressBinding) (mac name : bytes) : bytes :=
  mac ++ space :: ParseStrIp (ipAddress b) ++ space :: dec_u64 (leaseTime b) ++
  space :: dec_u64 (bindingTime b) ++ space :: dec_u64 (pendingTime b) ++
  space :: dec_u64 (pendingInterval b) ++ space :: dec_int (bindingMode b) ++
  space :: dec_int (bindingStatus b) ++ space :: name.

(** The text [snprintf_s] leaves in [out], when it fits. *)
Definition WriteAddressBinding `{InetText} (binding : AddressBinding) (size : Z)
    : option (Z * option bytes) :=
  match ParseStrMac (Some (chaddr binding)) DHCP_HWADDR_LENGTH with
  | None => Some (RET_FAILED, None)
  | Some mac =>
      if size <? BINDING_MIN_LENGTH then Some (RET_FAILED, None)
      else
        name ← name_text binding;
        let text := binding_text binding mac name in
        if Z.of_nat (length text) >? size - 1 then Some (RET_FAILED, None)
        else Some (RET_SUCCESS, Some text)
  end.

Definition token (strs : list bytes) (i : nat) : bytes := nth i strs [].

(** The fields up to the check of the two times. *)
Definition parse_times `{InetText} (binding : AddressBinding) (strs : list bytes) : AddressBinding :=
  let b := set_chaddr (snd (ParseMacAddress (Some (token strs BINDING_MAC_ADDR_POS)) (chaddr binding))) binding in
  let b := set_ipAddress (ParseIpAddr (token strs BINDING_IP_ADDR_POS)) b in
  let b := set_leaseTime (CheckDataToUint64 (token strs BINDING_LEASE_TIME_POS)) b in
  let b := set_bindingTime (CheckDataToUint64 (token strs BINDING_BINDING_TIME_POS)) b in
  set_pendingTime (CheckDataToUint64 (token strs BINDING_PENDING_TIME_POS)) b.

(** [deviceName] and the 64 bytes after it are what [ParseHostName] is given. *)
Definition parse_name (b : AddressBinding) (name : bytes) : AddressBinding :=
  match snd (ParseHostName (Some name) (Some (deviceName b ++ userClass b))) with
  | Some mem => set_userClass (drop 64 mem) (set_deviceName (take 64 mem) b)
  | None => b
  end.

Definition ParseAddressBinding `{InetText} (curr : Z) (binding : AddressBinding) (buf : bytes)
    : option (Z * AddressBinding) :=
  strs ← SplitString buf [space];
  match strs with
  | None => Some (-1, binding)
  | Some strs =>
      let num := length strs in
      if Nat.ltb num BINDING_STRING_SIZE then Some (-1, binding)
      else
        let b := parse_times binding strs in
        if truthy (bindingTime b) && (bindingTime b <? pendingTime b) then Some (-1, b)
        else
          let b := if pendingTime b >? curr
                   then set_pendingTime curr
                          (set_bindingTime (u64 (bindingTime b - pendingTime b + curr)) b)
                   else b in
          let b := set_pendingInterval (CheckDataToUint64 (token strs BINDING_PENDING_INTERVAL_POS)) b in
          let b := set_bindingMode (CheckDataLegal (token strs BINDING_BINDING_MODE_POS)) b in
          let b := set_bindingStatus (CheckDataLegal (token strs BINDING_BINDING_STATUS_POS)) b in
          let b := if bindingStatus b =? BIND_ASSOCIATED
                   then set_expireIn (u64 (bindingTime b + leaseTime b)) b else b in
          let b := if Nat.leb BINDING_STRING_MAX_SIZE num
                   then parse_name b (token strs BINDING_DEVICE_NAME_POS) else b in
          Some (0, b)
  end.

(** * Splitting at spaces *)

Definition no_space (w : bytes) : Prop := Forall (fun c => c <> space) w.

Lemma is_prefix_space s : is_prefix [space] s = match s with c :: _ => c =? space | [] => false end.
Proof. destruct s as [|c s]; [done|]. cbn [is_prefix]. rewrite andb_true_r. apply Z.eqb_sym. Qed.

Lemma strstr_space w rest : no_space w -> strstr (w ++ space :: rest) [space] = Some (length w).
Proof.
  induction 1 as [|c w Hc _ IH]; cbn [strstr app]; rewrite is_prefix_space; [by rewrite Z.eqb_refl|].
  rewrite (proj2 (Z.eqb_neq c space) Hc), IH. done.
Qed.

Lemma strstr_none w : no_space w -> strstr w [space] = None.
Proof.
  induction 1 as [|c w Hc _ IH]; [done|]. cbn [strstr].
  by rewrite is_prefix_space, (proj2 (Z.eqb_neq c space) Hc), IH.
Qed.

(** The line made of the given words. *)
Fixpoint unwords (ws : list bytes) : bytes :=
  match ws with
  | [] => []
  | [w] => w
  | w :: ws' => w ++ space :: unwords ws'
  end.

Definition word (w : bytes) : Prop := w <> [] /\ no_space w.

Lemma drop_word w rest : drop (length w + length [space]) (w ++ space :: rest) = rest.
Proof.
  rewrite drop_app_ge by lia. by replace (length w + length [space] - length w)%nat with 1%nat
    by (cbn; lia).
Qed.

Lemma length_unwords_cons w ws : (length (unwords ws) < length (w ++ space :: unwords ws))%nat.
Proof. rewrite length_app. cbn. lia. Qed.

Lemma unwords_cons w ws : ws <> [] -> unwords (w :: ws) = w ++ space :: unwords ws.
Proof. by destruct ws. Qed.

Lemma SplitString_count_unwords ws : Forall word ws -> ws <> [] ->
  forall fuel num, (length (unwords ws) < fuel)%nat ->
  SplitString_count_loop fuel (unwords ws) [space] num = Some (num + length ws)%nat.
Proof.
  induction 1 as [|w ws [Hw Hn] _ IH]; [done|]. intros _ fuel num Hf.
  destruct fuel as [|fuel]; [lia|]. cbn [SplitString_count_loop].
  destruct (decide (ws = [])) as [->|Hws].
  - cbn [unwords]. rewrite strstr_none by done. rewrite bool_decide_eq_false_2 by done.
    f_equal. cbn. lia.
  - rewrite unwords_cons in Hf |- * by done. rewrite strstr_space by done.
    rewrite drop_word. rewrite (proj2 (Nat.eqb_neq _ _)) by (by destruct w).
    pose proof (length_unwords_cons w ws). rewrite IH by (done || lia). f_equal. cbn. lia.
Qed.

Lemma SplitString_copy_unwords ws : Forall word ws -> ws <> [] ->
  forall fuel cap strs, (length (unwords ws) < fuel)%nat -> (length strs + length ws <= cap)%nat ->
  SplitString_copy_loop fuel cap (unwords ws) [space] strs = Some (strs ++ ws).
Proof.
  induction 1 as [|w ws [Hw Hn] _ IH]; [done|]. intros _ fuel cap strs Hf Hcap.
  destruct fuel as [|fuel]; [lia|]. cbn [SplitString_copy_loop]. cbn [length] in Hcap.
  assert (Hput : forall t, put_token cap strs t = Some (strs ++ [t]))
    by (intros t; unfold put_token; by rewrite (proj2 (Nat.ltb_lt _ _)) by lia).
  destruct (decide (ws = [])) as [->|Hws].
  - cbn [unwords]. rewrite strstr_none by done. rewrite bool_decide_eq_false_2 by done. apply Hput.
  - rewrite unwords_cons in Hf |- * by done. rewrite strstr_space by done. rewrite drop_word.
    rewrite (proj2 (Nat.eqb_neq _ _)) by (by destruct w). rewrite take_app_length, Hput.
    cbn [mbind option_bind]. pose proof (length_unwords_cons w ws).
    rewrite IH; [by rewrite <- app_assoc|done|lia|]. rewrite length_app. cbn. lia.
Qed.

Lemma SplitString_unwords ws : Forall word ws -> ws <> [] ->
  Z.of_nat (length (unwords ws)) <= 4096 ->
  SplitString (unwords ws) [space] = Some (Some ws).
Proof.
  intros Hw Hne Hl. unfold SplitString, CheckValidSplitString.
  assert (Hpos : unwords ws <> []).
  { destruct Hw as [|w ws [Hw _] _]; [done|]. destruct ws; cbn; [done|]. by destruct w. }
  rewrite bool_decide_eq_false_2 by done. rewrite bool_decide_eq_false_2 by done. cbn [orb length].
  rewrite (proj2 (Nat.ltb_ge _ _)) by (destruct (unwords ws); [done|cbn; lia]).
  rewrite (proj2 (Nat.eqb_neq 1 0)) by done. rewrite (proj2 (Z.ltb_ge _ _)) by lia. cbn [orb negb].
  rewrite SplitString_count_unwords by (done || lia). cbn [mbind option_bind].
  rewrite Nat.add_0_l, (proj2 (Nat.eqb_neq _ _)) by (by destruct ws).
  rewrite SplitString_copy_unwords by (done || cbn; lia). done.
Qed.

Lemma strstr_lt pos p : strstr pos [space] = Some p -> (p < length pos)%nat.
Proof.
  revert p. induction pos as [|c pos IH]; intros p; cbn [strstr]; rewrite is_prefix_space; [done|].
  destruct (c =? space); [intros [= <-]; cbn; lia|].
  destruct (strstr pos [space]) as [q|]; [|done]. cbn. intros [= <-].
  specialize (IH q eq_refl). lia.
Qed.

(** Both passes make the same steps, so the array of [num + 1] pointers is
    never overrun, on any text. *)
Lemma SplitString_passes_agree fuel : forall pos num strs, (length pos < fuel)%nat ->
  exists ws, SplitString_count_loop fuel pos [space] num = Some (num + length ws)%nat /\
  forall cap, (length strs + length ws <= cap)%nat ->
    SplitString_copy_loop fuel cap pos [space] strs = Some (strs ++ ws).
Proof.
  induction fuel as [|fuel IH]; intros pos num strs Hf; [lia|].
  cbn [SplitString_count_loop SplitString_copy_loop].
  assert (Hput : forall t cap, (length strs + 1 <= cap)%nat -> put_token cap strs t = Some (strs ++ [t]))
    by (intros t cap Hc; unfold put_token; by rewrite (proj2 (Nat.ltb_lt _ _)) by lia).
  destruct (strstr pos [space]) as [p|] eqn:E.
  - apply strstr_lt in E.
    assert (Hd : (length (drop (p + length [space]) pos) < fuel)%nat) by (rewrite length_drop; cbn; lia).
    destruct (Nat.eqb p 0) eqn:Ep.
    + destruct (IH _ num strs Hd) as (ws & E1 & E2). exists ws. split; [done|exact E2].
    + destruct (IH _ (S num) (strs ++ [take p pos]) Hd) as (ws & E1 & E2).
      exists (take p pos :: ws). rewrite E1. split; [f_equal; cbn; lia|].
      intros cap Hc. cbn [length] in Hc. rewrite Hput by lia. cbn [mbind option_bind].
      rewrite E2, <- app_assoc by (rewrite length_app; cbn; lia). done.
  - destruct (bool_decide (pos = [])).
    + exists []. rewrite app_nil_r, Nat.add_0_r. split; [done|done].
    + exists [pos]. split; [f_equal; cbn; lia|]. intros cap Hc. cbn in Hc. apply Hput. lia.
Qed.

Lemma SplitString_defined buf : exists r, SplitString buf [space] = Some r.
Proof.
  unfold SplitString. destruct (CheckValidSplitString buf [space]); cbn [negb]; [|eauto].
  destruct (SplitString_passes_agree (S (length buf)) buf 0 [] ltac:(lia)) as (ws & -> & E).
  cbn [mbind option_bind]. destruct (Nat.eqb (0 + length ws) 0); [eauto|].
  rewrite E by (cbn; lia). cbn. eauto.
Qed.

Lemma ParseAddressBinding_defined `{InetText} curr b buf :
  exists r b', ParseAddressBinding curr b buf = Some (r, b').
Proof.
  unfold ParseAddressBinding. destruct (SplitString_defined buf) as [[strs|] ->]; cbn [mbind option_bind]; [|eauto].
  destruct (Nat.ltb (length strs) BINDING_STRING_SIZE); [eauto|]. cbv zeta.
  destruct (_ && _); eauto.
Qed.

(** * Round trip of a line *)

Definition wf_binding (b : AddressBinding) : Prop :=
  is_u32 (ipAddress b) /\ length (chaddr b) = 16%nat /\ Forall is_u8 (chaddr b) /\
  is_u64 (bindingTime b) /\ is_u64 (pendingTime b) /\ is_u64 (leaseTime b) /\
  is_u64 (pendingInterval b) /\ - 2 ^ 31 <= bindingMode b < 2 ^ 31 /\
  - 2 ^ 31 <= bindingStatus b < 2 ^ 31 /\ length (deviceName b) = 64%nat /\
  length (userClass b) = 64%nat /\ length (portalUrl b) = 64%nat.

(** What reading the line of [b] restores into a zeroed structure: the two
    text fields beyond the name are lost, and the name has the line end that
    [fgets] leaves. *)
Definition reloaded (b : AddressBinding) (name : bytes) : AddressBinding :=
  mkBinding (ipAddress b) (take 6 (chaddr b) ++ zeros 10) 0 (bindingTime b) (pendingTime b)
    (if bindingStatus b =? BIND_ASSOCIATED then u64 (bindingTime b + leaseTime b) else 0)
    (leaseTime b) (pendingInterval b) (bindingStatus b) (bindingMode b)
    (take 64 (name ++ newline :: zeros 127)) (zeros 64) (zeros 64) false 0.

Lemma word_digits s : s <> [] -> Forall (fun c => isdigit c = true \/ c = 45) s -> word s.
Proof.
  intros Hne H. split; [done|]. eapply Forall_impl; [exact H|]. unfold space.
  intros c [Hc| ->]; [apply isdigit_range in Hc; lia|lia].
Qed.

Lemma word_dec_u64 n : is_u64 n -> word (dec_u64 n).
Proof.
  intros Hn. destruct (dec_u64_spec n Hn) as (H1 & H2 & _). apply word_digits; [done|].
  eapply Forall_impl; [exact H2|]. by left.
Qed.

Lemma word_dec_int z : - 2 ^ 31 <= z < 2 ^ 31 -> word (dec_int z).
Proof. intros Hz. destruct (dec_int_spec z Hz) as (_ & H2 & H3 & _). by apply word_digits. Qed.

Lemma hex_digit_no_space d : 0 <= d < 16 -> hex_digit d <> space.
Proof. unfold hex_digit, space. destruct (d <? 10); lia. Qed.

Lemma word_mac mac s : Forall is_u8 mac -> ParseStrMac (Some mac) DHCP_HWADDR_LENGTH = Some s ->
  word s /\ length s = 17%nat.
Proof.
  intros Hm [= <-]. split; [|done]. split; [done|].
  assert (Hb : forall i, 0 <= byte_at mac i < 256).
  { intros i. unfold byte_at. destruct (nth_in_or_default i mac 0) as [Hin| ->]; [|lia].
    rewrite List.Forall_forall in Hm. apply (Hm _ Hin). }
  assert (Hh : forall i, hex_digit (byte_at mac i / 16) <> space /\ hex_digit (byte_at mac i mod 16) <> space).
  { intros i. specialize (Hb i). split; apply hex_digit_no_space.
    - split; [apply Z.div_pos; lia|apply Z.div_lt_upper_bound; lia].
    - apply Z.mod_pos_bound. lia. }
  unfold no_space, hex2. cbn [app].
  repeat (constructor; [first [exact (proj1 (Hh _)) | exact (proj2 (Hh _)) | discriminate]|]).
  constructor.
Qed.

Lemma name_text_no_nul b name : name_text b = Some name -> Forall (fun c => c <> 0) name.
Proof.
  unfold name_text. destruct (bool_decide _); [|done]. intros [= <-].
  induction (deviceName b ++ userClass b ++ portalUrl b) as [|c l IH]; cbn; [constructor|].
  destruct (c =? 0) eqn:E; [constructor|]. apply Z.eqb_neq in E. by constructor.
Qed.

Definition DHCP_FILE_LINE_LENGTH : Z := 1024.

(** The words of a line. *)
Definition line_words `{InetText} (b : AddressBinding) (mac last : bytes) : list bytes :=
  [mac; ParseStrIp (ipAddress b); dec_u64 (leaseTime b); dec_u64 (bindingTime b);
   dec_u64 (pendingTime b); dec_u64 (pendingInterval b); dec_int (bindingMode b);
   dec_int (bindingStatus b); last].

Section Round_trip.
Context `{L : InetTextLaws}.

Lemma ParseStrIp_word ip : is_u32 ip ->
  word (ParseStrIp ip) /\ (length (ParseStrIp ip) <= 15)%nat /\ ParseIpAddr (ParseStrIp ip) = ip.
Proof.
  intros Hip. destruct (inet_ntop_total ip Hip) as [s E]. unfold ParseStrIp, ParseIpAddr. rewrite E.
  destruct (inet_ntop_chars ip s E) as [Hc Hl]. rewrite (inet_aton_ntop ip s Hip E).
  split; [|split; [lia|done]]. split; [by destruct s; [cbn in Hl; lia|]|].
  eapply Forall_impl; [exact Hc|]. unfold space. cbn. lia.
Qed.

Lemma line_words_words b mac last : wf_binding b -> word mac -> word last ->
  Forall word (line_words b mac last).
Proof.
  intros (Hip & _ & _ & Hbt & Hpt & Hlt & Hpi & Hm & Hs & _) Hmac Hlast.
  pose proof (proj1 (ParseStrIp_word _ Hip)). unfold line_words. rewrite !Forall_cons.
  repeat (split; [auto using word_dec_u64, word_dec_int|]). by apply Forall_nil.
Qed.

Lemma binding_text_words b mac name tail : word (name ++ tail) ->
  binding_text b mac name ++ tail = unwords (line_words b mac (name ++ tail)).
Proof.
  intros [Hne _]. unfold binding_text, line_words. cbn [unwords].
  repeat (rewrite <- app_assoc; cbn [app]). done.
Qed.

Lemma length_line b mac last : wf_binding b -> length mac = 17%nat ->
  (length (unwords (line_words b mac last)) <= 170 + length last)%nat.
Proof.
  intros (Hip & _ & _ & Hbt & Hpt & Hlt & Hpi & Hm & Hs & _) Hmac.
  pose proof (proj1 (proj2 (ParseStrIp_word _ Hip))).
  destruct (dec_u64_spec _ Hbt) as (_ & _ & ? & _). destruct (dec_u64_spec _ Hpt) as (_ & _ & ? & _).
  destruct (dec_u64_spec _ Hlt) as (_ & _ & ? & _). destruct (dec_u64_spec _ Hpi) as (_ & _ & ? & _).
  destruct (dec_int_spec _ Hm) as (_ & _ & _ & ?). destruct (dec_int_spec _ Hs) as (_ & _ & _ & ?).
  unfold line_words. cbn [unwords].
  repeat (rewrite length_app; cbn [length]). lia.
Qed.

Lemma WriteAddressBinding_lemma b name mac : wf_binding b -> name_text b = Some name ->
  (length name < 64)%nat -> ParseStrMac (Some (chaddr b)) DHCP_HWADDR_LENGTH = Some mac ->
  WriteAddressBinding b DHCP_FILE_LINE_LENGTH = Some (RET_SUCCESS, Some (binding_text b mac name)).
Proof.
  intros Hwf Hname Hl Hmac. unfold WriteAddressBinding. rewrite Hmac, Hname.
  change (DHCP_FILE_LINE_LENGTH <? BINDING_MIN_LENGTH) with false. cbn [mbind option_bind].
  assert (Hmac17 : length mac = 17%nat) by (destruct Hwf as (_ & _ & Hc & _); by eapply word_mac).
  assert (E : (length (binding_text b mac name) <= 170 + length name)%nat).
  { pose proof (length_line b mac name Hwf Hmac17) as H1. revert H1.
    unfold binding_text, line_words. cbn [unwords]. repeat (rewrite length_app; cbn [length]). lia. }
  unfold DHCP_FILE_LINE_LENGTH. rewrite Z.gtb_ltb, (proj2 (Z.ltb_ge _ _)) by lia. done.
Qed.

Lemma parse_name_zero b name : (length name < 64)%nat ->
  deviceName b = zeros 64 -> userClass b = zeros 64 ->
  parse_name b (name ++ [newline]) =
  set_userClass (zeros 64) (set_deviceName (take 64 (name ++ newline :: zeros 127)) b).
Proof.
  intros Hl Hd Hu. unfold parse_name, ParseHostName, memcpy_s. rewrite Hd, Hu.
  rewrite (proj2 (Z.leb_le _ _)) by (rewrite length_app; cbn [length]; unfold DHCP_BOOT_FILE_LENGTH; lia).
  rewrite Nat2Z.id. cbn [snd]. rewrite take_ge by done.
  change (zeros 64 ++ zeros 64) with (zeros 128). set (n := name ++ [newline]).
  assert (Hn : (length n <= 64)%nat) by (unfold n; rewrite length_app; cbn; lia).
  assert (E : drop (length n) (zeros 128) = zeros (128 - length n)).
  { unfold zeros. apply drop_replicate. }
  rewrite E. f_equal.
  - rewrite drop_app_ge by lia. unfold zeros. rewrite drop_replicate. f_equal. lia.
  - f_equal. change (newline :: zeros 127) with ([newline] ++ zeros 127).
    rewrite app_assoc. fold n. rewrite !take_app. f_equal.
    unfold zeros. rewrite !take_replicate. f_equal. lia.
Qed.

Lemma lease_line_roundtrip_lemma curr b name mac : wf_binding b -> name_text b = Some name ->
  no_space name -> (length name < 64)%nat ->
  ParseStrMac (Some (chaddr b)) DHCP_HWADDR_LENGTH = Some mac ->
  pendingTime b <= curr -> (bindingTime b = 0 \/ pendingTime b <= bindingTime b) ->
  ParseAddressBinding curr zero_binding (binding_text b mac name ++ [newline]) =
  Some (0, reloaded b name).
Proof.
  intros Hwf Hname Hsp Hl Hmac Hcurr Htimes.
  pose proof Hwf as (Hip & Hc16 & Hcu & Hbt & Hpt & Hlt & Hpi & Hm & Hs & _).
  destruct (word_mac _ _ Hcu Hmac) as [Hwmac Hlmac].
  assert (Hlast : word (name ++ [newline])).
  { split; [by destruct name|]. apply Forall_app. split; [done|]. constructor; [done|constructor]. }
  rewrite binding_text_words by done.
  pose proof (line_words_words b mac _ Hwf Hwmac Hlast) as Hwords.
  pose proof (length_line b mac (name ++ [newline]) Hwf Hlmac) as Hlen.
  rewrite length_app in Hlen. cbn [length] in Hlen.
  unfold ParseAddressBinding. rewrite SplitString_unwords by (done || lia). cbn [mbind option_bind].
  change (Nat.ltb (length (line_words b mac (name ++ [newline]))) BINDING_STRING_SIZE) with false.
  change (Nat.leb BINDING_STRING_MAX_SIZE (length (line_words b mac (name ++ [newline])))) with true.
  assert (Et : parse_times zero_binding (line_words b mac (name ++ [newline])) =
    mkBinding (ipAddress b) (take 6 (chaddr b) ++ zeros 10) 0 (bindingTime b) (pendingTime b) 0
      (leaseTime b) 0 0 0 (zeros 64) (zeros 64) (zeros 64) false 0).
  { unfold parse_times, line_words, token, set_pendingTime, set_bindingTime, set_leaseTime, set_ipAddress, set_chaddr.
    cbn -[ParseMacAddress dec_u64 dec_int ParseIpAddr ParseStrIp zeros].
    rewrite !CheckDataToUint64_dec by done. rewrite (proj2 (proj2 (ParseStrIp_word _ Hip))).
    erewrite ParseMacAddress_ParseStrMac_lemma; [|exact Hcu|lia|rewrite length_zeros; lia|exact Hmac]. done. }
  rewrite Et. cbn [bindingTime pendingTime].
  assert (E1 : truthy (bindingTime b) && (bindingTime b <? pendingTime b) = false).
  { unfold truthy. destruct Htimes as [-> | Ht]; [done|].
    rewrite (proj2 (Z.ltb_ge _ _)) by lia. by rewrite andb_false_r. }
  rewrite E1, Z.gtb_ltb, (proj2 (Z.ltb_ge _ _)) by lia.
  unfold line_words, token, BINDING_PENDING_INTERVAL_POS, BINDING_BINDING_MODE_POS,
    BINDING_BINDING_STATUS_POS, BINDING_DEVICE_NAME_POS. cbn [nth].
  rewrite CheckDataToUint64_dec by done. rewrite (proj1 (dec_int_spec _ Hm)), (proj1 (dec_int_spec _ Hs)).
  unfold set_bindingStatus, set_bindingMode, set_pendingInterval, set_expireIn.
  cbn [ipAddress chaddr clientId bindingTime pendingTime expireIn leaseTime pendingInterval
    bindingStatus bindingMode deviceName userClass portalUrl rapidCommit ipv6Only].
  unfold reloaded. destruct (bindingStatus b =? BIND_ASSOCIATED); rewrite parse_name_zero by done; done.
Qed.
End Round_trip.

(** * Properties *)

(** Splitting any text at spaces stays inside the arrays it allocates: the
    copying pass stores exactly as many strings as the counting pass allowed
    for, so reading any line of a lease file is defined. *)
Theorem SplitString_safe `{InetText} fuel buf curr b :
  (length buf < fuel)%nat ->
  (exists ws, SplitString_count_loop fuel buf [space] 0 = Some (length ws) /\
     SplitString_copy_loop fuel (length ws) buf [space] [] = Some ws) /\
  exists r b', ParseAddressBinding curr b buf = Some (r, b').
Proof.
  intros Hf. split; [|apply ParseAddressBinding_defined].
  destruct (SplitString_passes_agree fuel buf 0 [] Hf) as (ws & E1 & E2).
  exists ws. split; [done|]. by apply E2.
Qed.

Lemma SplitString_safe_witness :
  (exists ws, SplitString_count_loop 20 (str " a  b c ") [space] 0 = Some (length ws) /\
     SplitString_copy_loop 20 (length ws) (str " a  b c ") [space] [] = Some ws) /\
  exists r b', ParseAddressBinding 5 zero_binding (str " a  b c ") = Some (r, b').
Proof. apply (SplitString_safe 20). cbn. lia. Defined.

(** What survives a restart.  The line written for a well-formed binding
    whose name has no space and is shorter than 64 bytes fits the line buffer,
    and reading it back with its line end restores address, hardware address,
    times, interval, mode and status exactly, recomputes the expiry of an
    associated binding, and adds the line end to the device name. *)
Theorem lease_line_roundtrip `{L : InetTextLaws} curr b name :
  wf_binding b -> name_text b = Some name -> no_space name -> (length name < 64)%nat ->
  pendingTime b <= curr -> (bindingTime b = 0 \/ pendingTime b <= bindingTime b) ->
  exists line, WriteAddressBinding b DHCP_FILE_LINE_LENGTH = Some (RET_SUCCESS, Some line) /\
    ParseAddressBinding curr zero_binding (line ++ [newline]) = Some (0, reloaded b name).
Proof.
  intros Hwf Hname Hsp Hl Hc Ht.
  destruct (ParseStrMac (Some (chaddr b)) DHCP_HWADDR_LENGTH) as [mac|] eqn:E; [|done].
  exists (binding_text b mac name). split; [by apply WriteAddressBinding_lemma|].
  by apply lease_line_roundtrip_lemma.
Qed.

Definition sample_binding : AddressBinding :=
  mkBinding 0x0501A8C0 (map Z.of_nat (seq 1 6) ++ zeros 10) 0 1700000000 1700000000 1700021600 21600 0
    BIND_ASSOCIATED BIND_MODE_DYNAMIC (str "phone" ++ zeros 59) (zeros 64) (zeros 64) false 0.

Lemma sample_binding_wf : wf_binding sample_binding.
Proof.
  unfold wf_binding, is_u32, is_u64. cbn -[Z.pow Z.of_nat]. repeat split;
    first [reflexivity | lia | by apply all_u8 | by apply Z.leb_le].
Qed.

Lemma lease_line_roundtrip_witness :
  exists line, WriteAddressBinding sample_binding DHCP_FILE_LINE_LENGTH = Some (RET_SUCCESS, Some line) /\
    ParseAddressBinding 1700000100 zero_binding (line ++ [newline]) =
    Some (0, reloaded sample_binding (str "phone")).
Proof.
  apply (lease_line_roundtrip 1700000100 sample_binding (str "phone")).
  - exact sample_binding_wf.
  - reflexivity.
  - repeat constructor; discriminate.
  - cbn. lia.
  - cbn. lia.
  - right. cbn. lia.
Defined.
