(* ===== verification/AddressPool.v ===== *)
(** The address pool (src/services/dhcp_server/src/dhcp_address_pool.cpp):
    the binding table shared by the process, the lease table of a pool, the
    distribution of addresses and the lease file.

    The two [std::map]s are [gmap]s.  An [AddressBinding *] designates an
    element of one of them and is a [BindingPtr]; using it after its element
    was erased is undefined.  The pool pointer of every caller is the address
    of a structure, so its null tests are not modelled.  The mutexes protect
    single accesses and have no effect on the sequential behaviour given
    here. *)
From S2P Require Import Prelude AddressUtils OptionList CommonUtil DottedQuad Binding.

Definition IFACE_NAME_SIZE : Z := 50.
Definition DHCP_LEASE_FILE_LENGTH : Z := 256.
Definition DHCP_REFRESH_LEASE_FILE_INTERVAL : Z := 120.
Definition DHCPD_LEASE_FILE : bytes := str "/data/service/el1/public/dhcp/dhcpd_lease.lease".

(** What the pool needs of the platform: the microseconds at the n-th reading
    of the clock, [realpath], and whether a file can be opened for writing. *)
Class Platform := {
  clock : nat -> Z;
  realpath : bytes -> option bytes;
  fopen_w : bytes -> bool
}.

(** * State *)

Record DhcpAddressPool := mkPool {
  pool_ifname : bytes; netmask : Z;
  beginAddress : Z; endAddress : Z;
  serverId : Z; gateway : Z;
  pool_leaseTime : Z; renewalTime : Z; rebindingTime : Z;
  distribution : Z;
  leaseTable : gmap Z AddressBinding;
  fixedOptions : list DhcpOption
}.

Definition zero_pool : DhcpAddressPool := mkPool [] 0 0 0 0 0 0 0 0 0 ∅ [].

(** [bindingRecoders], [distributeMode] and [lastTime] are the file's static
    variables; [ticks] counts the readings of the clock; [files] are the file
    contents by path. *)
Record PoolState := mkState {
  bindingRecoders : gmap Z AddressBinding;
  distributeMode : Z;
  lastTime : Z;
  ticks : nat;
  files : gmap (list Z) bytes;
  pool : DhcpAddressPool
}.

Definition set_pool (p : DhcpAddressPool) (s : PoolState) : PoolState :=
  mkState (bindingRecoders s) (distributeMode s) (lastTime s) (ticks s) (files s) p.
Definition set_bindings (m : gmap Z AddressBinding) (s : PoolState) : PoolState :=
  mkState m (distributeMode s) (lastTime s) (ticks s) (files s) (pool s).
Definition set_ticks (n : nat) (s : PoolState) : PoolState :=
  mkState (bindingRecoders s) (distributeMode s) (lastTime s) n (files s) (pool s).
Definition set_files (f : gmap (list Z) bytes) (s : PoolState) : PoolState :=
  mkState (bindingRecoders s) (distributeMode s) (lastTime s) (ticks s) f (pool s).
Definition set_lastTime (t : Z) (s : PoolState) : PoolState :=
  mkState (bindingRecoders s) (distributeMode s) t (ticks s) (files s) (pool s).

Definition set_leaseTable (m : gmap Z AddressBinding) (p : DhcpAddressPool) : DhcpAddressPool :=
  mkPool (pool_ifname p) (netmask p) (beginAddress p) (endAddress p) (serverId p) (gateway p)
    (pool_leaseTime p) (renewalTime p) (rebindingTime p) (distribution p) m (fixedOptions p).
Definition set_distribution (d : Z) (p : DhcpAddressPool) : DhcpAddressPool :=
  mkPool (pool_ifname p) (netmask p) (beginAddress p) (endAddress p) (serverId p) (gateway p)
    (pool_leaseTime p) (renewalTime p) (rebindingTime p) d (leaseTable p) (fixedOptions p).
Definition set_pool_ifname (n : bytes) (p : DhcpAddressPool) : DhcpAddressPool :=
  mkPool n (netmask p) (beginAddress p) (endAddress p) (serverId p) (gateway p)
    (pool_leaseTime p) (renewalTime p) (rebindingTime p) (distribution p) (leaseTable p) (fixedOptions p).
Definition set_fixedOptions (o : list DhcpOption) (p : DhcpAddressPool) : DhcpAddressPool :=
  mkPool (pool_ifname p) (netmask p) (beginAddress p) (endAddress p) (serverId p) (gateway p)
    (pool_leaseTime p) (renewalTime p) (rebindingTime p) (distribution p) (leaseTable p) o.

Definition leases (s : PoolState) : gmap Z AddressBinding := leaseTable (pool s).
Definition set_leases (m : gmap Z AddressBinding) (s : PoolState) : PoolState :=
  set_pool (set_leaseTable m (pool s)) s.

(** An element of the binding table or of the lease table. *)
Inductive BindingPtr :=
| BindPtr (hash : Z)
| LeasePtr (ip : Z).

Definition deref (p : BindingPtr) (s : PoolState) : option AddressBinding :=
  match p with
  | BindPtr h => bindingRecoders s !! h
  | LeasePtr ip => leases s !! ip
  end.

Definition assign (p : BindingPtr) (b : AddressBinding) (s : PoolState) : PoolState :=
  match p with
  | BindPtr h => set_bindings (<[h := b]> (bindingRecoders s)) s
  | LeasePtr ip => set_leases (<[ip := b]> (leases s)) s
  end.

Definition load (p : BindingPtr) : M PoolState AddressBinding :=
  fun s => match deref p s with Some b => Some (b, s) | None => None end.

(** [p->field = ...]. *)
Definition update (p : BindingPtr) (f : AddressBinding -> AddressBinding) : M PoolState unit :=
  fun s => match deref p s with Some b => Some (tt, assign p (f b) s) | None => None end.

(** * The binding table *)

Definition HASH_DEFAULT_VALUE : Z := 5381.
Definition HASH_CAL_CODE_CAL : Z := 5.

Definition hash_step (hash b : Z) : Z :=
  Z.lxor (u64 (u64 (Z.shiftl hash HASH_CAL_CODE_CAL) + hash)) b.

(** Sixteen bytes are hashed. *)
Definition macAddrHash (macAddr : bytes) : Z :=
  fold_left hash_step (pad (Z.to_nat DHCP_HWADDR_LENGTH) macAddr) HASH_DEFAULT_VALUE.

Section Pool.
Context {PF : Platform} {IT : InetText}.

Definition sec (n : nat) : Z := u64 (clock n / 1000000).

Definition Tmspsec : M PoolState Z :=
  fun s => Some (sec (ticks s), set_ticks (S (ticks s)) s).
Definition Tmspusec : M PoolState Z :=
  fun s => Some (u64 (clock (ticks s)), set_ticks (S (ticks s)) s).

Definition GetBindingByMac (macAddr : bytes) : M PoolState (option BindingPtr) :=
  let hash := macAddrHash macAddr in
  get (fun s => if bindingRecoders s !! hash then Some (BindPtr hash) else None).

Definition QueryBinding (macAddr : bytes) : M PoolState (option BindingPtr) :=
  GetBindingByMac macAddr.

Definition AddNewBinding (macAddr : bytes) : M PoolState (option BindingPtr) :=
  let newBind := set_chaddr (pad 16 macAddr)
    (set_bindingStatus BIND_PENDING (set_bindingMode BIND_MODE_DYNAMIC zero_binding)) in
  let* t1 := Tmspsec in
  let* t2 := Tmspsec in
  let newBind := set_leaseTime DHCP_LEASE_TIME
    (set_expireIn (u64 (t1 + DHCP_LEASE_TIME)) (set_pendingTime t2 (set_bindingTime t1 newBind))) in
  modify (fun s => set_bindings (<[macAddrHash macAddr := newBind]> (bindingRecoders s)) s) ;;
  GetBindingByMac macAddr.

Definition IsReserved (macAddr : bytes) : M PoolState Z :=
  get (fun s => match bindingRecoders s !! macAddrHash macAddr with
                | Some b => if bindingMode b =? BIND_MODE_RESERVED then DHCP_TRUE else DHCP_FALSE
                | None => DHCP_FALSE
                end).

Definition IsReservedIp (ip : Z) : M PoolState Z :=
  if ip =? 0 then ret DHCP_FALSE
  else get (fun s => match leases s !! ip with
                     | Some b => if bindingMode b =? BIND_MODE_RESERVED then DHCP_TRUE else DHCP_FALSE
                     | None => DHCP_FALSE
                     end).

Definition AddBinding (binding : AddressBinding) : M PoolState Z :=
  if truthy (IsEmptyHWAddr (chaddr binding)) then ret RET_ERROR
  else if ipAddress binding =? 0 then ret RET_ERROR
  else
    let h := macAddrHash (chaddr binding) in
    let* m := get bindingRecoders in
    if m !! h then ret RET_FAILED
    else modify (fun s => set_bindings (<[h := binding]> (bindingRecoders s)) s) ;; ret RET_SUCCESS.

Definition AddReservedBinding (macAddr : bytes) : M PoolState Z :=
  let* binding := GetBindingByMac macAddr in
  match binding with
  | Some p => update p (set_bindingMode BIND_MODE_RESERVED) ;; ret RET_SUCCESS
  | None =>
      let* t := Tmspsec in
      let bind := set_pendingTime t (set_bindingTime t (set_bindingMode BIND_MODE_RESERVED zero_binding)) in
      modify (fun s => set_bindings (<[macAddrHash macAddr := bind]> (bindingRecoders s)) s) ;;
      ret RET_SUCCESS
  end.

Definition RemoveBinding (macAddr : bytes) : M PoolState Z :=
  let h := macAddrHash macAddr in
  let* m := get bindingRecoders in
  if m !! h
  then modify (fun s => set_bindings (delete h (bindingRecoders s)) s) ;; ret RET_SUCCESS
  else ret RET_FAILED.

Definition RemoveReservedBinding (macAddr : bytes) : M PoolState Z :=
  let h := macAddrHash macAddr in
  let* m := get bindingRecoders in
  match m !! h with
  | Some b =>
      if bindingMode b =? BIND_MODE_RESERVED
      then modify (fun s => set_bindings (delete h (bindingRecoders s)) s) ;; ret RET_SUCCESS
      else ret RET_FAILED
  | None => ret RET_FAILED
  end.

Definition g_releaseRemoveMode : Z := 0.

Definition ReleaseBinding (macAddr : bytes) : M PoolState Z :=
  let h := macAddrHash macAddr in
  let* m := get bindingRecoders in
  if m !! h then
    if truthy g_releaseRemoveMode
    then modify (fun s => set_bindings (delete h (bindingRecoders s)) s) ;; ret RET_SUCCESS
    else update (BindPtr h) (set_bindingStatus BIND_RELEASED) ;; ret RET_SUCCESS
  else ret RET_FAILED.

(** * The lease table *)

Definition bad_lease (lease : AddressBinding) : bool :=
  (ipAddress lease =? 0) || truthy (IsEmptyHWAddr (chaddr lease)).

Definition put_lease (lease : AddressBinding) : M PoolState unit :=
  modify (fun s => set_leases (<[ipAddress lease := lease]> (leases s)) s).

(** Both branches of the source store the lease. *)
Definition AddLease (lease : AddressBinding) : M PoolState Z :=
  if bad_lease lease then ret RET_ERROR
  else
    let* m := get leases in
    if m !! ipAddress lease
    then put_lease lease ;; ret RET_SUCCESS
    else put_lease lease ;; ret RET_SUCCESS.

Definition GetLease (ip : Z) : M PoolState (option BindingPtr) :=
  if ip =? 0 then ret None
  else get (fun s => if leases s !! ip then Some (LeasePtr ip) else None).

Definition UpdateLease (lease : AddressBinding) : M PoolState Z :=
  if bad_lease lease then ret RET_ERROR
  else
    let* m := get leases in
    if m !! ipAddress lease then put_lease lease ;; ret RET_SUCCESS else ret RET_FAILED.

(** The lease is given by its pointer. *)
Definition RemoveLease (p : BindingPtr) : M PoolState Z :=
  let* lease := load p in
  if bad_lease lease then ret RET_ERROR
  else
    let* m := get leases in
    if m !! ipAddress lease
    then modify (fun s => set_leases (delete (ipAddress lease) (leases s)) s) ;; ret RET_SUCCESS
    else ret RET_FAILED.

(** A [std::map] is iterated in the order of its keys. *)
Definition key_le (x y : Z * AddressBinding) : Prop := x.1 <= y.1.
#[local] Instance key_le_dec x y : Decision (key_le x y).
Proof. unfold key_le. apply _. Defined.
Definition in_order (m : gmap Z AddressBinding) : list (Z * AddressBinding) :=
  merge_sort key_le (map_to_list m).

(** The iterator walks the keys; [lease] is read again at each of them. *)
Fixpoint DeleteMacInLease_loop (keys : list Z) (lease : BindingPtr) : M PoolState unit :=
  match keys with
  | [] => ret tt
  | k :: keys' =>
      let* binding := load (LeasePtr k) in
      let* l := load lease in
      when (truthy (AddrEquels (chaddr binding) (chaddr l) MAC_ADDR_LENGTH))
        (modify (fun s => set_leases (delete k (leases s)) s)) ;;
      DeleteMacInLease_loop keys' lease
  end.

Definition DeleteMacInLease (lease : option BindingPtr) : M PoolState Z :=
  match lease with
  | None => ret RET_ERROR
  | Some p =>
      let* m := get leases in
      DeleteMacInLease_loop (map fst (in_order m)) p ;; ret RET_SUCCESS
  end.

(** * Distribution *)

(** [IsExpire] on an element. *)
Definition IsExpire_at (p : BindingPtr) : M PoolState Z :=
  let* b := load p in
  let* curr := Tmspsec in
  let (r, b') := IsExpire curr b in
  update p (fun _ => b') ;; ret r.

(** [lease->pendingTime = Tmspsec(); lease->bindingTime = lease->pendingTime]. *)
Definition touch (p : BindingPtr) : M PoolState unit :=
  let* t := Tmspsec in
  update p (set_pendingTime t) ;; update p (fun b => set_bindingTime (pendingTime b) b).

Definition CheckIpAvailability (macAddr : bytes) (distIp : Z) : M PoolState Z :=
  let* reserved := IsReserved macAddr in
  if truthy reserved then ret DHCP_FALSE
  else
    let* lease := GetLease distIp in
    match lease with
    | None => ret DHCP_TRUE
    | Some p =>
        let* l := load p in
        let same := truthy (AddrEquels (chaddr l) macAddr MAC_ADDR_LENGTH) in
        let* pl := get pool in
        if (distIp =? serverId pl) || (distIp =? gateway pl) then ret DHCP_FALSE
        else if (bindingMode l =? BIND_MODE_STATIC) && negb same then ret DHCP_FALSE
        else
          let* reservedIp := IsReservedIp distIp in
          if truthy reservedIp && negb same then ret DHCP_FALSE
          else if same then touch p ;; ret DHCP_TRUE
          else
            let* expired := IsExpire_at p in
            if truthy expired then
              touch p ;;
              let* l := load p in
              RemoveBinding (chaddr l) ;;
              update p (fun b => set_chaddr (snd (memcpy_s (chaddr b) DHCP_HWADDR_LENGTH macAddr MAC_ADDR_LENGTH)) b) ;;
              ret DHCP_TRUE
            else ret DHCP_FALSE
    end.

(** Returns the code and the new value of [*outOfRange]. *)
Definition CheckRangeAvailability (macAddr : bytes) (distIp outOfRange : Z) : M PoolState (Z * Z) :=
  let* pl := get pool in
  if (beginAddress pl =? 0) || (endAddress pl =? 0) then ret (RET_ERROR, outOfRange)
  else if (netmask pl =? 0) || truthy (IsEmptyHWAddr macAddr) then ret (RET_ERROR, outOfRange)
  else if truthy (IpInRange distIp (beginAddress pl) (endAddress pl) (netmask pl)) then
    let* t := Tmspsec in
    let lease := set_chaddr (snd (memcpy_s (zeros 16) 16 macAddr MAC_ADDR_LENGTH))
      (set_leaseTime (pool_leaseTime pl) (set_bindingTime t (set_ipAddress distIp
        (set_bindingMode BIND_PENDING (set_pendingTime t zero_binding))))) in
    let* r := AddLease lease in
    if negb (r =? RET_SUCCESS) then ret (RET_ERROR, outOfRange) else ret (RET_SUCCESS, outOfRange)
  else if truthy outOfRange then ret (RET_FAILED, outOfRange)
  else ret (RET_FAILED, 1).

Definition NextIpOffset (mask : Z) : M PoolState Z :=
  let* mode := get distributeMode in
  if truthy mode && truthy mask then
    let total := HostTotal mask in
    if truthy total then let* t := Tmspusec in ret (u32 (t mod total)) else ret 0
  else ret 0.

(** The loop with [i] iterations done and [n] to go; the result is [distSucess]
    and the last [distIp]. *)
Fixpoint AddressDistribute_loop (n : nat) (first_iteration : bool) (macAddr : bytes)
    (distIp outOfRange : Z) : M PoolState (bool * Z) :=
  match n with
  | O => ret (false, distIp)
  | S n' =>
      let* mask := get (fun s => netmask (pool s)) in
      let* offset := (if first_iteration then NextIpOffset mask else ret 0) in
      let distIp := NextIpAddress distIp mask offset in
      let* available := CheckIpAvailability macAddr distIp in
      if negb (truthy available) then AddressDistribute_loop n' false macAddr distIp outOfRange
      else
        let* '(r, outOfRange) := CheckRangeAvailability macAddr distIp outOfRange in
        if r =? RET_ERROR then ret (false, distIp)
        else if r =? RET_SUCCESS then ret (true, distIp)
        else AddressDistribute_loop n' false macAddr distIp outOfRange
  end.

Definition AddressDistribute (macAddr : bytes) : M PoolState Z :=
  let* pl := get pool in
  if (beginAddress pl =? 0) || (endAddress pl =? 0) then ret 0
  else if (netmask pl =? 0) || truthy (IsEmptyHWAddr macAddr) then ret 0
  else
    when (distribution pl =? 0) (modify (fun s => set_pool (set_distribution (beginAddress pl) (pool s)) s)) ;;
    let total := HostTotal (netmask pl) in
    let* d := get (fun s => distribution (pool s)) in
    let distIp := if (d =? 0) || (d <? beginAddress pl) then beginAddress pl else d in
    let* '(distSucess, distIp) := AddressDistribute_loop (Z.to_nat total) true macAddr distIp 0 in
    if negb distSucess || (distIp =? 0) then ret 0
    else modify (fun s => set_pool (set_distribution distIp (pool s)) s) ;; ret distIp.

Definition SetDistributeMode (mode : Z) : M PoolState unit :=
  modify (fun s => mkState (bindingRecoders s) mode (lastTime s) (ticks s) (files s) (pool s)).
Definition GetDistributeMode : M PoolState Z := get distributeMode.

(** * Life cycle *)

(** Allocation of the sentinel of the option list succeeds; a name of 50 bytes
    or more is refused after the structure was cleared. *)
Definition InitAddressPool (ifname : bytes) : M PoolState Z :=
  modify (set_pool zero_pool) ;;
  if IFACE_NAME_SIZE <=? Z.of_nat (length ifname) then ret RET_ERROR
  else
    modify (fun s => set_pool (set_pool_ifname ifname (pool s)) s) ;;
    modify (set_bindings ∅) ;;
    modify (set_leases ∅) ;;
    ret RET_SUCCESS.

Definition FreeAddressPool : M PoolState unit :=
  modify (fun s => set_pool (set_fixedOptions [] (pool s)) s) ;;
  modify (set_leases ∅).

(** * The lease file *)

Definition lease_path (ifname : bytes) : bytes := DHCPD_LEASE_FILE ++ dot :: ifname.

(** One line of the file: trimmed, parsed, and entered when its address is in
    the range of the pool. *)
Definition load_line (line : bytes) : M PoolState unit :=
  let* buf := from_option (TrimString (line ++ [0])) in
  let text := c_str buf in
  if bool_decide (text = []) then ret tt
  else
    let* curr := Tmspsec in
    let* '(r, bind) := from_option (ParseAddressBinding curr zero_binding text) in
    if negb (r =? 0) then ret tt
    else
      let* pl := get pool in
      when (truthy (IpInRange (ipAddress bind) (beginAddress pl) (endAddress pl) (netmask pl)))
        (modify (fun s => set_leases (<[ipAddress bind := bind]> (leases s)) s)).

Fixpoint load_lines (fuel : nat) (file : bytes) : M PoolState unit :=
  match fuel with
  | O => ret tt
  | S fuel' =>
      match file with
      | [] => ret tt
      | _ => let (line, rest) := fgets (Z.to_nat DHCP_FILE_LINE_LENGTH) file in
             load_line line ;; load_lines fuel' rest
      end
  end.

Definition LoadBindingRecoders : M PoolState Z :=
  let* pl := get pool in
  let filePath := lease_path (pool_ifname pl) in
  if DHCP_LEASE_FILE_LENGTH - 1 <? Z.of_nat (length filePath) then ret RET_FAILED
  else if negb (IsValidPath realpath filePath) then ret RET_FAILED
  else
    let* fs := get files in
    match fs !! filePath with
    | None => ret RET_FAILED
    | Some file => load_lines (S (length file)) file ;; ret RET_SUCCESS
    end.

(** The text written for the elements in order; an element that does not fit
    the line buffer is skipped. *)
Fixpoint save_lines (ls : list (Z * AddressBinding)) : option bytes :=
  match ls with
  | [] => Some []
  | (_, b) :: ls' =>
      '(r, out) ← WriteAddressBinding b DHCP_FILE_LINE_LENGTH;
      rest ← save_lines ls';
      Some (match out with
            | Some line => if r =? RET_SUCCESS then line ++ newline :: rest else rest
            | None => rest
            end)
  end.

Definition SaveBindingRecoders (force : Z) : M PoolState Z :=
  let* currTime := Tmspsec in
  let* last := get lastTime in
  if (force =? 0) && (currTime <? u64 (last + DHCP_REFRESH_LEASE_FILE_INTERVAL)) then ret RET_WAIT_SAVE
  else
    let* pl := get pool in
    let filePath := lease_path (pool_ifname pl) in
    if DHCP_LEASE_FILE_LENGTH - 1 <? Z.of_nat (length filePath) then ret RET_FAILED
    else if negb (IsValidPath realpath filePath) then ret RET_FAILED
    else if negb (fopen_w filePath) then ret RET_FAILED
    else
      let* text := from_option (save_lines (in_order (leaseTable pl))) in
      modify (fun s => set_files (<[filePath := text]> (files s)) s) ;;
      modify (set_lastTime currTime) ;;
      ret RET_SUCCESS.

End Pool.

(** * Properties of the search *)

Section Pool_proofs.
Context {PF : Platform} {IT : InetText}.

Definition same (l : AddressBinding) (mac : bytes) : bool :=
  truthy (AddrEquels (chaddr l) mac MAC_ADDR_LENGTH).

(** The lease may be given to [mac] between two readings of the clock: it is
    the client's own, or it has expired at some reading. *)
Definition grantable (mac : bytes) (n0 n1 : nat) (l : AddressBinding) : Prop :=
  same l mac = true \/ exists n, (n0 <= n < n1)%nat /\ expiry l < sec n.

Lemma grantable_mono mac n0 n1 n2 l : (n1 <= n2)%nat -> grantable mac n0 n1 l -> grantable mac n0 n2 l.
Proof. intros Hn [H|(n & H1 & H2)]; [by left|]. right. exists n. split; [lia|done]. Qed.

(** How the search may change a lease it passes. *)
Definition passed (mac : bytes) (n0 n1 : nat) (o o' : option AddressBinding) : Prop :=
  match o, o' with
  | None, None => True
  | Some l, Some l' =>
      ipAddress l' = ipAddress l /\ (l' = l \/ grantable mac n0 n1 l)
  | _, _ => False
  end.

(** The states of a search for [mac] begun in [s0]. *)
Record searching (mac : bytes) (s0 s : PoolState) : Prop := {
  srch_pool : pool s = set_leaseTable (leases s) (pool s0);
  srch_mode : distributeMode s = distributeMode s0;
  srch_files : files s = files s0 /\ lastTime s = lastTime s0;
  srch_ticks : (ticks s0 <= ticks s)%nat;
  srch_leases : forall ip, passed mac (ticks s0) (ticks s) (leases s0 !! ip) (leases s !! ip);
  srch_bindings : bindingRecoders s ⊆ bindingRecoders s0
}.

Lemma passed_mono mac n0 n1 n2 o o' : (n1 <= n2)%nat -> passed mac n0 n1 o o' -> passed mac n0 n2 o o'.
Proof.
  intros Hn. destruct o as [l|], o' as [l'|]; cbn; try done. intros [H1 [H2|H2]]; split; auto.
  right. by eapply grantable_mono.
Qed.

Lemma searching_refl mac s : searching mac s s.
Proof.
  split; try done; try lia.
  - by destruct s as [? ? ? ? ? []].
  - intros ip. destruct (leases s !! ip); cbn; auto.
Qed.

(** Reading the clock. *)
Lemma searching_tick mac s0 s n : (ticks s <= n)%nat -> searching mac s0 s -> searching mac s0 (set_ticks n s).
Proof.
  intros Hn [H1 H2 H3 H4 H5 H6]. split; try done; cbn; [lia|].
  intros ip. eapply passed_mono; [exact Hn|apply H5].
Qed.

Lemma leases_set_leases m s : leases (set_leases m s) = m.
Proof. done. Qed.

Lemma searching_put mac s0 s ip l' :
  searching mac s0 s -> passed mac (ticks s0) (ticks s) (leases s0 !! ip) (Some l') ->
  searching mac s0 (set_leases (<[ip := l']> (leases s)) s).
Proof.
  intros [H1 H2 H3 H4 H5 H6] Hp. split; try done.
  - unfold set_leases, set_pool. cbn. rewrite H1. done.
  - intros k. rewrite leases_set_leases. destruct (decide (k = ip)) as [->|Hne].
    + by rewrite lookup_insert_eq.
    + rewrite lookup_insert_ne by done. apply H5.
Qed.

Lemma searching_unbind mac s0 s h : searching mac s0 s ->
  searching mac s0 (set_bindings (delete h (bindingRecoders s)) s).
Proof.
  intros [H1 H2 H3 H4 H5 H6]. split; try done. cbn.
  etransitivity; [apply delete_subseteq|done].
Qed.

Lemma wp_Tmspsec Q s : Q (sec (ticks s)) (set_ticks (S (ticks s)) s) -> wp Tmspsec Q s.
Proof. done. Qed.

Lemma wp_load_at p Q s b : deref p s = Some b -> Q b s -> wp (load p) Q s.
Proof. unfold wp, load. by intros ->. Qed.

Lemma wp_update_at p f Q s b : deref p s = Some b -> Q tt (assign p (f b) s) -> wp (update p f) Q s.
Proof. unfold wp, update. by intros ->. Qed.

Lemma deref_assign p b s : deref p (assign p b s) = Some b.
Proof. destruct p; cbn; apply lookup_insert_eq. Qed.

Lemma assign_assign_lease ip b b' s :
  assign (LeasePtr ip) b' (assign (LeasePtr ip) b s) = assign (LeasePtr ip) b' s.
Proof.
  cbn. unfold set_leases, set_pool. cbn. rewrite insert_insert_eq.
  by unfold set_leaseTable.
Qed.

Definition touched (t : Z) (b : AddressBinding) : AddressBinding :=
  set_bindingTime t (set_pendingTime t b).

Lemma wp_touch ip Q s l : leases s !! ip = Some l ->
  Q tt (assign (LeasePtr ip) (touched (sec (ticks s)) l) (set_ticks (S (ticks s)) s)) ->
  wp (touch (LeasePtr ip)) Q s.
Proof.
  intros Hl HQ. unfold touch. apply wp_bind, wp_Tmspsec, wp_bind.
  eapply wp_update_at; [exact Hl|]. eapply wp_update_at; [apply deref_assign|].
  rewrite assign_assign_lease. exact HQ.
Qed.

Lemma wp_IsExpire_at ip Q s l : leases s !! ip = Some l ->
  let s' := set_ticks (S (ticks s)) s in
  (expiry l < sec (ticks s) -> Q DHCP_TRUE (assign (LeasePtr ip) (set_bindingStatus BIND_EXPIRED l) s')) ->
  (sec (ticks s) <= expiry l -> Q DHCP_FALSE (assign (LeasePtr ip) l s')) ->
  wp (IsExpire_at (LeasePtr ip)) Q s.
Proof.
  intros Hl s' H1 H2. unfold IsExpire_at. apply wp_bind. eapply wp_load_at; [exact Hl|].
  apply wp_bind, wp_Tmspsec. unfold IsExpire.
  destruct (sec (ticks s) >? expiry l) eqn:E; btauto_hyps; apply wp_bind;
    (eapply wp_update_at; [exact Hl|]); apply wp_ret; [by apply H1|by apply H2].
Qed.

Lemma truthy_bool z : (z = DHCP_TRUE \/ z = DHCP_FALSE) -> truthy z = true -> z = DHCP_TRUE.
Proof. by intros [-> | ->]. Qed.

Lemma same_refl_take mac l : (6 <= length mac)%nat ->
  same (set_chaddr (take 6 mac ++ drop 6 (chaddr l)) l) mac = true.
Proof.
  intros Hm. unfold same. cbn [chaddr set_chaddr].
  assert (E : AddrEquels (take 6 mac ++ drop 6 (chaddr l)) mac MAC_ADDR_LENGTH = DHCP_TRUE).
  { apply AddrEquels_spec. intros i Hi. unfold byte_at. rewrite app_nth1 by (rewrite length_take; lia).
    rewrite <- (take_drop 6 mac) at 2. rewrite app_nth1; [done|rewrite length_take; lia]. }
  by rewrite E.
Qed.

Lemma same_touched t l mac : same (touched t l) mac = same l mac.
Proof. done. Qed.

(** What a positive answer promises: there was no lease, or it is granted. *)
Definition free_for (mac : bytes) (n0 n1 : nat) (o : option AddressBinding) : Prop :=
  match o with None => True | Some l => grantable mac n0 n1 l end.

Lemma free_for_mono mac n0 n1 n2 o : (n1 <= n2)%nat -> free_for mac n0 n1 o -> free_for mac n0 n2 o.
Proof. intros Hn. destruct o; cbn; [by apply grantable_mono|done]. Qed.

(** A lease met as its client's own, or as expired, was grantable already. *)
Lemma passed_own mac n0 n1 l l' :
  passed mac n0 n1 (Some l) (Some l') -> same l' mac = true -> grantable mac n0 n1 l.
Proof. intros [_ [-> |Hg]] Hs; [by left|done]. Qed.

Lemma passed_expired mac n0 n1 n l l' :
  passed mac n0 n1 (Some l) (Some l') -> (n0 <= n < n1)%nat -> expiry l' < sec n ->
  grantable mac n0 n1 l.
Proof. intros [_ [-> |Hg]] Hn He; [|done]. right. by exists n. Qed.

Lemma passed_step mac n0 n1 l l' l'' :
  passed mac n0 n1 (Some l) (Some l') -> grantable mac n0 n1 l ->
  ipAddress l'' = ipAddress l' -> passed mac n0 n1 (Some l) (Some l'').
Proof. intros [Hip _] Hg Hip'. split; [congruence|]. by right. Qed.

Lemma searching_lease mac s0 s ip l' : searching mac s0 s -> leases s !! ip = Some l' ->
  exists l, leases s0 !! ip = Some l /\ passed mac (ticks s0) (ticks s) (Some l) (Some l').
Proof.
  intros H Hl. pose proof (srch_leases _ _ _ H ip) as Hp. rewrite Hl in Hp.
  destruct (leases s0 !! ip) as [l|]; [by exists l|done].
Qed.

(** The branch of an expired lease: it is stamped, its client's binding is
    dropped and it is given to the new client. *)
Lemma take_over_spec mac s0 s ip l l1 :
  searching mac s0 s -> leases s0 !! ip = Some l -> leases s !! ip = Some l1 ->
  grantable mac (ticks s0) (ticks s) l -> ipAddress l1 = ipAddress l ->
  wp (touch (LeasePtr ip) ;;
      let* l := load (LeasePtr ip) in
      RemoveBinding (chaddr l) ;;
      update (LeasePtr ip) (fun b => set_chaddr (snd (memcpy_s (chaddr b) DHCP_HWADDR_LENGTH mac MAC_ADDR_LENGTH)) b) ;;
      ret DHCP_TRUE)
    (fun r s' => searching mac s0 s' /\
       (truthy r = true -> free_for mac (ticks s0) (ticks s') (leases s0 !! ip))) s.
Proof.
  intros Hs Hl Hl1 Hg Hip. apply wp_bind. eapply wp_touch; [exact Hl1|].
  set (n := S (ticks s)). set (l2 := touched (sec (ticks s)) l1).
  apply wp_bind. eapply wp_load_at; [apply deref_assign|]. apply wp_bind.
  set (s2 := assign (LeasePtr ip) l2 (set_ticks n s)).
  apply wp_mono with (Q := fun _ s3 => leases s3 = leases s2 /\
    (s3 = s2 \/ s3 = set_bindings (delete (macAddrHash (chaddr l2)) (bindingRecoders s2)) s2)).
  { unfold RemoveBinding. apply wp_bind, wp_get.
    destruct (bindingRecoders s2 !! macAddrHash (chaddr l2)).
    - apply wp_bind, wp_modify, wp_ret. split; [done|by right].
    - apply wp_ret. split; [done|by left]. }
  intros _ s3 [E3 Hs3]. apply wp_bind.
  assert (Hd : deref (LeasePtr ip) s3 = Some l2).
  { cbn. rewrite E3. apply lookup_insert_eq. }
  eapply wp_update_at; [exact Hd|]. apply wp_ret.
  set (l3 := set_chaddr _ l2).
  assert (Hg' : grantable mac (ticks s0) n l) by (eapply grantable_mono; [|exact Hg]; unfold n; lia).
  assert (Hpass3 : passed mac (ticks s0) n (Some l) (Some l3)) by (split; [done|by right]).
  assert (Heq : exists m, m ⊆ bindingRecoders s /\ 
    assign (LeasePtr ip) l3 s3 = set_bindings m (set_leases (<[ip := l3]> (leases s)) (set_ticks n s))).
  { destruct Hs3 as [-> | ->].
    - exists (bindingRecoders s). split; [done|]. unfold s2. rewrite assign_assign_lease. done.
    - exists (delete (macAddrHash (chaddr l2)) (bindingRecoders s)). split; [apply delete_subseteq|].
      cbn. unfold set_leases, set_pool, set_bindings. cbn. by rewrite insert_insert_eq. }
  destruct Heq as (m & Hm & ->).
  assert (Hs4 : searching mac s0 (set_leases (<[ip := l3]> (leases s)) (set_ticks n s))).
  { apply (searching_put mac s0 (set_ticks n s)).
    - apply searching_tick; [unfold n; lia|done].
    - by rewrite Hl. }
  split; [|intros _; rewrite Hl; exact Hg'].
  destruct Hs4 as [A1 A2 A3 A4 A5 A6]. split; try done. cbn.
  etransitivity; [exact Hm|apply Hs].
Qed.

Lemma set_leases_insert_id ip l s : leases s !! ip = Some l -> assign (LeasePtr ip) l s = s.
Proof.
  intros H. cbn. unfold set_leases, set_pool, set_leaseTable. rewrite insert_id by done.
  by destruct s as [? ? ? ? ? []].
Qed.

Lemma CheckIpAvailability_spec mac s0 s ip : searching mac s0 s ->
  wp (CheckIpAvailability mac ip)
    (fun r s' => searching mac s0 s' /\
       (truthy r = true -> ip <> 0 -> free_for mac (ticks s0) (ticks s') (leases s0 !! ip))) s.
Proof.
  intros Hs. unfold CheckIpAvailability. apply wp_bind, wp_get.
  apply wp_if; intros _; [by apply wp_ret|]. apply wp_bind. unfold GetLease.
  apply wp_if; intros E0.
  { apply wp_ret, wp_ret. split; [done|]. intros _ H. by apply Z.eqb_eq in E0. }
  apply wp_get. destruct (leases s !! ip) as [l'|] eqn:El'.
  2: { apply wp_ret. split; [done|]. intros _ _. pose proof (srch_leases _ _ _ Hs ip) as Hp.
       rewrite El' in Hp. by destruct (leases s0 !! ip). }
  destruct (searching_lease _ _ _ _ _ Hs El') as (l & El & Hpass).
  apply wp_bind. eapply wp_load_at; [exact El'|]. apply wp_bind, wp_get. fold (same l' mac).
  apply wp_if; intros _; [by apply wp_ret|]. apply wp_if; intros _; [by apply wp_ret|].
  apply wp_bind. apply wp_mono with (Q := fun _ s' => s' = s).
  { unfold IsReservedIp. rewrite E0. by apply wp_get. }
  intros r _ ->. apply wp_if; intros _; [by apply wp_ret|].
  apply wp_if; intros Esame.
  - pose proof (passed_own _ _ _ _ _ Hpass Esame) as Hg.
    apply wp_bind. eapply wp_touch; [exact El'|]. apply wp_ret. cbn [assign].
    assert (Hg' : grantable mac (ticks s0) (S (ticks s)) l) by (eapply grantable_mono; [|exact Hg]; lia).
    split; [|intros _ _; by rewrite El].
    apply (searching_put mac s0 (set_ticks (S (ticks s)) s)); [apply searching_tick; [lia|done]|].
    rewrite El. split; [apply Hpass|]. by right.
  - apply wp_bind. eapply wp_IsExpire_at; [exact El'| |].
    + intros Hexp. set (s1 := assign _ _ _).
      assert (Hg : grantable mac (ticks s0) (S (ticks s)) l).
      { apply (passed_expired _ _ _ (ticks s) l l').
        - eapply passed_mono; [|exact Hpass]. lia.
        - pose proof (srch_ticks _ _ _ Hs). lia.
        - done. }
      change (truthy DHCP_TRUE) with true. cbv iota.
      eapply wp_mono; [apply (take_over_spec mac s0 s1 ip l (set_bindingStatus BIND_EXPIRED l'))|].
      * apply (searching_put mac s0 (set_ticks (S (ticks s)) s)); [apply searching_tick; [lia|done]|].
        rewrite El. split; [apply Hpass|by right].
      * done.
      * apply lookup_insert_eq.
      * exact Hg.
      * apply Hpass.
      * intros r' s' [H1 H2]. split; [done|]. intros Hr _. by apply H2.
    + intros _. apply wp_ret. split; [|done].
      rewrite set_leases_insert_id by done. apply searching_tick; [lia|done].
Qed.

(** A successful search: the address is in the pool, was free for the client,
    and its lease is now a fresh one of the client; the other leases were at
    most passed, and only bindings were dropped. *)
Record granted (mac : bytes) (s0 : PoolState) (ip : Z) (s : PoolState) : Prop := {
  grt_range : IpInRange ip (beginAddress (pool s0)) (endAddress (pool s0)) (netmask (pool s0)) = DHCP_TRUE;
  grt_ip : ip <> 0;
  grt_free : free_for mac (ticks s0) (ticks s) (leases s0 !! ip);
  grt_lease : exists t l, leases s !! ip = Some l /\
    l = mkBinding ip (take 6 mac ++ zeros 10) 0 t t 0 (pool_leaseTime (pool s0)) 0 BIND_NONE BIND_PENDING
          (zeros 64) (zeros 64) (zeros 64) false 0;
  grt_others : forall ip', ip' <> ip -> passed mac (ticks s0) (ticks s) (leases s0 !! ip') (leases s !! ip');
  grt_pool : pool s = set_distribution (distribution (pool s)) (set_leaseTable (leases s) (pool s0));
  grt_static : distributeMode s = distributeMode s0 /\ files s = files s0 /\ lastTime s = lastTime s0;
  grt_ticks : (ticks s0 <= ticks s)%nat;
  grt_bindings : bindingRecoders s ⊆ bindingRecoders s0
}.

Lemma set_distribution_id p : set_distribution (distribution p) p = p.
Proof. by destruct p. Qed.

Lemma CheckRangeAvailability_spec mac s0 s ip oor :
  searching mac s0 s -> (ip <> 0 -> free_for mac (ticks s0) (ticks s) (leases s0 !! ip)) ->
  wp (CheckRangeAvailability mac ip oor)
    (fun '(r, _) s' => if r =? RET_SUCCESS then granted mac s0 ip s' else searching mac s0 s') s.
Proof.
  intros Hs Hfree. unfold CheckRangeAvailability. apply wp_bind, wp_get.
  apply wp_if; intros E1; [by apply wp_ret|]. apply wp_if; intros E2; [by apply wp_ret|].
  apply wp_if; intros E3; [|apply wp_if; intros _; by apply wp_ret].
  apply wp_bind, wp_Tmspsec. apply wp_bind. set (lease := set_chaddr _ _).
  set (s1 := set_ticks (S (ticks s)) s).
  assert (Hs1 : searching mac s0 s1) by (apply searching_tick; [lia|done]).
  unfold AddLease. apply wp_if; intros E4.
  { apply wp_ret. cbn. by apply wp_ret. }
  assert (Hip : ip <> 0).
  { unfold bad_lease in E4. apply orb_false_elim in E4 as [E4 _]. by apply Z.eqb_neq in E4. }
  apply wp_bind, wp_get.
  assert (Hput : wp (put_lease lease ;; ret RET_SUCCESS) (fun r s' => r = RET_SUCCESS /\ granted mac s0 ip s') s1).
  2: { match goal with |- wp (if ?b then _ else _) _ _ => destruct b end;
       (eapply wp_mono; [exact Hput|]); intros r s' [-> Hg]; by apply wp_ret. }
  unfold put_lease. apply wp_bind, wp_modify, wp_ret. split; [done|].
  change (ipAddress lease) with ip.
  destruct Hs1 as [A1 A2 [A3 A3'] A4 A5 A6]. split; try done.
  - apply truthy_bool in E3; [|apply IpInRange_bool]. revert E3.
    by rewrite (srch_pool _ _ _ Hs).
  - eapply free_for_mono; [|apply Hfree, Hip]. cbn. lia.
  - exists (sec (ticks s)), lease. rewrite leases_set_leases, lookup_insert_eq. split; [done|].
    unfold lease, set_chaddr, memcpy_s. cbn -[zeros]. by rewrite (srch_pool _ _ _ Hs).
  - intros ip' Hne. rewrite leases_set_leases, lookup_insert_ne by done. apply A5.
  - unfold set_leases, set_pool. cbn. cbn in A1. by rewrite A1.
Qed.

Lemma NextIpOffset_spec mac s0 s m : searching mac s0 s ->
  wp (NextIpOffset m) (fun _ s' => searching mac s0 s') s.
Proof.
  intros Hs. unfold NextIpOffset. apply wp_bind, wp_get. apply wp_if; intros _; [|by apply wp_ret].
  apply wp_if; intros _; [|by apply wp_ret]. apply wp_bind. unfold Tmspusec, wp.
  apply searching_tick; [lia|done].
Qed.

Lemma AddressDistribute_loop_spec mac s0 n : forall first ip oor s, searching mac s0 s ->
  wp (AddressDistribute_loop n first mac ip oor)
    (fun '(ok, d) s' => if (ok : bool) then granted mac s0 d s' else searching mac s0 s') s.
Proof.
  induction n as [|n IH]; intros first ip oor s Hs; [by apply wp_ret|].
  cbn [AddressDistribute_loop]. apply wp_bind, wp_get, wp_bind.
  eapply wp_mono with (Q := fun _ s' => searching mac s0 s').
  { destruct first; [by apply NextIpOffset_spec|by apply wp_ret]. }
  intros off s1 Hs1. cbv zeta. apply wp_bind. set (d := NextIpAddress _ _ _).
  eapply wp_mono; [by apply CheckIpAvailability_spec|]. intros av s2 [Hs2 Hfree].
  apply wp_if; intros Eav; [by apply IH|].
  apply negb_false_iff in Eav. specialize (Hfree Eav).
  apply wp_bind. eapply wp_mono; [by apply CheckRangeAvailability_spec|].
  intros [r oor'] s3 Hr. apply wp_if; intros E1.
  { apply wp_ret. apply Z.eqb_eq in E1 as ->. exact Hr. }
  apply wp_if; intros E2.
  { apply wp_ret. by rewrite E2 in Hr. }
  rewrite E2 in Hr. by apply IH.
Qed.

(** Setting [distribution] alone. *)
Lemma granted_distribution mac s0 d s ip :
  granted mac (set_pool (set_distribution d (pool s0)) s0) ip s ->
  granted mac s0 ip (set_pool (set_distribution ip (pool s)) s).
Proof.
  intros [H1 H2 H3 H4 H5 H6 H7 H8 H9]. split; try done. cbn. rewrite H6. by destruct (pool s0).
Qed.

(** The search as a whole: a nonzero result is granted, a zero result leaves
    only passed leases. *)
Lemma AddressDistribute_spec mac s0 :
  wp (AddressDistribute mac)
    (fun r s => if r =? 0
       then (exists d, searching mac (set_pool (set_distribution d (pool s0)) s0) s)
       else granted mac s0 r s) s0.
Proof.
  assert (Hid : set_pool (set_distribution (distribution (pool s0)) (pool s0)) s0 = s0).
  { rewrite set_distribution_id. by destruct s0. }
  assert (H0 : wp (ret 0 : M PoolState Z) (fun r s => if r =? 0
       then (exists d, searching mac (set_pool (set_distribution d (pool s0)) s0) s)
       else granted mac s0 r s) s0).
  { apply wp_ret. cbn. exists (distribution (pool s0)). rewrite Hid. apply searching_refl. }
  unfold AddressDistribute. apply wp_bind, wp_get. apply wp_if; intros _; [done|].
  apply wp_if; intros _; [done|]. apply wp_bind.
  eapply wp_mono with (Q := fun _ s => exists d, s = set_pool (set_distribution d (pool s0)) s0).
  { apply wp_when; intros _; [apply wp_modify|]; [by eexists|]. exists (distribution (pool s0)). by rewrite Hid. }
  intros _ s [d ->]. cbv zeta. apply wp_bind, wp_get, wp_bind.
  eapply wp_mono; [apply AddressDistribute_loop_spec, searching_refl|].
  intros [ok ip] s Hs. destruct ok; cbn [negb orb].
  - apply granted_distribution in Hs. pose proof (grt_ip _ _ _ _ Hs) as Hip. apply Z.eqb_neq in Hip.
    rewrite Hip. apply wp_bind, wp_modify, wp_ret. by rewrite Hip.
  - apply wp_ret. cbn. by exists d.
Qed.


(** ** The sequential search finds every free address *)

Lemma walk_S m n ip : walk m (S n) ip = walk m n (NextIpAddress ip m 0).
Proof. unfold walk. by rewrite Nat.iter_succ_r. Qed.

Lemma IsEmptyHWAddr_take mac : (6 <= length mac)%nat ->
  IsEmptyHWAddr (take 6 mac ++ zeros 10) = IsEmptyHWAddr mac.
Proof.
  intros Hm. unfold IsEmptyHWAddr. change (Z.to_nat MAC_ADDR_LENGTH) with 6%nat.
  assert (E : forall i, (i < 6)%nat -> byte_at (take 6 mac ++ zeros 10) i = byte_at mac i).
  { intros i Hi. unfold byte_at. rewrite app_nth1 by (rewrite length_take; lia).
    rewrite <- (take_drop 6 mac) at 2. rewrite app_nth1; [done|rewrite length_take; lia]. }
  cbn [IsEmptyHWAddr_loop]. rewrite !E by lia. done.
Qed.

(** A pool whose configuration lets a search begin. *)
Record searchable (mac : bytes) (p : DhcpAddressPool) : Prop := {
  sch_begin : beginAddress p <> 0;
  sch_end : endAddress p <> 0;
  sch_mask : netmask p <> 0;
  sch_net : NetworkAddress (beginAddress p) (netmask p) <> 0;
  sch_mac : (6 <= length mac)%nat /\ IsEmptyHWAddr mac <> DHCP_TRUE
}.

Lemma empty_false mac : IsEmptyHWAddr mac <> DHCP_TRUE -> truthy (IsEmptyHWAddr mac) = false.
Proof.
  unfold IsEmptyHWAddr. generalize 0%nat as i. induction (Z.to_nat MAC_ADDR_LENGTH) as [|n IH]; intros i; cbn; [done|].
  destruct (negb _); [done|apply IH].
Qed.

Lemma CheckRangeAvailability_total mac s ip oor : searchable mac (pool s) ->
  let p := pool s in
  wp (CheckRangeAvailability mac ip oor) (fun '(r, _) _ =>
    r <> RET_ERROR /\
    (IpInRange ip (beginAddress p) (endAddress p) (netmask p) = DHCP_TRUE -> r = RET_SUCCESS)) s.
Proof.
  intros [H1 H2 H3 H4 [H5 H6]] p. unfold CheckRangeAvailability. apply wp_bind, wp_get. subst p.
  rewrite (proj2 (Z.eqb_neq _ _) H1), (proj2 (Z.eqb_neq _ _) H2), (proj2 (Z.eqb_neq _ _) H3). cbn [orb].
  rewrite empty_false by done. apply wp_if; intros E.
  - apply wp_bind, wp_Tmspsec, wp_bind. set (lease := set_chaddr _ _).
    assert (Hgood : bad_lease lease = false).
    { unfold bad_lease. apply orb_false_intro.
      - apply Z.eqb_neq. change (ipAddress lease) with ip. intros ->.
        apply truthy_bool, IpInRange_spec in E as [E _]; [|apply IpInRange_bool].
        apply H4. rewrite <- E. done.
      - change (chaddr lease) with (take 6 mac ++ zeros 10). rewrite IsEmptyHWAddr_take by done.
        by apply empty_false. }
    unfold AddLease. rewrite Hgood. apply wp_bind, wp_get.
    match goal with |- wp (if ?b then _ else _) _ _ => destruct b end;
      apply wp_bind, wp_modify, wp_ret; by apply wp_ret.
  - assert (Hr : forall r : Z * Z, fst r = RET_FAILED -> wp (ret r) (fun '(r, _) _ => r <> RET_ERROR /\
      (IpInRange ip (beginAddress (pool s)) (endAddress (pool s)) (netmask (pool s)) = DHCP_TRUE -> r = RET_SUCCESS)) s).
    { intros [r o] Hr. cbn in Hr. apply wp_ret. split; [by rewrite Hr|]. intros Ht. by rewrite Ht in E. }
    apply wp_if; intros _; by apply Hr.
Qed.

Definition not_reserved (mac : bytes) (s : PoolState) : Prop :=
  forall b, bindingRecoders s !! macAddrHash mac = Some b -> bindingMode b <> BIND_MODE_RESERVED.

Lemma CheckIpAvailability_free mac s ip : not_reserved mac s -> leases s !! ip = None ->
  CheckIpAvailability mac ip s = Some (DHCP_TRUE, s).
Proof.
  intros Hr Hl. unfold CheckIpAvailability, bind, IsReserved, get.
  assert (E : (match bindingRecoders s !! macAddrHash mac with
     | Some b => if bindingMode b =? BIND_MODE_RESERVED then DHCP_TRUE else DHCP_FALSE
     | None => DHCP_FALSE end) = DHCP_FALSE).
  { destruct (bindingRecoders s !! macAddrHash mac) as [b|] eqn:Eb; [|done].
    by rewrite (proj2 (Z.eqb_neq _ _) (Hr b Eb)). }
  rewrite E. cbn. unfold GetLease. destruct (ip =? 0); [done|]. unfold get. by rewrite Hl.
Qed.

Lemma searching_searchable mac s0 s : searching mac s0 s -> searchable mac (pool s0) -> searchable mac (pool s).
Proof. intros Hs [H1 H2 H3 H4 H5]. rewrite (srch_pool _ _ _ Hs). by split. Qed.

Lemma searching_not_reserved mac s0 s : searching mac s0 s -> not_reserved mac s0 -> not_reserved mac s.
Proof.
  intros Hs Hr b Hb. apply Hr. eapply lookup_weaken; [exact Hb|apply (srch_bindings _ _ _ Hs)].
Qed.

Lemma AddressDistribute_loop_finds mac s0 target n :
  searchable mac (pool s0) -> not_reserved mac s0 -> distributeMode s0 = 0 ->
  leases s0 !! target = None ->
  IpInRange target (beginAddress (pool s0)) (endAddress (pool s0)) (netmask (pool s0)) = DHCP_TRUE ->
  forall first ip oor s i, searching mac s0 s -> (1 <= i <= n)%nat ->
  walk (netmask (pool s0)) i ip = target ->
  wp (AddressDistribute_loop n first mac ip oor) (fun '(ok, _) _ => ok = true) s.
Proof.
  intros Hcfg Hres Hmode Hfree Hin. induction n as [|n IH]; intros first ip oor s i Hs Hi Hw; [lia|].
  cbn [AddressDistribute_loop]. apply wp_bind, wp_get, wp_bind.
  apply wp_mono with (Q := fun o s' => o = 0 /\ s' = s).
  { destruct first; [|by apply wp_ret]. unfold NextIpOffset. apply wp_bind, wp_get.
    rewrite (srch_mode _ _ _ Hs), Hmode. by apply wp_ret. }
  intros _ _ [-> ->]. cbv zeta.
  assert (Em : netmask (pool s) = netmask (pool s0)) by (by rewrite (srch_pool _ _ _ Hs)).
  rewrite Em. destruct i as [|i]; [lia|]. rewrite walk_S in Hw.
  set (d := NextIpAddress ip (netmask (pool s0)) 0) in *. apply wp_bind.
  destruct i as [|i].
  - cbn in Hw. rewrite Hw. eapply wp_intro.
    { apply CheckIpAvailability_free; [by eapply searching_not_reserved|].
      pose proof (srch_leases _ _ _ Hs target) as Hp. rewrite Hfree in Hp.
      by destruct (leases s !! target). }
    cbn. apply wp_bind. eapply wp_mono.
    { apply CheckRangeAvailability_total. by eapply searching_searchable. }
    rewrite (srch_pool _ _ _ Hs). cbn. intros [r o] s' [_ Hr]. specialize (Hr Hin) as ->. by apply wp_ret.
  - eapply wp_mono; [by apply CheckIpAvailability_spec|]. intros av s2 [Hs2 Hf].
    apply wp_if; intros Eav.
    { apply (IH _ _ _ _ (S i)); [done|lia|done]. }
    apply negb_false_iff in Eav. apply wp_bind. eapply wp_mono.
    { apply wp_and; [apply (CheckRangeAvailability_spec mac s0)|]; [done|by apply Hf|].
      apply CheckRangeAvailability_total. by eapply searching_searchable. }
    intros [r o] s3 [Hr [Hne _]]. rewrite (proj2 (Z.eqb_neq _ _) Hne).
    apply wp_if; intros E; [by apply wp_ret|]. rewrite E in Hr. apply (IH _ _ _ _ (S i)); [done|lia|done].
Qed.

(** Where a search starts. *)
Definition search_start (p : DhcpAddressPool) : Z :=
  if (distribution p =? 0) || (distribution p <? beginAddress p) then beginAddress p else distribution p.

Lemma AddressDistribute_finds mac s target k :
  netmask (pool s) = netmask_of k -> 1 <= k <= 31 ->
  is_u32 target -> is_u32 (search_start (pool s)) ->
  searchable mac (pool s) -> not_reserved mac s -> distributeMode s = 0 ->
  NetworkAddress (search_start (pool s)) (netmask_of k) = NetworkAddress (beginAddress (pool s)) (netmask_of k) ->
  leases s !! target = None ->
  IpInRange target (beginAddress (pool s)) (endAddress (pool s)) (netmask_of k) = DHCP_TRUE ->
  target <> NetworkAddress target (netmask_of k) -> target <> BroadCastAddress target (netmask_of k) ->
  wp (AddressDistribute mac) (fun r _ => r <> 0) s.
Proof.
  intros Em Hk Ht Hstart Hcfg Hres Hmode Hnet Hfree Hin Hn Hb.
  pose proof (sch_begin _ _ Hcfg) as Hbeg. pose proof (sch_mac _ _ Hcfg) as [Hl Hmac].
  unfold AddressDistribute. apply wp_bind, wp_get.
  rewrite (proj2 (Z.eqb_neq _ _) Hbeg), (proj2 (Z.eqb_neq _ _) (sch_end _ _ Hcfg)),
    (proj2 (Z.eqb_neq _ _) (sch_mask _ _ Hcfg)), empty_false by done. cbn [orb].
  apply wp_bind. set (d0 := if distribution (pool s) =? 0 then beginAddress (pool s) else distribution (pool s)).
  set (s0 := set_pool (set_distribution d0 (pool s)) s).
  apply wp_mono with (Q := fun _ s' => s' = s0).
  { unfold s0, d0. apply wp_when; intros ->; [by apply wp_modify|].
    rewrite set_distribution_id. by destruct s. }
  intros _ _ ->. cbv zeta. apply wp_bind, wp_get. cbn [s0 pool set_pool distribution set_distribution].
  assert (Estart : (if (d0 =? 0) || (d0 <? beginAddress (pool s)) then beginAddress (pool s) else d0) =
    search_start (pool s)).
  { unfold d0, search_start. destruct (distribution (pool s) =? 0) eqn:E.
    - destruct ((_ =? 0) || _); done.
    - by rewrite E. }
  rewrite Estart. apply wp_bind.
  apply IpInRange_spec in Hin as Hin'. destruct Hin' as (Hin1 & _).
  destruct (walk_enumerates (search_start (pool s)) target k) as (i & Hi1 & Hi2 & Hw); [done..|congruence|done|done|].
  eapply wp_mono.
  { apply wp_and.
    - apply (AddressDistribute_loop_spec mac s0). apply searching_refl.
    - apply (AddressDistribute_loop_finds mac s0 target _ ) with (i := i); try done.
      + by destruct Hcfg.
      + by rewrite <- Em in Hin.
      + apply searching_refl.
      + rewrite Em. split; [done|]. lia.
      + cbn. by rewrite Em. }
  intros [ok d] s' [Hg ->]. cbn [negb orb]. apply grt_ip, Z.eqb_neq in Hg as Hd. rewrite Hd.
  apply wp_bind, wp_modify, wp_ret. by apply Z.eqb_neq.
Qed.

(** ** Deleting the leases of a client *)

(** The loop, for a pointer outside the lease table. *)
Lemma DeleteMacInLease_loop_spec h b keys : forall s,
  bindingRecoders s !! h = Some b -> NoDup keys -> (forall k, k ∈ keys -> is_Some (leases s !! k)) ->
  wp (DeleteMacInLease_loop keys (BindPtr h))
    (fun _ s' => exists m, s' = set_leases m s /\
       forall k, m !! k = (if decide (k ∈ keys)
                           then l ← leases s !! k; if same l (chaddr b) then None else Some l
                           else leases s !! k)) s.
Proof.
  induction keys as [|k keys IH]; intros s Hb Hnd Hk.
  { apply wp_ret. exists (leases s). split.
    - unfold set_leases, set_pool, set_leaseTable. by destruct s as [? ? ? ? ? []].
    - intros k. by rewrite decide_False by apply not_elem_of_nil. }
  apply NoDup_cons in Hnd as [Hnk Hnd]. cbn [DeleteMacInLease_loop].
  destruct (Hk k ltac:(left)) as [l Hl].
  apply wp_bind. eapply wp_load_at; [exact Hl|]. apply wp_bind. eapply wp_load_at; [exact Hb|].
  fold (same l (chaddr b)). apply wp_bind.
  apply wp_mono with (Q := fun _ s' => s' = set_leases (if same l (chaddr b) then delete k (leases s) else leases s) s).
  { apply wp_when; intros ->; [by apply wp_modify|].
    unfold set_leases, set_pool, set_leaseTable. by destruct s as [? ? ? ? ? []]. }
  intros _ _ ->. set (m1 := if same l (chaddr b) then delete k (leases s) else leases s).
  assert (Hm1 : forall k', k' <> k -> m1 !! k' = leases s !! k').
  { intros k' Hne. unfold m1. destruct (same l (chaddr b)); [by apply lookup_delete_ne|done]. }
  eapply wp_mono; [apply IH; [done|done|]|].
  { intros k' Hk'. rewrite leases_set_leases, Hm1 by (intros ->; done). apply Hk. by right. }
  intros _ s' (m & -> & Hm). exists m. split.
  { unfold set_leases, set_pool, set_leaseTable. by destruct s as [? ? ? ? ? []]. }
  intros k'. rewrite Hm. rewrite leases_set_leases. destruct (decide (k' = k)) as [->|Hne].
  - rewrite decide_False by done. rewrite decide_True by left. rewrite Hl. cbn.
    unfold m1. destruct (same l (chaddr b)); [by apply lookup_delete_eq|done].
  - rewrite Hm1 by done. destruct (decide (k' ∈ keys)).
    + by rewrite decide_True by (by right).
    + rewrite decide_False; [done|]. intros [?|?]%elem_of_cons; done.
Qed.

Lemma in_order_perm m : in_order m ≡ₚ map_to_list m.
Proof. apply merge_sort_Permutation. Qed.

Lemma in_order_keys m k : k ∈ (in_order m).*1 <-> is_Some (m !! k).
Proof.
  rewrite in_order_perm, list_elem_of_fmap. split.
  - intros ([k' b] & -> & H). apply elem_of_map_to_list in H. by exists b.
  - intros [b H]. exists (k, b). split; [done|]. by apply elem_of_map_to_list.
Qed.

Lemma DeleteMacInLease_lemma h b s : bindingRecoders s !! h = Some b ->
  wp (DeleteMacInLease (Some (BindPtr h)))
    (fun r s' => r = RET_SUCCESS /\
       s' = set_leases (filter (fun kl => same kl.2 (chaddr b) = false) (leases s)) s) s.
Proof.
  intros Hb. unfold DeleteMacInLease. apply wp_bind, wp_get, wp_bind.
  eapply wp_mono.
  { apply (DeleteMacInLease_loop_spec h b); [done| |].
    - change (map fst) with (fmap (M := list) (@fst Z AddressBinding)). rewrite in_order_perm. apply NoDup_fst_map_to_list.
    - intros k Hk. by apply in_order_keys. }
  intros _ s' (m & -> & Hm). apply wp_ret. split; [done|]. f_equal. apply map_eq. intros k. rewrite Hm.
  rewrite map_lookup_filter. destruct (leases s !! k) as [l|] eqn:El; cbn.
  - rewrite decide_True by (apply in_order_keys; by rewrite El).
    destruct (same l (chaddr b)) eqn:E; cbn; [by rewrite option_guard_False by done|].
    by rewrite option_guard_True by done.
  - by destruct (decide _).
Qed.

(** ** The lease file *)

Definition name_of (b : AddressBinding) : bytes := default [] (name_text b).

(** A lease that the file format can carry. *)
Definition storable (b : AddressBinding) : Prop :=
  wf_binding b /\ name_text b <> None /\ no_space (name_of b) /\ no_newline (name_of b) /\
  (length (name_of b) < 64)%nat /\ (bindingTime b = 0 \/ pendingTime b <= bindingTime b).

Lemma word_digits_nl s : Forall (fun c => isdigit c = true \/ c = 45) s -> no_newline s.
Proof.
  intros H. eapply Forall_impl; [exact H|]. unfold newline.
  intros c [Hc| ->]; [apply isdigit_range in Hc; lia|lia].
Qed.

Lemma dec_u64_nl n : is_u64 n -> no_newline (dec_u64 n).
Proof.
  intros Hn. destruct (dec_u64_spec n Hn) as (_ & H2 & _). apply word_digits_nl.
  eapply Forall_impl; [exact H2|]. by left.
Qed.

Lemma dec_int_nl z : - 2 ^ 31 <= z < 2 ^ 31 -> no_newline (dec_int z).
Proof. intros Hz. destruct (dec_int_spec z Hz) as (_ & H2 & _). by apply word_digits_nl. Qed.

(** Characters of a line before its end. *)
Definition plain (c : Z) : Prop := c <> newline /\ c <> 0.

Lemma plain_range lo s : 10 < lo -> Forall (fun c => lo <= c) s -> Forall plain s.
Proof. intros Hlo H. eapply Forall_impl; [exact H|]. unfold plain, newline. cbn. lia. Qed.

Lemma plain_dec_u64 n : is_u64 n -> Forall plain (dec_u64 n).
Proof.
  intros Hn. destruct (dec_u64_spec n Hn) as (_ & H2 & _). apply (plain_range 48); [lia|].
  eapply Forall_impl; [exact H2|]. intros c Hc. apply isdigit_range in Hc. lia.
Qed.

Lemma plain_dec_int z : - 2 ^ 31 <= z < 2 ^ 31 -> Forall plain (dec_int z).
Proof.
  intros Hz. destruct (dec_int_spec z Hz) as (_ & H2 & _). apply (plain_range 45); [lia|].
  eapply Forall_impl; [exact H2|]. intros c [Hc| ->]; [apply isdigit_range in Hc|]; lia.
Qed.

Lemma mac_text_chars mac s : Forall is_u8 mac -> ParseStrMac (Some mac) DHCP_HWADDR_LENGTH = Some s ->
  Forall (fun c => 48 <= c) s.
Proof.
  intros Hm [= <-].
  assert (Hh : forall d, 0 <= d < 16 -> 48 <= hex_digit d)
    by (intros d Hd; unfold hex_digit; destruct (d <? 10); lia).
  assert (Hb : forall i, 48 <= hex_digit (byte_at mac i / 16) /\ 48 <= hex_digit (byte_at mac i mod 16)).
  { intros i. assert (0 <= byte_at mac i < 256).
    { unfold byte_at. destruct (nth_in_or_default i mac 0) as [Hin| ->]; [|lia].
      rewrite List.Forall_forall in Hm. apply (Hm _ Hin). }
    split; apply Hh; [split; [apply Z.div_pos; lia|apply Z.div_lt_upper_bound; lia]|].
    apply Z.mod_pos_bound. lia. }
  unfold hex2, colon. cbn [app].
  repeat (constructor; [first [exact (proj1 (Hb _)) | exact (proj2 (Hb _)) | lia]|]). constructor.
Qed.

Section Lease_file.
Context {L : InetTextLaws IT}.

Lemma ParseStrIp_plain ip : is_u32 ip -> Forall plain (ParseStrIp ip).
Proof.
  intros Hip. destruct (inet_ntop_total ip Hip) as [s E]. unfold ParseStrIp. rewrite E.
  apply (plain_range 46); [lia|]. destruct (inet_ntop_chars ip s E) as [Hc _].
  eapply Forall_impl; [exact Hc|]. cbn. lia.
Qed.

Lemma binding_text_plain b mac : storable b ->
  ParseStrMac (Some (chaddr b)) DHCP_HWADDR_LENGTH = Some mac ->
  Forall plain (binding_text b mac (name_of b)).
Proof.
  intros ((Hip & _ & Hcu & Hbt & Hpt & Hlt & Hpi & Hm & Hs & _) & Hname & _ & Hnl & _ & _) Hmac.
  assert (Hsp : plain space) by done.
  pose proof (plain_range 48 _ ltac:(lia) (mac_text_chars _ _ Hcu Hmac)) as H1.
  pose proof (ParseStrIp_plain _ Hip) as H2.
  pose proof (plain_dec_u64 _ Hbt). pose proof (plain_dec_u64 _ Hpt). pose proof (plain_dec_u64 _ Hlt).
  pose proof (plain_dec_u64 _ Hpi). pose proof (plain_dec_int _ Hm). pose proof (plain_dec_int _ Hs).
  assert (Forall plain (name_of b)).
  { unfold name_of in *. destruct (name_text b) as [n|] eqn:E; [|done]. cbn in *.
    apply name_text_no_nul in E. apply Forall_and. by split. }
  unfold binding_text.
  repeat first [assumption | apply Forall_app; split | apply List.Forall_cons].
Qed.

Lemma load_line_spec b mac s : storable b ->
  ParseStrMac (Some (chaddr b)) DHCP_HWADDR_LENGTH = Some mac ->
  pendingTime b <= sec (ticks s) ->
  IpInRange (ipAddress b) (beginAddress (pool s)) (endAddress (pool s)) (netmask (pool s)) = DHCP_TRUE ->
  load_line (binding_text b mac (name_of b) ++ [newline]) s =
  Some (tt, set_ticks (S (ticks s))
              (set_leases (<[ipAddress b := reloaded b (name_of b)]> (leases s)) s)).
Proof.
  intros Hst Hmac Hnow Hin. pose proof (binding_text_plain _ _ Hst Hmac) as Hplain.
  pose proof Hst as ((_ & _ & Hcu & _) & Hname & Hsp & Hnl & Hlen & Ht).
  set (text := binding_text b mac (name_of b)) in *. unfold load_line.
  assert (Hh : holds ((text ++ [newline]) ++ [0]) (text ++ [newline])).
  { split; [|by exists []]. apply Forall_app. split; [|by constructor].
    eapply Forall_impl; [exact Hplain|]. by intros c [_ Hc]. }
  assert (Hstrip : strip is_blank (text ++ [newline]) = text ++ [newline]).
  { unfold strip. rewrite drop_right_snoc. change (is_blank newline) with false. cbv iota.
    destruct (word_mac _ _ Hcu Hmac) as [[Hne _] _]. pose proof (mac_text_chars _ _ Hcu Hmac) as Hc.
    unfold text, binding_text. destruct mac as [|c mac]; [done|]. cbn [app drop_while].
    apply Forall_cons_1 in Hc as [Hc _]. cbn in Hc. unfold is_blank.
    by rewrite (proj2 (Z.eqb_neq c 32)), (proj2 (Z.eqb_neq c 9)) by lia. }
  destruct (TrimString_spec_lemma _ _ Hh) as (buf & E & Hb & _). rewrite Hstrip in Hb.
  unfold bind, from_option. rewrite E. rewrite (holds_c_str _ _ Hb).
  rewrite bool_decide_eq_false_2 by (by destruct text). unfold Tmspsec. cbn [ticks set_ticks].
  assert (En : name_text b = Some (name_of b)) by (unfold name_of; by destruct (name_text b)).
  unfold text. rewrite lease_line_roundtrip_lemma by (done || apply Hst). cbn -[reloaded].
  change (ipAddress (reloaded b (name_of b))) with (ipAddress b).
  unfold get, when. cbn -[reloaded]. rewrite Hin. cbn -[reloaded]. done.
Qed.


Definition mac_text (b : AddressBinding) : bytes :=
  default [] (ParseStrMac (Some (chaddr b)) DHCP_HWADDR_LENGTH).
Definition line_of (b : AddressBinding) : bytes := binding_text b (mac_text b) (name_of b) ++ [newline].

Lemma save_lines_spec ls : Forall (fun kb => storable kb.2) ls ->
  save_lines ls = Some (List.concat (map (fun kb => line_of kb.2) ls)).
Proof.
  induction 1 as [|[k b] ls Hst _ IH]; [done|]. cbn [save_lines map List.concat].
  cbn in Hst. pose proof Hst as (Hwf & Hname & _ & _ & Hlen & _).
  assert (En : name_text b = Some (name_of b)) by (unfold name_of; by destruct (name_text b)).
  rewrite (WriteAddressBinding_lemma b (name_of b) (mac_text b)) by done. cbn [mbind option_bind].
  rewrite IH. cbn [mbind option_bind]. unfold line_of. by rewrite <- app_assoc.
Qed.

Lemma line_of_fgets b rest : storable b ->
  fgets (Z.to_nat DHCP_FILE_LINE_LENGTH) (line_of b ++ rest) = (line_of b, rest).
Proof.
  intros Hst. pose proof Hst as (Hwf & _ & _ & _ & Hlen & _). unfold line_of. rewrite <- app_assoc.
  apply fgets_line.
  - eapply Forall_impl; [by apply (binding_text_plain b (mac_text b))|]. by intros c [Hc _].
  - assert (length (mac_text b) = 17%nat) as H17 by done.
    pose proof (length_line b (mac_text b) (name_of b) Hwf H17) as H. revert H.
    unfold line_words, binding_text. cbn [unwords]. repeat (rewrite length_app; cbn [length]).
    change (Z.to_nat DHCP_FILE_LINE_LENGTH) with 1024%nat. lia.
Qed.

Definition carried (s : PoolState) (b : AddressBinding) : Prop :=
  storable b /\ (forall n, (ticks s <= n)%nat -> pendingTime b <= sec n) /\
  IpInRange (ipAddress b) (beginAddress (pool s)) (endAddress (pool s)) (netmask (pool s)) = DHCP_TRUE.

Lemma load_lines_spec ls : forall fuel s,
  Forall (fun kb => ipAddress kb.2 = kb.1 /\ carried s kb.2) ls -> NoDup ls.*1 ->
  (length (List.concat (map (fun kb => line_of kb.2) ls)) < fuel)%nat ->
  wp (load_lines fuel (List.concat (map (fun kb => line_of kb.2) ls)))
    (fun _ s' => forall k, leases s' !! k =
       match (list_to_map ls : gmap Z AddressBinding) !! k with
       | Some b => Some (reloaded b (name_of b)) | None => leases s !! k end) s.
Proof.
  induction ls as [|[k b] ls IH]; intros fuel s Hls Hnd Hfuel;
    (destruct fuel as [|fuel]; [lia|]); cbn [load_lines map List.concat]; [by apply wp_ret|].
  apply Forall_cons in Hls as [[Hk (Hst & Hnow & Hin)] Hls]. cbn in Hk, Hst, Hnow, Hin.
  apply NoDup_cons in Hnd as [Hnk Hnd]. cbn [fst snd].
  set (rest := List.concat (map (fun kb => line_of kb.2) ls)) in *.
  pose proof (line_of_fgets b rest Hst) as Hf.
  assert (Hne : exists c t, line_of b ++ rest = c :: t).
  { destruct (line_of b ++ rest) eqn:E; [|eauto]. apply app_eq_nil in E as [E _]. unfold line_of in E.
    by apply app_eq_nil in E as [_ ?]. }
  destruct Hne as (c & t & Ene). rewrite Ene, <- Ene, Hf.
  apply wp_bind. eapply wp_intro.
  { apply load_line_spec; [done|done|by apply Hnow|done]. }
  eapply wp_mono; [apply IH; [|done|]|].
  - eapply Forall_impl; [exact Hls|]. intros [k' b'] [E (A & B & C)]. split; [done|]. split; [done|].
    split; [|done]. cbn. intros n Hn. apply B. lia.
  - cbn [map List.concat] in Hfuel. rewrite length_app in Hfuel. fold rest in Hfuel. cbn [snd] in Hfuel.
    unfold line_of in Hfuel. rewrite length_app in Hfuel. cbn [length] in Hfuel. lia.
  - cbv beta. intros _ s' Hs' k'. rewrite Hs'. cbn -[reloaded].
    destruct (decide (k' = k)) as [Ek|Hne'].
    + rewrite Ek, (not_elem_of_list_to_map_1 ls k Hnk), lookup_insert_eq.
      rewrite Hk. unfold leases. cbn -[reloaded]. by rewrite lookup_insert_eq.
    + by rewrite !lookup_insert_ne by congruence.
Qed.

(** The path of the lease file can be used. *)
Definition lease_file_ok (p : DhcpAddressPool) : Prop :=
  Z.of_nat (length (lease_path (pool_ifname p))) < DHCP_LEASE_FILE_LENGTH /\
  IsValidPath realpath (lease_path (pool_ifname p)) = true /\
  fopen_w (lease_path (pool_ifname p)) = true.

Lemma in_order_map m : (list_to_map (in_order m) : gmap Z AddressBinding) = m.
Proof.
  rewrite (list_to_map_proper (in_order m) (map_to_list m)); [apply list_to_map_to_list| |apply in_order_perm].
  rewrite in_order_perm. apply NoDup_fst_map_to_list.
Qed.

Lemma save_load_lemma s : lease_file_ok (pool s) ->
  (forall k b, leases s !! k = Some b -> ipAddress b = k /\ carried s b) ->
  wp (let* r := SaveBindingRecoders 1 in
      modify (set_leases ∅) ;; let* r' := LoadBindingRecoders in ret (r, r'))
    (fun '(r, r') s' => r = RET_SUCCESS /\ r' = RET_SUCCESS /\
       leases s' = (fun b => reloaded b (name_of b)) <$> leases s) s.
Proof.
  intros (Hlen & Hvalid & Hopen) Hls.
  assert (Hall : Forall (fun kb => ipAddress kb.2 = kb.1 /\ carried s kb.2) (in_order (leases s))).
  { rewrite in_order_perm. apply Forall_forall. intros [k b] Hkb. apply elem_of_map_to_list in Hkb. by apply Hls. }
  assert (Hlt : (DHCP_LEASE_FILE_LENGTH - 1 <? Z.of_nat (length (lease_path (pool_ifname (pool s))))) = false)
    by (apply Z.ltb_ge; lia).
  unfold SaveBindingRecoders. apply wp_bind, wp_bind, wp_Tmspsec, wp_bind, wp_get. cbn [Z.eqb andb].
  apply wp_bind, wp_get. cbn [pool set_ticks]. rewrite Hlt, Hvalid, Hopen. cbn [negb].
  apply wp_bind. rewrite save_lines_spec.
  2: { eapply Forall_impl; [exact Hall|]. by intros kb [_ [H _]]. }
  eapply wp_intro; [done|]. apply wp_bind, wp_modify, wp_bind, wp_modify, wp_ret.
  apply wp_bind, wp_modify, wp_bind. unfold LoadBindingRecoders. apply wp_bind, wp_get.
  cbn [pool set_leases set_pool set_lastTime set_files set_ticks pool_ifname set_leaseTable].
  rewrite Hlt, Hvalid. cbn [negb].
  apply wp_bind, wp_get. cbn [files set_leases set_pool set_lastTime set_files].
  rewrite lookup_insert_eq. fold (leases s).
  set (s1 := set_leases _ _). apply wp_bind. eapply wp_mono.
  - apply load_lines_spec with (s := s1).
    + eapply Forall_impl; [exact Hall|]. intros kb [E (A & B & C)]. split; [done|]. split; [done|].
      split; [|done]. cbn. intros n Hn. apply B. lia.
    + rewrite in_order_perm. apply NoDup_fst_map_to_list.
    + lia.
  - cbv beta. intros _ s' Hs'. apply wp_ret, wp_ret. split; [done|]. split; [done|].
    apply map_eq. intros k. rewrite Hs', in_order_map, lookup_fmap.
    change (leases s1) with (∅ : gmap Z AddressBinding).
    destruct (leases s !! k); [done|]. apply lookup_empty.
Qed.

End Lease_file.
End Pool_proofs.

(** * Properties *)

Section Pool_properties.
Context {PF : Platform} {IT : InetText}.

(** C9: the search never touches an erased element, and an address it returns
    is in the pool's range, had no lease or one that was the client's own or
    had expired when it was tested, and now has a fresh lease of this client;
    every other lease keeps its key and address and is unchanged unless it was
    the client's own or expired; the configuration is unchanged.  A zero result
    (no address) leaves the leases in the same relation. *)
Theorem AddressDistribute_safe mac s0 :
  wp (AddressDistribute mac)
    (fun r s => if r =? 0
       then exists d, searching mac (set_pool (set_distribution d (pool s0)) s0) s
       else granted mac s0 r s) s0.
Proof. apply AddressDistribute_spec. Qed.

(** C10: in sequential mode the search is complete: when some host address of
    the pool's network that lies in the range has no lease, a client that is
    not reserved is given an address, wherever the previous search ended. *)
Theorem AddressDistribute_complete mac s target k :
  netmask (pool s) = netmask_of k -> 1 <= k <= 31 ->
  is_u32 target -> is_u32 (search_start (pool s)) ->
  searchable mac (pool s) -> not_reserved mac s -> distributeMode s = 0 ->
  NetworkAddress (search_start (pool s)) (netmask_of k) = NetworkAddress (beginAddress (pool s)) (netmask_of k) ->
  leases s !! target = None ->
  IpInRange target (beginAddress (pool s)) (endAddress (pool s)) (netmask_of k) = DHCP_TRUE ->
  target <> NetworkAddress target (netmask_of k) -> target <> BroadCastAddress target (netmask_of k) ->
  wp (AddressDistribute mac) (fun r s' => r <> 0 /\ granted mac s r s') s.
Proof.
  intros. eapply wp_mono; [apply wp_and; [apply AddressDistribute_spec|
    apply (AddressDistribute_finds mac s target k); assumption]|].
  intros r s' [Hg Hr]. apply Z.eqb_neq in Hr as Hr'. rewrite Hr' in Hg. done.
Qed.

(** Removing the leases of a binding's client removes exactly the leases
    whose first six hardware-address bytes are those of the binding. *)
Theorem DeleteMacInLease_spec h b s : bindingRecoders s !! h = Some b ->
  wp (DeleteMacInLease (Some (BindPtr h)))
    (fun r s' => r = RET_SUCCESS /\
       s' = set_leases (filter (fun kl => same kl.2 (chaddr b) = false) (leases s)) s) s.
Proof. apply DeleteMacInLease_lemma. Qed.

End Pool_properties.

(** ** Concrete states *)

(** A platform whose clock advances by a microsecond at each reading. *)
Definition test_platform : Platform := {|
  clock := fun n => 1700000000000000 + Z.of_nat n;
  realpath := fun p => Some p;
  fopen_w := fun _ => true
|}.

(** One whose clock stands still. *)
Definition frozen_platform : Platform := {|
  clock := fun _ => 1700000000000000;
  realpath := fun p => Some p;
  fopen_w := fun _ => true
|}.

(** The address a.b.c.d in network order. *)
Definition addr (a b c d : Z) : Z := a + b * 2 ^ 8 + c * 2 ^ 16 + d * 2 ^ 24.

Definition test_mac (i : Z) : bytes := [2; 0; 0; 0; 0; i] ++ zeros 10.

(** The network 192.168.62.0 with [k] host bits, served by its first address. *)
Definition test_pool (k : Z) : DhcpAddressPool :=
  let sid := addr 192 168 62 1 in
  mkPool (str "wlan0") (netmask_of k) (FirstIpAddress sid (netmask_of k)) (LastIpAddress sid (netmask_of k))
    sid 0 21600 10800 18900 0 ∅ [].
Definition test_state (k : Z) : PoolState := mkState ∅ 0 0 0 ∅ (test_pool k).

Lemma AddressDistribute_complete_witness :
  wp (@AddressDistribute test_platform (test_mac 1))
    (fun r s' => r <> 0 /\ @granted test_platform (test_mac 1) (test_state 8) r s') (test_state 8).
Proof.
  apply (@AddressDistribute_complete test_platform (test_mac 1) (test_state 8) (addr 192 168 62 77) 8).
  all: try reflexivity.
  - lia.
  - by apply check_u32.
  - by apply check_u32.
  - split; try discriminate. split; [cbn; lia|discriminate].
  - discriminate.
  - discriminate.
  - discriminate.
Defined.

Lemma DeleteMacInLease_spec_witness :
  let s := set_bindings {[ 7 := sample_binding ]} (test_state 8) in
  wp (DeleteMacInLease (Some (BindPtr 7)))
    (fun r s' => r = RET_SUCCESS /\
       s' = set_leases (filter (fun kl => same kl.2 (chaddr sample_binding) = false) (leases s)) s) s.
Proof. apply (DeleteMacInLease_spec 7 sample_binding). apply lookup_singleton_eq. Defined.

Definition lease_state : PoolState :=
  set_leases {[ addr 192 168 62 5 := set_ipAddress (addr 192 168 62 5) sample_binding ]} (test_state 8).


(** In a network with two host addresses, where the range defaults to all
    of them, the second client is given the server's own address: the test
    against the server and the gateway is only reached for leased addresses. *)
Theorem AddressDistribute_server_address :
  fst <$> (let* a := @AddressDistribute test_platform (test_mac 1) in
           let* b := @AddressDistribute test_platform (test_mac 2) in ret (a, b)) (test_state 2) =
  Some (addr 192 168 62 2, serverId (test_pool 2)).
Proof. vm_compute. reflexivity. Qed.

(** The table of bindings is indexed by a hash of the hardware address and
    not by the address; two clients with the same hash are one client to the
    server: the second is given the record of the first. *)
Theorem macAddrHash_collision :
  let m1 := [2; 0; 0; 0; 0; 2] ++ zeros 10 in
  let m2 := [2; 0; 0; 0; 9; 235] ++ zeros 10 in
  AddrEquels m1 m2 MAC_ADDR_LENGTH = DHCP_FALSE /\ macAddrHash m1 = macAddrHash m2 /\
  fst <$> (@AddNewBinding test_platform m1 ;; QueryBinding m2) (test_state 8) =
  Some (Some (BindPtr (macAddrHash m1))).
Proof. vm_compute. done. Qed.
