(* ===== verification/Config.v ===== *)
(** The configuration file of the server
    (src/services/dhcp_server/src/dhcp_config.cpp, include/dhcp_config.h).

    A line of the file is edited in its buffer (Component CommonUtil) and then
    read as a C string; strings are byte lists without the NUL.  The option
    list is the sequence of Component OptionList. *)
From S2P Require Import Prelude AddressUtils OptionList CommonUtil DottedQuad Binding AddressPool.

Definition FILE_LINE_LEN_MAX : Z := 1024.
Definition equals_sign : Z := 61.
Definition comma : Z := 44.
Definition hash_sign : Z := 35.

Record DhcpConfig := mkConfig {
  cfg_ifname : bytes; cfg_serverId : Z; cfg_netmask : Z; cfg_gateway : Z;
  cfg_leaseTime : Z; cfg_renewalTime : Z; cfg_rebindingTime : Z;
  cfg_distribution : Z; cfg_broadcast : Z;
  cfg_begin : Z; cfg_end : Z;
  cfg_options : list DhcpOption
}.

(** A cleared structure with an initialised option list. *)
Definition zero_config : DhcpConfig := mkConfig [] 0 0 0 0 0 0 0 0 0 0 [].

Definition with_ifname v c := mkConfig v (cfg_serverId c) (cfg_netmask c) (cfg_gateway c) (cfg_leaseTime c)
  (cfg_renewalTime c) (cfg_rebindingTime c) (cfg_distribution c) (cfg_broadcast c) (cfg_begin c) (cfg_end c) (cfg_options c).
Definition with_serverId v c := mkConfig (cfg_ifname c) v (cfg_netmask c) (cfg_gateway c) (cfg_leaseTime c)
  (cfg_renewalTime c) (cfg_rebindingTime c) (cfg_distribution c) (cfg_broadcast c) (cfg_begin c) (cfg_end c) (cfg_options c).
Definition with_netmask v c := mkConfig (cfg_ifname c) (cfg_serverId c) v (cfg_gateway c) (cfg_leaseTime c)
  (cfg_renewalTime c) (cfg_rebindingTime c) (cfg_distribution c) (cfg_broadcast c) (cfg_begin c) (cfg_end c) (cfg_options c).
Definition with_gateway v c := mkConfig (cfg_ifname c) (cfg_serverId c) (cfg_netmask c) v (cfg_leaseTime c)
  (cfg_renewalTime c) (cfg_rebindingTime c) (cfg_distribution c) (cfg_broadcast c) (cfg_begin c) (cfg_end c) (cfg_options c).
Definition with_leaseTime v c := mkConfig (cfg_ifname c) (cfg_serverId c) (cfg_netmask c) (cfg_gateway c) v
  (cfg_renewalTime c) (cfg_rebindingTime c) (cfg_distribution c) (cfg_broadcast c) (cfg_begin c) (cfg_end c) (cfg_options c).
Definition with_renewalTime v c := mkConfig (cfg_ifname c) (cfg_serverId c) (cfg_netmask c) (cfg_gateway c) (cfg_leaseTime c)
  v (cfg_rebindingTime c) (cfg_distribution c) (cfg_broadcast c) (cfg_begin c) (cfg_end c) (cfg_options c).
Definition with_rebindingTime v c := mkConfig (cfg_ifname c) (cfg_serverId c) (cfg_netmask c) (cfg_gateway c) (cfg_leaseTime c)
  (cfg_renewalTime c) v (cfg_distribution c) (cfg_broadcast c) (cfg_begin c) (cfg_end c) (cfg_options c).
Definition with_distribution v c := mkConfig (cfg_ifname c) (cfg_serverId c) (cfg_netmask c) (cfg_gateway c) (cfg_leaseTime c)
  (cfg_renewalTime c) (cfg_rebindingTime c) v (cfg_broadcast c) (cfg_begin c) (cfg_end c) (cfg_options c).
Definition with_broadcast v c := mkConfig (cfg_ifname c) (cfg_serverId c) (cfg_netmask c) (cfg_gateway c) (cfg_leaseTime c)
  (cfg_renewalTime c) (cfg_rebindingTime c) (cfg_distribution c) v (cfg_begin c) (cfg_end c) (cfg_options c).
Definition with_begin v c := mkConfig (cfg_ifname c) (cfg_serverId c) (cfg_netmask c) (cfg_gateway c) (cfg_leaseTime c)
  (cfg_renewalTime c) (cfg_rebindingTime c) (cfg_distribution c) (cfg_broadcast c) v (cfg_end c) (cfg_options c).
Definition with_end v c := mkConfig (cfg_ifname c) (cfg_serverId c) (cfg_netmask c) (cfg_gateway c) (cfg_leaseTime c)
  (cfg_renewalTime c) (cfg_rebindingTime c) (cfg_distribution c) (cfg_broadcast c) (cfg_begin c) v (cfg_options c).
Definition with_options v c := mkConfig (cfg_ifname c) (cfg_serverId c) (cfg_netmask c) (cfg_gateway c) (cfg_leaseTime c)
  (cfg_renewalTime c) (cfg_rebindingTime c) (cfg_distribution c) (cfg_broadcast c) (cfg_begin c) (cfg_end c) v.

Definition is_key (pKey : bytes) (k : string) : bool := bool_decide (pKey = str k).

(** * Tokens *)

(** [strtok_r] with one delimiter: the token and the saved pointer, which is
    null when the token ends the string (as in musl, the C library of the
    system). *)
Fixpoint skip_delim (d : Z) (s : bytes) : bytes :=
  match s with c :: r => if c =? d then skip_delim d r else s | [] => [] end.
Fixpoint until_delim (d : Z) (s : bytes) : bytes * option bytes :=
  match s with
  | [] => ([], None)
  | c :: r => if c =? d then ([], Some r)
              else let (t, save) := until_delim d r in (c :: t, save)
  end.
Definition strtok_r (d : Z) (s : option bytes) : option bytes * option bytes :=
  match s with
  | None => (None, None)
  | Some s =>
      match skip_delim d s with
      | [] => (None, None)
      | s' => let (t, save) := until_delim d s' in (Some t, save)
      end
  end.

(** A null or empty string. *)
Definition no_text (s : option bytes) : bool :=
  match s with None | Some [] => true | _ => false end.

(** * The settings *)

Section Settings.
Context {IT : InetText}.

Definition SetEnableConfigInfo (cfg : DhcpConfig) (pKey : bytes) (pValue : option bytes) : Z * DhcpConfig :=
  match pValue with
  | None => (RET_FAILED, cfg)
  | Some pValue =>
      let uValue := CheckDataToUint pValue in
      if negb (uValue =? 0) && negb (uValue =? 1) then (RET_FAILED, cfg)
      else if is_key pKey "distribution" then (RET_SUCCESS, with_distribution uValue cfg)
      else if is_key pKey "broadcast" then (RET_SUCCESS, with_broadcast uValue cfg)
      else (RET_SUCCESS, cfg)
  end.

Definition SetTimeConfigInfo (cfg : DhcpConfig) (pKey : bytes) (pValue : option bytes) : Z * DhcpConfig :=
  match pValue with
  | None => (RET_FAILED, cfg)
  | Some pValue =>
      let uValue := CheckDataToUint pValue in
      if uValue =? 0 then (RET_FAILED, cfg)
      else if is_key pKey "leaseTime" then (RET_SUCCESS, with_leaseTime uValue cfg)
      else if is_key pKey "renewalTime" then (RET_SUCCESS, with_renewalTime uValue cfg)
      else if is_key pKey "rebindingTime" then (RET_SUCCESS, with_rebindingTime uValue cfg)
      else (RET_SUCCESS, cfg)
  end.

Definition SetNetConfigInfo (cfg : DhcpConfig) (pKey : bytes) (pValue : option bytes) (common : bool)
    : Z * DhcpConfig :=
  match pValue with
  | None => (RET_FAILED, cfg)
  | Some pValue =>
      let uValue := ParseIpAddr pValue in
      if uValue =? 0 then (RET_FAILED, cfg)
      else if (is_key pKey "serverId" && common) || (is_key pKey "server" && negb common)
           then (RET_SUCCESS, with_serverId uValue cfg)
      else if is_key pKey "gateway" then (RET_SUCCESS, with_gateway uValue cfg)
      else if is_key pKey "netmask" then (RET_SUCCESS, with_netmask uValue cfg)
      else (RET_SUCCESS, cfg)
  end.

Definition SetIpAddressPool (cfg : DhcpConfig) (pValue : option bytes) : Z * DhcpConfig :=
  match pValue with
  | None => (RET_FAILED, cfg)
  | Some pSrc =>
      let '(pTok, pSave) := strtok_r comma (Some pSrc) in
      match pTok, pSave with
      | Some ((_ :: _) as tok), Some ((_ :: _) as save) =>
          let begin := ParseIpAddr tok in
          if begin =? 0 then (RET_FAILED, cfg)
          else
            let cfg := with_begin begin cfg in
            let end_ := ParseIpAddr save in
            if end_ =? 0 then (RET_FAILED, cfg) else (RET_SUCCESS, with_end end_ cfg)
      | _, _ => (RET_FAILED, cfg)
      end
  end.

(** The loop over the server addresses; [None] is an address refused. *)
Fixpoint SetDnsInfo_loop (fuel : nat) (pTok pSave : option bytes) (optDns : DhcpOption)
    : option DhcpOption :=
  match fuel with
  | O => None
  | S fuel' =>
      match pTok with
      | None => Some optDns
      | Some tok =>
          let dnsAddress := ParseIpAddr tok in
          if dnsAddress =? 0 then None
          else
            let optDns := match snd (AppendAddressOption (Some optDns) dnsAddress) with
                          | Some o => o | None => optDns end in
            let '(pTok, pSave) := strtok_r comma pSave in
            SetDnsInfo_loop fuel' pTok pSave optDns
      end
  end.

Definition SetDnsInfo (cfg : DhcpConfig) (pValue : option bytes) : Z * DhcpConfig :=
  match pValue with
  | None => (RET_FAILED, cfg)
  | Some pSrc =>
      let '(pTok, pSave) := strtok_r comma (Some pSrc) in
      if no_text pTok then (RET_FAILED, cfg)
      else
        let optDns := option_of DOMAIN_NAME_SERVER_OPTION 0 [] in
        let cfg := match opts_get (cfg_options cfg) (code optDns) with
                   | Some _ => with_options (snd (opts_remove (cfg_options cfg) (code optDns))) cfg
                   | None => cfg
                   end in
        match SetDnsInfo_loop (S (length pSrc)) pTok pSave optDns with
        | None => (RET_FAILED, cfg)
        | Some optDns =>
            (RET_SUCCESS, with_options (snd (opts_push_back (cfg_options cfg) optDns)) cfg)
        end
  end.

Definition SetIfnameInfo (cfg : DhcpConfig) (pValue : option bytes) : Z * DhcpConfig :=
  match pValue with
  | None => (RET_FAILED, cfg)
  | Some v =>
      if Z.of_nat (length v) >=? IFACE_NAME_SIZE then (RET_FAILED, cfg)
      else (RET_SUCCESS, with_ifname v cfg)
  end.

Definition SetDhcpConfig (cfg : DhcpConfig) (strLine : bytes) (common : bool) : Z * DhcpConfig :=
  if bool_decide (strLine = []) then (RET_FAILED, cfg)
  else
    let '(pTok, pSave) := strtok_r equals_sign (Some strLine) in
    match pTok with
    | None => (RET_FAILED, cfg)
    | Some pTok =>
        if is_key pTok "interface" then SetIfnameInfo cfg pSave
        else if is_key pTok "dns" then SetDnsInfo cfg pSave
        else if is_key pTok "pool" then SetIpAddressPool cfg pSave
        else if ((is_key pTok "serverId" && common) || (is_key pTok "server" && negb common))
                || is_key pTok "gateway" || is_key pTok "netmask"
             then SetNetConfigInfo cfg pTok pSave common
        else if is_key pTok "leaseTime" || is_key pTok "renewalTime" || is_key pTok "rebindingTime"
             then SetTimeConfigInfo cfg pTok pSave
        else if is_key pTok "distribution" || is_key pTok "broadcast"
             then SetEnableConfigInfo cfg pTok pSave
        else (RET_SUCCESS, cfg)
    end.

(** * The file *)

(** [ifname] is null or a string; [bComm] and [bValid] are the section flags. *)
Definition interface_matches (ifname : option bytes) (strLine : bytes) : bool :=
  match ifname with
  | None | Some [] => true
  | Some n => match strstr strLine n with Some _ => true | None => false end
  end.

Fixpoint ProcessFile_loop (fuel : nat) (file : bytes) (ifname : option bytes) (bComm bValid : bool)
    (cfg : DhcpConfig) : option (Z * DhcpConfig) :=
  match fuel, file with
  | O, _ => None
  | _, [] => Some (RET_SUCCESS, cfg)
  | S fuel', _ =>
      let (line, file') := fgets (Z.to_nat FILE_LINE_LEN_MAX) file in
      if bool_decide (hash_sign ∈ c_str (line ++ [0])) || negb (bool_decide (equals_sign ∈ c_str (line ++ [0])))
      then ProcessFile_loop fuel' file' ifname bComm bValid cfg
      else
        '(ok, buf) ← RemoveSpaceCharacters (line ++ [0]) FILE_LINE_LEN_MAX;
        if negb (truthy ok) then ProcessFile_loop fuel' file' ifname bComm bValid cfg
        else
          let strLine := c_str buf in
          let is_interface := is_prefix (str "interface") strLine in
          let bComm := if is_interface then false else bComm in
          let bValid := if is_interface then interface_matches ifname strLine else bValid in
          if bValid : bool then
            let '(r, cfg) := SetDhcpConfig cfg strLine bComm in
            if negb (r =? RET_SUCCESS) then Some (RET_FAILED, cfg)
            else ProcessFile_loop fuel' file' ifname bComm bValid cfg
          else ProcessFile_loop fuel' file' ifname bComm bValid cfg
  end.

Definition ProcessFile (file : bytes) (ifname : option bytes) (cfg : DhcpConfig) : option (Z * DhcpConfig) :=
  ProcessFile_loop (S (length file)) file ifname true true cfg.

(** [read_file] gives the content of a file that [realpath] resolves and
    [fopen] opens for reading. *)
Definition ParseConfigFile (read_file : bytes -> option bytes) (configFile : bytes)
    (ifname : option bytes) (cfg : DhcpConfig) : option (Z * DhcpConfig) :=
  if bool_decide (configFile = []) then Some (RET_FAILED, cfg)
  else match read_file configFile with
       | None => Some (RET_FAILED, cfg)
       | Some file =>
           '(r, cfg) ← ProcessFile file ifname cfg;
           Some (if r =? RET_SUCCESS then RET_SUCCESS else RET_FAILED, cfg)
       end.

(** [leaseTime * 0.5] and [leaseTime * 0.875]: exact in a [double], truncated. *)
Definition CheckDhcpConfig (cfg : DhcpConfig) : Z * DhcpConfig :=
  if negb (bool_decide (cfg_ifname cfg = [])) && (cfg_serverId cfg =? 0) then (DHCP_FALSE, cfg)
  else
    let cfg := if cfg_renewalTime cfg =? 0 then with_renewalTime (cfg_leaseTime cfg / 2) cfg else cfg in
    let cfg := if cfg_rebindingTime cfg =? 0 then with_rebindingTime (cfg_leaseTime cfg * 7 / 8) cfg else cfg in
    (DHCP_TRUE, cfg).

Definition LoadConfig (read_file : bytes -> option bytes) (configFile ifname : bytes) (cfg : DhcpConfig)
    : option (Z * DhcpConfig) :=
  if bool_decide (configFile = []) || bool_decide (ifname = []) then Some (RET_FAILED, cfg)
  else
    let cfg := with_broadcast 1 (with_distribution 1 (with_leaseTime DHCP_LEASE_TIME cfg)) in
    '(r, cfg) ← ParseConfigFile read_file configFile (Some ifname) cfg;
    if negb (r =? RET_SUCCESS) then Some (RET_FAILED, cfg)
    else
      let '(ok, cfg) := CheckDhcpConfig cfg in
      if negb (truthy ok) then Some (RET_FAILED, cfg)
      else if bool_decide (cfg_ifname cfg = []) then
        let '(r, cfg) := SetIfnameInfo cfg (Some ifname) in
        if negb (r =? RET_SUCCESS) then Some (RET_FAILED, cfg) else Some (RET_SUCCESS, cfg)
      else Some (RET_SUCCESS, cfg).

End Settings.

(** * The language of the file

    A file is a list of settings, one a line; its meaning is a fold over them
    that carries the section flags. *)
Inductive setting :=
| SServerId (ip : Z)
| SServer (ip : Z)
| SNetmask (ip : Z)
| SGateway (ip : Z)
| SPool (b e : Z)
| SLeaseTime (t : Z)
| SRenewalTime (t : Z)
| SRebindingTime (t : Z)
| SDistribution (v : Z)
| SBroadcast (v : Z)
| SDns (ips : list Z)
| SInterface (name : bytes).

Section Language.
Context {IT : InetText}.

Definition key_of (s : setting) : bytes :=
  match s with
  | SServerId _ => str "serverId" | SServer _ => str "server" | SNetmask _ => str "netmask"
  | SGateway _ => str "gateway" | SPool _ _ => str "pool" | SLeaseTime _ => str "leaseTime"
  | SRenewalTime _ => str "renewalTime" | SRebindingTime _ => str "rebindingTime"
  | SDistribution _ => str "distribution" | SBroadcast _ => str "broadcast"
  | SDns _ => str "dns" | SInterface _ => str "interface"
  end.

Fixpoint comma_list (ips : list Z) : bytes :=
  match ips with
  | [] => []
  | [ip] => ParseStrIp ip
  | ip :: r => ParseStrIp ip ++ comma :: comma_list r
  end.

Definition value_of (s : setting) : bytes :=
  match s with
  | SServerId ip | SServer ip | SNetmask ip | SGateway ip => ParseStrIp ip
  | SPool b e => ParseStrIp b ++ comma :: ParseStrIp e
  | SLeaseTime t | SRenewalTime t | SRebindingTime t | SDistribution t | SBroadcast t => dec_u64 t
  | SDns ips => comma_list ips
  | SInterface n => n
  end.

Definition setting_line (s : setting) : bytes := key_of s ++ equals_sign :: value_of s.
Definition config_text (ss : list setting) : bytes :=
  List.concat (map (fun s => setting_line s ++ [newline]) ss).

(** The option built from a list of server addresses. *)
Definition dns_option (ips : list Z) : DhcpOption := append_addresses DOMAIN_NAME_SERVER_OPTION ips.

Definition replace_dns (ips : list Z) (os : list DhcpOption) : list DhcpOption :=
  snd (opts_push_back
         (match opts_get os DOMAIN_NAME_SERVER_OPTION with
          | Some _ => snd (opts_remove os DOMAIN_NAME_SERVER_OPTION) | None => os end) (dns_option ips)).

(** The effect of a setting in a section that applies. *)
Definition apply_setting (comm : bool) (s : setting) (c : DhcpConfig) : DhcpConfig :=
  match s with
  | SServerId ip => if comm then with_serverId ip c else c
  | SServer ip => if comm then c else with_serverId ip c
  | SNetmask ip => with_netmask ip c
  | SGateway ip => with_gateway ip c
  | SPool b e => with_end e (with_begin b c)
  | SLeaseTime t => with_leaseTime t c
  | SRenewalTime t => with_renewalTime t c
  | SRebindingTime t => with_rebindingTime t c
  | SDistribution v => with_distribution v c
  | SBroadcast v => with_broadcast v c
  | SDns ips => with_options (replace_dns ips (cfg_options c)) c
  | SInterface n => with_ifname n c
  end.

(** One line: the section flags and the configuration after it. *)
Definition meaning_step (ifname : option bytes) (st : bool * bool * DhcpConfig) (s : setting)
    : bool * bool * DhcpConfig :=
  let '(comm, valid, c) := st in
  match s with
  | SInterface n =>
      let v := interface_matches ifname (setting_line s) in
      (false, v, if v then with_ifname n c else c)
  | _ => (comm, valid, if valid then apply_setting comm s c else c)
  end.
Definition meaning (ifname : option bytes) (ss : list setting) (c : DhcpConfig) : DhcpConfig :=
  snd (fold_left (meaning_step ifname) ss (true, true, c)).

(** Characters of a value: printable, and none of ["#="]. *)
Definition value_char (c : Z) : Prop := 32 < c /\ c <> hash_sign /\ c <> equals_sign.

Definition nonzero_ip (ip : Z) : Prop := is_u32 ip /\ ip <> 0.
Definition valid_setting (s : setting) : Prop :=
  match s with
  | SServerId ip | SServer ip | SNetmask ip | SGateway ip => nonzero_ip ip
  | SPool b e => nonzero_ip b /\ nonzero_ip e
  | SLeaseTime t | SRenewalTime t | SRebindingTime t => is_u32 t /\ t <> 0
  | SDistribution v | SBroadcast v => v = 0 \/ v = 1
  | SDns ips => ips <> [] /\ (length ips <= 60)%nat /\ Forall nonzero_ip ips
  | SInterface n => Forall value_char n /\ n <> [] /\ (length n < 50)%nat
  end.

(** ** Reading one line *)

Lemma drop_while_first p c s : p c = false -> drop_while p (c :: s) = c :: s.
Proof. intros H. cbn. by rewrite H. Qed.

Lemma strip_line w : Forall (fun c => 32 < c) w -> w <> [] -> strip isspace (w ++ [newline]) = w.
Proof.
  intros Hw Hne. unfold strip. rewrite drop_right_snoc. change (isspace newline) with true. cbv iota.
  assert (Hs : forall c, 32 < c -> isspace c = false).
  { intros c Hc. unfold isspace. rewrite (proj2 (Z.eqb_neq c 32)), (proj2 (Z.leb_gt c 13)) by lia.
    by rewrite andb_false_r. }
  destruct w as [|c w] using rev_ind; [done|clear IHw].
  rewrite drop_right_snoc. apply Forall_app in Hw as [Hw Hc]. apply Forall_cons_1 in Hc as [Hc _].
  rewrite (Hs c Hc). destruct w as [|x w]; cbn [app].
  - apply drop_while_first. by apply Hs.
  - apply Forall_cons_1 in Hw as [Hx _]. apply drop_while_first. by apply Hs.
Qed.

Lemma holds_any l : holds (l ++ [0]) (c_str (l ++ [0])).
Proof.
  induction l as [|c l [H1 [rest H2]]]; cbn.
  - split; [constructor|by exists []].
  - destruct (c =? 0) eqn:E.
    + apply Z.eqb_eq in E as ->. split; [constructor|by exists (l ++ [0])].
    + apply Z.eqb_neq in E. split; [by constructor|]. exists rest. by rewrite H2 at 1.
Qed.

(** A line of printable characters with ['='] and without ['#'] reaches the
    interpretation of its text. *)
Lemma ProcessFile_line fuel w rest ifname bComm bValid cfg :
  Forall (fun c => 32 < c /\ c <> hash_sign) w -> equals_sign ∈ w -> (length w < 1022)%nat ->
  ProcessFile_loop (S fuel) (w ++ newline :: rest) ifname bComm bValid cfg =
  (let is_interface := is_prefix (str "interface") w in
   let bComm := if is_interface then false else bComm in
   let bValid := if is_interface then interface_matches ifname w else bValid in
   if bValid : bool then
     let '(r, cfg) := SetDhcpConfig cfg w bComm in
     if negb (r =? RET_SUCCESS) then Some (RET_FAILED, cfg)
     else ProcessFile_loop fuel rest ifname bComm bValid cfg
   else ProcessFile_loop fuel rest ifname bComm bValid cfg).
Proof.
  intros Hw Heq Hlen.
  assert (Hnl : no_newline w) by (eapply Forall_impl; [exact Hw|]; unfold newline; cbn; lia).
  assert (Hne : w <> []) by (intros ->; by apply elem_of_nil in Heq).
  assert (Hh : holds ((w ++ [newline]) ++ [0]) (w ++ [newline])).
  { split; [|by exists []]. apply Forall_app. split; [|by constructor].
    eapply Forall_impl; [exact Hw|]. cbn. lia. }
  destruct (RemoveSpaceCharacters_spec_lemma _ _ FILE_LINE_LEN_MAX Hh) as (buf & E & Hb & _);
    [by destruct w|done|].
  rewrite strip_line in Hb; [|by eapply Forall_impl; [exact Hw|]; cbn; lia|done].
  assert (Hnil : exists c t, w ++ newline :: rest = c :: t).
  { destruct w; [done|]. cbn. eauto. }
  destruct Hnil as (c & t & En). cbn [ProcessFile_loop]. rewrite En, <- En. 
  rewrite fgets_line by (done || (change (Z.to_nat FILE_LINE_LEN_MAX) with 1024%nat; lia)).
  rewrite (holds_c_str _ _ Hh).
  rewrite bool_decide_eq_false_2.
  2: { intros [H|H]%elem_of_app; [|by apply list_elem_of_singleton in H].
       rewrite Forall_forall in Hw. by apply Hw in H as [_ H]. }
  rewrite bool_decide_eq_true_2 by (apply elem_of_app; by left). cbn [orb negb].
  rewrite E. cbn [mbind option_bind]. change (truthy DHCP_TRUE) with true. cbn [negb].
  by rewrite (holds_c_str _ _ Hb).
Qed.

(** ** Tokens *)

Definition no_char (d : Z) (w : bytes) : Prop := Forall (fun c => c <> d) w.

Lemma until_delim_found d w r : no_char d w -> until_delim d (w ++ d :: r) = (w, Some r).
Proof.
  induction 1 as [|c w Hc _ IH]; cbn; [by rewrite Z.eqb_refl|].
  by rewrite (proj2 (Z.eqb_neq _ _) Hc), IH.
Qed.

Lemma until_delim_end d w : no_char d w -> until_delim d w = (w, None).
Proof.
  induction 1 as [|c w Hc _ IH]; cbn; [done|]. by rewrite (proj2 (Z.eqb_neq _ _) Hc), IH.
Qed.

Lemma strtok_r_found d w r : no_char d w -> w <> [] ->
  strtok_r d (Some (w ++ d :: r)) = (Some w, Some r).
Proof.
  intros Hw Hne. unfold strtok_r. destruct w as [|c w]; [done|]. cbn [app skip_delim].
  assert (Hc : c <> d) by (by apply Forall_cons_1 in Hw as [? _]).
  rewrite (proj2 (Z.eqb_neq _ _) Hc). change (c :: w ++ d :: r) with ((c :: w) ++ d :: r).
  by rewrite until_delim_found.
Qed.

Lemma strtok_r_end d w : no_char d w -> w <> [] -> strtok_r d (Some w) = (Some w, None).
Proof.
  intros Hw Hne. unfold strtok_r. destruct w as [|c w]; [done|]. cbn [skip_delim].
  assert (Hc : c <> d) by (by apply Forall_cons_1 in Hw as [? _]).
  by rewrite (proj2 (Z.eqb_neq _ _) Hc), until_delim_end.
Qed.

Section Reading.
Context {L : InetTextLaws IT}.

Lemma ip_text ip : is_u32 ip ->
  ParseStrIp ip <> [] /\ Forall (fun c => c = 46 \/ 48 <= c <= 57) (ParseStrIp ip) /\
  (length (ParseStrIp ip) <= 15)%nat /\ ParseIpAddr (ParseStrIp ip) = ip.
Proof.
  intros Hip. destruct (ParseStrIp_word ip Hip) as ((H1 & _) & H2 & H3).
  repeat split; [done| |done|done].
  destruct (inet_ntop_total ip Hip) as [s E]. unfold ParseStrIp. rewrite E. by eapply inet_ntop_chars.
Qed.

Lemma ip_no_char d ip : is_u32 ip -> d < 46 \/ 57 < d -> no_char d (ParseStrIp ip).
Proof.
  intros Hip Hd. destruct (ip_text ip Hip) as (_ & H & _). eapply Forall_impl; [exact H|]. cbn. lia.
Qed.

Lemma ip_value ip : is_u32 ip -> Forall value_char (ParseStrIp ip).
Proof.
  intros Hip. destruct (ip_text ip Hip) as (_ & H & _). eapply Forall_impl; [exact H|].
  unfold value_char, hash_sign, equals_sign. cbn. lia.
Qed.

Lemma dec_value n : is_u64 n -> Forall value_char (dec_u64 n).
Proof.
  intros Hn. destruct (dec_u64_spec n Hn) as (_ & H & _). eapply Forall_impl; [exact H|].
  intros c Hc. apply isdigit_range in Hc. unfold value_char, hash_sign, equals_sign. lia.
Qed.

Lemma u32_u64 t : is_u32 t -> is_u64 t.
Proof. unfold is_u32, is_u64. lia. Qed.

Lemma CheckDataToUint_dec t : is_u32 t -> CheckDataToUint (dec_u64 t) = t.
Proof.
  intros Ht. apply u32_u64 in Ht as Ht'. destruct (dec_u64_spec t Ht') as (H1 & H2 & _).
  unfold CheckDataToUint. rewrite has_digit_all, has_negative_all, strtoull_dec by done. by apply u32_small.
Qed.

Lemma comma_list_value ips : Forall nonzero_ip ips -> Forall value_char (comma_list ips).
Proof.
  induction 1 as [|ip ips [Hip _] _ IH]; [constructor|].
  destruct ips as [|ip' ips]; [by apply ip_value|]. change (comma_list (ip :: ip' :: ips)) with
    (ParseStrIp ip ++ comma :: comma_list (ip' :: ips)).
  apply Forall_app. split; [by apply ip_value|]. by constructor.
Qed.

Lemma length_comma_list ips : Forall nonzero_ip ips -> (length (comma_list ips) <= 16 * length ips)%nat.
Proof.
  induction 1 as [|ip ips [Hip _] _ IH]; [done|]. destruct (ip_text ip Hip) as (_ & _ & Hl & _).
  destruct ips as [|ip' ips]; [cbn; lia|]. change (comma_list (ip :: ip' :: ips)) with
    (ParseStrIp ip ++ comma :: comma_list (ip' :: ips)).
  rewrite length_app. cbn [length] in *. lia.
Qed.

(** The first token of a list and what is left. *)
Definition rest_text (ips : list Z) : option bytes :=
  match ips with [] => None | _ => Some (comma_list ips) end.

Lemma strtok_comma_list ip ips : is_u32 ip ->
  strtok_r comma (Some (comma_list (ip :: ips))) = (Some (ParseStrIp ip), rest_text ips).
Proof.
  intros Hip. destruct (ip_text ip Hip) as (Hne & _ & _ & _).
  assert (Hn : no_char comma (ParseStrIp ip)) by (apply ip_no_char; [done|unfold comma; lia]).
  destruct ips as [|ip' ips]; [by apply strtok_r_end|]. by apply strtok_r_found.
Qed.

Definition append_one (o : DhcpOption) (ip : Z) : DhcpOption :=
  match snd (AppendAddressOption (Some o) ip) with Some o' => o' | None => o end.

Lemma SetDnsInfo_loop_spec ips : Forall nonzero_ip ips -> forall fuel o, (length ips < fuel)%nat ->
  (let '(t, save) := strtok_r comma (rest_text ips) in SetDnsInfo_loop fuel t save o) =
  Some (fold_left append_one ips o).
Proof.
  induction 1 as [|ip ips [Hip Hnz] _ IH]; intros fuel o Hf;
    (destruct fuel as [|fuel]; [cbn in Hf; lia|]); [done|].
  cbn [rest_text]. rewrite strtok_comma_list by done. cbn [SetDnsInfo_loop fold_left].
  destruct (ip_text ip Hip) as (_ & _ & _ & ->). rewrite (proj2 (Z.eqb_neq _ _) Hnz).
  apply IH. cbn in Hf. lia.
Qed.

(** ** A setting *)

Lemma key_tokens s : no_char equals_sign (key_of s) /\ key_of s <> [].
Proof. destruct s; (split; [repeat constructor; discriminate|discriminate]). Qed.

Lemma SetDhcpConfig_token cfg s comm :
  SetDhcpConfig cfg (setting_line s) comm =
  (let pTok := key_of s in let pSave := Some (value_of s) in
   if is_key pTok "interface" then SetIfnameInfo cfg pSave
   else if is_key pTok "dns" then SetDnsInfo cfg pSave
   else if is_key pTok "pool" then SetIpAddressPool cfg pSave
   else if ((is_key pTok "serverId" && comm) || (is_key pTok "server" && negb comm))
           || is_key pTok "gateway" || is_key pTok "netmask"
        then SetNetConfigInfo cfg pTok pSave comm
   else if is_key pTok "leaseTime" || is_key pTok "renewalTime" || is_key pTok "rebindingTime"
        then SetTimeConfigInfo cfg pTok pSave
   else if is_key pTok "distribution" || is_key pTok "broadcast"
        then SetEnableConfigInfo cfg pTok pSave
   else (RET_SUCCESS, cfg)).
Proof.
  destruct (key_tokens s) as [Hk Hne]. unfold SetDhcpConfig, setting_line.
  rewrite bool_decide_eq_false_2 by (by destruct (key_of s)). by rewrite strtok_r_found.
Qed.

Lemma SetNetConfigInfo_ip cfg key ip comm : nonzero_ip ip ->
  SetNetConfigInfo cfg key (Some (ParseStrIp ip)) comm =
  (RET_SUCCESS,
   if (is_key key "serverId" && comm) || (is_key key "server" && negb comm) then with_serverId ip cfg
   else if is_key key "gateway" then with_gateway ip cfg
   else if is_key key "netmask" then with_netmask ip cfg else cfg).
Proof.
  intros [Hip Hnz]. destruct (ip_text ip Hip) as (_ & _ & _ & E). unfold SetNetConfigInfo. rewrite E.
  rewrite (proj2 (Z.eqb_neq _ _) Hnz). by repeat case_match.
Qed.

Lemma SetIpAddressPool_pair cfg b e : nonzero_ip b -> nonzero_ip e ->
  SetIpAddressPool cfg (Some (ParseStrIp b ++ comma :: ParseStrIp e)) =
  (RET_SUCCESS, with_end e (with_begin b cfg)).
Proof.
  intros [Hb Hb0] [He He0]. destruct (ip_text b Hb) as (Hnb & _ & _ & Eb).
  destruct (ip_text e He) as (Hne & _ & _ & Ee). unfold SetIpAddressPool.
  rewrite strtok_r_found by (done || (apply ip_no_char; [done|unfold comma; lia])).
  destruct (ParseStrIp b) as [|x xs] eqn:E1; [done|]. destruct (ParseStrIp e) as [|y ys] eqn:E2; [done|].
  cbv beta iota zeta. by rewrite Eb, Ee, (proj2 (Z.eqb_neq _ _) Hb0), (proj2 (Z.eqb_neq _ _) He0).
Qed.

Lemma SetDnsInfo_list cfg ips : Forall nonzero_ip ips -> ips <> [] ->
  SetDnsInfo cfg (Some (comma_list ips)) = (RET_SUCCESS, with_options (replace_dns ips (cfg_options cfg)) cfg).
Proof.
  intros Hips Hne. unfold SetDnsInfo. destruct ips as [|ip ips]; [done|].
  pose proof Hips as [[Hip Hnz] _]%Forall_cons.
  pose proof (SetDnsInfo_loop_spec _ Hips (S (length (comma_list (ip :: ips))))
    (option_of DOMAIN_NAME_SERVER_OPTION 0 [])) as H.
  cbn [rest_text] in H. rewrite strtok_comma_list in H |- * by done.
  destruct (ip_text ip Hip) as (Hne' & _). destruct (ParseStrIp ip) as [|x xs] eqn:Ex; [done|].
  cbn [no_text]. rewrite H.
  - change (fold_left append_one (ip :: ips) (option_of DOMAIN_NAME_SERVER_OPTION 0 [])) with (dns_option (ip :: ips)).
    unfold replace_dns. change (code (option_of DOMAIN_NAME_SERVER_OPTION 0 [])) with DOMAIN_NAME_SERVER_OPTION.
    by destruct (opts_get (cfg_options cfg) DOMAIN_NAME_SERVER_OPTION).
  - clear -Hips L. assert (Hl : forall l, Forall nonzero_ip l -> (length l <= length (comma_list l))%nat).
    { induction 1 as [|a l [Ha _] _ IH]; [done|]. destruct (ip_text a Ha) as (Hn & _).
      destruct l as [|a' l]; [destruct (ParseStrIp a) eqn:E; [done|cbn; rewrite E; cbn; lia]|].
      change (comma_list (a :: a' :: l)) with (ParseStrIp a ++ comma :: comma_list (a' :: l)).
      rewrite length_app. cbn [length] in *. destruct (ParseStrIp a); [done|cbn [length]; lia]. }
    specialize (Hl _ Hips). lia.
Qed.

Lemma SetDhcpConfig_setting s : valid_setting s -> forall cfg comm,
  SetDhcpConfig cfg (setting_line s) comm = (RET_SUCCESS, apply_setting comm s cfg).
Proof.
  intros Hv cfg comm. rewrite SetDhcpConfig_token. cbv zeta.
  destruct s; cbn [key_of value_of apply_setting]; cbn [valid_setting] in Hv;
    repeat match goal with |- context [is_key ?k ?n] =>
      let b := eval vm_compute in (is_key k n) in change (is_key k n) with b end;
    cbn [andb orb].
  - destruct comm; [|done]. by rewrite SetNetConfigInfo_ip.
  - destruct comm; [done|]. by rewrite SetNetConfigInfo_ip.
  - by rewrite SetNetConfigInfo_ip.
  - by rewrite SetNetConfigInfo_ip.
  - destruct Hv. by apply SetIpAddressPool_pair.
  - destruct Hv as [Ht Hnz]. unfold SetTimeConfigInfo. rewrite CheckDataToUint_dec by done.
    by rewrite (proj2 (Z.eqb_neq _ _) Hnz).
  - destruct Hv as [Ht Hnz]. unfold SetTimeConfigInfo. rewrite CheckDataToUint_dec by done.
    by rewrite (proj2 (Z.eqb_neq _ _) Hnz).
  - destruct Hv as [Ht Hnz]. unfold SetTimeConfigInfo. rewrite CheckDataToUint_dec by done.
    by rewrite (proj2 (Z.eqb_neq _ _) Hnz).
  - unfold SetEnableConfigInfo. rewrite CheckDataToUint_dec by (unfold is_u32; lia).
    by destruct Hv as [-> | ->].
  - unfold SetEnableConfigInfo. rewrite CheckDataToUint_dec by (unfold is_u32; lia).
    by destruct Hv as [-> | ->].
  - destruct Hv as (H1 & _ & H3). by apply SetDnsInfo_list.
  - destruct Hv as (_ & _ & H). unfold SetIfnameInfo.
    rewrite Z.geb_leb, (proj2 (Z.leb_gt _ _)) by (unfold IFACE_NAME_SIZE; lia). done.
Qed.

Lemma setting_line_chars s : valid_setting s ->
  Forall (fun c => 32 < c /\ c <> hash_sign) (setting_line s) /\ equals_sign ∈ setting_line s /\
  (length (setting_line s) < 1022)%nat.
Proof.
  intros Hv. assert (Hval : Forall value_char (value_of s) /\ (length (value_of s) <= 1000)%nat).
  { destruct s; cbn [valid_setting value_of] in *;
      try (destruct Hv as [Hip _]; destruct (ip_text _ Hip) as (_ & _ & Hl & _);
           split; [by apply ip_value|lia]);
      try (match goal with |- context [dec_u64 ?t] =>
             assert (Ht : is_u64 t) by (unfold is_u64; unfold is_u32 in *; lia);
             destruct (dec_u64_spec t Ht) as (_ & _ & Hl & _); split; [by apply dec_value|lia] end).
    - destruct Hv as [[Hb _] [He _]]. destruct (ip_text _ Hb) as (_ & _ & Hlb & _).
      destruct (ip_text _ He) as (_ & _ & Hle & _). rewrite length_app. cbn [length]. split; [|lia].
      apply Forall_app. split; [by apply ip_value|]. constructor; [done|by apply ip_value].
    - destruct Hv as (_ & Hl & Hips). pose proof (length_comma_list _ Hips).
      split; [by apply comma_list_value|lia].
    - destruct Hv as (Hc & _ & Hl). split; [done|lia]. }
  destruct Hval as [Hval Hlen]. unfold setting_line. split; [|split].
  - apply Forall_app. split; [by destruct s; repeat (constructor; [done|])|].
    constructor; [done|]. eapply Forall_impl; [exact Hval|]. by intros c (? & ? & _).
  - apply elem_of_app. right. left.
  - rewrite length_app. cbn [length]. assert (length (key_of s) <= 15)%nat by (destruct s; cbn; lia). lia.
Qed.

Lemma is_interface_line s :
  is_prefix (str "interface") (setting_line s) = match s with SInterface _ => true | _ => false end.
Proof. by destruct s. Qed.

Lemma ProcessFile_loop_meaning ifname ss : Forall valid_setting ss -> forall fuel comm valid c,
  (length (config_text ss) < fuel)%nat ->
  ProcessFile_loop fuel (config_text ss) ifname comm valid c =
  Some (RET_SUCCESS, snd (fold_left (meaning_step ifname) ss (comm, valid, c))).
Proof.
  induction 1 as [|s ss Hv _ IH]; intros fuel comm valid c Hf;
    (destruct fuel as [|fuel]; [lia|]); [done|].
  unfold config_text in *. cbn [map List.concat] in Hf |- *. fold (config_text ss) in *.
  rewrite <- app_assoc in Hf |- *. rewrite length_app in Hf. cbn [app length] in Hf |- *.
  destruct (setting_line_chars s Hv) as (Hc & He & Hl).
  rewrite ProcessFile_line by done. rewrite is_interface_line. cbn [fold_left].
  set (f := fold_left _ _ _).
  assert (IH' : forall comm valid c, ProcessFile_loop fuel (config_text ss) ifname comm valid c =
    Some (RET_SUCCESS, snd (fold_left (meaning_step ifname) ss (comm, valid, c)))) by (intros; apply IH; lia).
  subst f. destruct s; cbn zeta iota; try (destruct valid; [rewrite SetDhcpConfig_setting by done|]; by rewrite IH').
  unfold meaning_step at 2. destruct (interface_matches ifname _).
  - rewrite SetDhcpConfig_setting by done. by rewrite IH'.
  - by rewrite IH'.
Qed.

Lemma LoadConfig_meaning_lemma read_file path ifname ss c :
  path <> [] -> ifname <> [] -> (length ifname < 50)%nat -> read_file path = Some (config_text ss) ->
  Forall valid_setting ss ->
  let start := with_broadcast 1 (with_distribution 1 (with_leaseTime DHCP_LEASE_TIME c)) in
  let final := meaning (Some ifname) ss start in
  let (ok, checked) := CheckDhcpConfig final in
  LoadConfig read_file path ifname c =
  Some (if truthy ok
        then (RET_SUCCESS, if bool_decide (cfg_ifname checked = []) then with_ifname ifname checked else checked)
        else (RET_FAILED, checked)).
Proof.
  intros Hp Hi Hl Hr Hss start final.
  assert (E : ParseConfigFile read_file path (Some ifname) start = Some (RET_SUCCESS, final)).
  { unfold ParseConfigFile. rewrite bool_decide_eq_false_2, Hr by done. unfold ProcessFile.
    by rewrite ProcessFile_loop_meaning by (done || lia). }
  unfold LoadConfig. rewrite !bool_decide_eq_false_2 by done. cbn [orb]. fold start. rewrite E.
  cbn [mbind option_bind]. change (negb (RET_SUCCESS =? RET_SUCCESS)) with false. cbv iota.
  destruct (CheckDhcpConfig final) as [ok checked]. destruct (truthy ok); cbn [negb]; [|done].
  destruct (bool_decide (cfg_ifname checked = [])); [|done].
  unfold SetIfnameInfo. by rewrite Z.geb_leb, (proj2 (Z.leb_gt _ _)) by (unfold IFACE_NAME_SIZE; lia).
Qed.
End Reading.

(** Loading any file ends and never leaves the line buffer. *)
Lemma ProcessFile_loop_total ifname fuel : forall file comm valid c,
  (length file < fuel)%nat -> exists r c', ProcessFile_loop fuel file ifname comm valid c = Some (r, c').
Proof.
  induction fuel as [|fuel IH]; intros file comm valid c Hf; [lia|].
  cbn [ProcessFile_loop]. destruct file as [|x file]; [eauto|].
  assert (Hfg : forall n f, (2 <= n)%nat -> f <> [] -> (length (snd (fgets n f)) < length f)%nat).
  { intros n. induction n as [|n IHn]; [lia|]. intros f Hn Hne. destruct n as [|n]; [lia|].
    destruct f as [|y f]; [done|]. change (fgets (S (S n)) (y :: f)) with
      (if y =? newline then ([y], f) else let (l, r') := fgets (S n) f in (y :: l, r')).
    destruct (y =? newline); [cbn; lia|]. destruct (fgets (S n) f) as [l r'] eqn:E. cbn [snd length].
    destruct f as [|z f]; [destruct n; injection E as <- <-; cbn; lia|].
    destruct n as [|n]; [injection E as <- <-; cbn; lia|].
    specialize (IHn (z :: f) ltac:(lia) ltac:(done)). rewrite E in IHn. cbn [snd] in IHn. lia. }
  specialize (Hfg (Z.to_nat FILE_LINE_LEN_MAX) (x :: file) ltac:(vm_compute; lia) ltac:(done)).
  destruct (fgets _ (x :: file)) as [line file']. cbn [snd] in Hfg. cbn [length] in Hf, Hfg.
  assert (IH' : forall comm valid c, exists r c', ProcessFile_loop fuel file' ifname comm valid c = Some (r, c'))
    by (intros; apply IH; lia).
  destruct (_ || _); [apply IH'|].
  assert (HR : exists ok buf, RemoveSpaceCharacters (line ++ [0]) FILE_LINE_LEN_MAX = Some (ok, buf)).
  { destruct (c_str (line ++ [0])) as [|b t] eqn:E.
    - unfold RemoveSpaceCharacters, strlen. rewrite E. cbn. eauto.
    - destruct (RemoveSpaceCharacters_spec_lemma _ _ FILE_LINE_LEN_MAX (holds_any line)) as (buf & E' & _);
        [by rewrite E|done|]. eauto. }
  destruct HR as (ok & buf & ->). cbn [mbind option_bind]. destruct (negb (truthy ok)); [apply IH'|].
  cbv zeta. destruct (if is_prefix _ _ then _ else _); [|apply IH'].
  destruct (SetDhcpConfig _ _ _) as [r c']. destruct (negb _); [eauto|apply IH'].
Qed.
End Language.

(** * Properties *)

Section Config_properties.
Context {IT : InetText}.

(** Loading a configuration file is total whatever the file holds: it never
    leaves the line buffer and returns; and a successful load has a nonempty
    interface name, and has filled in the renewal and rebinding times from the
    lease time. *)
Theorem LoadConfig_total read_file path ifname c :
  exists r c', LoadConfig read_file path ifname c = Some (r, c') /\
  (r = RET_SUCCESS -> cfg_ifname c' <> [] /\
     (cfg_renewalTime c' = 0 -> cfg_leaseTime c' / 2 = 0) /\
     (cfg_rebindingTime c' = 0 -> cfg_leaseTime c' * 7 / 8 = 0)).
Proof.
  unfold LoadConfig. destruct (_ || bool_decide (ifname = [])) eqn:E0; [by do 2 eexists|].
  apply orb_false_elim in E0 as [_ Hi]. apply bool_decide_eq_false in Hi.
  set (start := with_broadcast _ _).
  assert (HP : exists r c', ParseConfigFile read_file path (Some ifname) start = Some (r, c')).
  { unfold ParseConfigFile. destruct (bool_decide (path = [])); [eauto|].
    destruct (read_file path) as [file|]; [|eauto]. unfold ProcessFile.
    destruct (ProcessFile_loop_total (Some ifname) (S (length file)) file true true start) as (r & c' & ->);
      [lia|]. cbn. eauto. }
  destruct HP as (r & c' & ->). cbn [mbind option_bind]. destruct (negb (r =? RET_SUCCESS)); [by do 2 eexists|].
  destruct (CheckDhcpConfig c') as [ok c2] eqn:E. destruct (negb (truthy ok)) eqn:Eok; [by do 2 eexists|].
  assert (Ht : (cfg_renewalTime c2 = 0 -> cfg_leaseTime c2 / 2 = 0) /\
               (cfg_rebindingTime c2 = 0 -> cfg_leaseTime c2 * 7 / 8 = 0)).
  { revert E. unfold CheckDhcpConfig. destruct (_ && _); [intros [= <- <-]; done|].
    destruct (cfg_renewalTime c' =? 0) eqn:E1; cbn [cfg_rebindingTime with_renewalTime];
      destruct (cfg_rebindingTime c' =? 0) eqn:E2; intros [= _ <-];
      cbn [cfg_rebindingTime with_renewalTime cfg_renewalTime cfg_leaseTime with_rebindingTime];
      btauto_hyps; by split. }
  destruct (bool_decide (cfg_ifname c2 = [])) eqn:En.
  - unfold SetIfnameInfo. destruct (_ >=? _); [by do 2 eexists|]. do 2 eexists. split; [done|]. by split.
  - apply bool_decide_eq_false in En. do 2 eexists. by split.
Qed.

(** C33: the meaning of a configuration file.  When every line is a valid
    setting (addresses, times, flags, ranges, name server lists, interface
    sections), loading the file yields exactly the fold of the settings over
    the defaults, a section applying only when its interface line matches; then
    the renewal and rebinding defaults are filled in, and an interface section
    without a server is refused. *)
Theorem LoadConfig_meaning `{L : !InetTextLaws IT} read_file path ifname ss c :
  path <> [] -> ifname <> [] -> (length ifname < 50)%nat -> read_file path = Some (config_text ss) ->
  Forall valid_setting ss ->
  let start := with_broadcast 1 (with_distribution 1 (with_leaseTime DHCP_LEASE_TIME c)) in
  let final := meaning (Some ifname) ss start in
  let (ok, checked) := CheckDhcpConfig final in
  LoadConfig read_file path ifname c =
  Some (if truthy ok
        then (RET_SUCCESS, if bool_decide (cfg_ifname checked = []) then with_ifname ifname checked else checked)
        else (RET_FAILED, checked)).
Proof. apply LoadConfig_meaning_lemma. Qed.
End Config_properties.

Definition sample_settings : list setting :=
  [SServerId (addr 192 168 62 1); SNetmask (addr 255 255 255 0); SLeaseTime 43200;
   SPool (addr 192 168 62 2) (addr 192 168 62 254); SDns [addr 8 8 8 8; addr 223 5 5 5];
   SInterface (str "wlan1"); SServer (addr 192 168 7 1)].

Lemma LoadConfig_meaning_witness :
  let start := with_broadcast 1 (with_distribution 1 (with_leaseTime DHCP_LEASE_TIME zero_config)) in
  let final := meaning (Some (str "wlan0")) sample_settings start in
  let (ok, checked) := CheckDhcpConfig final in
  LoadConfig (fun _ => Some (config_text sample_settings)) (str "/etc/dhcpd.conf") (str "wlan0") zero_config =
  Some (if truthy ok
        then (RET_SUCCESS, if bool_decide (cfg_ifname checked = []) then with_ifname (str "wlan0") checked else checked)
        else (RET_FAILED, checked)).
Proof.
  apply (LoadConfig_meaning (fun _ => Some (config_text sample_settings)) (str "/etc/dhcpd.conf")
    (str "wlan0") sample_settings zero_config).
  - discriminate.
  - discriminate.
  - by apply Nat.ltb_lt.
  - reflexivity.
  - unfold sample_settings, nonzero_ip.
    repeat (apply List.Forall_cons; [cbn [valid_setting]|]); try apply List.Forall_nil;
      repeat split; try (by apply check_u32); try discriminate; try (cbn; lia).
    + repeat (apply List.Forall_cons; [split; [by apply check_u32|discriminate]|]). apply List.Forall_nil.
    + change (str "wlan1") with [119; 108; 97; 110; 49].
      repeat (apply List.Forall_cons; [unfold value_char, hash_sign, equals_sign; lia|]). apply List.Forall_nil.
Defined.

(** An interface line is matched as a substring of the whole line, so a
    server started for "wlan1" takes the section of "wlan10", and one started
    for "face" takes every section. *)
Theorem ProcessFile_interface_substring :
  let server ifname ss :=
    match ProcessFile (config_text ss) (Some ifname) zero_config with
    | Some (_, c) => cfg_serverId c | None => 0 end in
  let ss := [SInterface (str "wlan10"); SServer (addr 10 0 0 1)] in
  server (str "wlan1") ss = addr 10 0 0 1 /\
  server (str "face") ss = addr 10 0 0 1 /\
  server (str "wlan2") ss = 0.
Proof. vm_compute. done. Qed.
