(* ===== verification/PoolInvariant.v ===== *)
(** The invariant of the pool's tables and its preservation by the pool's
    operations, for a fixed configuration and a set of hardware addresses on
    which the hash of the binding table is injective.

    The functions of the source are in AddressPool; here are only statements
    about them.  [keeps m Q] is total correctness from any state with the
    invariant, to a result and state with the invariant and [Q]. *)
From S2P Require Import Prelude AddressUtils OptionList CommonUtil DottedQuad Binding AddressPool.

(** The hardware addresses of the clients: sixteen bytes of which six are
    used and not all zero, and no two with the same hash. *)
Record clients (K : bytes -> Prop) : Prop := {
  cl_shape : forall m, K m -> length m = 16%nat /\ drop 6 m = zeros 10;
  cl_nonempty : forall m, K m -> truthy (IsEmptyHWAddr m) = false;
  cl_hash : forall m m', K m -> K m' -> macAddrHash m = macAddrHash m' -> m = m'
}.

(** What [InitServerContext] has checked of a configuration. *)
Record valid_pool (c : DhcpAddressPool) : Prop := {
  vp_mask : exists k, 0 <= k <= 32 /\ netmask c = netmask_of k;
  vp_u32 : is_u32 (beginAddress c) /\ is_u32 (endAddress c);
  vp_begin : beginAddress c <> 0;
  vp_net : NetworkAddress (beginAddress c) (netmask c) = NetworkAddress (serverId c) (netmask c) /\
           NetworkAddress (endAddress c) (netmask c) = NetworkAddress (serverId c) (netmask c)
}.

(** The configuration part of a pool. *)
Definition config_of (p : DhcpAddressPool) : DhcpAddressPool := set_distribution 0 (set_leaseTable ∅ p).

(** A search for [mac] in sequential mode has an address to find. *)
Definition findable (mac : bytes) (s : PoolState) : Prop :=
  exists target k, netmask (pool s) = netmask_of k /\ 1 <= k <= 31 /\
    is_u32 target /\ is_u32 (search_start (pool s)) /\ searchable mac (pool s) /\ distributeMode s = 0 /\
    NetworkAddress (search_start (pool s)) (netmask_of k) = NetworkAddress (beginAddress (pool s)) (netmask_of k) /\
    leases s !! target = None /\
    IpInRange target (beginAddress (pool s)) (endAddress (pool s)) (netmask_of k) = DHCP_TRUE /\
    target <> NetworkAddress target (netmask_of k) /\ target <> BroadCastAddress target (netmask_of k).

Lemma findable_spec `{Platform} mac s : findable mac s -> not_reserved mac s ->
  wp (AddressDistribute mac) (fun r _ => r <> 0) s.
Proof.
  intros (target & k & H1 & H2 & H3 & H4 & H5 & H6 & H7 & H8 & H9 & H10 & H11) Hr.
  by apply (AddressDistribute_finds mac s target k).
Qed.

Lemma findable_ext mac s s' : pool s' = pool s -> distributeMode s' = distributeMode s ->
  findable mac s -> findable mac s'.
Proof. unfold findable, leases. by intros -> ->. Qed.

Section Invariant.
Context {PF : Platform} {IT : InetText}.
Variable K : bytes -> Prop.
Variable c : DhcpAddressPool.
Hypothesis HK : clients K.
Hypothesis Hc : valid_pool c.

(** A nonzero address of the server's network. *)
Definition good_ip (ip : Z) : Prop :=
  ip <> 0 /\ NetworkAddress ip (netmask c) = NetworkAddress (serverId c) (netmask c).

Definition wf_rec (b : AddressBinding) : Prop :=
  K (chaddr b) /\ length (deviceName b) = 64%nat /\ length (userClass b) = 64%nat /\ portalUrl b = zeros 64.

Definition ok_binding (b : AddressBinding) : Prop := wf_rec b /\ (ipAddress b = 0 \/ good_ip (ipAddress b)).
Definition ok_lease (ip : Z) (l : AddressBinding) : Prop := wf_rec l /\ ipAddress l = ip /\ good_ip ip.

Record pool_inv (s : PoolState) : Prop := {
  pi_config : config_of (pool s) = c;
  pi_lease : map_Forall ok_lease (leases s);
  pi_binding : map_Forall (fun h b => macAddrHash (chaddr b) = h /\ ok_binding b) (bindingRecoders s)
}.

(** What the invariant says of the element a pointer designates. *)
Definition ok_at (p : BindingPtr) (b : AddressBinding) : Prop :=
  match p with
  | BindPtr h => macAddrHash (chaddr b) = h /\ ok_binding b
  | LeasePtr ip => ok_lease ip b
  end.

Lemma deref_ok p s b : pool_inv s -> deref p s = Some b -> ok_at p b.
Proof. intros [_ H1 H2]. destruct p; cbn; [apply H2|apply H1]. Qed.

Lemma assign_inv p b s : pool_inv s -> ok_at p b -> pool_inv (assign p b s).
Proof.
  intros [H1 H2 H3] Hb. destruct p as [h|ip]; split; try done.
  - cbn. by apply map_Forall_insert_2.
  - unfold assign. rewrite leases_set_leases. by apply map_Forall_insert_2.
Qed.

Lemma config_fields s : pool_inv s ->
  beginAddress (pool s) = beginAddress c /\ endAddress (pool s) = endAddress c /\
  netmask (pool s) = netmask c /\ serverId (pool s) = serverId c.
Proof. clear Hc. by intros [<- _ _]. Qed.

Lemma ticks_inv n s : pool_inv s -> pool_inv (set_ticks n s).
Proof. intros []. by split. Qed.

Lemma distribution_inv d s : pool_inv s -> pool_inv (set_pool (set_distribution d (pool s)) s).
Proof. intros []. by split. Qed.

Lemma files_inv f t s : pool_inv s -> pool_inv (set_lastTime t (set_files f s)).
Proof. intros []. by split. Qed.

Lemma unbind_inv h s : pool_inv s -> pool_inv (set_bindings (delete h (bindingRecoders s)) s).
Proof. intros []. split; try done. cbn. by apply map_Forall_delete. Qed.

Lemma delete_lease_inv ip s : pool_inv s -> pool_inv (set_leases (delete ip (leases s)) s).
Proof. intros []. split; try done. rewrite leases_set_leases. by apply map_Forall_delete. Qed.

Lemma filter_lease_inv P `{!forall x, Decision (P x)} s :
  pool_inv s -> pool_inv (set_leases (filter P (leases s)) s).
Proof.
  intros []. split; try done. rewrite leases_set_leases. intros ip l Hl.
  apply map_lookup_filter_Some in Hl as [Hl _]. by apply pi_lease0.
Qed.

(** ** Hardware addresses *)

Lemma byte_at_take6 m i : (i < 6)%nat -> byte_at (take 6 m) i = byte_at m i.
Proof.
  intros Hi. unfold byte_at. destruct (decide (i < length m)%nat).
  - rewrite <- (take_drop 6 m) at 2. rewrite app_nth1; [done|rewrite length_take; lia].
  - rewrite !nth_overflow; [done|lia|rewrite length_take; lia].
Qed.

Lemma same_eq l m : K (chaddr l) -> K m -> same l m = true <-> chaddr l = m.
Proof.
  intros Hl Hm. destruct (cl_shape _ HK _ Hl) as [L1 D1], (cl_shape _ HK _ Hm) as [L2 D2].
  unfold same. assert (E : truthy (AddrEquels (chaddr l) m MAC_ADDR_LENGTH) = true <->
    AddrEquels (chaddr l) m MAC_ADDR_LENGTH = DHCP_TRUE).
  { destruct (AddrEquels_bool (chaddr l) m MAC_ADDR_LENGTH) as [-> | ->]; done. }
  rewrite E, AddrEquels_spec. split; [|by intros ->]. intros H.
  rewrite <- (take_drop 6 (chaddr l)), <- (take_drop 6 m), D1, D2. f_equal.
  apply nth_ext with (d := 0) (d' := 0); [rewrite !length_take; lia|].
  intros i Hi. rewrite length_take in Hi. fold (byte_at (take 6 (chaddr l)) i) (byte_at (take 6 m) i).
  rewrite !byte_at_take6 by lia. apply H. lia.
Qed.

Lemma same_hash l m : K (chaddr l) -> K m -> same l m = false -> macAddrHash (chaddr l) <> macAddrHash m.
Proof.
  intros Hl Hm Hs E. apply (cl_hash _ HK) in E; [|done..].
  apply same_eq in E; [|done..]. by rewrite E in Hs.
Qed.

Lemma copy_mac m d : K m -> drop 6 d = zeros 10 ->
  snd (memcpy_s d DHCP_HWADDR_LENGTH m MAC_ADDR_LENGTH) = m.
Proof.
  intros Hm Hd. destruct (cl_shape _ HK _ Hm) as [L D]. unfold memcpy_s.
  change (take 6 m ++ drop 6 d = m). rewrite Hd, <- D. apply take_drop.
Qed.

Lemma pad_mac m : K m -> pad 16 m = m.
Proof.
  intros Hm. destruct (cl_shape _ HK _ Hm) as [L _]. unfold pad. rewrite take_app_le, <- L by lia.
  apply firstn_all.
Qed.

(** ** Ranges *)

Lemma range_good ip : IpInRange ip (beginAddress c) (endAddress c) (netmask c) = DHCP_TRUE ->
  ip <> 0 -> good_ip ip.
Proof.
  intros H Hne. apply IpInRange_spec in H as [H _]. split; [done|]. rewrite H. apply Hc.
Qed.

(** An address between the two ends in host order. *)
Lemma host_range_good ip : ntohl (beginAddress c) <= ntohl ip <= ntohl (endAddress c) -> good_ip ip.
Proof.
  destruct Hc as [(k & Hk & Em) [Hb He] Hb0 [H1 H2]]. unfold ntohl. intros Hr.
  assert (Hm : is_u32 (netmask c)).
  { rewrite Em. apply htonl_range. }
  split.
  - intros ->. pose proof (htonl_range (beginAddress c)) as R.
    unfold is_u32 in R. assert (E : htonl 0 = 0) by done. rewrite E in Hr.
    apply Hb0. apply htonl_0_iff; [done|lia].
  - rewrite <- H1. apply htonl_inj; [by apply land_u32..|].
    unfold NetworkAddress. rewrite !htonl_land, Em.
    assert (Ek : htonl (netmask_of k) = 2 ^ 32 - 2 ^ k).
    { assert (Hp : 0 < 2 ^ k <= 2 ^ 32).
      { split; [apply Z.pow_pos_nonneg; lia|apply Z.pow_le_mono_r; lia]. }
      unfold netmask_of. apply htonl_involutive_l. unfold is_u32. lia. }
    rewrite Ek, !land_hostmask by (done || apply htonl_range).
    assert (E2 : net_part (htonl (beginAddress c)) k = net_part (htonl (endAddress c)) k).
    { rewrite <- !htonl_NetworkAddress, <- Em by done. by rewrite H1, H2. }
    rewrite !net_part_spec in * by lia. f_equal.
    assert (Hp : 0 < 2 ^ k) by (apply Z.pow_pos_nonneg; lia).
    apply Z.mul_reg_r in E2; [|lia].
    pose proof (Z.div_le_mono (htonl (beginAddress c)) (htonl ip) (2 ^ k) Hp ltac:(lia)).
    pose proof (Z.div_le_mono (htonl ip) (htonl (endAddress c)) (2 ^ k) Hp ltac:(lia)). lia.
Qed.

(** ** Preservation *)

(** [pool_inv] afterwards, and [Q]. *)
Definition keeps {A} (m : M PoolState A) (Q : A -> PoolState -> Prop) (s : PoolState) : Prop :=
  wp m (fun a s' => pool_inv s' /\ Q a s') s.

(** The elements of both tables, except [p], are the same in two states. *)
Definition tables_but (p : option BindingPtr) (s s' : PoolState) : Prop :=
  forall q, Some q <> p -> deref q s' = deref q s.
Definition same_tables (s s' : PoolState) : Prop := tables_but None s s'.

#[local] Instance BindingPtr_eq_dec : EqDecision BindingPtr.
Proof. solve_decision. Defined.

Lemma deref_assign_ne p q b s : q <> p -> deref q (assign p b s) = deref q s.
Proof.
  intros Hne. destruct p as [h|ip], q as [h'|ip']; try done; cbn;
    apply lookup_insert_ne; congruence.
Qed.

Lemma tables_but_trans p s1 s2 s3 : tables_but p s1 s2 -> tables_but p s2 s3 -> tables_but p s1 s3.
Proof. intros H1 H2 q Hq. by rewrite H2, H1. Qed.

Lemma same_tables_but p s s' : same_tables s s' -> tables_but p s s'.
Proof. intros H q _. by apply H. Qed.

Lemma keeps_Tmspsec s : pool_inv s -> keeps Tmspsec (fun t s' => t = sec (ticks s) /\ same_tables s s') s.
Proof.
  intros Hs. apply wp_Tmspsec. split; [by apply ticks_inv|]. split; [done|]. by intros [?|?].
Qed.

Lemma keeps_update p f b s : pool_inv s -> deref p s = Some b -> ok_at p (f b) ->
  keeps (update p f) (fun _ s' => deref p s' = Some (f b) /\ tables_but (Some p) s s') s.
Proof.
  intros Hs Hb Hf. eapply wp_update_at; [exact Hb|]. split; [by apply assign_inv|].
  split; [apply deref_assign|]. intros q Hq. apply deref_assign_ne. congruence.
Qed.

Lemma keeps_GetLease ip s : pool_inv s ->
  keeps (GetLease ip) (fun r s' => s' = s /\
    match r with Some p => p = LeasePtr ip /\ exists l, deref p s = Some l /\ ok_lease ip l
               | None => ip = 0 \/ leases s !! ip = None end) s.
Proof.
  intros Hs. unfold GetLease. apply wp_if; intros E; btauto_hyps.
  { apply wp_ret. split; [done|]. split; [done|by left]. }
  apply wp_get. split; [done|]. split; [done|]. destruct (leases s !! ip) as [l|] eqn:El; [|by right].
  split; [done|]. exists l. split; [done|]. by apply (pi_lease _ Hs).
Qed.

Lemma keeps_QueryBinding mac s : pool_inv s ->
  keeps (QueryBinding mac) (fun r s' => s' = s /\
    match r with Some p => p = BindPtr (macAddrHash mac) /\ exists b, deref p s = Some b /\ ok_at p b
               | None => bindingRecoders s !! macAddrHash mac = None end) s.
Proof.
  intros Hs. unfold QueryBinding, GetBindingByMac. apply wp_get. split; [done|]. split; [done|].
  destruct (bindingRecoders s !! macAddrHash mac) as [b|] eqn:E; [|done].
  split; [done|]. exists b. split; [done|]. by apply (pi_binding _ Hs).
Qed.

Lemma keeps_AddNewBinding mac s : pool_inv s -> K mac ->
  keeps (AddNewBinding mac) (fun r s' => r = Some (BindPtr (macAddrHash mac)) /\
    (exists b, deref (BindPtr (macAddrHash mac)) s' = Some b /\ chaddr b = mac /\ ipAddress b = 0 /\
       bindingMode b = BIND_MODE_DYNAMIC /\ ok_binding b) /\
    tables_but (Some (BindPtr (macAddrHash mac))) s s' /\
    pool s' = pool s /\ distributeMode s' = distributeMode s) s.
Proof.
  intros Hs Hm. unfold AddNewBinding. apply wp_bind, wp_Tmspsec, wp_bind, wp_Tmspsec, wp_bind, wp_modify.
  unfold GetBindingByMac. apply wp_get. cbn [bindingRecoders set_bindings]. rewrite lookup_insert_eq.
  set (b := set_leaseTime _ _). assert (Hb : chaddr b = mac) by (by apply pad_mac).
  assert (Hok : ok_binding b).
  { split; [|by left]. split; [by rewrite Hb|]. done. }
  split.
  - apply (assign_inv (BindPtr (macAddrHash mac))); [by apply ticks_inv, ticks_inv|]. split; [by rewrite Hb|done].
  - split; [done|]. split; [exists b; split; [apply lookup_insert_eq|done]|].
    split; [|done]. intros q Hq. apply (deref_assign_ne (BindPtr (macAddrHash mac)) q b
      (set_ticks (S (ticks (set_ticks (S (ticks s)) s))) (set_ticks (S (ticks s)) s))). congruence.
Qed.

(** A lease is added for a binding. *)
Lemma keeps_AddLease b s : pool_inv s -> ok_binding b ->
  keeps (AddLease b) (fun _ s' =>
    tables_but (Some (LeasePtr (ipAddress b))) s s' /\
    (bad_lease b = false -> deref (LeasePtr (ipAddress b)) s' = Some b) /\ 
    (bad_lease b = true -> s' = s)) s.
Proof.
  intros Hs [Hb Hip]. unfold AddLease. apply wp_if; intros E.
  { apply wp_ret. split; [done|]. split; [done|]. split; [congruence|done]. }
  assert (Hne : ipAddress b <> 0) by (unfold bad_lease in E; by btauto_hyps).
  apply wp_bind, wp_get.
  assert (H : keeps (put_lease b ;; ret RET_SUCCESS) (fun _ s' =>
    tables_but (Some (LeasePtr (ipAddress b))) s s' /\
    (bad_lease b = false -> deref (LeasePtr (ipAddress b)) s' = Some b) /\ 
    (bad_lease b = true -> s' = s)) s).
  2: { match goal with |- wp (if ?x then _ else _) _ _ => destruct x end; exact H. }
  unfold put_lease. apply wp_bind, wp_modify, wp_ret. split.
  - apply (assign_inv (LeasePtr (ipAddress b))); [done|]. split; [done|]. split; [done|].
    by destruct Hip.
  - split; [|split; [intros _; apply (deref_assign (LeasePtr (ipAddress b)))|by rewrite E]].
    intros q Hq. apply (deref_assign_ne (LeasePtr (ipAddress b))). congruence.
Qed.

Lemma keeps_RemoveLease ip l s : pool_inv s -> leases s !! ip = Some l ->
  keeps (RemoveLease (LeasePtr ip)) (fun _ s' => tables_but (Some (LeasePtr ip)) s s' /\
    (truthy (IsEmptyHWAddr (chaddr l)) = false -> leases s' !! ip = None)) s.
Proof.
  intros Hs Hl. destruct (pi_lease _ Hs _ _ Hl) as (Hw & Hip & Hg & _).
  unfold RemoveLease. apply wp_bind. eapply wp_load_at; [exact Hl|].
  apply wp_if; intros E.
  { apply wp_ret. split; [done|]. split; [done|]. unfold bad_lease in E. apply Z.eqb_neq in Hg.
    rewrite Hip, Hg in E. by intros E'; rewrite E' in E. }
  apply wp_bind, wp_get. rewrite Hip, Hl. apply wp_bind, wp_modify, wp_ret.
  split; [by apply delete_lease_inv|]. split; [|intros _; apply lookup_delete_eq].
  intros q Hq. destruct q as [h|ip']; [done|]. apply lookup_delete_ne. congruence.
Qed.

Lemma keeps_RemoveBinding mac s : pool_inv s ->
  keeps (RemoveBinding mac) (fun _ s' =>
    s' = set_bindings (delete (macAddrHash mac) (bindingRecoders s)) s) s.
Proof.
  intros Hs. unfold RemoveBinding. apply wp_bind, wp_get.
  destruct (bindingRecoders s !! macAddrHash mac) eqn:E.
  - apply wp_bind, wp_modify, wp_ret. split; [by apply unbind_inv|done].
  - apply wp_ret. split; [done|]. rewrite delete_id by done. by destruct s.
Qed.

Lemma unbind_tables mac s :
  tables_but (Some (BindPtr (macAddrHash mac))) s (set_bindings (delete (macAddrHash mac) (bindingRecoders s)) s).
Proof. intros q Hq. destruct q as [h|ip]; [|done]. apply lookup_delete_ne. congruence. Qed.

Lemma keeps_ReleaseBinding mac s : pool_inv s ->
  keeps (ReleaseBinding mac) (fun _ s' => tables_but (Some (BindPtr (macAddrHash mac))) s s') s.
Proof.
  intros Hs. unfold ReleaseBinding. apply wp_bind, wp_get.
  destruct (bindingRecoders s !! macAddrHash mac) as [b|] eqn:E; [|by apply wp_ret].
  cbn. apply wp_bind. eapply wp_mono; [apply (keeps_update (BindPtr (macAddrHash mac)) _ b); [done..|]|].
  - destruct (pi_binding _ Hs _ _ E) as [H1 H2]. done.
  - intros _ s' (H1 & _ & H2). by apply wp_ret.
Qed.

Lemma keeps_IsExpire_at p b s : pool_inv s -> deref p s = Some b ->
  keeps (IsExpire_at p) (fun _ s' => tables_but (Some p) s s' /\
    exists st, deref p s' = Some (set_bindingStatus st b)) s.
Proof.
  intros Hs Hb. unfold IsExpire_at. apply wp_bind. eapply wp_load_at; [exact Hb|].
  apply wp_bind. eapply wp_mono; [by apply keeps_Tmspsec|]. intros t s1 (Hs1 & _ & H1).
  assert (Hb1 : deref p s1 = Some b) by (by rewrite H1).
  pose proof (deref_ok _ _ _ Hs Hb) as Hok.
  assert (Hu : forall (r : Z * AddressBinding) st, set_bindingStatus st b = snd r ->
    keeps (update p (fun _ => snd r) ;; ret (fst r)) (fun _ s' => tables_but (Some p) s s' /\
      exists st, deref p s' = Some (set_bindingStatus st b)) s1).
  { intros [r b'] st E. cbn in E |- *. subst b'. apply wp_bind.
    eapply wp_mono; [apply (keeps_update p _ b); [done..|]|].
    - destruct p; exact Hok.
    - intros _ s2 (Hs2 & Hd & H2). apply wp_ret. split; [done|].
      split; [|by exists st]. eapply tables_but_trans; [by apply same_tables_but|done]. }
  unfold IsExpire. destruct (t >? expiry b).
  - apply (Hu (DHCP_TRUE, _) BIND_EXPIRED). done.
  - apply (Hu (DHCP_FALSE, b) (bindingStatus b)). by destruct b.
Qed.

Lemma keeps_touch p b s : pool_inv s -> deref p s = Some b ->
  keeps (touch p) (fun _ s' => tables_but (Some p) s s' /\
    exists t, deref p s' = Some (touched t b)) s.
Proof.
  intros Hs Hb. unfold touch. apply wp_bind. eapply wp_mono; [by apply keeps_Tmspsec|].
  intros t s1 (Hs1 & _ & H1). assert (Hb1 : deref p s1 = Some b) by (by rewrite H1).
  pose proof (deref_ok _ _ _ Hs Hb) as Hok. apply wp_bind.
  eapply wp_mono; [apply (keeps_update p _ b); [done..|]|]; [destruct p; exact Hok|].
  intros _ s2 (Hs2 & Hd & H2). eapply wp_mono; [apply (keeps_update p _ _ _ Hs2 Hd)|]; [destruct p; exact Hok|].
  intros _ s3 (Hs3 & Hd3 & H3). split; [done|]. split; [|by exists t].
  eapply tables_but_trans; [by apply same_tables_but|]. by eapply tables_but_trans.
Qed.

(** ** The search for an address *)

(** The search for [mac] leaves the binding of [mac] in its table. *)
Definition searching_for (mac : bytes) (b : AddressBinding) (s : PoolState) : Prop :=
  pool_inv s /\ bindingRecoders s !! macAddrHash mac = Some b.

Lemma searching_for_lease mac b ip s s' :
  searching_for mac b s -> pool_inv s' -> tables_but (Some (LeasePtr ip)) s s' -> searching_for mac b s'.
Proof. intros [_ Hb] Hs' H. split; [done|]. rewrite <- Hb. by apply (H (BindPtr (macAddrHash mac))). Qed.

(** The branch of an expired lease of another client. *)
Lemma take_over_keeps mac b ip l s :
  K mac -> searching_for mac b s -> leases s !! ip = Some l -> same l mac = false ->
  wp (touch (LeasePtr ip) ;;
      let* l := load (LeasePtr ip) in
      RemoveBinding (chaddr l) ;;
      update (LeasePtr ip) (fun b => set_chaddr (snd (memcpy_s (chaddr b) DHCP_HWADDR_LENGTH mac MAC_ADDR_LENGTH)) b) ;;
      ret DHCP_TRUE) (fun _ s' => searching_for mac b s') s.
Proof.
  intros Hm [Hs Hb] Hl Hne. destruct (pi_lease _ Hs _ _ Hl) as (Hw & Hip & Hg).
  apply wp_bind. eapply wp_mono; [by apply (keeps_touch (LeasePtr ip) l)|].
  intros _ s1 (Hs1 & H1 & t & Hl1). apply wp_bind. eapply wp_load_at; [exact Hl1|].
  apply wp_bind. eapply wp_mono; [by apply keeps_RemoveBinding|]. intros _ s2 (Hs2 & H2).
  change (chaddr (touched t l)) with (chaddr l) in H2.
  assert (Hl2 : leases s2 !! ip = Some (touched t l)) by (by rewrite H2).
  assert (Hb2 : bindingRecoders s2 !! macAddrHash mac = Some b).
  { assert (Hb1 : bindingRecoders s1 !! macAddrHash mac = Some b)
      by (rewrite <- Hb; by apply (H1 (BindPtr (macAddrHash mac)))).
    rewrite H2. cbn. rewrite lookup_delete_ne; [done|]. apply same_hash; [apply Hw|done..]. }
  apply wp_bind. eapply wp_mono; [apply (keeps_update (LeasePtr ip) _ _ _ Hs2 Hl2)|].
  - destruct Hw as (Hk & Hr). split; [|done]. split; [|done].
    change (K (snd (memcpy_s (chaddr l) DHCP_HWADDR_LENGTH mac MAC_ADDR_LENGTH))).
    rewrite copy_mac; [done|done|]. by apply (cl_shape _ HK).
  - intros _ s3 (Hs3 & _ & H3). apply wp_ret. by apply (searching_for_lease mac b ip s2).
Qed.

Lemma CheckIpAvailability_keeps mac b ip s : K mac -> searching_for mac b s ->
  wp (CheckIpAvailability mac ip) (fun _ s' => searching_for mac b s') s.
Proof.
  intros Hm Hs. unfold CheckIpAvailability. apply wp_bind, wp_get.
  apply wp_if; intros _; [by apply wp_ret|]. apply wp_bind.
  eapply wp_mono; [apply keeps_GetLease, Hs|]. intros lease s' (_ & -> & Hlease).
  destruct lease as [p|]; [|by apply wp_ret]. destruct Hlease as (-> & l & Hl & Hw & Hip).
  apply wp_bind. eapply wp_load_at; [exact Hl|]. fold (same l mac). apply wp_bind, wp_get.
  apply wp_if; intros _; [by apply wp_ret|]. apply wp_if; intros _; [by apply wp_ret|].
  apply wp_bind. apply wp_mono with (Q := fun _ s' => s' = s).
  { unfold IsReservedIp. destruct (ip =? 0); by apply wp_get. }
  intros r _ ->. apply wp_if; intros _; [by apply wp_ret|]. apply wp_if; intros Esame.
  - apply wp_bind. eapply wp_mono; [apply (keeps_touch (LeasePtr ip) l); [apply Hs|done]|].
    intros _ s1 (Hs1 & H1 & _). apply wp_ret. by eapply searching_for_lease.
  - apply wp_bind. eapply wp_mono; [apply (keeps_IsExpire_at (LeasePtr ip) l); [apply Hs|done]|].
    intros e s1 (Hs1 & H1 & st & Hl1). pose proof (searching_for_lease _ _ _ _ _ Hs Hs1 H1) as Hs1'.
    apply wp_if; intros _; [|by apply wp_ret].
    eapply take_over_keeps; [done|done|exact Hl1|exact Esame].
Qed.

Lemma CheckRangeAvailability_keeps mac b ip oor s : K mac -> searching_for mac b s ->
  wp (CheckRangeAvailability mac ip oor) (fun _ s' => searching_for mac b s') s.
Proof.
  intros Hm Hs. destruct (config_fields _ (proj1 Hs)) as (E1 & E2 & E3 & _).
  unfold CheckRangeAvailability. apply wp_bind, wp_get. rewrite E1, E2, E3.
  apply wp_if; intros _; [by apply wp_ret|]. apply wp_if; intros _; [by apply wp_ret|].
  apply wp_if; intros Er; [|apply wp_if; intros _; by apply wp_ret].
  apply truthy_bool in Er; [|apply IpInRange_bool]. apply wp_bind.
  eapply wp_mono; [apply keeps_Tmspsec, Hs|]. intros t s1 (Hs1 & _ & H1).
  assert (Hs1' : searching_for mac b s1) by (split; [done|]; rewrite <- (proj2 Hs); by apply (H1 (BindPtr _))).
  apply wp_bind. set (lease := set_chaddr _ _).
  assert (Hl : ok_binding lease).
  { split; [|destruct (decide (ip = 0)); [by left|right; by apply range_good]].
    split; [|done]. change (K (snd (memcpy_s (zeros 16) DHCP_HWADDR_LENGTH mac MAC_ADDR_LENGTH))).
    by rewrite copy_mac. }
  eapply wp_mono; [by apply keeps_AddLease|]. intros r s2 (Hs2 & H2 & _).
  assert (H' : searching_for mac b s2) by (by apply (searching_for_lease mac b ip s1)).
  apply wp_if; intros _; by apply wp_ret.
Qed.

Lemma AddressDistribute_loop_keeps mac b n : K mac -> forall first ip oor s, searching_for mac b s ->
  wp (AddressDistribute_loop n first mac ip oor) (fun _ s' => searching_for mac b s') s.
Proof.
  intros Hm. induction n as [|n IH]; intros first ip oor s Hs; [by apply wp_ret|].
  cbn [AddressDistribute_loop]. apply wp_bind, wp_get, wp_bind.
  eapply wp_mono with (Q := fun _ s' => searching_for mac b s').
  { destruct first; [|by apply wp_ret]. unfold NextIpOffset. apply wp_bind, wp_get.
    apply wp_if; intros _; [|by apply wp_ret]. apply wp_if; intros _; [|by apply wp_ret].
    apply wp_bind. destruct Hs as [Hs Hb]. split; [by apply ticks_inv|done]. }
  intros off s1 Hs1. cbv zeta. apply wp_bind.
  eapply wp_mono; [by apply CheckIpAvailability_keeps|]. intros av s2 Hs2. apply wp_if; intros _; [by apply IH|].
  apply wp_bind. eapply wp_mono; [exact (CheckRangeAvailability_keeps mac b _ _ _ Hm Hs2)|]. intros [r o] s3 Hs3.
  repeat (apply wp_if; intros _; [by apply wp_ret|]). by apply IH.
Qed.

Lemma keeps_AddressDistribute mac b s : K mac -> searching_for mac b s ->
  keeps (AddressDistribute mac) (fun r s' => bindingRecoders s' !! macAddrHash mac = Some b /\
    (r = 0 \/ (good_ip r /\ exists l, leases s' !! r = Some l /\ chaddr l = mac /\ granted mac s r s'))) s.
Proof.
  intros Hm Hs. destruct (config_fields _ (proj1 Hs)) as (E1 & E2 & E3 & _).
  assert (H : wp (AddressDistribute mac) (fun _ s' => searching_for mac b s') s).
  { assert (Hd : forall d s, searching_for mac b s ->
      searching_for mac b (set_pool (set_distribution d (pool s)) s)).
    { intros d s' [H1 H2]. split; [by apply distribution_inv|done]. }
    unfold AddressDistribute. apply wp_bind, wp_get.
    apply wp_if; intros _; [by apply wp_ret|]. apply wp_if; intros _; [by apply wp_ret|].
    apply wp_bind. eapply wp_mono with (Q := fun _ s' => searching_for mac b s').
    { apply wp_when; intros _; [apply wp_modify; by apply Hd|done]. }
    intros _ s1 Hs1. cbv zeta. apply wp_bind, wp_get, wp_bind.
    eapply wp_mono; [by apply AddressDistribute_loop_keeps|]. intros [ok ip] s2 Hs2.
    apply wp_if; intros _; [by apply wp_ret|]. apply wp_bind, wp_modify, wp_ret. by apply Hd. }
  eapply wp_mono; [apply wp_and; [exact H|apply AddressDistribute_spec]|].
  cbv beta. intros r s' [[Hs' Hb'] Hg]. split; [done|]. split; [done|].
  destruct (Z.eqb_spec r 0) as [->|Hr]; [by left|right].
  pose proof (grt_range _ _ _ _ Hg) as Hrange. rewrite E1, E2, E3 in Hrange.
  split; [by apply range_good|]. destruct (grt_lease _ _ _ _ Hg) as (t & l & Hl & ->).
  eexists. split; [exact Hl|]. split; [|done].
  change (take 6 mac ++ zeros 10 = mac).
  destruct (cl_shape _ HK _ Hm) as [_ D]. rewrite <- D. apply take_drop.
Qed.

(** ** The lease file *)

Lemma name_text_some b : portalUrl b = zeros 64 -> exists n, name_text b = Some n.
Proof.
  intros H. unfold name_text. rewrite bool_decide_eq_true_2; [by eexists|].
  rewrite H, !elem_of_app. right. right. by left.
Qed.

Lemma save_lines_defined ls : Forall (fun kb => portalUrl kb.2 = zeros 64) ls -> exists t, save_lines ls = Some t.
Proof.
  induction 1 as [|[k b] ls Hb _ [t IH]]; [by eexists|]. cbn [save_lines].
  destruct (name_text_some b Hb) as [n En]. rewrite IH. unfold WriteAddressBinding.
  cbn. rewrite En. cbn. destruct (_ >? _); cbn; by eexists.
Qed.

Lemma keeps_SaveBindingRecoders force s : pool_inv s ->
  keeps (SaveBindingRecoders force) (fun _ s' => same_tables s s') s.
Proof.
  intros Hs. unfold SaveBindingRecoders. apply wp_bind. eapply wp_mono; [by apply keeps_Tmspsec|].
  intros t s1 (Hs1 & _ & H1). apply wp_bind, wp_get. apply wp_if; intros _; [by apply wp_ret|].
  apply wp_bind, wp_get. do 3 (apply wp_if; intros _; [by apply wp_ret|]).
  destruct (save_lines_defined (in_order (leaseTable (pool s1)))) as [text E].
  { rewrite in_order_perm. apply Forall_forall. intros [ip l] Hl%elem_of_map_to_list.
    by destruct (pi_lease _ Hs1 _ _ Hl) as ((_ & _ & _ & Hp) & _). }
  rewrite E. apply wp_bind. eapply wp_intro; [done|]. apply wp_bind, wp_modify, wp_bind, wp_modify, wp_ret.
  split; [by apply files_inv|]. exact H1.
Qed.

Lemma keeps_DeleteMacInLease h b s : pool_inv s -> bindingRecoders s !! h = Some b ->
  keeps (DeleteMacInLease (Some (BindPtr h))) (fun _ s' =>
    s' = set_leases (filter (fun kl => same kl.2 (chaddr b) = false) (leases s)) s) s.
Proof.
  intros Hs Hb. eapply wp_mono; [by apply DeleteMacInLease_lemma|]. intros r s' [_ ->].
  split; [|done]. by apply filter_lease_inv.
Qed.

End Invariant.
