(* ===== verification/Server.v ===== *)
(** The message handling of the server
    (src/services/dhcp_server/src/dhcp_s_server.cpp): the handlers of the DHCP
    messages, the assembly and transmission of replies, the looper that
    receives messages, and the life cycle of a server.

    Every function is a computation in [M Server].  The pool operations are
    lifted from Component AddressPool and the option lists are the sequences of
    Component OptionList.  The context, instance and message pointers are
    addresses of live structures in every call the looper makes, so their null
    tests are not modelled. *)
From S2P Require Import Prelude AddressUtils OptionList Codec CommonUtil DottedQuad Binding AddressPool Config.

Definition DHCP_RENEWAL_TIME : Z := 10800.
Definition DHCP_REBINDING_TIME : Z := 17280.
Definition REPLY_PACKET_MAX_LEN : Z := 1500.
Definition OPT_MESSAGE_TYPE_LEGTH : Z := 1.
Definition OPT_TIME_LENGTH : Z := 4.
Definition OPT_MAC_ADDR_LENGTH : Z := 6.
Definition DHCP_MESSAGE_FLAG_LENGTH : Z := 8.
Definition ALLOW_NOBINDING_REQUEST : bool := true.
Definition RECV_BUFFER_SIZE : Z := 2048.
Definition VNEDOR_OPEN_HARMONY : bytes := str "OPEN_HARMONY".
Definition ETHERNET : Z := 1.

(** [enum LooperState] and the states reported to the callback. *)
Definition LS_IDLE : Z := 0.
Definition LS_STARING : Z := 1.
Definition LS_RUNNING : Z := 2.
Definition LS_RELOADNG : Z := 3.
Definition LS_STOPING : Z := 4.
Definition LS_STOPED : Z := 5.
Definition ST_STARTING : Z := 1.
Definition ST_RELOADNG : Z := 3.
Definition ST_STOPING : Z := 4.
Definition ST_STOPED : Z := 5.

(** What the server needs of the network: the result of [sendto], of adding an
    ARP entry (interface, address text, hardware address text), and the socket
    opened on an interface. *)
Class Network := {
  sendto : bytes -> Z;
  AddArpEntry : bytes -> bytes -> bytes -> Z;
  InitServer : bytes -> Z
}.

(** What the server does to the outside, in order. *)
Inductive event :=
| ESend (dest : Z) (datagram : bytes)
| EState (state code : Z)
| EConnected.

Record Server := mkServer {
  ps : PoolState;
  ctx_ifname : bytes;
  broadCastFlagEnable : Z;
  looperState : Z;
  serverFd : Z;
  srv_initialized : Z;
  callback : bool;
  deviceConnectFun : bool;
  src_addr : Z;
  dest_addr : Z;
  from : DhcpMsgInfo;
  reply : DhcpMsgInfo;
  trace : list event
}.

Definition set_ps v s := mkServer v (ctx_ifname s) (broadCastFlagEnable s) (looperState s) (serverFd s)
  (srv_initialized s) (callback s) (deviceConnectFun s) (src_addr s) (dest_addr s) (from s) (reply s) (trace s).
Definition set_looperState v s := mkServer (ps s) (ctx_ifname s) (broadCastFlagEnable s) v (serverFd s)
  (srv_initialized s) (callback s) (deviceConnectFun s) (src_addr s) (dest_addr s) (from s) (reply s) (trace s).
Definition set_serverFd v s := mkServer (ps s) (ctx_ifname s) (broadCastFlagEnable s) (looperState s) v
  (srv_initialized s) (callback s) (deviceConnectFun s) (src_addr s) (dest_addr s) (from s) (reply s) (trace s).
Definition set_src_addr v s := mkServer (ps s) (ctx_ifname s) (broadCastFlagEnable s) (looperState s) (serverFd s)
  (srv_initialized s) (callback s) (deviceConnectFun s) v (dest_addr s) (from s) (reply s) (trace s).
Definition set_dest_addr v s := mkServer (ps s) (ctx_ifname s) (broadCastFlagEnable s) (looperState s) (serverFd s)
  (srv_initialized s) (callback s) (deviceConnectFun s) (src_addr s) v (from s) (reply s) (trace s).
Definition set_from v s := mkServer (ps s) (ctx_ifname s) (broadCastFlagEnable s) (looperState s) (serverFd s)
  (srv_initialized s) (callback s) (deviceConnectFun s) (src_addr s) (dest_addr s) v (reply s) (trace s).
Definition set_reply v s := mkServer (ps s) (ctx_ifname s) (broadCastFlagEnable s) (looperState s) (serverFd s)
  (srv_initialized s) (callback s) (deviceConnectFun s) (src_addr s) (dest_addr s) (from s) v (trace s).
Definition add_event e s := mkServer (ps s) (ctx_ifname s) (broadCastFlagEnable s) (looperState s) (serverFd s)
  (srv_initialized s) (callback s) (deviceConnectFun s) (src_addr s) (dest_addr s) (from s) (reply s) (trace s ++ [e]).

(** A pool operation on the server's pool. *)
Definition lift {A} (m : M PoolState A) : M Server A :=
  fun s => match m (ps s) with Some (a, p) => Some (a, set_ps p s) | None => None end.

Definition addressPool (s : Server) : DhcpAddressPool := pool (ps s).

(** * Fields of a packet *)

Definition set_head o h l hp p := mkMessage o h l hp (xid p) (secs p) (flags p) (ciaddr p) (yiaddr p)
  (siaddr p) (giaddr p) (Codec.chaddr p) (sname p) (file p) (msg_options p).
Definition set_xid v p := mkMessage (op p) (htype p) (hlen p) (hops p) v (secs p) (flags p) (ciaddr p) (yiaddr p)
  (siaddr p) (giaddr p) (Codec.chaddr p) (sname p) (file p) (msg_options p).
Definition set_secs v p := mkMessage (op p) (htype p) (hlen p) (hops p) (xid p) v (flags p) (ciaddr p) (yiaddr p)
  (siaddr p) (giaddr p) (Codec.chaddr p) (sname p) (file p) (msg_options p).
Definition set_flags v p := mkMessage (op p) (htype p) (hlen p) (hops p) (xid p) (secs p) v (ciaddr p) (yiaddr p)
  (siaddr p) (giaddr p) (Codec.chaddr p) (sname p) (file p) (msg_options p).
Definition set_ciaddr v p := mkMessage (op p) (htype p) (hlen p) (hops p) (xid p) (secs p) (flags p) v (yiaddr p)
  (siaddr p) (giaddr p) (Codec.chaddr p) (sname p) (file p) (msg_options p).
Definition set_yiaddr v p := mkMessage (op p) (htype p) (hlen p) (hops p) (xid p) (secs p) (flags p) (ciaddr p) v
  (siaddr p) (giaddr p) (Codec.chaddr p) (sname p) (file p) (msg_options p).
Definition set_siaddr v p := mkMessage (op p) (htype p) (hlen p) (hops p) (xid p) (secs p) (flags p) (ciaddr p) (yiaddr p)
  v (giaddr p) (Codec.chaddr p) (sname p) (file p) (msg_options p).
Definition set_giaddr v p := mkMessage (op p) (htype p) (hlen p) (hops p) (xid p) (secs p) (flags p) (ciaddr p) (yiaddr p)
  (siaddr p) v (Codec.chaddr p) (sname p) (file p) (msg_options p).
Definition set_hw_addr v p := mkMessage (op p) (htype p) (hlen p) (hops p) (xid p) (secs p) (flags p) (ciaddr p) (yiaddr p)
  (siaddr p) (giaddr p) v (sname p) (file p) (msg_options p).
Definition set_names sn f p := mkMessage (op p) (htype p) (hlen p) (hops p) (xid p) (secs p) (flags p) (ciaddr p) (yiaddr p)
  (siaddr p) (giaddr p) (Codec.chaddr p) sn f (msg_options p).

(** [reply->packet.field = ...], and [PushBackOption(&reply->options, ...)]. *)
Definition upd_packet (f : DhcpMessage -> DhcpMessage) : M Server unit :=
  modify (fun s => set_reply (set_packet (f (packet (reply s))) (reply s)) s).
Definition upd_options (f : list DhcpOption -> list DhcpOption) : M Server unit :=
  modify (fun s => set_reply (set_options (f (options (reply s))) (reply s)) s).
Definition push_reply_option (o : DhcpOption) : M Server unit :=
  upd_options (fun os => snd (opts_push_back os o)).

(** [p] when the condition holds, the packet itself otherwise. *)
Definition if_then (b : bool) (f : DhcpMessage -> DhcpMessage) (p : DhcpMessage) : DhcpMessage :=
  if b then f p else p.

Definition usable_addr (a : Z) : bool := truthy a && negb (a =? INADDR_BROADCAST).

Section Server.
Context {PF : Platform} {IT : InetText} {NW : Network}.

(** * Addresses of the peer *)

(** [SourceAddrIn] sets its static address anew at each call. *)
Definition SourceAddrIn : M Server unit := modify (set_src_addr INADDR_ANY).
Definition ResetSourceAddr : M Server unit := SourceAddrIn ;; modify (set_src_addr INADDR_ANY).
Definition SourceIpAddress : M Server Z := SourceAddrIn ;; get src_addr.
Definition DestinationAddr (ip : Z) : M Server unit := modify (set_dest_addr (htonl ip)).

(** * Replies *)

Definition FillReply (received : DhcpMsgInfo) : M Server Z :=
  let r := packet received in
  let* pl := get addressPool in
  upd_packet (if_then (usable_addr (ciaddr r)) (set_ciaddr (ciaddr r))) ;;
  upd_packet (set_flags (flags r)) ;;
  upd_packet (if_then (truthy (xid r)) (set_xid (xid r))) ;;
  upd_packet (if usable_addr (siaddr r) then set_siaddr (siaddr r) else set_siaddr (serverId pl)) ;;
  upd_packet (if usable_addr (giaddr r) then set_giaddr (giaddr r)
              else if_then (truthy (gateway pl)) (set_giaddr (gateway pl))) ;;
  upd_packet (if_then (truthy (hlen r)) (fun p =>
    set_hw_addr (Codec.chaddr r) (set_head (op p) (htype p) (hlen r) (hops p) p))) ;;
  upd_packet (if_then (truthy (giaddr r)) (set_giaddr (giaddr r))) ;;
  ret 0.

Definition InitReply (received : DhcpMsgInfo) : M Server unit :=
  upd_packet (fun p => set_head BOOTREPLY ETHERNET OPT_MAC_ADDR_LENGTH (hops p) p) ;;
  upd_packet (set_secs 0) ;;
  upd_packet (set_ciaddr 0) ;;
  upd_packet (set_names (zeros 64) (zeros 128)) ;;
  let* _r := FillReply received in
  ret tt.

(** A 4-byte option of a time, the configured one or the default. *)
Definition time_option (c t dflt : Z) : DhcpOption :=
  let v := if truthy t then HostToNetwork t else HostToNetwork dflt in
  match snd (FillU32Option (Some (option_of c OPT_TIME_LENGTH [])) v) with
  | Some o => o | None => option_of c OPT_TIME_LENGTH [] end.

Definition AppendReplyTimeOptions : M Server Z :=
  let* pl := get addressPool in
  push_reply_option (time_option IP_ADDRESS_LEASE_TIME_OPTION (pool_leaseTime pl) DHCP_LEASE_TIME) ;;
  push_reply_option (time_option RENEWAL_TIME_VALUE_OPTION (renewalTime pl) DHCP_RENEWAL_TIME) ;;
  push_reply_option (time_option REBINDING_TIME_VALUE_OPTION (rebindingTime pl) DHCP_REBINDING_TIME) ;;
  ret RET_SUCCESS.

Definition AddAddressOption (c address : Z) : M Server unit :=
  match AppendAddressOption (Some (option_of c 0 [])) address with
  | (r, Some o) => if negb (r =? RET_SUCCESS) then ret tt else push_reply_option o
  | (_, None) => ret tt
  end.

Definition AddReplyServerIdOption (sid : Z) : M Server Z :=
  if negb (truthy sid) || (sid =? INADDR_BROADCAST) then ret RET_FAILED
  else
    match AppendAddressOption (Some (option_of SERVER_IDENTIFIER_OPTION 0 [])) sid with
    | (r, Some o) =>
        if negb (r =? RET_SUCCESS) then ret RET_FAILED
        else
          let* rep := get reply in
          match opts_get (options rep) SERVER_IDENTIFIER_OPTION with
          | Some _ => ret RET_SUCCESS
          | None => push_reply_option o ;; ret RET_SUCCESS
          end
    | (_, None) => ret RET_FAILED
    end.

Definition AddReplyMessageTypeOption (replyMessageType : Z) : M Server unit :=
  push_reply_option (option_of DHCP_MESSAGE_TYPE_OPTION OPT_MESSAGE_TYPE_LEGTH [replyMessageType; 0]).

Definition ReplyCommontOption : M Server Z :=
  let* pl := get addressPool in
  AddAddressOption SUBNET_MASK_OPTION (netmask pl) ;;
  when (truthy (gateway pl)) (AddAddressOption ROUTER_OPTION (gateway pl)) ;;
  push_reply_option (option_of VENDOR_SPECIFIC_INFO_OPTION (Z.of_nat (length VNEDOR_OPEN_HARMONY))
                       VNEDOR_OPEN_HARMONY) ;;
  let* rep := get reply in
  let netAddress := Z.land (yiaddr (packet rep)) (netmask pl) in
  let boastAddress := Z.lor (u32 (Z.lnot (netmask pl))) netAddress in
  AddAddressOption BROADCAST_ADDRESS_OPTION boastAddress ;;
  ret REPLY_OFFER.

Definition AppendFixedOptions : M Server Z :=
  let* pl := get addressPool in
  upd_options (fun os =>
    fold_left (fun os o =>
      match (if truthy (code o) then opts_get os (code o) else None) with
      | None => snd (opts_push_back os o)
      | Some _ => os
      end) (fixedOptions pl) os) ;;
  ret RET_SUCCESS.

Definition AppendReplyTypeOption (replyType : Z) : M Server Z :=
  if negb (truthy replyType) then ret RET_FAILED
  else
    let msgType := if replyType =? REPLY_OFFER then DHCPOFFER
                   else if replyType =? REPLY_ACK then DHCPACK
                   else if replyType =? REPLY_NAK then DHCPNAK else 0 in
    let* rep := get reply in
    match opts_get (options rep) DHCP_MESSAGE_TYPE_OPTION with
    | None =>
        upd_options (fun os => snd (opts_push_front os
          (option_of DHCP_MESSAGE_TYPE_OPTION OPT_MESSAGE_TYPE_LEGTH [msgType; 0]))) ;;
        ret RET_SUCCESS
    | Some o => if negb (byte_at (data o) 0 =? msgType) then ret RET_FAILED else ret RET_SUCCESS
    end.

(** [ParseReplyOptions(reply)]. *)
Definition encode_reply : M Server Z :=
  let* rep := get reply in
  let '(r, rep) := ParseReplyOptions rep in
  modify (set_reply rep) ;; ret r.

(** [sendto(fd, &reply->packet, reply->length, ...)] to an address. *)
Definition send_packet (dest : Z) : M Server Z :=
  let* rep := get reply in
  let datagram := wire_bytes rep in
  modify (add_event (ESend dest datagram)) ;; ret (sendto datagram).

Definition GetBroadCastFlag (rep : DhcpMsgInfo) : bool :=
  let broadcastFlag := truthy (Z.shiftr (flags (packet rep)) (DHCP_MESSAGE_FLAG_LENGTH - 1)) in
  (ciaddr (packet rep) =? 0) && (broadcastFlag || (yiaddr (packet rep) =? 0)).

Definition sent_code (r : Z) : Z := if r =? 0 then RET_FAILED else RET_SUCCESS.

Definition TransmitOfferOrAckPacket : M Server Z :=
  let* enable := get broadCastFlagEnable in
  let* rep := get reply in
  if (enable =? 1) && negb (GetBroadCastFlag rep) then
    let yi := yiaddr (packet rep) in
    modify (set_dest_addr yi) ;;
    match ParseStrMac (Some (Codec.chaddr (packet rep))) DHCP_HWADDR_LENGTH with
    | None => ret RET_FAILED
    | Some mac =>
        if bool_decide (mac = []) then ret RET_FAILED
        else
          let* ifname := get ctx_ifname in
          if AddArpEntry ifname (Ip4IntConvertToStr yi false) mac <? 0 then ret RET_FAILED
          else if (msg_length rep >? 0) && (msg_length rep <=? REPLY_PACKET_MAX_LEN)
               then let* r := send_packet yi in ret (sent_code r)
               else ret (sent_code 0)
    end
  else let* r := send_packet INADDR_BROADCAST in ret (sent_code r).

Definition SendDhcpOffer : M Server Z :=
  let* r := AppendReplyTypeOption REPLY_OFFER in
  if negb (r =? RET_SUCCESS) then ret RET_FAILED
  else
    let* r1 := AppendReplyTimeOptions in
    if negb (r1 =? RET_SUCCESS) then ret RET_FAILED
    else
      let* pl := get addressPool in
      let* r2 := AddReplyServerIdOption (serverId pl) in
      if negb (r2 =? RET_SUCCESS) then ret RET_FAILED
      else
        let* _fixed := AppendFixedOptions in
        let* r3 := encode_reply in
        if negb (r3 =? RET_SUCCESS) then ret RET_FAILED
        else
          let* r4 := TransmitOfferOrAckPacket in
          if negb (r4 =? RET_SUCCESS) then ret RET_FAILED else ret RET_SUCCESS.

Definition SendDhcpAck : M Server Z :=
  let* r := AppendReplyTypeOption REPLY_ACK in
  if negb (r =? RET_SUCCESS) then ret RET_FAILED
  else
    let* _fixed := AppendFixedOptions in
    let* r1 := AppendReplyTimeOptions in
    if negb (r1 =? RET_SUCCESS) then ret RET_FAILED
    else
      let* pl := get addressPool in
      let* r2 := AddReplyServerIdOption (serverId pl) in
      if negb (r2 =? RET_SUCCESS) then ret RET_FAILED
      else
        let* r3 := encode_reply in
        if negb (r3 =? RET_SUCCESS) then ret RET_FAILED
        else
          let* r4 := TransmitOfferOrAckPacket in
          if negb (r4 =? RET_SUCCESS) then ret RET_FAILED else ret RET_SUCCESS.

Definition SendDhcpNak : M Server Z :=
  let* r := AppendReplyTypeOption REPLY_NAK in
  if negb (r =? RET_SUCCESS) then ret RET_FAILED
  else
    let* pl := get addressPool in
    let* r2 := AddReplyServerIdOption (serverId pl) in
    if negb (r2 =? RET_SUCCESS) then ret RET_FAILED
    else
      push_reply_option (option_of MESSAGE_OPTION (Z.of_nat (length (str "wrong network"))) (str "wrong network")) ;;
      let* r3 := encode_reply in
      if negb (r3 =? RET_SUCCESS) then ret RET_FAILED
      else let* r := send_packet INADDR_BROADCAST in ret (sent_code r).

Definition SendDhcpReply (replyType : Z) : M Server Z :=
  let* sendRet := (if replyType =? REPLY_OFFER then SendDhcpOffer
                   else if replyType =? REPLY_ACK then SendDhcpAck
                   else if replyType =? REPLY_NAK then SendDhcpNak
                   else ret (-1)) in
  if truthy replyType && negb (sendRet =? RET_SUCCESS) then ret RET_FAILED else ret RET_SUCCESS.

(** * Bindings and leases of the handlers *)

(** The pool is the server's own; [binding] is an element pointer. *)
Definition Repending (binding : BindingPtr) : M Server Z :=
  let* b := lift (load binding) in
  let bindingIp := ipAddress b in
  lift (update binding (fun b => set_pendingInterval (NextPendingInterval (pendingInterval b)) b)) ;;
  let* curTime := lift Tmspsec in
  let* b := lift (load binding) in
  let tms := if curTime >? pendingTime b then curTime - pendingTime b else 0 in
  if tms <? pendingInterval b then
    lift (update binding (set_pendingTime curTime)) ;; ret REPLY_NONE
  else
    lift (update binding (set_pendingTime curTime)) ;;
    lift (update binding (set_pendingInterval 0)) ;;
    lift (update binding (set_bindingStatus BIND_PENDING)) ;;
    let* srcIp := SourceIpAddress in
    if usable_addr srcIp && negb (bindingIp =? INADDR_BROADCAST) && negb (srcIp =? bindingIp)
    then ret REPLY_NAK
    else
      (if truthy srcIp && (srcIp =? bindingIp) then
         let* b := lift (load binding) in
         lift (modify (fun s => set_leases (<[srcIp := b]> (leases s)) s))
       else ret tt) ;;
      ret REPLY_OFFER.

Definition Rebinding (binding : BindingPtr) : M Server Z :=
  let* b0 := lift (load binding) in
  let* replyType := Repending binding in
  lift (update binding (set_bindingStatus BIND_ASSOCIATED)) ;;
  let* pl := get addressPool in
  lift (update binding (fun b => if negb (truthy (leaseTime b)) then set_leaseTime (pool_leaseTime pl) b else b)) ;;
  let* t := lift Tmspsec in
  lift (update binding (set_bindingTime t)) ;;
  lift (update binding (fun b => set_expireIn (u64 (bindingTime b + leaseTime b)) b)) ;;
  lift (update binding (set_pendingTime (pendingTime b0))) ;;
  ret (if replyType =? REPLY_OFFER then REPLY_ACK else replyType).

Definition GetBinding (received : DhcpMsgInfo) : M Server (option BindingPtr) :=
  let mac := Codec.chaddr (packet received) in
  let* binding := lift (QueryBinding mac) in
  match binding with
  | Some p => ret (Some p)
  | None =>
      let* binding := lift (AddNewBinding mac) in
      match binding with
      | None => ret None
      | Some p =>
          let* pl := get addressPool in
          (if truthy (pool_leaseTime pl) then lift (update p (set_leaseTime (pool_leaseTime pl))) else ret tt) ;;
          let* ip := lift (AddressDistribute mac) in
          lift (update p (set_ipAddress ip)) ;;
          ret (Some p)
      end
  end.

Definition DiscoverReplyLeaseMessage (binding : BindingPtr) : M Server Z :=
  let* b := lift (load binding) in
  let* lease := lift (GetLease (ipAddress b)) in
  let* lease :=
    (match lease with
     | Some p => ret (Some p)
     | None => let* b := lift (load binding) in
               let* _added := lift (AddLease b) in lift (GetLease (ipAddress b))
     end) in
  match lease with
  | None => ret REPLY_NONE
  | Some p =>
      AddReplyMessageTypeOption DHCPOFFER ;;
      let* l := lift (load p) in
      upd_packet (set_yiaddr (ipAddress l)) ;;
      let* _common := ReplyCommontOption in
      ret REPLY_OFFER
  end.

Definition GetRequestIpAddress (received : DhcpMsgInfo) : Z :=
  match opts_get (options received) REQUESTED_IP_ADDRESS_OPTION with
  | Some o => ParseIp (data o)
  | None => 0
  end.

Definition OnReceivedDiscover (received : DhcpMsgInfo) : M Server Z :=
  let* srcIp := SourceIpAddress in
  let* enable := get broadCastFlagEnable in
  when (negb (truthy enable)) (DestinationAddr (if truthy srcIp then srcIp else INADDR_BROADCAST)) ;;
  let* binding := GetBinding received in
  match binding with
  | None => ret REPLY_NONE
  | Some p =>
      let* b := lift (load p) in
      if ipAddress b =? 0 then ret REPLY_NONE
      else
        let* _deleted := lift (DeleteMacInLease (Some p)) in
        DiscoverReplyLeaseMessage p
  end.

(** Returns the code and the new value of [*yourIpAddr]. *)
Definition GetYourIpAddress (received : DhcpMsgInfo) (yourIpAddr : Z) : M Server (Z * Z) :=
  let cliIp := ciaddr (packet received) in
  let* srcIp := SourceIpAddress in
  let reqIp := GetRequestIpAddress received in
  if truthy cliIp && truthy srcIp && negb (cliIp =? srcIp) then ret (RET_FAILED, yourIpAddr)
  else if truthy reqIp && truthy srcIp && negb (reqIp =? srcIp) then ret (RET_FAILED, yourIpAddr)
  else if truthy cliIp && truthy reqIp && negb (cliIp =? reqIp) then ret (RET_FAILED, yourIpAddr)
  else if negb (truthy srcIp) && negb (truthy cliIp) && negb (truthy reqIp) then ret (RET_FAILED, yourIpAddr)
  else
    let yourIpAddr := if usable_addr srcIp then srcIp
                      else if usable_addr cliIp then cliIp
                      else if usable_addr reqIp then reqIp else yourIpAddr in
    let* pl := get addressPool in
    if (ntohl yourIpAddr <? ntohl (beginAddress pl)) || (ntohl yourIpAddr >? ntohl (endAddress pl))
    then ret (RET_FAILED, yourIpAddr)
    else
      (if usable_addr srcIp then DestinationAddr srcIp
       else if srcIp =? INADDR_ANY then DestinationAddr INADDR_BROADCAST else ret tt) ;;
      ret (RET_SUCCESS, yourIpAddr).

(** The end of [NotBindingRequest]: the lease of the address is made the
    client's, or created from its binding. *)
Definition acknowledge_lease (binding : BindingPtr) (yourIpAddr : Z) : M Server Z :=
  let* lease := lift (GetLease yourIpAddr) in
  let* lease :=
    (match lease with
     | Some p => ret (Some p)
     | None => let* b := lift (load binding) in
               let* _added := lift (AddLease b) in lift (GetLease (ipAddress b))
     end) in
  match lease with
  | None => ret REPLY_NONE
  | Some p =>
      lift (update p (set_bindingStatus BIND_ASSOCIATED)) ;;
      let* t := lift Tmspsec in
      lift (update p (set_bindingTime t)) ;;
      let* b := lift (load binding) in
      lift (update p (fun l => set_expireIn (u64 (bindingTime l + leaseTime b)) l)) ;;
      let* l := lift (load p) in
      upd_packet (set_yiaddr (ipAddress l)) ;;
      ret REPLY_ACK
  end.

(** A new binding of the client to the address. *)
Definition bind_request (received : DhcpMsgInfo) (yourIpAddr : Z) : M Server Z :=
  let* binding := lift (AddNewBinding (Codec.chaddr (packet received))) in
  match binding with
  | None => ret REPLY_NONE
  | Some p =>
      lift (update p (set_ipAddress yourIpAddr)) ;;
      let* pl := get addressPool in
      (if truthy (pool_leaseTime pl) then lift (update p (set_leaseTime (pool_leaseTime pl))) else ret tt) ;;
      let* replyType := Repending p in
      if negb (replyType =? REPLY_OFFER) then ret replyType
      else acknowledge_lease p yourIpAddr
  end.

Definition NotBindingRequest (received : DhcpMsgInfo) : M Server Z :=
  let* '(r, yourIpAddr) := GetYourIpAddress received 0 in
  if negb (r =? RET_SUCCESS) then ret REPLY_NONE
  else
    let* lease := lift (GetLease yourIpAddr) in
    match lease with
    | None =>
        let* srcIp := SourceIpAddress in
        if truthy srcIp then ret REPLY_ACK else ret REPLY_NAK
    | Some p =>
        let* l := lift (load p) in
        let sameAddr := truthy (AddrEquels (chaddr l) (Codec.chaddr (packet received)) MAC_ADDR_LENGTH) in
        if (bindingStatus l =? BIND_ASSOCIATED) && negb sameAddr then
          let* expired := lift (IsExpire_at p) in
          if negb (truthy expired) then ret REPLY_NAK
          else
            let* _removed := lift (RemoveLease p) in
            bind_request received yourIpAddr
        else bind_request received yourIpAddr
    end.

(** Returns the code and the address of the request ([*yourIp], set when the
    code is [REPLY_ACK]). *)
Definition ValidateRequestMessage (received : DhcpMsgInfo) : M Server (Z * Z) :=
  let* '(r, yourIpAddr) := GetYourIpAddress received INADDR_BROADCAST in
  if negb (r =? RET_SUCCESS) then
    if usable_addr yourIpAddr then
      let* lease := lift (GetLease yourIpAddr) in
      (match lease with
       | Some p => let* _removed := lift (RemoveLease p) in ret tt
       | None => ret tt
       end) ;;
      let* _unbound := lift (RemoveBinding (Codec.chaddr (packet received))) in
      ret (REPLY_NAK, yourIpAddr)
    else ret (REPLY_NONE, yourIpAddr)
  else
    let* pl := get addressPool in
    match opts_get (options received) SERVER_IDENTIFIER_OPTION with
    | Some o =>
        if negb (ParseIp (data o) =? serverId pl) then ret (REPLY_NONE, yourIpAddr)
        else ret (REPLY_ACK, yourIpAddr)
    | None => ret (REPLY_ACK, yourIpAddr)
    end.

Definition HasNobindgRequest (received : DhcpMsgInfo) : M Server Z :=
  let* binding := lift (QueryBinding (Codec.chaddr (packet received))) in
  match binding with
  | None =>
      if ALLOW_NOBINDING_REQUEST then
        let* srcIp := SourceIpAddress in
        let reqIp := GetRequestIpAddress received in
        if (reqIp =? 0) && (srcIp =? 0) then ret REPLY_NONE
        else
          let* pl := get addressPool in
          if negb (truthy (IpInNetwork reqIp (serverId pl) (netmask pl))) then ret REPLY_NAK
          else NotBindingRequest received
      else ret REPLY_NONE
  | Some _ => ret REPLY_NONE
  end.

(** * Options of the request *)

(** The copy into a local buffer of [DEVICE_NAME_STRING_LENGTH] bytes. *)
Definition copy_fits (o : DhcpOption) : bool :=
  fst (memcpy_s (zeros 64) DEVICE_NAME_STRING_LENGTH (data o) (length_ o)).

Definition GetVendorIdentifierOption (received : DhcpMsgInfo) : Z :=
  match opts_get (options received) VENDOR_CLASS_IDENTIFIER_OPTION with
  | Some o => if negb (copy_fits o) then REPLY_NONE else REPLY_NAK
  | None => REPLY_NAK
  end.

Definition default_device_name : bytes := str "unknown-device".

(** [memchr(data, c, length)]. *)
Definition memchr (d : bytes) (c len : Z) : bool := bool_decide (c ∈ take (Z.to_nat len) d).

Definition GetHostNameOption (received : DhcpMsgInfo) (b : AddressBinding) : Z * AddressBinding :=
  match opts_get (options received) HOST_NAME_OPTION with
  | Some o =>
      if length_ o >=? DEVICE_NAME_STRING_LENGTH then (REPLY_NONE, b)
      else if memchr (data o) 10 (length_ o) || memchr (data o) 13 (length_ o) then (REPLY_NONE, b)
      else
        let '(ok, name) := memcpy_s (deviceName b) DEVICE_NAME_STRING_LENGTH (data o) (length_ o) in
        if negb ok then (REPLY_NONE, set_deviceName name b)
        else (REPLY_ACK, set_deviceName (<[Z.to_nat (length_ o) := 0]> name) b)
  | None =>
      let n := default_device_name ++ [0] in
      (REPLY_NONE, set_deviceName (n ++ drop (length n) (deviceName b)) b)
  end.

Definition GetUserClassOption (received : DhcpMsgInfo) (b : AddressBinding) : Z * AddressBinding :=
  match opts_get (options received) USER_CLASS_OPTION with
  | Some o =>
      let '(ok, u) := memcpy_s (userClass b) DEVICE_NAME_STRING_LENGTH (data o) (length_ o) in
      (if ok then REPLY_ACK else REPLY_NONE, set_userClass u b)
  | None => (REPLY_ACK, b)
  end.

Definition GetRapidCommitOption (received : DhcpMsgInfo) : Z :=
  match opts_get (options received) RAPID_COMMIT_OPTION with
  | Some o => if negb (copy_fits o) then REPLY_NONE else REPLY_ACK
  | None => REPLY_ACK
  end.

Definition GetOnlyIpv6Option (received : DhcpMsgInfo) : Z :=
  match opts_get (options received) IPV6_ONLY_PREFERRED_OPTION with
  | Some o => if negb (copy_fits o) then REPLY_NONE else REPLY_ACK
  | None => REPLY_ACK
  end.

(** It reads the same option code as [GetOnlyIpv6Option]. *)
Definition GetPortalUrlOption (received : DhcpMsgInfo) : Z :=
  match opts_get (options received) IPV6_ONLY_PREFERRED_OPTION with
  | Some o => if negb (copy_fits o) then REPLY_NONE else REPLY_ACK
  | None => REPLY_ACK
  end.

(** The results of the option functions are ignored. *)
Definition parse_options (received : DhcpMsgInfo) (b : AddressBinding) : AddressBinding :=
  let '(_, b) := GetHostNameOption received b in
  let _ := GetVendorIdentifierOption received in
  let '(_, b) := GetUserClassOption received b in
  let _ := (GetRapidCommitOption received, GetOnlyIpv6Option received, GetPortalUrlOption received) in
  b.

Definition ParseDhcpOption (received : DhcpMsgInfo) (p : BindingPtr) : M Server Z :=
  lift (update p (parse_options received)) ;; ret REPLY_ACK.

(** * The handlers *)

(** The branch of [OnReceivedRequest] for an address that has a lease;
    [true] is the early refusal. *)
Definition request_lease (received : DhcpMsgInfo) (binding lease : BindingPtr) : M Server bool :=
  let* _parsed := ParseDhcpOption received lease in
  let* l := lift (load lease) in
  let sameAddr := truthy (AddrEquels (chaddr l) (Codec.chaddr (packet received)) MAC_ADDR_LENGTH) in
  let* refused := (if negb sameAddr
                   then let* e := lift (IsExpire_at lease) in ret (negb (truthy e)) else ret false) in
  if refused : bool then ret true
  else
    let* expired := (if negb sameAddr
                     then let* e := lift (IsExpire_at lease) in ret (truthy e) else ret false) in
    let* b := lift (load binding) in
    lift (update lease (fun l =>
      if expired : bool
      then set_chaddr (snd (memcpy_s (chaddr l) DHCP_HWADDR_LENGTH (chaddr b) MAC_ADDR_LENGTH)) l else l)) ;;
    lift (update lease (set_bindingStatus BIND_ASSOCIATED)) ;;
    lift (update lease (set_bindingTime (bindingTime b))) ;;
    lift (update lease (set_expireIn (expireIn b))) ;;
    ret false.

Definition OnReceivedRequest (received : DhcpMsgInfo) : M Server Z :=
  let* '(r, yourIpAddr) := ValidateRequestMessage received in
  if negb (r =? REPLY_ACK) then ret r
  else
    let* binding := lift (QueryBinding (Codec.chaddr (packet received))) in
    match binding with
    | None => HasNobindgRequest received
    | Some p =>
        let* _rebound := Rebinding p in
        let* lease := lift (GetLease yourIpAddr) in
        let* refused := (match lease with
                         | Some q => request_lease received p q
                         | None => ret false
                         end) in
        if refused : bool then ret REPLY_NAK
        else
          let* b := lift (load p) in
          let bindingIp := ipAddress b in
          if truthy bindingIp && negb (yourIpAddr =? INADDR_BROADCAST) && negb (yourIpAddr =? bindingIp)
          then ret REPLY_NAK
          else
            upd_packet (set_yiaddr bindingIp) ;;
            let* _common := ReplyCommontOption in
            ret REPLY_ACK
    end.

Definition OnReceivedDecline (received : DhcpMsgInfo) : M Server Z :=
  let reqIp := GetRequestIpAddress received in
  if negb (truthy reqIp) then ret REPLY_NONE
  else
    let* binding := lift (QueryBinding (Codec.chaddr (packet received))) in
    match binding with
    | None => ret REPLY_NONE
    | Some p =>
        let* b := lift (load p) in
        if negb (ipAddress b =? reqIp) then ret REPLY_NONE
        else
          let* m := lift (get leases) in
          (match m !! reqIp with
           | Some _ =>
               lift (update (LeasePtr reqIp) (set_bindingStatus BIND_MODE_RESERVED)) ;;
               let* t := lift Tmspsec in
               lift (update (LeasePtr reqIp) (fun l => set_expireIn (u64 (t + leaseTime l)) l))
           | None => ret tt
           end) ;;
          let* _unbound := lift (RemoveBinding (Codec.chaddr (packet received))) in
          ret REPLY_NONE
    end.

Definition OnReceivedRelease (received : DhcpMsgInfo) : M Server Z :=
  let* binding := lift (QueryBinding (Codec.chaddr (packet received))) in
  match binding with
  | None => ret REPLY_NONE
  | Some p =>
      let* b := lift (load p) in
      let bindIp := ipAddress b in
      let reqIp := GetRequestIpAddress received in
      let* srcIp := SourceIpAddress in
      if negb (srcIp =? 0) && negb (reqIp =? 0) && negb (reqIp =? srcIp) then ret REPLY_NONE
      else if negb (bindIp =? 0) && negb (reqIp =? 0) && negb (reqIp =? bindIp) then ret REPLY_NONE
      else
        let* lease := lift (GetLease bindIp) in
        (match lease with
         | Some q => let* _removed := lift (RemoveLease q) in ret tt
         | None => ret tt
         end) ;;
        let* _released := lift (ReleaseBinding (Codec.chaddr (packet received))) in
        ret REPLY_NONE
  end.

Definition OnReceivedInform (received : DhcpMsgInfo) : M Server Z := ret REPLY_ACK.

Definition MessageProcess (received : DhcpMsgInfo) : M Server Z :=
  match opts_get (options received) DHCP_MESSAGE_TYPE_OPTION with
  | None => ret REPLY_NONE
  | Some o =>
      if length_ o =? 0 then ret REPLY_NONE
      else
        let messageType := byte_at (data o) 0 in
        if messageType =? DHCPDISCOVER then OnReceivedDiscover received
        else if messageType =? DHCPREQUEST then OnReceivedRequest received
        else if messageType =? DHCPDECLINE then OnReceivedDecline received
        else if messageType =? DHCPRELEASE then OnReceivedRelease received
        else if messageType =? DHCPINFORM then OnReceivedInform received
        else ret REPLY_NONE
  end.

(** * Receiving *)

(** The structure in memory, from its bytes (the inverse of [packet_bytes]). *)
Definition field32 (m : bytes) (off : nat) : Z := ParseIp (drop off m).
Definition field16 (m : bytes) (off : nat) : Z := byte_at m off + byte_at m (S off) * 2 ^ 8.
Definition message_of_bytes (m : bytes) : DhcpMessage :=
  mkMessage (byte_at m 0) (byte_at m 1) (byte_at m 2) (byte_at m 3)
    (field32 m 4) (field16 m 8) (field16 m 10) (field32 m 12) (field32 m 16) (field32 m 20) (field32 m 24)
    (take 16 (drop 28 m)) (take 64 (drop 44 m)) (take 128 (drop 108 m)) (take 312 (drop 236 m)).

Definition sizeof_DhcpMessage : Z := 548.

(** What [select] and [recvfrom] report: an error, a timeout, another
    descriptor, or [rsize] bytes from an address ([rsize] is 0 or negative when
    [recvfrom] fails). *)
Inductive recv_event :=
| EvSelectError
| EvTimeout
| EvNotSet
| EvRecv (rsize : Z) (datagram : bytes) (source : Z).

(** The bytes received overwrite the first [rsize] bytes of the packet; the
    rest keeps what an earlier message left there. *)
Definition receive_into (m : DhcpMsgInfo) (rsize : Z) (datagram : bytes) : DhcpMsgInfo :=
  set_packet (message_of_bytes (take (Z.to_nat rsize) datagram ++ drop (Z.to_nat rsize) (packet_bytes (packet m))))
    (set_msg_length rsize m).

Definition ReceiveDhcpMessage (ev : recv_event) : M Server Z :=
  match ev with
  | EvSelectError => ret ERR_SELECT
  | EvTimeout => ret RET_SELECT_TIME_OUT
  | EvNotSet => ret RET_ERROR
  | EvRecv rsize datagram source =>
      ResetSourceAddr ;;
      modify (set_src_addr INADDR_ANY) ;;
      modify (set_src_addr source) ;;
      if rsize =? 0 then ret RET_FAILED
      else if (rsize >? sizeof_DhcpMessage) || (rsize <? DHCP_MSG_HEADER_SIZE) then ret RET_FAILED
      else
        modify (fun s => set_from (receive_into (from s) rsize datagram) s) ;;
        let* msgInfo := get from in
        if negb (op (packet msgInfo) =? BOOTREQUEST) then ret RET_FAILED
        else if hlen (packet msgInfo) >? DHCP_HWADDR_LENGTH then ret RET_FAILED
        else if truthy (IsEmptyHWAddr (Codec.chaddr (packet msgInfo))) then ret RET_FAILED
        else
          let* reserved := lift (IsReserved (Codec.chaddr (packet msgInfo))) in
          if truthy reserved then ret RET_FAILED else ret RET_SUCCESS
  end.

(** [true] when there is no message to process. *)
Definition ContinueReceive (recvRet : Z) : M Server bool :=
  if negb (recvRet =? RET_SUCCESS) then ret true
  else
    let* msg := get from in
    let* '(r, msg) := from_option (ParseMessageOptions msg) in
    modify (set_from msg) ;;
    if negb (r =? 0) then ret true
    else
      match opts_get (options msg) DHCP_MESSAGE_TYPE_OPTION with
      | None => ret true
      | Some _ => ret false
      end.

Definition OnUpdateServerConfig : M Server unit :=
  let* cb := get callback in when cb (modify (add_event (EState ST_RELOADNG 0))).
Definition OnServerStoping : M Server unit :=
  let* cb := get callback in when cb (modify (add_event (EState ST_STOPING 0))).
Definition OnServerStoped (c : Z) : M Server unit :=
  let* cb := get callback in when cb (modify (add_event (EState ST_STOPED c))).

Definition OnLooperStateChanged : M Server Z :=
  let* st := get looperState in
  if st =? LS_RELOADNG then OnUpdateServerConfig ;; modify (set_looperState LS_RUNNING) ;; ret RET_SUCCESS
  else if st =? LS_STOPING then OnServerStoping ;; ret RET_BREAK
  else ret RET_SUCCESS.

Definition NotifyConnetDeviceChanged (replyType : Z) : M Server unit :=
  if (replyType =? REPLY_ACK) || (replyType =? REPLY_OFFER) then
    let* _saved := lift (SaveBindingRecoders 1) in
    let* fn := get deviceConnectFun in
    when ((replyType =? REPLY_ACK) && fn) (modify (add_event EConnected))
  else ret tt.

Definition SaveLease : M Server Z := lift (SaveBindingRecoders 1).

(** A message that was received and decoded. *)
Definition handle_message : M Server unit :=
  let* received := get from in
  InitReply received ;;
  let* replyType := MessageProcess received in
  (if truthy replyType then let* _sent := SendDhcpReply replyType in ret tt else ret tt) ;;
  NotifyConnetDeviceChanged replyType.

(** The body of the loop; [false] is the [break]. *)
Definition looper_body (ev : recv_event) : M Server bool :=
  let* r := OnLooperStateChanged in
  if negb (r =? RET_SUCCESS) then ret false
  else
    modify (fun s => set_from (set_options [] (from s)) s) ;;
    modify (fun s => set_reply (set_options [] (reply s)) s) ;;
    let* recvRet := ReceiveDhcpMessage ev in
    if (recvRet =? RET_ERROR) || (recvRet =? ERR_SELECT) then ret true
    else
      let* again := ContinueReceive recvRet in
      if again : bool then ret true
      else handle_message ;; ret true.

(** [BeginLooper]: the looper serves the given events; [true] is a looper still
    running after the last of them. *)
Fixpoint looper_loop (evs : list recv_event) : M Server bool :=
  let* st := get looperState in
  if negb (truthy st) then ret false
  else
    match evs with
    | [] => ret true
    | ev :: evs' =>
        let* continue := looper_body ev in
        if continue : bool then looper_loop evs' else ret false
    end.

Definition looper_start : M Server bool :=
  let* ifname := get ctx_ifname in
  modify (set_serverFd (InitServer ifname)) ;;
  let* fd := get serverFd in
  if fd <? 0 then ret false
  else modify (set_looperState LS_RUNNING) ;; ret true.

Definition looper_stop : M Server unit :=
  modify (set_serverFd (-1)) ;; modify (set_looperState LS_STOPED).

Definition BeginLooper (evs : list recv_event) : M Server bool :=
  let* started := looper_start in
  if negb started then ret false
  else
    let* running := looper_loop evs in
    if running : bool then ret true else looper_stop ;; ret false.

(** * Life cycle *)

Definition CheckAddressRange (pl : DhcpAddressPool) : Z :=
  let serverNetwork := NetworkAddress (serverId pl) (netmask pl) in
  let firstNetwork := NetworkAddress (beginAddress pl) (netmask pl) in
  let secondNetwork := NetworkAddress (endAddress pl) (netmask pl) in
  if negb (truthy serverNetwork) || negb (truthy firstNetwork) || negb (truthy secondNetwork) then DHCP_FALSE
  else if negb (serverNetwork =? firstNetwork) || negb (serverNetwork =? secondNetwork) then DHCP_FALSE
  else DHCP_TRUE.

Fixpoint InitBindingRecoders_loop (ls : list (Z * AddressBinding)) : M PoolState unit :=
  match ls with
  | [] => ret tt
  | (_, b) :: ls' =>
      (if negb (truthy (IsEmptyHWAddr (chaddr b))) && truthy (ipAddress b) then
         let* _added := AddBinding b in
         modify (fun s => if distribution (pool s) <? ipAddress b
                          then set_pool (set_distribution (ipAddress b) (pool s)) s else s)
       else ret tt) ;;
      InitBindingRecoders_loop ls'
  end.
Definition InitBindingRecoders : M PoolState unit :=
  let* m := get leases in InitBindingRecoders_loop (in_order m).

(** [dir_exists] is [access] on the directory of the lease file.  When it does
    not exist the code tests [!CreatePath(...)], which is true on success: the
    function returns after creating the directory. *)
Definition InitLeaseFile (dir_exists : bool) (create_path : Z) : M PoolState unit :=
  if negb dir_exists && (create_path =? 0) then ret tt
  else let* _loaded := LoadBindingRecoders in InitBindingRecoders.

(** The setters of the pool's configuration. *)
Definition configure_pool (c : DhcpConfig) (p : DhcpAddressPool) : DhcpAddressPool :=
  let range := truthy (cfg_begin c) && truthy (cfg_end c) in
  mkPool (pool_ifname p) (cfg_netmask c)
    (if range then cfg_begin c else FirstIpAddress (cfg_serverId c) (cfg_netmask c))
    (if range then cfg_end c else LastIpAddress (cfg_serverId c) (cfg_netmask c))
    (cfg_serverId c) (cfg_gateway c) (pool_leaseTime p) (renewalTime p) (rebindingTime p)
    (distribution p) (leaseTable p) (fixedOptions p).
Definition set_times (c : DhcpConfig) (p : DhcpAddressPool) : DhcpAddressPool :=
  mkPool (pool_ifname p) (netmask p) (beginAddress p) (endAddress p) (serverId p) (gateway p)
    (cfg_leaseTime c) (cfg_renewalTime c) (cfg_rebindingTime c) (distribution p) (leaseTable p) (fixedOptions p).

Definition InitServerContext (dir_exists : bool) (create_path : Z) (c : DhcpConfig) : M PoolState Z :=
  let* r := InitAddressPool (cfg_ifname c) in
  if negb (r =? RET_SUCCESS) then ret RET_FAILED
  else
    modify (fun s => set_pool (configure_pool c (pool s)) s) ;;
    let* pl := get pool in
    if negb (truthy (CheckAddressRange pl)) then ret RET_FAILED
    else
      InitLeaseFile dir_exists create_path ;;
      modify (fun s => set_pool (set_times c (pool s)) s) ;;
      ret RET_SUCCESS.

(** The options of the configuration are copied; an empty one is refused by
    the list.  [first_initialised] is [HasInitialized(&config->options)]. *)
Definition InitServerFixedOptions (first_initialised : bool) (c : DhcpConfig) : M PoolState Z :=
  if negb first_initialised then ret RET_FAILED
  else
    modify (fun s => set_pool (set_fixedOptions
      (fold_left (fun os o => snd (opts_push_back os o)) (cfg_options c) []) (pool s)) s) ;;
    ret RET_SUCCESS.

(** A cleared packet with an empty option list. *)
Definition zero_message : DhcpMsgInfo :=
  mkMsgInfo (mkMessage 0 0 0 0 0 0 0 0 0 0 0 (zeros 16) (zeros 64) (zeros 128) (zeros 312)) 0 [].

(** The calloc'ed context of a configuration; [None] is the null pointer.  The
    two message buffers belong to the looper's stack and are given as
    arguments, since the code does not initialise them. *)
Definition InitializeServer (dir_exists : bool) (create_path : Z) (first_initialised : bool)
    (from0 reply0 : DhcpMsgInfo) (c : DhcpConfig) (s : PoolState) : option (option Server * PoolState) :=
  if bool_decide (cfg_ifname c = []) then Some (None, s)
  else if negb (truthy (cfg_serverId c)) || negb (truthy (cfg_netmask c)) then Some (None, s)
  else
    '(r, s) ← InitServerContext dir_exists create_path c s;
    if negb (r =? RET_SUCCESS) then Some (None, s)
    else
      '(r, s) ← InitServerFixedOptions first_initialised c s;
      if negb (r =? RET_SUCCESS) then Some (None, s)
      else Some (Some (mkServer s (cfg_ifname c) (i32 (cfg_broadcast c)) LS_IDLE 0 1 false false 0 0 from0 reply0 []), s).

Definition StartDhcpServer (pthread_create : Z) : M Server Z :=
  let* ifname := get ctx_ifname in
  let* init := get srv_initialized in
  let* cb := get callback in
  if bool_decide (ifname = []) then ret RET_FAILED
  else if negb (truthy init) then ret RET_FAILED
  else
    when cb (modify (add_event (EState ST_STARTING 1))) ;;
    if negb (pthread_create =? RET_SUCCESS) then ret RET_FAILED else ret RET_SUCCESS.

Definition StopDhcpServer : M Server Z := modify (set_looperState LS_STOPING) ;; ret RET_SUCCESS.
Definition GetServerStatus : M Server Z := get looperState.

Definition RegisterDhcpCallback (b : bool) : M Server unit :=
  modify (fun s => mkServer (ps s) (ctx_ifname s) (broadCastFlagEnable s) (looperState s) (serverFd s)
    (srv_initialized s) b (deviceConnectFun s) (src_addr s) (dest_addr s) (from s) (reply s) (trace s)).
Definition RegisterDeviceChangedCallback (b : bool) : M Server unit :=
  modify (fun s => mkServer (ps s) (ctx_ifname s) (broadCastFlagEnable s) (looperState s) (serverFd s)
    (srv_initialized s) (callback s) b (src_addr s) (dest_addr s) (from s) (reply s) (trace s)).

(** The looper states seen at the five polls of [FreeServerContext]. *)
Fixpoint FreeServerContext_wait (times : nat) (states : nat -> Z) (i : nat) : bool :=
  if (states i =? LS_STOPED) || (states i =? LS_IDLE) then true
  else match times with
       | O | S O => false
       | S times' => FreeServerContext_wait times' states (S i)
       end.
Definition FreeServerContext (states : nat -> Z) : M Server Z :=
  if negb (FreeServerContext_wait 5 states 0) then ret RET_FAILED
  else lift FreeAddressPool ;; ret RET_SUCCESS.

End Server.
