(* ===== verification/ServerInvariant.v ===== *)
(** Memory safety of the server: an invariant of the server's state and its
    preservation by every handler and by the looper.

    A computation that does not touch the tables or the received message is
    [quiet]; the tactic of that name proves it.  The others are followed with
    the preservation lemmas of PoolInvariant. *)
From S2P Require Import Prelude AddressUtils OptionList Codec CommonUtil DottedQuad Binding AddressPool PoolInvariant Server.

(** ** Computations without effect on the tables *)

(** What a quiet computation leaves alone. *)
Definition same_core (s s' : Server) : Prop :=
  ps s' = ps s /\ from s' = from s /\ looperState s' = looperState s.

Definition quiet {A} (m : M Server A) : Prop := forall s, wp m (fun _ s' => same_core s s') s.

Lemma same_core_trans s1 s2 s3 : same_core s1 s2 -> same_core s2 s3 -> same_core s1 s3.
Proof. unfold same_core. intuition congruence. Qed.

Lemma quiet_ret {A} (a : A) : quiet (ret a).
Proof. by intros s. Qed.

Lemma quiet_get {A} (f : Server -> A) : quiet (get f).
Proof. by intros s. Qed.

Lemma quiet_bind {A B} (m : M Server A) (k : A -> M Server B) :
  quiet m -> (forall a, quiet (k a)) -> quiet (bind m k).
Proof.
  intros Hm Hk s. apply wp_bind. eapply wp_mono; [apply Hm|]. intros a s1 H1.
  eapply wp_mono; [apply Hk|]. intros b s2 H2. exact (same_core_trans _ _ _ H1 H2).
Qed.

Lemma quiet_when b m : quiet m -> quiet (when b m).
Proof. intros Hm s. apply wp_when; intros _; [apply Hm|done]. Qed.

Lemma quiet_modify f : (forall s, same_core s (f s)) -> quiet (modify f).
Proof. intros Hf s. apply wp_modify, Hf. Qed.

Lemma quiet_upd_packet f : quiet (upd_packet f).
Proof. by apply quiet_modify. Qed.
Lemma quiet_upd_options f : quiet (upd_options f).
Proof. by apply quiet_modify. Qed.
Lemma quiet_push_reply_option o : quiet (push_reply_option o).
Proof. apply quiet_upd_options. Qed.
Lemma quiet_add_event e : quiet (modify (add_event e)).
Proof. by apply quiet_modify. Qed.
Lemma quiet_set_reply r : quiet (modify (set_reply r)).
Proof. by apply quiet_modify. Qed.
Lemma quiet_set_dest_addr v : quiet (modify (set_dest_addr v)).
Proof. by apply quiet_modify. Qed.
Lemma quiet_set_src_addr v : quiet (modify (set_src_addr v)).
Proof. by apply quiet_modify. Qed.

Create HintDb quiet.
#[export] Hint Resolve quiet_ret quiet_get quiet_upd_packet quiet_upd_options quiet_push_reply_option
  quiet_add_event quiet_set_reply quiet_set_dest_addr quiet_set_src_addr : quiet.

(** One step of the proof that a computation is quiet, and all of them. *)
Ltac quiet_step :=
  cbv zeta beta;
  lazymatch goal with
  | |- quiet (bind _ _) => apply quiet_bind; [|intros]
  | |- quiet (when _ _) => apply quiet_when
  | |- quiet (if ?b then _ else _) => destruct b
  | |- quiet (match ?x with _ => _ end) => destruct x
  | |- quiet _ => solve [auto with quiet]
  end.
Ltac quiet := repeat quiet_step.

Section Quiet.
Context {PF : Platform} {IT : InetText} {NW : Network}.

Lemma quiet_SourceAddrIn : quiet SourceAddrIn.
Proof. unfold SourceAddrIn. quiet. Qed.
Hint Resolve quiet_SourceAddrIn : quiet.
Lemma quiet_ResetSourceAddr : quiet ResetSourceAddr.
Proof. unfold ResetSourceAddr. quiet. Qed.
Lemma quiet_DestinationAddr ip : quiet (DestinationAddr ip).
Proof. unfold DestinationAddr. quiet. Qed.
Hint Resolve quiet_ResetSourceAddr quiet_DestinationAddr : quiet.

(** The source address is always that of the cleared structure. *)
Lemma wp_SourceIpAddress Q s : Q 0 (set_src_addr INADDR_ANY s) -> wp SourceIpAddress Q s.
Proof. done. Qed.

Lemma quiet_SourceIpAddress : quiet SourceIpAddress.
Proof. unfold SourceIpAddress. quiet. Qed.
Lemma quiet_FillReply m : quiet (FillReply m).
Proof. unfold FillReply. quiet. Qed.
Hint Resolve quiet_SourceIpAddress quiet_FillReply : quiet.
Lemma quiet_InitReply m : quiet (InitReply m).
Proof. unfold InitReply. quiet. Qed.
Lemma quiet_AppendReplyTimeOptions : quiet AppendReplyTimeOptions.
Proof. unfold AppendReplyTimeOptions. quiet. Qed.
Lemma quiet_AddAddressOption o a : quiet (AddAddressOption o a).
Proof. unfold AddAddressOption. quiet. Qed.
Lemma quiet_AddReplyServerIdOption a : quiet (AddReplyServerIdOption a).
Proof. unfold AddReplyServerIdOption. quiet. Qed.
Lemma quiet_AddReplyMessageTypeOption t : quiet (AddReplyMessageTypeOption t).
Proof. unfold AddReplyMessageTypeOption. quiet. Qed.
Hint Resolve quiet_InitReply quiet_AppendReplyTimeOptions quiet_AddAddressOption
  quiet_AddReplyServerIdOption quiet_AddReplyMessageTypeOption : quiet.
Lemma quiet_ReplyCommontOption : quiet ReplyCommontOption.
Proof. unfold ReplyCommontOption. quiet. Qed.
Lemma quiet_AppendFixedOptions : quiet AppendFixedOptions.
Proof. unfold AppendFixedOptions. quiet. Qed.
Lemma quiet_AppendReplyTypeOption t : quiet (AppendReplyTypeOption t).
Proof. unfold AppendReplyTypeOption. quiet. Qed.
Lemma quiet_encode_reply : quiet encode_reply.
Proof. unfold encode_reply. quiet. Qed.
Lemma quiet_send_packet d : quiet (send_packet d).
Proof. unfold send_packet. quiet. Qed.
Hint Resolve quiet_ReplyCommontOption quiet_AppendFixedOptions quiet_AppendReplyTypeOption
  quiet_encode_reply quiet_send_packet : quiet.
Lemma quiet_TransmitOfferOrAckPacket : quiet TransmitOfferOrAckPacket.
Proof. unfold TransmitOfferOrAckPacket. quiet. Qed.
Hint Resolve quiet_TransmitOfferOrAckPacket : quiet.
Lemma quiet_SendDhcpOffer : quiet SendDhcpOffer.
Proof. unfold SendDhcpOffer. quiet. Qed.
Lemma quiet_SendDhcpAck : quiet SendDhcpAck.
Proof. unfold SendDhcpAck. quiet. Qed.
Lemma quiet_SendDhcpNak : quiet SendDhcpNak.
Proof. unfold SendDhcpNak. quiet. Qed.
Hint Resolve quiet_SendDhcpOffer quiet_SendDhcpAck quiet_SendDhcpNak : quiet.
Lemma quiet_SendDhcpReply t : quiet (SendDhcpReply t).
Proof. unfold SendDhcpReply. quiet. Qed.
Lemma quiet_GetYourIpAddress m y : quiet (GetYourIpAddress m y).
Proof. unfold GetYourIpAddress. quiet. Qed.
End Quiet.

#[export] Hint Resolve quiet_SourceAddrIn quiet_ResetSourceAddr quiet_DestinationAddr quiet_SourceIpAddress
  quiet_FillReply quiet_InitReply quiet_AppendReplyTimeOptions quiet_AddAddressOption
  quiet_AddReplyServerIdOption quiet_AddReplyMessageTypeOption quiet_ReplyCommontOption
  quiet_AppendFixedOptions quiet_AppendReplyTypeOption quiet_encode_reply quiet_send_packet
  quiet_TransmitOfferOrAckPacket quiet_SendDhcpOffer quiet_SendDhcpAck quiet_SendDhcpNak
  quiet_SendDhcpReply quiet_GetYourIpAddress : quiet.

(** ** The invariant *)

(** A packet buffer: every byte is one, and the arrays have their sizes. *)
Definition wf_packet (p : DhcpMessage) : Prop :=
  Forall is_u8 (packet_bytes p) /\ length (Codec.chaddr p) = 16%nat /\ length (sname p) = 64%nat /\
  length (Codec.file p) = 128%nat /\ length (msg_options p) = 312%nat.

Lemma is_u8_mod x : is_u8 (x mod 2 ^ 8).
Proof. unfold is_u8. apply Z.mod_pos_bound. lia. Qed.

Lemma le32_u8 x : Forall is_u8 (le32 x).
Proof. unfold le32. repeat constructor; apply is_u8_mod. Qed.

Lemma byte_at_u8 m i : Forall is_u8 m -> is_u8 (byte_at m i).
Proof.
  intros H. unfold byte_at. destruct (nth_in_or_default i m 0) as [Hin| ->]; [|unfold is_u8; lia].
  rewrite List.Forall_forall in H. by apply H.
Qed.

(** A structure read from 548 bytes is a well-formed packet. *)
Lemma wf_message_of_bytes m : length m = 548%nat -> Forall is_u8 m -> wf_packet (message_of_bytes m).
Proof.
  intros Hl Hm. unfold wf_packet, message_of_bytes, packet_bytes, header_bytes.
  cbn [op htype hlen hops xid secs flags ciaddr yiaddr siaddr giaddr Codec.chaddr sname Codec.file msg_options].
  split; [|rewrite !length_take, !length_drop; lia].
  assert (Hsub : forall n k, Forall is_u8 (take n (drop k m))) by (intros; by apply Forall_take, Forall_drop).
  repeat first [apply Forall_app; split | apply le32_u8 | apply Hsub].
  - repeat constructor; by apply byte_at_u8.
  - unfold le16. repeat constructor; apply is_u8_mod.
  - unfold le16. repeat constructor; apply is_u8_mod.
Qed.

Lemma length_packet_bytes p : wf_packet p -> length (packet_bytes p) = 548%nat.
Proof.
  intros (_ & H1 & H2 & H3 & H4). unfold packet_bytes, header_bytes, le16. rewrite !length_app, !length_le32.
  cbn [length]. lia.
Qed.

Section Safety.
Context {PF : Platform} {IT : InetText} {NW : Network}.
Variable K : bytes -> Prop.
Variable c : DhcpAddressPool.
Hypothesis HK : clients K.
Hypothesis Hc : valid_pool c.

Definition server_inv (s : Server) : Prop := pool_inv K c (ps s) /\ wf_packet (packet (from s)).

(** A message of one of the clients, as it leaves the decoder. *)
Definition ok_request (m : DhcpMsgInfo) : Prop :=
  K (Codec.chaddr (packet m)) /\ Forall decoded (options m).

Definition mac_of (m : DhcpMsgInfo) : bytes := Codec.chaddr (packet m).

(** What a handler leaves of the state besides the tables and the reply. *)
Definition frame (s s' : Server) : Prop := from s' = from s /\ looperState s' = looperState s.

Lemma frame_trans s1 s2 s3 : frame s1 s2 -> frame s2 s3 -> frame s1 s3.
Proof. unfold frame. intuition congruence. Qed.

(** [s] follows [s0] with the element [p] now [b] and the others unchanged. *)
Record at_elem (p : BindingPtr) (b : AddressBinding) (s0 s : Server) : Prop := {
  at_inv : pool_inv K c (ps s);
  at_frame : frame s0 s;
  at_deref : deref p (ps s) = Some b;
  at_others : tables_but (Some p) (ps s0) (ps s)
}.

Lemma at_start p b s : pool_inv K c (ps s) -> deref p (ps s) = Some b -> at_elem p b s s.
Proof. intros H1 H2. by split. Qed.

Lemma at_ok p b s0 s : at_elem p b s0 s -> ok_at K c p b.
Proof. intros []. by eapply deref_ok. Qed.

Lemma ok_at_ext p b b' :
  chaddr b' = chaddr b -> ipAddress b' = ipAddress b -> deviceName b' = deviceName b ->
  userClass b' = userClass b -> portalUrl b' = portalUrl b -> ok_at K c p b -> ok_at K c p b'.
Proof.
  intros E1 E2 E3 E4 E5. destruct p; cbn; unfold ok_binding, ok_lease, wf_rec;
    rewrite E1, E2, E3, E4, E5; done.
Qed.

Lemma wp_lift {A} (m : M PoolState A) Q s :
  wp m (fun a p => Q a (set_ps p s)) (ps s) -> wp (lift m) Q s.
Proof. unfold wp, lift. by destruct (m (ps s)) as [[a p]|]. Qed.

Lemma wp_quiet {A} (m : M Server A) (Q : A -> Server -> Prop) s :
  quiet m -> (forall a s', same_core s s' -> Q a s') -> wp m Q s.
Proof. intros Hm HQ. eapply wp_mono; [apply Hm|exact HQ]. Qed.

Lemma at_quiet p b s0 s s' : same_core s s' -> at_elem p b s0 s -> at_elem p b s0 s'.
Proof.
  intros (E1 & E2 & E3) [H1 [H2 H3] H4 H5]. split; rewrite ?E1; try done. split; congruence.
Qed.

Lemma wp_at_quiet {A} (m : M Server A) (Q : A -> Server -> Prop) p b s0 s :
  quiet m -> at_elem p b s0 s -> (forall a s', at_elem p b s0 s' -> Q a s') -> wp m Q s.
Proof. intros Hm Hs HQ. apply wp_quiet; [done|]. intros a s' H. apply HQ. by eapply at_quiet. Qed.

Lemma wp_at_load (Q : AddressBinding -> Server -> Prop) p b s0 s :
  at_elem p b s0 s -> Q b s -> wp (lift (load p)) Q s.
Proof.
  intros Hs HQ. apply wp_lift. eapply wp_load_at; [apply Hs|]. by destruct s.
Qed.

Lemma wp_at_update f (Q : unit -> Server -> Prop) p b s0 s :
  at_elem p b s0 s -> ok_at K c p (f b) ->
  (forall s', at_elem p (f b) s0 s' -> Q tt s') -> wp (lift (update p f)) Q s.
Proof.
  intros Hs Hf HQ. apply wp_lift.
  eapply wp_mono; [apply (keeps_update K c p f b); [apply Hs|apply Hs|done]|].
  intros [] P (H1 & H2 & H3). apply HQ. split; [done| |done|].
  - apply Hs.
  - eapply tables_but_trans; [apply Hs|done].
Qed.

Lemma wp_at_time (Q : Z -> Server -> Prop) p b s0 s :
  at_elem p b s0 s -> (forall t s', at_elem p b s0 s' -> Q t s') -> wp (lift Tmspsec) Q s.
Proof.
  intros Hs HQ. apply wp_lift. eapply wp_mono; [apply keeps_Tmspsec, Hs|].
  intros t P (H1 & _ & H3). apply HQ. split; [done|apply Hs| |].
  - cbn. rewrite (H3 p) by done. apply Hs.
  - eapply tables_but_trans; [apply Hs|by apply same_tables_but].
Qed.

(** ** Pending intervals *)

(** The fields of a record that renewal keeps. *)
Definition same_client (b b' : AddressBinding) : Prop :=
  chaddr b' = chaddr b /\ ipAddress b' = ipAddress b /\ deviceName b' = deviceName b /\
  userClass b' = userClass b /\ portalUrl b' = portalUrl b.

Lemma same_client_ok p b b' : same_client b b' -> ok_at K c p b -> ok_at K c p b'.
Proof. intros (? & ? & ? & ? & ?). by apply ok_at_ext. Qed.

(** Updates that keep those fields. *)
Ltac at_update := eapply wp_at_update; [eassumption|
  eapply ok_at_ext; [| | | | |eapply at_ok; eassumption]; reflexivity|].

Lemma Repending_at p b s0 s : at_elem p b s0 s ->
  wp (Repending p) (fun r s' => exists b', at_elem p b' s0 s' /\ same_client b b' /\
    leaseTime b' = leaseTime b /\ (r = REPLY_NONE \/ r = REPLY_OFFER)) s.
Proof.
  intros Hs. unfold Repending. apply wp_bind. eapply wp_at_load; [eassumption|]. cbv zeta.
  apply wp_bind. at_update. intros s1 Hs1. apply wp_bind. eapply wp_at_time; [eassumption|].
  intros t s2 Hs2. apply wp_bind. eapply wp_at_load; [eassumption|]. cbv zeta. apply wp_if; intros _.
  - apply wp_bind. at_update. intros s3 Hs3. apply wp_ret. eexists. split; [exact Hs3|].
    split; [done|]. split; [done|by left].
  - apply wp_bind. at_update. intros s3 Hs3. apply wp_bind. at_update. intros s4 Hs4.
    apply wp_bind. at_update. intros s5 Hs5. apply wp_bind, wp_SourceIpAddress.
    apply wp_if; intros E; [discriminate E|clear E].
    apply wp_bind, wp_if; intros E; [discriminate E|clear E].
    apply wp_ret, wp_ret. eexists. split; [eapply at_quiet; [|exact Hs5]; done|].
    split; [done|]. split; [done|by right].
Qed.

Lemma Rebinding_at p b s0 s : at_elem p b s0 s ->
  wp (Rebinding p) (fun r s' => exists b', at_elem p b' s0 s' /\ same_client b b' /\
    bindingStatus b' = BIND_ASSOCIATED /\ expireIn b' = u64 (bindingTime b' + leaseTime b')) s.
Proof.
  intros Hs. unfold Rebinding. apply wp_bind. eapply wp_at_load; [eassumption|].
  apply wp_bind. eapply wp_mono; [eapply Repending_at; eassumption|].
  intros r s1 (b1 & Hs1 & Hb1 & _). apply wp_bind. at_update. intros s2 Hs2.
  apply wp_bind, wp_get, wp_bind. eapply wp_at_update; [eassumption|..].
  { destruct (negb _); (eapply ok_at_ext; [| | | | |eapply at_ok; eassumption]; reflexivity). }
  intros s3 Hs3. apply wp_bind. eapply wp_at_time; [eassumption|]. intros t s4 Hs4.
  apply wp_bind. at_update. intros s5 Hs5. apply wp_bind. at_update. intros s6 Hs6.
  apply wp_bind. at_update. intros s7 Hs7. apply wp_ret. eexists. split; [exact Hs7|].
  destruct Hb1 as (? & ? & ? & ? & ?).
  destruct (negb _); (split; [by split_and!|]); done.
Qed.

Lemma set_ps_id s : set_ps (ps s) s = s.
Proof. by destruct s. Qed.

(** ** Discover *)

Lemma binding_owner mac h b P : K mac -> h = macAddrHash mac -> pool_inv K c P ->
  bindingRecoders P !! h = Some b -> chaddr b = mac.
Proof.
  intros Hm -> HP Hb. destruct (pi_binding _ _ _ HP _ _ Hb) as (E & (Hk & _) & _).
  by apply (cl_hash _ HK).
Qed.

Notation hash_of m := (macAddrHash (mac_of m)).

Lemma GetBinding_spec m s : pool_inv K c (ps s) -> K (mac_of m) ->
  wp (GetBinding m) (fun r s' => pool_inv K c (ps s') /\ frame s s' /\
    r = Some (BindPtr (hash_of m)) /\ exists b, bindingRecoders (ps s') !! hash_of m = Some b /\
      match bindingRecoders (ps s) !! hash_of m with
      | Some b0 => b = b0 /\ ps s' = ps s
      | None => (findable (mac_of m) (ps s) -> ipAddress b <> 0) /\
          (ipAddress b = 0 \/
           IpInRange (ipAddress b) (beginAddress c) (endAddress c) (netmask c) = DHCP_TRUE /\
           exists l, leases (ps s') !! ipAddress b = Some l /\ chaddr l = mac_of m)
      end) s.
Proof.
  intros Hs Hm. unfold GetBinding. fold (mac_of m). apply wp_bind, wp_lift.
  eapply wp_mono; [by apply keeps_QueryBinding|]. intros r P (_ & -> & Hr).
  destruct r as [p|].
  { destruct Hr as (-> & b & Hb & Hok). cbn in Hb. apply wp_ret. rewrite Hb.
    split; [done|]. split; [done|]. split; [done|]. by exists b. }
  rewrite Hr. clear Hr. apply wp_bind, wp_lift.
  eapply wp_mono; [by apply (keeps_AddNewBinding K c HK)|].
  intros r P (HP & -> & (b & Hb & Hbm & Hb0 & Hmode & Hok) & _ & Epool & Emode).
  set (p := BindPtr (hash_of m)) in *. apply wp_bind, wp_get, wp_bind.
  apply wp_mono with (Q := fun _ s' => exists b', ps s' = assign p b' P /\ frame s s' /\
    chaddr b' = mac_of m /\ bindingMode b' = BIND_MODE_DYNAMIC /\ ok_at K c p b').
  { assert (Hokp : ok_at K c p b) by (split; [by rewrite Hbm|done]).
    apply wp_if; intros _.
    - apply wp_lift. eapply wp_update_at; [exact Hb|]. by eexists.
    - apply wp_ret. exists b. split; [|by split_and!]. cbn in Hb |- *. rewrite insert_id by done. by destruct P. }
  intros _ s2 (b2 & E2 & F2 & Hm2 & Hmode2 & Hok2).
  assert (Hs2 : pool_inv K c (ps s2)) by (rewrite E2; by apply assign_inv).
  assert (Hb2 : bindingRecoders (ps s2) !! hash_of m = Some b2) by (rewrite E2; apply (deref_assign p)).
  apply wp_bind, wp_lift. eapply wp_mono.
  { apply (wp_and_imp _ (findable (mac_of m) (ps s)));
      [by apply (keeps_AddressDistribute K c HK Hc (mac_of m) b2)|].
    intros Hf. apply findable_spec; [eapply findable_ext; [| |exact Hf]; by rewrite E2|].
    intros b' Hb'. rewrite Hb2 in Hb'. simplify_eq. by rewrite Hmode2. }
  cbv beta. intros ip P3 [(HP3 & Hb3 & Hip) Hfound]. set (s3 := set_ps P3 s2).
  assert (Hs3 : at_elem p b2 s3 s3) by (by apply at_start).
  apply wp_bind. eapply wp_at_update; [exact Hs3|..].
  - destruct (pi_binding _ _ _ HP3 _ _ Hb3) as (E & Hw & _). split; [done|]. split; [done|].
    destruct Hip as [->|[Hg _]]; [by left|by right].
  - intros s4 Hs4. apply wp_ret. split; [apply Hs4|]. split; [by eapply frame_trans; [exact F2|apply Hs4]|].
    split; [done|]. eexists. split; [apply Hs4|]. split; [done|].
    destruct Hip as [->|(Hg & l & Hl & Hlm & Hgr)]; [by left|right]. split.
    + destruct (config_fields _ _ _ Hs2) as (C1 & C2 & C3 & _). rewrite <- C1, <- C2, <- C3.
      apply (grt_range _ _ _ _ Hgr).
    + exists l. split; [|done]. rewrite <- Hl. by apply (at_others _ _ _ _ Hs4 (LeasePtr ip)).
Qed.

(** The common options do not touch the packet. *)
Definition same_packet (s s' : Server) : Prop := same_core s s' /\ packet (reply s') = packet (reply s).

Lemma wp_AddAddressOption o a (Q : unit -> Server -> Prop) s :
  (forall s', same_packet s s' -> Q tt s') -> wp (AddAddressOption o a) Q s.
Proof.
  intros HQ. unfold AddAddressOption. destruct (AppendAddressOption _ a) as [r [o'|]]; [|by apply wp_ret, HQ].
  apply wp_if; intros _; [by apply wp_ret, HQ|]. by apply wp_modify, HQ.
Qed.

Lemma wp_ReplyCommontOption s :
  wp ReplyCommontOption (fun r s' => r = REPLY_OFFER /\ same_packet s s') s.
Proof.
  assert (Htrans : forall s1 s2 s3, same_packet s1 s2 -> same_packet s2 s3 -> same_packet s1 s3).
  { intros s1 s2 s3 [H1 E1] [H2 E2]. split; [by eapply same_core_trans|congruence]. }
  unfold ReplyCommontOption. apply wp_bind, wp_get, wp_bind, wp_AddAddressOption. intros s1 H1.
  apply wp_bind. apply wp_mono with (Q := fun _ s' => same_packet s s').
  { apply wp_when; intros _; [|done]. apply wp_AddAddressOption. intros s2 H2. by eapply Htrans. }
  intros _ s2 H2. apply wp_bind, wp_modify, wp_bind, wp_get. cbv zeta. apply wp_bind, wp_AddAddressOption.
  intros s4 H4. apply wp_ret. split; [done|]. eapply Htrans; [exact H2|]. eapply Htrans; [|exact H4]. done.
Qed.

(** An address of a binding, when offered, has a lease: the one the table had
    for it, or a copy of the binding. *)
Lemma DiscoverReplyLeaseMessage_spec h b s : pool_inv K c (ps s) -> bindingRecoders (ps s) !! h = Some b ->
  wp (DiscoverReplyLeaseMessage (BindPtr h)) (fun r s' => pool_inv K c (ps s') /\ frame s s' /\
    bindingRecoders (ps s') = bindingRecoders (ps s) /\
    (forall ip, ip <> ipAddress b -> leases (ps s') !! ip = leases (ps s) !! ip) /\
    (bad_lease b = false -> r = REPLY_OFFER) /\
    (r = REPLY_OFFER -> yiaddr (packet (reply s')) = ipAddress b /\ ipAddress b <> 0 /\
       leases (ps s') !! ipAddress b = Some (default b (leases (ps s) !! ipAddress b)))) s.
Proof.
  intros Hs Hb. unfold DiscoverReplyLeaseMessage. apply wp_bind, wp_lift.
  eapply wp_load_at; [exact Hb|]. apply wp_bind, wp_lift.
  eapply wp_mono; [by apply keeps_GetLease|]. intros r P (_ & -> & Hr). rewrite !set_ps_id in *.
  apply wp_bind. set (Q := fun (r : option BindingPtr) (s' : Server) => pool_inv K c (ps s') /\ frame s s' /\
    bindingRecoders (ps s') = bindingRecoders (ps s) /\
    (forall ip, ip <> ipAddress b -> leases (ps s') !! ip = leases (ps s) !! ip) /\
    (bad_lease b = false -> r <> None) /\
    match r with None => True | Some p => p = LeasePtr (ipAddress b) /\ ipAddress b <> 0 /\
      leases (ps s') !! ipAddress b = Some (default b (leases (ps s) !! ipAddress b)) end).
  apply wp_mono with (Q := Q).
  { destruct r as [p|].
    - destruct Hr as (-> & l & Hl & Hw & Hip & Hg). apply wp_ret. cbn in Hl. unfold Q.
      split_and!; try done. + apply Hg. + cbn. by rewrite Hl.
    - apply wp_bind, wp_lift. eapply wp_load_at; [exact Hb|]. rewrite set_ps_id.
      destruct (pi_binding _ _ _ Hs _ _ Hb) as (_ & Hok). apply wp_bind, wp_lift.
      eapply wp_mono; [by apply keeps_AddLease|]. intros rr P (HP & Ht & Hgood & Hbad).
      apply wp_lift. eapply wp_mono; [by apply keeps_GetLease|]. intros r P' (_ & -> & Hr').
      change (ps (set_ps P s)) with P in *. change (set_ps P (set_ps P s)) with (set_ps P s).
      assert (Eothers : forall ip, ip <> ipAddress b -> leases P !! ip = leases (ps s) !! ip).
      { intros ip Hip. apply (Ht (LeasePtr ip)). congruence. }
      assert (Ebind : bindingRecoders P = bindingRecoders (ps s)).
      { apply map_eq. intros h'. by apply (Ht (BindPtr h')). }
      destruct (bad_lease b) eqn:E; [rewrite (Hbad eq_refl) in *|specialize (Hgood eq_refl)].
      + unfold Q. split_and!; try done. destruct r as [p|]; [|done].
        destruct Hr' as (-> & l & Hl & Hw & Hip & Hg). destruct Hr as [Hr|Hr]; [by rewrite Hr in Hg; destruct Hg|].
        cbn in Hl. by rewrite Hr in Hl.
      + unfold bad_lease in E. btauto_hyps. unfold Q. destruct r as [p|].
        * destruct Hr' as (-> & l & Hl & _). split_and!; try done. cbn in Hgood |- *. change (leases (ps (set_ps P s))) with (leases P). rewrite Hgood.
          destruct Hr as [Hr|Hr]; [done|]. by rewrite Hr.
        * cbn in Hgood. destruct Hr' as [?|Hr']; [done|]. by rewrite Hr' in Hgood. }
  intros r1 s1 (H1 & H2 & H3 & H3' & H4 & H5). destruct r1 as [p|].
  2: { apply wp_ret. split_and!; try done. intros E. by destruct (H4 E). }
  destruct H5 as (-> & Hne & Hl). apply wp_bind, wp_quiet; [auto with quiet|]. intros _ s2 (E2 & F2 & F2').
  apply wp_bind, wp_lift. rewrite E2. eapply wp_load_at; [exact Hl|].
  assert (Hip : ipAddress (default b (leases (ps s) !! ipAddress b)) = ipAddress b).
  { destruct (leases (ps s) !! ipAddress b) as [l|] eqn:El; [|done]. cbn.
    by destruct (pi_lease _ _ _ Hs _ _ El) as (_ & ? & _). }
  rewrite Hip. apply wp_bind, wp_modify, wp_bind.
  match goal with |- wp _ _ ?s => set (s3 := s) end.
  eapply wp_mono; [apply (wp_ReplyCommontOption s3)|]. intros _ s4 (_ & (E4 & F4 & F4') & Hp).
  apply wp_ret. rewrite E4. change (ps s3) with (ps s1). split; [done|].
  split; [split; [by rewrite F4, <- (proj1 H2), <- F2|by rewrite F4', <- (proj2 H2), <- F2']|].
  split; [done|]. split; [done|]. split; [done|]. intros _. by rewrite Hp.
Qed.

(** What a DISCOVER of the client [mac] leaves: its binding [b], the only lease
    of the client at the binding's address, and an offer of that address, unless
    it is 0.  The lease is a copy of the binding unless another client holds
    one for the address. *)
Record discovered (m : DhcpMsgInfo) (s : Server) (r : Z) (s' : Server) (b : AddressBinding) : Prop := {
  dsc_binding : bindingRecoders (ps s') !! macAddrHash (mac_of m) = Some b;
  dsc_owner : chaddr b = mac_of m;
  dsc_old : forall b0, bindingRecoders (ps s) !! macAddrHash (mac_of m) = Some b0 -> b = b0;
  dsc_new : bindingRecoders (ps s) !! macAddrHash (mac_of m) = None ->
    (findable (mac_of m) (ps s) -> ipAddress b <> 0) /\
    (ipAddress b <> 0 -> IpInRange (ipAddress b) (beginAddress c) (endAddress c) (netmask c) = DHCP_TRUE);
  dsc_none : ipAddress b = 0 -> r = REPLY_NONE;
  dsc_offer : ipAddress b <> 0 -> r = REPLY_OFFER /\ good_ip c (ipAddress b) /\
    yiaddr (packet (reply s')) = ipAddress b /\
    (exists l, leases (ps s') !! ipAddress b = Some l /\
      (l = b \/ (chaddr l <> mac_of m /\ leases (ps s) !! ipAddress b = Some l /\
                bindingRecoders (ps s) !! macAddrHash (mac_of m) = Some b))) /\
    (forall ip l, leases (ps s') !! ip = Some l -> chaddr l = mac_of m -> ip = ipAddress b)
}.

Lemma OnReceivedDiscover_spec m s : pool_inv K c (ps s) -> K (mac_of m) ->
  wp (OnReceivedDiscover m) (fun r s' => pool_inv K c (ps s') /\ frame s s' /\
    exists b, discovered m s r s' b) s.
Proof.
  intros Hs Hm. unfold OnReceivedDiscover. apply wp_bind, wp_SourceIpAddress, wp_bind, wp_get, wp_bind.
  apply wp_quiet; [quiet|]. intros _ s1 (E1 & F1 & F1'). cbn in E1, F1, F1'. apply wp_bind.
  eapply wp_mono; [apply GetBinding_spec; [by rewrite E1|done]|].
  intros r s2 (Hs2 & F2 & -> & b & Hb & Hold). rewrite E1 in Hold.
  pose proof (binding_owner _ _ _ _ Hm eq_refl Hs2 Hb) as Hown.
  destruct (pi_binding _ _ _ Hs2 _ _ Hb) as (_ & Hw & Hip).
  assert (F : frame s s2) by (destruct F2; split; congruence).
  assert (Hold' : forall b0, bindingRecoders (ps s) !! macAddrHash (mac_of m) = Some b0 -> b = b0 /\ ps s2 = ps s).
  { intros b0 E. rewrite E in Hold. by destruct Hold as [-> ->]. }
  assert (Hnew : bindingRecoders (ps s) !! macAddrHash (mac_of m) = None ->
    (findable (mac_of m) (ps s) -> ipAddress b <> 0) /\
    (ipAddress b <> 0 -> IpInRange (ipAddress b) (beginAddress c) (endAddress c) (netmask c) = DHCP_TRUE)).
  { intros E. rewrite E in Hold. destruct Hold as [Hf Hr]. split; [done|].
    by destruct Hr as [?|[? _]]. }
  apply wp_bind, wp_lift. eapply wp_load_at; [exact Hb|]. rewrite set_ps_id.
  apply wp_if; intros E0; btauto_hyps.
  { apply wp_ret. split; [done|]. split; [done|]. exists b. split; try done.
    intros b0 E. by apply Hold'. }
  apply wp_bind, wp_lift. eapply wp_mono; [by apply keeps_DeleteMacInLease|]. intros _ P (HP & EP).
  set (s3 := set_ps P s2). assert (Hb3 : bindingRecoders (ps s3) !! macAddrHash (mac_of m) = Some b) by (by subst P).
  eapply wp_mono; [by apply (DiscoverReplyLeaseMessage_spec _ b s3)|].
  intros r s4 (Hs4 & F4 & Eb4 & Heq4 & Hoffer & Hyi). split; [done|]. split; [by apply (frame_trans s s3 s4)|].
  assert (Hbad : bad_lease b = false).
  { unfold bad_lease. rewrite Hown, (cl_nonempty _ HK) by done. by rewrite (proj2 (Z.eqb_neq _ _) E0). }
  specialize (Hoffer Hbad) as ->. destruct (Hyi eq_refl) as (Hy & _ & Hl4).
  exists b. split; try done.
  - by rewrite Eb4.
  - intros b0 E. by apply Hold'.
  - intros _. split; [done|]. split; [by destruct Hip|]. split; [done|].
    assert (HlP : leases P = filter (fun kl => same kl.2 (chaddr b) = false) (leases (ps s2))) by (by subst P).
    assert (Hfil : forall ip l, leases P !! ip = Some l -> leases (ps s2) !! ip = Some l /\ chaddr l <> mac_of m).
    { intros ip l. rewrite HlP. intros [Hl Hne]%map_lookup_filter_Some. split; [done|].
      destruct (pi_lease _ _ _ Hs2 _ _ Hl) as ((Hk & _) & _). cbn in Hne. rewrite Hown in Hne.
      intros E. apply (same_eq K HK) in E; [|done..]. congruence. }
    change (leases (ps s3)) with (leases P) in *. split.
    + eexists. split; [exact Hl4|]. destruct (leases P !! ipAddress b) as [l|] eqn:El; [right|by left].
      cbn. destruct (Hfil _ _ El) as [Hl Hlm]. split; [done|].
      destruct (bindingRecoders (ps s) !! macAddrHash (mac_of m)) as [b0|] eqn:Eb.
      * destruct Hold as [-> Eps]. by rewrite <- Eps.
      * exfalso. destruct Hold as [_ [?|(_ & l' & Hl' & Hlm')]]; [done|]. rewrite Hl in Hl'. by simplify_eq.
    + intros ip l Hl Hlm. destruct (decide (ip = ipAddress b)) as [|Hne]; [done|].
      rewrite Heq4 in Hl by done. by destruct (Hfil _ _ Hl).
Qed.

(** ** Request *)

(** [GetYourIpAddress] with the source address that is always 0. *)
Definition your_ip (m : DhcpMsgInfo) (y : Z) (pl : DhcpAddressPool) : Z * Z :=
  let cliIp := ciaddr (packet m) in
  let reqIp := GetRequestIpAddress m in
  if truthy cliIp && truthy reqIp && negb (cliIp =? reqIp) then (RET_FAILED, y)
  else if negb (truthy cliIp) && negb (truthy reqIp) then (RET_FAILED, y)
  else
    let y := if usable_addr cliIp then cliIp else if usable_addr reqIp then reqIp else y in
    if (ntohl y <? ntohl (beginAddress pl)) || (ntohl y >? ntohl (endAddress pl))
    then (RET_FAILED, y) else (RET_SUCCESS, y).

Lemma wp_GetYourIpAddress m y (Q : Z * Z -> Server -> Prop) s :
  (forall s', same_core s s' -> Q (your_ip m y (addressPool s)) s') -> wp (GetYourIpAddress m y) Q s.
Proof.
  intros HQ. unfold GetYourIpAddress, your_ip in *. cbv zeta in *. apply wp_bind, wp_SourceIpAddress.
  change (truthy 0) with false. rewrite !andb_false_r. cbn [andb negb].
  destruct (truthy (ciaddr (packet m)) && truthy (GetRequestIpAddress m) && _); [by apply wp_ret, HQ|].
  destruct (negb (truthy (ciaddr (packet m))) && _); [by apply wp_ret, HQ|].
  change (usable_addr 0) with false. cbv iota. apply wp_bind, wp_get.
  change (addressPool (set_src_addr INADDR_ANY s)) with (addressPool s).
  destruct ((_ <? _) || _); [by apply wp_ret, HQ|]. apply wp_bind.
  change (0 =? INADDR_ANY) with true. cbv iota. unfold DestinationAddr. by apply wp_modify, wp_ret, HQ.
Qed.

Lemma your_ip_good m y s : pool_inv K c (ps s) -> fst (your_ip m y (addressPool s)) = RET_SUCCESS ->
  good_ip c (snd (your_ip m y (addressPool s))).
Proof.
  intros Hs. destruct (config_fields _ _ _ Hs) as (E1 & E2 & _). unfold your_ip, addressPool. rewrite E1, E2.
  cbv zeta. destruct (_ && _ && _); [done|]. destruct (_ && _); [done|].
  destruct ((_ <? _) || _) eqn:E; [done|]. intros _. cbn [snd]. apply host_range_good; [done|].
  btauto_hyps. lia.
Qed.

Lemma acknowledge_lease_keeps h b y s : pool_inv K c (ps s) -> bindingRecoders (ps s) !! h = Some b ->
  ipAddress b = y -> wp (acknowledge_lease (BindPtr h) y)
    (fun r s' => pool_inv K c (ps s') /\ frame s s' /\ (r = REPLY_NONE \/ r = REPLY_ACK)) s.
Proof.
  intros Hs Hb Hy. unfold acknowledge_lease. apply wp_bind, wp_lift.
  eapply wp_mono; [by apply keeps_GetLease|]. intros r P (_ & -> & Hr). rewrite set_ps_id.
  apply wp_bind. set (Q := fun (r : option BindingPtr) (s' : Server) => pool_inv K c (ps s') /\ frame s s' /\
    bindingRecoders (ps s') !! h = Some b /\
    match r with None => True | Some p => p = LeasePtr y /\ exists l, leases (ps s') !! y = Some l end).
  apply wp_mono with (Q := Q).
  { destruct r as [p|].
    - destruct Hr as (-> & l & Hl & _). apply wp_ret. unfold Q. split_and!; try done. by exists l.
    - apply wp_bind, wp_lift. eapply wp_load_at; [exact Hb|]. rewrite set_ps_id.
      destruct (pi_binding _ _ _ Hs _ _ Hb) as (_ & Hok). apply wp_bind, wp_lift.
      eapply wp_mono; [by apply keeps_AddLease|]. intros _ P (HP & Ht & _).
      apply wp_lift. eapply wp_mono; [by apply keeps_GetLease|]. intros r P' (_ & -> & Hr').
      change (ps (set_ps P s)) with P in *. unfold Q. split; [done|]. split; [done|].
      split; [rewrite <- Hb; by apply (Ht (BindPtr h))|]. destruct r as [p|]; [|done].
      destruct Hr' as (-> & l & Hl & _). rewrite Hy in *. split; [done|]. by exists l. }
  intros r1 s1 (H1 & H2 & H3 & H4). destruct r1 as [p|]; [|apply wp_ret; by auto].
  destruct H4 as (-> & l & Hl). pose proof (at_start (LeasePtr y) l s1 H1 Hl) as Hs1.
  apply wp_bind. at_update. intros s2 Hs2. apply wp_bind. eapply wp_at_time; [eassumption|].
  intros t s3 Hs3. apply wp_bind. at_update. intros s4 Hs4. apply wp_bind, wp_lift.
  assert (Hb4 : deref (BindPtr h) (ps s4) = Some b) by (by rewrite (at_others _ _ _ _ Hs4)).
  eapply wp_load_at; [exact Hb4|]. rewrite set_ps_id. apply wp_bind. at_update. intros s5 Hs5.
  apply wp_bind. eapply wp_at_load; [eassumption|]. apply wp_bind, wp_modify, wp_ret.
  split; [apply Hs5|]. split; [|by right]. eapply frame_trans; [exact H2|]. apply Hs5.
Qed.

(** [NotBindingRequest] answers nothing, ACK or NAK. *)
Definition request_code (r : Z) : Prop := r = REPLY_NONE \/ r = REPLY_ACK \/ r = REPLY_NAK.

Lemma bind_request_keeps m y s : pool_inv K c (ps s) -> K (mac_of m) -> good_ip c y ->
  wp (bind_request m y) (fun r s' => pool_inv K c (ps s') /\ frame s s' /\ request_code r) s.
Proof.
  intros Hs Hm Hy. unfold bind_request. fold (mac_of m). apply wp_bind, wp_lift.
  eapply wp_mono; [by apply (keeps_AddNewBinding K c HK)|].
  intros r P (HP & -> & (b & Hb & Hbm & Hb0 & _ & Hok) & _).
  pose proof (at_start _ b (set_ps P s) HP Hb) as Hs1. apply wp_bind. eapply wp_at_update; [eassumption|..].
  { split; [by rewrite <- Hbm|]. split; [apply Hok|by right]. }
  intros s2 Hs2. apply wp_bind, wp_get, wp_bind.
  apply wp_mono with (Q := fun _ s' => exists b', at_elem (BindPtr (macAddrHash (mac_of m))) b' (set_ps P s) s' /\
    ipAddress b' = y).
  { apply wp_if; intros _; [|apply wp_ret; by eexists]. at_update. intros s3 Hs3. by eexists. }
  intros _ s3 (b3 & Hs3 & Hy3). apply wp_bind. eapply wp_mono; [by apply Repending_at|].
  intros r s4 (b4 & Hs4 & (_ & Hy4 & _) & _ & Hr). apply wp_if; intros E.
  { apply wp_ret. split; [apply Hs4|]. split; [apply Hs4|]. destruct Hr as [->| ->]; [by left|done]. }
  eapply wp_mono; [apply (acknowledge_lease_keeps _ b4); [apply Hs4|apply Hs4|congruence]|].
  intros r' s5 (H1 & H2 & H3). split; [done|]. split.
  - apply (frame_trans _ (set_ps P s)); [done|]. eapply frame_trans; [apply Hs4|done].
  - unfold request_code. tauto.
Qed.

Lemma NotBindingRequest_keeps m s : pool_inv K c (ps s) -> K (mac_of m) ->
  wp (NotBindingRequest m) (fun r s' => pool_inv K c (ps s') /\ frame s s' /\ request_code r) s.
Proof.
  intros Hs Hm. unfold NotBindingRequest. apply wp_bind, wp_GetYourIpAddress.
  intros s1 (E1 & F1 & F1'). pose proof (your_ip_good m 0 s Hs) as Hgood.
  destruct (your_ip m 0 (addressPool s)) as [r y]. cbn [fst snd] in Hgood.
  apply wp_if; intros E; btauto_hyps.
  { apply wp_ret. rewrite E1. split; [done|]. split; [done|by left]. }
  specialize (Hgood E). apply wp_bind, wp_lift. rewrite E1.
  eapply wp_mono; [by apply keeps_GetLease|]. intros lease P (_ & -> & Hl).
  replace (set_ps (ps s) s1) with s1 by (rewrite <- E1; by rewrite set_ps_id).
  assert (Hs1 : pool_inv K c (ps s1)) by (by rewrite E1).
  assert (Hbr : forall s2, pool_inv K c (ps s2) -> frame s1 s2 -> wp (bind_request m y)
    (fun r s' => pool_inv K c (ps s') /\ frame s s' /\ request_code r) s2).
  { intros s2 H2 F2. eapply wp_mono; [by apply bind_request_keeps|]. intros r' s3 (H3 & F3 & Hr').
    split; [done|]. split; [|done]. apply (frame_trans _ s1); [done|]. by eapply frame_trans. }
  destruct lease as [p|].
  - destruct Hl as (-> & l & Hl & _). rewrite <- E1 in Hl. pose proof (at_start _ l s1 Hs1 Hl) as Hs1'.
    apply wp_bind. eapply wp_at_load; [eassumption|]. cbv zeta. apply wp_if; intros _; [|by apply Hbr].
    apply wp_bind, wp_lift. eapply wp_mono; [by apply (keeps_IsExpire_at K c _ l)|].
    intros e P (HP & HtP & st & HlP). apply wp_if; intros _.
    { apply wp_ret. split; [done|]. split; [done|]. right. by right. }
    apply wp_bind, wp_lift. eapply wp_mono; [by eapply (keeps_RemoveLease K c y)|].
    intros _ P' (HP' & _). by apply Hbr.
  - apply wp_bind, wp_SourceIpAddress. cbn. apply wp_ret. cbn. split; [done|]. split; [done|].
    right. by right.
Qed.

Lemma decoded_get os cd o : Forall decoded os -> opts_get os cd = Some o -> decoded o.
Proof.
  intros H E. apply find_some in E as [Hin _]. rewrite List.Forall_forall in H. by apply H.
Qed.

Lemma length_memcpy d n src len : length d = n -> 0 <= len <= Z.of_nat (length src) ->
  length (snd (memcpy_s d (Z.of_nat n) src len)) = n.
Proof.
  intros Hd Hlen. unfold memcpy_s. destruct (Z.leb_spec len (Z.of_nat n)); cbn [snd].
  - rewrite length_app, length_take, length_drop. lia.
  - rewrite Nat2Z.id, length_app, length_zeros, length_drop. lia.
Qed.

(** The text options only change the two name buffers, inside their sizes. *)
Lemma parse_options_spec m b : Forall decoded (options m) ->
  length (deviceName b) = 64%nat -> length (userClass b) = 64%nat ->
  exists dn uc, parse_options m b = set_userClass uc (set_deviceName dn b) /\
    length dn = 64%nat /\ length uc = 64%nat.
Proof.
  intros Hd Hdn Huc. unfold parse_options.
  assert (H1 : exists r dn, GetHostNameOption m b = (r, set_deviceName dn b) /\ length dn = 64%nat).
  { unfold GetHostNameOption. destruct (opts_get (options m) HOST_NAME_OPTION) as [o|] eqn:E.
    - destruct (decoded_get _ _ _ Hd E) as ((_ & Hl & Hlen) & Hl1 & _). unfold is_u8 in Hl.
      assert (Hb : exists dn, b = set_deviceName dn b /\ length dn = 64%nat) by (exists (deviceName b); by destruct b).
      destruct Hb as (dn0 & Eb & Hdn0). rewrite Z.geb_leb. destruct (Z.leb_spec DEVICE_NAME_STRING_LENGTH (length_ o)).
      { exists REPLY_NONE, dn0. by rewrite <- Eb. }
      destruct (memchr _ 10 _ || _); [exists REPLY_NONE, dn0; by rewrite <- Eb|].
      pose proof (length_memcpy (deviceName b) 64 (data o) (length_ o) Hdn) as HL.
      rewrite Hlen in HL. specialize (HL ltac:(unfold DHCP_OPTION_SIZE; lia)).
      change (Z.of_nat 64) with DEVICE_NAME_STRING_LENGTH in HL.
      destruct (memcpy_s _ _ _ _) as [ok name]. cbn [snd] in HL.
      destruct (negb ok); do 2 eexists; (split; [reflexivity|]); [done|by rewrite length_insert].
    - do 2 eexists. split; [reflexivity|]. rewrite length_app, length_drop, Hdn. done. }
  destruct H1 as (r & dn & -> & Hdn'). set (b1 := set_deviceName dn b).
  assert (H2 : exists r uc, GetUserClassOption m b1 = (r, set_userClass uc b1) /\ length uc = 64%nat).
  { unfold GetUserClassOption. destruct (opts_get (options m) USER_CLASS_OPTION) as [o|] eqn:E.
    - destruct (decoded_get _ _ _ Hd E) as ((_ & Hl & Hlen) & Hl1 & _). unfold is_u8 in Hl.
      pose proof (length_memcpy (userClass b1) 64 (data o) (length_ o) Huc) as HL.
      rewrite Hlen in HL. specialize (HL ltac:(unfold DHCP_OPTION_SIZE; lia)).
      change (Z.of_nat 64) with DEVICE_NAME_STRING_LENGTH in HL.
      destruct (memcpy_s _ _ _ _) as [ok u]. by do 2 eexists.
    - exists REPLY_ACK, (userClass b1). split; [by destruct b1|done]. }
  destruct H2 as (r' & uc & -> & Huc'). by exists dn, uc.
Qed.

Lemma parse_options_ok m p b : Forall decoded (options m) -> ok_at K c p b ->
  ok_at K c p (parse_options m b) /\ chaddr (parse_options m b) = chaddr b /\
  ipAddress (parse_options m b) = ipAddress b.
Proof.
  intros Hd Hok. assert (Hw : wf_rec K b) by (destruct p; apply Hok). destruct Hw as (Hk & Hn & Hu & Hp).
  destruct (parse_options_spec m b Hd Hn Hu) as (dn & uc & -> & Hdn & Huc).
  split; [|done]. assert (Hw' : wf_rec K (set_userClass uc (set_deviceName dn b))) by done.
  destruct p; [destruct Hok as (? & ? & ?)|destruct Hok as (? & ? & ?)]; done.
Qed.

(** A REQUEST for an address that has the lease [l].  The client's own lease is
    stamped with the times of its binding. *)
Lemma request_lease_keeps m h b y l s0 s : Forall decoded (options m) -> K (mac_of m) ->
  bindingRecoders (ps s) !! h = Some b -> chaddr b = mac_of m -> at_elem (LeasePtr y) l s0 s ->
  wp (request_lease m (BindPtr h) (LeasePtr y)) (fun r s' => exists l', at_elem (LeasePtr y) l' s0 s' /\
    (chaddr l = mac_of m -> r = false /\ chaddr l' = mac_of m /\ bindingStatus l' = BIND_ASSOCIATED /\
       bindingTime l' = bindingTime b /\ expireIn l' = expireIn b)) s.
Proof.
  intros Hd Hm Hb Hbm Hs. unfold request_lease.
  destruct (parse_options_ok m (LeasePtr y) l Hd (at_ok _ _ _ _ Hs)) as (Hok & Ech & Eip).
  set (l1 := parse_options m l) in *. apply wp_bind. unfold ParseDhcpOption. apply wp_bind.
  eapply wp_at_update; [exact Hs|exact Hok|]. fold l1. intros s1 Hs1. apply wp_ret.
  assert (Hb1 : deref (BindPtr h) (ps s1) = Some b).
  { rewrite (at_others _ _ _ _ Hs1) by done. by rewrite <- (at_others _ _ _ _ Hs) by done. }
  apply wp_bind. eapply wp_at_load; [eassumption|]. cbv zeta. fold (mac_of m). fold (same l1 (mac_of m)).
  assert (Hk : K (chaddr l1)) by apply Hok.
  assert (Esame : same l1 (mac_of m) = true <-> chaddr l = mac_of m).
  { rewrite (same_eq K HK) by done. by rewrite Ech. }
  set (b0 := same l1 (mac_of m)) in *. apply wp_bind.
  apply wp_mono with (Q := fun r s' => (b0 = true -> r = false) /\ exists st,
    at_elem (LeasePtr y) (set_bindingStatus st l1) s0 s').
  { destruct b0; cbn [negb].
    - apply wp_ret. split; [done|]. exists (bindingStatus l1). by destruct l1.
    - apply wp_bind, wp_lift. eapply wp_mono; [apply (keeps_IsExpire_at K c _ l1); apply Hs1|].
      intros e P (HP & HtP & st & HlP). apply wp_ret. split; [done|]. exists st. split; [done|apply Hs1|done|].
      eapply tables_but_trans; [apply Hs1|done]. }
  intros r s2 (Hr & st & Hs2). apply wp_if; intros Er.
  { apply wp_ret. eexists. split; [exact Hs2|]. intros E. exfalso. apply Esame in E. by rewrite (Hr E) in Er. }
  apply wp_bind. apply wp_mono with (Q := fun e s' => (b0 = true -> e = false) /\ exists st,
    at_elem (LeasePtr y) (set_bindingStatus st l1) s0 s').
  { destruct b0; cbn [negb].
    - apply wp_ret. split; [done|]. by exists st.
    - apply wp_bind, wp_lift. eapply wp_mono; [apply (keeps_IsExpire_at K c _ (set_bindingStatus st l1)); apply Hs2|].
      intros e P (HP & HtP & st' & HlP). apply wp_ret. split; [done|]. exists st'. split; [done|apply Hs2|done|].
      eapply tables_but_trans; [apply Hs2|done]. }
  intros e s3 (He & st3 & Hs3). clear Hr Er r s2 Hs2 st.
  assert (Hb3 : deref (BindPtr h) (ps s3) = Some b).
  { rewrite (at_others _ _ _ _ Hs3) by done. by rewrite <- (at_others _ _ _ _ Hs1) by done. }
  apply wp_bind, wp_lift. eapply wp_load_at; [exact Hb3|]. rewrite set_ps_id.
  set (l3 := set_bindingStatus st3 l1) in *. apply wp_bind.
  set (l4 := if e : bool then set_chaddr (mac_of m) l3 else l3).
  assert (E4 : (if e : bool then set_chaddr (snd (memcpy_s (chaddr l3) DHCP_HWADDR_LENGTH (chaddr b) MAC_ADDR_LENGTH)) l3
    else l3) = l4).
  { unfold l4. destruct e; [|done]. rewrite Hbm, (copy_mac K HK); [done|done|].
    exact (proj2 (cl_shape K HK _ Hk)). }
  eapply wp_at_update; [exact Hs3|..].
  { rewrite E4. unfold l4. pose proof (at_ok _ _ _ _ Hs3) as ((Hk3 & Hw3) & Hi3). destruct e; [|done].
    split; [|done]. by split. }
  rewrite E4. intros s4 Hs4. apply wp_bind. at_update. intros s5 Hs5. apply wp_bind. at_update.
  intros s6 Hs6. apply wp_bind. at_update. intros s7 Hs7. apply wp_ret. eexists. split; [exact Hs7|].
  intros E. pose proof E as E'. apply Esame in E. split; [done|]. split; [|done]. cbn. unfold l4.
  rewrite (He E). cbn. by rewrite Ech.
Qed.

(** The request names this server, or none. *)
Definition for_server (m : DhcpMsgInfo) (pl : DhcpAddressPool) : Prop :=
  match opts_get (options m) SERVER_IDENTIFIER_OPTION with
  | Some o => ParseIp (data o) = serverId pl
  | None => True
  end.

Lemma ValidateRequestMessage_spec m s : pool_inv K c (ps s) ->
  let yp := your_ip m INADDR_BROADCAST (addressPool s) in
  wp (ValidateRequestMessage m) (fun '(r, y) s' => pool_inv K c (ps s') /\ frame s s' /\
    (fst yp = RET_SUCCESS -> same_core s s' /\ y = snd yp /\
       (for_server m (addressPool s) -> r = REPLY_ACK) /\ (~ for_server m (addressPool s) -> r = REPLY_NONE)) /\
    (fst yp <> RET_SUCCESS -> r = REPLY_NONE \/ r = REPLY_NAK)) s.
Proof.
  intros Hs yp. unfold ValidateRequestMessage. apply wp_bind, wp_GetYourIpAddress. fold yp.
  intros s1 (E1 & F1 & F1'). destruct yp as [r y]. cbn [fst snd].
  assert (Hs1 : pool_inv K c (ps s1)) by (by rewrite E1).
  apply wp_if; intros E; btauto_hyps.
  - apply wp_if; intros _; [|apply wp_ret; split_and!; try done; by left].
    apply wp_bind, wp_lift. eapply wp_mono; [by apply keeps_GetLease|]. intros lease P (_ & -> & Hl).
    rewrite set_ps_id. apply wp_bind.
    apply wp_mono with (Q := fun _ s' => pool_inv K c (ps s') /\ frame s1 s').
    { destruct lease as [p|]; [|by apply wp_ret]. destruct Hl as (-> & l & Hl & _). apply wp_bind, wp_lift.
      eapply wp_mono; [by eapply (keeps_RemoveLease K c y)|]. intros _ P (HP & _). by apply wp_ret. }
    intros _ s2 (Hs2 & F2). apply wp_bind, wp_lift. eapply wp_mono; [by apply (keeps_RemoveBinding K c)|].
    intros _ P (HP & _). apply wp_ret. split; [done|]. split; [by apply (frame_trans _ s1)|].
    split; [done|]. by right.
  - apply wp_bind, wp_get. replace (addressPool s1) with (addressPool s) by (unfold addressPool; by rewrite E1).
    unfold for_server. destruct (opts_get (options m) SERVER_IDENTIFIER_OPTION) as [o|].
    + apply wp_if; intros E2; btauto_hyps; apply wp_ret; by split_and!.
    + apply wp_ret. by split_and!.
Qed.

Lemma HasNobindgRequest_keeps m s : pool_inv K c (ps s) -> K (mac_of m) ->
  wp (HasNobindgRequest m) (fun r s' => pool_inv K c (ps s') /\ frame s s' /\ request_code r) s.
Proof.
  intros Hs Hm. unfold HasNobindgRequest. apply wp_bind, wp_lift.
  eapply wp_mono; [by apply (keeps_QueryBinding K c)|]. intros r P (_ & -> & _). rewrite set_ps_id.
  destruct r; [apply wp_ret; split_and!; try done; by left|]. cbn [ALLOW_NOBINDING_REQUEST].
  apply wp_bind, wp_SourceIpAddress. cbv zeta. apply wp_if; intros _.
  { apply wp_ret. split_and!; try done. by left. }
  apply wp_bind, wp_get. apply wp_if; intros _.
  { apply wp_ret. split_and!; try done. right. by right. }
  by apply (NotBindingRequest_keeps m (set_src_addr INADDR_ANY s)).
Qed.

(** A REQUEST of a bound client for its own leased address is granted: the
    lease and the binding are associated from the same moment, and the other
    elements of both tables stay. *)
Record acknowledged (m : DhcpMsgInfo) (s : Server) (r : Z) (s' : Server) (y : Z) : Prop := {
  ack_code : r = REPLY_ACK;
  ack_yiaddr : yiaddr (packet (reply s')) = y;
  ack_lease : exists l b, leases (ps s') !! y = Some l /\
    bindingRecoders (ps s') !! macAddrHash (mac_of m) = Some b /\
    chaddr l = mac_of m /\ chaddr b = mac_of m /\ ipAddress b = y /\
    bindingStatus l = BIND_ASSOCIATED /\ bindingStatus b = BIND_ASSOCIATED /\
    bindingTime l = bindingTime b /\ expireIn l = expireIn b /\
    expireIn b = u64 (bindingTime b + leaseTime b);
  ack_others : (forall ip, ip <> y -> leases (ps s') !! ip = leases (ps s) !! ip) /\
    (forall h, h <> macAddrHash (mac_of m) -> bindingRecoders (ps s') !! h = bindingRecoders (ps s) !! h)
}.

(** A client that holds the lease of the address it asks this server for. *)
Record renewing (m : DhcpMsgInfo) (s : Server) (y : Z) : Prop := {
  rnw_ip : your_ip m INADDR_BROADCAST (addressPool s) = (RET_SUCCESS, y);
  rnw_server : for_server m (addressPool s);
  rnw_binding : exists b, bindingRecoders (ps s) !! macAddrHash (mac_of m) = Some b /\ ipAddress b = y;
  rnw_lease : exists l, leases (ps s) !! y = Some l /\ chaddr l = mac_of m
}.

(** The part of [OnReceivedRequest] for a bound client. *)
Lemma OnReceivedRequest_bound m h b y s : pool_inv K c (ps s) -> K (mac_of m) -> Forall decoded (options m) ->
  h = macAddrHash (mac_of m) -> bindingRecoders (ps s) !! h = Some b ->
  wp (let* _rebound := Rebinding (BindPtr h) in
      let* lease := lift (GetLease y) in
      let* refused := (match lease with Some q => request_lease m (BindPtr h) q | None => ret false end) in
      if refused then ret REPLY_NAK
      else
        let* b := lift (load (BindPtr h)) in
        let bindingIp := ipAddress b in
        if truthy bindingIp && negb (y =? INADDR_BROADCAST) && negb (y =? bindingIp)
        then ret REPLY_NAK
        else upd_packet (set_yiaddr bindingIp) ;; let* _common := ReplyCommontOption in ret REPLY_ACK)
    (fun r s' => pool_inv K c (ps s') /\ frame s s' /\ request_code r /\
       (ipAddress b = y -> (exists l, leases (ps s) !! y = Some l /\ chaddr l = mac_of m) ->
        acknowledged m s r s' y)) s.
Proof.
  intros Hs Hm Hd Hh Hb. pose proof (binding_owner _ _ _ _ Hm Hh Hs Hb) as Hown.
  pose proof (at_start (BindPtr h) b s Hs Hb) as Hs0. apply wp_bind.
  eapply wp_mono; [by apply Rebinding_at|]. intros _ s1 (b1 & Hs1 & (Hch & Hip & _) & Hst & Hex).
  pose proof (at_deref _ _ _ _ Hs1) as Hb1. cbn in Hb1.
  apply wp_bind, wp_lift. eapply wp_mono; [apply keeps_GetLease, Hs1|]. intros lease P (_ & -> & Hl).
  rewrite set_ps_id. apply wp_bind.
  apply wp_mono with (Q := fun r s' => pool_inv K c (ps s') /\ frame s s' /\
    (forall q, q <> LeasePtr y -> deref q (ps s') = deref q (ps s1)) /\
    ((exists l, leases (ps s) !! y = Some l /\ chaddr l = mac_of m) ->
      r = false /\ exists l', leases (ps s') !! y = Some l' /\ chaddr l' = mac_of m /\
        bindingStatus l' = BIND_ASSOCIATED /\ bindingTime l' = bindingTime b1 /\ expireIn l' = expireIn b1)).
  { assert (Hl0 : leases (ps s1) !! y = leases (ps s) !! y) by (by apply (at_others _ _ _ _ Hs1 (LeasePtr y))).
    destruct lease as [q|].
    - destruct Hl as (-> & l & Hl & _). pose proof (at_start _ l s1 (at_inv _ _ _ _ Hs1) Hl) as Hq.
      eapply wp_mono; [eapply (request_lease_keeps m h b1 y l s1 s1); try done; congruence|].
      intros r s2 (l' & Hs2 & Hown2). split; [apply Hs2|]. split; [eapply frame_trans; [apply Hs1|apply Hs2]|].
      split; [intros q Hq'; apply (at_others _ _ _ _ Hs2); congruence|].
      intros (l0 & E & Em). cbn in Hl. rewrite Hl0, E in Hl. simplify_eq.
      destruct (Hown2 Em) as (-> & H2). split; [done|]. exists l'. split; [apply Hs2|done].
    - apply wp_ret. split; [apply Hs1|]. split; [apply Hs1|]. split; [done|].
      intros (l0 & E & Em). destruct Hl as [->|Hl]; [|congruence].
      destruct (pi_lease _ _ _ Hs _ _ E) as (_ & _ & Hg & _). done. }
  intros refused s2 (Hs2 & F2 & Ho2 & Hown2). apply wp_if; intros Er.
  { apply wp_ret. split; [done|]. split; [done|]. split; [right; by right|].
    intros _ Hex2. destruct (Hown2 Hex2) as [? _]. congruence. }
  assert (Hb2 : bindingRecoders (ps s2) !! h = Some b1) by (rewrite <- Hb1; by apply (Ho2 (BindPtr h))).
  apply wp_bind, wp_lift. eapply wp_load_at; [exact Hb2|]. rewrite set_ps_id. cbv zeta. rewrite Hip.
  apply wp_if; intros Ey.
  { apply wp_ret. split; [done|]. split; [done|]. split; [right; by right|]. intros Eip _. exfalso.
    rewrite Eip, Z.eqb_refl in Ey. by rewrite andb_false_r in Ey. }
  apply wp_bind, wp_modify, wp_bind. match goal with |- wp _ _ ?s => set (s3 := s) end.
  eapply wp_mono; [apply (wp_ReplyCommontOption s3)|]. intros _ s4 (_ & (E4 & F4 & F4') & Hp). apply wp_ret.
  rewrite E4. change (ps s3) with (ps s2). split; [done|].
  split; [apply (frame_trans _ s2); [done|]; by split|]. split; [right; by left|].
  intros Eip Hlease. destruct (Hown2 Hlease) as (_ & l' & Hl' & Hlm & Hls & Hlt & Hle).
  split; [done|by rewrite Hp|..].
  - exists l', b1. rewrite E4. change (ps s3) with (ps s2). subst h. split_and!; try done; congruence.
  - rewrite E4. change (ps s3) with (ps s2). split.
    + intros ip Hne. pose proof (Ho2 (LeasePtr ip) ltac:(congruence)) as E. cbn in E. rewrite E.
      by apply (at_others _ _ _ _ Hs1 (LeasePtr ip)).
    + intros h' Hne. pose proof (Ho2 (BindPtr h') ltac:(done)) as E. cbn in E. rewrite E.
      apply (at_others _ _ _ _ Hs1 (BindPtr h')). congruence.
Qed.

Lemma OnReceivedRequest_spec m s : pool_inv K c (ps s) -> K (mac_of m) -> Forall decoded (options m) ->
  wp (OnReceivedRequest m) (fun r s' => pool_inv K c (ps s') /\ frame s s' /\ request_code r /\
    forall y, renewing m s y -> acknowledged m s r s' y) s.
Proof.
  intros Hs Hm Hd. unfold OnReceivedRequest. apply wp_bind.
  eapply wp_mono; [by apply ValidateRequestMessage_spec|]. intros [r y] s1 (Hs1 & F1 & Hyes & Hno).
  fold (mac_of m). apply wp_if; intros E; btauto_hyps.
  { apply wp_ret. split; [done|]. split; [done|]. split.
    - destruct (decide (fst (your_ip m INADDR_BROADCAST (addressPool s)) = RET_SUCCESS)) as [Ey|Ey].
      + destruct (Hyes Ey) as (_ & _ & H1 & H2).
        assert (~ for_server m (addressPool s)) as H by (intros H; by apply H1 in H). left. by apply H2.
      + destruct (Hno Ey) as [?|?]; [by left|right; by right].
    - intros y' [Ey Hf _ _]. exfalso. rewrite Ey in Hyes. destruct (Hyes eq_refl) as (_ & _ & H1 & _). by apply H1 in Hf. }
  destruct (decide (fst (your_ip m INADDR_BROADCAST (addressPool s)) = RET_SUCCESS)) as [Ey|Ey].
  2: { subst r. by destruct (Hno Ey). }
  destruct (Hyes Ey) as ((E1 & _) & Eyy & _). apply wp_bind, wp_lift. rewrite E1.
  eapply wp_mono; [by apply (keeps_QueryBinding K c)|]. intros rb P (_ & -> & Hb).
  replace (set_ps (ps s) s1) with s1 by (rewrite <- E1; by rewrite set_ps_id).
  destruct rb as [p|].
  - destruct Hb as (-> & b & Hb & _). cbn in Hb. rewrite <- E1 in Hb.
    eapply wp_mono; [by apply (OnReceivedRequest_bound m _ b y s1)|].
    intros r' s2 (H1 & H2 & H3 & H4). split; [done|]. split; [by apply (frame_trans _ s1)|]. split; [done|].
    intros y' [R1 R2 (b' & R3 & R4) R5]. rewrite R1 in Eyy. cbn in Eyy. subst y'.
    rewrite <- E1 in R3, R5. rewrite R3 in Hb. simplify_eq. destruct (H4 eq_refl R5) as [A1 A2 A3 A4].
    split; try done. by rewrite <- E1.
  - eapply wp_mono; [by apply HasNobindgRequest_keeps|]. intros r' s2 (H1 & H2 & H3).
    split; [done|]. split; [by apply (frame_trans _ s1)|]. split; [done|].
    intros y' [_ _ (b' & R3 & _) _]. congruence.
Qed.

(** ** Decline, release, inform *)

(** The requested address is that of the client's binding: the binding is
    dropped and the lease, when there is one, is kept as associated. *)
Record declined (m : DhcpMsgInfo) (s s' : Server) : Prop := {
  dcl_binding : bindingRecoders (ps s') = delete (macAddrHash (mac_of m)) (bindingRecoders (ps s));
  dcl_lease : forall ip l, leases (ps s) !! ip = Some l ->
    exists l', leases (ps s') !! ip = Some l' /\ same_client l l' /\
      (if decide (ip = GetRequestIpAddress m) then bindingStatus l' = BIND_ASSOCIATED else l' = l);
  dcl_none : forall ip, leases (ps s) !! ip = None -> leases (ps s') !! ip = None
}.

Lemma OnReceivedDecline_spec m s : pool_inv K c (ps s) -> K (mac_of m) ->
  wp (OnReceivedDecline m) (fun r s' => pool_inv K c (ps s') /\ frame s s' /\ r = REPLY_NONE /\
    forall b, bindingRecoders (ps s) !! macAddrHash (mac_of m) = Some b -> ipAddress b <> 0 ->
      GetRequestIpAddress m = ipAddress b -> declined m s s') s.
Proof.
  intros Hs Hm. unfold OnReceivedDecline. cbv zeta. fold (mac_of m). apply wp_if; intros E0; btauto_hyps.
  { apply wp_ret. split_and!; try done. intros b _ Hne E. congruence. }
  apply wp_bind, wp_lift. eapply wp_mono; [by apply (keeps_QueryBinding K c)|]. intros rb P (_ & -> & Hb).
  rewrite set_ps_id. destruct rb as [p|].
  2: { apply wp_ret. split_and!; try done. intros b E. congruence. }
  destruct Hb as (-> & b & Hb & _). cbn in Hb. apply wp_bind, wp_lift. eapply wp_load_at; [exact Hb|].
  rewrite set_ps_id. apply wp_if; intros E1; btauto_hyps.
  { apply wp_ret. split_and!; try done. intros b' E Hne E'. congruence. }
  apply wp_bind, wp_lift, wp_get. rewrite set_ps_id. apply wp_bind. set (ip := GetRequestIpAddress m) in *.
  apply wp_mono with (Q := fun _ s' => pool_inv K c (ps s') /\ frame s s' /\
    tables_but (Some (LeasePtr ip)) (ps s) (ps s') /\
    match leases (ps s) !! ip with None => leases (ps s') !! ip = None
    | Some l => exists l', leases (ps s') !! ip = Some l' /\ same_client l l' /\ bindingStatus l' = BIND_ASSOCIATED end).
  { destruct (leases (ps s) !! ip) as [l|] eqn:El; [|by apply wp_ret].
    pose proof (at_start (LeasePtr ip) l s Hs El) as Hs0. apply wp_bind. at_update. intros s1 Hs1.
    apply wp_bind. eapply wp_at_time; [eassumption|]. intros t s2 Hs2. at_update. intros s3 Hs3.
    split; [apply Hs3|]. split; [apply Hs3|]. split; [apply Hs3|]. eexists. by split; [apply Hs3|]. }
  intros _ s1 (Hs1 & F1 & Ht & Hl). apply wp_bind, wp_lift.
  eapply wp_mono; [by apply (keeps_RemoveBinding K c)|]. intros _ P (HP & EP). apply wp_ret.
  split; [done|]. split; [by apply (frame_trans _ s1)|]. split; [done|]. intros b' E Hne Eip. split.
  - rewrite EP. cbn. f_equal. apply map_eq. intros h. by apply (Ht (BindPtr h)).
  - intros ip' l Hl'. change (leases (ps (set_ps P s1))) with (leases P). rewrite EP.
    change (leases (set_bindings _ (ps s1))) with (leases (ps s1)). fold ip. destruct (decide (ip' = ip)) as [->|Hn].
    + by rewrite Hl' in Hl.
    + exists l. split; [|done]. rewrite <- Hl'. apply (Ht (LeasePtr ip')). congruence.
  - intros ip' Hl'. change (leases (ps (set_ps P s1))) with (leases P). rewrite EP.
    change (leases (set_bindings _ (ps s1))) with (leases (ps s1)). destruct (decide (ip' = ip)) as [->|Hn].
    + by rewrite Hl' in Hl.
    + rewrite <- Hl'. apply (Ht (LeasePtr ip')). congruence.
Qed.

(** The client's binding stays, marked; the lease of its address is gone. *)
Record released (m : DhcpMsgInfo) (s s' : Server) (b : AddressBinding) : Prop := {
  rls_binding : bindingRecoders (ps s') =
    <[macAddrHash (mac_of m) := set_bindingStatus BIND_RELEASED b]> (bindingRecoders (ps s));
  rls_leases : leases (ps s') = delete (ipAddress b) (leases (ps s))
}.

Lemma RemoveLease_deletes ip l s : pool_inv K c s -> leases s !! ip = Some l ->
  keeps K c (RemoveLease (LeasePtr ip)) (fun _ s' => s' = set_leases (delete ip (leases s)) s) s.
Proof.
  intros Hs Hl. destruct (pi_lease _ _ _ Hs _ _ Hl) as ((Hk & _) & Hip & Hg & _).
  unfold RemoveLease. apply wp_bind. eapply wp_load_at; [exact Hl|]. unfold bad_lease.
  rewrite Hip, (cl_nonempty _ HK _ Hk), (proj2 (Z.eqb_neq _ _) Hg). cbn [orb].
  apply wp_bind, wp_get. rewrite Hl. apply wp_bind, wp_modify, wp_ret.
  split; [by apply delete_lease_inv|done].
Qed.

Lemma OnReceivedRelease_spec m s : pool_inv K c (ps s) -> K (mac_of m) ->
  wp (OnReceivedRelease m) (fun r s' => pool_inv K c (ps s') /\ frame s s' /\ r = REPLY_NONE /\
    forall b, bindingRecoders (ps s) !! macAddrHash (mac_of m) = Some b ->
      GetRequestIpAddress m = 0 \/ ipAddress b = 0 \/ GetRequestIpAddress m = ipAddress b -> released m s s' b) s.
Proof.
  intros Hs Hm. unfold OnReceivedRelease. cbv zeta. fold (mac_of m).
  apply wp_bind, wp_lift. eapply wp_mono; [by apply (keeps_QueryBinding K c)|]. intros rb P (_ & -> & Hb).
  rewrite set_ps_id. destruct rb as [p|].
  2: { apply wp_ret. split_and!; try done. intros b E. congruence. }
  destruct Hb as (-> & b & Hb & _). cbn in Hb. apply wp_bind, wp_lift. eapply wp_load_at; [exact Hb|].
  rewrite set_ps_id. apply wp_bind, wp_SourceIpAddress. set (s1 := set_src_addr INADDR_ANY s).
  apply wp_if; intros E1; [discriminate E1|clear E1]. apply wp_if; intros E2; btauto_hyps.
  { apply wp_ret. split_and!; try done. intros b' E Hx. rewrite Hb in E. simplify_eq. exfalso. tauto. }
  clear E2. apply wp_bind, wp_lift. eapply wp_mono; [by apply (keeps_GetLease K c)|].
  intros lease P (_ & -> & Hl). rewrite set_ps_id. apply wp_bind.
  apply wp_mono with (Q := fun _ s' => pool_inv K c (ps s') /\ frame s s' /\
    bindingRecoders (ps s') = bindingRecoders (ps s) /\ leases (ps s') = delete (ipAddress b) (leases (ps s))).
  { destruct lease as [q|].
    - destruct Hl as (-> & l & Hl & _). apply wp_bind, wp_lift.
      eapply wp_mono; [by eapply RemoveLease_deletes|]. intros _ P (HP & EP). apply wp_ret.
      split; [done|]. split; [done|]. cbn. by rewrite EP.
    - apply wp_ret. split; [done|]. split; [done|]. split; [done|]. rewrite delete_id; [done|].
      destruct Hl as [E|E]; [|done]. rewrite E. destruct (leases (ps s) !! 0) as [l|] eqn:El; [|done].
      by destruct (pi_lease _ _ _ Hs _ _ El) as (_ & _ & Hg & _). }
  intros _ s2 (Hs2 & F2 & Eb2 & El2). apply wp_bind, wp_lift. unfold ReleaseBinding. apply wp_bind, wp_get.
  rewrite Eb2, Hb. cbn [g_releaseRemoveMode truthy]. change (truthy g_releaseRemoveMode) with false. cbv iota.
  apply wp_bind. eapply wp_mono; [apply (keeps_update K c (BindPtr (macAddrHash (mac_of m))) _ b); [done|cbn; by rewrite Eb2|]|].
  { destruct (pi_binding _ _ _ Hs _ _ Hb) as [H1 H2]. done. }
  intros _ P (HP & HbP & HtP). apply wp_ret, wp_ret. split; [done|]. split; [by apply (frame_trans _ s2)|].
  split; [done|]. intros b' E _. simplify_eq. split.
  - apply map_eq. intros h. destruct (decide (h = macAddrHash (mac_of m))) as [->|Hne].
    + by rewrite lookup_insert_eq.
    + rewrite lookup_insert_ne, <- Eb2 by done. apply (HtP (BindPtr h)). congruence.
  - rewrite <- El2. apply map_eq. intros ip. by apply (HtP (LeasePtr ip)).
Qed.

Lemma MessageProcess_keeps m s : pool_inv K c (ps s) -> ok_request m ->
  wp (MessageProcess m) (fun r s' => pool_inv K c (ps s') /\ frame s s') s.
Proof.
  intros Hs [Hm Hd]. unfold MessageProcess.
  destruct (opts_get (options m) DHCP_MESSAGE_TYPE_OPTION) as [o|]; [|by apply wp_ret].
  apply wp_if; intros _; [by apply wp_ret|]. cbv zeta.
  apply wp_if; intros _; [eapply wp_mono; [by apply OnReceivedDiscover_spec|]; naive_solver|].
  apply wp_if; intros _; [eapply wp_mono; [by apply OnReceivedRequest_spec|]; naive_solver|].
  apply wp_if; intros _; [eapply wp_mono; [by apply OnReceivedDecline_spec|]; naive_solver|].
  apply wp_if; intros _; [eapply wp_mono; [by apply OnReceivedRelease_spec|]; naive_solver|].
  apply wp_if; intros _; by apply wp_ret.
Qed.

(** ** The looper *)

(** What the network may deliver: at most [max_safe_length] bytes, at least as
    many as [recvfrom] reports, from one of the clients. *)
Definition ok_event (ev : recv_event) : Prop :=
  match ev with
  | EvRecv rsize d _ =>
      rsize <= max_safe_length /\ rsize <= Z.of_nat (length d) /\ Forall is_u8 d /\
      (K (take 16 (drop 28 d)) \/ truthy (IsEmptyHWAddr (take 16 (drop 28 d))) = true)
  | _ => True
  end.

Lemma receive_into_spec f rsize d : wf_packet (packet f) ->
  DHCP_MSG_HEADER_SIZE <= rsize <= max_safe_length -> rsize <= Z.of_nat (length d) -> Forall is_u8 d ->
  wf_packet (packet (receive_into f rsize d)) /\ mac_of (receive_into f rsize d) = take 16 (drop 28 d).
Proof.
  unfold DHCP_MSG_HEADER_SIZE, max_safe_length. intros Hf Hr Hd Hu.
  pose proof (length_packet_bytes _ Hf) as Hl. unfold receive_into. cbn [packet set_packet].
  set (n := Z.to_nat rsize). assert (Hn : (234 <= n <= 545)%nat) by lia.
  split.
  - apply wf_message_of_bytes.
    + rewrite length_app, length_take, length_drop. lia.
    + apply Forall_app. split; [by apply Forall_take|by apply Forall_drop, Hf].
  - unfold mac_of. cbn [packet set_packet message_of_bytes Codec.chaddr].
    rewrite drop_app_le by (rewrite length_take; lia).
    rewrite take_app_le by (rewrite length_drop, length_take; lia).
    rewrite skipn_firstn_comm, take_take. f_equal. lia.
Qed.

Lemma ReceiveDhcpMessage_keeps ev s : server_inv s -> ok_event ev ->
  wp (ReceiveDhcpMessage ev) (fun r s' => server_inv s' /\ options (from s') = options (from s) /\
    (r = RET_SUCCESS -> K (mac_of (from s')) /\ msg_length (from s') <= max_safe_length)) s.
Proof.
  intros [Hp Hf] Hev. destruct ev as [| | |rsize d src]; try by apply wp_ret.
  destruct Hev as (H1 & H2 & H3 & H4). unfold ReceiveDhcpMessage.
  apply wp_bind, wp_quiet; [quiet|]. intros _ s1 (E1 & F1 & _). apply wp_bind, wp_modify, wp_bind, wp_modify.
  match goal with |- wp _ _ ?s => set (s2 := s) end.
  assert (Es : ps s2 = ps s /\ from s2 = from s) by done. destruct Es as [Eps Ef].
  assert (Hearly : forall f, server_inv f -> options (from f) = options (from s) ->
    wp (ret RET_FAILED : M Server Z) (fun r s' => server_inv s' /\ options (from s') = options (from s) /\
      (r = RET_SUCCESS -> K (mac_of (from s')) /\ msg_length (from s') <= max_safe_length)) f) by (intros; by apply wp_ret).
  assert (Hs2 : server_inv s2) by (unfold server_inv; by rewrite Eps, Ef).
  apply wp_if; intros E0; [apply Hearly; [done|by rewrite Ef]|].
  apply wp_if; intros E; [apply Hearly; [done|by rewrite Ef]|]. btauto_hyps.
  destruct (receive_into_spec (from s) rsize d Hf) as [Hw Hmac]; [lia|done..|].
  apply wp_bind, wp_modify. rewrite Ef. set (f' := receive_into (from s) rsize d) in *. set (s3 := set_from f' s2).
  assert (Hs3 : server_inv s3) by (split; [by rewrite <- Eps in Hp|done]).
  apply wp_bind, wp_get. change (from s3) with f'.
  do 2 (apply wp_if; intros _; [by apply Hearly|]).
  apply wp_if; intros Ee; [by apply Hearly|]. apply wp_bind, wp_lift, wp_get. rewrite set_ps_id.
  apply wp_if; intros _; [by apply Hearly|]. apply wp_ret. split; [done|]. split; [done|]. intros _.
  change (from s3) with f'. split; [|done]. rewrite Hmac. destruct H4 as [?|H4]; [done|].
  unfold mac_of in Hmac. rewrite Hmac in Ee. congruence.
Qed.

Lemma ContinueReceive_keeps r s : server_inv s -> options (from s) = [] ->
  (r = RET_SUCCESS -> K (mac_of (from s)) /\ msg_length (from s) <= max_safe_length) ->
  wp (ContinueReceive r) (fun b s' => server_inv s' /\ (b = false -> ok_request (from s'))) s.
Proof.
  intros [Hp Hf] Ho Hr. unfold ContinueReceive. apply wp_if; intros E; btauto_hyps; [by apply wp_ret|].
  destruct (Hr E) as [Hm Hlen]. apply wp_bind, wp_get, wp_bind.
  destruct Hf as (Hb & L1 & L2 & L3 & L4).
  assert (Hu : Forall is_u8 (msg_options (packet (from s)))) by (unfold packet_bytes in Hb; by apply Forall_app in Hb as [_ ?]).
  destruct (ParseMessageOptions_total_lemma (from s)) as (r' & os & Ep & _ & Hdec & _);
    [done|done|done|by rewrite Ho|].
  rewrite Ep. eapply wp_intro; [done|]. cbv beta iota. apply wp_bind, wp_modify.
  assert (Hs' : server_inv (set_from (set_options os (from s)) s)) by (split; [done|by split]).
  apply wp_if; intros _; [by apply wp_ret|]. destruct (opts_get _ _); apply wp_ret; [|done].
  split; [done|]. intros _. by split.
Qed.

Lemma handle_message_keeps s : server_inv s -> ok_request (from s) ->
  wp handle_message (fun _ s' => server_inv s') s.
Proof.
  intros [Hp Hf] Hreq. unfold handle_message. apply wp_bind, wp_get, wp_bind, wp_quiet; [quiet|].
  intros _ s1 (E1 & F1 & _). apply wp_bind.
  eapply wp_mono; [apply MessageProcess_keeps; [by rewrite E1|done]|]. intros t s2 (Hp2 & F2 & _).
  apply wp_bind. apply wp_mono with (Q := fun _ s' => server_inv s').
  { assert (Hs2 : server_inv s2) by (split; [done|by rewrite F2, F1]).
    apply wp_if; intros _; [|by apply wp_ret]. apply wp_bind, wp_quiet; [quiet|].
    intros _ s3 (E3 & F3 & _). apply wp_ret. split; [by rewrite E3|by rewrite F3, F2, F1]. }
  intros _ s3 [Hp3 Hf3]. unfold NotifyConnetDeviceChanged. apply wp_if; intros _; [|by apply wp_ret].
  apply wp_bind, wp_lift. eapply wp_mono; [by apply keeps_SaveBindingRecoders|]. intros _ P (HP & _).
  apply wp_bind, wp_get. apply wp_when; intros _; [by apply wp_modify|done].
Qed.

Lemma looper_body_keeps ev s : server_inv s -> ok_event ev ->
  wp (looper_body ev) (fun _ s' => server_inv s') s.
Proof.
  intros Hs Hev. unfold looper_body. apply wp_bind.
  apply wp_mono with (Q := fun _ s' => server_inv s').
  { assert (Hcb : forall e s, server_inv s -> wp (let* cb := get callback in when cb (modify (add_event e)))
      (fun _ s' => server_inv s') s).
    { intros e s' Hs'. apply wp_bind, wp_get, wp_when; intros _; [by apply wp_modify|done]. }
    unfold OnLooperStateChanged. apply wp_bind, wp_get. apply wp_if; intros _.
    - apply wp_bind. eapply wp_mono; [by apply Hcb|]. intros [] s1 Hs1. by apply wp_bind, wp_modify, wp_ret.
    - apply wp_if; intros _; [|by apply wp_ret]. apply wp_bind. eapply wp_mono; [by apply Hcb|].
      intros [] s1 Hs1. by apply wp_ret. }
  intros r s1 [Hp1 Hf1]. apply wp_if; intros _; [by apply wp_ret|].
  apply wp_bind, wp_modify, wp_bind, wp_modify. match goal with |- wp _ _ ?s => set (s2 := s) end. apply wp_bind.
  eapply wp_mono; [by apply (ReceiveDhcpMessage_keeps ev s2)|]. intros rr s3 (Hs3 & Ho3 & Hr3).
  apply wp_if; intros _; [by apply wp_ret|]. apply wp_bind.
  eapply wp_mono; [by apply ContinueReceive_keeps|]. intros again s4 (Hs4 & Hreq).
  apply wp_if; intros E; [by apply wp_ret|]. apply wp_bind.
  eapply wp_mono; [apply handle_message_keeps; [done|by apply Hreq]|]. intros [] s5 Hs5. by apply wp_ret.
Qed.

Lemma looper_loop_keeps evs : Forall ok_event evs -> forall s, server_inv s ->
  wp (looper_loop evs) (fun _ s' => server_inv s') s.
Proof.
  induction 1 as [|ev evs Hev _ IH]; intros s Hs; cbn [looper_loop];
    (apply wp_bind, wp_get; apply wp_if; intros _; [by apply wp_ret|]); [by apply wp_ret|].
  apply wp_bind. eapply wp_mono; [by apply looper_body_keeps|]. intros b s1 Hs1.
  apply wp_if; intros _; [by apply IH|by apply wp_ret].
Qed.

End Safety.
