(* ===== verification/ServerProperties.v ===== *)
(** What the server guarantees and where it falls short: memory safety of every
    execution, the exchange that leases an address, the effects of the other
    messages, and executions that show the limits of the code. *)
From stdpp Require Import relations.
From S2P Require Import Prelude AddressUtils OptionList Codec CommonUtil DottedQuad Binding AddressPool Config PoolInvariant Server ServerInvariant.

(** ** Concrete servers and messages *)

Definition test_network : Network := {|
  sendto := fun datagram => Z.of_nat (length datagram);
  AddArpEntry := fun _ _ _ => 0;
  InitServer := fun _ => 3
|}.

(** A running server of [test_pool k] with empty tables. *)
Definition test_server (k : Z) : Server :=
  mkServer (test_state k) (str "wlan0") 1 LS_RUNNING 3 1 false true 0 0 zero_message zero_message [].

(** A message of 300 bytes from [mac] with the given options. *)
Definition request_bytes (mac opts : bytes) : bytes :=
  take 300 (packet_bytes (mkMessage BOOTREQUEST 1 6 0 7 0 0 0 0 0 0 mac (zeros 64) (zeros 128)
    (pad 312 (MAGIC_COOKIE_DATA ++ opts ++ [END_OPTION])))).
Definition client (i typ : Z) (opts : bytes) : recv_event :=
  EvRecv 300 (request_bytes (test_mac i) ([DHCP_MESSAGE_TYPE_OPTION; 1; typ] ++ opts)) 0.
Definition ask (ip : Z) : bytes := [REQUESTED_IP_ADDRESS_OPTION; 4] ++ le32 ip.

(** A decoded message. *)
Definition message (mac : bytes) (opts : list DhcpOption) : DhcpMsgInfo :=
  mkMsgInfo (mkMessage BOOTREQUEST 1 6 0 7 0 0 0 0 0 0 mac (zeros 64) (zeros 128) (zeros 312)) 300 opts.

Definition test_clients (m : bytes) : Prop := m = test_mac 1 \/ m = test_mac 2.

Lemma test_clients_ok : clients test_clients.
Proof.
  split.
  - intros m [-> | ->]; done.
  - intros m [-> | ->]; done.
  - assert (H : macAddrHash (test_mac 1) <> macAddrHash (test_mac 2)) by (vm_compute; discriminate).
    intros m m' [-> | ->] [-> | ->] E; [reflexivity|destruct (H E)|destruct (H (eq_sym E))|reflexivity].
Qed.

Lemma test_pool_valid : valid_pool (config_of (test_pool 8)).
Proof.
  split.
  - exists 8. split; [lia|done].
  - split; by apply check_u32.
  - discriminate.
  - done.
Qed.

Lemma test_pool_inv : pool_inv test_clients (config_of (test_pool 8)) (test_state 8).
Proof. split; [done|apply map_Forall_empty..]. Qed.

Lemma zero_message_wf : wf_packet (packet zero_message).
Proof. split; [by apply all_u8|done]. Qed.

Lemma test_server_inv : server_inv test_clients (config_of (test_pool 8)) (test_server 8).
Proof. split; [apply test_pool_inv|apply zero_message_wf]. Qed.

(** ** Safety *)

Section Safety.
Context {PF : Platform} {IT : InetText} {NW : Network}.

(** One action of the looper's thread or of a thread that calls into the
    server. *)
Inductive server_step (K : bytes -> Prop) (s s' : Server) : Prop :=
| step_receive ev b : ok_event K ev -> looper_body ev s = Some (b, s') -> server_step K s s'
| step_stop r : StopDhcpServer s = Some (r, s') -> server_step K s s'
| step_save r : SaveLease s = Some (r, s') -> server_step K s s'
| step_callback b : RegisterDhcpCallback b s = Some (tt, s') -> server_step K s s'
| step_device b : RegisterDeviceChangedCallback b s = Some (tt, s') -> server_step K s s'.

Lemma server_step_inv K c s s' : clients K -> valid_pool c ->
  server_inv K c s -> server_step K s s' -> server_inv K c s'.
Proof.
  intros HK Hc Hs. destruct 1 as [ev b Hev E|r E|r E|b E|b E].
  - pose proof (looper_body_keeps K c HK Hc ev s Hs Hev) as H. unfold wp in H. by rewrite E in H.
  - injection E as <- <-. done.
  - pose proof (wp_lift (SaveBindingRecoders 1) (fun _ s' => server_inv K c s') s) as H.
    unfold SaveLease in E. unfold wp in H at 2. rewrite E in H. apply H.
    eapply wp_mono; [apply (keeps_SaveBindingRecoders K c 1), Hs|]. intros a P [HP _]. split; [done|apply Hs].
  - injection E as <-. done.
  - injection E as <-. done.
Qed.


End Safety.

(** The server after a DISCOVER of the first client. *)
Definition discovered_server : Server :=
  match @looper_body test_platform DottedQuad test_network (client 1 DHCPDISCOVER []) (test_server 8) with
  | Some (_, s) => s | None => test_server 8 end.

Lemma client_ok i typ opts : test_clients (test_mac i) ->
  forallb (fun b => (0 <=? b) && (b <? 2 ^ 8)) (request_bytes (test_mac i) ([DHCP_MESSAGE_TYPE_OPTION; 1; typ] ++ opts)) = true ->
  length (request_bytes (test_mac i) ([DHCP_MESSAGE_TYPE_OPTION; 1; typ] ++ opts)) = 300%nat ->
  take 16 (drop 28 (request_bytes (test_mac i) ([DHCP_MESSAGE_TYPE_OPTION; 1; typ] ++ opts))) = test_mac i ->
  ok_event test_clients (client i typ opts).
Proof.
  intros Hi Hu Hl Hm. split; [unfold max_safe_length; lia|]. split; [by rewrite Hl|].
  split; [by apply all_u8|]. left. by rewrite Hm.
Qed.

Lemma discover_step : @server_step test_platform DottedQuad test_network test_clients (test_server 8) discovered_server.
Proof.
  apply (step_receive _ _ _ (client 1 DHCPDISCOVER []) true).
  - apply client_ok; [by left|vm_compute; reflexivity..].
  - vm_compute. reflexivity.
Qed.

Lemma discovered_server_inv : server_inv test_clients (config_of (test_pool 8)) discovered_server.
Proof.
  exact (@server_step_inv test_platform DottedQuad test_network _ _ _ _ test_clients_ok test_pool_valid
    test_server_inv discover_step).
Qed.


(** ** A new server *)

Section Start.
Context {PF : Platform} {IT : InetText}.

Lemma load_without_file s path : path = lease_path (pool_ifname (pool s)) -> files s !! path = None ->
  LoadBindingRecoders s = Some (RET_FAILED, s).
Proof.
  intros -> Hf. unfold LoadBindingRecoders, bind, get. cbv beta iota.
  destruct (_ <? _); [done|]. destruct (negb _); [done|]. by rewrite Hf.
Qed.

Lemma CheckAddressRange_valid p k : 0 <= k <= 32 -> netmask p = netmask_of k ->
  is_u32 (beginAddress p) -> is_u32 (endAddress p) -> truthy (CheckAddressRange p) = true -> valid_pool p.
Proof.
  intros Hk Hm Hb He. unfold CheckAddressRange. cbv zeta.
  destruct (_ || _ || _) eqn:E1; [discriminate|]. destruct (negb (_ =? _) || _) eqn:E2; [discriminate|]. intros _.
  btauto_hyps. split; [by exists k|done| |split; congruence]. intros E.
  match goal with H : NetworkAddress (beginAddress p) _ <> 0 |- _ => apply H; by rewrite E end.
Qed.

Definition cfg_u32 (c : DhcpConfig) : Prop := is_u32 (cfg_begin c) /\ is_u32 (cfg_end c).

Lemma First_u32 ip m : is_u32 (FirstIpAddress ip m) /\ is_u32 (LastIpAddress ip m).
Proof. split; unfold FirstIpAddress, LastIpAddress; apply htonl_range. Qed.

(** The pool a configuration gives. *)
Definition configured_pool (cfg : DhcpConfig) : DhcpAddressPool :=
  configure_pool cfg (set_pool_ifname (cfg_ifname cfg) zero_pool).

Lemma InitServerContext_spec K dir mk cfg s k :
  cfg_netmask cfg = netmask_of k -> 0 <= k <= 32 -> cfg_u32 cfg ->
  files s !! lease_path (cfg_ifname cfg) = None ->
  wp (InitServerContext dir mk cfg) (fun r s' =>
    r = (if (IFACE_NAME_SIZE <=? Z.of_nat (length (cfg_ifname cfg))) || negb (truthy (CheckAddressRange (configured_pool cfg)))
         then RET_FAILED else RET_SUCCESS) /\
    (r = RET_SUCCESS -> pool s' = set_times cfg (configured_pool cfg) /\
       valid_pool (config_of (pool s')) /\ pool_inv K (config_of (pool s')) s')) s.
Proof.
  intros Hm Hk [Hb He] Hf. unfold InitServerContext, InitAddressPool. apply wp_bind, wp_bind, wp_modify.
  apply wp_if; intros Hl; [rewrite Hl; by apply wp_ret, wp_ret|rewrite Hl; cbn [orb]].
  do 3 apply wp_bind, wp_modify. apply wp_ret. change (negb (RET_SUCCESS =? RET_SUCCESS)) with false. cbv iota.
  match goal with |- wp _ _ ?x => set (s1 := x) end.
  apply wp_bind, wp_modify. set (s2 := set_pool (configure_pool cfg (pool s1)) s1).
  assert (Ep : pool s2 = configured_pool cfg) by done.
  apply wp_bind, wp_get. rewrite <- Ep. apply wp_if; intros E; rewrite E; [by apply wp_ret|]. apply negb_false_iff in E.
  assert (Hv : valid_pool (pool s2)).
  { pose proof (First_u32 (cfg_serverId cfg) (cfg_netmask cfg)) as [? ?].
    apply (CheckAddressRange_valid _ k); try done; cbn; by destruct (_ && _). }
  apply wp_bind. apply wp_mono with (Q := fun _ s' => s' = s2).
  { unfold InitLeaseFile. apply wp_if; intros _; [by apply wp_ret|]. apply wp_bind.
    eapply wp_intro; [by eapply load_without_file|]. unfold InitBindingRecoders. apply wp_bind, wp_get.
    replace (in_order (leases s2)) with (@nil (Z * AddressBinding)) by (by vm_compute). done. }
  intros _ _ ->. apply wp_bind, wp_modify, wp_ret. split; [done|]. intros _. split; [done|].
  split; [by destruct Hv; split|]. split; [done|apply map_Forall_empty..].
Qed.

(** What [InitializeServer] accepts. *)
Definition accepted (cfg : DhcpConfig) : bool :=
  negb (bool_decide (cfg_ifname cfg = [])) && (Z.of_nat (length (cfg_ifname cfg)) <? IFACE_NAME_SIZE) &&
  truthy (cfg_serverId cfg) && truthy (cfg_netmask cfg) && truthy (CheckAddressRange (configured_pool cfg)).

Definition fixed_options (cfg : DhcpConfig) : list DhcpOption :=
  fold_left (fun os o => snd (opts_push_back os o)) (cfg_options cfg) [].

Lemma InitializeServer_spec K dir mk from0 reply0 cfg s k :
  cfg_netmask cfg = netmask_of k -> 0 <= k <= 32 -> cfg_u32 cfg ->
  files s !! lease_path (cfg_ifname cfg) = None -> wf_packet (packet from0) ->
  exists r s', InitializeServer dir mk true from0 reply0 cfg s = Some (r, s') /\
    match r with
    | Some srv => accepted cfg = true /\ ps srv = s' /\
        pool s' = set_fixedOptions (fixed_options cfg) (set_times cfg (configured_pool cfg)) /\
        looperState srv = LS_IDLE /\ ctx_ifname srv = cfg_ifname cfg /\ srv_initialized srv = 1 /\
        valid_pool (config_of (pool s')) /\ server_inv K (config_of (pool s')) srv
    | None => accepted cfg = false
    end.
Proof.
  intros Hm Hk Hu Hf Hfrom. unfold InitializeServer, accepted.
  case_bool_decide; [by do 2 eexists|]. cbn [negb andb].
  destruct (truthy (cfg_serverId cfg)), (truthy (cfg_netmask cfg)); cbn [negb orb]; rewrite ?andb_false_r;
    try (by do 2 eexists).
  pose proof (InitServerContext_spec K dir mk cfg s k Hm Hk Hu Hf) as H1. unfold wp in H1.
  destruct (InitServerContext dir mk cfg s) as [[r s1]|]; [|done]. cbn [mbind option_bind].
  destruct H1 as [Er H1]. rewrite Z.ltb_antisym. destruct (_ <=? _); cbn [orb negb andb] in *; [subst r; by do 2 eexists|].
  destruct (truthy (CheckAddressRange _)); cbn [negb] in *; subst r; [|by do 2 eexists].
  change (negb (RET_SUCCESS =? RET_SUCCESS)) with false. cbv iota. destruct (H1 eq_refl) as (Ep & Hv & Hi).
  cbn. do 2 eexists. split; [reflexivity|]. cbn. split; [done|]. split; [done|].
  split; [by rewrite Ep|]. do 3 (split; [done|]). split; [by destruct Hv; split|]. split; [|exact Hfrom].
  destruct Hi as [C1 C2 C3]. split; [reflexivity|exact C2|exact C3].
Qed.

(** A server initialised without a lease file satisfies the premises of
    [server_safe], whatever the clients: the pool is the one of the
    configuration, the range lies in the server's network and the tables are
    empty; and the server is refused exactly when the name, the address or the
    mask is missing or the range leaves the network.  The netmask of the
    configuration has to be contiguous, which the code does not check, and the
    looper's message buffer may hold anything. *)
Theorem InitializeServer_ready K dir mk from0 reply0 cfg s k :
  cfg_netmask cfg = netmask_of k -> 0 <= k <= 32 -> cfg_u32 cfg ->
  files s !! lease_path (cfg_ifname cfg) = None -> wf_packet (packet from0) ->
  exists r s', InitializeServer dir mk true from0 reply0 cfg s = Some (r, s') /\
    match r with
    | Some srv => accepted cfg = true /\ ps srv = s' /\
        pool s' = set_fixedOptions (fixed_options cfg) (set_times cfg (configured_pool cfg)) /\
        looperState srv = LS_IDLE /\ ctx_ifname srv = cfg_ifname cfg /\ srv_initialized srv = 1 /\
        valid_pool (config_of (pool s')) /\ server_inv K (config_of (pool s')) srv
    | None => accepted cfg = false
    end.
Proof. apply InitializeServer_spec. Qed.

End Start.

Definition test_config : DhcpConfig :=
  mkConfig (str "wlan0") (addr 192 168 62 1) (netmask_of 8) (addr 192 168 62 1) 21600 10800 18900 1 1 0 0 [].

Lemma InitializeServer_ready_witness :
  exists r s', @InitializeServer test_platform DottedQuad true 0 true zero_message zero_message test_config
      (mkState ∅ 0 0 0 ∅ zero_pool) = Some (r, s') /\
    match r with
    | Some srv => accepted test_config = true /\ ps srv = s' /\
        pool s' = set_fixedOptions (fixed_options test_config) (set_times test_config (configured_pool test_config)) /\
        looperState srv = LS_IDLE /\ ctx_ifname srv = cfg_ifname test_config /\ srv_initialized srv = 1 /\
        valid_pool (config_of (pool s')) /\ server_inv test_clients (config_of (pool s')) srv
    | None => accepted test_config = false
    end.
Proof.
  apply (@InitializeServer_ready test_platform DottedQuad test_clients) with (k := 8).
  - reflexivity.
  - lia.
  - split; by apply check_u32.
  - reflexivity.
  - exact zero_message_wf.
Defined.

(** ** Leasing an address *)

Section Exchange.
Context {PF : Platform} {IT : InetText} {NW : Network}.

(** For prefixes of at least 24 bits the range test of the search implies the
    range test of a request. *)
Lemma requested_in_range c ip k req : valid_pool c -> netmask c = netmask_of k -> 1 <= k <= 8 ->
  IpInRange ip (beginAddress c) (endAddress c) (netmask c) = DHCP_TRUE -> ip <> 0 ->
  ciaddr (packet req) = 0 -> GetRequestIpAddress req = ip ->
  forall pl, beginAddress pl = beginAddress c -> endAddress pl = endAddress c ->
  your_ip req INADDR_BROADCAST pl = (RET_SUCCESS, ip).
Proof.
  intros Hc Em Hk Hr Hne Hci Hreq pl E1 E2. destruct (vp_u32 _ Hc) as [Hb He].
  assert (Hu : is_u32 ip) by (apply IpInRange_spec in Hr as (_ & _ & ?); unfold is_u32 in *; lia).
  rewrite Em in Hr. apply IpInRange_host_order_lemma in Hr as (_ & _ & Hr); [|done..|lia].
  unfold your_ip. cbv zeta. rewrite Hci, Hreq, E1, E2. change (truthy 0) with false. cbn [andb negb].
  unfold truthy at 1. rewrite (proj2 (Z.eqb_neq _ _) Hne). cbn [negb]. change (usable_addr 0) with false. cbv iota.
  assert (Ey : (if usable_addr ip then ip else INADDR_BROADCAST) = ip).
  { unfold usable_addr, truthy. rewrite (proj2 (Z.eqb_neq _ _) Hne). cbn [negb andb].
    destruct (Z.eqb_spec ip INADDR_BROADCAST); done. }
  rewrite Ey. unfold ntohl. rewrite Z.gtb_ltb, (proj2 (Z.ltb_ge _ _)), (proj2 (Z.ltb_ge _ _)) by lia. done.
Qed.

Lemma handshake_spec K c dis k s : clients K -> valid_pool c -> pool_inv K c (ps s) -> K (mac_of dis) ->
  netmask c = netmask_of k -> 1 <= k <= 8 ->
  bindingRecoders (ps s) !! macAddrHash (mac_of dis) = None -> findable (mac_of dis) (ps s) ->
  wp (OnReceivedDiscover dis) (fun r s1 => r = REPLY_OFFER /\
    let ip := yiaddr (packet (reply s1)) in
    IpInRange ip (beginAddress c) (endAddress c) (netmask c) = DHCP_TRUE /\
    forall req s2, ps s2 = ps s1 -> mac_of req = mac_of dis -> Forall decoded (options req) ->
      ciaddr (packet req) = 0 -> GetRequestIpAddress req = ip -> for_server req c ->
      wp (OnReceivedRequest req) (fun r' s3 => acknowledged req s2 r' s3 ip) s2) s.
Proof.
  intros HK Hc Hs Hm Em Hk Hnew Hfind.
  eapply wp_mono; [by apply (OnReceivedDiscover_spec K c HK Hc)|].
  intros r s1 (Hs1 & _ & b & Hd). destruct (dsc_new _ _ _ _ _ _ Hd Hnew) as [Hne Hrange].
  specialize (Hne Hfind). specialize (Hrange Hne).
  destruct (dsc_offer _ _ _ _ _ _ Hd Hne) as (-> & _ & Hy & (l & Hl & Hlb) & _).
  split; [done|]. cbv zeta. rewrite Hy. split; [done|].
  intros req s2 Es Er Hdec Hci Hip Hsrv.
  eapply wp_mono; [apply (OnReceivedRequest_spec K c HK Hc); [by rewrite Es|by rewrite Er|done]|].
  intros r' s3 (_ & _ & _ & Hack). apply Hack.
  assert (Hs2 : pool_inv K c (ps s2)) by (by rewrite Es).
  destruct (config_fields K c _ Hs2) as (E1 & E2 & E3 & E4). split.
  - by apply (requested_in_range c _ k).
  - unfold for_server in *. unfold addressPool. by rewrite E4.
  - exists b. rewrite Es, Er. split; [apply Hd|done].
  - exists l. rewrite Es, Er. split; [done|].
    destruct Hlb as [->|(_ & _ & E)]; [apply Hd|congruence].
Qed.


(** A REQUEST that names another server, for an address inside the range,
    is ignored: nothing is answered and the tables stay. *)
Theorem other_server_ignored m s : fst (your_ip m INADDR_BROADCAST (addressPool s)) = RET_SUCCESS ->
  ~ for_server m (addressPool s) ->
  wp (OnReceivedRequest m) (fun r s' => r = REPLY_NONE /\ ps s' = ps s /\ reply s' = reply s) s.
Proof.
  intros Hy Hno. unfold OnReceivedRequest, ValidateRequestMessage, GetYourIpAddress.
  apply wp_bind, wp_bind, wp_bind, wp_bind, wp_SourceIpAddress. set (s1 := set_src_addr INADDR_ANY s).
  unfold your_ip in Hy. cbv zeta in *. change (truthy 0) with false. rewrite !andb_false_r. cbn [andb negb].
  destruct (truthy (ciaddr (packet m)) && truthy (GetRequestIpAddress m) && _); [done|].
  destruct (negb (truthy (ciaddr (packet m))) && _); [done|].
  change (usable_addr 0) with false. cbv iota. apply wp_bind, wp_get.
  change (addressPool s1) with (addressPool s). destruct ((_ <? _) || _); [done|].
  apply wp_bind. change (0 =? INADDR_ANY) with true. cbv iota. unfold DestinationAddr.
  apply wp_modify, wp_ret. change (negb (RET_SUCCESS =? RET_SUCCESS)) with false. cbv iota.
  match goal with |- wp _ _ ?x => set (s2 := x) end. apply wp_bind, wp_get.
  change (addressPool s2) with (addressPool s). unfold for_server in Hno.
  destruct (opts_get (options m) SERVER_IDENTIFIER_OPTION) as [o|]; [|by destruct Hno].
  apply Z.eqb_neq in Hno. rewrite Hno. by apply wp_ret, wp_ret.
Qed.


(** A DECLINE of the bound address drops the client's binding and keeps the
    address leased; other leases and bindings stay and nothing is answered. *)
Theorem decline_keeps_lease K c m s : clients K -> valid_pool c -> pool_inv K c (ps s) -> K (mac_of m) ->
  wp (OnReceivedDecline m) (fun r s' => pool_inv K c (ps s') /\ frame s s' /\ r = REPLY_NONE /\
    forall b, bindingRecoders (ps s) !! macAddrHash (mac_of m) = Some b -> ipAddress b <> 0 ->
      GetRequestIpAddress m = ipAddress b -> declined m s s') s.
Proof. intros HK Hc. by apply OnReceivedDecline_spec. Qed.

(** ** A request without binding *)

Lemma bind_request_ignored m y s : sec (S (ticks (ps s))) = sec (S (S (ticks (ps s)))) ->
  wp (bind_request m y) (fun r _ => r = REPLY_NONE) s.
Proof.
  intros Hsec. unfold bind_request, AddNewBinding. apply wp_bind, wp_lift.
  apply wp_bind, wp_Tmspsec, wp_bind, wp_Tmspsec, wp_bind, wp_modify. unfold GetBindingByMac. apply wp_get.
  cbn [bindingRecoders set_bindings]. rewrite lookup_insert_eq. set (h := macAddrHash _).
  set (b := set_leaseTime DHCP_LEASE_TIME _). match goal with |- wp _ _ ?x => set (s1 := x) end.
  assert (Ht : ticks (ps s1) = S (S (ticks (ps s)))) by done.
  assert (Hb : deref (BindPtr h) (ps s1) = Some b) by apply lookup_insert_eq.
  assert (Hstep : forall f s' (b' : AddressBinding) (Q : unit -> Server -> Prop),
    deref (BindPtr h) (ps s') = Some b' -> ticks (ps s') = ticks (ps s1) ->
    (forall s'', deref (BindPtr h) (ps s'') = Some (f b') -> ticks (ps s'') = ticks (ps s1) -> Q tt s'') ->
    wp (lift (update (BindPtr h) f)) Q s').
  { intros f s' b' Q Hb' Ht' HQ. apply wp_lift. eapply wp_update_at; [exact Hb'|]. apply HQ; [apply lookup_insert_eq|done]. }
  apply wp_bind. eapply Hstep; [exact Hb|done|]. intros s2 Hb2 Ht2. apply wp_bind, wp_get, wp_bind.
  apply wp_mono with (Q := fun _ s' => exists b', deref (BindPtr h) (ps s') = Some b' /\ ticks (ps s') = ticks (ps s1) /\
    pendingTime b' = sec (S (ticks (ps s))) /\ pendingInterval b' = 0).
  { apply wp_if; intros _; [|apply wp_ret; by eexists]. eapply Hstep; [exact Hb2|done|]. intros s3 Hb3 Ht3. by eexists. }
  intros _ s3 (b3 & Hb3 & Ht3 & Hp3 & Hi3). apply wp_bind. unfold Repending.
  apply wp_bind, wp_lift. eapply wp_load_at; [exact Hb3|]. rewrite set_ps_id. cbv zeta.
  apply wp_bind. eapply Hstep; [exact Hb3|done|]. intros s4 Hb4 Ht4. apply wp_bind, wp_lift, wp_Tmspsec.
  apply wp_bind, wp_lift. eapply wp_load_at; [exact Hb4|]. cbn [pendingTime pendingInterval set_pendingInterval].
  rewrite Hp3, Hi3, Ht4, Ht, <- Hsec, Z.gtb_ltb, Z.ltb_irrefl. change (0 <? NextPendingInterval 0) with true. cbv iota.
  apply wp_bind, wp_lift. eapply wp_update_at; [exact Hb4|]. by apply wp_ret, wp_ret.
Qed.

(** A request of a client without binding is never acknowledged when the
    server handles it within one second: the new binding is younger than its
    pending interval, so the message counts as repeated too soon. *)
Theorem NotBindingRequest_too_soon m s :
  (forall i, (i <= 3)%nat -> sec (ticks (ps s) + i) = sec (ticks (ps s))) ->
  wp (NotBindingRequest m) (fun r _ => r = REPLY_NONE \/ r = REPLY_NAK) s.
Proof.
  intros Hsec.
  assert (Hbr : forall y s', (ticks (ps s) <= ticks (ps s') <= S (ticks (ps s)))%nat ->
    wp (bind_request m y) (fun r _ => r = REPLY_NONE \/ r = REPLY_NAK) s').
  { intros y s' Ht. eapply wp_mono; [apply bind_request_ignored|by left].
    assert (E : forall n, (ticks (ps s) <= n <= ticks (ps s) + 3)%nat -> sec n = sec (ticks (ps s))).
    { intros n Hn. rewrite <- (Hsec (n - ticks (ps s))%nat) by lia. f_equal. lia. }
    transitivity (sec (ticks (ps s))); [|symmetry]; apply E; lia. }
  unfold NotBindingRequest. apply wp_bind, wp_GetYourIpAddress. intros s1 (E1 & _).
  destruct (your_ip m 0 (addressPool s)) as [r y]. apply wp_if; intros _; [apply wp_ret; by left|].
  apply wp_bind, wp_lift. unfold GetLease. apply wp_if; intros Ey.
  { apply wp_ret, wp_bind, wp_SourceIpAddress. apply wp_ret. by right. }
  apply wp_get. destruct (leases (ps s1) !! y) as [l|] eqn:El.
  2: { apply wp_bind, wp_SourceIpAddress. apply wp_ret. by right. }
  rewrite set_ps_id. apply wp_bind, wp_lift. eapply wp_load_at; [exact El|]. rewrite set_ps_id. cbv zeta.
  apply wp_if; intros _; [|apply Hbr; rewrite E1; lia].
  apply wp_bind, wp_lift. eapply wp_IsExpire_at; [exact El| |]; intros _; cbn [truthy negb].
  - apply wp_if; intros _; [apply wp_ret; by right|]. apply wp_bind, wp_lift. unfold RemoveLease. apply wp_bind.
    eapply wp_load_at; [apply (deref_assign (LeasePtr y))|].
    match goal with |- wp _ _ ?x => set (s2 := x) end.
    assert (H2 : ticks s2 = S (ticks (ps s))) by (cbn; by rewrite E1).
    apply wp_if; intros _; [apply wp_ret, Hbr; cbn [ps set_ps]; rewrite H2; lia|].
    apply wp_bind, wp_get. destruct (leases s2 !! _).
    + apply wp_bind, wp_modify, wp_ret, Hbr. cbn [ps set_ps].
      match goal with |- context [ticks (set_leases ?x ?z)] => change (ticks (set_leases x z)) with (ticks s2) end.
      rewrite H2. lia.
    + apply wp_ret, Hbr. cbn [ps set_ps]. rewrite H2. lia.
  - apply wp_if; intros E; [apply wp_ret; by right|discriminate E].
Qed.

End Exchange.

(** ** Witnesses *)

Lemma test_findable : findable (test_mac 1) (test_state 8).
Proof.
  exists (addr 192 168 62 77), 8. repeat apply conj; try reflexivity; try discriminate.
  - split; try discriminate. split; [cbn; lia|discriminate].
Qed.


(** A request that names 10.0.0.1 as its server. *)
Definition other_request : DhcpMsgInfo :=
  message (test_mac 1) [option_of REQUESTED_IP_ADDRESS_OPTION 4 (le32 (addr 192 168 62 9));
                        option_of SERVER_IDENTIFIER_OPTION 4 (le32 (addr 10 0 0 1))].

Lemma other_server_ignored_witness :
  wp (@OnReceivedRequest test_platform other_request)
    (fun r s' => r = REPLY_NONE /\ ps s' = ps (test_server 8) /\ reply s' = reply (test_server 8)) (test_server 8).
Proof.
  apply (@other_server_ignored test_platform other_request (test_server 8)).
  - vm_compute. reflexivity.
  - vm_compute. discriminate.
Defined.


Lemma decline_keeps_lease_witness :
  let m := message (test_mac 1) [option_of REQUESTED_IP_ADDRESS_OPTION 4 (le32 (addr 192 168 62 2))] in
  wp (@OnReceivedDecline test_platform m) (fun r s' =>
    pool_inv test_clients (config_of (test_pool 8)) (ps s') /\ frame discovered_server s' /\ r = REPLY_NONE /\
    forall b, bindingRecoders (ps discovered_server) !! macAddrHash (mac_of m) = Some b -> ipAddress b <> 0 ->
      GetRequestIpAddress m = ipAddress b -> declined m discovered_server s') discovered_server.
Proof.
  apply (@decline_keeps_lease test_platform test_clients (config_of (test_pool 8))
    (message (test_mac 1) [option_of REQUESTED_IP_ADDRESS_OPTION 4 (le32 (addr 192 168 62 2))])).
  - exact test_clients_ok.
  - exact test_pool_valid.
  - apply discovered_server_inv.
  - by left.
Defined.

Lemma NotBindingRequest_too_soon_witness :
  let s := set_ps (set_leases {[ addr 192 168 62 9 := set_chaddr (test_mac 1) (set_ipAddress (addr 192 168 62 9) zero_binding) ]}
    (test_state 8)) (test_server 8) in
  wp (@NotBindingRequest test_platform other_request) (fun r _ => r = REPLY_NONE \/ r = REPLY_NAK) s.
Proof.
  apply (@NotBindingRequest_too_soon test_platform other_request).
  intros i Hi. do 4 (destruct i as [|i]; [vm_compute; reflexivity|]). lia.
Defined.

(** ** Executions that show the limits *)

(** The datagrams sent: message type, [yiaddr], last byte of the client's
    hardware address. *)
Definition sent (s : Server) : list (Z * Z * Z) :=
  flat_map (fun e => match e with
    | ESend _ d => [(byte_at d 242, ParseIp (drop 16 d), byte_at d 33)]
    | _ => [] end) (trace s).

(** The clients with a binding to an address, and the status of the binding. *)
Definition bound_to (ip : Z) (s : Server) : list (Z * Z) :=
  map (fun kb => (byte_at (chaddr kb.2) 5, bindingStatus kb.2))
    (List.filter (fun kb => ipAddress kb.2 =? ip) (map_to_list (bindingRecoders (ps s)))).

Definition lessee (ip : Z) (s : Server) : option Z := (fun l => byte_at (chaddr l) 5) <$> leases (ps s) !! ip.

Definition run (k : Z) (evs : list recv_event) : option Server :=
  snd <$> @looper_loop test_platform DottedQuad test_network evs (test_server k).

(** An address acknowledged to two clients.  After a RELEASE the binding
    stays, so the client's next REQUEST is acknowledged although the lease is
    gone; the address counts as free and is offered and acknowledged to a third
    client: two bindings of one address are associated, and the first client
    was never told. *)
Theorem address_given_twice :
  let ip := addr 192 168 62 2 in
  (fun s => (map fst (sent s), bound_to ip s, lessee ip s)) <$>
    run 2 [client 1 DHCPDISCOVER []; client 1 DHCPREQUEST (ask ip); client 1 DHCPRELEASE (ask ip);
           client 1 DHCPREQUEST (ask ip); client 2 DHCPDISCOVER []; client 3 DHCPDISCOVER [];
           client 3 DHCPREQUEST (ask ip)] =
  Some ([(DHCPOFFER, ip); (DHCPACK, ip); (DHCPACK, ip); (DHCPOFFER, addr 192 168 62 1); (DHCPOFFER, ip); (DHCPACK, ip)],
        [(1, BIND_ASSOCIATED); (3, BIND_ASSOCIATED)], Some 3).
Proof. vm_compute. reflexivity. Qed.

(** The address of a reply is not reset between messages: after an offer to
    the first client, the acknowledgement of an INFORM of the second one
    carries the address offered to the first. *)
Theorem inform_stale_address :
  sent <$> run 8 [client 1 DHCPDISCOVER []; client 2 DHCPINFORM []] =
  Some [(DHCPOFFER, addr 192 168 62 2, 1); (DHCPACK, addr 192 168 62 2, 2)].
Proof. vm_compute. reflexivity. Qed.

(** A REQUEST for an address of another network, addressed to another
    server, is answered with a NAK and deletes the client's binding here: the
    range is tested before the server identifier. *)
Theorem foreign_request_refused :
  let ip := addr 192 168 62 2 in
  (fun s => (map fst (sent s), bound_to ip s, lessee ip s)) <$>
    run 8 [client 1 DHCPDISCOVER []; client 1 DHCPREQUEST (ask ip);
           client 1 DHCPREQUEST (ask (addr 10 0 0 5) ++ [SERVER_IDENTIFIER_OPTION; 4; 10; 0; 0; 1])] =
  Some ([(DHCPOFFER, ip); (DHCPACK, ip); (DHCPNAK, ip)], [], Some 1).
Proof. vm_compute. reflexivity. Qed.

(** A platform on which ten thousand seconds pass between two readings. *)
Definition slow_platform : Platform := {|
  clock := fun n => 1700000000000000 + Z.of_nat n * 10000000000;
  realpath := fun p => Some p;
  fopen_w := fun _ => true
|}.

Definition message_from (mac : bytes) (typ : Z) (opts : bytes) : recv_event :=
  EvRecv 300 (request_bytes mac ([DHCP_MESSAGE_TYPE_OPTION; 1; typ] ++ opts)) 0.

(** Two clients with the same hash make the server write through an erased
    element.  The first declines its address and its lease expires; the
    DISCOVER of the second creates a binding under the same key and the search
    reaches the expired lease, whose client's binding -- the one just created
    -- is removed before the address is stored in it. *)
Theorem collision_use_after_erase :
  let m1 := [2; 0; 0; 0; 0; 2] ++ zeros 10 in
  let m2 := [2; 0; 0; 0; 9; 235] ++ zeros 10 in
  let start := [message_from m1 DHCPDISCOVER []; message_from m1 DHCPDECLINE (ask (addr 192 168 62 2));
                message_from (test_mac 4) DHCPDISCOVER []] in
  macAddrHash m1 = macAddrHash m2 /\
  is_Some (@looper_loop slow_platform DottedQuad test_network start (test_server 2)) /\
  @looper_loop slow_platform DottedQuad test_network (start ++ [message_from m2 DHCPDISCOVER []]) (test_server 2) = None.
Proof. cbv zeta. split; [by vm_compute|]. split; [vm_compute; by eexists|by vm_compute]. Qed.
