(* ===== verification/Startup.v ===== *)
(** Starting and stopping a server: the argument table
    (src/services/dhcp_server/src/dhcp_argument.cpp), the configuration it
    overrides and the main functions
    (src/services/dhcp_server/src/dhcp_dhcpd.cpp).

    The process keeps the argument table, the configuration, the global tables
    of the address pool and the server.  A value of the table is the array of
    256 bytes it is stored in.  [None] is a read past an array that holds no
    terminating zero. *)
From S2P Require Import Prelude AddressUtils OptionList CommonUtil Binding AddressPool DottedQuad Codec Config PoolInvariant Server ServerInvariant ServerProperties.

Definition ARGUMENT_NAME_SIZE : Z := 32.
Definition ARGUMENT_VALUE_SIZE : Z := 256.
Definition DHCPD_CONFIG_FILE : bytes := str "/data/service/el1/public/dhcp/etc/dhcpd.conf".
Definition DEFAUTL_NET_MASK : bytes := str "255.255.255.0".

Record Process := mkProcess {
  g_argumentsTable : gmap bytes bytes;
  g_dhcpConfig : DhcpConfig;
  g_pool : PoolState;
  g_dhcpServer : option Server;
  g_deviceConnectFun : bool
}.

Definition set_args v p := mkProcess v (g_dhcpConfig p) (g_pool p) (g_dhcpServer p) (g_deviceConnectFun p).
Definition set_config v p := mkProcess (g_argumentsTable p) v (g_pool p) (g_dhcpServer p) (g_deviceConnectFun p).
Definition set_server P v p := mkProcess (g_argumentsTable p) (g_dhcpConfig p) P v (g_deviceConnectFun p).

(** The tables of the pool, which outlive a server. *)
Definition tables (p : Process) : PoolState :=
  match g_dhcpServer p with Some s => ps s | None => g_pool p end.

Definition upd_config (f : DhcpConfig -> DhcpConfig) : M Process unit :=
  modify (fun p => set_config (f (g_dhcpConfig p)) p).

(** An operation of the server; [null] is the result without one. *)
Definition on_server {A} (m : M Server A) (null : A) : M Process A := fun p =>
  match g_dhcpServer p with
  | None => Some (null, p)
  | Some s => match m s with Some (r, s') => Some (r, set_server (ps s') (Some s') p) | None => None end
  end.

(** * The argument table *)

Section Arguments.
Context {IT : InetText}.
(** What the stack holds at the value of a new entry: only its first 32 bytes
    are cleared. *)
Variable stack : bytes -> bytes.

Definition HasArgument (argument : bytes) : M Process Z :=
  let name := take (Z.to_nat (ARGUMENT_NAME_SIZE - 1)) argument in
  get (fun p => match g_argumentsTable p !! name with Some _ => 1 | None => 0 end).

Definition InitArguments : M Process Z := modify (set_args ∅) ;; ret RET_SUCCESS.
Definition FreeArguments : M Process unit := modify (set_args ∅).

(** A name of 32 bytes or more fills the array without a terminating zero. *)
Definition GetArgument (name : bytes) : M Process (option bytes) :=
  if ARGUMENT_NAME_SIZE <=? Z.of_nat (length name) then undef
  else get (fun p => g_argumentsTable p !! name).

(** The string in a value. *)
Definition value_text (value : bytes) : M Process bytes :=
  if bool_decide (0 ∈ value) then ret (c_str value) else undef.

Definition new_value (argument val : bytes) : bytes :=
  let cleared := zeros (Z.to_nat ARGUMENT_NAME_SIZE) ++ drop (Z.to_nat ARGUMENT_NAME_SIZE) (stack argument) in
  val ++ drop (length val) cleared.

Definition PutArgument (argument val : bytes) : M Process Z :=
  let* has := HasArgument argument in
  if truthy has then ret RET_FAILED
  else
    let name := take (Z.to_nat (ARGUMENT_NAME_SIZE - 1)) argument in
    if ARGUMENT_VALUE_SIZE <=? Z.of_nat (length val) then ret RET_ERROR
    else
      modify (fun p => set_args (<[name := new_value argument val]> (g_argumentsTable p)) p) ;;
      ret RET_SUCCESS.

Definition PutIpArgument (argument val : bytes) : M Process Z :=
  if negb (truthy (ParseIpAddr val)) then ret RET_FAILED else PutArgument argument val.

Definition PutPoolArgument (argument val : bytes) : M Process Z :=
  if negb (bool_decide (comma ∈ val)) then ret RET_FAILED else PutArgument argument val.

Definition ParseArguments (ifName netMask ipRange localIp : bytes) : M Process Z :=
  let* _ifname := PutArgument (str "ifname") ifName in
  let* _server := PutIpArgument (str "server") localIp in
  let* _netmask := PutIpArgument (str "netmask") netMask in
  let* _pool := PutPoolArgument (str "pool") ipRange in
  ret 0.

(** * The configuration overridden by the arguments *)

Definition InitNetworkAbout : M Process Z :=
  let* arg := GetArgument (str "netmask") in
  let* ok := (match arg with
    | Some value =>
        let* text := value_text value in
        let argNetmask := ParseIpAddr text in
        if truthy argNetmask then upd_config (with_netmask argNetmask) ;; ret true else ret false
    | None =>
        let* c := get g_dhcpConfig in
        when (negb (truthy (cfg_netmask c))) (upd_config (with_netmask (ParseIpAddr DEFAUTL_NET_MASK))) ;; ret true
    end) in
  if negb ok then ret RET_FAILED
  else
    let* arg := GetArgument (str "gateway") in
    match arg with
    | Some value =>
        let* text := value_text value in
        let argGateway := ParseIpAddr text in
        if truthy argGateway then upd_config (with_gateway argGateway) ;; ret RET_SUCCESS else ret RET_FAILED
    | None =>
        let* c := get g_dhcpConfig in
        upd_config (with_gateway (cfg_serverId c)) ;; ret RET_SUCCESS
    end.

(** [strtok_r] ends a token by writing a zero over the delimiter after it: the
    array after [n] tokens were taken from it. *)
Fixpoint cut_tokens (n : nat) (in_token : bool) (d : Z) (value : bytes) : bytes :=
  match n, value with
  | O, _ | _, [] => value
  | S n', c :: r =>
      if c =? 0 then value
      else if c =? d then (if in_token then 0 :: cut_tokens n' false d r else c :: cut_tokens n false d r)
      else c :: cut_tokens n true d r
  end.

(** The loop over the tokens; also returns the number of them. *)
Fixpoint PareseAddreesRange_loop (fuel : nat) (poolPartArg pSave : option bytes) (index : nat) (c : DhcpConfig)
    : option (nat * DhcpConfig) :=
  match fuel with
  | O => None
  | S fuel' =>
      match poolPartArg with
      | None => Some (index, c)
      | Some tok =>
          let c := if bool_decide (index = 0%nat) then with_begin (ParseIpAddr tok) c
                   else if bool_decide (index = 1%nat) then with_end (ParseIpAddr tok) c else c in
          let '(tok', save') := strtok_r comma pSave in
          PareseAddreesRange_loop fuel' tok' save' (S index) c
      end
  end.

Definition PareseAddreesRange : M Process Z :=
  let* arg := GetArgument (str "pool") in
  match arg with
  | None => ret RET_FAILED
  | Some value =>
      let* src := value_text value in
      let '(tok, save) := strtok_r comma (Some src) in
      let* c := get g_dhcpConfig in
      let* '(n, c) := from_option (PareseAddreesRange_loop (S (S (length src))) tok save 0 c) in
      modify (fun p => set_args (<[str "pool" := cut_tokens n false comma value]> (g_argumentsTable p)) p) ;;
      upd_config (fun _ => c) ;;
      if negb (truthy (cfg_begin c)) || negb (truthy (cfg_end c)) then ret RET_FAILED else ret RET_SUCCESS
  end.

Definition InitAddressRange : M Process Z :=
  let* has := HasArgument (str "pool") in
  if truthy has then
    let* r := PareseAddreesRange in
    if negb (r =? RET_SUCCESS) then ret RET_FAILED else ret RET_SUCCESS
  else
    let* c := get g_dhcpConfig in
    when (negb (truthy (cfg_begin c)) || negb (truthy (cfg_end c)))
      (upd_config (with_begin (FirstIpAddress (cfg_serverId c) (cfg_netmask c))) ;;
       upd_config (with_end (LastIpAddress (cfg_serverId c) (cfg_netmask c)))) ;;
    ret RET_SUCCESS.

(** The loop over the name servers: whether every address was read, the number
    of tokens taken, and the option. *)
Fixpoint InitDomainNameServer_loop (fuel : nat) (pTok pSave : option bytes) (n : nat) (argOpt : DhcpOption)
    : option (bool * nat * DhcpOption) :=
  match fuel with
  | O => None
  | S fuel' =>
      match pTok with
      | None => Some (true, n, argOpt)
      | Some tok =>
          let dnsAddress := ParseIpAddr tok in
          if dnsAddress =? 0 then Some (false, S n, argOpt)
          else
            let '(tok', save') := strtok_r comma pSave in
            InitDomainNameServer_loop fuel' tok' save' (S n) (append_one argOpt dnsAddress)
      end
  end.

Definition InitDomainNameServer : M Process Z :=
  let argOpt := option_of DOMAIN_NAME_SERVER_OPTION 0 [] in
  let* arg := GetArgument (str "dns") in
  let* c := get g_dhcpConfig in
  let* '(ok, argOpt) := (match arg with
    | Some value =>
        let* src := value_text value in
        let '(tok, save) := strtok_r comma (Some src) in
        if no_text tok then ret (false, argOpt)
        else
          let* '(ok, n, argOpt) := from_option (InitDomainNameServer_loop (S (S (length src))) tok save 0 argOpt) in
          modify (fun p => set_args (<[str "dns" := cut_tokens n false comma value]> (g_argumentsTable p)) p) ;;
          ret (ok, argOpt)
    | None => ret (true, append_one argOpt (cfg_serverId c))
    end) in
  if negb ok then ret RET_FAILED
  else
    let os := match opts_get (cfg_options c) (code argOpt) with
              | Some _ => snd (opts_remove (cfg_options c) DOMAIN_NAME_SERVER_OPTION) | None => cfg_options c end in
    upd_config (with_options (snd (opts_push_back os argOpt))) ;;
    ret RET_SUCCESS.

Definition InitServerId : M Process Z :=
  let* arg := GetArgument (str "server") in
  match arg with
  | Some value =>
      let* text := value_text value in
      let argServerId := ParseIpAddr text in
      if truthy argServerId then upd_config (with_serverId argServerId) ;; ret RET_SUCCESS else ret RET_FAILED
  | None =>
      let* c := get g_dhcpConfig in
      if negb (truthy (cfg_serverId c)) then ret RET_FAILED else ret RET_SUCCESS
  end.

Definition InitLeaseTime : M Process Z :=
  let* arg := GetArgument (str "lease") in
  (match arg with
   | Some value =>
       let* text := value_text value in
       upd_config (with_leaseTime (u32 (CheckDataLegal text)))
   | None =>
       let* c := get g_dhcpConfig in
       when (negb (truthy (cfg_leaseTime c))) (upd_config (with_leaseTime DHCP_LEASE_TIME))
   end) ;;
  ret RET_SUCCESS.

Definition InitRenewalTime : M Process Z :=
  let* arg := GetArgument (str "renewal") in
  (match arg with
   | Some value =>
       let* text := value_text value in
       upd_config (with_renewalTime (u32 (CheckDataLegal text)))
   | None =>
       let* c := get g_dhcpConfig in
       when (negb (truthy (cfg_rebindingTime c))) (upd_config (with_rebindingTime DHCP_RENEWAL_TIME)) ;;
       upd_config (with_renewalTime DHCP_RENEWAL_TIME)
   end) ;;
  ret RET_SUCCESS.

Definition InitRebindingTime : M Process Z :=
  let* arg := GetArgument (str "rebinding") in
  (match arg with
   | Some value =>
       let* text := value_text value in
       upd_config (with_rebindingTime (u32 (CheckDataLegal text)))
   | None =>
       let* c := get g_dhcpConfig in
       when (negb (truthy (cfg_rebindingTime c))) (upd_config (with_rebindingTime DHCP_REBINDING_TIME))
   end) ;;
  ret RET_SUCCESS.

(** [if (m != RET_SUCCESS) return RET_FAILED;] *)
Definition require (m k : M Process Z) : M Process Z :=
  let* r := m in if negb (r =? RET_SUCCESS) then ret RET_FAILED else k.

Definition InitConfigByArguments : M Process Z :=
  require InitServerId
  (require InitNetworkAbout
  (require InitAddressRange
  (require InitLeaseTime
  (require InitRenewalTime
  (require InitRebindingTime
  (require InitDomainNameServer
  (ret RET_SUCCESS))))))).

(** * Starting and stopping *)

(** [read_file] is the content of a file that can be opened.  The option list
    of the configuration is initialised when it is not, and keeps its options
    when it is. *)
Variable read_file : bytes -> option bytes.

Definition InitializeDhcpConfig (ifname : bytes) : M Process Z :=
  let* has := HasArgument (str "conf") in
  let* configFile := (if truthy has then
      let* configArg := GetArgument (str "conf") in
      match configArg with
      | Some value =>
          let* text := value_text value in
          ret (Some (text ++ drop (length text) DHCPD_CONFIG_FILE))
      | None => ret None
      end
    else ret (Some DHCPD_CONFIG_FILE)) in
  match configFile with
  | None => ret RET_FAILED
  | Some configFile =>
      let* c := get g_dhcpConfig in
      let* '(r, c) := from_option (LoadConfig read_file configFile ifname c) in
      upd_config (fun _ => c) ;;
      if negb (r =? RET_SUCCESS) then ret RET_FAILED
      else
        let* r := InitConfigByArguments in
        if negb (r =? RET_SUCCESS) then ret RET_FAILED else ret RET_SUCCESS
  end.

Definition FreeLocalConfig : M Process unit := upd_config (with_options []).

(** The environment of the server: the file system facts of [InitLeaseFile],
    the result of [pthread_create], the looper states seen while the context is
    freed, and the looper's uninitialised message buffers. *)
Context {PF : Platform}.
Variables (dir_exists : bool) (create_path pthread : Z) (states : nat -> Z) (from0 reply0 : DhcpMsgInfo).

Definition FreeServerContext_main : M Process Z := fun p =>
  match g_dhcpServer p with
  | None => Some (RET_FAILED, p)
  | Some s =>
      match FreeServerContext states s with
      | Some (r, s') => Some (r, set_server (ps s') (if r =? RET_SUCCESS then None else Some s') p)
      | None => None
      end
  end.

Definition FreeSeverResources : M Process unit :=
  FreeArguments ;; FreeLocalConfig ;;
  let* _freed := FreeServerContext_main in ret tt.

Definition InitializeServer_main : M Process bool := fun p =>
  match InitializeServer dir_exists create_path true from0 reply0 (g_dhcpConfig p) (tables p) with
  | Some (r, P) => Some (match r with Some _ => true | None => false end, set_server P r p)
  | None => None
  end.

Definition StartDhcpServerMain (ifName netMask ipRange localIp : bytes) : M Process Z :=
  let* _init := InitArguments in
  let* ret_ := ParseArguments ifName netMask ipRange localIp in
  if negb (ret_ =? RET_SUCCESS) then FreeArguments ;; ret 1
  else
    let* ifaceName := GetArgument (str "ifname") in
    let* name := (match ifaceName with Some value => value_text value | None => ret [] end) in
    if bool_decide (name = []) then FreeArguments ;; ret 1
    else
      let* _config := InitializeDhcpConfig name in
      if IFACE_NAME_SIZE <=? Z.of_nat (length name) then upd_config (with_ifname []) ;; ret 1
      else
        upd_config (with_ifname name) ;;
        let* started := InitializeServer_main in
        if negb started then FreeSeverResources ;; ret 1
        else
          on_server (RegisterDhcpCallback true) tt ;;
          let* fn := get g_deviceConnectFun in
          on_server (RegisterDeviceChangedCallback fn) tt ;;
          let* r := on_server (StartDhcpServer pthread) RET_FAILED in
          if negb (r =? RET_SUCCESS) then FreeSeverResources ;; ret 1 else ret 0.

Definition StopDhcpServerMain : M Process Z :=
  let* r := on_server StopDhcpServer RET_FAILED in
  if negb (r =? RET_SUCCESS) then FreeSeverResources ;; ret 1
  else FreeSeverResources ;; ret 0.

Definition RegisterDeviceConnectCallBack (fn : bool) : M Process Z :=
  modify (fun p => mkProcess (g_argumentsTable p) (g_dhcpConfig p) (g_pool p) (g_dhcpServer p) fn) ;; ret 0.

End Arguments.

(** * Starting with four arguments *)

#[local] Arguments str : simpl never.

Section Starting.
Context {PF : Platform} {IT : InetText} {L : InetTextLaws IT}.
Variable stack : bytes -> bytes.
Variable read_file : bytes -> option bytes.

(** A text that the table keeps with its end. *)
Definition kept (val : bytes) : Prop := Forall (fun c => c <> 0) val /\ (length val < 32)%nat.

(** The table filled by [ParseArguments]. *)
Definition arguments (ifn : bytes) (mask a b ip : Z) : gmap bytes bytes :=
  <[str "pool" := new_value stack (str "pool") (comma_list [a; b])]>
  (<[str "netmask" := new_value stack (str "netmask") (ParseStrIp mask)]>
  (<[str "server" := new_value stack (str "server") (ParseStrIp ip)]>
  (<[str "ifname" := new_value stack (str "ifname") ifn]> ∅))).

(** The configuration after the arguments: the address, the mask and the range
    are theirs, the gateway and the name server are the server itself, and the
    renewal time is the default, whatever the file says. *)
Definition configured (c : DhcpConfig) (mask a b ip : Z) : DhcpConfig :=
  mkConfig (cfg_ifname c) ip mask ip
    (if cfg_leaseTime c =? 0 then DHCP_LEASE_TIME else cfg_leaseTime c) DHCP_RENEWAL_TIME
    (if cfg_rebindingTime c =? 0 then DHCP_RENEWAL_TIME else cfg_rebindingTime c)
    (cfg_distribution c) (cfg_broadcast c) a b (replace_dns [ip] (cfg_options c)).

Lemma kept_ip ip : is_u32 ip -> kept (ParseStrIp ip).
Proof.
  intros H. destruct (ip_text ip H) as (_ & Hc & Hl & _). split; [|lia].
  eapply Forall_impl; [exact Hc|]. cbn. lia.
Qed.

Lemma kept_range a b : is_u32 a -> is_u32 b -> kept (comma_list [a; b]).
Proof.
  intros Ha Hb. destruct (ip_text a Ha) as (_ & H1 & H2 & _), (ip_text b Hb) as (_ & H3 & H4 & _).
  change (comma_list [a; b]) with (ParseStrIp a ++ comma :: ParseStrIp b). split.
  - apply Forall_app. split; [|apply Forall_cons; split; [done|]]; eapply Forall_impl; try eassumption; cbn; lia.
  - rewrite length_app. cbn [length]. lia.
Qed.

Lemma wp_value_text name val Q p : kept val -> Q val p -> wp (value_text (new_value stack name val)) Q p.
Proof.
  intros [Hz Hl] HQ. unfold value_text, new_value, ARGUMENT_NAME_SIZE.
  assert (E : exists r, drop (length val) (zeros (Z.to_nat 32) ++ drop (Z.to_nat 32) (stack name)) = 0 :: r).
  { unfold zeros. rewrite drop_app_le by (rewrite length_replicate; lia). rewrite drop_replicate.
    destruct (Z.to_nat 32 - length val)%nat eqn:E; [lia|]. by eexists. }
  destruct E as [r ->]. rewrite bool_decide_eq_true_2 by (apply elem_of_app; right; left).
  assert (Ec : c_str (val ++ 0 :: r) = val).
  { clear Hl HQ. induction Hz as [|c v Hc _ IH]; [done|]. cbn. rewrite (proj2 (Z.eqb_neq _ _) Hc). by rewrite IH. }
  rewrite Ec. by apply wp_ret.
Qed.

Lemma wp_PutArgument name val Q p : (length name <= 31)%nat -> kept val -> g_argumentsTable p !! name = None ->
  Q RET_SUCCESS (set_args (<[name := new_value stack name val]> (g_argumentsTable p)) p) ->
  wp (PutArgument stack name val) Q p.
Proof.
  intros Hn [_ Hl] Hnone HQ. unfold PutArgument, HasArgument, ARGUMENT_NAME_SIZE.
  rewrite take_ge by lia. apply wp_bind, wp_get. rewrite Hnone. change (truthy 0) with false. cbv iota.
  unfold ARGUMENT_VALUE_SIZE. rewrite (proj2 (Z.leb_gt _ _)) by lia. by apply wp_bind, wp_modify, wp_ret.
Qed.

Lemma ParseArguments_spec ifn mask a b ip Q p : kept ifn -> nonzero_ip mask -> is_u32 a -> is_u32 b -> nonzero_ip ip ->
  g_argumentsTable p = ∅ -> Q 0 (set_args (arguments ifn mask a b ip) p) ->
  wp (ParseArguments stack ifn (ParseStrIp mask) (comma_list [a; b]) (ParseStrIp ip)) Q p.
Proof.
  intros Hifn [Hm Hm0] Ha Hb [Hi Hi0] Hp HQ. destruct (ip_text mask Hm) as (_ & _ & _ & Em), (ip_text ip Hi) as (_ & _ & _ & Ei).
  unfold ParseArguments, PutIpArgument, PutPoolArgument, truthy. rewrite Em, Ei.
  rewrite (proj2 (Z.eqb_neq _ _) Hm0), (proj2 (Z.eqb_neq _ _) Hi0). cbn [negb].
  apply wp_bind, wp_PutArgument; [vm_compute; lia|done|by rewrite Hp|]. rewrite Hp.
  apply wp_bind, wp_PutArgument; [vm_compute; lia|by apply kept_ip|by cbn [g_argumentsTable set_args]; rewrite lookup_insert_ne|].
  apply wp_bind, wp_PutArgument; [vm_compute; lia|by apply kept_ip|by cbn [g_argumentsTable set_args]; rewrite !lookup_insert_ne|].
  rewrite bool_decide_eq_true_2 by (apply elem_of_app; right; left). cbn [negb].
  apply wp_bind, wp_PutArgument; [vm_compute; lia|by apply kept_range|by cbn [g_argumentsTable set_args]; rewrite !lookup_insert_ne|].
  by apply wp_ret.
Qed.

(** ** The configuration *)

Lemma wp_GetArgument name Q p : (length name < 32)%nat -> Q (g_argumentsTable p !! name) p -> wp (GetArgument name) Q p.
Proof. intros Hn HQ. unfold GetArgument, ARGUMENT_NAME_SIZE. rewrite (proj2 (Z.leb_gt _ _)) by lia. by apply wp_get. Qed.

Lemma wp_upd_config f Q p : Q tt (set_config (f (g_dhcpConfig p)) p) -> wp (upd_config f) Q p.
Proof. done. Qed.

Lemma PareseAddreesRange_spec a b Q p : nonzero_ip a -> nonzero_ip b ->
  g_argumentsTable p !! str "pool" = Some (new_value stack (str "pool") (comma_list [a; b])) ->
  (forall v, Q RET_SUCCESS (set_config (with_end b (with_begin a (g_dhcpConfig p)))
     (set_args (<[str "pool" := v]> (g_argumentsTable p)) p))) ->
  wp (PareseAddreesRange) Q p.
Proof.
  intros [Ha Ha0] [Hb Hb0] Hp HQ. destruct (ip_text a Ha) as (_ & _ & _ & Ea), (ip_text b Hb) as (_ & _ & _ & Eb).
  unfold PareseAddreesRange. apply wp_bind, wp_GetArgument; [vm_compute; lia|]. rewrite Hp.
  apply wp_bind, wp_value_text; [by apply kept_range|]. rewrite strtok_comma_list by done. cbn [rest_text].
  apply wp_bind, wp_get. apply wp_bind. eapply wp_intro.
  { unfold from_option. cbn [PareseAddreesRange_loop]. rewrite strtok_comma_list by done. cbn [rest_text].
    cbn [PareseAddreesRange_loop]. change (strtok_r comma None) with (@None bytes, @None bytes). cbv iota.
    assert (Hl : length (comma_list [a; b]) <> 0%nat).
    { change (comma_list [a; b]) with (ParseStrIp a ++ comma :: ParseStrIp b). rewrite length_app. cbn. lia. }
    destruct (length (comma_list [a; b])); [done|]. cbn [PareseAddreesRange_loop]. reflexivity. }
  cbv beta iota. apply wp_bind, wp_modify, wp_bind, wp_upd_config.
  change (bool_decide (0%nat = 0%nat)) with true. change (bool_decide (1%nat = 0%nat)) with false.
  change (bool_decide (1%nat = 1%nat)) with true. cbv iota. rewrite Ea, Eb.
  cbn [cfg_begin cfg_end with_begin with_end]. unfold truthy.
  rewrite (proj2 (Z.eqb_neq _ _) Ha0), (proj2 (Z.eqb_neq _ _) Hb0). apply wp_ret, HQ.
Qed.

Lemma wp_require m k Q p : wp m (fun r p' => r = RET_SUCCESS /\ wp k Q p') p -> wp (require m k) Q p.
Proof. intros H. apply wp_bind. eapply wp_mono; [exact H|]. intros _ p' [-> Hk]. exact Hk. Qed.

(** No other argument is ever in the table. *)
Lemma arguments_none ifn mask a b ip n :
  n ∉ [str "ifname"; str "server"; str "netmask"; str "pool"] -> arguments ifn mask a b ip !! n = None.
Proof. intros H. unfold arguments. rewrite !lookup_insert_ne; [done|set_solver..]. Qed.

(** Without an argument for them, the times have defaults and the name server
    is the server. *)
Lemma defaults_spec Q p :
  (forall n, n ∉ [str "ifname"; str "server"; str "netmask"; str "pool"] -> g_argumentsTable p !! n = None) ->
  (let c := g_dhcpConfig p in
   Q RET_SUCCESS (set_config (configured c (cfg_netmask c) (cfg_begin c) (cfg_end c) (cfg_serverId c)) p)) ->
  cfg_gateway (g_dhcpConfig p) = cfg_serverId (g_dhcpConfig p) ->
  wp (require InitLeaseTime (require InitRenewalTime (require InitRebindingTime
     (require InitDomainNameServer (ret RET_SUCCESS))))) Q p.
Proof.
  intros Hnone HQ Hg. cbv zeta in HQ. destruct p as [args c P srv fn]. destruct c as [n i m g l r t d br be en os].
  cbn in Hnone, HQ, Hg. subst g. unfold configured in HQ. cbn in HQ.
  assert (Hget : forall x Q0 p1, (length x < 32)%nat -> x ∉ [str "ifname"; str "server"; str "netmask"; str "pool"] ->
    g_argumentsTable p1 = args -> Q0 None p1 -> wp (GetArgument x) Q0 p1).
  { intros x Q0 p1 Hx Hn <- H0. apply wp_GetArgument; [done|]. by rewrite Hnone. }
  apply wp_require. unfold InitLeaseTime. apply wp_bind, Hget; [by vm_compute; lia|set_solver|done|].
  cbv iota. apply wp_bind, wp_bind, wp_get. apply wp_mono with (Q := fun _ p' => p' =
    mkProcess args (mkConfig n i m i (if l =? 0 then DHCP_LEASE_TIME else l) r t d br be en os) P srv fn).
  { unfold truthy. cbn [cfg_leaseTime g_dhcpConfig]. rewrite negb_involutive. by destruct (l =? 0). }
  intros [] p1 ->. apply wp_ret. split; [done|].
  apply wp_require. unfold InitRenewalTime. apply wp_bind, Hget; [by vm_compute; lia|set_solver|done|].
  cbv iota. apply wp_bind, wp_bind, wp_get. apply wp_mono with (Q := fun _ p' => p' =
    mkProcess args (mkConfig n i m i (if l =? 0 then DHCP_LEASE_TIME else l) DHCP_RENEWAL_TIME
      (if t =? 0 then DHCP_RENEWAL_TIME else t) d br be en os) P srv fn).
  { unfold truthy. cbn [cfg_rebindingTime g_dhcpConfig]. rewrite negb_involutive. by destruct (t =? 0). }
  intros [] p1 ->. apply wp_ret. split; [done|].
  apply wp_require. unfold InitRebindingTime. apply wp_bind, Hget; [by vm_compute; lia|set_solver|done|].
  cbv iota. apply wp_bind, wp_bind, wp_get. apply wp_mono with (Q := fun _ p' => p' =
    mkProcess args (mkConfig n i m i (if l =? 0 then DHCP_LEASE_TIME else l) DHCP_RENEWAL_TIME
      (if t =? 0 then DHCP_RENEWAL_TIME else t) d br be en os) P srv fn).
  { unfold truthy. cbn [cfg_rebindingTime g_dhcpConfig]. rewrite negb_involutive.
    destruct (Z.eqb_spec t 0) as [->|Ht]; [done|]. by rewrite (proj2 (Z.eqb_neq _ _) Ht). }
  intros [] p1 ->. apply wp_ret. split; [done|].
  apply wp_require. unfold InitDomainNameServer. apply wp_bind, Hget; [by vm_compute; lia|set_solver|done|].
  apply wp_bind, wp_get, wp_bind, wp_ret. cbv beta iota. apply wp_bind, wp_upd_config, wp_ret.
  split; [done|]. apply wp_ret. exact HQ.
Qed.

Lemma InitConfigByArguments_spec ifn mask a b ip Q p :
  nonzero_ip mask -> nonzero_ip a -> nonzero_ip b -> nonzero_ip ip ->
  g_argumentsTable p = arguments ifn mask a b ip ->
  (forall args, Q RET_SUCCESS (set_config (configured (g_dhcpConfig p) mask a b ip) (set_args args p))) ->
  wp InitConfigByArguments Q p.
Proof.
  intros [Hm Hm0] Ha Hb [Hi Hi0] Hp HQ.
  destruct (ip_text mask Hm) as (_ & _ & _ & Em), (ip_text ip Hi) as (_ & _ & _ & Ei).
  unfold InitConfigByArguments. apply wp_require. unfold InitServerId.
  apply wp_bind, wp_GetArgument; [vm_compute; lia|]. rewrite Hp. unfold arguments at 1.
  rewrite lookup_insert_ne, lookup_insert_ne, lookup_insert_eq by done. apply wp_bind, wp_value_text; [by apply kept_ip|].
  rewrite Ei. unfold truthy at 1. rewrite (proj2 (Z.eqb_neq _ _) Hi0). cbn [negb].
  apply wp_bind, wp_upd_config, wp_ret. split; [done|]. apply wp_require. unfold InitNetworkAbout.
  apply wp_bind, wp_GetArgument; [vm_compute; lia|]. cbn [g_argumentsTable set_config]. rewrite Hp. unfold arguments at 1.
  rewrite lookup_insert_ne, lookup_insert_eq by done.
  apply wp_bind, wp_bind, wp_value_text; [by apply kept_ip|].
  rewrite Em. unfold truthy at 1. rewrite (proj2 (Z.eqb_neq _ _) Hm0). cbn [negb].
  apply wp_bind, wp_upd_config, wp_ret. apply wp_bind, wp_GetArgument; [vm_compute; lia|].
  cbn [g_argumentsTable set_config]. rewrite Hp, arguments_none by set_solver.
  apply wp_bind, wp_get, wp_bind, wp_upd_config, wp_ret. split; [done|].
  match goal with |- wp _ _ ?x => set (p1 := x) end.
  apply wp_require. unfold InitAddressRange, HasArgument. apply wp_bind, wp_get.
  change (take _ (str "pool")) with (str "pool").
  assert (Hpool : g_argumentsTable p1 !! str "pool" = Some (new_value stack (str "pool") (comma_list [a; b]))).
  { unfold p1. cbn [g_argumentsTable set_config]. rewrite Hp. apply lookup_insert_eq. }
  rewrite Hpool. change (truthy 1) with true. cbv iota. apply wp_bind.
  apply (PareseAddreesRange_spec a b); [done|done|exact Hpool|]. intros v. apply wp_ret. split; [done|].
  apply defaults_spec; [|apply HQ|done].
  intros n Hn. unfold p1. cbn [g_argumentsTable set_config set_args]. rewrite lookup_insert_ne by set_solver.
  rewrite Hp. by apply arguments_none.
Qed.

Lemma InitializeDhcpConfig_spec ifn mask a b ip c Q p :
  nonzero_ip mask -> nonzero_ip a -> nonzero_ip b -> nonzero_ip ip ->
  g_argumentsTable p = arguments ifn mask a b ip ->
  LoadConfig read_file DHCPD_CONFIG_FILE ifn (g_dhcpConfig p) = Some (RET_SUCCESS, c) ->
  (forall args, Q RET_SUCCESS (set_config (configured c mask a b ip) (set_args args p))) ->
  wp (InitializeDhcpConfig read_file ifn) Q p.
Proof.
  intros Hm Ha Hb Hi Hp Hload HQ. unfold InitializeDhcpConfig, HasArgument.
  apply wp_bind, wp_get. change (take _ (str "conf")) with (str "conf"). rewrite Hp, arguments_none by set_solver.
  change (truthy 0) with false. apply wp_bind, wp_ret. cbv iota. apply wp_bind, wp_get, wp_bind.
  eapply wp_intro; [unfold from_option; rewrite Hload; reflexivity|]. cbv beta iota.
  apply wp_bind, wp_upd_config. change (negb (RET_SUCCESS =? RET_SUCCESS)) with false. cbv iota.
  apply wp_bind. apply (InitConfigByArguments_spec ifn mask a b ip); [done..|exact Hp|]. intros args.
  change (negb (RET_SUCCESS =? RET_SUCCESS)) with false. apply wp_ret. apply HQ.
Qed.

End Starting.

(** * Executions *)

Definition empty_process : Process := mkProcess ∅ zero_config (mkState ∅ 0 0 0 ∅ zero_pool) None false.
Definition no_stack : bytes -> bytes := fun _ => zeros 256.
Definition sample_file : list setting :=
  [SLeaseTime 43200; SRenewalTime 7200; SGateway (addr 192 168 62 254); SDns [addr 8 8 8 8; addr 223 5 5 5]].
Definition sample_loaded : DhcpConfig :=
  match LoadConfig (fun _ => Some (config_text sample_file)) DHCPD_CONFIG_FILE (str "wlan0") zero_config with
  | Some (_, c) => c | None => zero_config end.

Definition sample_start (file : option bytes) (net : Z) : M Process Z :=
  @StartDhcpServerMain DottedQuad no_stack (fun _ => file) test_platform true 0 RET_SUCCESS (fun _ => LS_STOPED)
    zero_message zero_message (str "wlan0") (ParseStrIp (addr 255 255 255 0))
    (comma_list [addr 192 168 net 2; addr 192 168 net 100]) (ParseStrIp (addr 192 168 net 1)).


(** A second start with a configuration file that cannot be read serves the
    network of the first one: the failure is only logged, the arguments are not
    applied, and stopping the first server left its configuration in place. *)
Theorem stale_configuration :
  (fun r => (r.1, (fun s => (serverId (pool (ps s)), beginAddress (pool (ps s)))) <$> g_dhcpServer r.2)) <$>
    (let* r1 := sample_start (Some (config_text sample_file)) 62 in
     let* r2 := StopDhcpServerMain (fun _ => LS_STOPED) in
     let* r3 := sample_start None 7 in ret [r1; r2; r3]) empty_process =
  Some ([0; 0; 0], Some (addr 192 168 62 1, addr 192 168 62 2)).
Proof. vm_compute. reflexivity. Qed.
