(* ===== verification/ClientOptions.v ===== *)
(** The options of a packet on the client's side
    (src/services/dhcp_client/src/dhcp_options.cpp): looking an option up in a
    received packet, which may continue in its [file] and [sname] fields, and
    appending options to a packet being built.

    A pointer into the packet is a field and an offset.  [None] is a read or a
    write outside the field, or a loop that has not ended within its fuel. *)
From S2P Require Import Prelude AddressUtils OptionList.

Definition DHCP_OPT_SIZE : Z := 1780.
Definition DHCP_BOOT_FILE_LENGTH : Z := 128.
Definition DHCP_HOST_NAME_LENGTH : Z := 64.
Definition DHCP_OPT_CODE_INDEX : Z := 0.
Definition DHCP_OPT_LEN_INDEX : Z := 1.
Definition DHCP_OPT_DATA_INDEX : Z := 2.
Definition DHCP_OPT_CODE_BYTES : Z := 1.
Definition DHCP_OPT_LEN_BYTES : Z := 1.
Definition DHCP_UINT8_BYTES : Z := 1.
Definition DHCP_UINT16_BYTES : Z := 2.
Definition DHCP_UINT32_BYTES : Z := 4.
Definition DHCP_UINT32_DOUBLE_BYTES : Z := 8.
Definition OPTION_FIELD : Z := 0.
Definition FILE_FIELD : Z := 1.
Definition SNAME_FIELD : Z := 2.
Definition DHCP_OPTION_DATA_INVALID : Z := 0.
Definition DHCP_OPTION_DATA_U8 : Z := 1.
Definition DHCP_OPTION_DATA_U16 : Z := 2.
Definition DHCP_OPTION_DATA_U32 : Z := 4.
Definition DHCP_OPTION_DATA_IP : Z := 6.
Definition DHCP_OPTION_DATA_IP_PAIR : Z := 7.
Definition DHCP_OPTION_DATA_IP_LIST : Z := 8.
Definition DHCP_OPTION_DATA_IP_STRING : Z := 9.

Definition DHCP_OPT_SUCCESS : Z := 0.
Definition DHCP_OPT_FAILED : Z := 1.
Definition DHCP_OPT_NULL : Z := 2.

Record DhcpPacket := mkPacket {
  c_op : Z; c_htype : Z; c_hlen : Z; c_hops : Z;
  c_xid : Z; c_secs : Z; c_flags : Z;
  c_ciaddr : Z; c_yiaddr : Z; c_siaddr : Z; c_giaddr : Z;
  c_chaddr : bytes; c_sname : bytes; c_file : bytes;
  c_cookie : Z; c_options : bytes
}.

(** The array a flag stands for, and its size. *)
Definition field_of (packet : DhcpPacket) (nFlag : Z) : bytes :=
  if nFlag =? FILE_FIELD then c_file packet
  else if nFlag =? SNAME_FIELD then c_sname packet else c_options packet.
Definition field_len (nFlag : Z) : Z :=
  if nFlag =? FILE_FIELD then DHCP_BOOT_FILE_LENGTH
  else if nFlag =? SNAME_FIELD then DHCP_HOST_NAME_LENGTH else DHCP_OPT_SIZE.

(** [pOption[i]]. *)
Definition rd (pOption : bytes) (i : Z) : option Z :=
  if i <? 0 then None else pOption !! Z.to_nat i.

(** The [n] bytes from [i], when they are inside the array. *)
Definition rd_n (pOption : bytes) (i n : Z) : option bytes :=
  if (0 <=? i) && (i + n <=? Z.of_nat (length pOption))
  then Some (take (Z.to_nat n) (drop (Z.to_nat i) pOption)) else None.

(** * Looking an option up *)

(** The result, [*over] and [*index]. *)
Definition CheckOptSoverloaded (pOption : bytes) (maxLen over index : Z) : option (bool * Z * Z) :=
  len ← rd pOption (index + DHCP_OPT_LEN_INDEX);
  if index + DHCP_OPT_LEN_INDEX + len >=? maxLen then Some (false, over, index)
  else
    over ← rd pOption (index + DHCP_OPT_DATA_INDEX + DHCP_OPT_CODE_INDEX);
    step ← rd pOption DHCP_OPT_LEN_INDEX;
    Some (true, over, index + (step + DHCP_OPT_CODE_BYTES + DHCP_OPT_LEN_BYTES)).

Definition CheckOptionsData (pOption : bytes) (code index maxLen : Z) : option Z :=
  if index >=? maxLen - DHCP_OPT_DATA_INDEX then Some DHCP_OPT_FAILED
  else
    c ← rd pOption (index + DHCP_OPT_CODE_INDEX);
    if negb (c =? code) then Some DHCP_OPT_NULL
    else
      len ← rd pOption (index + DHCP_OPT_LEN_INDEX);
      if index + DHCP_OPT_LEN_INDEX + len >=? maxLen then Some DHCP_OPT_FAILED
      else Some DHCP_OPT_SUCCESS.

Definition GetDhcpOptionCodeType (code : Z) : Z :=
  if (code <=? PAD_OPTION) || (code >=? END_OPTION) then DHCP_OPTION_DATA_INVALID
  else if (code =? DHCP_MESSAGE_TYPE_OPTION) || (code =? FORCERENEW_NONCE_OPTION) then DHCP_OPTION_DATA_U8
  else if (code =? INTERFACE_MTU_OPTION) || (code =? MAXIMUM_DHCP_MESSAGE_SIZE_OPTION) then DHCP_OPTION_DATA_U16
  else if code =? IP_ADDRESS_LEASE_TIME_OPTION then DHCP_OPTION_DATA_U32
  else if (code =? SUBNET_MASK_OPTION) || (code =? BROADCAST_ADDRESS_OPTION) ||
          (code =? REQUESTED_IP_ADDRESS_OPTION) || (code =? SERVER_IDENTIFIER_OPTION) then DHCP_OPTION_DATA_IP
  else if (code =? ROUTER_OPTION) || (code =? DOMAIN_NAME_SERVER_OPTION) ||
          (code =? NETWORK_TIME_PROTOCOL_SERVERS_OPTION) then DHCP_OPTION_DATA_IP_LIST
  else if (code =? HOST_NAME_OPTION) || (code =? DOMAIN_NAME_OPTION) || (code =? MESSAGE_OPTION)
       then DHCP_OPTION_DATA_IP_STRING
  else DHCP_OPTION_DATA_INVALID.

Definition GetDhcpOptionDataLen (code : Z) : Z :=
  let nDataType := GetDhcpOptionCodeType code in
  if nDataType =? DHCP_OPTION_DATA_INVALID then 0
  else if nDataType =? DHCP_OPTION_DATA_U8 then DHCP_UINT8_BYTES
  else if nDataType =? DHCP_OPTION_DATA_U16 then DHCP_UINT16_BYTES
  else if nDataType =? DHCP_OPTION_DATA_U32 then DHCP_UINT32_BYTES
  else if nDataType =? DHCP_OPTION_DATA_IP then DHCP_UINT32_BYTES
  else if nDataType =? DHCP_OPTION_DATA_IP_PAIR then DHCP_UINT32_DOUBLE_BYTES
  else 0.

(** A pointer into the packet: the field, and the offset in it. *)
Abbreviation pointer := (Z * Z)%type.

(** The result is the pointer ([None] is null) and [*length]. *)
Fixpoint GetDhcpOption_loop (fuel : nat) (packet : DhcpPacket) (code nFlag nIndex nOver : Z)
    : option (option pointer * Z) :=
  match fuel with
  | O => None
  | S fuel' =>
      let pOption := field_of packet nFlag in
      let maxLen := field_len nFlag in
      nRet ← CheckOptionsData pOption code nIndex maxLen;
      if nRet =? DHCP_OPT_SUCCESS then
        len ← rd pOption (nIndex + DHCP_OPT_LEN_INDEX);
        Some (Some (nFlag, nIndex + DHCP_OPT_DATA_INDEX), len)
      else if nRet =? DHCP_OPT_FAILED then Some (None, 0)
      else
        c ← rd pOption (nIndex + DHCP_OPT_CODE_INDEX);
        if c =? PAD_OPTION then GetDhcpOption_loop fuel' packet code nFlag (nIndex + 1) nOver
        else if c =? OPTION_OVERLOAD_OPTION then
          '(ok, nOver, nIndex) ← CheckOptSoverloaded pOption maxLen nOver nIndex;
          if negb ok then Some (None, 0) else GetDhcpOption_loop fuel' packet code nFlag nIndex nOver
        else if c =? END_OPTION then
          if (nFlag =? OPTION_FIELD) && truthy (Z.land nOver FILE_FIELD)
          then GetDhcpOption_loop fuel' packet code FILE_FIELD 0 nOver
          else if (nFlag =? FILE_FIELD) && truthy (Z.land nOver SNAME_FIELD)
          then GetDhcpOption_loop fuel' packet code SNAME_FIELD 0 nOver
          else Some (None, 0)
        else
          len ← rd pOption (nIndex + DHCP_OPT_LEN_INDEX);
          GetDhcpOption_loop fuel' packet code nFlag
            (nIndex + (DHCP_OPT_CODE_BYTES + DHCP_OPT_LEN_BYTES + len)) nOver
  end.

(** Every iteration advances in a field or to the next field. *)
Definition option_fuel : nat := 2000.
Definition GetDhcpOption (packet : DhcpPacket) (code : Z) : option (option pointer * Z) :=
  GetDhcpOption_loop option_fuel packet code OPTION_FIELD 0 0.

(** The [n] bytes a pointer designates. *)
Definition at_ptr (packet : DhcpPacket) (p : pointer) (n : Z) : option bytes :=
  rd_n (field_of packet p.1) p.2 n.

(** Returns success and the new [*data]. *)
Definition GetDhcpOptionUint8 (packet : DhcpPacket) (code data : Z) : option (bool * Z) :=
  '(p, len) ← GetDhcpOption packet code;
  match p with
  | None => Some (false, data)
  | Some p =>
      if len <? DHCP_UINT8_BYTES then Some (false, data)
      else b ← at_ptr packet p DHCP_UINT8_BYTES; Some (true, byte_at b 0)
  end.

Definition GetDhcpOptionUint32 (packet : DhcpPacket) (code data : Z) : option (bool * Z) :=
  '(p, len) ← GetDhcpOption packet code;
  match p with
  | None => Some (false, data)
  | Some p =>
      if len <? DHCP_UINT32_BYTES then Some (false, data)
      else
        b ← at_ptr packet p DHCP_UINT32_BYTES;
        let uData := ParseIp b in
        Some (true, if uData >? 0 then ntohl uData else data)
  end.

(** Returns success and the new [*data1] and [*data2]. *)
Definition GetDhcpOptionUint32n (packet : DhcpPacket) (code data1 data2 : Z) : option (bool * Z * Z) :=
  '(p, len) ← GetDhcpOption packet code;
  match p with
  | None => Some (false, data1, data2)
  | Some p =>
      if (len <? DHCP_UINT32_BYTES) || negb (len mod DHCP_UINT32_BYTES =? 0) then Some (false, data1, data2)
      else
        b ← at_ptr packet p DHCP_UINT32_BYTES;
        let uData := ParseIp b in
        let data1 := if uData >? 0 then ntohl uData else data1 in
        if len >? DHCP_UINT32_BYTES then
          b ← at_ptr packet (p.1, p.2 + DHCP_UINT32_BYTES) DHCP_UINT32_BYTES;
          let uData := ParseIp b in
          Some (true, data1, if uData >? 0 then ntohl uData else data2)
        else Some (true, data1, data2)
  end.

(** The allocated copy, with its NUL; allocation succeeds. *)
Definition GetDhcpOptionString (packet : DhcpPacket) (code : Z) : option (option bytes) :=
  '(p, len) ← GetDhcpOption packet code;
  match p with
  | None => Some None
  | Some p =>
      first ← at_ptr packet p 1;
      if byte_at first 0 =? 0 then Some None
      else if len <? DHCP_UINT8_BYTES then Some None
      else b ← at_ptr packet p len; Some (Some (b ++ [0]))
  end.

(** * Appending options *)

Fixpoint GetEndOptionIndex_loop (fuel : nat) (pOpts : bytes) (nIndex : Z) : option Z :=
  match fuel with
  | O => None
  | S fuel' =>
      c ← rd pOpts nIndex;
      if c =? END_OPTION then Some nIndex
      else if negb (c =? PAD_OPTION) then
        len ← rd pOpts (nIndex + DHCP_OPT_LEN_INDEX);
        GetEndOptionIndex_loop fuel' pOpts (nIndex + (len + DHCP_OPT_CODE_BYTES + DHCP_OPT_LEN_BYTES))
      else GetEndOptionIndex_loop fuel' pOpts (nIndex + 1)
  end.
Definition GetEndOptionIndex (pOpts : bytes) : option Z := GetEndOptionIndex_loop (S (length pOpts)) pOpts 0.

(** Bytes written at an index, inside the array. *)
Definition write_at (pOpts : bytes) (i : Z) (src : bytes) : option bytes :=
  if (0 <=? i) && (i + Z.of_nat (length src) <=? Z.of_nat (length pOpts))
  then Some (take (Z.to_nat i) pOpts ++ src ++ drop (Z.to_nat i + length src) pOpts) else None.

(** Returns the number of bytes added and the array. *)
Definition AddOptStrToOpts (pOpts pOpt : bytes) (nOptLen : Z) : option (Z * bytes) :=
  len ← rd pOpt DHCP_OPT_LEN_INDEX;
  let optStrLen := DHCP_OPT_CODE_BYTES + DHCP_OPT_LEN_BYTES + len in
  if negb (nOptLen =? optStrLen) then Some (0, pOpts)
  else
    nEndIndex ← GetEndOptionIndex pOpts;
    if nEndIndex + nOptLen + 1 >=? DHCP_OPT_SIZE then Some (0, pOpts)
    else if negb ((nOptLen >? 0) && (nEndIndex >=? 0)) then Some (0, pOpts)
    else
      src ← rd_n pOpt 0 nOptLen;
      pOpts ← write_at pOpts nEndIndex src;
      pOpts ← write_at pOpts (nEndIndex + nOptLen) [END_OPTION];
      Some (nOptLen, pOpts).

(** The memory of [uValue] after the assignment through the pointer of the
    option's width; [htons] swaps the two bytes. *)
Definition value_bytes (uLen value : Z) : bytes :=
  if uLen =? DHCP_UINT8_BYTES then [u8 value; 0; 0; 0]
  else if uLen =? DHCP_UINT16_BYTES then [u16 value / 2 ^ 8; u16 value mod 2 ^ 8; 0; 0]
  else if uLen =? DHCP_UINT32_BYTES then le32 value
  else zeros 4.

Definition AddOptValueToOpts (pOpts : bytes) (code value : Z) : option (Z * bytes) :=
  let uLen := GetDhcpOptionDataLen code in
  if uLen =? 0 then Some (0, pOpts)
  else
    let '(ok, area) := memcpy_s (zeros 4) DHCP_UINT32_BYTES (value_bytes uLen value) uLen in
    if negb ok then Some (0, pOpts)
    else
      let uOption := [code; uLen] ++ area in
      AddOptStrToOpts pOpts uOption (DHCP_OPT_CODE_BYTES + DHCP_OPT_LEN_BYTES + uLen).

(** * Lookups are safe *)

(** A packet in memory. *)
Definition wf_fields (p : DhcpPacket) : Prop :=
  forall nFlag, Z.of_nat (length (field_of p nFlag)) = field_len nFlag /\ Forall is_u8 (field_of p nFlag).

Lemma rd_in buf i : Forall is_u8 buf -> 0 <= i < Z.of_nat (length buf) -> exists c, rd buf i = Some c /\ 0 <= c < 256.
Proof.
  intros Hb Hi. unfold rd. rewrite (proj2 (Z.ltb_ge i 0)) by lia.
  destruct (lookup_lt_is_Some_2 buf (Z.to_nat i)) as [c Hc]; [lia|]. exists c. split; [done|].
  rewrite Forall_lookup in Hb. apply (Hb _ _ Hc).
Qed.

(** Bytes of the packet a lookup may still walk over. *)
Definition fields_after (nFlag : Z) : Z :=
  if nFlag =? OPTION_FIELD then DHCP_BOOT_FILE_LENGTH + DHCP_HOST_NAME_LENGTH
  else if nFlag =? FILE_FIELD then DHCP_HOST_NAME_LENGTH else 0.
Definition remaining (nFlag nIndex : Z) : Z := field_len nFlag - nIndex + fields_after nFlag.

(** The result is null, or an option of the code that lies in its field. *)
Definition good_result (packet : DhcpPacket) (code : Z) (r : option pointer * Z) : Prop :=
  match r with
  | (None, len) => len = 0
  | (Some (nFlag, off), len) =>
      2 <= off < field_len nFlag /\ 0 <= len /\ off + len <= field_len nFlag /\
      rd (field_of packet nFlag) (off - 2) = Some code /\ rd (field_of packet nFlag) (off - 1) = Some len
  end.

Lemma GetDhcpOption_loop_safe packet code fuel : wf_fields packet -> forall nFlag nIndex nOver,
  nFlag = OPTION_FIELD \/ nFlag = FILE_FIELD \/ nFlag = SNAME_FIELD ->
  0 <= nIndex -> 0 <= Z.max 0 (remaining nFlag nIndex) < Z.of_nat fuel ->
  exists r, GetDhcpOption_loop fuel packet code nFlag nIndex nOver = Some r /\ good_result packet code r.
Proof.
  intros Hwf. induction fuel as [|fuel IH]; intros nFlag nIndex nOver Hflag Hi Hfuel; [lia|].
  destruct (Hwf nFlag) as [Hlen Hu8]. cbn [GetDhcpOption_loop].
  set (buf := field_of packet nFlag) in *. set (maxLen := field_len nFlag) in *.
  unfold CheckOptionsData. unfold DHCP_OPT_DATA_INDEX, DHCP_OPT_CODE_INDEX, DHCP_OPT_LEN_INDEX in *.
  rewrite Z.geb_leb. destruct (Z.leb_spec (maxLen - 2) nIndex); [cbn; by eexists|].
  rewrite Z.add_0_r. destruct (rd_in buf nIndex Hu8 ltac:(lia)) as (cd & Ec & Hc). rewrite Ec. cbn [mbind option_bind].
  destruct (rd_in buf (nIndex + 1) Hu8 ltac:(lia)) as (len & El & Hl).
  destruct (Z.eqb_spec cd code) as [->|Hcode]; cbn [negb].
  { rewrite El. cbn [mbind option_bind]. rewrite Z.geb_leb.
    destruct (Z.leb_spec maxLen (nIndex + 1 + len)); cbn; [by eexists|]. eexists. split; [reflexivity|].
    unfold good_result. fold buf maxLen. replace (nIndex + 2 - 2) with nIndex by lia.
    replace (nIndex + 2 - 1) with (nIndex + 1) by lia. split_and!; try done; lia. }
  cbn [Z.eqb DHCP_OPT_NULL DHCP_OPT_SUCCESS DHCP_OPT_FAILED].
  change (DHCP_OPT_NULL =? DHCP_OPT_SUCCESS) with false. change (DHCP_OPT_NULL =? DHCP_OPT_FAILED) with false.
  cbv iota. unfold remaining in Hfuel. fold maxLen in Hfuel.
  assert (0 <= fields_after nFlag) by (destruct Hflag as [->|[->| ->]]; done).
  assert (Hstep : forall n over, nIndex < n -> exists r,
    GetDhcpOption_loop fuel packet code nFlag n over = Some r /\ good_result packet code r).
  { intros n over Hn. apply IH; [done|lia|]. unfold remaining. fold maxLen. lia. }
  destruct (cd =? PAD_OPTION); [apply Hstep; lia|]. destruct (cd =? OPTION_OVERLOAD_OPTION).
  { unfold CheckOptSoverloaded, DHCP_OPT_DATA_INDEX, DHCP_OPT_CODE_INDEX, DHCP_OPT_LEN_INDEX.
    rewrite El. cbn [mbind option_bind]. destruct (_ >=? _); cbn [mbind option_bind negb]; [by eexists|].
    rewrite Z.add_0_r. destruct (rd_in buf (nIndex + 2) Hu8 ltac:(lia)) as (ov & Eo & _). rewrite Eo.
    destruct (rd_in buf 1 Hu8 ltac:(lia)) as (st & Es & Hst). cbn [mbind option_bind]. rewrite Es.
    cbn [mbind option_bind negb]. apply Hstep. unfold DHCP_OPT_CODE_BYTES, DHCP_OPT_LEN_BYTES. lia. }
  destruct (cd =? END_OPTION).
  { destruct ((nFlag =? OPTION_FIELD) && _) eqn:E1.
    { btauto_hyps. subst nFlag. apply IH; [by right; left|lia|].
      change (remaining FILE_FIELD 0) with 192. change (fields_after OPTION_FIELD) with 192 in Hfuel. lia. }
    destruct ((nFlag =? FILE_FIELD) && _) eqn:E2; [|by eexists].
    btauto_hyps. subst nFlag. apply IH; [by right; right|lia|].
    change (remaining SNAME_FIELD 0) with 64. change (fields_after FILE_FIELD) with 64 in Hfuel. lia. }
  rewrite El. cbn [mbind option_bind]. apply Hstep. unfold DHCP_OPT_CODE_BYTES, DHCP_OPT_LEN_BYTES. lia.
Qed.

(** Looking an option up in any received packet, whatever its bytes, ends,
    never reads outside the field it is in, and returns null or an option of
    the code whose value lies inside the field. *)
Theorem GetDhcpOption_safe packet code : wf_fields packet ->
  exists r, GetDhcpOption packet code = Some r /\ good_result packet code r.
Proof.
  intros Hwf. apply GetDhcpOption_loop_safe; [done|by left|lia|].
  vm_compute. split; [discriminate|reflexivity].
Qed.

Definition packet_with (opts file sname : bytes) : DhcpPacket :=
  mkPacket 2 1 6 0 7 0 0 0 0 0 0 (zeros 16) (pad 64 sname) (pad 128 file) 0 (pad 1780 opts).

Lemma packet_with_wf opts file sname : Forall is_u8 opts -> Forall is_u8 file -> Forall is_u8 sname ->
  wf_fields (packet_with opts file sname).
Proof.
  assert (Hp : forall n l, Forall is_u8 l -> Forall is_u8 (pad n l)).
  { intros n l H. unfold pad. apply Forall_take, Forall_app. split; [done|]. apply Forall_replicate.
    unfold is_u8. lia. }
  intros H1 H2 H3 nFlag. unfold field_of, field_len.
  destruct (nFlag =? FILE_FIELD), (nFlag =? SNAME_FIELD); cbn [c_file c_sname c_options packet_with];
    rewrite length_pad; auto.
Qed.

Lemma GetDhcpOption_safe_witness :
  let packet := packet_with [53; 1; 5; 52; 1; 3; 255] [12; 200; 255] [54; 4; 1; 2; 3; 4] in
  exists r, GetDhcpOption packet 54 = Some r /\ good_result packet 54 r.
Proof. apply GetDhcpOption_safe. apply packet_with_wf; by apply all_u8. Defined.

(** * Appending and looking up *)

(** An option being sent: its code and its value. *)
Definition tlv : Type := Z * bytes.
Definition enc (t : tlv) : bytes := t.1 :: Z.of_nat (length t.2) :: t.2.
Definition encs (ts : list tlv) : bytes := List.concat (map enc ts).
Definition wf_tlv (t : tlv) : Prop :=
  0 < t.1 < END_OPTION /\ t.1 <> OPTION_OVERLOAD_OPTION /\ (length t.2 < 256)%nat.

(** The array holds the options, the end mark, and anything after it. *)
Definition holds (buf : bytes) (ts : list tlv) : Prop :=
  Z.of_nat (length buf) = DHCP_OPT_SIZE /\ exists rest, buf = encs ts ++ END_OPTION :: rest.

(** The value of the first option of a code. *)
Fixpoint value_in (ts : list tlv) (code : Z) : option bytes :=
  match ts with [] => None | t :: ts' => if t.1 =? code then Some t.2 else value_in ts' code end.

Lemma encs_app ts1 ts2 : encs (ts1 ++ ts2) = encs ts1 ++ encs ts2.
Proof. unfold encs. by rewrite map_app, concat_app. Qed.

Lemma encs_cons t ts : encs (t :: ts) = t.1 :: Z.of_nat (length t.2) :: t.2 ++ encs ts.
Proof. done. Qed.

Lemma length_encs ts : (length ts <= length (encs ts))%nat.
Proof.
  induction ts as [|t ts IH]; [done|]. rewrite encs_cons.
  cbn [length]. rewrite length_app. lia.
Qed.

(** Reading inside an array given in two parts. *)
Lemma rd_app l c r i : i = Z.of_nat (length l) -> rd (l ++ c :: r) i = Some c.
Proof.
  intros ->. unfold rd. rewrite (proj2 (Z.ltb_ge _ 0)) by lia.
  rewrite Nat2Z.id, lookup_app_r, Nat.sub_diag by lia. done.
Qed.

Lemma rd_app2 l c d r i : i = Z.of_nat (length l) + 1 -> rd (l ++ c :: d :: r) i = Some d.
Proof.
  intros ->. rewrite cons_middle, app_assoc. apply rd_app. rewrite length_app. cbn. lia.
Qed.

Lemma rd_n_app l m r i n : i = Z.of_nat (length l) -> n = Z.of_nat (length m) -> rd_n (l ++ m ++ r) i n = Some m.
Proof.
  intros -> ->. unfold rd_n. rewrite !length_app, (proj2 (Z.leb_le 0 _)), (proj2 (Z.leb_le _ _)) by lia.
  cbn [andb]. by rewrite !Nat2Z.id, drop_app_length, take_app_length.
Qed.

Lemma GetDhcpOption_loop_finds p code : 0 < code < END_OPTION -> forall ts pre rest fuel,
  Forall wf_tlv ts -> c_options p = encs pre ++ encs ts ++ END_OPTION :: rest ->
  Z.of_nat (length (c_options p)) = DHCP_OPT_SIZE ->
  Z.of_nat (length (encs pre)) + Z.of_nat (length (encs ts)) + 1 < DHCP_OPT_SIZE -> (length ts < fuel)%nat ->
  match value_in ts code with
  | Some d => exists off, GetDhcpOption_loop fuel p code OPTION_FIELD (Z.of_nat (length (encs pre))) 0 =
      Some (Some (OPTION_FIELD, off), Z.of_nat (length d)) /\ at_ptr p (OPTION_FIELD, off) (Z.of_nat (length d)) = Some d
  | None => GetDhcpOption_loop fuel p code OPTION_FIELD (Z.of_nat (length (encs pre))) 0 = Some (None, 0)
  end.
Proof.
  intros Hcode. induction ts as [|[tc d] ts IH]; intros pre rest fuel Hts Eb Hlen Hroom Hfuel;
    (destruct fuel as [|fuel]; [cbn in Hfuel; lia|]); cbn [GetDhcpOption_loop value_in];
    change (field_of p OPTION_FIELD) with (c_options p); change (field_len OPTION_FIELD) with DHCP_OPT_SIZE;
    unfold CheckOptionsData, DHCP_OPT_DATA_INDEX, DHCP_OPT_CODE_INDEX, DHCP_OPT_LEN_INDEX; rewrite !Z.add_0_r.
  - destruct (_ >=? _); [done|]. change (encs []) with (@nil Z) in Eb. cbn [app] in Eb.
    rewrite Eb, !(rd_app (encs pre) END_OPTION rest (Z.of_nat _) eq_refl). cbn [mbind option_bind].
    rewrite (proj2 (Z.eqb_neq END_OPTION code)) by lia. cbn [negb mbind option_bind].
    change (DHCP_OPT_NULL =? DHCP_OPT_SUCCESS) with false. change (DHCP_OPT_NULL =? DHCP_OPT_FAILED) with false.
    done.
  - apply Forall_cons in Hts as [(Hc & Hov & Hd) Hts]. cbn [fst snd] in *.
    rewrite encs_cons in Eb, Hroom. cbn [app length fst snd] in Eb, Hroom. rewrite length_app in Hroom.
    rewrite Z.geb_leb, (proj2 (Z.leb_gt _ _)) by lia.
    assert (E0 : rd (c_options p) (Z.of_nat (length (encs pre))) = Some tc) by (rewrite Eb; by apply rd_app).
    assert (E1 : rd (c_options p) (Z.of_nat (length (encs pre)) + 1) = Some (Z.of_nat (length d)))
      by (rewrite Eb; by apply rd_app2).
    rewrite E0, E1. cbn [mbind option_bind].
    destruct (Z.eqb_spec tc code) as [->|Hne]; cbn [negb mbind option_bind].
    + rewrite Z.geb_leb, (proj2 (Z.leb_gt _ _)) by lia. cbn [mbind option_bind].
      change (DHCP_OPT_SUCCESS =? DHCP_OPT_SUCCESS) with true. cbv iota.
      eexists. split; [reflexivity|]. unfold at_ptr. cbn [fst snd].
      change (field_of p OPTION_FIELD) with (c_options p).
      rewrite Eb. change (?a :: ?b :: ?c) with ([a; b] ++ c). rewrite <- app_assoc, app_assoc.
      apply rd_n_app; [|done]. rewrite length_app. cbn [length]. lia.
    + change (DHCP_OPT_NULL =? DHCP_OPT_SUCCESS) with false. change (DHCP_OPT_NULL =? DHCP_OPT_FAILED) with false.
      cbv iota. unfold PAD_OPTION in *.
      rewrite (proj2 (Z.eqb_neq tc 0)), (proj2 (Z.eqb_neq _ _) Hov), (proj2 (Z.eqb_neq tc END_OPTION)) by lia.
      assert (Epre : encs (pre ++ [(tc, d)]) = encs pre ++ tc :: Z.of_nat (length d) :: d).
      { rewrite encs_app. unfold encs at 2. cbn. by rewrite app_nil_r. }
      specialize (IH (pre ++ [(tc, d)]) rest fuel Hts). rewrite Epre in IH.
      replace (Z.of_nat (length (encs pre)) + (DHCP_OPT_CODE_BYTES + DHCP_OPT_LEN_BYTES + Z.of_nat (length d)))
        with (Z.of_nat (length (encs pre ++ tc :: Z.of_nat (length d) :: d)))
        by (rewrite length_app; cbn [length]; unfold DHCP_OPT_CODE_BYTES, DHCP_OPT_LEN_BYTES; lia).
      apply IH; [|done| |cbn [length] in Hfuel; lia].
      * rewrite Eb. by repeat (rewrite <- app_assoc || cbn [app]).
      * rewrite length_app. cbn [length]. lia.
Qed.

Lemma GetEndOptionIndex_loop_holds ts : forall pre rest fuel buf, Forall wf_tlv ts ->
  buf = encs pre ++ encs ts ++ END_OPTION :: rest -> (length ts < fuel)%nat ->
  GetEndOptionIndex_loop fuel buf (Z.of_nat (length (encs pre))) = Some (Z.of_nat (length (encs pre ++ encs ts))).
Proof.
  induction ts as [|[tc d] ts IH]; intros pre rest fuel buf Hts Eb Hfuel;
    (destruct fuel as [|fuel]; [cbn in Hfuel; lia|]); cbn [GetEndOptionIndex_loop].
  - change (encs []) with (@nil Z) in *. cbn [app] in Eb.
    rewrite Eb, !(rd_app (encs pre) END_OPTION rest (Z.of_nat _) eq_refl). cbn [mbind option_bind].
    rewrite Z.eqb_refl. by rewrite app_nil_r.
  - apply Forall_cons in Hts as [(Hc & Hov & Hd) Hts]. cbn [fst snd] in *.
    rewrite encs_cons in Eb |- *. cbn [app fst snd] in *. 
    assert (E0 : rd buf (Z.of_nat (length (encs pre))) = Some tc) by (rewrite Eb; by apply rd_app).
    assert (E1 : rd buf (Z.of_nat (length (encs pre)) + DHCP_OPT_LEN_INDEX) = Some (Z.of_nat (length d)))
      by (rewrite Eb; by apply rd_app2).
    rewrite E0. cbn [mbind option_bind].
    unfold PAD_OPTION. rewrite (proj2 (Z.eqb_neq tc END_OPTION)), (proj2 (Z.eqb_neq tc 0)) by lia. cbn [negb].
    rewrite E1. cbn [mbind option_bind].
    assert (Epre : encs (pre ++ [(tc, d)]) = encs pre ++ tc :: Z.of_nat (length d) :: d).
    { rewrite encs_app. unfold encs at 2. cbn. by rewrite app_nil_r. }
    specialize (IH (pre ++ [(tc, d)]) rest fuel buf Hts). rewrite Epre in IH.
    replace (Z.of_nat (length (encs pre)) + (Z.of_nat (length d) + DHCP_OPT_CODE_BYTES + DHCP_OPT_LEN_BYTES))
      with (Z.of_nat (length (encs pre ++ tc :: Z.of_nat (length d) :: d)))
      by (rewrite length_app; cbn [length]; unfold DHCP_OPT_CODE_BYTES, DHCP_OPT_LEN_BYTES; lia).
    rewrite IH; [|rewrite Eb; by repeat (rewrite <- app_assoc || cbn [app])|cbn [length] in Hfuel; lia].
    do 2 f_equal. rewrite !length_app. cbn [length]. rewrite length_app. lia.
Qed.

Lemma GetEndOptionIndex_holds buf ts : holds buf ts -> Forall wf_tlv ts ->
  GetEndOptionIndex buf = Some (Z.of_nat (length (encs ts))).
Proof.
  intros [Hl [rest Eb]] Hts. unfold GetEndOptionIndex.
  apply (GetEndOptionIndex_loop_holds ts [] rest); [done|done|].
  pose proof (length_encs ts). rewrite Eb, length_app. lia.
Qed.

(** Overwriting from the end mark. *)
Lemma write_at_app l m r src : length src = length m ->
  write_at (l ++ m ++ r) (Z.of_nat (length l)) src = Some (l ++ src ++ r).
Proof.
  intros Hs. unfold write_at. rewrite !length_app, (proj2 (Z.leb_le 0 _)), (proj2 (Z.leb_le _ _)) by lia. cbn [andb].
  rewrite Nat2Z.id, take_app_length, Hs. do 3 f_equal. rewrite <- drop_drop, !drop_app_length. done.
Qed.

Lemma AddOptStrToOpts_holds buf ts t : holds buf ts -> Forall wf_tlv ts -> wf_tlv t ->
  let n := Z.of_nat (length (enc t)) in
  if Z.of_nat (length (encs ts)) + n + 1 <? DHCP_OPT_SIZE
  then exists buf', AddOptStrToOpts buf (enc t) n = Some (n, buf') /\ holds buf' (ts ++ [t])
  else AddOptStrToOpts buf (enc t) n = Some (0, buf).
Proof.
  intros Hh Hts (Hc & Hov & Hd). cbv zeta. unfold AddOptStrToOpts.
  assert (El : rd (enc t) DHCP_OPT_LEN_INDEX = Some (Z.of_nat (length t.2))) by done. rewrite El. cbn [mbind option_bind].
  assert (En : Z.of_nat (length (enc t)) = 2 + Z.of_nat (length t.2)) by (unfold enc; cbn [length]; lia).
  rewrite En. unfold DHCP_OPT_CODE_BYTES, DHCP_OPT_LEN_BYTES. rewrite Z.eqb_refl. cbn [negb].
  rewrite (GetEndOptionIndex_holds _ _ Hh Hts). cbn [mbind option_bind]. rewrite Z.geb_leb.
  destruct (Z.ltb_spec (Z.of_nat (length (encs ts)) + (2 + Z.of_nat (length t.2)) + 1) DHCP_OPT_SIZE) as [Hroom|Hroom].
  2: { by rewrite (proj2 (Z.leb_le _ _)) by lia. }
  rewrite (proj2 (Z.leb_gt _ _)) by lia. rewrite !Z.gtb_ltb, Z.geb_leb, (proj2 (Z.ltb_lt 0 _)), (proj2 (Z.leb_le 0 _)) by lia.
  cbn [andb negb]. destruct Hh as [Hl [rest Eb]].
  assert (Hsrc : rd_n (enc t) 0 (2 + Z.of_nat (length t.2)) = Some (enc t)).
  { rewrite <- En. pose proof (rd_n_app [] (enc t) [] 0 _ eq_refl eq_refl) as H. by rewrite app_nil_r in H. }
  rewrite Hsrc. cbn [mbind option_bind]. rewrite Eb in Hl |- *. rewrite length_app in Hl. cbn [length] in Hl.
  set (k := (length (enc t))). destruct (le_lt_dec k (length (END_OPTION :: rest))) as [Hk|Hk]; [|unfold k in *; cbn [length] in *; lia].
  rewrite <- (take_drop k (END_OPTION :: rest)), write_at_app by (rewrite length_take; unfold k in *; lia).
  cbn [mbind option_bind]. remember (drop k (END_OPTION :: rest)) as after eqn:Ea.
  assert (Hla : (length after = S (length rest) - k)%nat) by (subst after; rewrite length_drop; done).
  destruct after as [|x after]; [cbn [length] in *; unfold k in *; lia|].
  rewrite app_assoc. replace (Z.of_nat (length (encs ts)) + (2 + Z.of_nat (length t.2)))
    with (Z.of_nat (length (encs ts ++ enc t))) by (rewrite length_app; lia).
  rewrite (write_at_app _ [x] after [END_OPTION]) by done. cbn [mbind option_bind].
  eexists. split; [reflexivity|]. split.
  - rewrite !length_app. cbn [length] in *. unfold k in *. lia.
  - exists after. rewrite encs_app. unfold encs at 3. cbn [map List.concat]. by rewrite app_nil_r, <- !app_assoc.
Qed.

(** A packet built by appending options is read back: appending an option
    to an array that holds well-formed options either reports its size, and
    then every code is found with the value of its first option (or not found),
    or reports 0 and leaves the array, which happens exactly when the option
    and the end mark would not fit in 1779 bytes. *)
Theorem AddOptStrToOpts_GetDhcpOption packet ts t code :
  holds (c_options packet) ts -> Forall wf_tlv ts -> wf_tlv t -> 0 < code < END_OPTION ->
  Z.of_nat (length (encs ts)) + 1 < DHCP_OPT_SIZE ->
  let n := Z.of_nat (length (enc t)) in
  exists r buf, AddOptStrToOpts (c_options packet) (enc t) n = Some (r, buf) /\
    let ts' := if Z.of_nat (length (encs ts)) + n + 1 <? DHCP_OPT_SIZE then ts ++ [t] else ts in
    let p := mkPacket (c_op packet) (c_htype packet) (c_hlen packet) (c_hops packet) (c_xid packet) (c_secs packet)
      (c_flags packet) (c_ciaddr packet) (c_yiaddr packet) (c_siaddr packet) (c_giaddr packet) (c_chaddr packet)
      (c_sname packet) (c_file packet) (c_cookie packet) buf in
    r = (if Z.of_nat (length (encs ts)) + n + 1 <? DHCP_OPT_SIZE then n else 0) /\ holds buf ts' /\
    match value_in ts' code with
    | Some d => exists off, GetDhcpOption p code = Some (Some (OPTION_FIELD, off), Z.of_nat (length d)) /\
        at_ptr p (OPTION_FIELD, off) (Z.of_nat (length d)) = Some d
    | None => GetDhcpOption p code = Some (None, 0)
    end.
Proof.
  intros Hh Hts Ht Hcode Hroom n. pose proof (AddOptStrToOpts_holds _ _ _ Hh Hts Ht) as H. cbv zeta in H. fold n in H.
  assert (Hfind : forall p us, holds (c_options p) us -> Forall wf_tlv us -> Z.of_nat (length (encs us)) + 1 < DHCP_OPT_SIZE ->
    match value_in us code with
    | Some d => exists off, GetDhcpOption p code = Some (Some (OPTION_FIELD, off), Z.of_nat (length d)) /\
        at_ptr p (OPTION_FIELD, off) (Z.of_nat (length d)) = Some d
    | None => GetDhcpOption p code = Some (None, 0)
    end).
  { intros p us [Hl [rest E]] Hus Hr. apply (GetDhcpOption_loop_finds p code Hcode us [] rest); try done.
    pose proof (length_encs us). unfold DHCP_OPT_SIZE, option_fuel in *. lia. }
  destruct (Z.ltb_spec (Z.of_nat (length (encs ts)) + n + 1) DHCP_OPT_SIZE) as [Hr|Hr].
  - destruct H as (buf & E & Hb). exists n, buf. split; [done|]. cbv zeta. split; [done|]. split; [done|].
    apply Hfind; [done|apply Forall_app; split; [done|by apply Forall_singleton]|].
    rewrite encs_app, length_app. unfold encs at 2. cbn [map List.concat]. rewrite app_nil_r. fold n in Hr. lia.
  - exists 0, (c_options packet). split; [done|]. cbv zeta. split; [done|]. split; [done|]. by apply Hfind.
Qed.

Lemma AddOptStrToOpts_GetDhcpOption_witness :
  let packet := packet_with (enc (53, [1]) ++ [END_OPTION]) [] [] in
  let t := (50, [192; 168; 62; 5]) in
  exists r buf, AddOptStrToOpts (c_options packet) (enc t) 6 = Some (r, buf) /\ r = 6.
Proof.
  destruct (AddOptStrToOpts_GetDhcpOption (packet_with (enc (53, [1]) ++ [END_OPTION]) [] []) [(53, [1])]
    (50, [192; 168; 62; 5]) 50) as (r & buf & E & Hr & _).
  - split; [done|]. eexists. reflexivity.
  - repeat constructor; cbn; try lia; discriminate.
  - repeat split; cbn; try lia; discriminate.
  - unfold END_OPTION. lia.
  - cbn. unfold DHCP_OPT_SIZE. lia.
  - exists r, buf. split; [exact E|]. rewrite Hr. reflexivity.
Defined.

(** The overload option is skipped by the length of the first option of the
    packet instead of its own: in the first packet, where the first option is
    one byte long, the server identifier after the overload option is found; in
    the second, which only starts with a longer option, it is not. *)
Theorem overload_skipped_wrongly :
  let after := [52; 1; 1; 54; 4; 10; 0; 0; 1; 255] in
  let p1 := packet_with ([53; 1; 5] ++ after) [255] [] in
  let p2 := packet_with ([1; 4; 255; 255; 255; 0] ++ after) [255] [] in
  GetDhcpOption p1 SERVER_IDENTIFIER_OPTION = Some (Some (OPTION_FIELD, 8), 4) /\
  at_ptr p1 (OPTION_FIELD, 8) 4 = Some [10; 0; 0; 1] /\
  GetDhcpOption p2 SERVER_IDENTIFIER_OPTION = Some (None, 0).
Proof. by vm_compute. Qed.
