(* ===== verification/RawPacket.v ===== *)
(** The packets of the client on the wire
    (src/services/dhcp_client/src/dhcp_socket.cpp): the Internet checksum, the
    IP and UDP headers put in front of a DHCP packet, and the tests a packet
    read from the raw socket must pass.

    A structure is a record with a layout ([ip_bytes] and so on); casting a
    structure to bytes is its layout, reading bytes into a structure is
    [..._of_bytes].  A 16-bit field holds the two bytes in memory order on a
    little-endian machine, so the code swaps them with [htons].  A system call
    takes the next of a list of results ([Kernel]), whatever it is. *)
From S2P Require Import Prelude AddressUtils OptionList Codec ClientOptions.

Definition SOCKET_OPT_SUCCESS : Z := 0.
Definition SOCKET_OPT_FAILED : Z := -1.
Definition SOCKET_OPT_ERROR : Z := -2.
Definition BOOTP_SERVER : Z := 67.
Definition BOOTP_CLIENT : Z := 68.
Definition MAGIC_COOKIE : Z := 0x63825363.
Definition DHCP_UINT16_BITS : Z := 16.
Definition DHCP_APPEND_LEN : Z := 2.
Definition DHCP_MAX_PACKET_LEN : Z := 1500.
Definition IPPROTO_UDP : Z := 17.
Definition IPVERSION : Z := 4.
Definition IPDEFTTL : Z := 64.

(** [htons] of the C library; [ntohs] is the same. *)
Definition htons (x : Z) : Z := u16 x / 2 ^ 8 + 2 ^ 8 * (u16 x mod 2 ^ 8).
Definition ntohs : Z -> Z := htons.

(** * Structures and their layout *)

Record iphdr := mkIp {
  i_ihl : Z; i_version : Z; i_tos : Z; i_tot_len : Z; i_id : Z; i_frag_off : Z;
  i_ttl : Z; i_protocol : Z; i_check : Z; i_saddr : Z; i_daddr : Z
}.
Record udphdr := mkUdp { ud_source : Z; ud_dest : Z; ud_len : Z; ud_check : Z }.
Record UdpDhcpPacket := mkUdpDhcp { p_ip : iphdr; p_udp : udphdr; p_data : DhcpPacket }.

Definition sizeof_iphdr : Z := 20.
Definition sizeof_udphdr : Z := 8.
Definition sizeof_DhcpPacket : Z := 2020.
Definition sizeof_UdpDhcpPacket : Z := 2048.

Definition ip_bytes (i : iphdr) : bytes :=
  [i_version i * 2 ^ 4 + i_ihl i; i_tos i] ++ le16 (i_tot_len i) ++ le16 (i_id i) ++ le16 (i_frag_off i)
  ++ [i_ttl i; i_protocol i] ++ le16 (i_check i) ++ le32 (i_saddr i) ++ le32 (i_daddr i).
Definition udp_bytes (u : udphdr) : bytes :=
  le16 (ud_source u) ++ le16 (ud_dest u) ++ le16 (ud_len u) ++ le16 (ud_check u).
Definition dhcp_bytes (p : DhcpPacket) : bytes :=
  [c_op p; c_htype p; c_hlen p; c_hops p] ++ le32 (c_xid p) ++ le16 (c_secs p) ++ le16 (c_flags p)
  ++ le32 (c_ciaddr p) ++ le32 (c_yiaddr p) ++ le32 (c_siaddr p) ++ le32 (c_giaddr p)
  ++ c_chaddr p ++ c_sname p ++ c_file p ++ le32 (c_cookie p) ++ c_options p.
Definition udp_dhcp_bytes (p : UdpDhcpPacket) : bytes :=
  ip_bytes (p_ip p) ++ udp_bytes (p_udp p) ++ dhcp_bytes (p_data p).

(** The 16-bit and the 32-bit word at an offset, and [n] bytes at an offset. *)
Definition w16 (b : bytes) (i : nat) : Z := byte_at b i + 2 ^ 8 * byte_at b (i + 1).
Definition w32 (b : bytes) (i : nat) : Z := ParseIp (drop i b).
Definition part (b : bytes) (i n : nat) : bytes := take n (drop i b).

Definition ip_of_bytes (b : bytes) : iphdr :=
  mkIp (byte_at b 0 mod 2 ^ 4) (byte_at b 0 / 2 ^ 4) (byte_at b 1) (w16 b 2) (w16 b 4) (w16 b 6)
    (byte_at b 8) (byte_at b 9) (w16 b 10) (w32 b 12) (w32 b 16).
Definition udp_of_bytes (b : bytes) : udphdr := mkUdp (w16 b 0) (w16 b 2) (w16 b 4) (w16 b 6).
Definition dhcp_of_bytes (b : bytes) : DhcpPacket :=
  mkPacket (byte_at b 0) (byte_at b 1) (byte_at b 2) (byte_at b 3) (w32 b 4) (w16 b 8) (w16 b 10)
    (w32 b 12) (w32 b 16) (w32 b 20) (w32 b 24) (part b 28 16) (part b 44 64) (part b 108 128)
    (w32 b 236) (part b 240 1780).
Definition udp_dhcp_of_bytes (b : bytes) : UdpDhcpPacket :=
  mkUdpDhcp (ip_of_bytes b) (udp_of_bytes (drop 20 b)) (dhcp_of_bytes (drop 28 b)).

(** Assignments to fields. *)
Definition set_ip_check (v : Z) (i : iphdr) : iphdr :=
  mkIp (i_ihl i) (i_version i) (i_tos i) (i_tot_len i) (i_id i) (i_frag_off i) (i_ttl i) (i_protocol i) v
    (i_saddr i) (i_daddr i).
Definition set_udp_check (v : Z) (u : udphdr) : udphdr := mkUdp (ud_source u) (ud_dest u) (ud_len u) v.

(** * The checksum *)

(** The sum over whole 16-bit words, with what is left of the data. *)
Fixpoint GetCheckSum_words (pData : bytes) (nBytes uTotalSum : Z) : option (bytes * Z * Z) :=
  if nBytes >=? DHCP_UINT16_BYTES then
    match pData with
    | lo :: hi :: pData' =>
        GetCheckSum_words pData' (nBytes - DHCP_UINT16_BYTES) (u32 (uTotalSum + (lo + 2 ^ 8 * hi)))
    | _ => None
    end
  else Some (pData, nBytes, uTotalSum).

Fixpoint GetCheckSum_fold (fuel : nat) (uTotalSum : Z) : option Z :=
  match fuel with
  | O => None
  | S fuel' =>
      if truthy (Z.shiftr uTotalSum DHCP_UINT16_BITS)
      then GetCheckSum_fold fuel' (u32 (Z.land uTotalSum 0xffff + Z.shiftr uTotalSum DHCP_UINT16_BITS))
      else Some uTotalSum
  end.

(** [junk] is the byte of [u16Sum] that the code does not initialise.  A 32-bit
    sum is folded at most twice. *)
Definition GetCheckSum (junk : Z) (pData : bytes) (nBytes : Z) : option Z :=
  '(pData, nBytes, uTotalSum) ← GetCheckSum_words pData nBytes 0;
  uTotalSum ← (if nBytes >? 0 then
                 b ← pData !! 0%nat;
                 let u16Sum := b + 2 ^ 8 * junk in
                 Some (u32 (uTotalSum + u16Sum))
               else Some uTotalSum);
  uTotalSum ← GetCheckSum_fold 3 uTotalSum;
  Some (u16 (Z.lnot uTotalSum)).

(** * System calls *)

(** A call with its descriptor and what it is given: addresses, the bytes sent. *)
Inductive call :=
| c_socket | c_setsockopt (fd : Z)
| c_bind (fd ip port : Z) | c_bind_link (fd ifaceIndex : Z) (hwaddr : option bytes) | c_connect (fd ip port : Z)
| c_ioctl (fd request : Z) (ifr_name : bytes) (addr : Z)
| c_sendto (fd : Z) (sent : bytes) | c_write (fd : Z) (sent : bytes) | c_close (fd : Z).

(** The results of the coming calls, the descriptors open, the calls made. *)
Record Kernel := mkKernel { results : list Z; open_fds : list Z; calls : list call }.

Definition syscall (c : call) : M Kernel Z :=
  fun k =>
    let r := default (-1) (head (results k)) in
    let fds := match c with
               | c_socket => if r =? -1 then open_fds k else r :: open_fds k
               | c_close fd => filter (fun x => x <> fd) (open_fds k)
               | _ => open_fds k
               end in
    Some (r, mkKernel (tail (results k)) fds (calls k ++ [c])).

Definition close (fd : Z) : M Kernel unit := syscall (c_close fd) ;; ret tt.

(** Returns the code and [*rawFd]. *)
Definition CreateRawSocket (rawFd : Z) : M Kernel (Z * Z) :=
  let* sockFd := syscall c_socket in
  if sockFd =? -1 then ret (SOCKET_OPT_FAILED, rawFd) else ret (SOCKET_OPT_SUCCESS, sockFd).

Definition CreateKernelSocket (sockFd : option Z) : M Kernel (Z * option Z) :=
  match sockFd with
  | None => ret (SOCKET_OPT_FAILED, None)
  | Some _ =>
      let* nFd := syscall c_socket in
      if nFd =? -1 then ret (SOCKET_OPT_FAILED, sockFd) else ret (SOCKET_OPT_SUCCESS, Some nFd)
  end.

Definition BindRawSocket (rawFd ifaceIndex : Z) (ifaceAddr : option bytes) : M Kernel Z :=
  if rawFd <? 0 then ret SOCKET_OPT_FAILED
  else
    let* r := syscall (c_setsockopt rawFd) in
    if r =? -1 then close rawFd ;; ret SOCKET_OPT_FAILED
    else
      let* nRet := syscall (c_bind_link rawFd ifaceIndex ifaceAddr) in
      if nRet =? -1 then close rawFd ;; ret SOCKET_OPT_FAILED else ret SOCKET_OPT_SUCCESS.

(** An option of the socket, set unless the case does not arise. *)
Definition set_option (wanted : bool) (sockFd : Z) : M Kernel bool :=
  if wanted then let* r := syscall (c_setsockopt sockFd) in ret (negb (r =? -1)) else ret true.

(** [ifaceName] fits [ifr_name], which has 16 bytes, with its NUL. *)
Definition IFNAMSIZ : Z := 16.
Definition BindKernelSocket (sockFd : Z) (ifaceName : option bytes) (sockIp sockPort : Z) (bCast : bool) : M Kernel Z :=
  if sockFd <? 0 then ret SOCKET_OPT_FAILED
  else if match ifaceName with Some name => Z.of_nat (length name) >=? IFNAMSIZ | None => false end
  then close sockFd ;; ret SOCKET_OPT_FAILED
  else
    let* ok := set_option (bool_decide (is_Some ifaceName)) sockFd in
    if negb ok then close sockFd ;; ret SOCKET_OPT_FAILED
    else
      let* ok := set_option bCast sockFd in
      if negb ok then close sockFd ;; ret SOCKET_OPT_FAILED
      else
        let* ok := set_option true sockFd in
        if negb ok then close sockFd ;; ret SOCKET_OPT_FAILED
        else
          let* ok := set_option true sockFd in
          if negb ok then close sockFd ;; ret SOCKET_OPT_FAILED
          else
            let* nRet := syscall (c_bind sockFd sockIp sockPort) in
            if nRet =? -1 then close sockFd ;; ret SOCKET_OPT_FAILED else ret SOCKET_OPT_SUCCESS.

(** * Sending *)

(** The headers, filled in the order of the code: the UDP checksum over the
    structure with its pseudo header, then the IP header. *)
Definition fill_headers (sendPacket : DhcpPacket) (srcIp destIp sendLen dhcpPackLen : Z) : option UdpDhcpPacket :=
  let len := htons (sizeof_udphdr + dhcpPackLen) in
  let udp := mkUdp (htons BOOTP_CLIENT) (htons BOOTP_SERVER) len 0 in
  let pseudo := mkIp 0 0 0 len 0 0 0 IPPROTO_UDP 0 srcIp destIp in
  check ← GetCheckSum 0 (udp_dhcp_bytes (mkUdpDhcp pseudo udp sendPacket)) sizeof_UdpDhcpPacket;
  let udp := set_udp_check check udp in
  let ip := mkIp (Z.shiftr sizeof_iphdr DHCP_UINT16_BYTES) IPVERSION 0 (htons sendLen) 0 0 IPDEFTTL
              IPPROTO_UDP 0 srcIp destIp in
  check ← GetCheckSum 0 (ip_bytes ip) sizeof_iphdr;
  Some (mkUdpDhcp (set_ip_check check ip) udp sendPacket).

(** The packet handed to [sendto], and [sendLen]; [None] inside is an invalid
    length. *)
Definition fill_packet (sendPacket : DhcpPacket) (srcIp destIp : Z) : option (option (UdpDhcpPacket * Z)) :=
  endIndex ← GetEndOptionIndex (c_options sendPacket);
  let optionLen := endIndex + DHCP_APPEND_LEN in
  let sendLen := sizeof_UdpDhcpPacket - DHCP_OPT_SIZE + optionLen in
  let dhcpPackLen := sizeof_DhcpPacket - DHCP_OPT_SIZE + optionLen in
  if (optionLen <? 0) || (optionLen >? DHCP_OPT_SIZE) then Some None
  else if (sendLen <=? 0) || (sendLen >? sizeof_UdpDhcpPacket) then Some None
  else
    udpPackets ← fill_headers sendPacket srcIp destIp sendLen dhcpPackLen;
    Some (Some (udpPackets, sendLen)).

Definition SendToDhcpPacket (sendPacket : DhcpPacket) (srcIp destIp destIndex : Z) (destHwaddr : option bytes) : M Kernel Z :=
  match destHwaddr with
  | None => ret SOCKET_OPT_FAILED
  | Some _ =>
      let* '(r, nFd) := CreateRawSocket (-1) in
      if negb (r =? SOCKET_OPT_SUCCESS) then ret SOCKET_OPT_FAILED
      else
        let* r := syscall (c_bind_link nFd destIndex destHwaddr) in
        if r =? -1 then close nFd ;; ret SOCKET_OPT_FAILED
        else
          let* filled := from_option (fill_packet sendPacket srcIp destIp) in
          match filled with
          | None => close nFd ;; ret SOCKET_OPT_FAILED
          | Some (udpPackets, sendLen) =>
              let* nBytes := syscall (c_sendto nFd (take (Z.to_nat sendLen) (udp_dhcp_bytes udpPackets))) in
              close nFd ;;
              ret (if nBytes <=? 0 then SOCKET_OPT_FAILED else SOCKET_OPT_SUCCESS)
          end
  end.

Definition SendDhcpPacket (sendPacket : DhcpPacket) (srcIp destIp : Z) : M Kernel Z :=
  let* '(r, nFd) := CreateKernelSocket (Some (-1)) in
  let nFd := default (-1) nFd in
  if negb (r =? SOCKET_OPT_SUCCESS) then ret SOCKET_OPT_FAILED
  else
    let* r := BindKernelSocket nFd None srcIp BOOTP_CLIENT false in
    if negb (r =? SOCKET_OPT_SUCCESS) then ret SOCKET_OPT_FAILED
    else
      let* nRet := syscall (c_connect nFd destIp BOOTP_SERVER) in
      if nRet =? -1 then close nFd ;; ret SOCKET_OPT_FAILED
      else
        let* endIndex := from_option (GetEndOptionIndex (c_options sendPacket)) in
        let optionLen := endIndex + DHCP_APPEND_LEN in
        if (optionLen <? 0) || (optionLen >? DHCP_OPT_SIZE) then close nFd ;; ret SOCKET_OPT_FAILED
        else
          let sendLen := sizeof_DhcpPacket - DHCP_OPT_SIZE + optionLen in
          if (sendLen <=? 0) || (sendLen >? DHCP_MAX_PACKET_LEN) then close nFd ;; ret SOCKET_OPT_FAILED
          else
            let* nBytes := syscall (c_write nFd (take (Z.to_nat sendLen) (dhcp_bytes sendPacket))) in
            close nFd ;;
            ret (if nBytes <=? 0 then SOCKET_OPT_FAILED else SOCKET_OPT_SUCCESS).

(** * Receiving *)

Definition CheckReadBytes (count totLen : Z) : Z :=
  if count <? 0 then SOCKET_OPT_ERROR
  else
    let nCommonSize := sizeof_iphdr + sizeof_udphdr in
    if count <? nCommonSize then SOCKET_OPT_FAILED
    else if count <? totLen then SOCKET_OPT_FAILED
    else SOCKET_OPT_SUCCESS.

Definition CheckUdpPacket (pPacket : UdpDhcpPacket) (totLen : Z) : Z :=
  if totLen >? sizeof_UdpDhcpPacket then SOCKET_OPT_FAILED
  else if negb (i_protocol (p_ip pPacket) =? IPPROTO_UDP) || negb (i_version (p_ip pPacket) =? IPVERSION)
  then SOCKET_OPT_FAILED
  else
    let uIhl := Z.shiftr sizeof_iphdr DHCP_UINT16_BYTES in
    if negb (i_ihl (p_ip pPacket) =? uIhl) then SOCKET_OPT_FAILED
    else if negb (ud_dest (p_udp pPacket) =? htons BOOTP_CLIENT) then SOCKET_OPT_FAILED
    else
      let uLen := u16 (totLen - sizeof_iphdr) in
      if negb (ntohs (ud_len (p_udp pPacket)) =? uLen) then SOCKET_OPT_FAILED
      else SOCKET_OPT_SUCCESS.

(** Returns the code and the packet, whose header checksum is cleared. *)
Definition CheckPacketIpSum (pPacket : UdpDhcpPacket) (nBytes : Z) : option (Z * UdpDhcpPacket) :=
  if negb (CheckUdpPacket pPacket nBytes =? SOCKET_OPT_SUCCESS) then Some (SOCKET_OPT_FAILED, pPacket)
  else
    let uCheck := i_check (p_ip pPacket) in
    let pPacket := mkUdpDhcp (set_ip_check 0 (p_ip pPacket)) (p_udp pPacket) (p_data pPacket) in
    uCheckSum ← GetCheckSum 0 (ip_bytes (p_ip pPacket)) sizeof_iphdr;
    if negb (uCheck =? uCheckSum) then Some (SOCKET_OPT_ERROR, pPacket)
    else Some (SOCKET_OPT_SUCCESS, pPacket).

(** Returns the code and the packet, whose IP header has become the pseudo
    header of the checksum. *)
Definition CheckPacketUdpSum (junk : Z) (pPacket : UdpDhcpPacket) (nBytes : Z) : option (Z * UdpDhcpPacket) :=
  let uCheck := ud_check (p_udp pPacket) in
  let udp := set_udp_check 0 (p_udp pPacket) in
  let source := i_saddr (p_ip pPacket) in
  let dest := i_daddr (p_ip pPacket) in
  let ip := mkIp 0 0 0 (ud_len udp) 0 0 0 IPPROTO_UDP 0 source dest in
  let pPacket := mkUdpDhcp ip udp (p_data pPacket) in
  uCheckSum ← GetCheckSum junk (udp_dhcp_bytes pPacket) nBytes;
  if truthy uCheck && negb (uCheck =? uCheckSum) then Some (SOCKET_OPT_FAILED, pPacket)
  else Some (SOCKET_OPT_SUCCESS, pPacket).

(** [read] into a buffer of [n] zero bytes: the count, -1 on an error, and the
    buffer; what does not fit of a datagram is lost. *)
Definition read_into (received : option bytes) (old : bytes) (n : Z) : Z * bytes :=
  match received with
  | None => (-1, old)
  | Some d => let d := take (Z.to_nat n) d in (Z.of_nat (length d), d ++ drop (length d) old)
  end.

(** Returns the code, or the number of bytes of the packet, and [*getPacket]. *)
Definition GetDhcpRawPacket (junk : Z) (getPacket : DhcpPacket) (received : option bytes) : option (Z * DhcpPacket) :=
  let '(nBytes, area) := read_into received (zeros (Z.to_nat sizeof_UdpDhcpPacket)) sizeof_UdpDhcpPacket in
  let udpPackets := udp_dhcp_of_bytes area in
  let nRet := CheckReadBytes nBytes (ntohs (i_tot_len (p_ip udpPackets))) in
  if negb (nRet =? SOCKET_OPT_SUCCESS) then Some (nRet, getPacket)
  else
    let nBytes := ntohs (i_tot_len (p_ip udpPackets)) in
    '(nRet, udpPackets) ← CheckPacketIpSum udpPackets nBytes;
    if negb (nRet =? SOCKET_OPT_SUCCESS) then Some (nRet, getPacket)
    else
      '(nRet, udpPackets) ← CheckPacketUdpSum junk udpPackets nBytes;
      if negb (nRet =? SOCKET_OPT_SUCCESS) then Some (nRet, getPacket)
      else
        let nDhcpPacket := nBytes - (sizeof_iphdr + sizeof_udphdr) in
        let '(ok, area) :=
          memcpy_s (dhcp_bytes getPacket) sizeof_DhcpPacket (dhcp_bytes (p_data udpPackets)) (u64 nDhcpPacket) in
        let getPacket := dhcp_of_bytes area in
        if negb ok then Some (SOCKET_OPT_FAILED, getPacket)
        else if negb (ntohl (c_cookie getPacket) =? MAGIC_COOKIE) then Some (SOCKET_OPT_FAILED, getPacket)
        else Some (nDhcpPacket, getPacket).

Definition GetDhcpKernelPacket (getPacket : DhcpPacket) (received : option bytes) : Z * DhcpPacket :=
  let '(nBytes, area) := read_into received (dhcp_bytes getPacket) sizeof_DhcpPacket in
  if nBytes =? -1 then (SOCKET_OPT_ERROR, getPacket)
  else
    let getPacket := dhcp_of_bytes area in
    if negb (ntohl (c_cookie getPacket) =? MAGIC_COOKIE) then (SOCKET_OPT_FAILED, getPacket)
    else (nBytes, getPacket).

(** * The checksum is the one of RFC 1071 *)

(** Addition of 16-bit words with end-around carry, and the sum of the words of
    a datagram, an odd last byte being followed by zero. *)
Definition oc_add (a b : Z) : Z := (a + b) mod 2 ^ 16 + (a + b) / 2 ^ 16.
Fixpoint words (b : bytes) : list Z :=
  match b with
  | lo :: hi :: r => (lo + 2 ^ 8 * hi) :: words r
  | [lo] => [lo]
  | [] => []
  end.
Definition oc_sum (b : bytes) : Z := foldl oc_add 0 (words b).

(** A receiver accepts data when the sum, with the checksum in it, is all ones. *)
Definition verifies (b : bytes) : Prop := oc_sum b = 0xffff.

Definition sumw (b : bytes) : Z := foldr Z.add 0 (words b).

(** The representative of a sum in the one's complement numbers. *)
Definition canon (s : Z) : Z := if s =? 0 then 0 else (s - 1) mod 65535 + 1.

Lemma canon_range s : 0 <= s -> 0 <= canon s <= 65535.
Proof. intros. unfold canon. destruct (Z.eqb_spec s 0); [lia|]. pose proof (Z.mod_pos_bound (s - 1) 65535). lia. Qed.

Lemma canon_unique s x : 0 <= s -> 0 <= x <= 65535 -> (s = 0 <-> x = 0) -> x mod 65535 = s mod 65535 -> x = canon s.
Proof.
  intros Hs Hx H0 Hm. unfold canon. destruct (Z.eqb_spec s 0); [tauto|].
  assert (x <> 0) by tauto. replace x with (x - 1 + 1) at 1 by lia. f_equal.
  rewrite <- (Z.mod_small (x - 1) 65535) by lia.
  rewrite (Zminus_mod x), (Zminus_mod s), Hm. done.
Qed.

Lemma canon_mod s : 0 <= s -> canon s mod 65535 = s mod 65535.
Proof.
  intros. unfold canon. destruct (Z.eqb_spec s 0); [by subst|].
  rewrite Z.add_mod_idemp_l by done. f_equal. lia.
Qed.

Lemma canon_0 s : 0 <= s -> s = 0 <-> canon s = 0.
Proof.
  intros. unfold canon. destruct (Z.eqb_spec s 0); [done|].
  pose proof (Z.mod_pos_bound (s - 1) 65535). lia.
Qed.

Lemma canon_small s : 0 <= s <= 65535 -> canon s = s.
Proof. intros. symmetry. apply canon_unique; lia. Qed.

Lemma canon_carry s : 0 <= s -> canon (s mod 2 ^ 16 + s / 2 ^ 16) = canon s.
Proof.
  intros Hs. pose proof (Z.div_mod s (2 ^ 16)). pose proof (Z.mod_pos_bound s (2 ^ 16)).
  pose proof (Z.div_pos s (2 ^ 16)). apply canon_unique; [done|apply canon_range; lia| |].
  - rewrite <- canon_0 by lia. lia.
  - rewrite canon_mod by lia. rewrite (Z.div_mod s (2 ^ 16)) at 3 by lia.
    rewrite <- (Z.mod_add (s mod 2 ^ 16 + s / 2 ^ 16) (s / 2 ^ 16) 65535) by lia. f_equal. lia.
Qed.

Lemma canon_add s b : 0 <= s -> 0 <= b -> canon (canon s + b) = canon (s + b).
Proof.
  intros. pose proof (canon_range s). pose proof (canon_0 s). apply canon_unique; [lia|apply canon_range; lia| |].
  - rewrite <- canon_0 by lia. lia.
  - rewrite canon_mod, <- Z.add_mod_idemp_l, canon_mod, Z.add_mod_idemp_l by lia. done.
Qed.

(** A sum and the complement of its representative make all ones. *)
Lemma canon_complement s : 0 <= s -> canon (s + (65535 - canon s)) = 65535.
Proof.
  intros. pose proof (canon_range s). rewrite <- canon_add by lia.
  replace (canon s + (65535 - canon s)) with 65535 by lia. done.
Qed.

Lemma oc_add_canon a b : 0 <= a <= 65535 -> 0 <= b <= 65535 -> oc_add a b = canon (a + b).
Proof.
  intros. unfold oc_add. rewrite <- canon_carry by lia. symmetry. apply canon_small.
  pose proof (Z.div_mod (a + b) (2 ^ 16)). pose proof (Z.mod_pos_bound (a + b) (2 ^ 16)). lia.
Qed.

Lemma pairs_ind (P : bytes -> Prop) :
  P [] -> (forall a, P [a]) -> (forall a b l, P l -> P (a :: b :: l)) -> forall l, P l.
Proof.
  intros H0 H1 H2 l. assert (forall n l, (length l <= n)%nat -> P l) as Hn; [|by apply (Hn (length l))].
  clear l. induction n as [|n IH]; intros [|a [|b l]] Hl; auto; cbn [length] in Hl; [lia..|].
  apply H2, IH. lia.
Qed.

Lemma words_range b : Forall is_u8 b -> Forall (fun w => 0 <= w <= 65535) (words b).
Proof.
  induction b as [|a|a b l IH] using pairs_ind; intros Hb; cbn [words]; [done| |];
    repeat (apply Forall_cons in Hb as [? Hb]); unfold is_u8 in *; constructor; auto; lia.
Qed.

Lemma sumw_cons a b l : sumw (a :: b :: l) = a + 2 ^ 8 * b + sumw l.
Proof. done. Qed.

Lemma sumw_nonneg b : Forall is_u8 b -> 0 <= sumw b.
Proof.
  intros Hb%words_range. unfold sumw. induction Hb; cbn; lia.
Qed.

Lemma sumw_bound b : Forall is_u8 b -> sumw b <= 65535 * Z.of_nat (length b).
Proof.
  induction b as [|a|a b l IH] using pairs_ind; intros Hb;
    repeat (apply Forall_cons in Hb as [? Hb]); unfold is_u8 in *.
  - done.
  - unfold sumw. cbn [words foldr length]. lia.
  - rewrite sumw_cons. specialize (IH Hb). cbn [length]. lia.
Qed.

Lemma sumw_app a b : Nat.Even (length a) -> sumw (a ++ b) = sumw a + sumw b.
Proof.
  induction a as [|x|x y a IH] using pairs_ind; intros He; [done|by destruct He; cbn in *; lia|].
  cbn [app]. rewrite !sumw_cons, IH; [lia|]. destruct He as [k Hk]. exists (k - 1)%nat. cbn in Hk. lia.
Qed.

(** Zeros behind the data do not change its sum. *)
Lemma sumw_zeros n : sumw (zeros n) = 0.
Proof.
  assert (forall l, l = zeros (length l) -> sumw l = 0) as H; [|apply H; by rewrite length_zeros].
  intros l. induction l as [|x|x y l IH] using pairs_ind; intros E; [done| |];
    unfold zeros in *; cbn [length replicate] in E; simplify_eq; [done|].
  rewrite sumw_cons, IH by done. done.
Qed.

Lemma sumw_app_zeros a n : sumw (a ++ zeros n) = sumw a.
Proof.
  induction a as [|x|x y a IH] using pairs_ind.
  - apply sumw_zeros.
  - destruct n as [|n]; [done|]. change ([x] ++ zeros (S n)) with (x :: 0 :: zeros n).
    rewrite sumw_cons, sumw_zeros. unfold sumw. cbn. lia.
  - cbn [app]. by rewrite !sumw_cons, IH.
Qed.

Lemma oc_sum_canon b : Forall is_u8 b -> oc_sum b = canon (sumw b).
Proof.
  intros Hb%words_range. unfold oc_sum, sumw.
  assert (forall acc, 0 <= acc -> foldl oc_add (canon acc) (words b) = canon (acc + foldr Z.add 0 (words b))) as H.
  { induction Hb as [|w ws Hw Hws IH]; intros acc Hacc; cbn [foldl foldr]; [f_equal; lia|].
    rewrite oc_add_canon, canon_add, IH by (try apply canon_range; lia). f_equal. lia. }
  apply (H 0). lia.
Qed.

Ltac split_pairs :=
  repeat match goal with
  | |- Some _ = Some _ => f_equal
  | |- (_, _) = (_, _) => f_equal
  end.

Lemma GetCheckSum_words_spec k : forall data n acc, Forall is_u8 data -> 0 <= acc ->
  2 * Z.of_nat k <= n < 2 * Z.of_nat k + 2 -> n <= Z.of_nat (length data) -> acc + sumw (take (2 * k) data) < 2 ^ 32 ->
  GetCheckSum_words data n acc = Some (drop (2 * k) data, n - 2 * Z.of_nat k, acc + sumw (take (2 * k) data)).
Proof.
  induction k as [|k IH]; intros data n acc Hd Hacc Hn Hlen Hsum.
  - change (take (2 * 0) data) with (@nil Z). change (sumw []) with 0.
    destruct data as [|lo data]; cbn [GetCheckSum_words];
      rewrite Z.geb_leb, (proj2 (Z.leb_gt _ _)) by (unfold DHCP_UINT16_BYTES; lia);
      split_pairs; lia.
  - destruct data as [|lo [|hi data]]; cbn [length] in Hlen; [lia..|]. cbn [GetCheckSum_words].
    rewrite Z.geb_leb, (proj2 (Z.leb_le _ _)) by (unfold DHCP_UINT16_BYTES; lia).
    replace (2 * S k)%nat with (S (S (2 * k))) in * by lia. cbn [take drop] in *. rewrite sumw_cons in *.
    repeat (apply Forall_cons in Hd as [? Hd]). unfold is_u8 in *.
    assert (0 <= sumw (take (2 * k) data)) by by apply sumw_nonneg, Forall_take.
    rewrite u32_small by (unfold is_u32; lia). unfold DHCP_UINT16_BYTES.
    rewrite IH by (try done; lia). split_pairs; lia.
Qed.

Lemma GetCheckSum_fold_spec s : 0 <= s < 2 ^ 32 -> GetCheckSum_fold 3 s = Some (canon s).
Proof.
  assert (forall fuel s, 0 <= s -> s < 2 ^ 16 -> GetCheckSum_fold (S fuel) s = Some (canon s)) as Hbase.
  { intros fuel t Ht Hlt. cbn [GetCheckSum_fold]. unfold truthy, DHCP_UINT16_BITS.
    rewrite Z.shiftr_div_pow2, Z.div_small by lia. by rewrite canon_small by lia. }
  assert (forall fuel s, 0 <= s -> s < 2 ^ 32 ->
    GetCheckSum_fold (S fuel) s =
    if truthy (s / 2 ^ 16) then GetCheckSum_fold fuel (s mod 2 ^ 16 + s / 2 ^ 16) else Some s) as Hstep.
  { intros fuel t Ht Hlt. cbn [GetCheckSum_fold]. unfold DHCP_UINT16_BITS.
    rewrite Z.shiftr_div_pow2 by lia. change 0xffff with (Z.ones 16). rewrite Z.land_ones by lia.
    rewrite u32_small; [done|]. unfold is_u32. pose proof (Z.div_mod t (2 ^ 16)).
    pose proof (Z.mod_pos_bound t (2 ^ 16)). pose proof (Z.div_pos t (2 ^ 16)). lia. }
  assert (forall s, 0 <= s -> 0 <= s mod 2 ^ 16 + s / 2 ^ 16 /\ s mod 2 ^ 16 < 2 ^ 16 /\
    s = 2 ^ 16 * (s / 2 ^ 16) + s mod 2 ^ 16) as Hdm.
  { intros t Ht. pose proof (Z.div_mod t (2 ^ 16)). pose proof (Z.mod_pos_bound t (2 ^ 16)).
    pose proof (Z.div_pos t (2 ^ 16)). lia. }
  intros [H0 H1]. destruct (Z.lt_ge_cases s (2 ^ 16)); [by apply Hbase|].
  rewrite Hstep by lia. unfold truthy. pose proof (Hdm s H0) as (A1 & A2 & A3).
  destruct (Z.eqb_spec (s / 2 ^ 16) 0) as [E|E]; [lia|]. cbn [negb]. rewrite <- (canon_carry s) by done.
  set (t := s mod 2 ^ 16 + s / 2 ^ 16) in *. destruct (Z.lt_ge_cases t (2 ^ 16)); [by apply Hbase|].
  rewrite Hstep by lia. unfold truthy. pose proof (Hdm t A1) as (B1 & B2 & B3).
  destruct (Z.eqb_spec (t / 2 ^ 16) 0) as [E'|E']; [lia|]. cbn [negb]. rewrite <- (canon_carry t) by done.
  apply Hbase; lia.
Qed.

Lemma u16_lnot s : 0 <= s <= 65535 -> u16 (Z.lnot s) = 65535 - s.
Proof.
  intros. unfold u16, Z.lnot. rewrite <- (Z.mod_add _ 1), Z.mod_small by lia. lia.
Qed.

(** The result for any number of bytes: an odd last byte is completed by [junk]. *)
Definition completed (junk : Z) (data : bytes) (n : Z) : bytes :=
  take (Z.to_nat n) data ++ (if Z.odd n then [junk] else []).

Lemma GetCheckSum_completed junk data n : Forall is_u8 data -> is_u8 junk -> 0 <= n <= Z.of_nat (length data) ->
  n <= 2048 -> GetCheckSum junk data n = Some (65535 - canon (sumw (completed junk data n))).
Proof.
  intros Hd Hj Hn Hn'. unfold GetCheckSum, completed.
  set (k := Z.to_nat (n / 2)). pose proof (Z.div_mod n 2) as Hdm. pose proof (Z.mod_pos_bound n 2).
  assert (Z.of_nat k = n / 2) by (unfold k; rewrite Z2Nat.id; [done|apply Z.div_pos; lia]).
  assert (Hk : Nat.Even (length (take (2 * k) data))) by (exists k; rewrite length_take; lia).
  pose proof (sumw_bound (take (2 * k) data) ltac:(by apply Forall_take)) as Hb. rewrite length_take in Hb.
  pose proof (sumw_nonneg (take (2 * k) data) ltac:(by apply Forall_take)) as Hnn.
  rewrite (GetCheckSum_words_spec k) by (try done; lia). cbn [mbind option_bind]. rewrite Z.add_0_l.
  rewrite Zodd_mod, Z.gtb_ltb. destruct (Z.ltb_spec 0 (n - 2 * Z.of_nat k)).
  - destruct (lookup_lt_is_Some_2 data (2 * k)) as [b Hlook]; [lia|].
    rewrite lookup_drop, Nat.add_0_r, Hlook. cbn [mbind option_bind].
    replace (n mod 2) with 1 by lia. change (Zeq_bool 1 1) with true. cbv iota.
    assert (Hb8 : is_u8 b) by exact (Forall_lookup_1 _ _ _ _ Hd Hlook). unfold is_u8 in *.
    replace (Z.to_nat n) with (S (2 * k)) by lia. rewrite (take_S_r _ _ _ Hlook), <- app_assoc.
    cbn [app]. rewrite sumw_app by done. change (sumw [b; junk]) with (b + 2 ^ 8 * junk + 0).
    rewrite u32_small by (unfold is_u32; lia).
    rewrite Z.add_0_r, GetCheckSum_fold_spec by lia. cbn [mbind option_bind].
    rewrite u16_lnot by (apply canon_range; lia). done.
  - cbn [mbind option_bind]. replace (n mod 2) with 0 by lia. change (Zeq_bool 0 1) with false. cbv iota.
    replace (Z.to_nat n) with (2 * k)%nat by lia. rewrite app_nil_r.
    rewrite GetCheckSum_fold_spec by lia. cbn [mbind option_bind].
    rewrite u16_lnot by (apply canon_range; lia). done.
Qed.



(** * Layouts *)

Definition u8b (l : bytes) : Prop := Forall is_u8 l.

Lemma mod_u8 x : is_u8 (x mod 2 ^ 8).
Proof. unfold is_u8. apply Z.mod_pos_bound. lia. Qed.

Lemma le16_u8 x : u8b (le16 x).
Proof. unfold le16. repeat constructor; apply mod_u8. Qed.
Lemma le32_u8b x : u8b (le32 x).
Proof. unfold le32. repeat constructor; apply mod_u8. Qed.
#[local] Hint Resolve le16_u8 le32_u8b : core.

Record wf_iphdr (i : iphdr) : Prop := {
  wf_ihl : 0 <= i_ihl i < 2 ^ 4; wf_version : 0 <= i_version i < 2 ^ 4; wf_tos : is_u8 (i_tos i);
  wf_tot_len : is_u16 (i_tot_len i); wf_id : is_u16 (i_id i); wf_frag_off : is_u16 (i_frag_off i);
  wf_ttl : is_u8 (i_ttl i); wf_protocol : is_u8 (i_protocol i); wf_check : is_u16 (i_check i);
  wf_saddr : is_u32 (i_saddr i); wf_daddr : is_u32 (i_daddr i)
}.
Definition wf_udphdr (u : udphdr) : Prop :=
  is_u16 (ud_source u) /\ is_u16 (ud_dest u) /\ is_u16 (ud_len u) /\ is_u16 (ud_check u).

Lemma w16_le16 x b i : is_u16 x -> drop i b = le16 x ++ drop (i + 2) b -> w16 b i = x.
Proof.
  unfold is_u16, w16, byte_at. intros Hx E.
  assert (forall k, nth (i + k) b 0 = nth k (le16 x ++ drop (i + 2) b) 0) as H.
  { intros k. by rewrite <- E, nth_skipn. }
  replace (nth i b 0) with (nth (i + 0) b 0) by (f_equal; lia). rewrite !H. cbn [nth le16 app].
  clear H. Z.to_euclidean_division_equations. lia.
Qed.

Lemma length_ip_bytes i : length (ip_bytes i) = 20%nat.
Proof. done. Qed.
Lemma length_udp_bytes u : length (udp_bytes u) = 8%nat.
Proof. done. Qed.

Lemma ip_of_bytes_ip_bytes i r : wf_iphdr i -> ip_of_bytes (ip_bytes i ++ r) = i.
Proof.
  intros []. destruct i as [ihl version tos tot id frag ttl proto check saddr daddr]. cbn in *.
  unfold ip_of_bytes. f_equal; try (apply w16_le16; done);
    try (unfold w32; cbn [drop ip_bytes app]; by apply ParseIp_le32); try done.
  - change (byte_at _ 0) with (version * 2 ^ 4 + ihl). rewrite Z.add_comm, Z.mod_add, Z.mod_small; lia.
  - change (byte_at _ 0) with (version * 2 ^ 4 + ihl). rewrite Z.add_comm, Z.div_add, Z.div_small; lia.
Qed.

Lemma udp_of_bytes_udp_bytes u r : wf_udphdr u -> udp_of_bytes (udp_bytes u ++ r) = u.
Proof.
  intros (? & ? & ? & ?). destruct u. cbn in *. unfold udp_of_bytes. f_equal; by apply w16_le16.
Qed.

(** Parts of a block of memory. *)
Lemma part_app b i n m : part b i n ++ part b (i + n) m = part b i (n + m).
Proof. unfold part. by rewrite <- (take_take_drop _ n m), drop_drop. Qed.

Lemma part_whole b : part b 0 (length b) = b.
Proof. unfold part. by rewrite drop_0, take_ge. Qed.

Lemma u8b_part b i n : u8b b -> u8b (part b i n).
Proof. intros. by apply Forall_take, Forall_drop. Qed.

Lemma length_part b i n : (i + n <= length b)%nat -> length (part b i n) = n.
Proof. intros. unfold part. rewrite length_take, length_drop. lia. Qed.

Lemma drop_byte b i : (i < length b)%nat -> drop i b = byte_at b i :: drop (S i) b.
Proof.
  intros Hi. destruct (lookup_lt_is_Some_2 b i Hi) as [c Hc]. rewrite (drop_S _ _ _ Hc). f_equal.
  unfold byte_at. symmetry. by apply nth_lookup_Some.
Qed.

Lemma byte_part b i : (i < length b)%nat -> [byte_at b i] = part b i 1.
Proof. intros. unfold part. by rewrite drop_byte. Qed.

Lemma byte_at_is_u8 b i : u8b b -> is_u8 (byte_at b i).
Proof.
  intros Hb. unfold byte_at. destruct (nth_in_or_default i b 0) as [H| ->]; [|done].
  unfold u8b in Hb. rewrite List.Forall_forall in Hb. auto.
Qed.

Lemma le16_w16 b i : u8b b -> (i + 2 <= length b)%nat -> le16 (w16 b i) = part b i 2.
Proof.
  intros Hb Hi. unfold part. rewrite (drop_byte b i), (drop_byte b (S i)) by lia. cbn [take].
  unfold le16, w16. replace (i + 1)%nat with (S i) by lia.
  pose proof (byte_at_is_u8 b i Hb). pose proof (byte_at_is_u8 b (S i) Hb). unfold is_u8 in *.
  rewrite (Z.mul_comm (2 ^ 8)), Z.mod_add, Z.div_add, Z.mod_small, Z.div_small by lia.
  rewrite Z.add_0_l, (Z.mod_small (byte_at b (S i))) by lia. done.
Qed.

Lemma u8b_app a b : u8b a -> u8b b -> u8b (a ++ b).
Proof. intros. by apply Forall_app. Qed.

Lemma le32_ParseIp a b c d r : is_u8 a -> is_u8 b -> is_u8 c -> is_u8 d ->
  le32 (ParseIp (a :: b :: c :: d :: r)) = [a; b; c; d].
Proof.
  unfold is_u8, le32, ParseIp, byte_at. intros. cbn [nth].
  repeat (apply f_equal2; [Z.to_euclidean_division_equations; lia|]). done.
Qed.

Lemma le32_w32 b i : u8b b -> (i + 4 <= length b)%nat -> le32 (w32 b i) = part b i 4.
Proof.
  intros Hb Hi. unfold part, w32. rewrite (drop_byte b i), (drop_byte b (S i)), (drop_byte b (S (S i))),
    (drop_byte b (S (S (S i)))) by lia. cbn [take].
  apply le32_ParseIp; by apply byte_at_is_u8.
Qed.

Lemma part_join b i n j m : j = (i + n)%nat -> part b i n ++ part b j m = part b i (n + m).
Proof. intros ->. apply part_app. Qed.

(** A DHCP packet in memory. *)
Record wf_dhcp (p : DhcpPacket) : Prop := {
  wf_bytes4 : Forall is_u8 [c_op p; c_htype p; c_hlen p; c_hops p];
  wf_chaddr : u8b (c_chaddr p) /\ length (c_chaddr p) = 16%nat;
  wf_sname : u8b (c_sname p) /\ length (c_sname p) = 64%nat;
  wf_file : u8b (c_file p) /\ length (c_file p) = 128%nat;
  wf_options : u8b (c_options p) /\ length (c_options p) = 1780%nat;
  wf_words : Forall is_u32 [c_xid p; c_ciaddr p; c_yiaddr p; c_siaddr p; c_giaddr p; c_cookie p];
  wf_halves : Forall is_u16 [c_secs p; c_flags p]
}.

Lemma wf_dhcp_fields p : wf_dhcp p -> wf_fields p.
Proof.
  intros [_ _ [H1 H1'] [H2 H2'] [H3 H3']] nFlag. unfold field_of, field_len.
  destruct (nFlag =? FILE_FIELD); [by rewrite H2'|]. destruct (nFlag =? SNAME_FIELD); [by rewrite H1'|]. by rewrite H3'.
Qed.

Lemma length_dhcp_bytes p : wf_dhcp p -> length (dhcp_bytes p) = 2020%nat.
Proof.
  intros [_ [_ H0] [_ H1] [_ H2] [_ H3]]. unfold dhcp_bytes. rewrite !length_app, H0, H1, H2, H3. done.
Qed.

Lemma dhcp_bytes_u8 p : wf_dhcp p -> u8b (dhcp_bytes p).
Proof.
  intros [H [H0 _] [H1 _] [H2 _] [H3 _]]. unfold dhcp_bytes, u8b.
  repeat (apply Forall_app; split); try done; try apply le16_u8; try apply le32_u8b.
Qed.

Lemma ip_bytes_u8 i : wf_iphdr i -> u8b (ip_bytes i).
Proof.
  intros []. unfold ip_bytes, u8b. repeat (apply Forall_app; split); try apply le16_u8; try apply le32_u8b;
    unfold is_u8 in *; repeat apply Forall_cons_2; try apply Forall_nil_2; lia.
Qed.

Lemma udp_bytes_u8 u : u8b (udp_bytes u).
Proof. unfold udp_bytes, u8b. repeat (apply Forall_app; split); apply le16_u8. Qed.

Lemma w16_u16 b i : u8b b -> is_u16 (w16 b i).
Proof.
  intros Hb. unfold w16. pose proof (byte_at_is_u8 b i Hb). pose proof (byte_at_is_u8 b (i + 1) Hb).
  unfold is_u8, is_u16 in *. lia.
Qed.

Lemma w32_u32 b i : u8b b -> is_u32 (w32 b i).
Proof.
  intros Hb. assert (Hd : u8b (drop i b)) by by apply Forall_drop. unfold w32, ParseIp.
  pose proof (byte_at_is_u8 _ 0 Hd). pose proof (byte_at_is_u8 _ 1 Hd). pose proof (byte_at_is_u8 _ 2 Hd).
  pose proof (byte_at_is_u8 _ 3 Hd). unfold is_u8, is_u32 in *. lia.
Qed.

Lemma dhcp_of_bytes_wf b : u8b b -> length b = 2020%nat -> wf_dhcp (dhcp_of_bytes b).
Proof.
  intros Hb Hl. split; cbn [dhcp_of_bytes c_op c_htype c_hlen c_hops c_chaddr c_sname c_file c_options].
  - repeat constructor; by apply byte_at_is_u8.
  - split; [by apply u8b_part | apply length_part; rewrite Hl; apply Nat.leb_le; reflexivity].
  - split; [by apply u8b_part | apply length_part; rewrite Hl; apply Nat.leb_le; reflexivity].
  - split; [by apply u8b_part | apply length_part; rewrite Hl; apply Nat.leb_le; reflexivity].
  - split; [by apply u8b_part | apply length_part; rewrite Hl; apply Nat.leb_le; reflexivity].
  - repeat constructor; by apply w32_u32.
  - repeat constructor; by apply w16_u16.
Qed.

Lemma dhcp_bytes_of_bytes b : u8b b -> length b = 2020%nat -> dhcp_bytes (dhcp_of_bytes b) = b.
Proof.
  intros Hb Hl. unfold dhcp_bytes, dhcp_of_bytes.
  cbn [c_op c_htype c_hlen c_hops c_xid c_secs c_flags c_ciaddr c_yiaddr c_siaddr c_giaddr c_chaddr c_sname c_file
       c_cookie c_options].
  assert (Hle : forall n, Nat.leb n 2020 = true -> (n <= length b)%nat) by (intros n Hn; rewrite Hl; by apply Nat.leb_le).
  change ([byte_at b 0; byte_at b 1; byte_at b 2; byte_at b 3] ++ ?x) with
    ([byte_at b 0] ++ [byte_at b 1] ++ [byte_at b 2] ++ [byte_at b 3] ++ x).
  rewrite !le32_w32, !le16_w16, !byte_part by (try done; apply Hle; reflexivity).
  rewrite !app_assoc. repeat (rewrite part_join by reflexivity).
  transitivity (part b 0 (length b)); [by rewrite Hl|apply part_whole].
Qed.

(** * Sending *)

(** The pseudo header of RFC 768. *)
Definition pseudo_header (i : iphdr) (u : udphdr) : bytes :=
  le32 (i_saddr i) ++ le32 (i_daddr i) ++ [0; IPPROTO_UDP] ++ le16 (ud_len u).

Ltac even_length := apply Nat.even_spec; reflexivity.

Lemma sumw_le16 x : is_u16 x -> sumw (le16 x) = x.
Proof.
  unfold is_u16. intros. unfold le16, sumw. cbn [words foldr]. Z.to_euclidean_division_equations. lia.
Qed.

Lemma sumw_pseudo_header i u c :
  sumw (ip_bytes (mkIp 0 0 0 (ud_len u) 0 0 0 IPPROTO_UDP 0 (i_saddr i) (i_daddr i)) ++
        udp_bytes (set_udp_check 0 u) ++ c) =
  sumw (pseudo_header i u ++ udp_bytes (set_udp_check 0 u) ++ c).
Proof.
  unfold pseudo_header, ip_bytes. cbn [i_ihl i_version i_tos i_tot_len i_id i_frag_off i_ttl i_protocol i_check i_saddr i_daddr].
  rewrite <- !app_assoc. rewrite !sumw_app by even_length. change (sumw (le16 0)) with 0.
  change (sumw [0 * 2 ^ 4 + 0; 0]) with 0. lia.
Qed.

(** The sum with a checksum in place. *)
Lemma sumw_udp_check pre u c rest : Nat.Even (length pre) -> is_u16 c ->
  sumw (pre ++ udp_bytes (set_udp_check c u) ++ rest) = sumw (pre ++ udp_bytes (set_udp_check 0 u) ++ rest) + c.
Proof.
  intros Hpre Hc. unfold udp_bytes. cbn [set_udp_check ud_source ud_dest ud_len ud_check].
  rewrite (sumw_app pre), (sumw_app pre) by done. rewrite <- !app_assoc, !sumw_app by even_length.
  rewrite (sumw_le16 c) by done. change (sumw (le16 0)) with 0. lia.
Qed.

Lemma sumw_ip_check i c : is_u16 c ->
  sumw (ip_bytes (set_ip_check c i)) = sumw (ip_bytes (set_ip_check 0 i)) + c.
Proof.
  intros Hc. unfold ip_bytes.
  cbn [set_ip_check i_ihl i_version i_tos i_tot_len i_id i_frag_off i_ttl i_protocol i_check i_saddr i_daddr].
  rewrite !sumw_app by even_length. rewrite (sumw_le16 c) by done. change (sumw (le16 0)) with 0. lia.
Qed.

Lemma pseudo_header_u8 i u : u8b (pseudo_header i u).
Proof.
  unfold pseudo_header, u8b. repeat (apply Forall_app; split); try apply le16_u8; try apply le32_u8b.
  by apply all_u8.
Qed.

Lemma GetCheckSum_even junk data n : u8b data -> is_u8 junk -> 0 <= n <= Z.of_nat (length data) -> n <= 2048 ->
  Z.odd n = false -> GetCheckSum junk data n = Some (65535 - canon (sumw (take (Z.to_nat n) data))).
Proof. intros Hd Hj Hl Hm Hn. rewrite GetCheckSum_completed by done. unfold completed. by rewrite Hn, app_nil_r. Qed.

Lemma canon_check_u16 b : u8b b -> is_u16 (65535 - canon (sumw b)).
Proof. intros Hb. pose proof (canon_range (sumw b) (sumw_nonneg b Hb)). unfold is_u16. lia. Qed.

Lemma htons_u16 x : is_u16 (htons x).
Proof.
  unfold is_u16, htons. pose proof (Z.mod_pos_bound x (2 ^ 16)). unfold u16.
  Z.to_euclidean_division_equations. lia.
Qed.

(** The headers: lengths, addresses, ports, and the complements of the sums. *)
Definition filled (p : DhcpPacket) (srcIp destIp sendLen : Z) (ip : iphdr) (udp : udphdr) : Prop :=
  ip = mkIp 5 4 0 (htons sendLen) 0 0 64 17 (i_check ip) srcIp destIp /\
  i_check ip = 65535 - canon (sumw (ip_bytes (set_ip_check 0 ip))) /\
  udp = mkUdp (htons 68) (htons 67) (htons (sendLen - 20)) (ud_check udp) /\
  ud_check udp = 65535 - canon (sumw (pseudo_header ip udp ++ udp_bytes (set_udp_check 0 udp) ++ dhcp_bytes p)).

Lemma GetCheckSum_ip i : wf_iphdr i ->
  GetCheckSum 0 (ip_bytes i) sizeof_iphdr = Some (65535 - canon (sumw (ip_bytes i))).
Proof.
  intros Hi. rewrite GetCheckSum_even; [|by apply ip_bytes_u8|done|done|done|done].
  rewrite take_ge; [done|]. rewrite length_ip_bytes. unfold sizeof_iphdr. lia.
Qed.

Lemma length_udp_dhcp_bytes p : wf_dhcp (p_data p) -> Z.of_nat (length (udp_dhcp_bytes p)) = sizeof_UdpDhcpPacket.
Proof.
  intros Hp. unfold udp_dhcp_bytes. rewrite !length_app, length_ip_bytes, length_udp_bytes, length_dhcp_bytes by done.
  unfold sizeof_UdpDhcpPacket. lia.
Qed.

Lemma udp_dhcp_bytes_u8 p : wf_iphdr (p_ip p) -> wf_dhcp (p_data p) -> u8b (udp_dhcp_bytes p).
Proof.
  intros. apply u8b_app; [by apply ip_bytes_u8|]. apply u8b_app; [apply udp_bytes_u8|by apply dhcp_bytes_u8].
Qed.

Lemma GetCheckSum_packet p : wf_iphdr (p_ip p) -> wf_dhcp (p_data p) ->
  GetCheckSum 0 (udp_dhcp_bytes p) sizeof_UdpDhcpPacket = Some (65535 - canon (sumw (udp_dhcp_bytes p))).
Proof.
  intros Hi Hp. pose proof (length_udp_dhcp_bytes p Hp) as Hl.
  rewrite GetCheckSum_even; [|by apply udp_dhcp_bytes_u8|done|rewrite Hl; unfold sizeof_UdpDhcpPacket; lia|done|done].
  rewrite take_ge; [done|]. lia.
Qed.

Lemma fill_headers_spec p srcIp destIp sendLen dhcpPackLen : wf_dhcp p -> is_u32 srcIp -> is_u32 destIp ->
  8 + dhcpPackLen = sendLen - 20 ->
  exists ip udp, fill_headers p srcIp destIp sendLen dhcpPackLen = Some (mkUdpDhcp ip udp p) /\
    filled p srcIp destIp sendLen ip udp.
Proof.
  intros Hp Hsrc Hdst Hlen. unfold fill_headers, sizeof_udphdr. rewrite Hlen.
  set (len := htons (sendLen - 20)). set (udp0 := mkUdp (htons BOOTP_CLIENT) (htons BOOTP_SERVER) len 0).
  pose proof (htons_u16 (sendLen - 20)) as Hlen16. fold len in Hlen16.
  rewrite GetCheckSum_packet; [|by split|done]. rewrite bind_some. cbv beta.
  set (ip0 := mkIp (Z.shiftr sizeof_iphdr DHCP_UINT16_BYTES) IPVERSION 0 (htons sendLen) 0 0 IPDEFTTL IPPROTO_UDP 0
    srcIp destIp).
  rewrite GetCheckSum_ip by (split; cbn; try done; apply htons_u16). rewrite bind_some. cbv beta.
  pose proof (sumw_pseudo_header ip0 udp0 (dhcp_bytes p)) as Hsum.
  unfold udp_dhcp_bytes. cbn [p_ip p_udp p_data].
  remember (65535 - canon (sumw (ip_bytes ip0))) as c1 eqn:E1.
  match goal with |- context [set_udp_check ?x udp0] => remember x as c2 eqn:E2 end.
  exists (set_ip_check c1 ip0), (set_udp_check c2 udp0). split; [done|]. split; [done|].
  split; [exact E1|]. split; [done|].
  rewrite E2 at 1. apply (f_equal (fun x => 65535 - canon x)). exact Hsum.
Qed.

(** The datagram [fill_packet] lays out, for a packet whose options end at
    [endIndex]. *)
Lemma fill_packet_spec p srcIp destIp endIndex : wf_dhcp p -> is_u32 srcIp -> is_u32 destIp ->
  GetEndOptionIndex (c_options p) = Some endIndex -> 0 <= endIndex -> endIndex + 2 <= DHCP_OPT_SIZE ->
  exists ip udp, fill_packet p srcIp destIp = Some (Some (mkUdpDhcp ip udp p, 270 + endIndex)) /\
    filled p srcIp destIp (270 + endIndex) ip udp.
Proof.
  intros Hp Hsrc Hdst Hend H0 H1.
  unfold fill_packet, DHCP_APPEND_LEN, sizeof_UdpDhcpPacket, sizeof_DhcpPacket, DHCP_OPT_SIZE in *.
  rewrite Hend. rewrite bind_some. cbv beta. cbv zeta.
  rewrite !Z.gtb_ltb, (proj2 (Z.ltb_ge _ 0)), (proj2 (Z.ltb_ge 1780 _)), (proj2 (Z.leb_gt _ 0)),
    (proj2 (Z.ltb_ge 2048 _)) by lia. cbn [orb].
  replace (2048 - 1780 + (endIndex + 2)) with (270 + endIndex) by lia.
  edestruct (fill_headers_spec p srcIp destIp (270 + endIndex)) as (ip & udp & E & Hf); [done..| |].
  2:{ rewrite E. rewrite bind_some. cbv beta. eauto. }
  lia.
Qed.

(** Under [filled] both checksums verify, the bytes after the end of the options
    being zero. *)
Lemma filled_verifies p srcIp destIp sendLen ip udp payload n : wf_dhcp p -> is_u32 srcIp -> is_u32 destIp ->
  filled p srcIp destIp sendLen ip udp -> dhcp_bytes p = payload ++ zeros n ->
  verifies (ip_bytes ip) /\ verifies (pseudo_header ip udp ++ udp_bytes udp ++ payload).
Proof.
  intros Hp Hsrc Hdst (Eip & Cip & Eudp & Cudp) Ebytes.
  assert (Hip0 : wf_iphdr (set_ip_check 0 ip)) by (rewrite Eip; split; cbn; try done; apply htons_u16).
  assert (Hc1 : is_u16 (i_check ip)) by (rewrite Cip; by apply canon_check_u16, ip_bytes_u8).
  assert (Hip : wf_iphdr ip) by (rewrite Eip; split; cbn; try done; apply htons_u16).
  pose proof (dhcp_bytes_u8 p Hp) as Hpay. rewrite Ebytes in Hpay. apply Forall_app in Hpay as [Hpay _].
  set (b0 := pseudo_header ip udp ++ udp_bytes (set_udp_check 0 udp) ++ payload) in *.
  assert (Hb0 : u8b b0) by (apply u8b_app; [apply pseudo_header_u8|]; apply u8b_app; [apply udp_bytes_u8|done]).
  assert (E0 : ud_check udp = 65535 - canon (sumw b0)).
  { rewrite Cudp, Ebytes. unfold b0. rewrite !app_assoc, sumw_app_zeros. done. }
  assert (Hc2 : is_u16 (ud_check udp)) by (rewrite E0; by apply canon_check_u16).
  unfold verifies. split.
  - rewrite oc_sum_canon by by apply ip_bytes_u8.
    replace (ip_bytes ip) with (ip_bytes (set_ip_check (i_check ip) ip)) by (f_equal; by destruct ip).
    rewrite sumw_ip_check by done. rewrite Cip. by apply canon_complement, sumw_nonneg, ip_bytes_u8.
  - rewrite oc_sum_canon by (apply u8b_app; [apply pseudo_header_u8|]; apply u8b_app; [apply udp_bytes_u8|done]).
    replace (udp_bytes udp) with (udp_bytes (set_udp_check (ud_check udp) udp)) by (f_equal; by destruct udp).
    rewrite sumw_udp_check by (done || (apply Nat.even_spec; done)). fold b0. rewrite E0.
    by apply canon_complement, sumw_nonneg.
Qed.

(** A packet whose options end with the end mark, only zeros behind it. *)
Definition ends_clean (p : DhcpPacket) (ts : list tlv) : Prop :=
  exists n, c_options p = encs ts ++ END_OPTION :: zeros (S n).

(** One system call, its result known. *)
Definition fds_after (c : call) (r : Z) (fds : list Z) : list Z :=
  match c with
  | c_socket => if r =? -1 then fds else r :: fds
  | c_close fd => filter (fun x => x <> fd) fds
  | _ => fds
  end.

Lemma bind_syscall {A} c (f : Z -> M Kernel A) r rs fds cs :
  bind (syscall c) f (mkKernel (r :: rs) fds cs) = f r (mkKernel rs (fds_after c r fds) (cs ++ [c])).
Proof. done. Qed.

(** C26: A packet with its options terminated is sent as one datagram, after which
    the socket is closed: an IP header and a UDP header from port 68 to port 67
    with the right lengths, both checksums verifying by RFC 1071 and RFC 768,
    and the packet up to the byte behind its end mark. *)
Theorem SendToDhcpPacket_datagram p srcIp destIp index hw ts fd b n c k k' :
  wf_dhcp p -> is_u32 srcIp -> is_u32 destIp -> Forall wf_tlv ts -> ends_clean p ts ->
  fd <> -1 -> b <> -1 -> 0 < n -> results k = [fd; b; n; c] ++ k' ->
  exists ip udp payload,
    SendToDhcpPacket p srcIp destIp index (Some hw) k =
      Some (SOCKET_OPT_SUCCESS,
        mkKernel k' (filter (fun x => x <> fd) (fd :: open_fds k))
          (calls k ++ [c_socket; c_bind_link fd index (Some hw);
                       c_sendto fd (ip_bytes ip ++ udp_bytes udp ++ payload); c_close fd])) /\
    (exists n, dhcp_bytes p = payload ++ zeros n) /\ length payload = (242 + length (encs ts))%nat /\
    ip = mkIp 5 4 0 (htons (28 + Z.of_nat (length payload))) 0 0 64 17 (i_check ip) srcIp destIp /\
    udp = mkUdp (htons 68) (htons 67) (htons (8 + Z.of_nat (length payload))) (ud_check udp) /\
    verifies (ip_bytes ip) /\ verifies (pseudo_header ip udp ++ udp_bytes udp ++ payload).
Proof.
  intros Hp Hsrc Hdst Hts [m Eopts] Hfd Hb Hn Hk.
  destruct (wf_options p Hp) as [_ Hol].
  assert (Hend : GetEndOptionIndex (c_options p) = Some (Z.of_nat (length (encs ts)))).
  { apply GetEndOptionIndex_holds; [|done]. split; [|eauto]. rewrite Hol. unfold DHCP_OPT_SIZE. lia. }
  pose proof Hol as Hol'. rewrite Eopts, length_app in Hol'. cbn [length] in Hol'. rewrite length_zeros in Hol'.
  destruct (fill_packet_spec p srcIp destIp _ Hp Hsrc Hdst Hend) as (ip & udp & Efill & Hfilled);
    [lia|unfold DHCP_OPT_SIZE; lia|].
  set (l := (242 + length (encs ts))%nat) in *.
  assert (Ebytes : dhcp_bytes p = take l (dhcp_bytes p) ++ zeros m).
  { rewrite <- (take_drop l (dhcp_bytes p)) at 1. f_equal. unfold dhcp_bytes. rewrite Eopts.
    rewrite cons_middle. change (zeros (S m)) with ([0] ++ zeros m). rewrite !app_assoc. apply drop_app_length'.
    rewrite !length_app. destruct (wf_chaddr p Hp) as [_ ->], (wf_sname p Hp) as [_ ->], (wf_file p Hp) as [_ ->].
    unfold l. cbn [length le32 le16]. lia. }
  pose proof (length_dhcp_bytes p Hp) as Hlen.
  assert (Hl : length (take l (dhcp_bytes p)) = l) by (rewrite length_take; unfold l; lia).
  exists ip, udp, (take l (dhcp_bytes p)). rewrite Hl. split; [|split; [by eexists|split; [done|]]].
  - destruct k as [rs fds cs]. cbn [results open_fds calls] in *. subst rs.
    unfold SendToDhcpPacket, CreateRawSocket, close. rewrite !bind_assoc. cbn [app]. rewrite bind_syscall.
    rewrite (proj2 (Z.eqb_neq fd (-1)) Hfd), bind_ret. change (SOCKET_OPT_SUCCESS =? SOCKET_OPT_SUCCESS) with true.
    cbn [negb]. rewrite bind_syscall, (proj2 (Z.eqb_neq b (-1)) Hb), Efill, bind_from_option, bind_syscall.
    rewrite bind_assoc, bind_syscall. cbn [fds_after]. rewrite (proj2 (Z.eqb_neq fd (-1)) Hfd).
    rewrite (proj2 (Z.leb_gt n 0)), bind_ret by done. unfold ret. rewrite <- !app_assoc. cbn [app].
    replace (take (Z.to_nat (270 + Z.of_nat (length (encs ts)))) (udp_dhcp_bytes _))
      with (ip_bytes ip ++ udp_bytes udp ++ take l (dhcp_bytes p)); [done|].
    unfold udp_dhcp_bytes. cbn [p_ip p_udp p_data].
    replace (Z.to_nat _) with (20 + (8 + l))%nat by (unfold l; lia).
    rewrite take_app_add' by done. by rewrite take_app_add' by done.
  - destruct (filled_verifies p srcIp destIp _ ip udp _ m Hp Hsrc Hdst Hfilled Ebytes) as [V1 V2].
    destruct Hfilled as (Eip & _ & Eudp & _).
    replace (28 + Z.of_nat l) with (270 + Z.of_nat (length (encs ts))) by (unfold l; lia).
    replace (8 + Z.of_nat l) with (270 + Z.of_nat (length (encs ts)) - 20) by (unfold l; lia). done.
Qed.

(** A packet of one option. *)
Definition sample_packet : DhcpPacket := packet_with [53; 1; 1; 255] [] [].

Lemma packet_with_dhcp opts file sname : Forall is_u8 opts -> Forall is_u8 file -> Forall is_u8 sname ->
  wf_dhcp (packet_with opts file sname).
Proof.
  intros H1 H2 H3. pose proof (packet_with_wf opts file sname H1 H2 H3) as Hw.
  split; cbn [packet_with c_op c_htype c_hlen c_hops c_chaddr].
  - by apply all_u8.
  - split; [by apply all_u8|done].
  - split; [apply (Hw SNAME_FIELD)|apply length_pad].
  - split; [apply (Hw FILE_FIELD)|apply length_pad].
  - split; [apply (Hw OPTION_FIELD)|apply length_pad].
  - by repeat constructor.
  - by repeat constructor.
Qed.

Lemma SendToDhcpPacket_datagram_witness :
  exists ip udp payload,
    SendToDhcpPacket sample_packet 0 0xFFFFFFFF 3 (Some (replicate 6 255)) (mkKernel [7; 0; 272; 0] [] []) =
      Some (SOCKET_OPT_SUCCESS,
        mkKernel [] (filter (fun x => x <> 7) [7])
          [c_socket; c_bind_link 7 3 (Some (replicate 6 255));
           c_sendto 7 (ip_bytes ip ++ udp_bytes udp ++ payload); c_close 7]) /\
    length payload = 245%nat /\ verifies (ip_bytes ip).
Proof.
  destruct (SendToDhcpPacket_datagram sample_packet 0 0xFFFFFFFF 3 (replicate 6 255) [(53, [1])] 7 0 272 0
    (mkKernel [7; 0; 272; 0] [] []) []) as (ip & udp & payload & E & _ & L & _ & _ & V & _);
    [by apply packet_with_dhcp; apply all_u8 | by split | by split | | by exists 1775%nat | done | done | done | done |].
  - by repeat constructor.
  - exists ip, udp, payload. split; [exact E|]. by split.
Defined.

(** * No descriptor is lost *)

Lemma wp_syscall c (Q : Z -> Kernel -> Prop) k :
  (forall r rs cs, Q r (mkKernel rs (fds_after c r (open_fds k)) cs)) -> wp (syscall c) Q k.
Proof. intros H. unfold wp, syscall. apply H. Qed.

Lemma wp_close fd (Q : unit -> Kernel -> Prop) k :
  (forall rs cs, Q tt (mkKernel rs (filter (fun x => x <> fd) (open_fds k)) cs)) -> wp (close fd) Q k.
Proof. intros H. unfold close. apply wp_bind, wp_syscall. intros. apply wp_ret, H. Qed.

Ltac wp_call := first [apply wp_syscall; intros | apply wp_close; intros]; cbn [fds_after open_fds].

(** A failed bind has closed the socket. *)
Definition bound_or_closed (fd : Z) (fds : list Z) (r : Z) (k : Kernel) : Prop :=
  r = SOCKET_OPT_SUCCESS /\ open_fds k = fds \/
  r = SOCKET_OPT_FAILED /\ open_fds k = filter (fun x => x <> fd) fds.

Lemma BindKernelSocket_spec fd name ip port bCast k : 0 <= fd ->
  wp (BindKernelSocket fd name ip port bCast) (bound_or_closed fd (open_fds k)) k.
Proof.
  intros Hfd. unfold BindKernelSocket. rewrite (proj2 (Z.ltb_ge fd 0)) by done.
  assert (Hopt : forall wanted (Q : bool -> Kernel -> Prop) k, (forall ok rs cs, Q ok (mkKernel rs (open_fds k) cs)) ->
    wp (set_option wanted fd) Q k).
  { intros [] Q k0 H; unfold set_option; [apply wp_bind; wp_call; by apply wp_ret|apply wp_ret]. by destruct k0. }
  assert (Hclose : forall (m : Kernel), open_fds m = open_fds k ->
    wp (close fd ;; ret SOCKET_OPT_FAILED) (bound_or_closed fd (open_fds k)) m).
  { intros m Hm. apply wp_bind. wp_call. apply wp_ret. right. cbn. by rewrite Hm. }
  apply wp_if; intros _; [by apply Hclose|].
  do 4 (apply wp_bind, Hopt; intros; apply wp_if; intros _; [by apply Hclose|]).
  apply wp_bind. wp_call. apply wp_if; intros _; [by apply Hclose|]. apply wp_ret. by left.
Qed.

Lemma BindRawSocket_spec fd index hw k : 0 <= fd ->
  wp (BindRawSocket fd index hw) (bound_or_closed fd (open_fds k)) k.
Proof.
  intros Hfd. unfold BindRawSocket. rewrite (proj2 (Z.ltb_ge fd 0)) by done.
  assert (Hclose : forall (m : Kernel), open_fds m = open_fds k ->
    wp (close fd ;; ret SOCKET_OPT_FAILED) (bound_or_closed fd (open_fds k)) m).
  { intros m Hm. apply wp_bind. wp_call. apply wp_ret. right. cbn. by rewrite Hm. }
  apply wp_bind. wp_call. apply wp_if; intros _; [by apply Hclose|].
  apply wp_bind. wp_call. apply wp_if; intros _; [by apply Hclose|]. apply wp_ret. by left.
Qed.

Lemma filter_fresh (fd : Z) (fds : list Z) : fd ∉ fds -> filter (fun x => x <> fd) fds = fds.
Proof.
  intros Hf. induction fds as [|x fds IH]; [done|]. apply not_elem_of_cons in Hf as [Hx Hf].
  rewrite filter_cons_True by congruence. by rewrite IH.
Qed.

Lemma filter_opened (fd : Z) (fds : list Z) : fd ∉ fds -> filter (fun x => x <> fd) (fd :: fds) = fds.
Proof. intros Hf. rewrite filter_cons_False by auto. by apply filter_fresh. Qed.

Lemma fill_packet_defined p srcIp destIp : wf_dhcp p -> is_u32 srcIp -> is_u32 destIp ->
  is_Some (GetEndOptionIndex (c_options p)) -> is_Some (fill_packet p srcIp destIp).
Proof.
  intros Hp Hs Hd [e He]. unfold fill_packet. rewrite He, bind_some. cbv beta zeta.
  destruct (_ || _); [eauto|]. destruct (_ || _); [eauto|].
  destruct (fill_headers_spec p srcIp destIp (sizeof_UdpDhcpPacket - DHCP_OPT_SIZE + (e + DHCP_APPEND_LEN))
    (sizeof_DhcpPacket - DHCP_OPT_SIZE + (e + DHCP_APPEND_LEN)) Hp Hs Hd) as (ip & udp & E & _).
  { unfold sizeof_UdpDhcpPacket, sizeof_DhcpPacket. lia. }
  rewrite E, bind_some. eauto.
Qed.

(** Whatever the system calls return, sending a packet with terminated
    options ends with success or failure, and the open descriptors are those
    before the call: every path closes the socket it has opened, and only it. *)
Theorem send_closes_socket p srcIp destIp index hw k :
  wf_dhcp p -> is_u32 srcIp -> is_u32 destIp -> is_Some (GetEndOptionIndex (c_options p)) ->
  (forall fd, head (results k) = Some fd -> fd = -1 \/ 0 <= fd /\ fd ∉ open_fds k) ->
  let Q := fun r k' => (r = SOCKET_OPT_SUCCESS \/ r = SOCKET_OPT_FAILED) /\ open_fds k' = open_fds k in
  wp (SendToDhcpPacket p srcIp destIp index hw) Q k /\ wp (SendDhcpPacket p srcIp destIp) Q k.
Proof.
  intros Hp Hs Hd Hend Hfresh Q.
  assert (Hopen : forall (Q' : Z -> Kernel -> Prop), (forall rs cs, Q' (-1) (mkKernel rs (open_fds k) cs)) ->
    (forall fd rs cs, 0 <= fd -> fd ∉ open_fds k -> Q' fd (mkKernel rs (fd :: open_fds k) cs)) -> wp (syscall c_socket) Q' k).
  { intros Q' H0 H1. unfold wp, syscall. destruct (results k) as [|r rs]; [apply H0|]. cbn [head default] in *.
    cbn. destruct (Hfresh r eq_refl) as [-> | [Hr Hn]]; [apply H0|].
    rewrite (proj2 (Z.eqb_neq r (-1))) by lia. by apply H1. }
  assert (Hclose : forall fd r (m : Kernel), fd ∉ open_fds k -> open_fds m = fd :: open_fds k ->
    (r = SOCKET_OPT_SUCCESS \/ r = SOCKET_OPT_FAILED) -> wp (close fd ;; ret r) Q m).
  { intros fd r m Hfd Hm Hr. apply wp_bind. wp_call. apply wp_ret. split; [done|]. cbn. rewrite Hm. by apply filter_opened. }
  assert (Hres : forall n, (if n <=? 0 then SOCKET_OPT_FAILED else SOCKET_OPT_SUCCESS) = SOCKET_OPT_SUCCESS \/
    (if n <=? 0 then SOCKET_OPT_FAILED else SOCKET_OPT_SUCCESS) = SOCKET_OPT_FAILED) by (intros n; destruct (n <=? 0); auto).
  destruct (fill_packet_defined p srcIp destIp Hp Hs Hd Hend) as [o Ho]. destruct Hend as [e He]. split.
  - unfold SendToDhcpPacket, CreateRawSocket. destruct hw; [|apply wp_ret; by split; [right|]].
    apply wp_bind, wp_bind, Hopen; intros; cbn [Z.eqb]; [apply wp_ret; by split; [right|]|].
    rewrite (proj2 (Z.eqb_neq fd (-1))) by lia. apply wp_ret. cbn [Z.eqb SOCKET_OPT_SUCCESS negb].
    apply wp_bind. wp_call. apply wp_if; intros _; [apply Hclose; auto|].
    apply wp_bind, wp_from_option. exists o. split; [done|]. destruct o as [[pkt len]|]; [|apply Hclose; auto].
    apply wp_bind. wp_call. apply Hclose; auto.
  - unfold SendDhcpPacket, CreateKernelSocket.
    apply wp_bind, wp_bind, Hopen; intros; cbn [Z.eqb]; [apply wp_ret; by split; [right|]|].
    rewrite (proj2 (Z.eqb_neq fd (-1))) by lia. apply wp_ret. cbn [Z.eqb SOCKET_OPT_SUCCESS negb default].
    apply wp_bind. eapply wp_mono; [by apply BindKernelSocket_spec|]. intros r k1 [[-> E1] | [-> E1]]; cbn.
    2:{ split; [by right|]. rewrite E1. by apply filter_opened. }
    apply wp_bind. wp_call. apply wp_if; intros _; [apply Hclose; auto|].
    apply wp_bind, wp_from_option. exists e. split; [done|]. apply wp_if; intros _; [apply Hclose; auto|].
    cbv zeta. apply wp_if; intros _; [apply Hclose; auto|]. apply wp_bind. wp_call. apply Hclose; auto.
Qed.

Lemma send_closes_socket_witness :
  let k := mkKernel [7; 0; -1] [3] [] in
  let Q := fun r k' => (r = SOCKET_OPT_SUCCESS \/ r = SOCKET_OPT_FAILED) /\ open_fds k' = open_fds k in
  wp (SendToDhcpPacket sample_packet 0 0xFFFFFFFF 3 None) Q k /\ wp (SendDhcpPacket sample_packet 0 0xFFFFFFFF) Q k.
Proof.
  apply send_closes_socket.
  - by apply packet_with_dhcp; apply all_u8.
  - by split.
  - by split.
  - by exists 3.
  - intros fd [= <-]. right. split; [done|]. by intros ?%list_elem_of_singleton.
Defined.

(** * Receiving *)

Lemma ip_of_bytes_wf b : u8b b -> wf_iphdr (ip_of_bytes b).
Proof.
  intros Hb. pose proof (byte_at_is_u8 b 0 Hb) as H0. unfold is_u8 in H0.
  split; cbn [ip_of_bytes i_ihl i_version i_tos i_tot_len i_id i_frag_off i_ttl i_protocol i_check i_saddr i_daddr];
    auto using w16_u16, w32_u32, byte_at_is_u8.
  - apply Z.mod_pos_bound. lia.
  - Z.to_euclidean_division_equations. lia.
Qed.

Lemma set_ip_check_wf i c : wf_iphdr i -> is_u16 c -> wf_iphdr (set_ip_check c i).
Proof. intros [] ?. by split. Qed.

Lemma htons_involutive x : is_u16 x -> htons (htons x) = x.
Proof.
  intros Hx. unfold htons, u16, is_u16 in *. rewrite (Z.mod_small x) by done.
  rewrite Z.mod_small by (Z.to_euclidean_division_equations; lia). Z.to_euclidean_division_equations. lia.
Qed.

(** The outcome of [read] in the zeroed structure. *)
Lemma read_into_zeros d n : u8b d -> 0 <= n ->
  let '(count, area) := read_into (Some d) (zeros (Z.to_nat n)) n in
  count = Z.of_nat (length (take (Z.to_nat n) d)) /\ length area = Z.to_nat n /\ u8b area /\
  area = take (Z.to_nat n) d ++ zeros (Z.to_nat n - length (take (Z.to_nat n) d)).
Proof.
  intros Hd Hn. unfold read_into. split_and!; [done| | |].
  - rewrite length_app, length_drop, length_zeros, length_take. lia.
  - apply u8b_app; [by apply Forall_take|]. apply Forall_drop, Forall_replicate. done.
  - unfold zeros. by rewrite drop_replicate.
Qed.

(** The tests on a packet whose IP header is [i]. *)
Lemma CheckUdpPacket_ok pkt n : CheckUdpPacket pkt n = SOCKET_OPT_SUCCESS -> n <= sizeof_UdpDhcpPacket.
Proof. unfold CheckUdpPacket. rewrite Z.gtb_ltb. by destruct (Z.ltb_spec sizeof_UdpDhcpPacket n). Qed.

Lemma CheckPacketIpSum_spec pkt n : wf_iphdr (p_ip pkt) ->
  CheckPacketIpSum pkt n = Some
    (if negb (CheckUdpPacket pkt n =? SOCKET_OPT_SUCCESS) then (SOCKET_OPT_FAILED, pkt)
     else
       let pkt' := mkUdpDhcp (set_ip_check 0 (p_ip pkt)) (p_udp pkt) (p_data pkt) in
       if negb (i_check (p_ip pkt) =? 65535 - canon (sumw (ip_bytes (set_ip_check 0 (p_ip pkt)))))
       then (SOCKET_OPT_ERROR, pkt') else (SOCKET_OPT_SUCCESS, pkt')).
Proof.
  intros Hi. unfold CheckPacketIpSum. destruct (negb _); [done|]. cbv zeta. cbn [p_ip].
  rewrite GetCheckSum_ip by by apply set_ip_check_wf. rewrite bind_some. cbv beta. by destruct (negb _).
Qed.

Lemma CheckPacketUdpSum_spec junk pkt n : is_u32 (i_saddr (p_ip pkt)) -> is_u32 (i_daddr (p_ip pkt)) ->
  is_u16 (ud_len (p_udp pkt)) -> wf_dhcp (p_data pkt) -> is_u8 junk -> 0 <= n <= sizeof_UdpDhcpPacket ->
  let pkt' := mkUdpDhcp (mkIp 0 0 0 (ud_len (p_udp pkt)) 0 0 0 IPPROTO_UDP 0 (i_saddr (p_ip pkt)) (i_daddr (p_ip pkt)))
    (set_udp_check 0 (p_udp pkt)) (p_data pkt) in
  CheckPacketUdpSum junk pkt n = Some
    (if truthy (ud_check (p_udp pkt)) &&
        negb (ud_check (p_udp pkt) =? 65535 - canon (sumw (completed junk (udp_dhcp_bytes pkt') n)))
     then SOCKET_OPT_FAILED else SOCKET_OPT_SUCCESS, pkt').
Proof.
  intros Hs Hd Hl Hp Hj Hn pkt'. unfold CheckPacketUdpSum. cbv zeta. cbn [set_udp_check ud_len].
  change (mkUdp _ _ _ 0) with (set_udp_check 0 (p_udp pkt)). fold pkt'.
  rewrite GetCheckSum_completed.
  - rewrite bind_some. cbv beta. by destruct (_ && _).
  - apply udp_dhcp_bytes_u8; [by split|done].
  - done.
  - by rewrite length_udp_dhcp_bytes.
  - apply Hn.
Qed.

Lemma memcpy_packet_wf to from count : wf_dhcp to -> wf_dhcp from -> 0 <= count ->
  let '(ok, area) := memcpy_s (dhcp_bytes to) sizeof_DhcpPacket (dhcp_bytes from) count in
  wf_dhcp (dhcp_of_bytes area) /\ (ok = true -> count <= sizeof_DhcpPacket).
Proof.
  intros Ht Hf Hc. pose proof (length_dhcp_bytes _ Ht). pose proof (length_dhcp_bytes _ Hf).
  pose proof (dhcp_bytes_u8 _ Ht). pose proof (dhcp_bytes_u8 _ Hf). unfold memcpy_s.
  destruct (Z.leb_spec count sizeof_DhcpPacket); (split; [apply dhcp_of_bytes_wf|done]);
    unfold sizeof_DhcpPacket in *.
  - apply u8b_app; [by apply Forall_take|by apply Forall_drop].
  - rewrite length_app, length_take, length_drop. lia.
  - apply u8b_app; [by apply Forall_replicate|by apply Forall_drop].
  - rewrite length_app, length_zeros, length_drop. lia.
Qed.

Lemma GetDhcpRawPacket_spec junk getPacket received :
  wf_dhcp getPacket -> is_u8 junk -> (forall d, received = Some d -> u8b d) ->
  exists r packet, GetDhcpRawPacket junk getPacket received = Some (r, packet) /\ wf_dhcp packet /\
    (r = SOCKET_OPT_FAILED \/ r = SOCKET_OPT_ERROR \/
     0 <= r <= sizeof_DhcpPacket /\ ntohl (c_cookie packet) = MAGIC_COOKIE).
Proof.
  intros Hget Hj Hd. unfold GetDhcpRawPacket. destruct received as [d|].
  2:{ cbn [read_into]. change (negb (CheckReadBytes (-1) _ =? SOCKET_OPT_SUCCESS)) with true. cbv iota.
      eexists _, _. split; [reflexivity|]. by auto. }
  pose proof (read_into_zeros d sizeof_UdpDhcpPacket (Hd d eq_refl) ltac:(by unfold sizeof_UdpDhcpPacket)) as Hread.
  destruct (read_into _ _ _) as [count area]. destruct Hread as (Ecount & Harea & Ha & _). cbv zeta.
  assert (HnRet : forall c t, CheckReadBytes c t = SOCKET_OPT_SUCCESS \/ CheckReadBytes c t = SOCKET_OPT_FAILED \/
    CheckReadBytes c t = SOCKET_OPT_ERROR).
  { intros c t. unfold CheckReadBytes. repeat destruct (_ <? _); auto. }
  set (pkt := udp_dhcp_of_bytes area). set (n := ntohs (i_tot_len (p_ip pkt))).
  assert (Hip : wf_iphdr (p_ip pkt)) by by apply ip_of_bytes_wf.
  assert (Hdata : wf_dhcp (p_data pkt)).
  { apply dhcp_of_bytes_wf; [by apply Forall_drop|]. rewrite length_drop, Harea. unfold sizeof_UdpDhcpPacket. lia. }
  destruct (CheckReadBytes count n =? SOCKET_OPT_SUCCESS) eqn:Eread; cbn [negb].
  2:{ eexists _, _. split; [reflexivity|]. split; [done|]. apply Z.eqb_neq in Eread. specialize (HnRet count n). tauto. }
  rewrite CheckPacketIpSum_spec by done. destruct (CheckUdpPacket pkt n =? SOCKET_OPT_SUCCESS) eqn:Eudp; cbn [negb];
    rewrite bind_some; cbv beta zeta iota; [|eexists _, _; split; [reflexivity|]; by auto].
  apply Z.eqb_eq, CheckUdpPacket_ok in Eudp. pose proof (htons_u16 (i_tot_len (p_ip pkt))) as Hn.
  change (htons (i_tot_len (p_ip pkt))) with n in Hn. unfold is_u16 in Hn.
  destruct (negb (i_check (p_ip pkt) =? _)); [eexists _, _; split; [reflexivity|]; by auto|].
  change (negb (SOCKET_OPT_SUCCESS =? SOCKET_OPT_SUCCESS)) with false. cbv iota.
  rewrite CheckPacketUdpSum_spec; cbn [p_ip p_udp p_data set_ip_check i_saddr i_daddr];
    [|apply Hip|apply Hip|by apply w16_u16, Forall_drop|done|done|lia]. rewrite bind_some. cbv beta iota.
  destruct (_ && _); [eexists _, _; split; [reflexivity|]; by auto|].
  change (negb (SOCKET_OPT_SUCCESS =? SOCKET_OPT_SUCCESS)) with false. cbv iota. cbn [p_data].
  set (len := n - (sizeof_iphdr + sizeof_udphdr)). pose proof (u64_range len) as Hlen. unfold is_u64 in Hlen.
  pose proof (memcpy_packet_wf getPacket (p_data pkt) (u64 len) Hget Hdata ltac:(lia)) as Hwf.
  destruct (memcpy_s _ _ _ _) as [ok area'] eqn:Ecopy. destruct Hwf as [Hwf Hok].
  destruct ok; cbn [negb]; [|eexists _, _; split; [reflexivity|]; by auto].
  destruct (ntohl (c_cookie (dhcp_of_bytes area')) =? MAGIC_COOKIE) eqn:Ec; cbn [negb];
    eexists _, _; (split; [reflexivity|]); [|by auto]. split; [done|]. right. right.
  split; [|by apply Z.eqb_eq]. specialize (Hok eq_refl).
  unfold len, sizeof_DhcpPacket, sizeof_UdpDhcpPacket, sizeof_iphdr, sizeof_udphdr, u64 in *.
  destruct (Z.lt_ge_cases (n - (20 + 8)) 0); [|rewrite Z.mod_small in Hok; lia].
  rewrite <- (Z.mod_add _ 1), Z.mod_small in Hok by lia. lia.
Qed.

(** Receiving is safe for every datagram, truncated or longer than the
    structure, and whatever its header lengths say: the checksums read inside
    the structure, the copy stays inside [*getPacket], and the result is an
    error or a length of at most 2020 with the magic cookie in place. *)
Theorem GetDhcpRawPacket_safe junk getPacket received :
  wf_dhcp getPacket -> is_u8 junk -> (forall d, received = Some d -> u8b d) ->
  exists r packet, GetDhcpRawPacket junk getPacket received = Some (r, packet) /\ wf_dhcp packet /\
    (r = SOCKET_OPT_FAILED \/ r = SOCKET_OPT_ERROR \/
     0 <= r <= sizeof_DhcpPacket /\ ntohl (c_cookie packet) = MAGIC_COOKIE).
Proof. apply GetDhcpRawPacket_spec. Qed.

Lemma GetDhcpRawPacket_safe_witness :
  let getPacket := packet_with [] [] [] in
  exists r packet, GetDhcpRawPacket 9 getPacket (Some [0x45; 0; 0xff; 0xff]) = Some (r, packet) /\ wf_dhcp packet /\
    (r = SOCKET_OPT_FAILED \/ r = SOCKET_OPT_ERROR \/
     0 <= r <= sizeof_DhcpPacket /\ ntohl (c_cookie packet) = MAGIC_COOKIE).
Proof.
  apply GetDhcpRawPacket_safe; [by apply packet_with_dhcp; apply all_u8 | by split|].
  intros d [= <-]. by apply all_u8.
Defined.

(** The datagrams the client is to accept: a UDP datagram to port 68 in an IP
    packet without options, its lengths consistent, the header checksum right,
    and the UDP checksum either absent or as a sender computes it. *)
Record for_client (i : iphdr) (u : udphdr) (payload : bytes) : Prop := {
  fc_ip : wf_iphdr i; fc_udp : wf_udphdr u; fc_payload : u8b payload;
  fc_header : i_version i = 4 /\ i_ihl i = 5 /\ i_protocol i = 17 /\ ud_dest u = htons 68;
  fc_tot_len : i_tot_len i = htons (28 + Z.of_nat (length payload));
  fc_len : ud_len u = htons (8 + Z.of_nat (length payload));
  fc_size : Z.of_nat (length payload) <= 2020;
  fc_check : i_check i = 65535 - oc_sum (ip_bytes (set_ip_check 0 i));
  fc_udp_check : ud_check u = 0 \/
    ud_check u = 65535 - oc_sum (pseudo_header i u ++ udp_bytes (set_udp_check 0 u) ++ payload);
  fc_cookie : ntohl (w32 payload 236) = MAGIC_COOKIE /\ 240 <= Z.of_nat (length payload)
}.

Lemma take_app_exact {A} (l r : list A) n : length l = n -> take n (l ++ r) = l.
Proof. intros <-. apply take_app_length. Qed.

Lemma w32_app a r i : (i + 4 <= length a)%nat -> w32 (a ++ r) i = w32 a i.
Proof.
  intros Hi. unfold w32, ParseIp, byte_at. rewrite drop_app_le by lia.
  rewrite !List.app_nth1 by (rewrite length_drop; lia). done.
Qed.

(** What [read] leaves: the headers, the payload, and other bytes. *)
Lemma read_datagram i u payload trailer : for_client i u payload -> u8b trailer ->
  exists rest, length rest = (2020 - length payload)%nat /\ u8b rest /\
    let '(count, area) := read_into (Some (ip_bytes i ++ udp_bytes u ++ payload ++ trailer))
                            (zeros (Z.to_nat sizeof_UdpDhcpPacket)) sizeof_UdpDhcpPacket in
    area = ip_bytes i ++ udp_bytes u ++ payload ++ rest /\ 28 + Z.of_nat (length payload) <= count.
Proof.
  intros [] Ht. set (d := ip_bytes i ++ udp_bytes u ++ payload ++ trailer).
  assert (Hd : u8b d) by (apply u8b_app; [by apply ip_bytes_u8|]; apply u8b_app; [apply udp_bytes_u8|]; by apply u8b_app).
  pose proof (read_into_zeros d sizeof_UdpDhcpPacket Hd ltac:(done)) as Hread.
  destruct (read_into _ _ _) as [count area]. destruct Hread as (Ec & Hl & Ha & Earea).
  set (n := Z.to_nat sizeof_UdpDhcpPacket) in *. set (z := zeros _) in Earea.
  assert (Hn : n = (20 + (8 + (length payload + (2020 - length payload))))%nat) by (unfold n, sizeof_UdpDhcpPacket; lia).
  assert (Ed : take n d = ip_bytes i ++ udp_bytes u ++ payload ++ take (2020 - length payload) trailer).
  { unfold d. rewrite Hn, take_app_add' by done. by rewrite take_app_add', take_app_add. }
  assert (E : area = ip_bytes i ++ udp_bytes u ++ payload ++ (take (2020 - length payload) trailer ++ z)).
  { rewrite Earea, Ed. by rewrite <- !app_assoc. }
  exists (take (2020 - length payload) trailer ++ z). split.
  - rewrite E, !length_app, length_ip_bytes, length_udp_bytes in Hl. rewrite length_app in *. lia.
  - split.
    + rewrite E in Ha. apply Forall_app in Ha as [_ Ha]. apply Forall_app in Ha as [_ Ha]. by apply Forall_app in Ha as [_ Ha].
    + split; [done|]. rewrite Ec, Ed, !length_app, length_ip_bytes, length_udp_bytes. lia.
Qed.

Section Accept.
Context (junk : Z) (i : iphdr) (u : udphdr) (payload rest : bytes).
Context (Hfc : for_client i u payload) (Hj : is_u8 junk).
Context (Hrest : length rest = (2020 - length payload)%nat) (Hr8 : u8b rest).

Let n : Z := Z.of_nat (length payload).
Let data : DhcpPacket := dhcp_of_bytes (payload ++ rest).

Lemma received_length : length (payload ++ rest) = 2020%nat.
Proof. rewrite length_app. destruct Hfc. lia. Qed.

Lemma received_u8 : u8b (payload ++ rest).
Proof. apply u8b_app; [apply Hfc|done]. Qed.

Lemma received_packet : udp_dhcp_of_bytes (ip_bytes i ++ udp_bytes u ++ payload ++ rest) = mkUdpDhcp i u data.
Proof.
  unfold udp_dhcp_of_bytes. rewrite ip_of_bytes_ip_bytes by apply Hfc.
  rewrite (drop_app_length' (ip_bytes i)) by done. rewrite udp_of_bytes_udp_bytes by apply Hfc.
  rewrite app_assoc, drop_app_length' by done. done.
Qed.

Lemma received_tot_len : ntohs (i_tot_len i) = 28 + n.
Proof. destruct Hfc. rewrite fc_tot_len0. apply htons_involutive. unfold is_u16. lia. Qed.

Lemma received_headers : CheckUdpPacket (mkUdpDhcp i u data) (28 + n) = SOCKET_OPT_SUCCESS.
Proof.
  destruct Hfc as [_ _ _ (Ev & Ei & Ep & Edest) _ Elen Hs _ _ _]. fold n in Elen, Hs.
  unfold CheckUdpPacket. cbn [p_ip p_udp p_data]. rewrite Ev, Ei, Ep, Edest.
  rewrite Z.gtb_ltb, (proj2 (Z.ltb_ge _ _)) by (unfold sizeof_UdpDhcpPacket; lia).
  rewrite Elen. unfold ntohs. rewrite htons_involutive by (unfold is_u16; lia).
  unfold u16, sizeof_iphdr. rewrite Z.mod_small by lia. replace (28 + n - 20) with (8 + n) by lia.
  by rewrite !Z.eqb_refl.
Qed.

Lemma received_ip_sum :
  CheckPacketIpSum (mkUdpDhcp i u data) (28 + n) = Some (SOCKET_OPT_SUCCESS, mkUdpDhcp (set_ip_check 0 i) u data).
Proof.
  assert (Hsi : wf_iphdr (set_ip_check 0 i)) by by apply set_ip_check_wf; [apply Hfc|].
  rewrite CheckPacketIpSum_spec by apply Hfc. rewrite received_headers. cbn [p_ip p_udp p_data].
  change (negb (SOCKET_OPT_SUCCESS =? SOCKET_OPT_SUCCESS)) with false. cbv zeta iota.
  rewrite (fc_check _ _ _ Hfc), oc_sum_canon by by apply ip_bytes_u8. by rewrite Z.eqb_refl.
Qed.

(** The bytes summed are those of the sender. *)
Lemma received_sum ip' : Nat.Even (length payload) ->
  completed junk (udp_dhcp_bytes (mkUdpDhcp ip' (set_udp_check 0 u) data)) (28 + n) =
  ip_bytes ip' ++ udp_bytes (set_udp_check 0 u) ++ payload.
Proof.
  intros [m Hm]. unfold completed, udp_dhcp_bytes. cbn [p_ip p_udp p_data].
  unfold data. rewrite dhcp_bytes_of_bytes by (apply received_u8 || apply received_length).
  assert (Z.odd (28 + n) = false) as ->.
  { unfold n. rewrite Hm. replace (28 + Z.of_nat (2 * m)) with (2 * (14 + Z.of_nat m)) by lia. by rewrite Z.odd_mul. }
  rewrite app_nil_r. replace (Z.to_nat (28 + n)) with (20 + (8 + length payload))%nat by (unfold n; lia).
  rewrite take_app_add' by done. by rewrite take_app_add', take_app_exact by done.
Qed.

Lemma received_udp_sum : ud_check u = 0 \/ Nat.Even (length payload) ->
  exists pkt, CheckPacketUdpSum junk (mkUdpDhcp (set_ip_check 0 i) u data) (28 + n) = Some (SOCKET_OPT_SUCCESS, pkt) /\
    p_data pkt = data.
Proof.
  intros Heven. destruct Hfc as [Hip Hudp Hpay _ _ _ Hs _ Echeck _]. fold n in Hs.
  rewrite CheckPacketUdpSum_spec; cbn [p_ip p_udp p_data set_ip_check i_saddr i_daddr];
    [|apply Hip|apply Hip|apply Hudp|apply dhcp_of_bytes_wf; [apply received_u8|apply received_length]
     |done|unfold sizeof_UdpDhcpPacket; lia].
  destruct (truthy (ud_check u)) eqn:Etr; cbn [andb]; [|by eexists].
  destruct Echeck as [E0|E0]; [by rewrite E0 in Etr|]. destruct Heven as [E1|Heven]; [by rewrite E1 in Etr|].
  rewrite received_sum, sumw_pseudo_header by done.
  rewrite oc_sum_canon in E0; [rewrite <- E0, Z.eqb_refl; by eexists|].
  apply u8b_app; [apply pseudo_header_u8|]. by apply u8b_app; [apply udp_bytes_u8|].
Qed.

Lemma copy_payload getPacket : wf_dhcp getPacket ->
  exists area, memcpy_s (dhcp_bytes getPacket) sizeof_DhcpPacket (dhcp_bytes data) (u64 (28 + n - (sizeof_iphdr + sizeof_udphdr))) =
    (true, area) /\ ntohl (c_cookie (dhcp_of_bytes area)) = MAGIC_COOKIE /\
    dhcp_bytes (dhcp_of_bytes area) = payload ++ drop (length payload) (dhcp_bytes getPacket).
Proof.
  intros Hget. destruct Hfc as [_ _ Hpay _ _ _ Hs _ _ [Hc Hmin]]. fold n in Hs, Hmin.
  unfold sizeof_iphdr, sizeof_udphdr. replace (28 + n - (20 + 8)) with n by lia.
  rewrite u64_small by (unfold is_u64; lia). unfold memcpy_s, sizeof_DhcpPacket.
  rewrite (proj2 (Z.leb_le _ _)) by done. unfold data.
  rewrite dhcp_bytes_of_bytes by (apply received_u8 || apply received_length).
  unfold n. rewrite Nat2Z.id, take_app_length. eexists. split; [done|].
  pose proof (length_dhcp_bytes _ Hget). pose proof (dhcp_bytes_u8 _ Hget).
  split.
  - cbn [dhcp_of_bytes c_cookie]. rewrite w32_app; [done|]. unfold n in Hmin. lia.
  - apply dhcp_bytes_of_bytes; [apply u8b_app; [done|by apply Forall_drop]|].
    rewrite length_app, length_drop. lia.
Qed.
End Accept.


(** A datagram from 192.168.1.1 to 192.168.1.2 with an ACK, [extra] behind it. *)
Definition sample_payload (extra : bytes) : bytes := zeros 236 ++ [0x63; 0x82; 0x53; 0x63; 53; 1; 5; 255] ++ extra.
Definition sample_ip (payload : bytes) : iphdr :=
  let i := mkIp 5 4 0 (htons (28 + Z.of_nat (length payload))) 0 0 64 17 0 0x0101a8c0 0x0201a8c0 in
  set_ip_check (65535 - oc_sum (ip_bytes i)) i.
Definition sample_udp (payload : bytes) : udphdr :=
  let u := mkUdp (htons 67) (htons 68) (htons (8 + Z.of_nat (length payload))) 0 in
  set_udp_check (65535 - oc_sum (pseudo_header (sample_ip payload) u ++ udp_bytes u ++ payload)) u.
Definition sample_datagram (payload : bytes) : bytes :=
  ip_bytes (sample_ip payload) ++ udp_bytes (sample_udp payload) ++ payload.


(** The result without the packet. *)
Definition verdict (junk : Z) (d : bytes) : option Z := fst <$> GetDhcpRawPacket junk (packet_with [] [] []) (Some d).

(** Two ways in which a correct datagram is refused.  The byte that completes
    an odd length is read from an uninitialised variable, so a datagram of odd
    length with a correct checksum is received or refused by chance.  And a
    checksum that computes to zero, which senders transmit as all ones, is
    compared with zero and refused. *)
Theorem correct_datagram_refused :
  let d1 := sample_datagram (sample_payload [7]) in
  let payload := sample_payload [0x88; 0x31] in
  let d2 := ip_bytes (sample_ip payload) ++ udp_bytes (set_udp_check 0xffff (sample_udp payload)) ++ payload in
  (verdict 0 d1 = Some 245 /\ verdict 1 d1 = Some SOCKET_OPT_FAILED) /\
  ud_check (sample_udp payload) = 0 /\
  verifies (pseudo_header (sample_ip payload) (sample_udp payload) ++ udp_bytes (set_udp_check 0xffff (sample_udp payload)) ++ payload) /\
  forall junk, verdict junk d2 = Some SOCKET_OPT_FAILED.
Proof. cbv zeta. split; [by split; vm_compute|]. split; [by vm_compute|]. split; [by vm_compute|]. intros junk. by vm_compute. Qed.
