(* ===== verification/ResultStore.v ===== *)
(** The results of the client and their store
    (src/services/dhcp_client/src/dhcp_result_store_manager.cpp and
    dhcp_result.cpp): the addresses obtained so far, one per access point, kept
    in a text file of sections.

    The members of the store are [Store]; the file system is a map from paths to
    contents.  A [char] array that holds a string is the string; what an
    uninitialised array holds is a parameter ([item0], the local variable of
    LoadAllIpCached).  The lock is left out: every operation holds it for its
    whole body. *)
From S2P Require Import Prelude AddressUtils CommonUtil ClientOptions.

#[local] Arguments str : simpl never.

Definition MAC_ADDR_SIZE : Z := 17.
Definition MAX_DHCP_CACHE : Z := 50.
Definition INET_ADDRSTRLEN : Z := 16.
Definition DHCP_E_FAILED : Z := 1.
Definition DHCP_CACHE_FILE : bytes := str "/data/service/el1/public/dhcp/dhcp_cache.conf".

Definition PUBLISH_CODE_SUCCESS : Z := 0.
Definition PUBLISH_CODE_FAILED : Z := -1.
Definition PUBLISH_CODE_TIMEOUT : Z := -2.
Definition PUBLISH_CODE_EXPIRED : Z := -3.
Definition PUBLISH_DHCP_OFFER_REPORT : Z := -4.

Record DhcpIpResult := mkResult {
  code : Z; ifname : bytes; uAddTime : Z; uOptLeasetime : Z;
  strYiaddr : bytes; strOptServerId : bytes; strOptSubnet : bytes;
  strOptDns1 : bytes; strOptDns2 : bytes; strOptRouter1 : bytes; strOptRouter2 : bytes;
  strOptVendor : bytes; dnsAddr : list bytes
}.

Record IpInfoCached := mkCached {
  bssid : bytes; ssid : bytes; absoluteLeasetime : Z; ipResult : DhcpIpResult
}.

(** Assignments to fields. *)
Definition set_code v r := mkResult v (ifname r) (uAddTime r) (uOptLeasetime r) (strYiaddr r) (strOptServerId r)
  (strOptSubnet r) (strOptDns1 r) (strOptDns2 r) (strOptRouter1 r) (strOptRouter2 r) (strOptVendor r) (dnsAddr r).
Definition set_ifname v r := mkResult (code r) v (uAddTime r) (uOptLeasetime r) (strYiaddr r) (strOptServerId r)
  (strOptSubnet r) (strOptDns1 r) (strOptDns2 r) (strOptRouter1 r) (strOptRouter2 r) (strOptVendor r) (dnsAddr r).
Definition set_uAddTime v r := mkResult (code r) (ifname r) v (uOptLeasetime r) (strYiaddr r) (strOptServerId r)
  (strOptSubnet r) (strOptDns1 r) (strOptDns2 r) (strOptRouter1 r) (strOptRouter2 r) (strOptVendor r) (dnsAddr r).
Definition set_uOptLeasetime v r := mkResult (code r) (ifname r) (uAddTime r) v (strYiaddr r) (strOptServerId r)
  (strOptSubnet r) (strOptDns1 r) (strOptDns2 r) (strOptRouter1 r) (strOptRouter2 r) (strOptVendor r) (dnsAddr r).
Definition set_strYiaddr v r := mkResult (code r) (ifname r) (uAddTime r) (uOptLeasetime r) v (strOptServerId r)
  (strOptSubnet r) (strOptDns1 r) (strOptDns2 r) (strOptRouter1 r) (strOptRouter2 r) (strOptVendor r) (dnsAddr r).
Definition set_strOptServerId v r := mkResult (code r) (ifname r) (uAddTime r) (uOptLeasetime r) (strYiaddr r) v
  (strOptSubnet r) (strOptDns1 r) (strOptDns2 r) (strOptRouter1 r) (strOptRouter2 r) (strOptVendor r) (dnsAddr r).
Definition set_strOptSubnet v r := mkResult (code r) (ifname r) (uAddTime r) (uOptLeasetime r) (strYiaddr r)
  (strOptServerId r) v (strOptDns1 r) (strOptDns2 r) (strOptRouter1 r) (strOptRouter2 r) (strOptVendor r) (dnsAddr r).
Definition set_strOptDns1 v r := mkResult (code r) (ifname r) (uAddTime r) (uOptLeasetime r) (strYiaddr r)
  (strOptServerId r) (strOptSubnet r) v (strOptDns2 r) (strOptRouter1 r) (strOptRouter2 r) (strOptVendor r) (dnsAddr r).
Definition set_strOptDns2 v r := mkResult (code r) (ifname r) (uAddTime r) (uOptLeasetime r) (strYiaddr r)
  (strOptServerId r) (strOptSubnet r) (strOptDns1 r) v (strOptRouter1 r) (strOptRouter2 r) (strOptVendor r) (dnsAddr r).
Definition set_strOptRouter1 v r := mkResult (code r) (ifname r) (uAddTime r) (uOptLeasetime r) (strYiaddr r)
  (strOptServerId r) (strOptSubnet r) (strOptDns1 r) (strOptDns2 r) v (strOptRouter2 r) (strOptVendor r) (dnsAddr r).
Definition set_strOptRouter2 v r := mkResult (code r) (ifname r) (uAddTime r) (uOptLeasetime r) (strYiaddr r)
  (strOptServerId r) (strOptSubnet r) (strOptDns1 r) (strOptDns2 r) (strOptRouter1 r) v (strOptVendor r) (dnsAddr r).
Definition set_strOptVendor v r := mkResult (code r) (ifname r) (uAddTime r) (uOptLeasetime r) (strYiaddr r)
  (strOptServerId r) (strOptSubnet r) (strOptDns1 r) (strOptDns2 r) (strOptRouter1 r) (strOptRouter2 r) v (dnsAddr r).
Definition set_dnsAddr v r := mkResult (code r) (ifname r) (uAddTime r) (uOptLeasetime r) (strYiaddr r)
  (strOptServerId r) (strOptSubnet r) (strOptDns1 r) (strOptDns2 r) (strOptRouter1 r) (strOptRouter2 r) (strOptVendor r) v.

Definition set_bssid v i := mkCached v (ssid i) (absoluteLeasetime i) (ipResult i).
Definition set_ssid v i := mkCached (bssid i) v (absoluteLeasetime i) (ipResult i).
Definition set_absoluteLeasetime v i := mkCached (bssid i) (ssid i) v (ipResult i).
Definition set_ipResult v i := mkCached (bssid i) (ssid i) (absoluteLeasetime i) v.

(** [strcpy_s] into an array of [INET_ADDRSTRLEN]: on an error the array is
    cleared. *)
Definition strcpy_s (src : bytes) : bool * bytes :=
  if Z.of_nat (length src) <? INET_ADDRSTRLEN then (true, src) else (false, []).

(** * Text *)

Definition blank (c : Z) : bool := (c =? 32) || (c =? newline).
Fixpoint blanks (s : bytes) : nat :=
  match s with c :: r => if blank c then S (blanks r) else O | [] => O end.

(** [i] is the number of blanks at the start, [j] the index of the last
    character that is not blank. *)
Definition TrimString (s : bytes) : bytes :=
  let i := Z.of_nat (blanks s) in
  let j := Z.of_nat (length s) - 1 - Z.of_nat (blanks (rev s)) in
  if i >? j then [] else take (Z.to_nat (j - i + 1)) (drop (Z.to_nat i) s).

Definition key_is (key : bytes) (s : string) : bool := bool_decide (key = str s).

(** Returns the item and the number of errors. *)
Definition SetClassKeyValue (item : IpInfoCached) (key value : bytes) : IpInfoCached * Z :=
  let copy set :=
    let '(ok, text) := strcpy_s value in
    (set_ipResult (set text (ipResult item)) item, if ok then 0 else 1) in
  if key_is key "bssid" then (set_bssid value item, 0)
  else if key_is key "ssid" then (set_ssid value item, 0)
  else if key_is key "absoluteLeasetime" then (set_absoluteLeasetime (CheckDataLegal value) item, 0)
  else if key_is key "strYiaddr" then copy set_strYiaddr
  else if key_is key "strOptServerId" then copy set_strOptServerId
  else if key_is key "strOptSubnet" then copy set_strOptSubnet
  else if key_is key "strOptDns1" then copy set_strOptDns1
  else if key_is key "strOptDns2" then copy set_strOptDns2
  else if key_is key "strOptRouter1" then copy set_strOptRouter1
  else if key_is key "strOptRouter2" then copy set_strOptRouter2
  else if key_is key "uOptLeasetime" then
    (set_ipResult (set_uOptLeasetime (u32 (CheckDataLegal value)) (ipResult item)) item, 0)
  else (item, 1).

Definition field_line (key : string) (value : bytes) : bytes := str "    " ++ str key ++ str "=" ++ value ++ [newline].

Definition OutClassString (item : IpInfoCached) : bytes :=
  str "    <IpInfoCached>" ++ [newline]
  ++ field_line "bssid" (bssid item)
  ++ field_line "ssid" (ssid item)
  ++ field_line "absoluteLeasetime" (dec_int (absoluteLeasetime item))
  ++ field_line "strYiaddr" (strYiaddr (ipResult item))
  ++ field_line "strOptServerId" (strOptServerId (ipResult item))
  ++ field_line "strOptSubnet" (strOptSubnet (ipResult item))
  ++ field_line "strOptDns1" (strOptDns1 (ipResult item))
  ++ field_line "strOptDns2" (strOptDns2 (ipResult item))
  ++ field_line "strOptRouter1" (strOptRouter1 (ipResult item))
  ++ field_line "strOptRouter2" (strOptRouter2 (ipResult item))
  ++ field_line "uOptLeasetime" (dec_u64 (uOptLeasetime (ipResult item)))
  ++ str "    <IpInfoCached>" ++ [newline].

Definition ClearClass (item : IpInfoCached) : IpInfoCached :=
  set_ipResult (set_uOptLeasetime 0 (ipResult item)) (set_absoluteLeasetime 0 (set_bssid [] item)).

(** * Parsing *)

(** The text before and after the first [=]. *)
Fixpoint find_eq (s : bytes) : option (bytes * bytes) :=
  match s with
  | [] => None
  | c :: r => if c =? 61 then Some ([], r)
              else match find_eq r with Some (k, v) => Some (c :: k, v) | None => None end
  end.

(** The line starts with [a] and ends with [b]. *)
Definition bracketed (a b : Z) (s : bytes) : bool := (byte_at s 0 =? a) && (List.last s 0 =? b).

Definition line_size : nat := 1024.

(** A line of the file, trimmed, and the rest; every line takes at least a byte
    of the file, which is what the loops' fuel counts. *)
Definition next_line (file : bytes) : bytes * bytes :=
  let (line, rest) := fgets line_size file in (TrimString (c_str line), rest).

(** Returns the item, the number of errors and the rest of the file. *)
Fixpoint ReadNetworkSection_loop (fuel : nat) (item : IpInfoCached) (sectionError : Z) (file : bytes)
    : option (IpInfoCached * Z * bytes) :=
  match fuel, file with
  | O, _ => None
  | _, [] => Some (item, sectionError + 1, [])
  | S fuel', _ =>
      let (strLine, file) := next_line file in
      if bool_decide (strLine = []) then ReadNetworkSection_loop fuel' item sectionError file
      else if bracketed 60 62 strLine then Some (item, sectionError, file)
      else
        match find_eq strLine with
        | None => ReadNetworkSection_loop fuel' item (sectionError + 1) file
        | Some (key, value) =>
            let '(item, e) := SetClassKeyValue item (TrimString key) (TrimString value) in
            ReadNetworkSection_loop fuel' item (sectionError + e) file
        end
  end.
Definition ReadNetworkSection (item : IpInfoCached) (file : bytes) : option (IpInfoCached * Z * bytes) :=
  ReadNetworkSection_loop (S (length file)) item 0 file.

Fixpoint ReadNetwork_loop (fuel : nat) (item : IpInfoCached) (networkError : Z) (file : bytes)
    : option (IpInfoCached * Z * bytes) :=
  match fuel, file with
  | O, _ => None
  | _, [] => Some (item, networkError + 1, [])
  | S fuel', _ =>
      let (strLine, file) := next_line file in
      if bool_decide (strLine = []) then ReadNetwork_loop fuel' item networkError file
      else if bracketed 60 62 strLine then
        '(item, e, file) ← ReadNetworkSection item file;
        ReadNetwork_loop fuel' item (networkError + e) file
      else if bool_decide (strLine = [125]) then Some (item, networkError, file)
      else ReadNetwork_loop fuel' item (networkError + 1) file
  end.
Definition ReadNetwork (item : IpInfoCached) (file : bytes) : option (IpInfoCached * Z * bytes) :=
  ReadNetwork_loop (S (length file)) item 0 file.

(** The sections of a file appended to [cached]. *)
Fixpoint LoadAllIpCached_loop (fuel : nat) (item : IpInfoCached) (cached : list IpInfoCached) (file : bytes)
    : option (list IpInfoCached) :=
  match fuel, file with
  | O, _ => None
  | _, [] => Some cached
  | S fuel', _ =>
      let (strLine, file) := next_line file in
      if bool_decide (strLine = []) then LoadAllIpCached_loop fuel' item cached file
      else if bracketed 91 123 strLine then
        '(item, configError, file) ← ReadNetwork (ClearClass item) file;
        if configError >? 0 then LoadAllIpCached_loop fuel' item cached file
        else LoadAllIpCached_loop fuel' item (cached ++ [item]) file
      else LoadAllIpCached_loop fuel' item cached file
  end.

(** * The store *)

(** [std::sort] by lease time, and what the standard promises of it. *)
Class StdSort := { std_sort : list IpInfoCached -> list IpInfoCached }.
Class StdSortLaws (S : StdSort) := {
  std_sort_perm : forall l, std_sort l ≡ₚ l;
  std_sort_sorted : forall l, StronglySorted (fun a b => absoluteLeasetime a <= absoluteLeasetime b) (std_sort l)
}.

(** [realpath], and whether a file can be opened for writing. *)
Class StoreFiles := { store_realpath : bytes -> option bytes; store_fopen_w : bytes -> bool }.

Record Store := mkStore { m_allIpCached : list IpInfoCached; m_fileName : bytes; files : gmap bytes bytes }.

Section Store.
Context `{StdSort} `{StoreFiles}.

(** [now] is the value of [time(nullptr)], -1 on a failure. *)
Definition expired (currentTime : Z) (x : IpInfoCached) : bool :=
  (absoluteLeasetime x >? 0) && (absoluteLeasetime x <? currentTime).

Definition EnforceMaxCache (now : Z) (cache : list IpInfoCached) : list IpInfoCached :=
  if now =? -1 then cache
  else
    let cache := filter (fun x => expired now x = false) cache in
    if Z.of_nat (length cache) <=? MAX_DHCP_CACHE then cache
    else
      let cache := std_sort cache in
      let toTrim := Z.of_nat (length cache) - MAX_DHCP_CACHE in
      drop (Z.to_nat toTrim) cache.

(** [item0] is the uninitialised variable of the function. *)
Definition LoadAllIpCached (item0 : IpInfoCached) (now : Z) (fileName : bytes) (s : Store) : option (Z * Store) :=
  let s := mkStore (m_allIpCached s) fileName (files s) in
  if bool_decide (m_fileName s = []) then Some (-1, s)
  else
    match store_realpath (m_fileName s) with
    | None => Some (-1, s)
    | Some realPaths =>
        match files s !! realPaths with
        | None => Some (-1, s)
        | Some content =>
            cached ← LoadAllIpCached_loop (S (length content)) item0 [] content;
            Some (0, mkStore (EnforceMaxCache now cached) (m_fileName s) (files s))
        end
    end.

Fixpoint config_text (i : Z) (cached : list IpInfoCached) : bytes :=
  match cached with
  | [] => []
  | item :: r =>
      (str "[IpInfoCached_" ++ dec_u64 (i + 1) ++ str "] {" ++ [newline])
      ++ (OutClassString item ++ [newline]) ++ (str "}" ++ [newline]) ++ config_text (i + 1) r
  end.

(** A write succeeds when the file could be opened. *)
Definition SaveConfig (s : Store) : Z * Store :=
  if negb (IsValidPath store_realpath (m_fileName s)) then (-1, s)
  else if negb (store_fopen_w (m_fileName s)) then (-1, s)
  else
    let content := config_text 0 (m_allIpCached s) in
    (0, mkStore [] (m_fileName s) (<[m_fileName s := content]> (files s))).

(** The first entry of the access point is removed. *)
Fixpoint erase_bssid (b : bytes) (cached : list IpInfoCached) : list IpInfoCached :=
  match cached with
  | [] => []
  | it :: r => if bool_decide (b = bssid it) then r else it :: erase_bssid b r
  end.

Definition SaveIpInfoInLocalFile (now : Z) (info : IpInfoCached) (s : Store) : Z * Store :=
  let cached := erase_bssid (bssid info) (m_allIpCached s) ++ [info] in
  SaveConfig (mkStore (EnforceMaxCache now cached) (m_fileName s) (files s)).

Definition RemoveCachedIp (item0 : IpInfoCached) (now : Z) (cacheInfo : IpInfoCached) (s : Store) : option (Z * Store) :=
  '(_, s) ← LoadAllIpCached item0 now DHCP_CACHE_FILE s;
  if bool_decide (ssid cacheInfo = []) then Some (DHCP_E_FAILED, s)
  else if bool_decide (m_allIpCached s = []) then Some (DHCP_E_FAILED, s)
  else
    let cached := filter (fun x => ssid x <> ssid cacheInfo) (m_allIpCached s) in
    Some (SaveConfig (mkStore cached (m_fileName s) (files s))).

Fixpoint set_ssid_of (b name : bytes) (cached : list IpInfoCached) : list IpInfoCached :=
  match cached with
  | [] => []
  | it :: r => if bool_decide (b = bssid it) then set_ssid name it :: r else it :: set_ssid_of b name r
  end.

Definition AddCachedIp (item0 : IpInfoCached) (now : Z) (cacheInfo : IpInfoCached) (s : Store) : option (Z * Store) :=
  '(_, s) ← LoadAllIpCached item0 now DHCP_CACHE_FILE s;
  if bool_decide (m_allIpCached s = []) then Some (DHCP_E_FAILED, s)
  else if bool_decide (ssid cacheInfo = []) || negb (Z.of_nat (length (bssid cacheInfo)) =? MAC_ADDR_SIZE)
  then Some (DHCP_E_FAILED, s)
  else
    let cached := set_ssid_of (bssid cacheInfo) (ssid cacheInfo) (m_allIpCached s) in
    Some (SaveConfig (mkStore cached (m_fileName s) (files s))).

Fixpoint find_bssid (b : bytes) (cached : list IpInfoCached) : option IpInfoCached :=
  match cached with
  | [] => None
  | it :: r => if bool_decide (b = bssid it) then Some it else find_bssid b r
  end.

(** Returns the code, [outIpResult] when it is assigned, and the store. *)
Definition GetCachedIp (item0 : IpInfoCached) (now : Z) (targetBssid : bytes) (s : Store)
    : option (Z * option IpInfoCached * Store) :=
  '(_, s) ← LoadAllIpCached item0 now DHCP_CACHE_FILE s;
  match find_bssid targetBssid (m_allIpCached s) with
  | Some it => Some (0, Some it, s)
  | None => Some (-1, None, s)
  end.
End Store.

(** * Publishing a result *)

(** The functions of the client service a result goes to; each returns
    [DHCP_OPT_SUCCESS] or an error. *)
Inductive publication :=
| DhcpIpv4ResultSuccess (r : DhcpIpResult) | DhcpIpv4ResultTimeOut (ifname : bytes)
| DhcpIpv4ResultExpired (ifname : bytes) | DhcpOfferResultSuccess (r : DhcpIpResult)
| DhcpIpv4ResultFail (r : DhcpIpResult).

Definition publication_of (r : DhcpIpResult) : publication :=
  if code r =? PUBLISH_CODE_SUCCESS then DhcpIpv4ResultSuccess r
  else if code r =? PUBLISH_CODE_TIMEOUT then DhcpIpv4ResultTimeOut (ifname r)
  else if code r =? PUBLISH_CODE_EXPIRED then DhcpIpv4ResultExpired (ifname r)
  else if code r =? PUBLISH_DHCP_OFFER_REPORT then DhcpOfferResultSuccess r
  else DhcpIpv4ResultFail r.

(** [service p] is the result of the service function; there is a service. *)
Definition PublishDhcpIpv4Result (service : publication -> Z) (r : DhcpIpResult) : bool * publication :=
  let p := publication_of r in (service p =? DHCP_OPT_SUCCESS, p).

(** * Reading always ends *)

Lemma fgets_step n c r :
  fgets (S (S n)) (c :: r) = if c =? newline then ([c], r) else let (l, r') := fgets (S n) r in (c :: l, r').
Proof. done. Qed.

Lemma fgets_rest_le r : forall n, (length (fgets n r).2 <= length r)%nat.
Proof.
  induction r as [|c r IH]; intros [|[|n]]; [cbn; lia..|]. rewrite fgets_step.
  destruct (c =? newline); cbn [snd length]; [lia|]. specialize (IH (S n)).
  destruct (fgets (S n) r) as [l r']. cbn [snd] in *. lia.
Qed.

Lemma fgets_rest n file : file <> [] -> (2 <= n)%nat -> (length (fgets n file).2 < length file)%nat.
Proof.
  intros Hne Hn. destruct file as [|c r]; [done|]. destruct n as [|[|n]]; [lia..|]. rewrite fgets_step.
  pose proof (fgets_rest_le r (S n)) as H. destruct (c =? newline); cbn [snd length]; [lia|].
  destruct (fgets (S n) r) as [l r']. cbn [snd] in *. lia.
Qed.

Lemma next_line_rest file : file <> [] -> (length (next_line file).2 < length file)%nat.
Proof.
  intros Hne. pose proof (fgets_rest line_size file Hne ltac:(unfold line_size; lia)) as H. unfold next_line.
  by destruct (fgets line_size file).
Qed.

Ltac step_line file :=
  let H := fresh "Hrest" in
  assert (H := next_line_rest file ltac:(done)); destruct (next_line file) as [?strLine ?rest]; cbn [snd] in H.

Lemma ReadNetworkSection_loop_ends fuel : forall item e file, (length file < fuel)%nat ->
  exists r, ReadNetworkSection_loop fuel item e file = Some r /\ (length r.2 <= length file)%nat.
Proof.
  induction fuel as [|fuel IH]; intros item e file Hf; [lia|]. destruct file as [|c r]; [by eexists|].
  cbn [ReadNetworkSection_loop]. step_line (c :: r).
  assert (Hgo : forall item e, exists x, ReadNetworkSection_loop fuel item e rest = Some x /\
    (length x.2 <= length (c :: r))%nat).
  { intros item' e'. destruct (IH item' e' rest) as (x & E & Hx); [lia|]. exists x. split; [done|lia]. }
  case_bool_decide; [apply Hgo|]. destruct (bracketed _ _ _); [eexists; split; [done|cbn [snd]; lia]|].
  destruct (find_eq strLine) as [[k v]|]; [|apply Hgo]. destruct (SetClassKeyValue _ _ _). apply Hgo.
Qed.

Lemma ReadNetwork_loop_ends fuel : forall item e file, (length file < fuel)%nat ->
  exists r, ReadNetwork_loop fuel item e file = Some r /\ (length r.2 <= length file)%nat.
Proof.
  induction fuel as [|fuel IH]; intros item e file Hf; [lia|]. destruct file as [|c r]; [by eexists|].
  cbn [ReadNetwork_loop]. step_line (c :: r).
  assert (Hgo : forall item e rest', (length rest' <= length rest)%nat -> exists x,
    ReadNetwork_loop fuel item e rest' = Some x /\ (length x.2 <= length (c :: r))%nat).
  { intros item' e' rest' Hr. destruct (IH item' e' rest') as (x & E & Hx); [lia|]. exists x. split; [done|lia]. }
  case_bool_decide; [by apply Hgo|]. destruct (bracketed _ _ _).
  - unfold ReadNetworkSection. destruct (ReadNetworkSection_loop_ends (S (length rest)) item 0 rest) as ([[i e1] rest'] & E & Hr);
      [lia|]. rewrite E, bind_some. cbn [snd] in Hr. by apply Hgo.
  - case_bool_decide; [|by apply Hgo]. eexists. split; [done|]. cbn [snd]. lia.
Qed.

Lemma LoadAllIpCached_loop_ends fuel : forall item cached file, (length file < fuel)%nat ->
  is_Some (LoadAllIpCached_loop fuel item cached file).
Proof.
  induction fuel as [|fuel IH]; intros item cached file Hf; [lia|]. destruct file as [|c r]; [by eexists|].
  cbn [LoadAllIpCached_loop]. step_line (c :: r).
  case_bool_decide; [apply IH; lia|]. destruct (bracketed _ _ _); [|apply IH; lia].
  unfold ReadNetwork. destruct (ReadNetwork_loop_ends (S (length rest)) (ClearClass item) 0 rest) as ([[i e] rest'] & E & Hr);
    [lia|]. rewrite E, bind_some. cbn [snd] in Hr. destruct (e >? 0); apply IH; lia.
Qed.

(** * The cache is bounded and fresh *)

Section Bounds.
Context `{StdSortLaws}.

Definition fresh (now : Z) (x : IpInfoCached) : Prop := absoluteLeasetime x <= 0 \/ now <= absoluteLeasetime x.

Lemma expired_fresh now x : expired now x = false <-> fresh now x.
Proof.
  unfold expired, fresh. rewrite andb_false_iff, Z.gtb_ltb, !Z.ltb_ge. lia.
Qed.

Lemma StronglySorted_drop {A} (R : A -> A -> Prop) l n x y : StronglySorted R l -> x ∈ take n l -> y ∈ drop n l -> R x y.
Proof.
  intros Hs. revert n. induction Hs as [|a l Hs IH Ha]; intros [|n] Hx Hy; cbn in *;
    try by apply elem_of_nil in Hx.
  apply elem_of_cons in Hx as [->|Hx]; [|eauto]. rewrite Forall_forall in Ha. apply Ha.
  rewrite <- (take_drop n l), elem_of_app. auto.
Qed.

Lemma EnforceMaxCache_keeps_lemma now cache : now <> -1 ->
  let kept := EnforceMaxCache now cache in
  Z.of_nat (length kept) <= MAX_DHCP_CACHE /\
  (forall x, x ∈ kept -> x ∈ cache /\ fresh now x) /\
  forall x, x ∈ cache -> fresh now x -> x ∈ kept \/
    Z.of_nat (length kept) = MAX_DHCP_CACHE /\ forall y, y ∈ kept -> absoluteLeasetime x <= absoluteLeasetime y.
Proof.
  intros Hnow kept. unfold kept, EnforceMaxCache, MAX_DHCP_CACHE. rewrite (proj2 (Z.eqb_neq _ _) Hnow).
  set (cache1 := filter _ cache).
  assert (H1 : forall x, x ∈ cache1 <-> x ∈ cache /\ fresh now x).
  { intros x. unfold cache1. rewrite list_elem_of_filter, expired_fresh. tauto. }
  destruct (Z.leb_spec (Z.of_nat (length cache1)) 50) as [Hle|Hgt].
  - split; [done|]. split; [intros x; apply H1|]. intros x Hx Hf. left. by apply H1.
  - set (sorted := std_sort cache1). pose proof (std_sort_perm cache1) as Hp. fold sorted in Hp.
    pose proof (std_sort_sorted cache1) as Hs. fold sorted in Hs.
    pose proof (Permutation_length Hp) as Hlen. set (n := Z.to_nat (Z.of_nat (length sorted) - 50)).
    assert (Hl : length (drop n sorted) = 50%nat) by (rewrite length_drop; unfold n; lia).
    split; [lia|]. split.
    + intros x Hx. apply H1. rewrite <- Hp. rewrite <- (take_drop n sorted), elem_of_app. auto.
    + intros x Hx Hf. assert (Hin : x ∈ sorted) by (rewrite Hp; by apply H1).
      rewrite <- (take_drop n sorted), elem_of_app in Hin. destruct Hin as [Hin|Hin]; [right|by left].
      split; [lia|]. intros y Hy. exact (StronglySorted_drop _ sorted n x y Hs Hin Hy).
Qed.

Lemma EnforceMaxCache_subset now cache x : x ∈ EnforceMaxCache now cache -> x ∈ cache.
Proof.
  destruct (Z.eq_dec now (-1)) as [->|Hnow]; [done|]. intros Hx.
  by destruct (EnforceMaxCache_keeps_lemma now cache Hnow) as (_ & H2 & _); destruct (H2 x Hx).
Qed.

(** Enforcing the size of the cache leaves at most 50 entries, none of them
    expired; every unexpired entry is kept, or 50 entries with a lease time at
    least as late are. *)
Theorem EnforceMaxCache_keeps now cache : now <> -1 ->
  let kept := EnforceMaxCache now cache in
  Z.of_nat (length kept) <= MAX_DHCP_CACHE /\
  (forall x, x ∈ kept -> x ∈ cache /\ fresh now x) /\
  forall x, x ∈ cache -> fresh now x -> x ∈ kept \/
    Z.of_nat (length kept) = MAX_DHCP_CACHE /\ forall y, y ∈ kept -> absoluteLeasetime x <= absoluteLeasetime y.
Proof. apply EnforceMaxCache_keeps_lemma. Qed.
End Bounds.

(** Merge sort satisfies the laws. *)
Definition by_lease_time (a b : IpInfoCached) : Prop := absoluteLeasetime a <= absoluteLeasetime b.
#[export] Instance by_lease_time_dec a b : Decision (by_lease_time a b) := Z_le_dec _ _.
#[export] Instance merge_std_sort : StdSort := {| std_sort := merge_sort by_lease_time |}.
#[export] Instance merge_std_sort_laws : StdSortLaws merge_std_sort.
Proof.
  assert (Total by_lease_time) by (intros a b; unfold by_lease_time; lia).
  assert (Transitive by_lease_time) by (intros a b c; unfold by_lease_time; lia).
  split; intros l; [apply merge_sort_Permutation|by apply (StronglySorted_merge_sort by_lease_time)].
Qed.

Definition no_result : DhcpIpResult := mkResult 0 [] 0 0 [] [] [] [] [] [] [] [] [].

(** Sixty entries with lease times 1000 to 1059. *)
Definition many_entries : list IpInfoCached :=
  map (fun k => mkCached [Z.of_nat k] [] (1000 + Z.of_nat k) no_result) (seq 0 60).

Lemma EnforceMaxCache_keeps_witness :
  let kept := EnforceMaxCache 1005 many_entries in
  Z.of_nat (length kept) <= MAX_DHCP_CACHE /\
  (forall x, x ∈ kept -> x ∈ many_entries /\ fresh 1005 x) /\
  forall x, x ∈ many_entries -> fresh 1005 x -> x ∈ kept \/
    Z.of_nat (length kept) = MAX_DHCP_CACHE /\ forall y, y ∈ kept -> absoluteLeasetime x <= absoluteLeasetime y.
Proof. by apply EnforceMaxCache_keeps. Defined.

(** * The file holds what was saved *)

(** A text that trimming leaves alone. *)
Definition trimmed (s : bytes) : Prop :=
  match s with [] => True | c :: _ => blank c = false /\ blank (List.last s 0) = false end.

(** A value the format can carry on a line. *)
Definition plain (s : bytes) : Prop :=
  trimmed s /\ Forall (fun c => c <> 0 /\ c <> newline) s /\ (length s < 990)%nat.

Lemma blanks_app b s : Forall (fun c => blank c = true) b -> blanks (b ++ s) = (length b + blanks s)%nat.
Proof. induction 1 as [|c b Hc _ IH]; [done|]. cbn. by rewrite Hc, IH. Qed.

Lemma TrimString_core b1 core b2 : Forall (fun c => blank c = true) b1 -> Forall (fun c => blank c = true) b2 ->
  trimmed core -> TrimString (b1 ++ core ++ b2) = core.
Proof.
  intros H1 H2 Hc. unfold TrimString. rewrite !rev_app_distr, <- app_assoc, !length_app.
  rewrite (blanks_app b1), (blanks_app (rev b2)) by (done || (by apply Forall_rev)).
  rewrite length_rev. destruct core as [|c core].
  - cbn [app rev length]. rewrite Z.gtb_ltb, (proj2 (Z.ltb_lt _ _)) by lia. done.
  - destruct Hc as [Hc Hl]. cbn [app blanks]. rewrite Hc.
    assert (Er : exists r, rev (c :: core) = List.last (c :: core) 0 :: r).
    { exists (rev (removelast (c :: core))). rewrite (app_removelast_last 0 (l := c :: core)) at 1 by done.
      by rewrite rev_app_distr. }
    destruct Er as [r Er]. rewrite Er. cbn [app blanks]. rewrite Hl.
    rewrite Z.gtb_ltb, (proj2 (Z.ltb_ge _ _)) by (cbn [length]; lia).
    rewrite !Nat.add_0_r, Nat2Z.id, drop_app_length.
    replace (Z.to_nat _) with (length (c :: core)) by (cbn [length]; lia).
    change (c :: core ++ b2) with ((c :: core) ++ b2). apply take_app_length.
Qed.

Lemma TrimString_trimmed s : trimmed s -> TrimString s = s.
Proof.
  intros H. pose proof (TrimString_core [] s [] ltac:(done) ltac:(done) H) as E. by rewrite app_nil_r in E.
Qed.

Lemma c_str_no_zero s : Forall (fun c => c <> 0) s -> c_str s = s.
Proof. induction 1 as [|c s Hc _ IH]; [done|]. cbn. by rewrite (proj2 (Z.eqb_neq c 0) Hc), IH. Qed.

(** A line of the file: blanks, a text, the line end. *)
Lemma next_line_text indent core rest : Forall (fun c => c = 32) indent -> (length indent <= 8)%nat ->
  trimmed core -> Forall (fun c => c <> 0 /\ c <> newline) core -> (length core < 1014)%nat ->
  next_line (indent ++ core ++ newline :: rest) = (core, rest).
Proof.
  intros Hi Hil Ht Hc Hl. unfold next_line. rewrite app_assoc, fgets_line.
  - rewrite c_str_no_zero.
    + rewrite <- app_assoc. rewrite TrimString_core; [done| | |done].
      * eapply Forall_impl; [exact Hi|]. by intros c ->.
      * by constructor.
    + apply Forall_app. split; [|by constructor]. apply Forall_app. split.
      * eapply Forall_impl; [exact Hi|]. by intros c ->.
      * eapply Forall_impl; [exact Hc|]. by intros ? [? ?].
  - apply Forall_app. split; [eapply Forall_impl; [exact Hi|]; by intros c ->|].
    eapply Forall_impl; [exact Hc|]. by intros ? [? ?].
  - rewrite length_app. unfold line_size. lia.
Qed.

(** A key of the file. *)
Definition good_key (k : bytes) : bool :=
  match k with [] => false | c :: _ => negb (c =? 60) end &&
  forallb (fun c => (33 <=? c) && (c <=? 126) && negb (c =? 61)) k && Nat.leb (length k) 20.

Lemma find_eq_app k v : Forall (fun c => c <> 61) k -> find_eq (k ++ 61 :: v) = Some (k, v).
Proof. induction 1 as [|c k Hc _ IH]; [done|]. cbn. by rewrite (proj2 (Z.eqb_neq c 61) Hc), IH. Qed.

Lemma last_app_cons (l r : bytes) c : List.last (l ++ c :: r) 0 = List.last (c :: r) 0.
Proof. induction l as [|x [|y l] IH]; [done..|]. exact IH. Qed.

Lemma good_key_spec k : good_key k = true ->
  exists c r, k = c :: r /\ c <> 60 /\ Forall (fun c => 33 <= c <= 126 /\ c <> 61) k /\ (length k <= 20)%nat.
Proof.
  unfold good_key. intros H. apply andb_prop in H as [H Hl%Nat.leb_le]. apply andb_prop in H as [Hc Hk].
  destruct k as [|c r]; [done|]. exists c, r. split; [done|]. btauto_hyps. split; [done|]. split; [|done].
  rewrite forallb_forall in Hk. rewrite List.Forall_forall. intros x Hx. specialize (Hk x Hx). btauto_hyps. lia.
Qed.

Lemma nonblank c : 33 <= c -> blank c = false.
Proof. intros. unfold blank, newline. rewrite (proj2 (Z.eqb_neq c 32)), (proj2 (Z.eqb_neq c 10)) by lia. done. Qed.

Lemma section_step fuel item e key v rest : good_key (str key) = true -> plain v ->
  ReadNetworkSection_loop (S fuel) item e (field_line key v ++ rest) =
  let '(item, e') := SetClassKeyValue item (str key) v in ReadNetworkSection_loop fuel item (e + e') rest.
Proof.
  intros Hk (Ht & Hv & Hl). destruct (good_key_spec _ Hk) as (c & r & Ek & Hc & Hks & Hkl).
  set (k := str key) in *. assert (Ef : field_line key v ++ rest = str "    " ++ (k ++ 61 :: v) ++ newline :: rest).
  { unfold field_line. fold k. change (str "=") with [61]. by rewrite <- !app_assoc. }
  assert (Hline : next_line (field_line key v ++ rest) = (k ++ 61 :: v, rest)).
  { rewrite Ef. apply next_line_text; [by repeat constructor|vm_compute; lia| | |].
    - rewrite Ek. cbn [app trimmed]. rewrite Ek in Hks. apply Forall_cons in Hks as [[? _] _].
      rewrite nonblank by lia. split; [done|]. change (c :: r ++ 61 :: v) with ((c :: r) ++ 61 :: v).
      rewrite last_app_cons. destruct v as [|d v]; [done|]. apply Ht.
    - apply Forall_app. split; [eapply Forall_impl; [exact Hks|]; unfold newline; cbn; lia|]. by constructor.
    - rewrite length_app. cbn [length]. lia. }
  assert (Hne : field_line key v ++ rest <> []) by (rewrite Ef; done).
  destruct (field_line key v ++ rest) as [|x xs]; [done|]. cbn [ReadNetworkSection_loop]. rewrite Hline.
  rewrite bool_decide_eq_false_2 by (by rewrite Ek). unfold bracketed.
  rewrite Ek at 1. cbn [app byte_at nth]. rewrite (proj2 (Z.eqb_neq c 60) Hc). cbn [andb].
  rewrite find_eq_app by (eapply Forall_impl; [exact Hks|]; cbn; lia).
  rewrite (TrimString_trimmed v) by done. rewrite TrimString_trimmed; [done|].
  rewrite Ek. rewrite Ek in Hks. apply Forall_cons in Hks as Hks'. destruct Hks' as [[? _] _]. cbn [trimmed].
  rewrite nonblank by lia. split; [done|]. apply nonblank. rewrite Forall_forall in Hks.
  assert (Hin : List.last (c :: r) 0 ∈ c :: r).
  { apply list_elem_of_In. rewrite (app_removelast_last 0 (l := c :: r)) at 2 by done. apply in_or_app. right. by left. }
  destruct (Hks _ Hin). lia.
Qed.

Lemma strtol_dec_int z : - 2 ^ 63 <= z < 2 ^ 63 -> CheckDataLegal (dec_int z) = i32 z.
Proof.
  intros Hz. unfold dec_int, CheckDataLegal, strtol. destruct (Z.ltb_spec z 0).
  - destruct (dec_u64_spec (- z)) as (H1 & H2 & H3 & H4); [unfold is_u64; lia|].
    unfold has_digit. cbn [existsb]. fold (has_digit (dec_u64 (- z))).
    rewrite has_digit_all by done. cbn [orb negb].
    change (strto (45 :: dec_u64 (- z))) with (true, digits_value 0 (dec_u64 (- z))).
    rewrite H4, Z.opp_involutive. by rewrite (proj2 (Z.leb_le _ _)), (proj2 (Z.ltb_lt _ _)) by lia.
  - destruct (dec_u64_spec z) as (H1 & H2 & H3 & H4); [unfold is_u64; lia|].
    rewrite has_digit_all, strto_digits, H4 by done. cbn [negb].
    by rewrite (proj2 (Z.leb_le _ _)), (proj2 (Z.ltb_lt _ _)) by lia.
Qed.

Lemma digits_plain s : Forall (fun c => isdigit c = true) s -> (length s <= 20)%nat -> plain s /\ plain (45 :: s).
Proof.
  intros Hs Hl.
  assert (Hlast : forall c s, isdigit c = true \/ c = 45 -> Forall (fun c => isdigit c = true) s ->
    blank (List.last (c :: s) 0) = false).
  { clear. intros c s Hc Hs. revert c Hc. induction Hs as [|d s Hd Hs IH]; intros c Hc; [|apply IH; auto].
    cbn. apply nonblank. rewrite isdigit_range in Hc. lia. }
  assert (Hb : Forall (fun c => c <> 0 /\ c <> newline) s).
  { eapply Forall_impl; [exact Hs|]. intros c Hc%isdigit_range. unfold newline. lia. }
  split; split.
  - destruct Hs as [|c s Hc Hs]; [done|]. split; [|by apply Hlast; auto]. apply nonblank.
    apply isdigit_range in Hc. lia.
  - split; [done|lia].
  - split; [done|]. apply Hlast; auto.
  - split; [|cbn [length]; lia]. by constructor.
Qed.

Lemma dec_int_plain z : - 2 ^ 63 <= z < 2 ^ 63 -> plain (dec_int z).
Proof.
  intros Hz. unfold dec_int. destruct (Z.ltb_spec z 0).
  - destruct (dec_u64_spec (- z)) as (_ & H2 & H3 & _); [unfold is_u64; lia|]. by apply digits_plain.
  - destruct (dec_u64_spec z) as (_ & H2 & H3 & _); [unfold is_u64; lia|]. by apply digits_plain.
Qed.

(** An entry the format can carry. *)
Definition storable (x : IpInfoCached) : Prop :=
  let r := ipResult x in
  Forall plain [bssid x; ssid x] /\ - 2 ^ 63 <= absoluteLeasetime x < 2 ^ 63 /\ is_u32 (uOptLeasetime r) /\
  Forall (fun s => plain s /\ Z.of_nat (length s) < INET_ADDRSTRLEN)
    [strYiaddr r; strOptServerId r; strOptSubnet r; strOptDns1 r; strOptDns2 r; strOptRouter1 r; strOptRouter2 r].

(** The entry read back into the variable [item0]: the fields the file does not
    have stay those of the variable, and the lease time has 32 bits. *)
Definition restored (item0 x : IpInfoCached) : IpInfoCached :=
  let r0 := ipResult item0 in
  let r := ipResult x in
  mkCached (bssid x) (ssid x) (i32 (absoluteLeasetime x))
    (mkResult (code r0) (ifname r0) (uAddTime r0) (uOptLeasetime r) (strYiaddr r) (strOptServerId r) (strOptSubnet r)
      (strOptDns1 r) (strOptDns2 r) (strOptRouter1 r) (strOptRouter2 r) (strOptVendor r0) (dnsAddr r0)).

Lemma restored_restored item0 x y : restored (restored item0 x) y = restored item0 y.
Proof. done. Qed.

(** A key with an address. *)
Lemma copy_step fuel item e key set v rest :
  good_key (str key) = true -> plain v /\ Z.of_nat (length v) < INET_ADDRSTRLEN ->
  (forall value, SetClassKeyValue item (str key) value =
     let '(ok, text) := strcpy_s value in (set_ipResult (set text (ipResult item)) item, if ok then 0 else 1)) ->
  ReadNetworkSection_loop (S fuel) item e (field_line key v ++ rest) =
  ReadNetworkSection_loop fuel (set_ipResult (set v (ipResult item)) item) e rest.
Proof.
  intros Hk [Hv Hl] Hset. rewrite section_step, Hset by done. unfold strcpy_s.
  rewrite (proj2 (Z.ltb_lt _ _) Hl). cbv iota beta. by rewrite Z.add_0_r.
Qed.

Lemma section_end fuel item e rest :
  ReadNetworkSection_loop (S fuel) item e ((str "    <IpInfoCached>" ++ [newline]) ++ rest) = Some (item, e, rest).
Proof.
  rewrite <- app_assoc. pose proof (next_line_text (str "    ") (str "<IpInfoCached>") rest
    ltac:(by repeat constructor) ltac:(vm_compute; lia) ltac:(by vm_compute) ltac:(by repeat constructor) ltac:(vm_compute; lia)) as Hl.
  assert (E : str "    <IpInfoCached>" ++ [newline] ++ rest = str "    " ++ str "<IpInfoCached>" ++ newline :: rest) by done.
  rewrite E. set (file := str "    " ++ _) in *. assert (Hne : file <> []) by done.
  destruct file as [|c f]; [done|]. cbn [ReadNetworkSection_loop]. by rewrite Hl.
Qed.

Lemma ReadNetworkSection_reads item0 x rest : storable x ->
  ReadNetworkSection_loop 12 item0 0
    (field_line "bssid" (bssid x) ++ field_line "ssid" (ssid x)
     ++ field_line "absoluteLeasetime" (dec_int (absoluteLeasetime x))
     ++ field_line "strYiaddr" (strYiaddr (ipResult x)) ++ field_line "strOptServerId" (strOptServerId (ipResult x))
     ++ field_line "strOptSubnet" (strOptSubnet (ipResult x)) ++ field_line "strOptDns1" (strOptDns1 (ipResult x))
     ++ field_line "strOptDns2" (strOptDns2 (ipResult x)) ++ field_line "strOptRouter1" (strOptRouter1 (ipResult x))
     ++ field_line "strOptRouter2" (strOptRouter2 (ipResult x))
     ++ field_line "uOptLeasetime" (dec_u64 (uOptLeasetime (ipResult x)))
     ++ (str "    <IpInfoCached>" ++ [newline]) ++ rest) = Some (restored item0 x, 0, rest).
Proof.
  intros (Hp & Hlease & Hu & Ha). apply Forall_cons in Hp as [Hb Hp]. apply Forall_cons in Hp as [Hs _].
  repeat (apply Forall_cons in Ha as [? Ha]).
  rewrite section_step by done. change (SetClassKeyValue item0 (str "bssid") (bssid x)) with (set_bssid (bssid x) item0, 0).
  cbv iota beta. rewrite section_step by done.
  change (SetClassKeyValue ?i (str "ssid") ?v) with (set_ssid v i, 0). cbv iota beta.
  rewrite section_step by (done || by apply dec_int_plain).
  change (SetClassKeyValue ?i (str "absoluteLeasetime") ?v) with (set_absoluteLeasetime (CheckDataLegal v) i, 0).
  cbv iota beta. rewrite strtol_dec_int by done. rewrite !Z.add_0_r.
  rewrite (copy_step _ _ _ "strYiaddr" set_strYiaddr) by done.
  rewrite (copy_step _ _ _ "strOptServerId" set_strOptServerId) by done.
  rewrite (copy_step _ _ _ "strOptSubnet" set_strOptSubnet) by done.
  rewrite (copy_step _ _ _ "strOptDns1" set_strOptDns1) by done.
  rewrite (copy_step _ _ _ "strOptDns2" set_strOptDns2) by done.
  rewrite (copy_step _ _ _ "strOptRouter1" set_strOptRouter1) by done.
  rewrite (copy_step _ _ _ "strOptRouter2" set_strOptRouter2) by done.
  pose proof (dec_int_plain (uOptLeasetime (ipResult x)) ltac:(unfold is_u32 in Hu; lia)) as Hd.
  pose proof (strtol_dec_int (uOptLeasetime (ipResult x)) ltac:(unfold is_u32 in Hu; lia)) as Hv.
  unfold dec_int in Hd, Hv. rewrite (proj2 (Z.ltb_ge _ 0)) in Hd, Hv by (unfold is_u32 in Hu; lia).
  rewrite section_step by done.
  change (SetClassKeyValue ?i (str "uOptLeasetime") ?v) with
    (set_ipResult (set_uOptLeasetime (u32 (CheckDataLegal v)) (ipResult i)) i, 0).
  cbv iota beta. rewrite Hv, section_end.
  assert (Hw : u32 (i32 (uOptLeasetime (ipResult x))) = uOptLeasetime (ipResult x)).
  { unfold u32, i32, is_u32 in *. rewrite Zminus_mod_idemp_l. rewrite <- (Z.mod_small (uOptLeasetime (ipResult x)) (2 ^ 32)) at 2 by lia.
    f_equal. lia. }
  by rewrite Hw.
Qed.

Lemma ReadNetworkSection_more fuel : forall fuel' item e file r, (fuel <= fuel')%nat ->
  ReadNetworkSection_loop fuel item e file = Some r -> ReadNetworkSection_loop fuel' item e file = Some r.
Proof.
  induction fuel as [|fuel IH]; intros [|fuel'] item e file r Hf H; [done|done|lia|].
  destruct file as [|c f]; [done|]. cbn [ReadNetworkSection_loop] in *. destruct (next_line (c :: f)) as [l file].
  case_bool_decide; [apply IH; [lia|done]|]. destruct (bracketed _ _ _); [done|].
  destruct (find_eq l) as [[k v]|]; [destruct (SetClassKeyValue _ _ _)|]; apply IH; (lia || done).
Qed.

Lemma ReadNetwork_more fuel : forall fuel' item e file r, (fuel <= fuel')%nat ->
  ReadNetwork_loop fuel item e file = Some r -> ReadNetwork_loop fuel' item e file = Some r.
Proof.
  induction fuel as [|fuel IH]; intros [|fuel'] item e file r Hf H; [done|done|lia|].
  destruct file as [|c f]; [done|]. cbn [ReadNetwork_loop] in *. destruct (next_line (c :: f)) as [l file].
  case_bool_decide; [apply IH; [lia|done]|]. destruct (bracketed _ _ _).
  - destruct (ReadNetworkSection item file) as [[[i e1] f1]|]; [|done]. rewrite bind_some in *. apply IH; [lia|done].
  - case_bool_decide; [done|]. apply IH; [lia|done].
Qed.

(** One line at the head of each loop. *)
Lemma ReadNetwork_step fuel item e core file rest : next_line file = (core, rest) -> file <> [] ->
  ReadNetwork_loop (S fuel) item e file =
  if bool_decide (core = []) then ReadNetwork_loop fuel item e rest
  else if bracketed 60 62 core then
    '(item, e', file) ← ReadNetworkSection item rest; ReadNetwork_loop fuel item (e + e') file
  else if bool_decide (core = [125]) then Some (item, e, rest) else ReadNetwork_loop fuel item (e + 1) rest.
Proof. intros Hl Hne. destruct file as [|c f]; [done|]. cbn [ReadNetwork_loop]. by rewrite Hl. Qed.

Lemma LoadAllIpCached_step fuel item cached core file rest : next_line file = (core, rest) -> file <> [] ->
  LoadAllIpCached_loop (S fuel) item cached file =
  if bool_decide (core = []) then LoadAllIpCached_loop fuel item cached rest
  else if bracketed 91 123 core then
    '(item, configError, file) ← ReadNetwork (ClearClass item) rest;
    if configError >? 0 then LoadAllIpCached_loop fuel item cached file
    else LoadAllIpCached_loop fuel item (cached ++ [item]) file
  else LoadAllIpCached_loop fuel item cached rest.
Proof. intros Hl Hne. destruct file as [|c f]; [done|]. cbn [LoadAllIpCached_loop]. by rewrite Hl. Qed.

Lemma next_line_const indent core rest :
  forallb (fun c => c =? 32) indent && Nat.leb (length indent) 8 && forallb (fun c => (33 <=? c) && (c <=? 126)) core
  && Nat.leb (length core) 100 = true -> next_line (indent ++ core ++ newline :: rest) = (core, rest).
Proof.
  intros H. apply andb_prop in H as [H Hl%Nat.leb_le]. apply andb_prop in H as [H Hc]. apply andb_prop in H as [Hi Hil%Nat.leb_le].
  rewrite forallb_forall in Hi, Hc.
  assert (Hcore : Forall (fun c => 33 <= c <= 126) core).
  { apply List.Forall_forall. intros c Hin. specialize (Hc c Hin). btauto_hyps. lia. }
  apply next_line_text; [|done| | |lia].
  - apply List.Forall_forall. intros c Hin. specialize (Hi c Hin). by btauto_hyps.
  - destruct core as [|c r]; [done|]. apply Forall_cons in Hcore as Hc'. destruct Hc' as [? _]. cbn [trimmed].
    rewrite nonblank by lia. split; [done|]. apply nonblank. rewrite Forall_forall in Hcore.
    apply (Hcore (List.last (c :: r) 0)), list_elem_of_In.
    rewrite (app_removelast_last 0 (l := c :: r)) at 2 by done. apply in_or_app. right. by left.
  - eapply Forall_impl; [exact Hcore|]. unfold newline. cbn. lia.
Qed.

Lemma ReadNetwork_reads item0 x rest : storable x ->
  ReadNetwork item0 (OutClassString x ++ [newline] ++ str "}" ++ [newline] ++ rest) = Some (restored item0 x, 0, rest).
Proof.
  intros Hx. unfold ReadNetwork. apply (ReadNetwork_more 3).
  { unfold OutClassString. rewrite !length_app. change (length (str "    <IpInfoCached>")) with 18%nat. lia. }
  set (tail := [newline] ++ str "}" ++ [newline] ++ rest).
  unfold OutClassString. rewrite <- !app_assoc.
  erewrite ReadNetwork_step; [|apply (next_line_const (str "    ") (str "<IpInfoCached>")); by vm_compute|done].
  rewrite bool_decide_eq_false_2 by done. change (bracketed 60 62 (str "<IpInfoCached>")) with true. cbv iota.
  pose proof (ReadNetworkSection_reads item0 x tail Hx) as Hs. unfold ReadNetworkSection.
  eapply (ReadNetworkSection_more _ (S (length _))) in Hs; [rewrite <- ?app_assoc in Hs|].
  - rewrite Hs, bind_some. cbv beta iota.
    erewrite ReadNetwork_step; [|apply (next_line_const [] []); by vm_compute|done].
    rewrite bool_decide_eq_true_2 by done. cbv iota.
    erewrite ReadNetwork_step; [|apply (next_line_const [] (str "}")); by vm_compute|done].
    rewrite bool_decide_eq_false_2 by done. change (bracketed 60 62 (str "}")) with false. cbv iota.
    by rewrite bool_decide_eq_true_2 by done.
  - unfold field_line. rewrite !length_app. change (length (str "    ")) with 4%nat. lia.
Qed.

Lemma LoadAllIpCached_reads cached : forall i item0 acc fuel, Forall storable cached -> 0 <= i ->
  i + Z.of_nat (length cached) < 2 ^ 32 -> (length cached < fuel)%nat ->
  LoadAllIpCached_loop fuel item0 acc (config_text i cached) = Some (acc ++ map (restored (ClearClass item0)) cached).
Proof.
  induction cached as [|x cached IH]; intros i item0 acc [|fuel] Hc Hi Hb Hf; cbn [length] in *; try lia.
  { cbn [config_text LoadAllIpCached_loop map]. by rewrite app_nil_r. }
  apply Forall_cons in Hc as [Hx Hc].
  set (core := str "[IpInfoCached_" ++ dec_u64 (i + 1) ++ str "] {").
  set (rest := OutClassString x ++ [newline] ++ str "}" ++ [newline] ++ config_text (i + 1) cached).
  assert (Etext : config_text i (x :: cached) = [] ++ core ++ newline :: rest).
  { cbn [config_text]. unfold core, rest. by rewrite <- !app_assoc. }
  destruct (dec_u64_spec (i + 1)) as (Hd1 & Hd2 & Hd3 & _); [unfold is_u64; lia|].
  assert (Hlast : List.last core 0 = 123).
  { unfold core. change (str "] {") with ([93; 32] ++ [123]). by rewrite !app_assoc, last_app_cons. }
  assert (Hfirst : exists r, core = 91 :: r) by by eexists. destruct Hfirst as [r Er].
  assert (Hline : next_line (config_text i (x :: cached)) = (core, rest)).
  { rewrite Etext. apply next_line_text; [done|cbn; lia| | |].
    - rewrite Er. cbn [trimmed]. rewrite <- Er, Hlast. done.
    - unfold core. apply Forall_app. split; [by repeat constructor|]. apply Forall_app. split; [|by repeat constructor].
      eapply Forall_impl; [exact Hd2|]. intros c Hcd%isdigit_range. unfold newline. lia.
    - unfold core. rewrite !length_app. change (length (str "[IpInfoCached_")) with 14%nat.
      change (length (str "] {")) with 3%nat. lia. }
  rewrite (LoadAllIpCached_step fuel item0 acc core _ rest Hline) by (by rewrite Etext, Er).
  rewrite bool_decide_eq_false_2 by by rewrite Er.
  assert (bracketed 91 123 core = true) as -> by (unfold bracketed; rewrite Hlast, Er; done).
  unfold rest. rewrite (ReadNetwork_reads (ClearClass item0) x) by done. rewrite bind_some. cbv beta iota. cbn [Z.gtb Z.compare].
  rewrite IH by (try done; lia). rewrite <- app_assoc. done.
Qed.

(** The files of the store: the path of the cache is its own real path, its
    directory exists and it can be opened. *)
Definition usable `{StoreFiles} (path : bytes) : Prop :=
  path <> [] /\ IsValidPath store_realpath path = true /\ store_realpath path = Some path /\ store_fopen_w path = true.

Lemma cache_file_roundtrip_lemma `{StdSort} `{StoreFiles} item0 now s :
  usable (m_fileName s) -> Forall storable (m_allIpCached s) -> Z.of_nat (length (m_allIpCached s)) < 2 ^ 32 ->
  exists s1, SaveConfig s = (0, s1) /\ m_allIpCached s1 = [] /\
    LoadAllIpCached item0 now (m_fileName s) s1 =
      Some (0, mkStore (EnforceMaxCache now (map (restored (ClearClass item0)) (m_allIpCached s))) (m_fileName s) (files s1)).
Proof.
  intros (Hne & Hv & Hr & Hw) Hs Hl. unfold SaveConfig. rewrite Hv, Hw. cbn [negb].
  eexists. split; [done|]. split; [done|]. unfold LoadAllIpCached. cbn [m_fileName files m_allIpCached].
  rewrite bool_decide_eq_false_2, Hr, lookup_insert_eq by done.
  rewrite LoadAllIpCached_reads; [done|done|lia|lia|].
  assert (H1 : forall i cached, (length cached <= length (config_text i cached))%nat).
  { intros i cached. revert i. induction cached as [|x cached IH]; intros i; [done|]. cbn [config_text].
    rewrite !length_app. specialize (IH (i + 1)). cbn [length]. lia. }
  specialize (H1 0 (m_allIpCached s)). lia.
Qed.


(** A file system on which everything can be read and written. *)
#[export] Instance plain_files : StoreFiles := {| store_realpath := fun p => Some p; store_fopen_w := fun _ => true |}.

Definition cached_entry (n : Z) (lease : Z) : IpInfoCached :=
  mkCached (str "00:11:22:33:44:5" ++ [48 + n]) (str "home") lease
    (mkResult 0 (str "wlan0") 5 3600 (str "192.168.1.2") (str "192.168.1.1") (str "255.255.255.0") (str "8.8.8.8") []
       (str "192.168.1.1") [] [] []).

Definition empty_item : IpInfoCached := mkCached [] [] 0 no_result.

Lemma cached_entry_storable n lease : 0 <= n <= 9 -> - 2 ^ 63 <= lease < 2 ^ 63 -> storable (cached_entry n lease).
Proof.
  intros Hn Hl. assert (Hs : forall s, (forallb (fun c => (33 <=? c) && (c <=? 126)) s) && Nat.leb (length s) 15 = true ->
    plain s /\ Z.of_nat (length s) < INET_ADDRSTRLEN).
  { intros s H. apply andb_prop in H as [H Hlen%Nat.leb_le]. rewrite forallb_forall in H. unfold INET_ADDRSTRLEN.
    assert (Hf : Forall (fun c => 33 <= c) s) by (apply List.Forall_forall; intros c Hc; specialize (H c Hc); btauto_hyps; lia).
    split; [|lia]. split; [|split; [|lia]].
    - destruct s as [|c s]; [done|]. split; [apply nonblank; by apply Forall_cons in Hf as [? _]|]. apply nonblank.
      rewrite List.Forall_forall in Hf. apply Hf. rewrite (app_removelast_last 0 (l := c :: s)) at 2 by done.
      apply in_or_app. right. by left.
    - eapply Forall_impl; [exact Hf|]. unfold newline. cbn. lia. }
  split; [|split; [done|split; [by split|]]].
  - constructor; [|constructor; [by apply Hs|done]]. split; [|split].
    + split; [done|]. change (bssid (cached_entry n lease)) with (str "00:11:22:33:44:5" ++ [48 + n]).
      rewrite last_app_cons. cbn. apply nonblank. lia.
    + change (bssid (cached_entry n lease)) with (str "00:11:22:33:44:5" ++ [48 + n]).
      apply Forall_app. split; [by repeat constructor|]. constructor; [unfold newline; lia|done].
    + vm_compute. lia.
  - repeat (constructor; [by apply Hs|]). done.
Qed.


(** An entry is lost by the next save: saving clears the list of the store
    and does not read the file, so the second of two saves without a look-up in
    between leaves only its own entry in the file. *)
Theorem SaveIpInfoInLocalFile_loses `{StdSortLaws} `{StoreFiles} item0 now1 now2 now3 a b s :
  m_fileName s = DHCP_CACHE_FILE -> usable DHCP_CACHE_FILE -> storable b -> bssid a <> bssid b ->
  now1 <> -1 -> now2 <> -1 ->
  exists s1 s2 s3, SaveIpInfoInLocalFile now1 a s = (0, s1) /\ SaveIpInfoInLocalFile now2 b s1 = (0, s2) /\
    GetCachedIp item0 now3 (bssid a) s2 = Some (-1, None, s3).
Proof.
  intros Hn Hu Hb Hab H1 H2.
  assert (Hsave : forall now x s, m_fileName s = DHCP_CACHE_FILE -> exists s', SaveIpInfoInLocalFile now x s = (0, s') /\
    m_allIpCached s' = [] /\ m_fileName s' = DHCP_CACHE_FILE).
  { intros now x s0 Hs0. unfold SaveIpInfoInLocalFile, SaveConfig. cbn [m_fileName m_allIpCached files]. rewrite Hs0.
    destruct Hu as (_ & Hv & _ & Hw). rewrite Hv, Hw. cbn [negb]. by eexists. }
  destruct (Hsave now1 a s Hn) as (s1 & E1 & L1 & N1). exists s1.
  set (cached := EnforceMaxCache now2 [b]).
  assert (Hc : forall x, x ∈ cached -> x = b).
  { intros x Hx. destruct (EnforceMaxCache_keeps_lemma now2 [b] H2) as (_ & Hin & _).
    destruct (Hin x Hx) as [Hx' _]. by apply list_elem_of_singleton in Hx'. }
  destruct (cache_file_roundtrip_lemma item0 now3 (mkStore cached DHCP_CACHE_FILE (files s1))) as (s2 & E2 & _ & Eload).
  { done. }
  { apply Forall_forall. intros x Hx. by rewrite (Hc x Hx). }
  { cbn [m_allIpCached]. destruct (EnforceMaxCache_keeps_lemma now2 [b] H2) as (Hlen & _). fold cached in Hlen.
    unfold MAX_DHCP_CACHE in Hlen. lia. }
  exists s2. cbn [m_fileName m_allIpCached] in *. 
  eexists. split; [done|]. split.
  - unfold SaveIpInfoInLocalFile. rewrite L1, N1. exact E2.
  - unfold GetCachedIp. rewrite Eload, bind_some. cbv beta iota. cbn [m_allIpCached].
    set (loaded := EnforceMaxCache now3 _). assert (Hl : forall x, x ∈ loaded -> bssid x = bssid b).
    { intros x Hx. apply EnforceMaxCache_subset in Hx. apply list_elem_of_fmap in Hx as (y & -> & Hy). by rewrite (Hc y Hy). }
    assert (E : find_bssid (bssid a) loaded = None).
    { clear -Hl Hab. induction loaded as [|x l IH]; [done|]. cbn [find_bssid].
      rewrite bool_decide_eq_false_2; [apply IH; intros y Hy; apply Hl; by right|]. rewrite (Hl x) by by left. done. }
    by rewrite E.
Qed.

Lemma SaveIpInfoInLocalFile_loses_witness :
  exists s1 s2 s3,
    SaveIpInfoInLocalFile 1000 (cached_entry 1 5000) (mkStore [] DHCP_CACHE_FILE ∅) = (0, s1) /\
    SaveIpInfoInLocalFile 1001 (cached_entry 2 5000) s1 = (0, s2) /\
    GetCachedIp empty_item 1002 (bssid (cached_entry 1 5000)) s2 = Some (-1, None, s3).
Proof.
  apply SaveIpInfoInLocalFile_loses; [done|by split_and!|apply cached_entry_storable; lia|done|done|done].
Defined.

(** A lease without end is forgotten: its lease time, about 136 years ahead,
    comes back as the time before it was obtained. *)
Lemma infinite_lease_forgotten : forall t now, 1 < t <= now -> now < 2 ^ 31 ->
  let x := restored (ClearClass empty_item) (cached_entry 1 (t + 0xffffffff)) in
  absoluteLeasetime x = t - 1 /\ EnforceMaxCache now [x] = [].
Proof.
  intros t now Ht Hn x.
  assert (E : absoluteLeasetime x = t - 1).
  { change (absoluteLeasetime x) with (i32 (t + 0xffffffff)). unfold i32.
    replace (t + 0xffffffff + 2 ^ 31) with (t - 1 + 2 ^ 31 + 1 * 2 ^ 32) by lia.
    rewrite Z.mod_add, Z.mod_small by lia. lia. }
  split; [done|]. unfold EnforceMaxCache. rewrite (proj2 (Z.eqb_neq now (-1))) by lia.
  rewrite filter_cons_False; [done|]. unfold expired. rewrite E, Z.gtb_ltb.
  by rewrite (proj2 (Z.ltb_lt 0 _)), (proj2 (Z.ltb_lt _ now)) by lia.
Qed.
