(* ===== verification/ClientFunction.v ===== *)
(** Helpers of the client (src/services/dhcp_client/src/dhcp_function.cpp):
    address and hardware address text, directories, and the address and mask
    of an interface, read and set by [ioctl] on a socket.

    System calls are those of RawPacket ([Kernel]).  What an [ioctl] that reads
    puts in its structure, and the list [getifaddrs] returns, are parameters. *)
From S2P Require Import Prelude AddressUtils OptionList CommonUtil DottedQuad ClientOptions RawPacket ResultStore.

Definition MAC_ADDR_LEN : Z := 6.
Definition MAC_ADDR_CHAR_NUM : Z := 3.
Definition DIR_MAX_LEN : Z := 256.
Definition AF_INET : Z := 2.
Definition AF_INET6 : Z := 10.
Definition SIOCGIFADDR : Z := 0x8915.
Definition SIOCSIFADDR : Z := 0x8916.
Definition SIOCSIFNETMASK : Z := 0x891c.
Definition SIOCGIFHWADDR : Z := 0x8927.
Definition SIOCGIFINDEX : Z := 0x8933.

(** [inet_pton] for IPv4; it reads what [inet_ntop] writes. *)
Class InetPton := { inet_pton : bytes -> option Z }.
Class InetPtonLaws (T : InetText) (P : InetPton) := {
  inet_pton_ntop : forall ip s, is_u32 ip -> inet_ntop ip = Some s -> inet_pton s = Some ip;
  inet_pton_u32 : forall s ip, inet_pton s = Some ip -> is_u32 ip
}.

(** Returns success and [*uIp]. *)
Definition Ip4StrConToInt `{InetPton} (strIp : option bytes) (uIp : Z) (bHost : bool) : bool * Z :=
  match strIp with
  | None | Some [] => (false, uIp)
  | Some s =>
      match inet_pton s with
      | None => (false, uIp)
      | Some s_addr => (true, if bHost then ntohl s_addr else s_addr)
      end
  end.

Fixpoint MacChConToMacStr_loop (pSrc : bytes) : bytes :=
  match pSrc with
  | [] => []
  | b :: r => colon :: hex2 b ++ MacChConToMacStr_loop r
  end.

(** The string in [pStrMac], [None] when the function returns false. *)
Definition MacChConToMacStr (pChMac : option bytes) (chLen : Z) (strLen : Z) : option bytes :=
  match pChMac with
  | None => None
  | Some mac =>
      if chLen =? 0 then None
      else if strLen <? chLen * MAC_ADDR_CHAR_NUM then None
      else if chLen >? MAC_ADDR_LEN then None
      else
        match take (Z.to_nat chLen) mac with
        | [] => Some []
        | b :: r => Some (hex2 b ++ MacChConToMacStr_loop r)
        end
  end.

(** * Interfaces *)

(** An interface name in [ifr_name]: 16 bytes with its NUL. *)
Definition ifr_name_fits (ifname : bytes) : bool := Z.of_nat (length ifname) <? IFNAMSIZ.

(** What the reading [ioctl]s return. *)
Record ifreq := mkIfreq { ifr_ifindex : Z; ifr_hwaddr : bytes; ifr_addr : Z }.

(** An [ioctl] and the close of the socket when it fails. *)
Definition ioctl (fd request : Z) (ifname : bytes) (addr : Z) : M Kernel Z := syscall (c_ioctl fd request ifname addr).

(** Returns the code, [*ifindex], [hwaddr] and [*ifaddr4]; the outputs read
    before a failure stay. *)
Definition GetLocalInterface (answer : ifreq) (ifname : bytes) (ifindex : Z) (hwaddr : bytes) (ifaddr4 : option Z)
    : M Kernel (Z * Z * bytes * option Z) :=
  if bool_decide (ifname = []) then ret (DHCP_OPT_FAILED, ifindex, hwaddr, ifaddr4)
  else
    let* fd := syscall c_socket in
    if fd <? 0 then ret (DHCP_OPT_FAILED, ifindex, hwaddr, ifaddr4)
    else if negb (ifr_name_fits ifname) then close fd ;; ret (DHCP_OPT_FAILED, ifindex, hwaddr, ifaddr4)
    else
      let* r := ioctl fd SIOCGIFINDEX ifname 0 in
      if negb (r =? 0) then close fd ;; ret (DHCP_OPT_FAILED, ifindex, hwaddr, ifaddr4)
      else
        let* r := ioctl fd SIOCGIFHWADDR ifname 0 in
        if negb (r =? 0) then close fd ;; ret (DHCP_OPT_FAILED, ifr_ifindex answer, hwaddr, ifaddr4)
        else
          match ifaddr4 with
          | None => close fd ;; ret (DHCP_OPT_SUCCESS, ifr_ifindex answer, ifr_hwaddr answer, None)
          | Some _ =>
              let* r := ioctl fd SIOCGIFADDR ifname 0 in
              if r <? 0 then close fd ;; ret (DHCP_OPT_FAILED, ifr_ifindex answer, ifr_hwaddr answer, ifaddr4)
              else close fd ;; ret (DHCP_OPT_SUCCESS, ifr_ifindex answer, ifr_hwaddr answer, Some (ifr_addr answer))
          end.

(** An address of the machine: its interface, its family, and its text as
    [getnameinfo] gives it; [None] for a null pointer or a failure. *)
Record ifaddrs := mkIfaddrs { ifa_name : option bytes; sa_family : option Z; nameinfo : option bytes }.

(** The last component is whether the list is freed. *)
Fixpoint GetLocalIp_loop `{InetPton} (ifname : bytes) (ifa : list ifaddrs) (ifaddr4 : Z) : Z * Z * bool :=
  match ifa with
  | [] => (DHCP_OPT_SUCCESS, ifaddr4, true)
  | a :: r =>
      if negb (bool_decide (ifa_name a = Some ifname)) then GetLocalIp_loop ifname r ifaddr4
      else
        match sa_family a with
        | None => GetLocalIp_loop ifname r ifaddr4
        | Some family =>
            if negb (family =? AF_INET) && negb (family =? AF_INET6) then GetLocalIp_loop ifname r ifaddr4
            else
              match nameinfo a with
              | None => (DHCP_OPT_FAILED, ifaddr4, false)
              | Some strIp =>
                  if family =? AF_INET then
                    let '(ok, hostIp) := Ip4StrConToInt (Some strIp) 0 true in
                    if negb ok then (DHCP_OPT_FAILED, ifaddr4, false) else GetLocalIp_loop ifname r hostIp
                  else GetLocalIp_loop ifname r ifaddr4
              end
        end
  end.

(** [list] is the result of [getifaddrs]. *)
Definition GetLocalIp `{InetPton} (list : option (list ifaddrs)) (ifname : bytes) (ifaddr4 : Z) : Z * Z * bool :=
  if bool_decide (ifname = []) then (DHCP_OPT_FAILED, ifaddr4, true)
  else
    match list with
    | None => (DHCP_OPT_FAILED, ifaddr4, true)
    | Some ifa => GetLocalIp_loop ifname ifa ifaddr4
    end.

Definition SetIpOrMask (ifname : bytes) (fd netAddr cmd : Z) : M Kernel Z :=
  if negb (ifr_name_fits ifname) then ret DHCP_OPT_FAILED
  else
    let* r := ioctl fd cmd ifname netAddr in
    if r <? 0 then ret DHCP_OPT_FAILED else ret DHCP_OPT_SUCCESS.

Definition SetLocalInterface (ifname : bytes) (ipAddr netMask : Z) : M Kernel Z :=
  if bool_decide (ifname = []) then ret DHCP_OPT_FAILED
  else
    let* fd := syscall c_socket in
    if fd <? 0 then ret DHCP_OPT_FAILED
    else
      let* r := SetIpOrMask ifname fd ipAddr SIOCSIFADDR in
      if negb (r =? DHCP_OPT_SUCCESS) then close fd ;; ret DHCP_OPT_FAILED
      else
        let* r := SetIpOrMask ifname fd netMask SIOCSIFNETMASK in
        if negb (r =? DHCP_OPT_SUCCESS) then close fd ;; ret DHCP_OPT_FAILED
        else close fd ;; ret DHCP_OPT_SUCCESS.

(** * Directories *)

Section Create_dirs.
Context {FS : Type} (access_ok : FS -> bytes -> bool) (mkdir : FS -> bytes -> bool * FS).

(** [seen] is [strDir[0..i)]. *)
Fixpoint CreateDirs_loop (fs : FS) (seen rest : bytes) : Z * FS :=
  match rest with
  | [] => (DHCP_OPT_SUCCESS, fs)
  | c :: r =>
      if c =? slash then
        if access_ok fs seen then CreateDirs_loop fs (seen ++ [c]) r
        else
          let '(ok, fs) := mkdir fs seen in
          if ok then CreateDirs_loop fs (seen ++ [c]) r else (DHCP_OPT_FAILED, fs)
      else CreateDirs_loop fs (seen ++ [c]) r
  end.

Definition CreateDirs (fs : FS) (dirs : bytes) : Z * FS :=
  if bool_decide (dirs = []) || (Z.of_nat (length dirs) >=? DIR_MAX_LEN) then (DHCP_OPT_FAILED, fs)
  else
    let with_slash := List.last dirs 0 =? slash in
    if negb with_slash && (Z.of_nat (length dirs) =? DIR_MAX_LEN - 1) then (DHCP_OPT_FAILED, fs)
    else
      let strDir := if with_slash then dirs else dirs ++ [slash] in
      if byte_at strDir 0 =? slash then CreateDirs_loop fs [slash] (tail strDir) else CreateDirs_loop fs [] strDir.
End Create_dirs.

(** * No descriptor is lost *)

(** The next socket, if one is opened, is a new descriptor. *)
Definition fresh_socket (k : Kernel) : Prop :=
  forall fd, head (results k) = Some fd -> fd = -1 \/ 0 <= fd /\ fd ∉ open_fds k.

Lemma wp_socket (Q : Z -> Kernel -> Prop) k : fresh_socket k ->
  (forall rs cs, Q (-1) (mkKernel rs (open_fds k) cs)) ->
  (forall fd rs cs, 0 <= fd -> fd ∉ open_fds k -> Q fd (mkKernel rs (fd :: open_fds k) cs)) ->
  wp (syscall c_socket) Q k.
Proof.
  intros Hf H0 H1. unfold wp, syscall. unfold fresh_socket in Hf. destruct (results k) as [|r rs]; [apply H0|].
  cbn [head default] in *. cbn. destruct (Hf r eq_refl) as [-> | [Hr Hn]]; [apply H0|].
  rewrite (proj2 (Z.eqb_neq r (-1))) by lia. by apply H1.
Qed.

Lemma wp_ioctl fd req name addr (Q : Z -> Kernel -> Prop) k :
  (forall r rs cs, Q r (mkKernel rs (open_fds k) cs)) -> wp (ioctl fd req name addr) Q k.
Proof. intros H. apply wp_syscall. intros. apply H. Qed.

(** Closing the one socket opened. *)
Lemma wp_close_new {A} fd (a : A) (Q : A -> Kernel -> Prop) fds k : fd ∉ fds -> open_fds k = fd :: fds ->
  (forall rs cs, Q a (mkKernel rs fds cs)) -> wp (close fd ;; ret a) Q k.
Proof.
  intros Hfd Hk H. apply wp_bind, wp_close. intros. apply wp_ret. rewrite Hk, filter_opened by done. apply H.
Qed.

Lemma SetIpOrMask_spec name fd addr cmd (Q : Z -> Kernel -> Prop) k :
  (forall r rs cs, r = DHCP_OPT_SUCCESS \/ r = DHCP_OPT_FAILED -> Q r (mkKernel rs (open_fds k) cs)) ->
  wp (SetIpOrMask name fd addr cmd) Q k.
Proof.
  intros H. unfold SetIpOrMask. apply wp_if; intros _; [apply wp_ret; destruct k as [rs fds cs]; apply (H _ rs cs); auto|].
  apply wp_bind, wp_ioctl. intros. apply wp_if; intros _; apply wp_ret, H; auto.
Qed.

(** Reading and setting the address of an interface succeeds or fails, and
    leaves the open descriptors as they were, whatever the system calls return. *)
Theorem interface_closes_socket answer ifname ifindex hwaddr ifaddr4 ip mask k : fresh_socket k ->
  wp (GetLocalInterface answer ifname ifindex hwaddr ifaddr4)
    (fun '(r, _, _, _) k' => (r = DHCP_OPT_SUCCESS \/ r = DHCP_OPT_FAILED) /\ open_fds k' = open_fds k) k /\
  wp (SetLocalInterface ifname ip mask)
    (fun r k' => (r = DHCP_OPT_SUCCESS \/ r = DHCP_OPT_FAILED) /\ open_fds k' = open_fds k) k.
Proof.
  intros Hf. split.
  - unfold GetLocalInterface. apply wp_if; intros _; [apply wp_ret; auto|]. apply wp_bind, wp_socket; [done| |].
    { intros. cbn [Z.ltb Z.compare]. apply wp_ret; auto. }
    intros fd rs cs H0 Hfd. rewrite (proj2 (Z.ltb_ge fd 0)) by done.
    apply wp_if; intros _; [by eapply wp_close_new; eauto|]. apply wp_bind, wp_ioctl. intros.
    apply wp_if; intros _; [by eapply wp_close_new; eauto|]. apply wp_bind, wp_ioctl. intros.
    apply wp_if; intros _; [by eapply wp_close_new; eauto|].
    destruct ifaddr4; [|by eapply wp_close_new; eauto]. apply wp_bind, wp_ioctl. intros.
    apply wp_if; intros _; by eapply wp_close_new; eauto.
  - unfold SetLocalInterface. apply wp_if; intros _; [apply wp_ret; auto|]. apply wp_bind, wp_socket; [done| |].
    { intros. cbn [Z.ltb Z.compare]. apply wp_ret; auto. }
    intros fd rs cs H0 Hfd. rewrite (proj2 (Z.ltb_ge fd 0)) by done.
    apply wp_bind, SetIpOrMask_spec. intros. apply wp_if; intros _; [by eapply wp_close_new; eauto|].
    apply wp_bind, SetIpOrMask_spec. intros. apply wp_if; intros _; by eapply wp_close_new; eauto.
Qed.

Lemma interface_closes_socket_witness :
  let k := mkKernel [7; 0; -1] [3] [] in
  wp (GetLocalInterface (mkIfreq 2 (zeros 6) 0) (str "wlan0") 0 [] None)
    (fun '(r, _, _, _) k' => (r = DHCP_OPT_SUCCESS \/ r = DHCP_OPT_FAILED) /\ open_fds k' = open_fds k) k /\
  wp (SetLocalInterface (str "wlan0") 1 2)
    (fun r k' => (r = DHCP_OPT_SUCCESS \/ r = DHCP_OPT_FAILED) /\ open_fds k' = open_fds k) k.
Proof.
  apply interface_closes_socket. intros fd [= <-]. right. split; [done|]. by intros ?%list_elem_of_singleton.
Defined.

(** * Text *)

(** The characters of a hardware address of [n] bytes. *)
Lemma MacChConToMacStr_length mac chLen : 0 < chLen <= 6 -> Z.of_nat (length mac) = chLen ->
  exists s, MacChConToMacStr (Some mac) chLen (chLen * MAC_ADDR_CHAR_NUM) = Some s /\
    Z.of_nat (length s) = chLen * MAC_ADDR_CHAR_NUM - 1.
Proof.
  intros Hc Hl. unfold MacChConToMacStr, MAC_ADDR_CHAR_NUM, MAC_ADDR_LEN.
  rewrite (proj2 (Z.eqb_neq chLen 0)), (proj2 (Z.ltb_ge _ _)), Z.gtb_ltb, (proj2 (Z.ltb_ge _ _)) by lia.
  rewrite take_ge by lia. destruct mac as [|b r]; [cbn in Hl; lia|]. eexists. split; [done|].
  assert (H : forall l, Z.of_nat (length (MacChConToMacStr_loop l)) = 3 * Z.of_nat (length l)).
  { induction l as [|x l IH]; [done|]. cbn [MacChConToMacStr_loop length]. rewrite length_app. unfold hex2.
    cbn [length]. lia. }
  rewrite length_app, Nat2Z.inj_add, H. cbn [length] in *. unfold hex2. cbn [length]. lia.
Qed.

(** An address in host order is read back from its text. *)
Lemma Ip4StrConToInt_text `{InetPtonLaws} ip s uIp : is_u32 ip -> inet_ntop ip = Some s -> s <> [] ->
  Ip4StrConToInt (Some s) uIp false = (true, ip).
Proof.
  intros Hip Hs Hne. unfold Ip4StrConToInt. rewrite (inet_pton_ntop ip s) by done. by destruct s.
Qed.
