(* ===== verification/ClientState.v ===== *)
(** The state of the IPv4 client and the packets it builds
    (src/services/dhcp_client/src/dhcp_client_state_machine.cpp and its header).

    [Client] holds the members of DhcpClientStateMachine, the store of results,
    the sockets' kernel, and a trace of what the client does to its surroundings:
    packets sent, results published, timers started and stopped.  The clock, the
    random numbers, the ARP probe and the services of the platform are an
    [Environment]; each query takes the next reading, so that two readings of the
    clock may differ.  [None] is undefined behaviour. *)
From S2P Require Import Prelude AddressUtils OptionList Codec CommonUtil DottedQuad ClientOptions RawPacket ResultStore ClientFunction.

#[local] Arguments str : simpl never.

Definition DHCP_STATE_INIT : Z := 0.
Definition DHCP_STATE_SELECTING : Z := 1.
Definition DHCP_STATE_REQUESTING : Z := 2.
Definition DHCP_STATE_BOUND : Z := 3.
Definition DHCP_STATE_RENEWING : Z := 4.
Definition DHCP_STATE_REBINDING : Z := 5.
Definition DHCP_STATE_INITREBOOT : Z := 6.
Definition DHCP_STATE_RELEASED : Z := 7.
Definition DHCP_STATE_RENEWED : Z := 8.
Definition DHCP_STATE_FAST_ARP : Z := 9.
Definition DHCP_STATE_SLOW_ARP : Z := 10.
Definition DHCP_STATE_DECLINE : Z := 11.

Definition ACTION_START_NEW : Z := 0.
Definition ACTION_START_OLD : Z := 1.
Definition ACTION_RENEW_T1 : Z := 2.
Definition ACTION_RENEW_T2 : Z := 3.
Definition ACTION_RENEW_T3 : Z := 4.

Definition SOCKET_MODE_INVALID : Z := 0.
Definition SOCKET_MODE_RAW : Z := 1.
Definition SOCKET_MODE_KERNEL : Z := 2.

Definition IPV4_TASK_IDLE : Z := 0.
Definition IPV4_TASK_RUNNING : Z := 1.
Definition IPV4_TASK_STOP_REQUESTED : Z := 2.

Definition DHCP_IP_TYPE_NONE : Z := 0.
Definition DHCP_IP_TYPE_ALL : Z := 1.
Definition DHCP_IP_TYPE_V4 : Z := 2.

Definition DHCP_DISCOVER : Z := 1.
Definition DHCP_OFFER : Z := 2.
Definition DHCP_REQUEST : Z := 3.
Definition DHCP_DECLINE : Z := 4.
Definition DHCP_ACK : Z := 5.
Definition DHCP_NAK : Z := 6.
Definition DHCP_RELEASE : Z := 7.
Definition DHCP_INFORM : Z := 8.
Definition BOOT_REQUEST : Z := 1.
Definition BOOT_REPLY : Z := 2.
Definition ETHERNET_TYPE : Z := 1.
Definition ETHERNET_LEN : Z := 6.
Definition VENDOR_MAX_LEN : Z := 64.
Definition MAX_MSG_SIZE : Z := 1500.
Definition MAC_BCAST_ADDR : bytes := [255; 255; 255; 255; 255; 255].
Definition CLIENT_IDENTIFIER_OPTION : Z := 61.
Definition CAPTIVE_PORTAL_OPTION : Z := 114.
Definition VENDOR_NAME_PREFIX : bytes := str "HUAWEI:openharmony".

(** * Members *)

(** Which member holds a timer: one for each type. *)
Inductive TimerType := TIMER_GET_IP | TIMER_RENEW_DELAY | TIMER_REBIND_DELAY | TIMER_REMAINING_DELAY | TIMER_SLOW_ARP.
#[export] Instance TimerType_eq_dec : EqDecision TimerType.
Proof. solve_decision. Defined.

Record RouterConfig := mkRouter {
  router_ifname : bytes; router_bssid : bytes; prohibitUseCacheIp : bool;
  bIpv6 : bool; bSpecificNetwork : bool; isStaticIpv4 : bool; bIpv4 : bool
}.

Record DhcpClientCfg := mkCfg {
  ifaceIndex : Z; isIpv6 : bool; ifaceIpv4 : Z; getMode : Z; ifaceMac : bytes; ifaceName : bytes;
  workDir : bytes; confFile : bytes; leaseFile : bytes; resultFile : bytes; result6File : bytes
}.

(** The task of the client: none, posted to its thread, or in its loop with the
    raw and the kernel socket. *)
Inductive Task := task_none | task_posted | task_loop (sockFdRaw sockFdkernel : Z).

(** What the client does to its surroundings. *)
Inductive action :=
| Sent (packet : DhcpPacket) (srcIp destIp : Z) (broadcast : bool)
| Published (p : publication)
| TimerStarted (t : TimerType) (interval : Z)
| TimerStopped (t : TimerType)
| ArpProbed (ip : bytes) (timeout : Z)
| ArpTaskPosted
| Slept (seconds : Z)
| KernelFileWritten (path : bytes) (text : bytes).

Record Client := mkClient {
  m_dhcp4State : Z; m_resendTimer : Z; m_sentPacketNum : Z; m_timeoutTimestamp : Z; m_renewalTimestamp : Z;
  m_renewalTimestampBoot : Z; m_leaseTime : Z; m_renewalSec : Z; m_rebindSec : Z; m_requestedIp4 : Z;
  m_serverIp4 : Z; m_socketMode : Z; m_transID : Z; m_cltCnf : DhcpClientCfg; threadState_ : Z;
  m_ifName : bytes; m_action : Z; timerId : TimerType -> Z; m_slowArpTaskId : Z; timeOut_ : Z;
  m_arpDectionTargetIp : bytes; m_routerCfg : RouterConfig; m_conflictCount : Z; m_dhcpIpResult : DhcpIpResult;
  m_slowArpDetecting : bool; firstSendPacketTime_ : Z; task : Task; store : Store; kernel : Kernel;
  ticks : nat; trace : list action
}.

(** The record from its members; assignments replace one of them. *)
Definition eta (s : Client) : Client :=
  mkClient (m_dhcp4State s) (m_resendTimer s) (m_sentPacketNum s) (m_timeoutTimestamp s)
    (m_renewalTimestamp s) (m_renewalTimestampBoot s) (m_leaseTime s) (m_renewalSec s) (m_rebindSec s)
    (m_requestedIp4 s) (m_serverIp4 s) (m_socketMode s) (m_transID s) (m_cltCnf s) (threadState_ s)
    (m_ifName s) (m_action s) (timerId s) (m_slowArpTaskId s) (timeOut_ s) (m_arpDectionTargetIp s)
    (m_routerCfg s) (m_conflictCount s) (m_dhcpIpResult s) (m_slowArpDetecting s) (firstSendPacketTime_ s)
    (task s) (store s) (kernel s) (ticks s) (trace s).

Ltac set_member proj s v :=
  let e := eval unfold eta in (eta s) in
  match e with context C [proj s] => let r := context C [v] in exact r end.

Definition set_m_dhcp4State (v : Z) (s : Client) : Client := ltac:(set_member m_dhcp4State s v).
Definition set_m_resendTimer (v : Z) (s : Client) : Client := ltac:(set_member m_resendTimer s v).
Definition set_m_sentPacketNum (v : Z) (s : Client) : Client := ltac:(set_member m_sentPacketNum s v).
Definition set_m_timeoutTimestamp (v : Z) (s : Client) : Client := ltac:(set_member m_timeoutTimestamp s v).
Definition set_m_renewalTimestamp (v : Z) (s : Client) : Client := ltac:(set_member m_renewalTimestamp s v).
Definition set_m_renewalTimestampBoot (v : Z) (s : Client) : Client := ltac:(set_member m_renewalTimestampBoot s v).
Definition set_m_leaseTime (v : Z) (s : Client) : Client := ltac:(set_member m_leaseTime s v).
Definition set_m_renewalSec (v : Z) (s : Client) : Client := ltac:(set_member m_renewalSec s v).
Definition set_m_rebindSec (v : Z) (s : Client) : Client := ltac:(set_member m_rebindSec s v).
Definition set_m_requestedIp4 (v : Z) (s : Client) : Client := ltac:(set_member m_requestedIp4 s v).
Definition set_m_serverIp4 (v : Z) (s : Client) : Client := ltac:(set_member m_serverIp4 s v).
Definition set_m_socketMode (v : Z) (s : Client) : Client := ltac:(set_member m_socketMode s v).
Definition set_m_transID (v : Z) (s : Client) : Client := ltac:(set_member m_transID s v).
Definition set_m_cltCnf (v : DhcpClientCfg) (s : Client) : Client := ltac:(set_member m_cltCnf s v).
Definition set_threadState_ (v : Z) (s : Client) : Client := ltac:(set_member threadState_ s v).
Definition set_m_ifName (v : bytes) (s : Client) : Client := ltac:(set_member m_ifName s v).
Definition set_m_action (v : Z) (s : Client) : Client := ltac:(set_member m_action s v).
Definition set_timerId (v : TimerType -> Z) (s : Client) : Client := ltac:(set_member timerId s v).
Definition set_m_slowArpTaskId (v : Z) (s : Client) : Client := ltac:(set_member m_slowArpTaskId s v).
Definition set_timeOut_ (v : Z) (s : Client) : Client := ltac:(set_member timeOut_ s v).
Definition set_m_arpDectionTargetIp (v : bytes) (s : Client) : Client := ltac:(set_member m_arpDectionTargetIp s v).
Definition set_m_routerCfg (v : RouterConfig) (s : Client) : Client := ltac:(set_member m_routerCfg s v).
Definition set_m_conflictCount (v : Z) (s : Client) : Client := ltac:(set_member m_conflictCount s v).
Definition set_m_dhcpIpResult (v : DhcpIpResult) (s : Client) : Client := ltac:(set_member m_dhcpIpResult s v).
Definition set_m_slowArpDetecting (v : bool) (s : Client) : Client := ltac:(set_member m_slowArpDetecting s v).
Definition set_firstSendPacketTime_ (v : Z) (s : Client) : Client := ltac:(set_member firstSendPacketTime_ s v).
Definition set_task (v : Task) (s : Client) : Client := ltac:(set_member task s v).
Definition set_store (v : Store) (s : Client) : Client := ltac:(set_member store s v).
Definition set_kernel (v : Kernel) (s : Client) : Client := ltac:(set_member kernel s v).
Definition set_ticks (v : nat) (s : Client) : Client := ltac:(set_member ticks s v).
Definition set_trace (v : list action) (s : Client) : Client := ltac:(set_member trace s v).

(** * Surroundings *)

(** Readings are taken in order: the [n]-th query of the client reads at [n].
    [junk_...] is what uninitialised variables hold. *)
Class Environment := {
  time_ : nat -> Z;                        (* time(NULL), -1 on an error *)
  boot_seconds : nat -> Z;                 (* CLOCK_BOOTTIME *)
  random_ : nat -> Z;                      (* random() *)
  arp_reachable : nat -> bool;             (* DhcpArpChecker::DoArpCheck *)
  service : nat -> publication -> Z;       (* the client service *)
  interface_answer : nat -> ifreq;         (* what ioctl reads *)
  interface_list : nat -> option (list ifaddrs);
  directories_made : nat -> bool;          (* access and mkdir in CreateDirs *)
  create_timer : nat -> Z;                 (* the id of a new timer *)
  register_task : nat -> Z;                (* the id of a task of DhcpTimer *)
  post_task : nat -> bool;                 (* DhcpThread::PostAsyncTask *)
  exited_in_time : nat -> bool;            (* the task ends while it is waited for *)
  product_model : bytes;                   (* GetProductModelAlias *)
  device_type : option bytes;              (* GetParameter *)
  junk_byte : nat -> Z;
  junk_result : nat -> DhcpIpResult;
  junk_item : nat -> IpInfoCached
}.

(** What the client relies on: the readings are values of their C types, and a
    hardware address has six bytes. *)
Class EnvironmentLaws (E : Environment) := {
  time_range : forall n, -1 <= time_ n < 2 ^ 62;
  boot_range : forall n, 0 <= boot_seconds n < 2 ^ 62;
  random_range : forall n, is_u32 (random_ n);
  answer_mac : forall n, length (ifr_hwaddr (interface_answer n)) = 6%nat /\ Forall is_u8 (ifr_hwaddr (interface_answer n));
  timer_nonzero : forall n, create_timer n <> 0;
  model_text : Forall (fun c => is_u8 c /\ c <> 0) product_model;
  junk_u8 : forall n, is_u8 (junk_byte n)
}.

Section Client.
Context {IT : InetText} {IP : InetPton} {SO : StdSort} {SF : StoreFiles} {EN : Environment}.

Definition query {A} (reading : nat -> A) : M Client A :=
  let* n := get ticks in modify (set_ticks (S n)) ;; ret (reading n).

Definition act (a : action) : M Client unit := modify (fun s => set_trace (trace s ++ [a]) s).

Definition lift_kernel {A} (m : M Kernel A) : M Client A :=
  fun s => match m (kernel s) with Some (a, k) => Some (a, set_kernel k s) | None => None end.

(** * Packets *)

Definition zero_packet : DhcpPacket :=
  mkPacket 0 0 0 0 0 0 0 0 0 0 0 (zeros 16) (zeros 64) (zeros 128) 0 (zeros 1780).

Definition with_options (o : bytes) (p : DhcpPacket) : DhcpPacket :=
  mkPacket (c_op p) (c_htype p) (c_hlen p) (c_hops p) (c_xid p) (c_secs p) (c_flags p) (c_ciaddr p) (c_yiaddr p)
    (c_siaddr p) (c_giaddr p) (c_chaddr p) (c_sname p) (c_file p) (c_cookie p) o.
Definition with_head (op htype hlen cookie : Z) (p : DhcpPacket) : DhcpPacket :=
  mkPacket op htype hlen (c_hops p) (c_xid p) (c_secs p) (c_flags p) (c_ciaddr p) (c_yiaddr p)
    (c_siaddr p) (c_giaddr p) (c_chaddr p) (c_sname p) (c_file p) cookie (c_options p).
Definition with_xid (v : Z) (p : DhcpPacket) : DhcpPacket :=
  mkPacket (c_op p) (c_htype p) (c_hlen p) (c_hops p) v (c_secs p) (c_flags p) (c_ciaddr p) (c_yiaddr p)
    (c_siaddr p) (c_giaddr p) (c_chaddr p) (c_sname p) (c_file p) (c_cookie p) (c_options p).
Definition with_secs (v : Z) (p : DhcpPacket) : DhcpPacket :=
  mkPacket (c_op p) (c_htype p) (c_hlen p) (c_hops p) (c_xid p) v (c_flags p) (c_ciaddr p) (c_yiaddr p)
    (c_siaddr p) (c_giaddr p) (c_chaddr p) (c_sname p) (c_file p) (c_cookie p) (c_options p).
Definition with_ciaddr (v : Z) (p : DhcpPacket) : DhcpPacket :=
  mkPacket (c_op p) (c_htype p) (c_hlen p) (c_hops p) (c_xid p) (c_secs p) (c_flags p) v (c_yiaddr p)
    (c_siaddr p) (c_giaddr p) (c_chaddr p) (c_sname p) (c_file p) (c_cookie p) (c_options p).
Definition with_chaddr (v : bytes) (p : DhcpPacket) : DhcpPacket :=
  mkPacket (c_op p) (c_htype p) (c_hlen p) (c_hops p) (c_xid p) (c_secs p) (c_flags p) (c_ciaddr p) (c_yiaddr p)
    (c_siaddr p) (c_giaddr p) v (c_sname p) (c_file p) (c_cookie p) (c_options p).

(** The options functions applied to the options of a packet. *)
Definition add_value (code value : Z) (p : DhcpPacket) : option DhcpPacket :=
  '(_, o) ← AddOptValueToOpts (c_options p) code value; Some (with_options o p).
Definition add_option (opt : bytes) (len : Z) (p : DhcpPacket) : option DhcpPacket :=
  '(_, o) ← AddOptStrToOpts (c_options p) opt len; Some (with_options o p).

Definition GetPacketHeaderInfo (type : Z) (packet : DhcpPacket) : option DhcpPacket :=
  let op :=
    if (type =? DHCP_DISCOVER) || (type =? DHCP_REQUEST) || (type =? DHCP_DECLINE) || (type =? DHCP_RELEASE)
       || (type =? DHCP_INFORM) then BOOT_REQUEST
    else if (type =? DHCP_OFFER) || (type =? DHCP_ACK) || (type =? DHCP_NAK) then BOOT_REPLY
    else c_op packet in
  let packet := with_head op ETHERNET_TYPE ETHERNET_LEN (htonl MAGIC_COOKIE) packet in
  o ← write_at (c_options packet) 0 [END_OPTION];
  add_value DHCP_MESSAGE_TYPE_OPTION type (with_options o packet).

(** The copy of the hardware address into [chaddr]; it always fits. *)
Definition copy_chaddr (mac : bytes) (packet : DhcpPacket) : DhcpPacket :=
  with_chaddr (snd (memcpy_s (c_chaddr packet) DHCP_HWADDR_LENGTH mac MAC_ADDR_LEN)) packet.

Definition AddClientIdToOpts (mac : bytes) (packet : DhcpPacket) : option DhcpPacket :=
  match MacChConToMacStr (Some mac) MAC_ADDR_LEN (MAC_ADDR_LEN * MAC_ADDR_CHAR_NUM) with
  | None => Some packet
  | Some _ =>
      let optValue := pad 62 ([CLIENT_IDENTIFIER_OPTION; MAC_ADDR_LEN + 1; 1] ++ take 6 mac) in
      let optValueLen := DHCP_OPT_CODE_BYTES + DHCP_OPT_LEN_BYTES + (MAC_ADDR_LEN + 1) in
      add_option optValue optValueLen packet
  end.

(** [snprintf_s] fails when the text has more than 61 characters. *)
Definition AddStrToOpts (code : Z) (value : bytes) (packet : DhcpPacket) : option DhcpPacket :=
  if Z.of_nat (length value) >? VENDOR_MAX_LEN - DHCP_OPT_DATA_INDEX - 1 then Some packet
  else
    let optValue := pad 64 ([code; Z.of_nat (length value)] ++ value) in
    add_option optValue (DHCP_OPT_CODE_BYTES + DHCP_OPT_LEN_BYTES + Z.of_nat (length value)) packet.

Definition AddHostNameToOpts (packet : DhcpPacket) : option DhcpPacket :=
  let strProductModel := product_model in
  let venderClass := VENDOR_NAME_PREFIX ++ colon :: strProductModel in
  packet ← AddStrToOpts VENDOR_CLASS_IDENTIFIER_OPTION venderClass packet;
  AddStrToOpts HOST_NAME_OPTION strProductModel packet.

Definition GetPacketCommonInfo (mac : bytes) (packet : DhcpPacket) : option DhcpPacket :=
  packet ← AddClientIdToOpts mac (copy_chaddr mac packet);
  AddHostNameToOpts packet.

Definition arrReqCode : list Z :=
  [SUBNET_MASK_OPTION; ROUTER_OPTION; DOMAIN_NAME_SERVER_OPTION; DOMAIN_NAME_OPTION; INTERFACE_MTU_OPTION;
   BROADCAST_ADDRESS_OPTION; IP_ADDRESS_LEASE_TIME_OPTION; RENEWAL_TIME_VALUE_OPTION; REBINDING_TIME_VALUE_OPTION;
   VENDOR_SPECIFIC_INFO_OPTION; CAPTIVE_PORTAL_OPTION; IPV6_ONLY_PREFERRED_OPTION].

(** The loop over the codes, writing from [end + DHCP_OPT_DATA_INDEX + len]. *)
Fixpoint write_codes (codes : list Z) (end_ len : Z) (options : bytes) : option (bytes * Z) :=
  match codes with
  | [] => Some (options, len)
  | c :: r =>
      if (c >? PAD_OPTION) && (c <? END_OPTION) then
        options ← write_at options (end_ + DHCP_OPT_DATA_INDEX + len) [c];
        write_codes r end_ (len + 1) options
      else write_codes r end_ len options
  end.

Definition AddParamaterRequestList (packet : DhcpPacket) : option DhcpPacket :=
  end_ ← GetEndOptionIndex (c_options packet);
  o ← write_at (c_options packet) (end_ + DHCP_OPT_CODE_INDEX) [PARAMETER_REQUEST_LIST_OPTION];
  '(o, len) ← write_codes arrReqCode end_ 0 o;
  o ← write_at o (end_ + DHCP_OPT_LEN_INDEX) [len];
  o ← write_at o (end_ + DHCP_OPT_DATA_INDEX + len) [END_OPTION];
  Some (with_options o packet).
Definition AddParamaterRebootList : DhcpPacket -> option DhcpPacket := AddParamaterRequestList.

(** Sending through the raw socket to the link's broadcast address, and through
    a bound socket to a server. *)
Definition send_raw (packet : DhcpPacket) : M Client Z :=
  let* cnf := get m_cltCnf in
  act (Sent packet INADDR_ANY INADDR_BROADCAST true) ;;
  lift_kernel (SendToDhcpPacket packet INADDR_ANY INADDR_BROADCAST (ifaceIndex cnf) (Some MAC_BCAST_ADDR)).
Definition send_kernel (packet : DhcpPacket) (srcIp destIp : Z) : M Client Z :=
  act (Sent packet srcIp destIp false) ;;
  lift_kernel (SendDhcpPacket packet srcIp destIp).

Definition SetSecondsElapsed (packet : DhcpPacket) : M Client DhcpPacket :=
  let* curTimeSeconds := query boot_seconds in
  let* first := get firstSendPacketTime_ in
  when (first =? 0) (modify (set_firstSendPacketTime_ curTimeSeconds)) ;;
  let* first := get firstSendPacketTime_ in
  ret (with_secs (htons (u16 (curTimeSeconds - first))) packet).

Definition mac_of : M Client bytes := let* cnf := get m_cltCnf in ret (ifaceMac cnf).

Definition DhcpDiscover (transid requestip : Z) : M Client Z :=
  let* mac := mac_of in
  let* packet := from_option (GetPacketHeaderInfo DHCP_DISCOVER zero_packet) in
  let* packet := from_option (GetPacketCommonInfo mac packet) in
  let* packet := SetSecondsElapsed (with_xid transid packet) in
  let* packet := from_option (add_value MAXIMUM_DHCP_MESSAGE_SIZE_OPTION MAX_MSG_SIZE packet) in
  let* packet := from_option (AddParamaterRequestList packet) in
  send_raw packet.

Definition DhcpRequest (transid reqip servip : Z) : M Client Z :=
  let* mac := mac_of in
  let* packet := from_option (GetPacketHeaderInfo DHCP_REQUEST zero_packet) in
  let* packet := from_option (GetPacketCommonInfo mac packet) in
  let* packet := SetSecondsElapsed (with_xid transid packet) in
  let* packet := from_option (add_value SERVER_IDENTIFIER_OPTION servip packet) in
  let* packet := from_option (add_value REQUESTED_IP_ADDRESS_OPTION reqip packet) in
  let* packet := from_option (add_value MAXIMUM_DHCP_MESSAGE_SIZE_OPTION MAX_MSG_SIZE packet) in
  let* packet := from_option (AddParamaterRequestList packet) in
  send_raw packet.

Definition DhcpReboot (transid reqip : Z) : M Client Z :=
  let* mac := mac_of in
  let* packet := from_option (GetPacketHeaderInfo DHCP_REQUEST zero_packet) in
  let* packet := SetSecondsElapsed (with_xid transid (copy_chaddr mac packet)) in
  let* packet := from_option (AddClientIdToOpts mac packet) in
  let* packet := from_option (add_value REQUESTED_IP_ADDRESS_OPTION reqip packet) in
  let* packet := from_option (add_value MAXIMUM_DHCP_MESSAGE_SIZE_OPTION MAX_MSG_SIZE packet) in
  let* packet := from_option (AddHostNameToOpts packet) in
  let* packet := from_option (AddParamaterRebootList packet) in
  send_raw packet.

Definition DhcpRenew (transid clientip serverip : Z) : M Client Z :=
  let* mac := mac_of in
  let* packet := from_option (GetPacketHeaderInfo DHCP_REQUEST zero_packet) in
  let* packet := from_option (GetPacketCommonInfo mac packet) in
  let* packet := SetSecondsElapsed (with_xid transid packet) in
  let packet := with_ciaddr clientip packet in
  let* packet := from_option (AddParamaterRequestList packet) in
  let* packet := from_option (add_value MAXIMUM_DHCP_MESSAGE_SIZE_OPTION MAX_MSG_SIZE packet) in
  if serverip =? 0 then send_raw packet else send_kernel packet clientip serverip.

(** The seeding of [random] is part of the environment. *)
Definition GetRandomId : M Client Z := query random_.

Definition DhcpRelease (clientip serverip : Z) : M Client Z :=
  let* mac := mac_of in
  let* packet := from_option (GetPacketHeaderInfo DHCP_RELEASE zero_packet) in
  let* packet := from_option (GetPacketCommonInfo mac packet) in
  let* xid := GetRandomId in
  let* packet := from_option (add_value REQUESTED_IP_ADDRESS_OPTION clientip (with_xid xid packet)) in
  let* packet := from_option (add_value SERVER_IDENTIFIER_OPTION serverip packet) in
  send_kernel packet clientip serverip.

Definition DhcpDecline (transId clientIp serverIp : Z) : M Client Z :=
  let* mac := mac_of in
  let* packet := from_option (GetPacketHeaderInfo DHCP_DECLINE zero_packet) in
  let packet := copy_chaddr mac (with_xid transId packet) in
  let* packet := from_option (AddClientIdToOpts mac packet) in
  let* packet := from_option (add_value REQUESTED_IP_ADDRESS_OPTION clientIp packet) in
  let* packet := from_option (add_value SERVER_IDENTIFIER_OPTION serverIp packet) in
  let* packet := from_option (add_value REQUESTED_IP_ADDRESS_OPTION clientIp packet) in
  let* packet := from_option (add_value SERVER_IDENTIFIER_OPTION serverIp packet) in
  send_raw packet.
End Client.
