(* ===== verification/ClientHandlers.v ===== *)
(** The handlers of the IPv4 client
    (src/services/dhcp_client/src/dhcp_client_state_machine.cpp): timers, results
    and their store, the parsing of replies, what is sent in each state, and the
    detection of address conflicts.  ClientEvents has the handlers of replies and
    the life cycle of the client's task. *)
From stdpp Require Import functions.
From S2P Require Import Prelude AddressUtils OptionList CommonUtil DottedQuad ClientOptions RawPacket ResultStore ClientFunction ClientState.

#[local] Arguments str : simpl never.

Definition TIMEOUT_TIMES_MAX : Z := 15.
Definition MAX_WAIT_TIMES : Z := 5.
Definition TIMEOUT_WAIT_SEC : Z := 1.
Definition TIMEOUT_MORE_WAIT_SEC : Z := 60.
Definition LEASETIME_DEFAULT : Z := 1.
Definition ONE_HOURS_SEC : Z := 3600.
Definition DHCP_FAILE_TIMEOUT_THR : Z := 6.
Definition MAX_CONFLICTS_COUNT : Z := 2.
Definition FIRST_TIMEOUT_SEC : Z := 1.
Definition MAX_TIMEOUT_SEC : Z := 6.
Definition DOUBLE_TIME : Z := 2.
Definition USECOND_CONVERT : Z := 1000.
Definition SIGNED_INTEGER_MAX : Z := 0x7FFFFFFF.
Definition FAST_ARP_DETECTION_TIME_MS : Z := 50.
Definition SLOW_ARP_DETECTION_TIME_MS : Z := 80.
Definition SLOW_ARP_TOTAL_TIME_MS : Z := 4 * 1000.
Definition SLOW_ARP_TOTAL_TIME_S : Z := 4.
Definition SLOW_ARP_DETECTION_TRY_CNT : Z := 2.
Definition DHCP_IP_TYPE_A : Z := 128.
Definition DHCP_IP_TYPE_B : Z := 192.
Definition DHCP_IP_TYPE_C : Z := 224.
Definition DHCP_FILE_MAX_BYTES : Z := 128.
Definition DHCP_DNS_FIRST : Z := 1.
Definition DHCP_DNS_SECOND : Z := 2.
Definition NUMBER_FOUR : Z := 4.
Definition NUMBER_TWO : Z := 2.
Definition DEFAULT_IPV4_DNS_PRI : bytes := str "8.8.8.8".
Definition DEFAULT_IPV4_DNS_SEC : bytes := str "8.8.4.4".
Definition WORKDIR : bytes := str "/data/service/el1/public/dhcp/".
Definition DHCPC_CONF : bytes := str "dhcp_client_service.conf".

(** Halves, seven eighths and nine tenths of a number of seconds: the products
    with 0.5 and 0.875 are exact, and so is the one with 0.9 of a multiple of
    1000. *)
Definition RENEWAL_SEC_MULTIPLE (x : Z) : Z := x / 2.
Definition REBIND_SEC_MULTIPLE (x : Z) : Z := x * 7 / 8.
Definition RENEWAL_SEC_MULTIPLE_SPECIFIC_NETWORK (x : Z) : Z := x * 9 / 10.

(** [strncpy_s] of at most [n - 1] characters into an array of [n]. *)
Definition strncpy_s (n : Z) (src : bytes) : bytes := take (Z.to_nat (n - 1)) (c_str src).

Section Handlers.
Context {IT : InetText} {IP : InetPton} {SO : StdSort} {SF : StoreFiles} {EN : Environment}.

(** [strncmp(ifaceName, "wlan", 4) == 0]. *)
Definition is_wlan (name : bytes) : bool := bool_decide (take 4 name = str "wlan").

(** * Timers *)

Definition StopTimer (t : TimerType) : M Client unit :=
  let* id := get timerId in
  when (negb (id t =? 0)) (act (TimerStopped t) ;; modify (set_timerId (<[t := 0]> id))).

Definition StartTimer (t : TimerType) (interval : Z) : M Client unit :=
  let* id := get timerId in
  when (id t =? 0)
    (let* new := query create_timer in
     act (TimerStarted t interval) ;; modify (set_timerId (<[t := new]> id))).

Definition CloseAllRenewTimer : M Client unit :=
  StopTimer TIMER_RENEW_DELAY ;; StopTimer TIMER_REBIND_DELAY ;; StopTimer TIMER_REMAINING_DELAY.

(** ["2in1"] somewhere in the device type. *)
Definition IsPcDevice : bool :=
  match device_type with
  | None => false
  | Some param => existsb (fun i => bool_decide (take 4 (drop i param) = str "2in1")) (seq 0 (length param))
  end.

Definition ScheduleLeaseTimers (isCachedIp : bool) : M Client unit :=
  let* cached_now := (if isCachedIp then query time_ else query boot_seconds) in
  if isCachedIp && (cached_now =? -1) then ret tt
  else
    let* from := get (if isCachedIp then m_renewalTimestamp else m_renewalTimestampBoot) in
    let delay := if cached_now <? from then 0 else cached_now - from in
    let* lease := get m_leaseTime in
    let remainingDelay := (if lease <? delay then lease else lease - delay) * USECOND_CONVERT in
    let* router := get m_routerCfg in
    StopTimer TIMER_RENEW_DELAY ;; StopTimer TIMER_REBIND_DELAY ;; StopTimer TIMER_REMAINING_DELAY ;;
    if IsPcDevice && bSpecificNetwork router then
      StartTimer TIMER_RENEW_DELAY (RENEWAL_SEC_MULTIPLE_SPECIFIC_NETWORK remainingDelay) ;;
      StartTimer TIMER_REMAINING_DELAY remainingDelay
    else
      StartTimer TIMER_RENEW_DELAY (RENEWAL_SEC_MULTIPLE remainingDelay) ;;
      StartTimer TIMER_REBIND_DELAY (REBIND_SEC_MULTIPLE remainingDelay) ;;
      StartTimer TIMER_REMAINING_DELAY remainingDelay.

(** * Stopping *)

Definition StopIpv4 : M Client Z :=
  let* state := get threadState_ in
  when (state =? IPV4_TASK_RUNNING)
    (modify (set_threadState_ IPV4_TASK_STOP_REQUESTED) ;;
     modify (set_m_slowArpDetecting false) ;;
     modify (set_m_conflictCount 0) ;;
     StopTimer TIMER_GET_IP ;;
     StopTimer TIMER_SLOW_ARP ;;
     modify (set_m_slowArpTaskId 0)) ;;
  ret DHCP_OPT_SUCCESS.

Definition SetSocketMode (mode : Z) : M Client unit := modify (set_m_socketMode mode).

Definition SetIpv4State (state : Z) : M Client Z :=
  if state <? 0 then ret DHCP_OPT_FAILED else modify (set_m_dhcp4State state) ;; ret DHCP_OPT_SUCCESS.

(** * Results *)

Definition publish (r : DhcpIpResult) : M Client bool :=
  let* service := query service in
  let '(ok, p) := PublishDhcpIpv4Result service r in
  act (Published p) ;; ret ok.

(** Returns the code and [*result]. *)
Definition PublishDhcpResultEvent (name : bytes) (code : Z) (result : DhcpIpResult) : M Client (Z * DhcpIpResult) :=
  if negb (code =? PUBLISH_CODE_SUCCESS) && negb (code =? PUBLISH_CODE_FAILED) && negb (code =? PUBLISH_CODE_TIMEOUT)
  then ret (DHCP_OPT_FAILED, result)
  else
    let* now := query time_ in
    let result := set_ifname name (set_uAddTime (u32 now) (set_code code result)) in
    let* ok := publish result in
    ret (if ok then DHCP_OPT_SUCCESS else DHCP_OPT_FAILED, result).

(** The event for [m_dhcpIpResult], which is passed by reference. *)
Definition publish_current (code : Z) : M Client Z :=
  let* cnf := get m_cltCnf in
  let* result := get m_dhcpIpResult in
  let* '(r, result) := PublishDhcpResultEvent (ifaceName cnf) code result in
  modify (set_m_dhcpIpResult result) ;; ret r.

(** Returns the code and the entry found. *)
Definition GetCachedDhcpResult (targetBssid : bytes) : M Client (option IpInfoCached) :=
  let* item0 := query junk_item in
  let* now := query time_ in
  let* st := get store in
  let* '(_, found, st) := from_option (GetCachedIp item0 now targetBssid st) in
  modify (set_store st) ;; ret found.

Definition SaveIpInfoInLocalFile (r : DhcpIpResult) : M Client unit :=
  let* cnf := get m_cltCnf in
  let* router := get m_routerCfg in
  if negb (is_wlan (ifaceName cnf)) then ret tt
  else if bool_decide (router_bssid router = []) then ret tt
  else
    let* now := query time_ in
    let info := mkCached (router_bssid router) [] (uOptLeasetime r + now) r in
    let* now := query time_ in
    modify (fun s => set_store (snd (ResultStore.SaveIpInfoInLocalFile now info (store s))) s).

Definition TryCachedIp : M Client unit :=
  let* router := get m_routerCfg in
  let* cnf := get m_cltCnf in
  if prohibitUseCacheIp router then ret tt
  else if negb (is_wlan (ifaceName cnf)) then ret tt
  else
    let* found := GetCachedDhcpResult (router_bssid router) in
    match found with
    | None => ret tt
    | Some ipCached =>
        let* '(r, result) := PublishDhcpResultEvent (ifaceName cnf) PUBLISH_CODE_SUCCESS (ipResult ipCached) in
        let* result := (if negb (r =? DHCP_OPT_SUCCESS)
                        then let* '(_, result) := PublishDhcpResultEvent (ifaceName cnf) PUBLISH_CODE_FAILED result in
                             ret result
                        else ret result) in
        StopIpv4 ;;
        modify (set_m_leaseTime (uOptLeasetime result)) ;;
        modify (set_m_renewalSec (RENEWAL_SEC_MULTIPLE (uOptLeasetime result))) ;;
        modify (set_m_rebindSec (REBIND_SEC_MULTIPLE (uOptLeasetime result))) ;;
        modify (set_m_renewalTimestamp (uAddTime result)) ;;
        ScheduleLeaseTimers true
    end.

(** * Parsing replies *)

Definition SetIpv4DefaultDns (result : DhcpIpResult) : DhcpIpResult :=
  set_dnsAddr [DEFAULT_IPV4_DNS_PRI; DEFAULT_IPV4_DNS_SEC]
    (set_strOptDns2 DEFAULT_IPV4_DNS_SEC (set_strOptDns1 DEFAULT_IPV4_DNS_PRI result)).

(** Returns [*result] and [count]. *)
Definition ParseNetworkDnsValue (result : DhcpIpResult) (uData count : Z) : DhcpIpResult * Z :=
  let u32Data := ntohl uData in
  let pDnsIp := Ip4IntConvertToStr u32Data true in
  if negb (bool_decide (pDnsIp = [])) then
    let count := count + 1 in
    let result := set_dnsAddr (dnsAddr result ++ [pDnsIp]) result in
    (if count =? DHCP_DNS_FIRST then set_strOptDns1 (strncpy_s INET_ADDRSTRLEN pDnsIp) result
     else if count =? DHCP_DNS_SECOND then set_strOptDns2 (strncpy_s INET_ADDRSTRLEN pDnsIp) result
     else result, count)
  else (result, count).

(** The loop over the [n] whole words from [p]. *)
Fixpoint ParseNetworkDnsInfo_loop (n : nat) (packet : DhcpPacket) (p : pointer) (result : DhcpIpResult) (count : Z)
    : option DhcpIpResult :=
  match n with
  | O => Some result
  | S n' =>
      b ← at_ptr packet p DHCP_UINT32_BYTES;
      let uData := ParseIp b in
      let '(result, count) := if uData >? 0 then ParseNetworkDnsValue result uData count else (result, count) in
      ParseNetworkDnsInfo_loop n' packet (p.1, p.2 + DHCP_UINT32_BYTES) result count
  end.

Definition ParseNetworkDnsInfo (packet : DhcpPacket) (result : DhcpIpResult) : option DhcpIpResult :=
  '(p, len) ← GetDhcpOption packet DOMAIN_NAME_SERVER_OPTION;
  match p with
  | None => Some (SetIpv4DefaultDns result)
  | Some p =>
      if (len <? DHCP_UINT32_BYTES) || negb (len mod DHCP_UINT32_BYTES =? 0) then Some (SetIpv4DefaultDns result)
      else ParseNetworkDnsInfo_loop (Z.to_nat (len / DHCP_UINT32_BYTES)) packet p result 0
  end.

(** The text before the first dot. *)
Fixpoint until_dot (s : bytes) : bytes :=
  match s with c :: r => if c =? dot then [] else c :: until_dot r | [] => [] end.

Definition SetDefaultNetMask (result : DhcpIpResult) : DhcpIpResult :=
  let firstByte := CheckDataLegal (until_dot (strYiaddr result)) in
  if negb (bool_decide (strYiaddr result = [])) && bool_decide (strOptSubnet result = []) then
    if firstByte <? DHCP_IP_TYPE_A then set_strOptSubnet (str "255.0.0.0") result
    else if firstByte <? DHCP_IP_TYPE_B then set_strOptSubnet (str "255.255.0.0") result
    else if firstByte <? DHCP_IP_TYPE_C then set_strOptSubnet (str "255.255.255.0") result
    else set_strOptSubnet (str "255.255.255.255") result
  else result.

(** Returns the server address when the option is there, and [*result]. *)
Definition ParseNetworkServerIdInfo (packet : DhcpPacket) (serverIp : Z) (result : DhcpIpResult)
    : option (Z * DhcpIpResult) :=
  '(ok, u32Data) ← GetDhcpOptionUint32 packet SERVER_IDENTIFIER_OPTION 0;
  if negb ok then Some (serverIp, result)
  else
    let serverIp := htonl u32Data in
    let pSerIp := Ip4IntConvertToStr serverIp false in
    Some (serverIp, if negb (bool_decide (pSerIp = []))
                    then set_strOptServerId (strncpy_s INET_ADDRSTRLEN pSerIp) result else result).

Definition ParseNetworkInfo (packet : DhcpPacket) (requestedIp : Z) (result : DhcpIpResult) : option DhcpIpResult :=
  let pReqIp := Ip4IntConvertToStr requestedIp false in
  let result := if negb (bool_decide (pReqIp = [])) then set_strYiaddr (strncpy_s INET_ADDRSTRLEN pReqIp) result else result in
  '(ok, u32Data) ← GetDhcpOptionUint32 packet SUBNET_MASK_OPTION 0;
  let pSubIp := Ip4IntConvertToStr u32Data true in
  let result := if ok && negb (bool_decide (pSubIp = []))
                then set_strOptSubnet (strncpy_s INET_ADDRSTRLEN pSubIp) result else SetDefaultNetMask result in
  '(ok, data1, data2) ← GetDhcpOptionUint32n packet ROUTER_OPTION 0 0;
  if negb ok then Some result
  else
    let pRouterIp := Ip4IntConvertToStr data1 true in
    let result := if negb (bool_decide (pRouterIp = []))
                  then set_strOptRouter1 (strncpy_s INET_ADDRSTRLEN pRouterIp) result else result in
    let pRouterIp := Ip4IntConvertToStr data2 true in
    Some (if (data2 >? 0) && negb (bool_decide (pRouterIp = []))
          then set_strOptRouter2 (strncpy_s INET_ADDRSTRLEN pRouterIp) result else result).

(** A star for an empty text. *)
Definition or_star (s : bytes) : bytes := if bool_decide (s = []) then str "*" else s.
Definition FormatString (r : DhcpIpResult) : DhcpIpResult :=
  set_strYiaddr (or_star (strYiaddr r)) (set_strOptServerId (or_star (strOptServerId r))
    (set_strOptSubnet (or_star (strOptSubnet r)) (set_strOptDns1 (or_star (strOptDns1 r))
      (set_strOptDns2 (or_star (strOptDns2 r)) (set_strOptRouter1 (or_star (strOptRouter1 r))
        (set_strOptRouter2 (or_star (strOptRouter2 r)) (set_strOptVendor (or_star (strOptVendor r)) r))))))).

(** The copies fit: the name has at most 64 characters. *)
Definition GetDHCPServerHostName (packet : DhcpPacket) (result : DhcpIpResult) : DhcpIpResult :=
  if byte_at (c_sname packet) 0 =? 0 then result
  else set_strOptVendor (str "hostname:" ++ c_str (take 64 (c_sname packet))) result.

Definition ParseNetworkVendorInfo (packet : DhcpPacket) (result : DhcpIpResult) : option DhcpIpResult :=
  pVendor ← GetDhcpOptionString packet VENDOR_SPECIFIC_INFO_OPTION;
  match pVendor with
  | None => Some (GetDHCPServerHostName packet result)
  | Some v => Some (set_strOptVendor (strncpy_s DHCP_FILE_MAX_BYTES v) result)
  end.

(** The four parsers in their order; the server address of the state is kept
    when the packet has none. *)
Definition parse_result (packet : DhcpPacket) (result : DhcpIpResult) : M Client DhcpIpResult :=
  let* server := get m_serverIp4 in
  let* '(server, result) := from_option (ParseNetworkServerIdInfo packet server result) in
  modify (set_m_serverIp4 server) ;;
  let* requested := get m_requestedIp4 in
  let* result := from_option (ParseNetworkInfo packet requested result) in
  let* result := from_option (ParseNetworkDnsInfo packet result) in
  from_option (ParseNetworkVendorInfo packet result).

(** * Sending *)

(** The seconds to wait before the next try. *)
Definition timeout_sec (sent : Z) : Z :=
  u32 (Z.shiftl TIMEOUT_WAIT_SEC (if sent >? MAX_WAIT_TIMES then MAX_WAIT_TIMES else sent)).

(** [m_sentPacketNum++]. *)
Definition count_sent : M Client unit := modify (fun s => set_m_sentPacketNum (u32 (m_sentPacketNum s + 1)) s).

Definition InitSelecting (timestamp : Z) : M Client unit :=
  let* sent := get m_sentPacketNum in
  if sent >? TIMEOUT_TIMES_MAX then
    modify (set_m_timeoutTimestamp (timestamp + TIMEOUT_MORE_WAIT_SEC)) ;;
    modify (set_m_sentPacketNum 0)
  else
    when (sent =? 0) (let* id := GetRandomId in modify (set_m_transID id)) ;;
    let* xid := get m_transID in
    let* requested := get m_requestedIp4 in
    let* _sent := DhcpDiscover xid requested in
    modify (set_m_dhcp4State DHCP_STATE_SELECTING) ;;
    let uTimeoutSec := timeout_sec sent in
    let* action := get m_action in
    when ((uTimeoutSec >? DHCP_FAILE_TIMEOUT_THR) && negb (action =? ACTION_RENEW_T3)) TryCachedIp ;;
    modify (set_m_timeoutTimestamp (timestamp + uTimeoutSec)) ;;
    count_sent.

Definition SendReboot (targetIp timestamp : Z) : M Client unit :=
  let* sent := get m_sentPacketNum in
  if sent >=? NUMBER_TWO then
    modify (set_m_dhcp4State DHCP_STATE_INIT) ;;
    SetSocketMode SOCKET_MODE_RAW ;;
    modify (set_m_sentPacketNum 0) ;;
    modify (set_m_timeoutTimestamp timestamp)
  else
    let uTimeoutSec := timeout_sec sent in
    modify (set_m_timeoutTimestamp (timestamp + uTimeoutSec)) ;;
    modify (set_m_requestedIp4 targetIp) ;;
    let* xid := get m_transID in
    let* requested := get m_requestedIp4 in
    let* _sent := DhcpReboot xid requested in
    count_sent.

Definition Reboot (timestamp : Z) : M Client unit :=
  let* cnf := get m_cltCnf in
  let* router := get m_routerCfg in
  if negb (is_wlan (ifaceName cnf)) then ret tt
  else if bool_decide (router_bssid router = []) then ret tt
  else
    let* found := GetCachedDhcpResult (router_bssid router) in
    match found with
    | None => ret tt
    | Some cached =>
        if timestamp >? absoluteLeasetime cached then ret tt
        else
          let '(ok, lastAssigned) := Ip4StrConToInt (Some (strYiaddr (ipResult cached))) 0 false in
          if negb ok then ret tt
          else
            when (negb (lastAssigned =? 0))
              (let* id := GetRandomId in
               modify (set_m_transID id) ;;
               modify (set_m_dhcp4State DHCP_STATE_INITREBOOT) ;;
               modify (set_m_sentPacketNum 0) ;;
               SendReboot lastAssigned timestamp)
    end.

Definition Requesting (timestamp : Z) : M Client unit :=
  let* sent := get m_sentPacketNum in
  if sent >? TIMEOUT_TIMES_MAX then
    modify (set_m_dhcp4State DHCP_STATE_INIT) ;;
    SetSocketMode SOCKET_MODE_RAW ;;
    modify (set_m_sentPacketNum 0) ;;
    modify (set_m_timeoutTimestamp timestamp)
  else
    let* state := get m_dhcp4State in
    let* xid := get m_transID in
    let* requested := get m_requestedIp4 in
    let* server := get m_serverIp4 in
    let* _sent := (if state =? DHCP_STATE_RENEWED then DhcpRenew xid requested server
                   else DhcpRequest xid requested server) in
    let uTimeoutSec := timeout_sec sent in
    when (uTimeoutSec >? DHCP_FAILE_TIMEOUT_THR) TryCachedIp ;;
    modify (set_m_timeoutTimestamp (timestamp + uTimeoutSec)) ;;
    count_sent.

Definition Renewing (timestamp : Z) : M Client unit :=
  let* state := get m_dhcp4State in
  let* xid := get m_transID in
  let* requested := get m_requestedIp4 in
  let* server := get m_serverIp4 in
  when (state =? DHCP_STATE_RENEWING) (let* _sent := DhcpRenew xid requested server in ret tt) ;;
  let* sent := get m_sentPacketNum in
  modify (set_m_timeoutTimestamp (timestamp + timeout_sec sent)) ;;
  count_sent.

Definition Rebinding (timestamp : Z) : M Client unit :=
  let* state := get m_dhcp4State in
  let* xid := get m_transID in
  let* requested := get m_requestedIp4 in
  when (state =? DHCP_STATE_REBINDING) (let* _sent := DhcpRenew xid requested 0 in ret tt) ;;
  let* sent := get m_sentPacketNum in
  modify (set_m_timeoutTimestamp (timestamp + timeout_sec sent)) ;;
  count_sent.

Definition Declining (timestamp : Z) : M Client unit :=
  modify (fun s => set_m_conflictCount (u32 (m_conflictCount s + 1)) s) ;;
  let* conflicts := get m_conflictCount in
  if conflicts >? MAX_CONFLICTS_COUNT then
    let* r := publish_current PUBLISH_CODE_SUCCESS in
    when (negb (r =? DHCP_OPT_SUCCESS)) (let* _r := publish_current PUBLISH_CODE_FAILED in ret tt) ;;
    let* result := get m_dhcpIpResult in
    SaveIpInfoInLocalFile result ;;
    StopIpv4 ;;
    modify (set_m_dhcp4State DHCP_STATE_BOUND) ;;
    modify (set_m_sentPacketNum 0) ;;
    modify (set_m_resendTimer 0) ;;
    modify (set_m_timeoutTimestamp timestamp)
  else
    modify (set_m_timeoutTimestamp (timestamp + TIMEOUT_WAIT_SEC)) ;;
    let* xid := get m_transID in
    let* requested := get m_requestedIp4 in
    let* server := get m_serverIp4 in
    let* _sent := DhcpDecline xid requested server in
    modify (set_m_dhcp4State DHCP_STATE_INIT) ;;
    modify (set_m_sentPacketNum 0).

(** * Conflicts *)

Definition IsArpReachable (timeoutMillis : Z) (ipAddress : bytes) : M Client bool :=
  let* mac := mac_of in
  match MacChConToMacStr (Some mac) MAC_ADDR_LEN (MAC_ADDR_LEN * MAC_ADDR_CHAR_NUM) with
  | None => ret false
  | Some _ => act (ArpProbed ipAddress timeoutMillis) ;; query arp_reachable
  end.

Definition IpConflictDetect : M Client unit :=
  modify (set_m_sentPacketNum 0) ;;
  modify (set_m_timeoutTimestamp 0) ;;
  modify (set_m_dhcp4State DHCP_STATE_FAST_ARP) ;;
  let* requested := get m_requestedIp4 in
  modify (set_m_arpDectionTargetIp (Ip4IntConvertToStr requested false)).

Definition FastArpDetect : M Client unit :=
  let* target := get m_arpDectionTargetIp in
  let* reachable := IsArpReachable FAST_ARP_DETECTION_TIME_MS target in
  if reachable then
    modify (set_m_dhcp4State DHCP_STATE_DECLINE) ;;
    SetSocketMode SOCKET_MODE_RAW
  else
    let* r := publish_current PUBLISH_CODE_SUCCESS in
    if negb (r =? DHCP_OPT_SUCCESS) then
      let* _r := publish_current PUBLISH_CODE_FAILED in
      let* _r := StopIpv4 in ret tt
    else
      let* result := get m_dhcpIpResult in
      SaveIpInfoInLocalFile result ;;
      modify (set_m_dhcp4State DHCP_STATE_SLOW_ARP) ;;
      modify (set_m_slowArpDetecting true).

(** The client is bound: the loop is stopped and the lease timers are set. *)
Definition enter_bound (timestamp : Z) : M Client unit :=
  modify (set_m_dhcp4State DHCP_STATE_BOUND) ;;
  modify (set_m_sentPacketNum 0) ;;
  modify (set_m_resendTimer 0) ;;
  let* renewal := get m_renewalSec in
  modify (set_m_timeoutTimestamp (timestamp + renewal)) ;;
  let* _r := StopIpv4 in
  ScheduleLeaseTimers false.

Definition SlowArpDetectCallback (isReachable : bool) : M Client unit :=
  let* detecting := get m_slowArpDetecting in
  if negb detecting then ret tt
  else
    (if isReachable then
       modify (set_m_dhcp4State DHCP_STATE_DECLINE) ;;
       modify (set_m_timeoutTimestamp 0) ;;
       SetSocketMode SOCKET_MODE_RAW ;;
       StopTimer TIMER_SLOW_ARP
     else let* now := query time_ in enter_bound now) ;;
    modify (set_m_slowArpDetecting false).

Definition SlowArpTimeoutCallback : M Client unit :=
  let* detecting := get m_slowArpDetecting in
  if negb detecting then ret tt else let* now := query time_ in enter_bound now.

Definition SlowArpDetect (timestamp : Z) : M Client unit :=
  let* sent := get m_sentPacketNum in
  (if sent >? SLOW_ARP_DETECTION_TRY_CNT then enter_bound timestamp
   else if sent =? SLOW_ARP_DETECTION_TRY_CNT then
     modify (set_m_timeoutTimestamp (SLOW_ARP_TOTAL_TIME_S + SLOW_ARP_TOTAL_TIME_S + timestamp)) ;;
     let* id := query register_task in
     act ArpTaskPosted ;; modify (set_m_slowArpTaskId id) ;;
     StartTimer TIMER_SLOW_ARP SLOW_ARP_TOTAL_TIME_MS
   else
     let* target := get m_arpDectionTargetIp in
     let* reachable := IsArpReachable SLOW_ARP_DETECTION_TIME_MS target in
     when reachable
       (modify (set_m_dhcp4State DHCP_STATE_DECLINE) ;;
        modify (set_m_slowArpDetecting false) ;;
        SetSocketMode SOCKET_MODE_RAW)) ;;
  count_sent.

(** The task posted by [SlowArpDetect], run when its timer expires. *)
Definition slow_arp_task : M Client unit :=
  let* tastId := get m_slowArpTaskId in
  let timeout := SLOW_ARP_TOTAL_TIME_MS - SLOW_ARP_DETECTION_TIME_MS * SLOW_ARP_DETECTION_TRY_CNT in
  let* target := get m_arpDectionTargetIp in
  let* reachable := IsArpReachable timeout target in
  let* now := get m_slowArpTaskId in
  SlowArpDetectCallback (if tastId =? now then reachable else false).

(** [DhcpRequestHandle]: what is due at [timestamp] in each state. *)
Definition DhcpRequestHandle (timestamp : Z) : M Client unit :=
  let* state := get m_dhcp4State in
  if (state =? DHCP_STATE_INIT) || (state =? DHCP_STATE_SELECTING) then InitSelecting timestamp
  else if (state =? DHCP_STATE_REQUESTING) || (state =? DHCP_STATE_RENEWED) then Requesting timestamp
  else if state =? DHCP_STATE_BOUND then modify (set_m_dhcp4State DHCP_STATE_RENEWING) ;; Renewing timestamp
  else if state =? DHCP_STATE_RENEWING then Renewing timestamp
  else if state =? DHCP_STATE_REBINDING then Rebinding timestamp
  else if state =? DHCP_STATE_INITREBOOT then
    let* requested := get m_requestedIp4 in SendReboot requested timestamp
  else if state =? DHCP_STATE_RELEASED then modify (set_m_timeoutTimestamp SIGNED_INTEGER_MAX)
  else if state =? DHCP_STATE_FAST_ARP then FastArpDetect
  else if state =? DHCP_STATE_SLOW_ARP then SlowArpDetect timestamp
  else if state =? DHCP_STATE_DECLINE then Declining timestamp
  else ret tt.
End Handlers.
