(* ===== verification/ClientMessages.v ===== *)
(** The messages of the IPv4 client: what DhcpDiscover, DhcpRequest, DhcpReboot,
    DhcpRenew, DhcpRelease and DhcpDecline put into a packet
    (src/services/dhcp_client/src/dhcp_client_state_machine.cpp), stated as the
    list of the options in their order.

    A packet under construction holds its options, the end mark and zeros behind
    it ([image]), so that every step of the code is one equation between
    messages. *)
From S2P Require Import Prelude AddressUtils OptionList CommonUtil DottedQuad ClientOptions RawPacket ResultStore ClientFunction ClientState.

#[local] Arguments str : simpl never.

(** The options of a packet being built. *)
Definition image (ts : list tlv) : bytes := encs ts ++ END_OPTION :: zeros (1779 - length (encs ts)).

(** A message of the client with its options. *)
Definition message (mac : bytes) (xid secs ciaddr : Z) (ts : list tlv) : DhcpPacket :=
  mkPacket BOOT_REQUEST ETHERNET_TYPE ETHERNET_LEN 0 xid secs 0 ciaddr 0 0 0
    (pad 16 mac) (zeros 64) (zeros 128) (htonl MAGIC_COOKIE) (image ts).

(** ** Appending to an image *)

Lemma pad_zeros n l : (length l <= n)%nat -> pad n l = l ++ zeros (n - length l).
Proof. intros H. unfold pad, zeros. rewrite take_app_ge, take_replicate by done. do 2 f_equal. lia. Qed.

Lemma encs_one t : encs [t] = enc t.
Proof. unfold encs. cbn. by rewrite app_nil_r. Qed.

Lemma length_enc t : length (enc t) = (2 + length t.2)%nat.
Proof. done. Qed.

Lemma image_split ts n : (n <= 1779 - length (encs ts))%nat ->
  image ts = encs ts ++ END_OPTION :: zeros n ++ zeros (1779 - length (encs ts) - n).
Proof. intros Hn. unfold image, zeros. rewrite <- replicate_add. by rewrite Nat.add_comm, Nat.sub_add. Qed.

Lemma image_holds ts : (length (encs ts) < 1780)%nat -> holds (image ts) ts.
Proof.
  intros H. split; [|by eexists]. unfold image, DHCP_OPT_SIZE. rewrite length_app. cbn [length]. rewrite length_zeros. lia.
Qed.

Lemma image_end ts : (length (encs ts) < 1780)%nat -> Forall wf_tlv ts ->
  GetEndOptionIndex (image ts) = Some (Z.of_nat (length (encs ts))).
Proof. intros. by apply GetEndOptionIndex_holds; [apply image_holds|]. Qed.

Lemma AddOptStrToOpts_image ts t extra n : Forall wf_tlv ts -> wf_tlv t -> n = Z.of_nat (length (enc t)) ->
  (length (encs ts) + length (enc t) < 1779)%nat ->
  AddOptStrToOpts (image ts) (enc t ++ extra) n = Some (n, image (ts ++ [t])).
Proof.
  intros Hts (Hc & _ & Hl) -> Hroom. unfold AddOptStrToOpts.
  assert (El : rd (enc t ++ extra) DHCP_OPT_LEN_INDEX = Some (Z.of_nat (length t.2))) by done.
  rewrite El, bind_some. cbv beta zeta. rewrite length_enc in *. unfold DHCP_OPT_CODE_BYTES, DHCP_OPT_LEN_BYTES, DHCP_OPT_SIZE.
  replace (1 + 1 + Z.of_nat (length t.2)) with (Z.of_nat (2 + length t.2)) by lia. rewrite Z.eqb_refl. cbn [negb].
  rewrite image_end, bind_some by (done || lia). cbv beta.
  rewrite Z.geb_leb, (proj2 (Z.leb_gt _ _)), Z.gtb_ltb, (proj2 (Z.ltb_lt 0 _)), Z.geb_leb, (proj2 (Z.leb_le 0 _)) by lia.
  cbn [andb negb].
  assert (Es : rd_n (enc t ++ extra) 0 (Z.of_nat (2 + length t.2)) = Some (enc t))
    by exact (rd_n_app [] (enc t) extra 0 (Z.of_nat (2 + length t.2)) eq_refl eq_refl).
  rewrite Es, bind_some. cbv beta.
  rewrite (image_split ts (2 + length t.2)) by lia.
  replace (END_OPTION :: zeros (2 + length t.2) ++ zeros (1779 - length (encs ts) - (2 + length t.2)))
    with ((END_OPTION :: zeros (1 + length t.2)) ++ [0] ++ zeros (1779 - length (encs ts) - (2 + length t.2))).
  2:{ unfold zeros. change [0] with (replicate 1 0). cbn [app]. rewrite (app_assoc (replicate (1 + _) 0)), <- replicate_add.
      do 3 f_equal. lia. }
  rewrite write_at_app, bind_some by (cbn [length]; rewrite length_enc, length_zeros; lia). cbv beta.
  rewrite app_assoc. replace (Z.of_nat (length (encs ts)) + Z.of_nat (2 + length t.2))
    with (Z.of_nat (length (encs ts ++ enc t))) by (rewrite length_app, length_enc; lia).
  rewrite write_at_app, bind_some by done. cbv beta. unfold image. rewrite encs_app, encs_one, <- !app_assoc.
  replace (1779 - length (encs ts ++ enc t))%nat with (1779 - length (encs ts) - (2 + length t.2))%nat; [done|].
  rewrite length_app, length_enc. lia.
Qed.

(** ** Steps of the code *)

Definition value_option (code value : Z) : tlv :=
  (code, take (Z.to_nat (GetDhcpOptionDataLen code)) (value_bytes (GetDhcpOptionDataLen code) value)).

Section Steps.
Context (mac : bytes) (xid secs ci : Z).

Lemma add_option_message ts t extra n : Forall wf_tlv ts -> wf_tlv t -> n = Z.of_nat (length (enc t)) ->
  (length (encs ts) + length (enc t) < 1779)%nat ->
  add_option (enc t ++ extra) n (message mac xid secs ci ts) = Some (message mac xid secs ci (ts ++ [t])).
Proof. intros. unfold add_option. cbn [c_options message]. by rewrite AddOptStrToOpts_image, bind_some. Qed.

Lemma add_value_message ts code value : Forall wf_tlv ts -> wf_tlv (value_option code value) ->
  GetDhcpOptionDataLen code ∈ [1; 2; 4] -> (length (encs ts) < 1700)%nat ->
  add_value code value (message mac xid secs ci ts) = Some (message mac xid secs ci (ts ++ [value_option code value])).
Proof.
  intros Hts Ht Hlen Hroom. unfold add_value. cbn [c_options message]. unfold AddOptValueToOpts.
  set (t := value_option code value) in *. set (len := GetDhcpOptionDataLen code) in *.
  assert (Hb : length (value_bytes len value) = 4%nat).
  { unfold value_bytes. destruct (len =? _); [done|]. destruct (len =? _); [done|]. by destruct (len =? _). }
  assert (Hn : 1 <= len <= 4) by (rewrite !elem_of_cons, elem_of_nil in Hlen; lia).
  rewrite (proj2 (Z.eqb_neq len 0)) by lia. unfold memcpy_s, DHCP_UINT32_BYTES. rewrite (proj2 (Z.leb_le len 4)) by lia.
  cbn [negb].
  assert (El : length t.2 = Z.to_nat len) by (unfold t, value_option; cbn [snd]; rewrite length_take; fold len; lia).
  replace ([code; len] ++ take (Z.to_nat len) (value_bytes len value) ++ drop (Z.to_nat len) (zeros 4))
    with (enc t ++ drop (Z.to_nat len) (zeros 4)).
  2:{ unfold enc. rewrite El. unfold t, value_option. cbn [fst snd app]. fold len. rewrite Z2Nat.id by lia. done. }
  rewrite AddOptStrToOpts_image, bind_some; [done|done|done| |]; rewrite length_enc, El;
    unfold DHCP_OPT_CODE_BYTES, DHCP_OPT_LEN_BYTES; lia.
Qed.

Definition client_id : tlv := (CLIENT_IDENTIFIER_OPTION, 1 :: mac).

Lemma client_id_message ts : length mac = 6%nat -> Forall wf_tlv ts -> (length (encs ts) < 1700)%nat ->
  AddClientIdToOpts mac (message mac xid secs ci ts) = Some (message mac xid secs ci (ts ++ [client_id])).
Proof.
  intros Hm Hts Hroom. unfold AddClientIdToOpts.
  destruct (MacChConToMacStr_length mac MAC_ADDR_LEN) as (s & -> & _); [unfold MAC_ADDR_LEN; lia..|]. cbv zeta.
  replace (pad 62 ([CLIENT_IDENTIFIER_OPTION; MAC_ADDR_LEN + 1; 1] ++ take 6 mac)) with (enc client_id ++ zeros 53).
  2:{ rewrite take_ge, pad_zeros by (rewrite ?length_app; cbn [length]; lia).
      rewrite length_app, Hm. unfold client_id, enc. cbn [fst snd length app]. by rewrite Hm. }
  rewrite add_option_message; [done|done| |unfold client_id; cbn [enc length snd fst]; rewrite Hm; done
    |unfold client_id; cbn [enc length snd fst]; rewrite Hm; lia].
  unfold wf_tlv, client_id, CLIENT_IDENTIFIER_OPTION, END_OPTION, OPTION_OVERLOAD_OPTION. cbn [fst snd length]. lia.
Qed.

(** A text option; one that is too long is left out. *)
Definition text_option (code : Z) (value : bytes) : list tlv := if (61 <? length value)%nat then [] else [(code, value)].

Lemma text_message ts code value : 0 < code < END_OPTION -> code <> OPTION_OVERLOAD_OPTION ->
  Forall wf_tlv ts -> (length (encs ts) < 1700)%nat ->
  AddStrToOpts code value (message mac xid secs ci ts) = Some (message mac xid secs ci (ts ++ text_option code value)).
Proof.
  intros Hc Ho Hts Hroom. unfold AddStrToOpts, text_option, VENDOR_MAX_LEN, DHCP_OPT_DATA_INDEX. rewrite Z.gtb_ltb.
  destruct (Nat.ltb_spec 61 (length value)) as [H|H].
  { rewrite (proj2 (Z.ltb_lt _ _)) by lia. by rewrite app_nil_r. }
  rewrite (proj2 (Z.ltb_ge _ _)) by lia. cbv zeta.
  replace (pad 64 ([code; Z.of_nat (length value)] ++ value)) with (enc (code, value) ++ zeros (62 - length value)).
  2:{ rewrite pad_zeros by (cbn [length app]; lia). done. }
  apply add_option_message; [done| |cbn [enc length snd fst]; unfold DHCP_OPT_CODE_BYTES, DHCP_OPT_LEN_BYTES; lia
    |cbn [enc length snd fst]; lia].
  unfold wf_tlv. cbn [fst snd]. split_and!; [lia..|done|lia].
Qed.

Definition request_list : tlv := (PARAMETER_REQUEST_LIST_OPTION, arrReqCode).

Lemma write_codes_image codes : Forall (fun c => PAD_OPTION < c < END_OPTION) codes -> forall pre done n end_,
  Z.of_nat (length pre) = end_ + DHCP_OPT_DATA_INDEX ->
  write_codes codes end_ (Z.of_nat (length done)) (pre ++ done ++ zeros (length codes + n)) =
    Some (pre ++ (done ++ codes) ++ zeros n, Z.of_nat (length (done ++ codes))).
Proof.
  induction 1 as [|c codes [Hc1 Hc2] _ IH]; intros pre done n end_ He; cbn [write_codes].
  { by rewrite !app_nil_r. }
  rewrite Z.gtb_ltb, (proj2 (Z.ltb_lt _ _) Hc1), (proj2 (Z.ltb_lt _ _) Hc2). cbn [andb].
  replace (pre ++ done ++ zeros (length (c :: codes) + n))
    with ((pre ++ done) ++ [0] ++ zeros (length codes + n)) by (rewrite <- app_assoc; done).
  rewrite <- He, <- Nat2Z.inj_add, <- length_app, write_at_app, bind_some by done. cbv beta.
  replace (Z.of_nat (length done) + 1) with (Z.of_nat (length (done ++ [c]))) by (rewrite length_app; cbn; lia).
  rewrite <- app_assoc, (app_assoc done [c]), IH by done. by rewrite <- !app_assoc.
Qed.

Lemma request_list_message ts : Forall wf_tlv ts -> (length (encs ts) < 1700)%nat ->
  AddParamaterRequestList (message mac xid secs ci ts) = Some (message mac xid secs ci (ts ++ [request_list])).
Proof.
  intros Hts Hroom. unfold AddParamaterRequestList. cbn [c_options message]. rewrite image_end, bind_some by (done || lia).
  cbv beta. rewrite (image_split ts 14) by lia. remember (1779 - length (encs ts) - 14)%nat as m eqn:Em.
  remember (Z.of_nat (length (encs ts))) as e eqn:Ee. unfold DHCP_OPT_CODE_INDEX, DHCP_OPT_DATA_INDEX, DHCP_OPT_LEN_INDEX.
  set (L := encs ts) in *. set (P := PARAMETER_REQUEST_LIST_OPTION).
  assert (W1 : write_at (L ++ END_OPTION :: zeros 14 ++ zeros m) (e + 0) [P] = Some (L ++ [P] ++ zeros 14 ++ zeros m)).
  { rewrite Z.add_0_r, Ee. by apply (write_at_app L [END_OPTION]). }
  rewrite W1, bind_some. cbv beta.
  assert (W2 : write_codes arrReqCode e 0 (L ++ [P] ++ zeros 14 ++ zeros m) =
    Some ((L ++ [P; 0]) ++ arrReqCode ++ zeros (1 + m), 12)).
  { replace (L ++ [P] ++ zeros 14 ++ zeros m) with ((L ++ [P; 0]) ++ [] ++ zeros (length arrReqCode + (1 + m)))
      by (rewrite <- app_assoc; done).
    apply (write_codes_image arrReqCode) with (done := []); [by repeat constructor|].
    rewrite length_app, Nat2Z.inj_add. subst e. done. }
  rewrite W2, bind_some. cbv beta iota.
  assert (W3 : write_at ((L ++ [P; 0]) ++ arrReqCode ++ zeros (1 + m)) (e + 1) [12] =
    Some ((L ++ [P]) ++ [12] ++ arrReqCode ++ zeros (1 + m))).
  { replace (e + 1) with (Z.of_nat (length (L ++ [P]))) by (rewrite length_app; cbn [length]; lia).
    replace ((L ++ [P; 0]) ++ arrReqCode ++ zeros (1 + m)) with ((L ++ [P]) ++ [0] ++ arrReqCode ++ zeros (1 + m))
      by (rewrite <- !app_assoc; done). by apply write_at_app. }
  rewrite W3, bind_some. cbv beta.
  assert (W4 : write_at ((L ++ [P]) ++ [12] ++ arrReqCode ++ zeros (1 + m)) (e + 2 + 12) [END_OPTION] =
    Some ((L ++ enc request_list) ++ [END_OPTION] ++ zeros m)).
  { replace (e + 2 + 12) with (Z.of_nat (length (L ++ enc request_list)))
      by (rewrite length_app, length_enc; change (length request_list.2) with 12%nat; lia).
    replace ((L ++ [P]) ++ [12] ++ arrReqCode ++ zeros (1 + m)) with ((L ++ enc request_list) ++ [0] ++ zeros m)
      by (rewrite <- !app_assoc; done). by apply write_at_app. }
  rewrite W4, bind_some. unfold message, with_options. cbn. do 2 f_equal.
  unfold image. rewrite encs_app, encs_one. cbn [app]. fold L.
  replace (1779 - length (L ++ enc request_list))%nat with m; [done|].
  rewrite length_app, length_enc. change (length request_list.2) with 12%nat. lia.
Qed.
End Steps.

Lemma room_app a b n m : (length (encs a) <= n)%nat -> (length (encs b) <= m)%nat -> (length (encs (a ++ b)) <= n + m)%nat.
Proof. intros. rewrite encs_app, length_app. lia. Qed.
Lemma room_cons t b n m : (length (enc t) <= n)%nat -> (length (encs b) <= m)%nat -> (length (encs (t :: b)) <= n + m)%nat.
Proof. intros. change (encs (t :: b)) with (enc t ++ encs b). rewrite length_app. lia. Qed.
(** ** The messages *)

Section Messages.
Context {IT : InetText} {IP : InetPton} {SO : StdSort} {SF : StoreFiles} {EN : Environment} {LE : EnvironmentLaws EN}.
Context (mac : bytes).

Definition vendor_class : bytes := VENDOR_NAME_PREFIX ++ colon :: product_model.
Definition host_options : list tlv :=
  text_option VENDOR_CLASS_IDENTIFIER_OPTION vendor_class ++ text_option HOST_NAME_OPTION product_model.
Definition typ (t : Z) : tlv := value_option DHCP_MESSAGE_TYPE_OPTION t.
Definition max_size : tlv := value_option MAXIMUM_DHCP_MESSAGE_SIZE_OPTION MAX_MSG_SIZE.
Definition requested_ip (ip : Z) : tlv := value_option REQUESTED_IP_ADDRESS_OPTION ip.
Definition server_id (ip : Z) : tlv := value_option SERVER_IDENTIFIER_OPTION ip.

(** The options of each message. *)
Definition discover_options : list tlv :=
  [typ DHCP_DISCOVER; client_id mac] ++ host_options ++ [max_size; request_list].
Definition request_options (reqip servip : Z) : list tlv :=
  [typ DHCP_REQUEST; client_id mac] ++ host_options ++ [server_id servip; requested_ip reqip; max_size; request_list].
Definition reboot_options (reqip : Z) : list tlv :=
  [typ DHCP_REQUEST; client_id mac; requested_ip reqip; max_size] ++ host_options ++ [request_list].
Definition renew_options : list tlv :=
  [typ DHCP_REQUEST; client_id mac] ++ host_options ++ [request_list; max_size].
Definition release_options (clientip serverip : Z) : list tlv :=
  [typ DHCP_RELEASE; client_id mac] ++ host_options ++ [requested_ip clientip; server_id serverip].
Definition decline_options (clientip serverip : Z) : list tlv :=
  [typ DHCP_DECLINE; client_id mac; requested_ip clientip; server_id serverip; requested_ip clientip; server_id serverip].

(** The seconds put into a packet, and the state after it. *)
Definition secs_of (s : Client) : Z :=
  let now := boot_seconds (ticks s) in
  htons (u16 (now - (if firstSendPacketTime_ s =? 0 then now else firstSendPacketTime_ s))).
Definition elapsed (s : Client) : Client :=
  let now := boot_seconds (ticks s) in
  let s := set_ticks (S (ticks s)) s in
  if firstSendPacketTime_ s =? 0 then set_firstSendPacketTime_ now s else s.

Lemma bind_mac_of {A} (k : bytes -> M Client A) s : bind mac_of k s = k (ifaceMac (m_cltCnf s)) s.
Proof. done. Qed.

Lemma bind_seconds {A} p (k : DhcpPacket -> M Client A) s :
  bind (SetSecondsElapsed p) k s = k (with_secs (secs_of s) p) (elapsed s).
Proof.
  unfold SetSecondsElapsed, secs_of, elapsed, bind, query, get, modify, when, ret. cbn.
  destruct (firstSendPacketTime_ s =? 0) eqn:E; cbn; rewrite ?E; done.
Qed.

Lemma header_message type : type ∈ [DHCP_DISCOVER; DHCP_REQUEST; DHCP_DECLINE; DHCP_RELEASE] ->
  GetPacketHeaderInfo type zero_packet = Some (message [] 0 0 0 [typ type]).
Proof.
  intros H. repeat (apply elem_of_cons in H as [->|H]; [by vm_compute|]). by apply elem_of_nil in H.
Qed.

Lemma chaddr_message xid secs ci ts : length mac = 6%nat ->
  copy_chaddr mac (message [] xid secs ci ts) = message mac xid secs ci ts.
Proof.
  intros Hm. unfold copy_chaddr. assert (E : snd (memcpy_s (pad 16 []) DHCP_HWADDR_LENGTH mac MAC_ADDR_LEN) = pad 16 mac).
  { unfold memcpy_s. change (MAC_ADDR_LEN <=? DHCP_HWADDR_LENGTH) with true. cbv iota. cbn [snd].
    change (Z.to_nat MAC_ADDR_LEN) with 6%nat. rewrite (pad_zeros 16 mac), Hm, take_ge by lia. done. }
  cbn [c_chaddr message]. by rewrite E.
Qed.

(** Options that may be sent, and their size. *)
Lemma wf_value code v : 0 < code < END_OPTION -> code <> OPTION_OVERLOAD_OPTION -> wf_tlv (value_option code v).
Proof.
  intros Hc Ho. split; [done|split; [done|]]. cbn [value_option snd]. rewrite length_take. unfold value_bytes.
  repeat (destruct (_ =? _); [cbn [length le32]; lia|]). cbn. lia.
Qed.

Lemma wf_text code v : 0 < code < END_OPTION -> code <> OPTION_OVERLOAD_OPTION -> Forall wf_tlv (text_option code v).
Proof.
  intros Hc Ho. unfold text_option. destruct (Nat.ltb_spec 61 (length v)); [done|]. apply Forall_singleton.
  split; [done|split; [done|]]. cbn [snd]. lia.
Qed.

Lemma length_value code v : (length (enc (value_option code v)) <= 6)%nat.
Proof.
  rewrite length_enc. cbn [value_option snd]. rewrite length_take. unfold value_bytes.
  repeat (destruct (_ =? _); [cbn [length le32]; lia|]). cbn. lia.
Qed.

Lemma length_text code v : (length (encs (text_option code v)) <= 63)%nat.
Proof.
  unfold text_option. destruct (Nat.ltb_spec 61 (length v)); [cbn; lia|]. rewrite encs_one, length_enc. cbn [snd]. lia.
Qed.

Lemma wf_client_id : length mac = 6%nat -> wf_tlv (client_id mac).
Proof.
  intros Hm.
  unfold wf_tlv, client_id, CLIENT_IDENTIFIER_OPTION, END_OPTION, OPTION_OVERLOAD_OPTION. cbn [fst snd length]. lia.
Qed.

Lemma room_client_id : length mac = 6%nat -> (length (enc (client_id mac)) <= 9)%nat.
Proof. intros Hm. rewrite length_enc. cbn [client_id snd length]. lia. Qed.

Lemma host_message xid secs ci ts : Forall wf_tlv ts -> (length (encs ts) < 1600)%nat ->
  AddHostNameToOpts (message mac xid secs ci ts) = Some (message mac xid secs ci (ts ++ host_options)).
Proof.
  intros Hts Hroom. unfold AddHostNameToOpts, host_options.
  rewrite text_message, bind_some by (done || lia). cbv beta.
  rewrite text_message; [by rewrite <- app_assoc|done|done|apply Forall_app; split; [done|by apply wf_text]|].
  pose proof (length_text VENDOR_CLASS_IDENTIFIER_OPTION vendor_class).
  rewrite encs_app, length_app. unfold vendor_class in *. lia.
Qed.

Lemma wf_host : Forall wf_tlv host_options.
Proof. apply Forall_app. split; by apply wf_text. Qed.
Lemma room_host : (length (encs host_options) <= 126)%nat.
Proof. apply (room_app _ _ 63 63); apply length_text. Qed.
Lemma wf_request_list : wf_tlv request_list.
Proof. split; [done|split; [done|]]. cbn. lia. Qed.
End Messages.

(** The side conditions of the equations. *)
Ltac options_wf :=
  repeat first [apply wf_host | apply Forall_app; split | apply Forall_cons; split | apply Forall_nil_2 | apply wf_request_list
    | by apply wf_value | by apply wf_client_id].
Ltac options_room :=
  eapply Nat.le_lt_trans;
  [repeat first [apply room_host | eapply room_app | eapply room_cons | apply length_value | by apply room_client_id
     | apply Nat.le_refl]
  |apply Nat.ltb_lt; reflexivity].
Ltac side := first [done | by options_wf | options_room | (rewrite list_elem_of_In; vm_compute; tauto)].

(** The copying of the tail of a message. *)
Ltac built := rewrite bind_some; cbv beta.

Section Builders.
Context {IT : InetText} {IP : InetPton} {SO : StdSort} {SF : StoreFiles} {EN : Environment}.

Lemma common_message mac ts : length mac = 6%nat -> Forall wf_tlv ts -> (length (encs ts) < 1500)%nat ->
  GetPacketCommonInfo mac (message [] 0 0 0 ts) = Some (message mac 0 0 0 (ts ++ client_id mac :: host_options)).
Proof.
  intros Hm Hts Hroom. unfold GetPacketCommonInfo. rewrite chaddr_message, client_id_message by (done || lia). built.
  rewrite host_message; [by rewrite <- app_assoc|by options_wf|].
  pose proof (room_client_id mac Hm). rewrite encs_app, encs_one, length_app. lia.
Qed.

(** The body of each function is one message. *)
Lemma DhcpDiscover_sends xid ip s : length (ifaceMac (m_cltCnf s)) = 6%nat ->
  DhcpDiscover xid ip s = send_raw (message (ifaceMac (m_cltCnf s)) xid (secs_of s) 0
    (discover_options (ifaceMac (m_cltCnf s)))) (elapsed s).
Proof.
  intros Hm. unfold DhcpDiscover. rewrite bind_mac_of. remember (ifaceMac (m_cltCnf s)) as mac eqn:E. clear E.
  rewrite header_message, bind_from_option by side. rewrite common_message, bind_from_option by side.
  rewrite bind_seconds. change (with_secs ?a (with_xid ?b (message ?m 0 0 0 ?ts))) with (message m b a 0 ts).
  rewrite add_value_message, bind_from_option by side. rewrite request_list_message, bind_from_option by side.
  unfold discover_options. by rewrite <- !app_assoc.
Qed.

Lemma DhcpRequest_sends xid reqip servip s : length (ifaceMac (m_cltCnf s)) = 6%nat ->
  DhcpRequest xid reqip servip s = send_raw (message (ifaceMac (m_cltCnf s)) xid (secs_of s) 0
    (request_options (ifaceMac (m_cltCnf s)) reqip servip)) (elapsed s).
Proof.
  intros Hm. unfold DhcpRequest. rewrite bind_mac_of. remember (ifaceMac (m_cltCnf s)) as mac eqn:E. clear E.
  rewrite header_message, bind_from_option by side. rewrite common_message, bind_from_option by side.
  rewrite bind_seconds. change (with_secs ?a (with_xid ?b (message ?m 0 0 0 ?ts))) with (message m b a 0 ts).
  do 3 rewrite add_value_message, bind_from_option by side. rewrite request_list_message, bind_from_option by side.
  unfold request_options. by rewrite <- !app_assoc.
Qed.

Lemma DhcpReboot_sends xid reqip s : length (ifaceMac (m_cltCnf s)) = 6%nat ->
  DhcpReboot xid reqip s = send_raw (message (ifaceMac (m_cltCnf s)) xid (secs_of s) 0
    (reboot_options (ifaceMac (m_cltCnf s)) reqip)) (elapsed s).
Proof.
  intros Hm. unfold DhcpReboot. rewrite bind_mac_of. remember (ifaceMac (m_cltCnf s)) as mac eqn:E. clear E.
  rewrite header_message, bind_from_option by side. rewrite bind_seconds.
  change (copy_chaddr mac (message [] 0 0 0 ?ts)) with (copy_chaddr mac (message [] 0 0 0 ts)).
  rewrite chaddr_message by done. change (with_secs ?a (with_xid ?b (message ?m 0 0 0 ?ts))) with (message m b a 0 ts).
  rewrite client_id_message, bind_from_option by side.
  do 2 rewrite add_value_message, bind_from_option by side. rewrite host_message, bind_from_option by side.
  unfold AddParamaterRebootList. rewrite request_list_message, bind_from_option by side.
  unfold reboot_options. by rewrite <- !app_assoc.
Qed.

(** A renewal is sent to the server from a bound socket, or broadcast when the
    server is not known. *)
Lemma DhcpRenew_sends xid clientip serverip s : length (ifaceMac (m_cltCnf s)) = 6%nat ->
  DhcpRenew xid clientip serverip s =
    let p := message (ifaceMac (m_cltCnf s)) xid (secs_of s) clientip (renew_options (ifaceMac (m_cltCnf s))) in
    if serverip =? 0 then send_raw p (elapsed s) else send_kernel p clientip serverip (elapsed s).
Proof.
  intros Hm. unfold DhcpRenew. rewrite bind_mac_of. remember (ifaceMac (m_cltCnf s)) as mac eqn:E. clear E.
  rewrite header_message, bind_from_option by side. rewrite common_message, bind_from_option by side.
  rewrite bind_seconds. cbv zeta.
  change (with_ciaddr ?c (with_secs ?a (with_xid ?b (message ?m 0 0 0 ?ts)))) with (message m b a c ts).
  rewrite request_list_message, bind_from_option by side. rewrite add_value_message, bind_from_option by side.
  unfold renew_options. rewrite <- !app_assoc. by destruct (serverip =? 0).
Qed.

Lemma DhcpRelease_sends clientip serverip s : length (ifaceMac (m_cltCnf s)) = 6%nat ->
  DhcpRelease clientip serverip s =
    send_kernel (message (ifaceMac (m_cltCnf s)) (random_ (ticks s)) 0 0
      (release_options (ifaceMac (m_cltCnf s)) clientip serverip)) clientip serverip (set_ticks (S (ticks s)) s).
Proof.
  intros Hm. unfold DhcpRelease. rewrite bind_mac_of. remember (ifaceMac (m_cltCnf s)) as mac eqn:E. clear E.
  rewrite header_message, bind_from_option by side. rewrite common_message, bind_from_option by side.
  change (bind GetRandomId ?k s) with (k (random_ (ticks s)) (set_ticks (S (ticks s)) s)). cbv beta.
  change (with_xid ?b (message ?m 0 0 0 ?ts)) with (message m b 0 0 ts).
  do 2 rewrite add_value_message, bind_from_option by side.
  unfold release_options. by rewrite <- !app_assoc.
Qed.

Lemma DhcpDecline_sends xid clientip serverip s : length (ifaceMac (m_cltCnf s)) = 6%nat ->
  DhcpDecline xid clientip serverip s = send_raw (message (ifaceMac (m_cltCnf s)) xid 0 0
    (decline_options (ifaceMac (m_cltCnf s)) clientip serverip)) s.
Proof.
  intros Hm. unfold DhcpDecline. rewrite bind_mac_of. remember (ifaceMac (m_cltCnf s)) as mac eqn:E. clear E.
  rewrite header_message, bind_from_option by side. cbv zeta.
  change (with_xid ?b (message ?m 0 0 0 ?ts)) with (message m b 0 0 ts). rewrite chaddr_message by done.
  rewrite client_id_message, bind_from_option by side.
  by do 4 rewrite add_value_message, bind_from_option by side.
Qed.

(** ** The messages are packets *)

Definition tlv_u8 (t : tlv) : Prop := Forall is_u8 t.2.

Lemma encs_u8 ts : Forall wf_tlv ts -> Forall tlv_u8 ts -> u8b (encs ts).
Proof.
  induction 1 as [|t ts [Hc [_ Hl]] _ IH]; intros Hu; [by apply Forall_nil|]. apply Forall_cons in Hu as [Ht Hu].
  rewrite encs_cons. unfold END_OPTION in Hc. apply Forall_cons. split; [unfold is_u8; lia|].
  apply Forall_cons. split; [unfold is_u8; lia|]. apply Forall_app. split; [done|by apply IH].
Qed.

Lemma message_wf mac xid secs ci ts : length mac = 6%nat -> Forall is_u8 mac -> is_u32 xid -> is_u16 secs -> is_u32 ci ->
  Forall wf_tlv ts -> Forall tlv_u8 ts -> (length (encs ts) < 1700)%nat -> wf_dhcp (message mac xid secs ci ts).
Proof.
  intros Hm Hu Hx Hs Hc Hts Ht Hroom. split; cbn [message c_op c_htype c_hlen c_hops c_chaddr c_sname c_file c_options
    c_xid c_ciaddr c_yiaddr c_siaddr c_giaddr c_cookie c_secs c_flags].
  - by apply all_u8.
  - split; [|apply length_pad]. rewrite pad_zeros by lia. apply Forall_app. split; [done|]. by apply Forall_replicate.
  - split; [by apply Forall_replicate|by rewrite length_zeros].
  - split; [by apply Forall_replicate|by rewrite length_zeros].
  - split.
    + unfold image, u8b. apply Forall_app. split; [by apply encs_u8|]. apply Forall_cons. split; [done|].
      by apply Forall_replicate.
    + unfold image. rewrite length_app. cbn [length]. rewrite length_zeros. lia.
  - repeat (apply Forall_cons_2; [done|]). apply Forall_nil_2.
  - repeat (apply Forall_cons_2; [done|]). apply Forall_nil_2.
Qed.

Lemma u8_value code v : tlv_u8 (value_option code v).
Proof.
  unfold tlv_u8. cbn [value_option snd]. apply Forall_take. unfold value_bytes.
  destruct (_ =? _); [apply Forall_cons_2; [apply mod_u8|by apply all_u8]|].
  destruct (_ =? _).
  { pose proof (Z.mod_pos_bound v (2 ^ 16) eq_refl). apply Forall_cons_2; [|apply Forall_cons_2; [apply mod_u8|by apply all_u8]].
    unfold is_u8, u16. Z.to_euclidean_division_equations. lia. }
  destruct (_ =? _); [apply le32_u8b|]. by apply Forall_replicate.
Qed.

Lemma u8_text code v : Forall is_u8 v -> Forall tlv_u8 (text_option code v).
Proof. intros H. unfold text_option. destruct (_ <? _)%nat; [done|]. by apply Forall_singleton. Qed.

Lemma u8_client_id mac : Forall is_u8 mac -> tlv_u8 (client_id mac).
Proof. intros H. apply Forall_cons. by split. Qed.

Context {LE : EnvironmentLaws EN}.

Lemma u8_host : Forall tlv_u8 host_options.
Proof.
  assert (Hm : Forall is_u8 product_model) by (eapply Forall_impl; [apply model_text|]; by intros c []).
  apply Forall_app. split; apply u8_text; [|done]. apply Forall_app. split; [by apply all_u8|]. apply Forall_cons. by split.
Qed.
End Builders.

Ltac options_u8 :=
  repeat first [apply u8_host | apply u8_value | by apply u8_client_id | by apply all_u8
    | apply Forall_app; split | apply Forall_cons; split | apply Forall_nil_2].
