(* ===== verification/ClientEvents.v ===== *)
(** The life cycle of the IPv4 client
    (src/services/dhcp_client/src/dhcp_client_state_machine.cpp): the handlers of
    replies, the callbacks of the timers, the configuration, the client's task
    and its loop, and the calls from the client service.

    An [event] is one call from outside, one timer or probe callback, or one part
    of the task: its beginning, an iteration of its loop, its end.  Events are
    atomic.  In the code a lock orders the calls and callbacks; the loop's own
    handlers hold no lock. *)
From stdpp Require Import functions.
From S2P Require Import Prelude AddressUtils OptionList CommonUtil DottedQuad ClientOptions RawPacket ResultStore ClientFunction ClientState ClientHandlers.

#[local] Arguments str : simpl never.

Definition DEFAULT_TIMEROUT : Z := 18000.
Definition DEFAULT_TIMEROUT_ETH0 : Z := 72 * 1000.
Definition INFNAME_SIZE : Z := 16.

(** The result after [memset_s]: the empty string and the empty vector are all
    zero bytes. *)
Definition zero_result : DhcpIpResult := mkResult 0 [] 0 0 [] [] [] [] [] [] [] [] [].

Section Events.
Context {IT : InetText} {IP : InetPton} {SO : StdSort} {SF : StoreFiles} {EN : Environment}.

(** * Replies *)

Definition DhcpOfferPacketHandle (type : Z) (packet : DhcpPacket) (timestamp : Z) : M Client unit :=
  if negb (type =? DHCP_OFFER) then ret tt
  else
    let* '(ok, u32Data) := from_option (GetDhcpOptionUint32 packet SERVER_IDENTIFIER_OPTION 0) in
    if negb ok then ret tt
    else
      modify (set_m_transID (c_xid packet)) ;;
      modify (set_m_requestedIp4 (c_yiaddr packet)) ;;
      modify (set_m_serverIp4 (htonl u32Data)) ;;
      modify (set_m_dhcp4State DHCP_STATE_REQUESTING) ;;
      modify (set_m_sentPacketNum 0) ;;
      modify (set_m_timeoutTimestamp timestamp).

(** The lease time of a packet, an hour without the option. *)
Definition lease_of (packet : DhcpPacket) : option Z :=
  '(ok, u32Data) ← GetDhcpOptionUint32 packet IP_ADDRESS_LEASE_TIME_OPTION 0;
  Some (if ok : bool then u32Data else LEASETIME_DEFAULT * ONE_HOURS_SEC).

(** The local result is not initialised. *)
Definition GetDhcpOffer (packet : DhcpPacket) : M Client unit :=
  let* cnf := get m_cltCnf in
  if negb (is_wlan (ifaceName cnf)) then ret tt
  else
    let* '(ok, u8Message) := from_option (GetDhcpOptionUint8 packet DHCP_MESSAGE_TYPE_OPTION 0) in
    if negb ok then ret tt
    else if negb (u8Message =? DHCP_OFFER) then ret tt
    else
      let* leaseTime := from_option (lease_of packet) in
      modify (set_m_requestedIp4 (c_yiaddr packet)) ;;
      let* dhcpIpResult := query junk_result in
      let dhcpIpResult := set_uOptLeasetime leaseTime
        (set_ifname (ifaceName cnf) (set_code PUBLISH_DHCP_OFFER_REPORT (set_dnsAddr [] dhcpIpResult))) in
      let* dhcpIpResult := parse_result packet dhcpIpResult in
      let* _ok := publish dhcpIpResult in ret tt.

Definition ParseDhcpAckPacket (packet : DhcpPacket) (timestamp : Z) : M Client unit :=
  modify (set_m_leaseTime (LEASETIME_DEFAULT * ONE_HOURS_SEC)) ;;
  modify (set_m_requestedIp4 (c_yiaddr packet)) ;;
  let* lease := from_option (lease_of packet) in
  modify (set_m_leaseTime lease) ;;
  modify (set_m_renewalSec (RENEWAL_SEC_MULTIPLE lease)) ;;
  modify (set_m_rebindSec (REBIND_SEC_MULTIPLE lease)) ;;
  modify (set_m_renewalTimestamp timestamp) ;;
  let* boot := query boot_seconds in
  modify (set_m_renewalTimestampBoot boot) ;;
  let* result := get m_dhcpIpResult in
  let* result := parse_result packet (set_uOptLeasetime lease result) in
  modify (set_m_dhcpIpResult result).

Definition ParseDhcpNakPacket (timestamp : Z) : M Client unit :=
  modify (set_m_dhcp4State DHCP_STATE_INIT) ;;
  SetSocketMode SOCKET_MODE_RAW ;;
  modify (set_m_requestedIp4 0) ;;
  modify (set_m_sentPacketNum 0) ;;
  modify (set_m_timeoutTimestamp timestamp) ;;
  let* resend := get m_resendTimer in
  if resend =? 0 then modify (set_m_resendTimer FIRST_TIMEOUT_SEC)
  else
    act (Slept resend) ;;
    let resend := i32 (resend * DOUBLE_TIME) in
    modify (set_m_resendTimer (if resend >? MAX_TIMEOUT_SEC then MAX_TIMEOUT_SEC else resend)).

(** [inet_addr]: all ones for a text that is no address. *)
Definition inet_addr (s : bytes) : Z := default 0xffffffff (inet_aton s).

Definition DhcpAckOrNakPacketHandle (type : Z) (packet : DhcpPacket) (timestamp : Z) : M Client unit :=
  let* state := get m_dhcp4State in
  if negb (type =? DHCP_ACK) && negb (type =? DHCP_NAK) then
    when (state =? DHCP_STATE_INITREBOOT)
      (modify (set_m_dhcp4State DHCP_STATE_INIT) ;; modify (set_m_timeoutTimestamp timestamp))
  else
    modify (set_m_dhcpIpResult zero_result) ;;
    if type =? DHCP_NAK then ParseDhcpNakPacket timestamp
    else
      ParseDhcpAckPacket packet timestamp ;;
      let* cnf := get m_cltCnf in
      let* result := get m_dhcpIpResult in
      let* r := lift_kernel (SetLocalInterface (ifaceName cnf) (inet_addr (strYiaddr result))
                               (inet_addr (strOptSubnet result))) in
      if negb (r =? DHCP_OPT_SUCCESS) then ret tt
      else
        modify (set_m_dhcpIpResult (FormatString result)) ;;
        CloseAllRenewTimer ;;
        let* router := get m_routerCfg in
        let* found := (if (state =? DHCP_STATE_INITREBOOT) && bool_decide (dnsAddr result = [])
                       then
                         let* cached := GetCachedDhcpResult (router_bssid router) in
                         match cached with
                         | None => ret false
                         | Some ipCached =>
                             modify (fun s => set_m_dhcpIpResult (set_dnsAddr (dnsAddr (ipResult ipCached)) (m_dhcpIpResult s)) s) ;;
                             ret true
                         end
                       else ret true) in
        if negb found then ret tt
        else if (state =? DHCP_STATE_REQUESTING) || (state =? DHCP_STATE_INITREBOOT) then IpConflictDetect
        else
          let* r := publish_current PUBLISH_CODE_SUCCESS in
          if negb (r =? DHCP_OPT_SUCCESS) then ret tt else enter_bound timestamp.

(** A reply that is read: [received] is what [read] gets.  Returns the message
    type and the packet, or fails. *)
Definition DhcpResponseDataCheck (timestamp : Z) (received : option bytes) (packet : DhcpPacket)
    : M Client (option (Z * DhcpPacket)) :=
  let* mode := get m_socketMode in
  let* '(getLen, packet) := (if mode =? SOCKET_MODE_RAW
                             then let* junk := query junk_byte in from_option (GetDhcpRawPacket junk packet received)
                             else ret (GetDhcpKernelPacket packet received)) in
  let* state := get m_dhcp4State in
  if getLen <? 0 then
    when (state =? DHCP_STATE_INITREBOOT)
      (modify (set_m_dhcp4State DHCP_STATE_INIT) ;; modify (set_m_timeoutTimestamp timestamp)) ;;
    ret None
  else
    let* xid := get m_transID in
    if negb (c_xid packet =? xid) then ret None
    else
      GetDhcpOffer packet ;;
      let* '(ok, u8Message) := from_option (GetDhcpOptionUint8 packet DHCP_MESSAGE_TYPE_OPTION 0) in
      ret (if ok then Some (u8Message, packet) else None).

Definition DhcpResponseHandle (timestamp : Z) (received : option bytes) : M Client unit :=
  let* reply := DhcpResponseDataCheck timestamp received zero_packet in
  match reply with
  | None => ret tt
  | Some (u8Message, packet) =>
      let* state := get m_dhcp4State in
      if state =? DHCP_STATE_SELECTING then DhcpOfferPacketHandle u8Message packet timestamp
      else if (state =? DHCP_STATE_REQUESTING) || (state =? DHCP_STATE_RENEWING) || (state =? DHCP_STATE_REBINDING)
              || (state =? DHCP_STATE_INITREBOOT) || (state =? DHCP_STATE_RENEWED)
      then DhcpAckOrNakPacketHandle u8Message packet timestamp
      else ret tt
  end.

(** * Configuration *)

(** Assignments to the members of the configuration. *)
Definition set_interface (index : Z) (mac : bytes) (c : DhcpClientCfg) : DhcpClientCfg :=
  mkCfg index (isIpv6 c) (ifaceIpv4 c) (getMode c) mac (ifaceName c) (workDir c) (confFile c) (leaseFile c)
    (resultFile c) (result6File c).
Definition set_ifaceIpv4 (v : Z) (c : DhcpClientCfg) : DhcpClientCfg :=
  mkCfg (ifaceIndex c) (isIpv6 c) v (getMode c) (ifaceMac c) (ifaceName c) (workDir c) (confFile c) (leaseFile c)
    (resultFile c) (result6File c).
Definition set_names (name dir : bytes) (c : DhcpClientCfg) : DhcpClientCfg :=
  mkCfg (ifaceIndex c) (isIpv6 c) (ifaceIpv4 c) (getMode c) (ifaceMac c) name dir (confFile c) (leaseFile c)
    (resultFile c) (result6File c).

(** The paths are far shorter than their arrays. *)
Definition InitSpecifiedClientCfg (ifname : bytes) (isIpv6_ : bool) : M Client Z :=
  if Z.of_nat (length ifname) >=? INFNAME_SIZE then
    modify (fun s => set_m_cltCnf (set_names [] WORKDIR (m_cltCnf s)) s) ;; ret DHCP_OPT_FAILED
  else
    modify (fun s => set_m_cltCnf (set_names ifname WORKDIR (m_cltCnf s)) s) ;;
    let* made := query directories_made in
    if negb made then ret DHCP_OPT_FAILED
    else
      let* c := get m_cltCnf in
      modify (set_m_cltCnf (mkCfg (ifaceIndex c) isIpv6_ (ifaceIpv4 c)
        (if isIpv6_ then DHCP_IP_TYPE_ALL else DHCP_IP_TYPE_V4) (ifaceMac c) (ifaceName c) (workDir c)
        (workDir c ++ DHCPC_CONF)
        (workDir c ++ str "dhcp_client_service-" ++ ifaceName c ++ str ".lease")
        (workDir c ++ ifaceName c ++ str ".result")
        (workDir c ++ str "dhcp_client_service-6-" ++ ifaceName c ++ str ".lease"))) ;;
      ret DHCP_OPT_SUCCESS.

Definition GetClientNetworkInfo : M Client Z :=
  let* c := get m_cltCnf in
  let* answer := query interface_answer in
  let* '(r, index, mac, _addr) := lift_kernel (GetLocalInterface answer (ifaceName c) (ifaceIndex c) (ifaceMac c) None) in
  modify (set_m_cltCnf (set_interface index mac c)) ;;
  if negb (r =? DHCP_OPT_SUCCESS) then ret DHCP_OPT_FAILED
  else
    match MacChConToMacStr (Some mac) MAC_ADDR_LEN (MAC_ADDR_LEN * MAC_ADDR_CHAR_NUM) with
    | None => ret DHCP_OPT_FAILED
    | Some _ =>
        let* list := query interface_list in
        let* c := get m_cltCnf in
        let '(r, addr, _freed) := GetLocalIp list (ifaceName c) (ifaceIpv4 c) in
        modify (set_m_cltCnf (set_ifaceIpv4 addr c)) ;;
        if negb (r =? DHCP_OPT_SUCCESS) then ret DHCP_OPT_FAILED
        else if bool_decide (Ip4IntConvertToStr addr true = []) then ret DHCP_OPT_FAILED else ret DHCP_OPT_SUCCESS
    end.

Definition InitConfig (ifname : bytes) (isIpv6_ : bool) : M Client Z :=
  let* r := InitSpecifiedClientCfg ifname isIpv6_ in
  if negb (r =? DHCP_OPT_SUCCESS) then ret DHCP_OPT_FAILED
  else
    let* r := GetClientNetworkInfo in
    if negb (r =? DHCP_OPT_SUCCESS) then ret DHCP_OPT_FAILED
    else modify (set_m_slowArpDetecting false) ;; ret DHCP_OPT_SUCCESS.

Definition SetConfiguration (routerCfg : RouterConfig) : M Client unit := modify (set_m_routerCfg routerCfg).
Definition GetAction : M Client Z := get m_action.

(** * The task *)

Definition DhcpInit : M Client unit :=
  modify (set_m_dhcp4State DHCP_STATE_INIT) ;;
  modify (set_m_resendTimer 0) ;;
  modify (set_m_sentPacketNum 0) ;;
  modify (set_m_timeoutTimestamp 0) ;;
  modify (set_m_conflictCount 0) ;;
  SetSocketMode SOCKET_MODE_RAW ;;
  let* name := get m_ifName in
  act (KernelFileWritten (str "/proc/sys/net/ipv4/conf/" ++ name ++ str "/arp_ignore") (str "1")) ;;
  act (KernelFileWritten (str "/proc/sys/net/ipv4/conf/" ++ name ++ str "/arp_announce") (str "2")) ;;
  let* t := query time_ in
  if t =? -1 then ret tt else Reboot t.

(** Returns success, [sockFdRaw] and [sockFdkernel]. *)
Definition InitSocketFd (index : Z) (name : bytes) (sockFdRaw sockFdkernel : Z) : M Kernel (bool * Z * Z) :=
  let* '(r, sockFdRaw) := CreateRawSocket sockFdRaw in
  if negb (r =? SOCKET_OPT_SUCCESS) then ret (false, sockFdRaw, sockFdkernel)
  else
    let* r := BindRawSocket sockFdRaw index None in
    if negb (r =? SOCKET_OPT_SUCCESS) then ret (false, sockFdRaw, sockFdkernel)
    else
      let* '(r, fd) := CreateKernelSocket (Some sockFdkernel) in
      let sockFdkernel := default sockFdkernel fd in
      if negb (r =? SOCKET_OPT_SUCCESS) then close sockFdRaw ;; ret (false, sockFdRaw, sockFdkernel)
      else if sockFdkernel <? 0 then close sockFdRaw ;; ret (false, sockFdRaw, sockFdkernel)
      else
        let* r := BindKernelSocket sockFdkernel (Some name) INADDR_ANY BOOTP_CLIENT true in
        if negb (r =? SOCKET_OPT_SUCCESS) then close sockFdRaw ;; ret (false, sockFdRaw, sockFdkernel)
        else ret (true, sockFdRaw, sockFdkernel).

(** The task up to its loop. *)
Definition StartIpv4 : M Client unit :=
  let* action := get m_action in
  when (negb (action =? ACTION_RENEW_T1) && negb (action =? ACTION_RENEW_T2) && negb (action =? ACTION_RENEW_T3)) DhcpInit ;;
  modify (set_firstSendPacketTime_ 0) ;;
  let* c := get m_cltCnf in
  let* '(ok, sockFdRaw, sockFdkernel) := lift_kernel (InitSocketFd (ifaceIndex c) (ifaceName c) (-1) (-1)) in
  if negb ok then modify (set_task task_none) ;; modify (set_threadState_ IPV4_TASK_IDLE)
  else modify (set_task (task_loop sockFdRaw sockFdkernel)).

Definition RunGetIPThreadFunc : M Client unit :=
  let* c := get m_cltCnf in
  if (getMode c =? DHCP_IP_TYPE_ALL) || (getMode c =? DHCP_IP_TYPE_V4) then StartIpv4
  else modify (set_task task_none).

(** One iteration; [readable] is what can be read, if anything. *)
Definition StartIpv4Loop (readable : option (option bytes)) : M Client unit :=
  let* curTimestamp := query time_ in
  let* timeoutTimestamp := get m_timeoutTimestamp in
  if timeoutTimestamp - curTimestamp <=? 0 then DhcpRequestHandle curTimestamp
  else
    match readable with
    | None => ret tt
    | Some received => DhcpResponseHandle curTimestamp received
    end.

(** After the loop. *)
Definition StartIpv4_exit (sockFdRaw sockFdkernel : Z) : M Client unit :=
  when (sockFdRaw >=? 0) (lift_kernel (close sockFdRaw)) ;;
  when (sockFdkernel >=? 0) (lift_kernel (close sockFdkernel)) ;;
  modify (set_task task_none) ;;
  modify (set_threadState_ IPV4_TASK_IDLE).

(** The task runs until it ends, the loop being told to stop. *)
Definition task_ends : M Client unit :=
  let* t := get task in
  match t with task_posted => RunGetIPThreadFunc | _ => ret tt end ;;
  let* t := get task in
  match t with task_loop sockFdRaw sockFdkernel => StartIpv4_exit sockFdRaw sockFdkernel | _ => ret tt end.

Definition InitStartIpv4Thread : M Client Z :=
  let* state := get threadState_ in
  if negb (state =? IPV4_TASK_IDLE) then ret DHCP_OPT_FAILED
  else
    modify (set_threadState_ IPV4_TASK_RUNNING) ;;
    let* result := query post_task in
    if negb result then modify (set_threadState_ IPV4_TASK_IDLE) ;; ret DHCP_OPT_FAILED
    else modify (set_task task_posted) ;; ret DHCP_OPT_SUCCESS.

(** * Calls *)

Definition StartIpv4Type (ifname : bytes) (isIpv6_ : bool) (action : Z) : M Client Z :=
  let* state := get threadState_ in
  when (negb (state =? IPV4_TASK_IDLE))
    (CloseAllRenewTimer ;;
     let* _r := StopIpv4 in
     let* exited := query exited_in_time in
     when exited task_ends) ;;
  modify (set_m_ifName ifname) ;;
  modify (set_m_action action) ;;
  StopTimer TIMER_GET_IP ;;
  let* timeout := get timeOut_ in
  StartTimer TIMER_GET_IP timeout ;;
  let* r := InitConfig ifname isIpv6_ in
  if negb (r =? DHCP_OPT_SUCCESS) then ret DHCP_OPT_FAILED
  else
    when ((action =? ACTION_START_NEW) || (action =? ACTION_START_OLD)) (let* _r := InitStartIpv4Thread in ret tt) ;;
    ret DHCP_OPT_SUCCESS.

Definition StopIpv4Type : M Client Z := CloseAllRenewTimer ;; StopIpv4.

Definition ExecDhcpRenew : M Client Z :=
  let* state := get m_dhcp4State in
  when ((state =? DHCP_STATE_REQUESTING) || (state =? DHCP_STATE_RELEASED) || (state =? DHCP_STATE_RENEWED))
    (modify (set_m_dhcp4State DHCP_STATE_INIT) ;; SetSocketMode SOCKET_MODE_RAW) ;;
  when ((state =? DHCP_STATE_BOUND) || (state =? DHCP_STATE_RENEWING) || (state =? DHCP_STATE_REBINDING))
    (modify (set_m_dhcp4State DHCP_STATE_RENEWED)) ;;
  modify (set_m_sentPacketNum 0) ;;
  modify (set_m_timeoutTimestamp 0) ;;
  ret DHCP_OPT_SUCCESS.

Definition ExecDhcpRelease : M Client Z :=
  let* state := get m_dhcp4State in
  let* requested := get m_requestedIp4 in
  let* server := get m_serverIp4 in
  when ((state =? DHCP_STATE_BOUND) || (state =? DHCP_STATE_RENEWING) || (state =? DHCP_STATE_REBINDING))
    (let* _sent := DhcpRelease requested server in ret tt) ;;
  modify (set_m_dhcp4State DHCP_STATE_RELEASED) ;;
  SetSocketMode SOCKET_MODE_INVALID ;;
  modify (set_m_timeoutTimestamp SIGNED_INTEGER_MAX) ;;
  ret DHCP_OPT_SUCCESS.

(** * Timers *)

(** The event of an uninitialised result with a code and an interface. *)
Definition publish_code (code : Z) : M Client unit :=
  let* c := get m_cltCnf in
  let* ipResult := query junk_result in
  let* _ok := publish (set_ifname (ifaceName c) (set_code code ipResult)) in ret tt.

Definition GetIpTimerCallback : M Client unit :=
  let* state := get threadState_ in
  if negb (state =? IPV4_TASK_RUNNING) then ret tt
  else
    StopTimer TIMER_GET_IP ;;
    let* _r := StopIpv4 in
    let* currentMode := get m_action in
    if (currentMode =? ACTION_RENEW_T1) || (currentMode =? ACTION_RENEW_T2) then ret tt
    else if currentMode =? ACTION_RENEW_T3 then publish_code PUBLISH_CODE_EXPIRED
    else publish_code PUBLISH_CODE_TIMEOUT.

(** The common part of the two callbacks. *)
Definition restart (action state : Z) (raw : bool) : M Client unit :=
  let* _r := StopIpv4 in
  modify (set_m_action action) ;;
  let* name := get m_ifName in
  let* c := get m_cltCnf in
  let* _r := InitConfig name (isIpv6 c) in
  let* timeout := get timeOut_ in
  StartTimer TIMER_GET_IP timeout ;;
  modify (set_m_dhcp4State state) ;;
  modify (set_m_sentPacketNum 0) ;;
  modify (set_m_timeoutTimestamp 0) ;;
  when raw (SetSocketMode SOCKET_MODE_RAW) ;;
  let* _r := InitStartIpv4Thread in ret tt.

Definition RenewDelayCallback : M Client unit :=
  StopTimer TIMER_RENEW_DELAY ;; restart ACTION_RENEW_T1 DHCP_STATE_RENEWING false.
Definition RebindDelayCallback : M Client unit :=
  StopTimer TIMER_REBIND_DELAY ;; restart ACTION_RENEW_T2 DHCP_STATE_REBINDING true.
Definition RemainingDelayCallback : M Client unit :=
  let* _r := StopIpv4 in
  CloseAllRenewTimer ;;
  modify (set_m_action ACTION_RENEW_T3) ;;
  publish_code PUBLISH_CODE_EXPIRED.

Definition SetTimerCallback (type : TimerType) : M Client unit :=
  match type with
  | TIMER_GET_IP => GetIpTimerCallback
  | TIMER_RENEW_DELAY => RenewDelayCallback
  | TIMER_REBIND_DELAY => RebindDelayCallback
  | TIMER_REMAINING_DELAY => RemainingDelayCallback
  | TIMER_SLOW_ARP => SlowArpTimeoutCallback
  end.

(** * Events *)

(** The constructor of the state machine; [action0], [cfg0] and [result0] are
    what the members it leaves uninitialised hold. *)
Definition NewClient (ifname : bytes) (action0 : Z) (cfg0 : DhcpClientCfg) (result0 : DhcpIpResult) (st : Store) (k : Kernel)
    : Client :=
  mkClient DHCP_STATE_INIT 0 0 0 0 0 0 0 0 0 0 SOCKET_MODE_INVALID 0
    (mkCfg 0 false 0 DHCP_IP_TYPE_NONE (ifaceMac cfg0) (ifaceName cfg0) (workDir cfg0) (confFile cfg0) (leaseFile cfg0)
       (resultFile cfg0) (result6File cfg0))
    IPV4_TASK_IDLE ifname action0 (fun _ => 0) 0
    (if bool_decide (ifname = str "eth0") then DEFAULT_TIMEROUT_ETH0 else DEFAULT_TIMEROUT) []
    (mkRouter [] [] false true false false true) 0 result0 false 0 task_none st k 0 [].

Inductive event :=
| Start (ifname : bytes) (isIpv6 : bool) (action : Z)
| Stop
| Configure (routerCfg : RouterConfig)
| Renew
| Release
| Expire (type : TimerType)          (* a timer that runs *)
| SlowArpTask                        (* the task SlowArpDetect has posted *)
| TaskBegins
| Loop (readable : option (option bytes))
| TaskEnds.

(** When an event can happen. *)
Definition enabled (e : event) (s : Client) : bool :=
  match e with
  | Expire t => negb (timerId s t =? 0)
  | TaskBegins => match task s with task_posted => true | _ => false end
  | Loop _ => match task s with task_loop _ _ => threadState_ s =? IPV4_TASK_RUNNING | _ => false end
  | TaskEnds => match task s with task_loop _ _ => negb (threadState_ s =? IPV4_TASK_RUNNING) | _ => false end
  | _ => true
  end.

Definition handle (e : event) : M Client unit :=
  match e with
  | Start ifname isIpv6 action => let* _r := StartIpv4Type ifname isIpv6 action in ret tt
  | Stop => let* _r := StopIpv4Type in ret tt
  | Configure routerCfg => SetConfiguration routerCfg
  | Renew => let* _r := ExecDhcpRenew in ret tt
  | Release => let* _r := ExecDhcpRelease in ret tt
  | Expire t => SetTimerCallback t
  | SlowArpTask => slow_arp_task
  | TaskBegins => RunGetIPThreadFunc
  | Loop readable => StartIpv4Loop readable
  | TaskEnds => task_ends
  end.

(** The events in turn; one that cannot happen is skipped. *)
Definition next (e : event) : M Client unit :=
  fun s => if enabled e s then handle e s else Some (tt, s).
Fixpoint run (es : list event) : M Client unit :=
  match es with
  | [] => ret tt
  | e :: es => next e ;; run es
  end.

Inductive step : Client -> Client -> Prop :=
| step_event e s s' : enabled e s = true -> handle e s = Some (tt, s') -> step s s'.
End Events.
