(* ===== verification/ClientInvariant.v ===== *)
(** The invariant of the IPv4 client: the members hold values of their types and
    within their bounds, every packet sent is a well-formed message of a client,
    every result published fits its arrays; and no sequence of events, replies
    and failures of the surroundings leads to undefined behaviour.

    [safe I m R] (Prelude) is proved function by function; the hints of the
    database [safe] are the lemmas of the functions called. *)
From stdpp Require Import functions.
From S2P Require Import Prelude AddressUtils OptionList CommonUtil DottedQuad ClientOptions RawPacket ResultStore ClientFunction ClientState ClientHandlers ClientMessages ClientEvents.

#[local] Arguments str : simpl never.

(** * Calls to the kernel end *)

Definition anyk (k : Kernel) : Prop := True.

Lemma syscall_safe c : safe anyk (syscall c) (fun _ => True).
Proof. by intros k _. Qed.
Lemma close_safe fd : safe anyk (close fd) (fun _ => True).
Proof. by intros k _. Qed.
#[export] Hint Resolve syscall_safe close_safe : safe.

(** Every call of the kernel ends, so a function of calls only does. *)
Lemma total_safe {A} (m : M Kernel A) (R : A -> Prop) : (forall k, exists a k', m k = Some (a, k') /\ R a) -> safe anyk m R.
Proof. intros H k _. destruct (H k) as (a & k' & E & Ha). unfold wp. by rewrite E. Qed.

Lemma BindKernelSocket_safe fd name ip port b : safe anyk (BindKernelSocket fd name ip port b) (fun _ => True).
Proof.
  assert (Hopt : forall w, safe anyk (set_option w fd) (fun _ => True)).
  { intros w. unfold set_option. safe_steps; done. }
  unfold BindKernelSocket. repeat (safe_step || (eapply safe_bind; [apply Hopt|intros ? _]); cbv beta); done.
Qed.
Lemma BindRawSocket_safe fd index hw : safe anyk (BindRawSocket fd index hw) (fun _ => True).
Proof. unfold BindRawSocket. safe_steps; done. Qed.
Lemma CreateRawSocket_safe fd : safe anyk (CreateRawSocket fd) (fun _ => True).
Proof. unfold CreateRawSocket. safe_steps; done. Qed.
Lemma CreateKernelSocket_safe fd : safe anyk (CreateKernelSocket (Some fd)) (fun _ => True).
Proof. unfold CreateKernelSocket. safe_steps; done. Qed.
#[export] Hint Resolve BindKernelSocket_safe BindRawSocket_safe CreateRawSocket_safe CreateKernelSocket_safe : safe.

Lemma SendToDhcpPacket_safe p srcIp destIp index hw : wf_dhcp p -> is_u32 srcIp -> is_u32 destIp ->
  is_Some (GetEndOptionIndex (c_options p)) -> safe anyk (SendToDhcpPacket p srcIp destIp index hw) (fun _ => True).
Proof.
  intros Hp Hs Hd Hend. destruct (fill_packet_defined p srcIp destIp Hp Hs Hd Hend) as [o Ho].
  unfold SendToDhcpPacket. destruct hw; [|by apply safe_ret]. eapply safe_bind; [apply CreateRawSocket_safe|].
  intros [r fd] _. rewrite Ho. safe_steps; try done. eapply safe_bind; [apply (safe_from_option _ _ (fun x => x = o))|].
  { by exists o. } intros ? ->. destruct o as [[? ?]|]; safe_steps; done.
Qed.

Lemma SendDhcpPacket_safe p srcIp destIp : is_Some (GetEndOptionIndex (c_options p)) ->
  safe anyk (SendDhcpPacket p srcIp destIp) (fun _ => True).
Proof.
  intros [e He]. unfold SendDhcpPacket. eapply safe_bind; [apply CreateKernelSocket_safe|]. intros [r fd] _. rewrite He.
  safe_steps; try done. eapply safe_bind; [apply (safe_from_option _ _ (fun _ => True)); by exists e|]. intros ? _.
  safe_steps; done.
Qed.

Lemma SetIpOrMask_safe name fd addr cmd : safe anyk (SetIpOrMask name fd addr cmd) (fun _ => True).
Proof. unfold SetIpOrMask, ioctl. safe_steps; done. Qed.
#[export] Hint Resolve SetIpOrMask_safe : safe.
Lemma SetLocalInterface_safe name ip mask : safe anyk (SetLocalInterface name ip mask) (fun _ => True).
Proof. unfold SetLocalInterface. safe_steps; done. Qed.

(** The hardware address is the old one or the one read. *)
Lemma GetLocalInterface_safe answer name index mac addr (P : bytes -> Prop) : P mac -> P (ifr_hwaddr answer) ->
  safe anyk (GetLocalInterface answer name index mac addr) (fun '(_, _, mac, _) => P mac).
Proof. intros H1 H2. unfold GetLocalInterface, ioctl. safe_steps; done. Qed.

Lemma InitSocketFd_safe index name raw kernel : safe anyk (InitSocketFd index name raw kernel) (fun _ => True).
Proof. unfold InitSocketFd. safe_steps; done. Qed.

(** * Lookups in a packet *)

Section Lookups.
Context (packet : DhcpPacket) (Hp : wf_fields packet).

Lemma GetDhcpOption_defined code : defined (GetDhcpOption packet code) (good_result packet code).
Proof using Hp.
  apply GetDhcpOption_loop_safe; [done|by left|lia|]. vm_compute. split; [discriminate|reflexivity].
Qed.

(** What a lookup returns can be read. *)
Lemma at_ptr_defined code p len n : good_result packet code (Some p, len) -> 0 <= n <= len \/ n = 1 ->
  defined (at_ptr packet p n) (fun b => u8b b /\ length b = Z.to_nat n).
Proof using Hp.
  destruct p as [f off]. cbn [good_result]. intros (Ho & Hl & Hb & _) Hn. destruct (Hp f) as [Hlen Hu].
  unfold at_ptr, rd_n. cbn [fst snd]. rewrite (proj2 (Z.leb_le 0 off)), (proj2 (Z.leb_le _ _)) by lia. cbn [andb].
  eexists. split; [reflexivity|]. split; [by apply Forall_take, Forall_drop|]. rewrite length_take, length_drop. lia.
Qed.

Lemma at_ptr_next code f off len n k : good_result packet code (Some (f, off), len) -> 0 <= k -> 0 <= n -> k + n <= len ->
  defined (at_ptr packet (f, off + k) n) (fun b => u8b b /\ length b = Z.to_nat n).
Proof using Hp.
  cbn [good_result]. intros (Ho & Hl & Hb & _) Hk Hn Hkn. destruct (Hp f) as [Hlen Hu].
  unfold at_ptr, rd_n. cbn [fst snd]. rewrite (proj2 (Z.leb_le 0 _)), (proj2 (Z.leb_le _ _)) by lia. cbn [andb].
  eexists. split; [reflexivity|]. split; [by apply Forall_take, Forall_drop|]. rewrite length_take, length_drop. lia.
Qed.

Lemma ParseIp_u32 b : u8b b -> is_u32 (ParseIp b).
Proof. apply (w32_u32 b 0). Qed.

Lemma GetDhcpOptionUint8_defined code data : is_u8 data ->
  defined (GetDhcpOptionUint8 packet code data) (fun '(_, v) => is_u8 v).
Proof using Hp.
  intros Hd. unfold GetDhcpOptionUint8. eapply defined_bind; [apply GetDhcpOption_defined|]. intros [[p|] len] Hg;
    [|by apply defined_some]. destruct (Z.ltb_spec len DHCP_UINT8_BYTES); [by apply defined_some|].
  eapply defined_bind; [apply (at_ptr_defined code p len); [done|by right]|]. intros b [Hb _]. apply defined_some.
  by apply byte_at_is_u8.
Qed.

Lemma GetDhcpOptionUint32_defined code data : is_u32 data ->
  defined (GetDhcpOptionUint32 packet code data) (fun '(_, v) => is_u32 v).
Proof using Hp.
  intros Hd. unfold GetDhcpOptionUint32. eapply defined_bind; [apply GetDhcpOption_defined|]. intros [[p|] len] Hg;
    [|by apply defined_some]. destruct (Z.ltb_spec len DHCP_UINT32_BYTES); [by apply defined_some|].
  eapply defined_bind; [apply (at_ptr_defined code p len); [done|unfold DHCP_UINT32_BYTES in *; lia]|].
  intros b [Hb _]. apply defined_some. destruct (_ >? 0); [apply htonl_range|done].
Qed.

Lemma GetDhcpOptionUint32n_defined code : defined (GetDhcpOptionUint32n packet code 0 0)
  (fun '(_, v1, v2) => is_u32 v1 /\ is_u32 v2).
Proof using Hp.
  unfold GetDhcpOptionUint32n. eapply defined_bind; [apply GetDhcpOption_defined|]. intros [[[f off]|] len] Hg;
    [|by apply defined_some]. unfold DHCP_UINT32_BYTES.
  destruct (Z.ltb_spec len 4); cbn [orb]; [by apply defined_some|].
  destruct (Z.eqb_spec (len mod 4) 0); cbn [negb]; [|by apply defined_some].
  eapply defined_bind; [apply (at_ptr_defined code (f, off) len); [done|lia]|]. intros b [Hb _]. cbv beta zeta.
  assert (H0 : is_u32 0) by done.
  assert (H1 : forall b, u8b b -> is_u32 (if ParseIp b >? 0 then ntohl (ParseIp b) else 0)).
  { intros b' _. destruct (_ >? 0); [apply htonl_range|done]. }
  rewrite Z.gtb_ltb. destruct (Z.ltb_spec 4 len); [|apply defined_some; by split; [apply H1|]].
  eapply defined_bind; [apply (at_ptr_next code f off len 4 4 Hg); Z.to_euclidean_division_equations; lia|].
  intros b' [Hb' _]. apply defined_some. split; by apply H1.
Qed.

Lemma GetDhcpOptionString_defined code : defined (GetDhcpOptionString packet code) (fun _ => True).
Proof using Hp.
  unfold GetDhcpOptionString. eapply defined_bind; [apply GetDhcpOption_defined|]. intros [[p|] len] Hg;
    [|by apply defined_some]. eapply defined_bind; [apply (at_ptr_defined code p len); [done|by right]|].
  intros b _. destruct (_ =? 0); [by apply defined_some|]. destruct (Z.ltb_spec len DHCP_UINT8_BYTES); [by apply defined_some|].
  eapply defined_bind; [apply (at_ptr_defined code p len); [done|unfold DHCP_UINT8_BYTES in *; lia]|].
  intros ? _. by apply defined_some.
Qed.
End Lookups.

(** * Parsing fills a result *)

(** The strings of a result fit their arrays, and the numbers their types. *)
Definition texts (r : DhcpIpResult) : list bytes :=
  [strYiaddr r; strOptServerId r; strOptSubnet r; strOptDns1 r; strOptDns2 r; strOptRouter1 r; strOptRouter2 r].
Record wf_result (r : DhcpIpResult) : Prop := {
  wf_texts : Forall (fun t => Z.of_nat (length t) < INET_ADDRSTRLEN) (texts r);
  wf_vendor : Z.of_nat (length (strOptVendor r)) < DHCP_FILE_MAX_BYTES;
  wf_lease : is_u32 (uOptLeasetime r);
  wf_added : is_u32 (uAddTime r)
}.

Lemma length_c_str s : (length (c_str s) <= length s)%nat.
Proof. induction s as [|c s IH]; [done|]. cbn [c_str]. destruct (c =? 0); cbn [length]; lia. Qed.

Lemma strncpy_s_fits n s : 0 < n -> Z.of_nat (length (strncpy_s n s)) < n.
Proof. intros Hn. unfold strncpy_s. rewrite length_take. lia. Qed.

Ltac result_fields :=
  cbn [texts set_code set_ifname set_uAddTime set_uOptLeasetime set_strYiaddr set_strOptServerId set_strOptSubnet
       set_strOptDns1 set_strOptDns2 set_strOptRouter1 set_strOptRouter2 set_strOptVendor set_dnsAddr
       strYiaddr strOptServerId strOptSubnet strOptDns1 strOptDns2 strOptRouter1 strOptRouter2 strOptVendor
       uOptLeasetime uAddTime].
Ltac text_fits := first [done | by apply strncpy_s_fits | by apply Z.ltb_lt; vm_compute].
Ltac result_wf :=
  match goal with H : wf_result _ |- _ => destruct H as [? ? ? ?] end;
  repeat match goal with H : Forall _ (texts _) |- _ => unfold texts in H; rewrite !Forall_cons, Forall_nil in H; destruct_and! end;
  split; result_fields; [unfold texts; result_fields; rewrite !Forall_cons, Forall_nil; split_and!; text_fits|text_fits|done|done].

Section Results.
Context {IT : InetText} {LT : InetTextLaws IT}.
Context (packet : DhcpPacket) (Hw : wf_dhcp packet).

Lemma defined_packet : wf_fields packet.
Proof using Hw. by apply wf_dhcp_fields. Qed.

Lemma ParseNetworkServerIdInfo_defined ip r : is_u32 ip -> wf_result r ->
  defined (ParseNetworkServerIdInfo packet ip r) (fun '(ip, r) => is_u32 ip /\ wf_result r).
Proof using Hw.
  intros Hip Hr. unfold ParseNetworkServerIdInfo.
  eapply defined_bind; [apply GetDhcpOptionUint32_defined; [apply defined_packet|done]|]. intros [ok v] Hv.
  destruct ok; cbn [negb]; apply defined_some; [|done]. split; [apply htonl_range|]. destruct (negb _); [result_wf|done].
Qed.

Lemma SetDefaultNetMask_wf r : wf_result r -> wf_result (SetDefaultNetMask r).
Proof.
  intros Hr. unfold SetDefaultNetMask. destruct (_ && _); [|done]. repeat (destruct (_ <? _); [result_wf|]). result_wf.
Qed.

Lemma ParseNetworkInfo_defined ip r : wf_result r -> defined (ParseNetworkInfo packet ip r) wf_result.
Proof using Hw.
  intros Hr. unfold ParseNetworkInfo. cbv zeta.
  assert (H1 : wf_result (if negb (bool_decide (Ip4IntConvertToStr ip false = []))
    then set_strYiaddr (strncpy_s INET_ADDRSTRLEN (Ip4IntConvertToStr ip false)) r else r)).
  { destruct (negb _); [result_wf|done]. }
  clear Hr. match goal with H : wf_result ?x |- _ => remember x as r1 end.
  eapply defined_bind; [apply GetDhcpOptionUint32_defined; [apply defined_packet|done]|]. intros [ok v] _.
  assert (H2 : wf_result (if ok && negb (bool_decide (Ip4IntConvertToStr v true = []))
    then set_strOptSubnet (strncpy_s INET_ADDRSTRLEN (Ip4IntConvertToStr v true)) r1 else SetDefaultNetMask r1)).
  { destruct (_ && _); [result_wf|by apply SetDefaultNetMask_wf]. }
  clear Heqr1 H1. match goal with H : wf_result ?x |- _ => remember x as r2 end. clear Heqr2.
  eapply defined_bind; [apply GetDhcpOptionUint32n_defined; apply defined_packet|]. intros [[ok2 d1] d2] _.
  destruct ok2; cbn [negb]; apply defined_some; [|done].
  assert (H3 : wf_result (if negb (bool_decide (Ip4IntConvertToStr d1 true = []))
    then set_strOptRouter1 (strncpy_s INET_ADDRSTRLEN (Ip4IntConvertToStr d1 true)) r2 else r2)).
  { destruct (negb _); [result_wf|done]. }
  match goal with H : wf_result (if ?c then ?a else ?b) |- _ => remember (if c then a else b) as r3 end. clear Heqr3.
  destruct (_ && _); [result_wf|done].
Qed.

Lemma ParseNetworkDnsValue_wf r v n : wf_result r -> wf_result (ParseNetworkDnsValue r v n).1.
Proof.
  intros Hr. unfold ParseNetworkDnsValue. cbv zeta. destruct (negb _); [|done]. cbn [fst].
  destruct (_ =? DHCP_DNS_FIRST); [result_wf|]. destruct (_ =? DHCP_DNS_SECOND); result_wf.
Qed.

Lemma ParseNetworkDnsInfo_loop_defined code f off len n : good_result packet code (Some (f, off), len) -> forall k r count,
  0 <= k -> k + 4 * Z.of_nat n <= len -> wf_result r ->
  defined (ParseNetworkDnsInfo_loop n packet (f, off + k) r count) wf_result.
Proof using Hw.
  intros Hg. induction n as [|n IH]; intros k r count Hk Hl Hr; cbn [ParseNetworkDnsInfo_loop]; [by apply defined_some|].
  eapply defined_bind; [apply (at_ptr_next packet defined_packet code f off len 4 k); [done|lia..]|].
  intros b _. cbv zeta. cbn [fst snd]. unfold DHCP_UINT32_BYTES. rewrite <- Z.add_assoc.
  destruct (ParseIp b >? 0).
  - destruct (ParseNetworkDnsValue r (ParseIp b) count) as [r' c'] eqn:E. apply IH; [lia..|].
    pose proof (ParseNetworkDnsValue_wf r (ParseIp b) count Hr) as H. by rewrite E in H.
  - apply IH; [lia..|done].
Qed.

Lemma ParseNetworkDnsInfo_defined r : wf_result r -> defined (ParseNetworkDnsInfo packet r) wf_result.
Proof using Hw.
  intros Hr. unfold ParseNetworkDnsInfo.
  assert (Hd : wf_result (SetIpv4DefaultDns r)) by (unfold SetIpv4DefaultDns; result_wf).
  eapply defined_bind; [apply GetDhcpOption_defined, defined_packet|]. intros [[[f off]|] len] Hg; [|by apply defined_some].
  unfold DHCP_UINT32_BYTES. destruct (Z.ltb_spec len 4); cbn [orb]; [by apply defined_some|].
  destruct (Z.eqb_spec (len mod 4) 0); cbn [negb]; [|by apply defined_some].
  rewrite <- (Z.add_0_r off). eapply (ParseNetworkDnsInfo_loop_defined _ f off len); [done|done| |done].
  rewrite Z2Nat.id by (apply Z.div_pos; lia). Z.to_euclidean_division_equations; lia.
Qed.

Lemma ParseNetworkVendorInfo_defined r : wf_result r -> defined (ParseNetworkVendorInfo packet r) wf_result.
Proof using Hw.
  intros Hr. unfold ParseNetworkVendorInfo. eapply defined_bind; [apply GetDhcpOptionString_defined, defined_packet|].
  intros [v|] _; apply defined_some; [result_wf|]. unfold GetDHCPServerHostName. destruct (_ =? 0); [done|].
  assert (Z.of_nat (length (str "hostname:" ++ c_str (take 64 (c_sname packet)))) < DHCP_FILE_MAX_BYTES); [|result_wf].
  rewrite length_app. pose proof (length_c_str (take 64 (c_sname packet))) as H. rewrite length_take in H.
  change (length (str "hostname:")) with 9%nat. unfold DHCP_FILE_MAX_BYTES. lia.
Qed.

Lemma lease_of_defined : defined (lease_of packet) is_u32.
Proof using Hw.
  unfold lease_of. eapply defined_bind; [apply GetDhcpOptionUint32_defined; [apply defined_packet|done]|].
  intros [[] v] Hv; apply defined_some; done.
Qed.
End Results.

Lemma FormatString_wf r : wf_result r -> wf_result (FormatString r).
Proof.
  assert (H : forall s n, 1 < n -> Z.of_nat (length s) < n -> Z.of_nat (length (or_star s)) < n).
  { intros s n Hn Hs. unfold or_star. by destruct (bool_decide (s = [])). }
  intros Hr. unfold FormatString. 
  match goal with H : wf_result _ |- _ => destruct H as [Ht ? ? ?] end. unfold texts in Ht.
  rewrite !Forall_cons, Forall_nil in Ht. destruct_and!.
  split; result_fields; [unfold texts; result_fields; rewrite !Forall_cons, Forall_nil; split_and!; try done; by apply H
    |by apply H|done|done].
Qed.

(** * The invariant *)

Definition is_state (z : Z) : Prop := 0 <= z <= DHCP_STATE_DECLINE.
Definition is_mode (z : Z) : Prop := 0 <= z <= SOCKET_MODE_KERNEL.
Definition is_thread (z : Z) : Prop := 0 <= z <= IPV4_TASK_STOP_REQUESTED.
Definition is_action (z : Z) : Prop := 0 <= z <= 5.
Definition is_resend (z : Z) : Prop := 0 <= z <= MAX_TIMEOUT_SEC.
(** A reading of a clock, and a point of time computed from it. *)
Definition is_time (z : Z) : Prop := -1 <= z < 2 ^ 62.
Definition is_stamp (z : Z) : Prop := -1 <= z < 2 ^ 63.

Definition is_mac (m : bytes) : Prop := length m = 6%nat /\ Forall is_u8 m.
Record wf_cfg (c : DhcpClientCfg) : Prop := {
  cfg_mac : is_mac (ifaceMac c);
  cfg_name : Z.of_nat (length (ifaceName c)) < INFNAME_SIZE
}.
Definition wf_cached (i : IpInfoCached) : Prop := wf_result (ipResult i).

(** An uninitialised structure: its strings are taken to end inside their
    arrays. *)
Class JunkLaws (E : Environment) := {
  junk_result_fits : forall n, wf_result (junk_result n);
  junk_item_fits : forall n, wf_cached (junk_item n)
}.

(** The six messages of a client. *)
Inductive client_message `{Environment} (mac : bytes) : DhcpPacket -> Prop :=
| is_discover xid secs : is_u32 xid -> is_u16 secs ->
    client_message mac (message mac xid secs 0 (discover_options mac))
| is_request xid secs reqip servip : is_u32 xid -> is_u16 secs -> is_u32 reqip -> is_u32 servip ->
    client_message mac (message mac xid secs 0 (request_options mac reqip servip))
| is_reboot xid secs reqip : is_u32 xid -> is_u16 secs -> is_u32 reqip ->
    client_message mac (message mac xid secs 0 (reboot_options mac reqip))
| is_renew xid secs ip : is_u32 xid -> is_u16 secs -> is_u32 ip ->
    client_message mac (message mac xid secs ip (renew_options mac))
| is_release xid ip servip : is_u32 xid -> is_u32 ip -> is_u32 servip ->
    client_message mac (message mac xid 0 0 (release_options mac ip servip))
| is_decline xid ip servip : is_u32 xid -> is_u32 ip -> is_u32 servip ->
    client_message mac (message mac xid 0 0 (decline_options mac ip servip)).

Definition wf_publication (p : publication) : Prop :=
  match p with
  | DhcpIpv4ResultSuccess r | DhcpOfferResultSuccess r | DhcpIpv4ResultFail r => wf_result r
  | _ => True
  end.
Definition wf_action `{Environment} (a : action) : Prop :=
  match a with
  | Sent p srcIp destIp _ => (exists mac, is_mac mac /\ client_message mac p) /\ is_u32 srcIp /\ is_u32 destIp
  | Published p => wf_publication p
  | TimerStarted _ interval => 0 <= interval < 2 ^ 32 * USECOND_CONVERT
  | Slept seconds => 0 < seconds <= MAX_TIMEOUT_SEC
  | _ => True
  end.

Record typed `{Environment} (s : Client) : Prop := {
  t_state : is_state (m_dhcp4State s);
  t_resend : is_resend (m_resendTimer s);
  t_sent : is_u32 (m_sentPacketNum s);
  t_timeout : is_stamp (m_timeoutTimestamp s);
  t_renewed : is_stamp (m_renewalTimestamp s);
  t_renewed_boot : is_time (m_renewalTimestampBoot s);
  t_lease : is_u32 (m_leaseTime s);
  t_renewal : is_u32 (m_renewalSec s);
  t_rebind : is_u32 (m_rebindSec s);
  t_requested : is_u32 (m_requestedIp4 s);
  t_server : is_u32 (m_serverIp4 s);
  t_mode : is_mode (m_socketMode s);
  t_xid : is_u32 (m_transID s);
  t_cfg : wf_cfg (m_cltCnf s);
  t_thread : is_thread (threadState_ s);
  t_action : is_action (m_action s);
  t_out : 0 <= timeOut_ s < 2 ^ 32 * USECOND_CONVERT;
  t_conflicts : is_u32 (m_conflictCount s);
  t_result : wf_result (m_dhcpIpResult s);
  t_first : is_time (firstSendPacketTime_ s);
  t_store : Forall wf_cached (m_allIpCached (store s));
  t_trace : Forall wf_action (trace s)
}.
#[export] Hint Resolve t_state t_resend t_sent t_timeout t_renewed t_renewed_boot t_lease t_renewal t_rebind
  t_requested t_server t_mode t_xid t_cfg t_thread t_action t_out t_conflicts t_result t_first t_store t_trace : safe.
#[export] Hint Resolve u32_range : safe.
#[export] Hint Extern 3 (0 <= _ < 2 ^ 32 * USECOND_CONVERT) => by split : safe.
#[export] Hint Extern 1 (wf_action _) => done : safe.
#[export] Hint Extern 1 (is_state _) => by split : safe.
#[export] Hint Extern 1 (is_mode _) => by split : safe.
#[export] Hint Extern 1 (is_thread _) => by split : safe.
#[export] Hint Extern 1 (is_action _) => by split : safe.
#[export] Hint Extern 1 (is_resend _) => by split : safe.
#[export] Hint Extern 2 (is_u32 _) => by split : safe.
#[export] Hint Extern 2 (is_stamp _) => by split : safe.
#[export] Hint Extern 2 (is_time _) => by split : safe.

Ltac typed_tac := intros Hv []; split; cbn; assumption.
Ltac typed_free := intros []; split; cbn; assumption.

Section Setters.
Context {EN : Environment}.
Implicit Types s : Client.

Lemma typed_state v s : is_state v -> typed s -> typed (set_m_dhcp4State v s). Proof. typed_tac. Qed.
Lemma typed_resend v s : is_resend v -> typed s -> typed (set_m_resendTimer v s). Proof. typed_tac. Qed.
Lemma typed_sent v s : is_u32 v -> typed s -> typed (set_m_sentPacketNum v s). Proof. typed_tac. Qed.
Lemma typed_timeout v s : is_stamp v -> typed s -> typed (set_m_timeoutTimestamp v s). Proof. typed_tac. Qed.
Lemma typed_renewed v s : is_stamp v -> typed s -> typed (set_m_renewalTimestamp v s). Proof. typed_tac. Qed.
Lemma typed_renewed_boot v s : is_time v -> typed s -> typed (set_m_renewalTimestampBoot v s). Proof. typed_tac. Qed.
Lemma typed_lease v s : is_u32 v -> typed s -> typed (set_m_leaseTime v s). Proof. typed_tac. Qed.
Lemma typed_renewal v s : is_u32 v -> typed s -> typed (set_m_renewalSec v s). Proof. typed_tac. Qed.
Lemma typed_rebind v s : is_u32 v -> typed s -> typed (set_m_rebindSec v s). Proof. typed_tac. Qed.
Lemma typed_requested v s : is_u32 v -> typed s -> typed (set_m_requestedIp4 v s). Proof. typed_tac. Qed.
Lemma typed_server v s : is_u32 v -> typed s -> typed (set_m_serverIp4 v s). Proof. typed_tac. Qed.
Lemma typed_mode v s : is_mode v -> typed s -> typed (set_m_socketMode v s). Proof. typed_tac. Qed.
Lemma typed_xid v s : is_u32 v -> typed s -> typed (set_m_transID v s). Proof. typed_tac. Qed.
Lemma typed_cfg v s : wf_cfg v -> typed s -> typed (set_m_cltCnf v s). Proof. typed_tac. Qed.
Lemma typed_thread v s : is_thread v -> typed s -> typed (set_threadState_ v s). Proof. typed_tac. Qed.
Lemma typed_ifname v s : typed s -> typed (set_m_ifName v s). Proof. typed_free. Qed.
Lemma typed_action v s : is_action v -> typed s -> typed (set_m_action v s). Proof. typed_tac. Qed.
Lemma typed_timerId v s : typed s -> typed (set_timerId v s). Proof. typed_free. Qed.
Lemma typed_taskId v s : typed s -> typed (set_m_slowArpTaskId v s). Proof. typed_free. Qed.
Lemma typed_target v s : typed s -> typed (set_m_arpDectionTargetIp v s). Proof. typed_free. Qed.
Lemma typed_router v s : typed s -> typed (set_m_routerCfg v s). Proof. typed_free. Qed.
Lemma typed_conflicts v s : is_u32 v -> typed s -> typed (set_m_conflictCount v s). Proof. typed_tac. Qed.
Lemma typed_result v s : wf_result v -> typed s -> typed (set_m_dhcpIpResult v s). Proof. typed_tac. Qed.
Lemma typed_detecting v s : typed s -> typed (set_m_slowArpDetecting v s). Proof. typed_free. Qed.
Lemma typed_first v s : is_time v -> typed s -> typed (set_firstSendPacketTime_ v s). Proof. typed_tac. Qed.
Lemma typed_task v s : typed s -> typed (set_task v s). Proof. typed_free. Qed.
Lemma typed_store v s : Forall wf_cached (m_allIpCached v) -> typed s -> typed (set_store v s). Proof. typed_tac. Qed.
Lemma typed_kernel v s : typed s -> typed (set_kernel v s). Proof. typed_free. Qed.
Lemma typed_ticks v s : typed s -> typed (set_ticks v s). Proof. typed_free. Qed.
Lemma typed_trace v s : Forall wf_action v -> typed s -> typed (set_trace v s). Proof. typed_tac. Qed.
End Setters.
#[export] Hint Resolve typed_state typed_resend typed_sent typed_timeout typed_renewed typed_renewed_boot typed_lease
  typed_renewal typed_rebind typed_requested typed_server typed_mode typed_xid typed_cfg typed_thread typed_ifname
  typed_action typed_timerId typed_taskId typed_target typed_router typed_conflicts typed_result typed_detecting
  typed_first typed_task typed_store typed_kernel typed_ticks typed_trace : safe.

(** * The store keeps results that fit *)

Section Stored.
Context {SO : StdSort} {SL : StdSortLaws SO} {SF : StoreFiles}.

Lemma strcpy_s_fits s : Z.of_nat (length (strcpy_s s).2) < INET_ADDRSTRLEN.
Proof. unfold strcpy_s. destruct (Z.ltb_spec (Z.of_nat (length s)) INET_ADDRSTRLEN); [done|]. by vm_compute. Qed.

Lemma SetClassKeyValue_wf item key value : wf_cached item -> wf_cached (SetClassKeyValue item key value).1.
Proof.
  intros H. unfold SetClassKeyValue. cbv zeta. unfold wf_cached in *.
  pose proof (strcpy_s_fits value) as Hv. destruct (strcpy_s value) as [ok text]. cbn [snd] in Hv.
  repeat (destruct (key_is key _); [cbn [fst set_ipResult set_bssid set_ssid set_absoluteLeasetime ipResult]; try done; try by result_wf|]).
  all: try done. all: destruct H as [Ht Hvd Hl Ha]; split; [exact Ht|exact Hvd|apply u32_range|exact Ha].
Qed.

Lemma ClearClass_wf item : wf_cached item -> wf_cached (ClearClass item).
Proof. intros [Ht Hvd Hl Ha]. by split. Qed.

Lemma ReadNetworkSection_loop_wf fuel : forall item e file r, wf_cached item ->
  ReadNetworkSection_loop fuel item e file = Some r -> wf_cached r.1.1.
Proof.
  induction fuel as [|fuel IH]; intros item e file r Hi E; [done|]. cbn [ReadNetworkSection_loop] in E.
  destruct file as [|c file]; [by simplify_eq|]. destruct (next_line (c :: file)) as [line rest].
  destruct (bool_decide _); [by eapply IH|]. destruct (bracketed _ _ _); [by simplify_eq|].
  destruct (find_eq line) as [[k v]|]; [|by eapply IH].
  pose proof (SetClassKeyValue_wf item (TrimString k) (TrimString v) Hi) as H.
  destruct (SetClassKeyValue _ _ _) as [i' e']. by eapply IH.
Qed.

Lemma ReadNetwork_loop_wf fuel : forall item e file r, wf_cached item ->
  ReadNetwork_loop fuel item e file = Some r -> wf_cached r.1.1.
Proof.
  induction fuel as [|fuel IH]; intros item e file r Hi E; [done|]. cbn [ReadNetwork_loop] in E.
  destruct file as [|c file]; [by simplify_eq|]. destruct (next_line (c :: file)) as [line rest].
  destruct (bool_decide _); [by eapply IH|]. destruct (bracketed _ _ _).
  - destruct (ReadNetworkSection item rest) as [[[i' e'] file']|] eqn:Es; [|done].
    apply ReadNetworkSection_loop_wf in Es; [|done]. rewrite bind_some in E. by eapply IH.
  - destruct (bool_decide _); [by simplify_eq|by eapply IH].
Qed.

Lemma LoadAllIpCached_loop_wf fuel : forall item cached file r, wf_cached item -> Forall wf_cached cached ->
  LoadAllIpCached_loop fuel item cached file = Some r -> Forall wf_cached r.
Proof.
  induction fuel as [|fuel IH]; intros item cached file r Hi Hc E; [done|]. cbn [LoadAllIpCached_loop] in E.
  destruct file as [|c file]; [by simplify_eq|]. destruct (next_line (c :: file)) as [line rest].
  destruct (bool_decide _); [by eapply IH|]. destruct (bracketed _ _ _); [|by eapply IH].
  destruct (ReadNetwork (ClearClass item) rest) as [[[i' e'] file']|] eqn:Es; [|done].
  apply ReadNetwork_loop_wf in Es; [|by apply ClearClass_wf]. rewrite bind_some in E. cbn [fst] in Es.
  destruct (e' >? 0); (eapply IH; [| |exact E]); try done. apply Forall_app. split; [done|by apply Forall_singleton].
Qed.

Lemma EnforceMaxCache_wf now l : Forall wf_cached l -> Forall wf_cached (EnforceMaxCache now l).
Proof.
  intros H. unfold EnforceMaxCache. destruct (now =? -1); [done|].
  assert (Hf : Forall wf_cached (filter (fun x => expired now x = false) l)).
  { apply Forall_forall. intros x Hx. apply list_elem_of_filter in Hx as [_ Hx]. by eapply Forall_forall in H. }
  cbv zeta. destruct (_ <=? MAX_DHCP_CACHE); [done|]. apply Forall_drop. by rewrite std_sort_perm.
Qed.

(** Loading always ends. *)
Lemma GetCachedIp_defined item0 now target st : wf_cached item0 -> Forall wf_cached (m_allIpCached st) ->
  defined (GetCachedIp item0 now target st)
    (fun '(_, found, st) => (forall i, found = Some i -> wf_cached i) /\ Forall wf_cached (m_allIpCached st)).
Proof.
  intros Hi Hc. unfold GetCachedIp.
  assert (Hfind : forall l i, Forall wf_cached l -> find_bssid target l = Some i -> wf_cached i).
  { induction l as [|x l IH]; intros i Hl E; [done|]. cbn in E. apply Forall_cons in Hl as [Hx Hl].
    destruct (bool_decide _); [by simplify_eq|by apply IH]. }
  eapply (defined_bind _ _ (fun r => Forall wf_cached (m_allIpCached r.2))).
  2:{ intros [r st'] Hst. cbn [snd] in Hst. destruct (find_bssid target (m_allIpCached st')) as [i|] eqn:E; apply defined_some; [|by split].
      split; [|done]. intros i' [= <-]. by apply (Hfind (m_allIpCached st')). }
  unfold LoadAllIpCached. cbv zeta. cbn [m_fileName m_allIpCached files].
  destruct (bool_decide _); [by apply defined_some|]. destruct (store_realpath _) as [p|]; [|by apply defined_some].
  destruct (files st !! p) as [content|]; [|by apply defined_some].
  destruct (LoadAllIpCached_loop_ends (S (length content)) item0 [] content ltac:(lia)) as [cached E].
  exists (0, mkStore (EnforceMaxCache now cached) DHCP_CACHE_FILE (files st)). rewrite E. split; [done|].
  cbn [snd m_allIpCached]. apply EnforceMaxCache_wf.
  eapply LoadAllIpCached_loop_wf; [exact Hi|by apply Forall_nil|exact E].
Qed.

Lemma SaveIpInfoInLocalFile_store now info st : wf_cached info -> Forall wf_cached (m_allIpCached st) ->
  Forall wf_cached (m_allIpCached (ResultStore.SaveIpInfoInLocalFile now info st).2).
Proof.
  intros Hi Hc. unfold ResultStore.SaveIpInfoInLocalFile, SaveConfig. cbv zeta. cbn [m_fileName].
  assert (He : forall l, Forall wf_cached l -> Forall wf_cached (erase_bssid (bssid info) l)).
  { induction 1 as [|x l Hx Hl IH]; [done|]. cbn. destruct (bool_decide _); [done|by apply Forall_cons]. }
  assert (Forall wf_cached (EnforceMaxCache now (erase_bssid (bssid info) (m_allIpCached st) ++ [info]))).
  { apply EnforceMaxCache_wf, Forall_app. split; [by apply He|by apply Forall_singleton]. }
  destruct (negb _); [done|]. by destruct (negb _).
Qed.
End Stored.

(** * The client's functions *)

Section Functions.
Context {IT : InetText} {LT : InetTextLaws IT} {IP : InetPton} {LP : InetPtonLaws IT IP} {SO : StdSort} {SL : StdSortLaws SO}
  {SF : StoreFiles} {EN : Environment} {LE : EnvironmentLaws EN} {JL : JunkLaws EN}.

Abbreviation keeps m := (safe typed m (fun _ => True)).

(** ** The surroundings *)

Lemma query_safe {A} (f : nat -> A) (R : A -> Prop) : (forall n, R (f n)) -> safe typed (query f) R.
Proof. intros H. unfold query. safe_steps; eauto with safe. Qed.

Lemma query_time : safe typed (query time_) is_time.
Proof. apply query_safe. exact time_range. Qed.
Lemma query_boot : safe typed (query boot_seconds) is_time.
Proof. apply query_safe. intros n. pose proof (boot_range n). unfold is_time. lia. Qed.
Lemma query_random : safe typed (query random_) is_u32.
Proof. apply query_safe. exact random_range. Qed.
Lemma query_junk_byte : safe typed (query junk_byte) is_u8.
Proof. apply query_safe. exact junk_u8. Qed.
Lemma query_junk_result : safe typed (query junk_result) wf_result.
Proof. apply query_safe. exact junk_result_fits. Qed.
Lemma query_junk_item : safe typed (query junk_item) wf_cached.
Proof. apply query_safe. exact junk_item_fits. Qed.
Lemma query_answer : safe typed (query interface_answer) (fun a => is_mac (ifr_hwaddr a)).
Proof. apply query_safe. exact answer_mac. Qed.
Lemma query_any {A} (f : nat -> A) : safe typed (query f) (fun _ => True).
Proof. by apply query_safe. Qed.
Hint Resolve query_time query_boot query_random query_junk_byte query_junk_result query_junk_item query_answer : safe.
Hint Resolve query_any | 10 : safe.

Lemma act_safe a : wf_action a -> keeps (act a).
Proof.
  intros Ha. unfold act. safe_steps; [done|]. intros s Hs. apply typed_trace; [|done].
  apply Forall_app. split; [by apply t_trace|by apply Forall_singleton].
Qed.
Hint Resolve act_safe : safe.

Lemma lift_kernel_safe {A} (m : M Kernel A) (R : A -> Prop) : safe anyk m R -> safe typed (lift_kernel m) R.
Proof.
  intros H s Hs. pose proof (H (kernel s) I) as Hm. unfold wp, lift_kernel in *.
  destruct (m (kernel s)) as [[a k]|]; [|done]. destruct Hm as [Ha _]. split; [done|by apply typed_kernel].
Qed.

Lemma from_option_safe {A} (o : option A) (R : A -> Prop) : defined o R -> safe typed (from_option o) R.
Proof. apply safe_from_option. Qed.

(** ** Sending *)

Lemma client_message_wf mac p : is_mac mac -> client_message mac p -> wf_dhcp p /\ is_Some (GetEndOptionIndex (c_options p)).
Proof using LE.
  intros [Hm Hu] Hp. split.
  - destruct Hp; (apply message_wf; try done; [options_wf; done|options_u8; done|options_room]).
  - destruct Hp; cbn [c_options message]; eexists; (apply image_end; [|options_wf; done]);
      (apply (Nat.lt_trans _ 1700); [options_room|apply Nat.ltb_lt; reflexivity]).
Qed.

Lemma send_raw_safe p mac : is_mac mac -> client_message mac p -> keeps (send_raw p).
Proof using LE.
  intros Hm Hp. destruct (client_message_wf mac p Hm Hp) as [Hwf Hend]. unfold send_raw. safe_step.
  eapply safe_bind; [apply act_safe; split; [by exists mac|by split]|]. intros _ _.
  by apply lift_kernel_safe, SendToDhcpPacket_safe.
Qed.

Lemma send_kernel_safe p mac srcIp destIp : is_mac mac -> client_message mac p -> is_u32 srcIp -> is_u32 destIp ->
  keeps (send_kernel p srcIp destIp).
Proof using LE.
  intros Hm Hp Hs Hd. destruct (client_message_wf mac p Hm Hp) as [Hwf Hend]. unfold send_kernel.
  eapply safe_bind; [apply act_safe; split; [by exists mac|by split]|]. intros _ _.
  by apply lift_kernel_safe, SendDhcpPacket_safe.
Qed.

Lemma elapsed_typed s : typed s -> typed (elapsed s).
Proof using LE.
  intros Hs. unfold elapsed. cbv zeta. destruct (_ =? 0); [|by apply typed_ticks].
  apply typed_first; [|by apply typed_ticks]. pose proof (boot_range (ticks s)). unfold is_time. lia.
Qed.

Lemma secs_u16 s : is_u16 (secs_of s).
Proof. apply htons_u16. Qed.

Lemma state_mac s : typed s -> is_mac (ifaceMac (m_cltCnf s)).
Proof. intros Hs. apply cfg_mac, t_cfg, Hs. Qed.

Lemma wp_run_eq {A} (m m' : M Client A) Q s s' : m s = m' s' -> wp m' Q s' -> wp m Q s.
Proof. unfold wp. by intros ->. Qed.

Lemma DhcpDiscover_safe xid ip : is_u32 xid -> keeps (DhcpDiscover xid ip).
Proof using LE.
  intros Hx s Hs. pose proof (state_mac s Hs) as Hm. eapply wp_run_eq; [apply DhcpDiscover_sends, Hm|].
  eapply send_raw_safe; [apply Hm| |by apply elapsed_typed]. apply is_discover; [done|apply secs_u16].
Qed.
Lemma DhcpRequest_safe xid reqip servip : is_u32 xid -> is_u32 reqip -> is_u32 servip -> keeps (DhcpRequest xid reqip servip).
Proof using LE.
  intros Hx Hr Hv s Hs. pose proof (state_mac s Hs) as Hm. eapply wp_run_eq; [apply DhcpRequest_sends, Hm|].
  eapply send_raw_safe; [apply Hm| |by apply elapsed_typed]. apply is_request; try done. apply secs_u16.
Qed.
Lemma DhcpReboot_safe xid reqip : is_u32 xid -> is_u32 reqip -> keeps (DhcpReboot xid reqip).
Proof using LE.
  intros Hx Hr s Hs. pose proof (state_mac s Hs) as Hm. eapply wp_run_eq; [apply DhcpReboot_sends, Hm|].
  eapply send_raw_safe; [apply Hm| |by apply elapsed_typed]. apply is_reboot; try done. apply secs_u16.
Qed.
Lemma DhcpRenew_safe xid clientip serverip : is_u32 xid -> is_u32 clientip -> is_u32 serverip ->
  keeps (DhcpRenew xid clientip serverip).
Proof using LE.
  intros Hx Hc Hv s Hs. pose proof (state_mac s Hs) as Hm. pose proof (DhcpRenew_sends xid clientip serverip s (proj1 Hm)) as E.
  cbv zeta in E. assert (client_message (ifaceMac (m_cltCnf s))
    (message (ifaceMac (m_cltCnf s)) xid (secs_of s) clientip (renew_options (ifaceMac (m_cltCnf s))))).
  { apply is_renew; try done. apply secs_u16. }
  destruct (serverip =? 0); (eapply wp_run_eq; [exact E|]).
  - eapply send_raw_safe; [apply Hm|done|by apply elapsed_typed].
  - eapply send_kernel_safe; [apply Hm|done|done|done|by apply elapsed_typed].
Qed.
Lemma DhcpRelease_safe clientip serverip : is_u32 clientip -> is_u32 serverip -> keeps (DhcpRelease clientip serverip).
Proof using LE.
  intros Hc Hv s Hs. pose proof (state_mac s Hs) as Hm. eapply wp_run_eq; [apply DhcpRelease_sends, Hm|].
  eapply send_kernel_safe; [apply Hm| |done|done|by apply typed_ticks]. by apply is_release; try done; apply random_range.
Qed.
Lemma DhcpDecline_safe xid clientip serverip : is_u32 xid -> is_u32 clientip -> is_u32 serverip ->
  keeps (DhcpDecline xid clientip serverip).
Proof using LE.
  intros Hx Hc Hv s Hs. pose proof (state_mac s Hs) as Hm. eapply wp_run_eq; [apply DhcpDecline_sends, Hm|].
  eapply send_raw_safe; [apply Hm| |done]. by apply is_decline.
Qed.
Hint Resolve DhcpDiscover_safe DhcpRequest_safe DhcpReboot_safe DhcpRenew_safe DhcpRelease_safe DhcpDecline_safe : safe.
Lemma GetRandomId_safe : safe typed GetRandomId is_u32.
Proof using LE. apply query_random. Qed.
Hint Resolve GetRandomId_safe : safe.

(** ** Timers and results *)

Ltac client_step := safe_step; cbv beta iota; try solve [done | intros; eauto 6 with safe].
Ltac client := repeat client_step; try solve [done | intros; eauto 6 with safe].

Lemma StopTimer_safe t : keeps (StopTimer t).
Proof using All. unfold StopTimer. client. Qed.
Lemma StartTimer_safe t interval : 0 <= interval < 2 ^ 32 * USECOND_CONVERT -> keeps (StartTimer t interval).
Proof using All.
  intros Hi. unfold StartTimer. client.
Qed.
Hint Resolve StopTimer_safe StartTimer_safe : safe.

Lemma CloseAllRenewTimer_safe : keeps CloseAllRenewTimer.
Proof using All. unfold CloseAllRenewTimer. client. Qed.
Hint Resolve CloseAllRenewTimer_safe : safe.

Lemma ScheduleLeaseTimers_safe b : keeps (ScheduleLeaseTimers b).
Proof using All.
  unfold ScheduleLeaseTimers. eapply (safe_bind _ _ _ is_time); [destruct b; client|]. intros now Hnow.
  client_step. client_step. client_step. cbv zeta. client_step.
  assert (Hl : is_u32 (m_leaseTime s0)) by eauto with safe. unfold is_u32 in Hl.
  remember ((if b then m_renewalTimestamp else m_renewalTimestampBoot) s) as from eqn:Efrom. clear Efrom.
  set (remaining := (if m_leaseTime s0 <? _ then _ else _) * USECOND_CONVERT).
  assert (Hr : 0 <= remaining < 2 ^ 32 * USECOND_CONVERT).
  { unfold remaining, USECOND_CONVERT. destruct (Z.ltb_spec (m_leaseTime s0) (if now <? from then 0 else now - from));
      [lia|]. destruct (Z.ltb_spec now from); lia. }
  assert (R2 : 0 <= RENEWAL_SEC_MULTIPLE_SPECIFIC_NETWORK remaining < 2 ^ 32 * USECOND_CONVERT)
    by (unfold RENEWAL_SEC_MULTIPLE_SPECIFIC_NETWORK; Z.to_euclidean_division_equations; lia).
  assert (R3 : 0 <= RENEWAL_SEC_MULTIPLE remaining < 2 ^ 32 * USECOND_CONVERT)
    by (unfold RENEWAL_SEC_MULTIPLE; Z.to_euclidean_division_equations; lia).
  assert (R4 : 0 <= REBIND_SEC_MULTIPLE remaining < 2 ^ 32 * USECOND_CONVERT)
    by (unfold REBIND_SEC_MULTIPLE; Z.to_euclidean_division_equations; lia).
  clearbody remaining. client.
Qed.

Lemma StopIpv4_safe : keeps StopIpv4.
Proof using All. unfold StopIpv4. client. Qed.
Lemma SetSocketMode_safe mode : is_mode mode -> keeps (SetSocketMode mode).
Proof using All. intros. unfold SetSocketMode. client. Qed.
Hint Resolve ScheduleLeaseTimers_safe StopIpv4_safe SetSocketMode_safe : safe.

Lemma publish_safe r : wf_result r -> keeps (publish r).
Proof using All.
  intros Hr. unfold publish, PublishDhcpIpv4Result. assert (wf_publication (publication_of r)).
  { unfold publication_of, wf_publication. by repeat (destruct (_ =? _); [done|]). }
  cbv zeta. client.
Qed.
Hint Resolve publish_safe : safe.

Lemma PublishDhcpResultEvent_safe name code r : wf_result r ->
  safe typed (PublishDhcpResultEvent name code r) (fun '(_, r) => wf_result r).
Proof using All.
  intros Hr. unfold PublishDhcpResultEvent. client_step. client_step.
  assert (Hr' : wf_result (set_ifname name (set_uAddTime (u32 a) (set_code code r)))).
  { destruct Hr. split; try done. apply u32_range. }
  client.
Qed.
Hint Resolve PublishDhcpResultEvent_safe : safe.

Lemma publish_current_safe code : keeps (publish_current code).
Proof using All.
  unfold publish_current. client_step. client_step.
  eapply safe_bind; [apply PublishDhcpResultEvent_safe; eauto with safe|]. intros [r result] Hr. client.
Qed.
Hint Resolve publish_current_safe : safe.

Lemma GetCachedDhcpResult_safe b : safe typed (GetCachedDhcpResult b) (fun found => forall i, found = Some i -> wf_cached i).
Proof using All.
  unfold GetCachedDhcpResult. client_step. client_step. client_step.
  eapply safe_bind; [apply safe_from_option, GetCachedIp_defined; eauto with safe|].
  intros [[r found] st] [Hf Hst]. client.
Qed.
Hint Resolve GetCachedDhcpResult_safe : safe.

Lemma SaveIpInfoInLocalFile_safe r : wf_result r -> keeps (SaveIpInfoInLocalFile r).
Proof using All.
  intros Hr. unfold SaveIpInfoInLocalFile. client. intros s' Hs'. apply typed_store; [|done].
  apply SaveIpInfoInLocalFile_store; [done|by apply t_store].
Qed.
Hint Resolve SaveIpInfoInLocalFile_safe : safe.

Lemma half_u32 x : is_u32 x -> is_u32 (RENEWAL_SEC_MULTIPLE x).
Proof. unfold is_u32, RENEWAL_SEC_MULTIPLE. intros. Z.to_euclidean_division_equations; lia. Qed.
Lemma seven_eighths_u32 x : is_u32 x -> is_u32 (REBIND_SEC_MULTIPLE x).
Proof. unfold is_u32, REBIND_SEC_MULTIPLE. intros. Z.to_euclidean_division_equations; lia. Qed.
Hint Resolve half_u32 seven_eighths_u32 : safe.

Lemma TryCachedIp_safe : keeps TryCachedIp.
Proof using All.
  unfold TryCachedIp. do 5 client_step.
  destruct a as [i|]; [|client]. assert (Hi : wf_cached i) by auto.
  eapply safe_bind; [apply PublishDhcpResultEvent_safe, Hi|]. intros [r result] Hr. cbv beta iota.
  eapply (safe_bind _ _ _ wf_result).
  { client_step. eapply safe_bind; [apply PublishDhcpResultEvent_safe, Hr|]. intros [? ?] ?. client. }
  intros result' [? ? Hl Ha]. assert (is_stamp (uAddTime result')) by (unfold is_stamp, is_u32 in *; lia). client.
Qed.
Hint Resolve TryCachedIp_safe : safe.

(** ** Replies *)

Lemma parse_result_safe packet r : wf_dhcp packet -> wf_result r -> safe typed (parse_result packet r) wf_result.
Proof using All.
  intros Hp Hr. unfold parse_result. client_step.
  eapply safe_bind; [apply safe_from_option, ParseNetworkServerIdInfo_defined; eauto with safe|]. intros [ip r1] [Hip Hr1].
  client_step. client_step.
  eapply safe_bind; [by apply safe_from_option, ParseNetworkInfo_defined|]. intros r2 Hr2.
  eapply safe_bind; [by apply safe_from_option, ParseNetworkDnsInfo_defined|]. intros r3 Hr3.
  by apply safe_from_option, ParseNetworkVendorInfo_defined.
Qed.
Hint Resolve parse_result_safe : safe.

Lemma yiaddr_u32 p : wf_dhcp p -> is_u32 (c_yiaddr p).
Proof. intros [_ _ _ _ _ Hw _]. rewrite !Forall_cons in Hw. tauto. Qed.
Lemma xid_u32 p : wf_dhcp p -> is_u32 (c_xid p).
Proof. intros [_ _ _ _ _ Hw _]. rewrite !Forall_cons in Hw. tauto. Qed.
Lemma time_stamp t : is_time t -> is_stamp t.
Proof. unfold is_time, is_stamp. lia. Qed.
Lemma stamp_plus t d : is_time t -> is_u32 d -> is_stamp (t + d).
Proof. unfold is_time, is_stamp, is_u32. lia. Qed.
Hint Resolve yiaddr_u32 xid_u32 time_stamp stamp_plus htonl_range : safe.

(** ** What is due *)

Lemma timeout_sec_u32 n : is_u32 (timeout_sec n).
Proof. apply u32_range. Qed.
Hint Resolve timeout_sec_u32 : safe.

Lemma count_sent_safe : keeps count_sent.
Proof using All. unfold count_sent. client. Qed.
Hint Resolve count_sent_safe : safe.

Lemma InitSelecting_safe t : is_time t -> keeps (InitSelecting t).
Proof using All. intros. unfold InitSelecting. client. Qed.
Lemma SendReboot_safe ip t : is_u32 ip -> is_time t -> keeps (SendReboot ip t).
Proof using All. intros. unfold SendReboot. client. Qed.
Hint Resolve InitSelecting_safe SendReboot_safe : safe.

Lemma Ip4StrConToInt_u32 o : is_u32 (Ip4StrConToInt o 0 false).2.
Proof using LP.
  unfold Ip4StrConToInt. destruct o as [[|c s]|]; [done| |done]. destruct (inet_pton (c :: s)) as [ip|] eqn:E; [|done].
  by eapply inet_pton_u32.
Qed.

Lemma Reboot_safe t : is_time t -> keeps (Reboot t).
Proof using All.
  intros Ht. unfold Reboot. do 5 client_step. destruct a as [i|]; [|client]. client_step.
  pose proof (Ip4StrConToInt_u32 (Some (strYiaddr (ipResult i)))) as Hip.
  destruct (Ip4StrConToInt _ _ _) as [ok ip]. cbn [snd] in Hip. client.
Qed.
Lemma Requesting_safe t : is_time t -> keeps (Requesting t).
Proof using All.
  intros Ht. unfold Requesting. do 6 client_step. eapply (safe_bind _ _ _ (fun _ => True)); [client|intros _ _; client].
Qed.
Lemma Renewing_safe t : is_time t -> keeps (Renewing t).
Proof using All. intros Ht. unfold Renewing. client. Qed.
Lemma Rebinding_safe t : is_time t -> keeps (Rebinding t).
Proof using All. intros Ht. unfold Rebinding. client. Qed.
Lemma Declining_safe t : is_time t -> keeps (Declining t).
Proof using All. intros Ht. unfold Declining. client. Qed.
Hint Resolve Reboot_safe Requesting_safe Renewing_safe Rebinding_safe Declining_safe : safe.

(** ** Conflicts *)

Lemma mac_of_safe : safe typed mac_of is_mac.
Proof using All. unfold mac_of. client_step. apply safe_ret, cfg_mac. eauto with safe. Qed.
Hint Resolve mac_of_safe : safe.
Lemma IsArpReachable_safe ms ip : keeps (IsArpReachable ms ip).
Proof using All. unfold IsArpReachable. client. Qed.
Lemma IpConflictDetect_safe : keeps IpConflictDetect.
Proof using All. unfold IpConflictDetect. client. Qed.
Hint Resolve IsArpReachable_safe IpConflictDetect_safe : safe.
Lemma FastArpDetect_safe : keeps FastArpDetect.
Proof using All. unfold FastArpDetect. client. Qed.
Lemma enter_bound_safe t : is_time t -> keeps (enter_bound t).
Proof using All. intros Ht. unfold enter_bound. client. Qed.
Hint Resolve FastArpDetect_safe enter_bound_safe : safe.
Lemma SlowArpDetectCallback_safe b : keeps (SlowArpDetectCallback b).
Proof using All.
  unfold SlowArpDetectCallback. client_step. client_step. eapply (safe_bind _ _ _ (fun _ => True)); [|intros; client].
  client_step; client.
Qed.
Lemma SlowArpTimeoutCallback_safe : keeps SlowArpTimeoutCallback.
Proof using All. unfold SlowArpTimeoutCallback. client. Qed.
Lemma stamp_plus_l t d : is_time t -> is_u32 d -> is_stamp (d + t).
Proof. unfold is_time, is_stamp, is_u32. lia. Qed.
Hint Resolve SlowArpDetectCallback_safe SlowArpTimeoutCallback_safe stamp_plus_l : safe.
Lemma SlowArpDetect_safe t : is_time t -> keeps (SlowArpDetect t).
Proof using All.
  intros Ht. unfold SlowArpDetect. client_step. eapply (safe_bind _ _ _ (fun _ => True)); [|intros; client]. client.
Qed.
Lemma slow_arp_task_safe : keeps slow_arp_task.
Proof using All. unfold slow_arp_task. client. Qed.
Hint Resolve SlowArpDetect_safe slow_arp_task_safe : safe.

Lemma DhcpRequestHandle_safe t : is_time t -> keeps (DhcpRequestHandle t).
Proof using All. intros Ht. unfold DhcpRequestHandle. client. Qed.
Hint Resolve DhcpRequestHandle_safe : safe.

(** ** Received packets *)

Ltac keep_texts := match goal with H : context [wf_result] |- _ => destruct H; by split end.

Lemma DhcpOfferPacketHandle_safe type p t : wf_dhcp p -> is_time t -> keeps (DhcpOfferPacketHandle type p t).
Proof using All.
  intros Hp Ht. unfold DhcpOfferPacketHandle. client_step.
  eapply safe_bind; [apply safe_from_option, GetDhcpOptionUint32_defined; [by apply wf_dhcp_fields|done]|].
  intros [ok v] Hv. client.
Qed.

Lemma GetDhcpOffer_safe p : wf_dhcp p -> keeps (GetDhcpOffer p).
Proof using All.
  intros Hp. unfold GetDhcpOffer. client_step. client_step.
  eapply safe_bind; [apply safe_from_option, GetDhcpOptionUint8_defined; [by apply wf_dhcp_fields|done]|].
  intros [ok v] Hv. client_step. client_step.
  eapply safe_bind; [by apply safe_from_option, lease_of_defined|]. intros lease Hl. client_step. client_step.
  assert (wf_result (set_uOptLeasetime lease (set_ifname (ifaceName (m_cltCnf s))
    (set_code PUBLISH_DHCP_OFFER_REPORT (set_dnsAddr [] a))))) by keep_texts.
  client.
Qed.

Lemma ParseDhcpAckPacket_safe p t : wf_dhcp p -> is_time t -> keeps (ParseDhcpAckPacket p t).
Proof using All.
  intros Hp Ht. unfold ParseDhcpAckPacket. client_step. client_step.
  eapply safe_bind; [by apply safe_from_option, lease_of_defined|]. intros lease Hl. do 7 client_step.
  assert (wf_result (set_uOptLeasetime lease (m_dhcpIpResult s))) by (keep_texts || (destruct (t_result s ltac:(done)); by split)).
  client.
Qed.

Lemma ParseDhcpNakPacket_safe t : is_time t -> keeps (ParseDhcpNakPacket t).
Proof using All.
  intros Ht. unfold ParseDhcpNakPacket. do 6 client_step.
  assert (Hr : 0 <= m_resendTimer s <= MAX_TIMEOUT_SEC) by (apply t_resend; done). client_step; [client|].
  assert (wf_action (Slept (m_resendTimer s))) by (cbn; unfold MAX_TIMEOUT_SEC in *; btauto_hyps; lia).
  assert (is_resend (if i32 (m_resendTimer s * DOUBLE_TIME) >? MAX_TIMEOUT_SEC then MAX_TIMEOUT_SEC
    else i32 (m_resendTimer s * DOUBLE_TIME))).
  { unfold is_resend, i32, DOUBLE_TIME, MAX_TIMEOUT_SEC in *. rewrite Z.gtb_ltb, Z.mod_small by lia.
    destruct (Z.ltb_spec 6 (m_resendTimer s * 2 + 2 ^ 31 - 2 ^ 31)); lia. }
  cbv zeta. client.
Qed.
Hint Resolve DhcpOfferPacketHandle_safe GetDhcpOffer_safe ParseDhcpAckPacket_safe ParseDhcpNakPacket_safe : safe.

Lemma zero_result_wf : wf_result zero_result.
Proof. split; [|done..]. unfold texts, zero_result. cbn. repeat constructor. Qed.
Hint Resolve zero_result_wf FormatString_wf : safe.

Lemma SetLocalInterface_client name ip mask : keeps (lift_kernel (SetLocalInterface name ip mask)).
Proof using All. apply lift_kernel_safe, SetLocalInterface_safe. Qed.
Hint Resolve SetLocalInterface_client : safe.

Lemma set_dns_typed d s : typed s -> typed (set_m_dhcpIpResult (set_dnsAddr d (m_dhcpIpResult s)) s).
Proof. intros Hs. apply typed_result; [|done]. by destruct (t_result s Hs). Qed.
Hint Resolve set_dns_typed : safe.

Lemma DhcpAckOrNakPacketHandle_safe type p t : wf_dhcp p -> is_time t -> keeps (DhcpAckOrNakPacketHandle type p t).
Proof using All.
  intros Hp Ht. unfold DhcpAckOrNakPacketHandle. client_step. client_step; [client|].
  do 10 client_step. eapply (safe_bind _ _ _ (fun _ => True)); [client|]. intros found _. client.
Qed.
Hint Resolve DhcpAckOrNakPacketHandle_safe : safe.

Lemma zero_packet_wf : wf_dhcp zero_packet.
Proof. apply (dhcp_of_bytes_wf (zeros 2020)); [by apply Forall_replicate|by rewrite length_zeros]. Qed.

Lemma GetDhcpKernelPacket_wf p received : wf_dhcp p -> (forall d, received = Some d -> u8b d) ->
  wf_dhcp (GetDhcpKernelPacket p received).2.
Proof.
  intros Hp Hd. unfold GetDhcpKernelPacket. destruct received as [d|]; [|done].
  cbn [read_into]. pose proof (length_dhcp_bytes p Hp) as Hl. pose proof (dhcp_bytes_u8 p Hp) as Hu.
  destruct (_ =? -1); [done|]. cbv zeta.
  assert (wf_dhcp (dhcp_of_bytes (take (Z.to_nat sizeof_DhcpPacket) d ++
    drop (length (take (Z.to_nat sizeof_DhcpPacket) d)) (dhcp_bytes p)))).
  { apply dhcp_of_bytes_wf; [apply u8b_app; [by apply Forall_take, Hd|by apply Forall_drop]|].
    rewrite length_app, length_drop, Hl, length_take. unfold sizeof_DhcpPacket. lia. }
  by destruct (negb _).
Qed.

Lemma DhcpResponseDataCheck_safe t received p : wf_dhcp p -> is_time t -> (forall d, received = Some d -> u8b d) ->
  safe typed (DhcpResponseDataCheck t received p) (fun r => match r with Some (_, p) => wf_dhcp p | None => True end).
Proof using All.
  intros Hp Ht Hd. unfold DhcpResponseDataCheck. client_step. eapply (safe_bind _ _ _ (fun x => wf_dhcp x.2)).
  { client_step.
    - client_step. apply safe_from_option.
      destruct (GetDhcpRawPacket_spec a p received Hp H1 Hd) as (r & p' & E & Hp' & _). by exists (r, p').
    - apply safe_ret. by apply GetDhcpKernelPacket_wf. }
  intros [n p'] Hp'. cbn [snd] in Hp'. client_step. client_step; [client|]. client_step. client_step. client_step.
  eapply safe_bind; [apply safe_from_option, GetDhcpOptionUint8_defined; [by apply wf_dhcp_fields|done]|].
  intros [ok v] Hv. apply safe_ret. by destruct ok.
Qed.

Lemma DhcpResponseHandle_safe t received : is_time t -> (forall d, received = Some d -> u8b d) ->
  keeps (DhcpResponseHandle t received).
Proof using All.
  intros Ht Hd. unfold DhcpResponseHandle. eapply safe_bind; [apply DhcpResponseDataCheck_safe; [apply zero_packet_wf|done..]|].
  intros [[m p]|] Hp; client.
Qed.

(** ** The task and the calls *)

Lemma InitSpecifiedClientCfg_safe name v6 : keeps (InitSpecifiedClientCfg name v6).
Proof using All.
  assert (Hn : forall n dir s, typed s -> Z.of_nat (length n) < INFNAME_SIZE ->
    typed (set_m_cltCnf (set_names n dir (m_cltCnf s)) s)).
  { intros n dir s Hs Hl. apply typed_cfg; [|done]. destruct (t_cfg s Hs). by split. }
  unfold InitSpecifiedClientCfg. client_step; btauto_hyps.
  - client. intros; by apply Hn.
  - do 4 client_step. assert (Hc : wf_cfg (m_cltCnf s)) by eauto with safe. client.
    intros s' Hs'. apply typed_cfg; [|done]. destruct Hc. by split.
Qed.

Lemma GetClientNetworkInfo_safe : keeps GetClientNetworkInfo.
Proof using All.
  unfold GetClientNetworkInfo. client_step. client_step. assert (Hc : wf_cfg (m_cltCnf s)) by eauto with safe.
  eapply safe_bind.
  { apply lift_kernel_safe. apply (GetLocalInterface_safe a _ _ _ _ is_mac); [apply cfg_mac, Hc|done]. }
  intros [[[r index] mac] addr] Hm. cbv beta iota.
  assert (Hi : wf_cfg (set_interface index mac (m_cltCnf s))) by (destruct Hc; by split).
  client_step. client_step. client_step. client_step. client_step. 
  destruct (GetLocalIp _ _ _) as [[r' addr'] freed]. 
  assert (wf_cfg (set_ifaceIpv4 addr' (m_cltCnf s0))) by (destruct (t_cfg s0 ltac:(done)); by split). client.
Qed.
Hint Resolve DhcpResponseHandle_safe InitSpecifiedClientCfg_safe GetClientNetworkInfo_safe : safe.

Lemma InitConfig_safe name v6 : keeps (InitConfig name v6).
Proof using All. unfold InitConfig. client. Qed.
Lemma DhcpInit_safe : keeps DhcpInit.
Proof using All. unfold DhcpInit. client. Qed.
Hint Resolve InitConfig_safe DhcpInit_safe : safe.

Lemma StartIpv4_safe : keeps StartIpv4.
Proof using All.
  unfold StartIpv4. client_step. client_step. client_step. client_step.
  eapply safe_bind; [apply lift_kernel_safe, InitSocketFd_safe|]. intros [[ok raw] kern] _. client.
Qed.
Hint Resolve StartIpv4_safe : safe.
Lemma RunGetIPThreadFunc_safe : keeps RunGetIPThreadFunc.
Proof using All. unfold RunGetIPThreadFunc. client. Qed.
Lemma StartIpv4Loop_safe readable : (forall d, readable = Some (Some d) -> u8b d) -> keeps (StartIpv4Loop readable).
Proof using All.
  intros Hd. unfold StartIpv4Loop. do 3 client_step. destruct readable as [received|]; [|client].
  apply DhcpResponseHandle_safe; [done|]. intros d ->. by apply Hd.
Qed.
Lemma close_client fd : keeps (lift_kernel (close fd)).
Proof using All. apply lift_kernel_safe, close_safe. Qed.
Hint Resolve RunGetIPThreadFunc_safe close_client : safe.
Lemma StartIpv4_exit_safe raw kern : keeps (StartIpv4_exit raw kern).
Proof using All. unfold StartIpv4_exit. client. Qed.
Hint Resolve StartIpv4_exit_safe : safe.
Lemma task_ends_safe : keeps task_ends.
Proof using All.
  unfold task_ends. client_step. eapply (safe_bind _ _ _ (fun _ => True)); [client|]. intros _ _. client.
Qed.
Lemma InitStartIpv4Thread_safe : keeps InitStartIpv4Thread.
Proof using All. unfold InitStartIpv4Thread. client. Qed.
Hint Resolve task_ends_safe InitStartIpv4Thread_safe : safe.

Lemma StartIpv4Type_safe name v6 action : is_action action -> keeps (StartIpv4Type name v6 action).
Proof using All. intros Ha. unfold StartIpv4Type. client. Qed.
Lemma StopIpv4Type_safe : keeps StopIpv4Type.
Proof using All. unfold StopIpv4Type. client. Qed.
Lemma ExecDhcpRenew_safe : keeps ExecDhcpRenew.
Proof using All. unfold ExecDhcpRenew. client. Qed.
Lemma ExecDhcpRelease_safe : keeps ExecDhcpRelease.
Proof using All. unfold ExecDhcpRelease. client. Qed.
Lemma publish_code_safe code : keeps (publish_code code).
Proof using All.
  unfold publish_code. client_step. client_step.
  assert (wf_result (set_ifname (ifaceName (m_cltCnf s)) (set_code code a))) by keep_texts. client.
Qed.
Hint Resolve StartIpv4Type_safe StopIpv4Type_safe ExecDhcpRenew_safe ExecDhcpRelease_safe publish_code_safe : safe.
Lemma restart_safe action state raw : is_action action -> is_state state -> keeps (restart action state raw).
Proof using All. intros Ha Hs. unfold restart. client. Qed.
Hint Resolve restart_safe : safe.
Lemma SetTimerCallback_safe t : keeps (SetTimerCallback t).
Proof using All.
  destruct t; cbn [SetTimerCallback]; [unfold GetIpTimerCallback|unfold RenewDelayCallback|unfold RebindDelayCallback
    |unfold RemainingDelayCallback|apply SlowArpTimeoutCallback_safe]; client.
Qed.

(** The arguments of an event are values of their types. *)
Definition wf_event (e : event) : Prop :=
  match e with
  | Start _ _ action => is_action action
  | Loop (Some (Some d)) => u8b d
  | _ => True
  end.

Lemma handle_safe e : wf_event e -> keeps (handle e).
Proof using All.
  intros He. destruct e; cbn [handle wf_event] in *; try solve [client].
  - unfold SetConfiguration. client.
  - apply SetTimerCallback_safe.
  - apply StartIpv4Loop_safe. by intros d ->.
Qed.

Lemma run_safe es : Forall wf_event es -> keeps (run es).
Proof using All.
  induction 1 as [|e es He _ IH]; [by apply safe_ret|]. cbn [run].
  apply (safe_bind _ _ _ (fun _ => True)); [|intros _ _; exact IH].
  intros s Hs. unfold next, wp. destruct (enabled e s); [exact (handle_safe e He s Hs)|by split].
Qed.
End Functions.
