(* ===== verification/ClientProperties.v ===== *)
(** What the IPv4 client does: the theorems about its state machine
    (src/services/dhcp_client/src/dhcp_client_state_machine.cpp), with a concrete
    environment for their witnesses. *)
From stdpp Require Import functions.
From S2P Require Import Prelude AddressUtils OptionList CommonUtil DottedQuad ClientOptions RawPacket ResultStore ClientFunction ClientState ClientHandlers ClientMessages ClientEvents ClientInvariant.

#[local] Arguments str : simpl never.

(** * A concrete environment *)

(** [inet_pton] reads dotted quads, like [inet_aton] of DottedQuad. *)
#[export] Instance quad_pton : InetPton := {| inet_pton := quad_aton |}.
#[export] Instance quad_pton_laws : InetPtonLaws DottedQuad quad_pton.
Proof.
  split.
  - intros ip s Hip Hs. exact (inet_aton_ntop ip s Hip Hs).
  - intros s ip Hs. exact (inet_aton_u32 s ip Hs).
Qed.

(** The clock stands at [now]; no address conflicts; a loop that is told to stop
    ends in time or not. *)
Definition sample_environment (now boot : Z) (exits : bool) : Environment := {|
  time_ := fun _ => now; boot_seconds := fun _ => boot; random_ := fun _ => 0x1234;
  arp_reachable := fun _ => false; service := fun _ _ => DHCP_OPT_SUCCESS;
  interface_answer := fun _ => mkIfreq 2 [2; 0; 0; 0; 0; 9] 0;
  interface_list := fun _ => Some [mkIfaddrs (Some (str "eth1")) (Some AF_INET) (Some (str "10.0.0.9"))];
  directories_made := fun _ => true; create_timer := fun n => Z.of_nat (S n); register_task := fun _ => 5;
  post_task := fun _ => true; exited_in_time := fun _ => exits; product_model := str "tablet"; device_type := None;
  junk_byte := fun _ => 0; junk_result := fun _ => zero_result; junk_item := fun _ => mkCached [] [] 0 zero_result
|}.

Lemma sample_environment_laws now boot exits : -1 <= now < 2 ^ 62 -> 0 <= boot < 2 ^ 62 ->
  EnvironmentLaws (sample_environment now boot exits).
Proof.
  intros Hn Hb. split; cbn [sample_environment time_ boot_seconds random_ interface_answer create_timer product_model junk_byte].
  - done.
  - done.
  - by split.
  - intros n. split; [done|by apply all_u8].
  - intros n. lia.
  - vm_compute. repeat constructor; discriminate.
  - by split.
Qed.

Lemma sample_junk now boot exits : JunkLaws (sample_environment now boot exits).
Proof. split; intros n; apply zero_result_wf. Qed.

Definition empty_store : Store := mkStore [] [] ∅.
Definition no_calls (results : list Z) : Kernel := mkKernel results [] [].
Definition blank_cfg : DhcpClientCfg := mkCfg 0 false 0 0 (zeros 6) [] [] [] [] [] [].

(** * Every history is defined and keeps the types *)

Section Safety.
Context {IT : InetText} {LT : InetTextLaws IT} {IP : InetPton} {LP : InetPtonLaws IT IP} {SO : StdSort} {SL : StdSortLaws SO}
  {SF : StoreFiles} {EN : Environment} {LE : EnvironmentLaws EN} {JL : JunkLaws EN}.

Lemma NewClient_typed ifname action0 cfg0 result0 st k : is_action action0 -> wf_cfg cfg0 -> wf_result result0 ->
  Forall wf_cached (m_allIpCached st) -> typed (NewClient ifname action0 cfg0 result0 st k).
Proof.
  intros Ha [Hm Hn] Hr Hst. split; unfold NewClient; cbn; try done; try by split.
  destruct (bool_decide _); by split.
Qed.

End Safety.


(** * The messages *)

Section Messages.
Context {IT : InetText} {IP : InetPton} {SO : StdSort} {SF : StoreFiles} {EN : Environment} {LE : EnvironmentLaws EN}.

(** C11: Each sending function sends one message, determined by its arguments and
    the hardware address, the seconds since the first message and the product
    name: the options in the order given, the identifier of the client, the
    requested address and the server identifier where RFC 2131 asks for them.  A
    text of more than 61 characters is left out.  Renewal puts the address into
    [ciaddr] and goes to the server, or to everybody when no server is known;
    DECLINE carries its two addresses twice, and RELEASE leaves [ciaddr] zero
    and carries the requested address, which RFC 2131 forbids. *)
Theorem client_messages xid ip server s : length (ifaceMac (m_cltCnf s)) = 6%nat ->
  let mac := ifaceMac (m_cltCnf s) in
  let secs := secs_of s in
  let texts := host_options in
  let ip_is := requested_ip ip in
  let server_is := server_id server in
  DhcpDiscover xid ip s =
    send_raw (message mac xid secs 0 ([typ DHCP_DISCOVER; client_id mac] ++ texts ++ [max_size; request_list])) (elapsed s) /\
  DhcpRequest xid ip server s =
    send_raw (message mac xid secs 0
      ([typ DHCP_REQUEST; client_id mac] ++ texts ++ [server_is; ip_is; max_size; request_list])) (elapsed s) /\
  DhcpReboot xid ip s =
    send_raw (message mac xid secs 0
      ([typ DHCP_REQUEST; client_id mac; ip_is; max_size] ++ texts ++ [request_list])) (elapsed s) /\
  DhcpRenew xid ip server s =
    (let p := message mac xid secs ip ([typ DHCP_REQUEST; client_id mac] ++ texts ++ [request_list; max_size]) in
     if server =? 0 then send_raw p (elapsed s) else send_kernel p ip server (elapsed s)) /\
  DhcpRelease ip server s =
    send_kernel (message mac (random_ (ticks s)) 0 0
      ([typ DHCP_RELEASE; client_id mac] ++ texts ++ [ip_is; server_is])) ip server (set_ticks (S (ticks s)) s) /\
  DhcpDecline xid ip server s =
    send_raw (message mac xid 0 0
      [typ DHCP_DECLINE; client_id mac; ip_is; server_is; ip_is; server_is]) s.
Proof.
  intros Hm. cbv zeta. split_and!.
  - by apply DhcpDiscover_sends.
  - by apply DhcpRequest_sends.
  - by apply DhcpReboot_sends.
  - by apply DhcpRenew_sends.
  - by apply DhcpRelease_sends.
  - by apply DhcpDecline_sends.
Qed.

(** Sending changes the trace and the kernel only. *)
Lemma send_raw_run p s : wf_dhcp p -> is_Some (GetEndOptionIndex (c_options p)) ->
  exists r k, send_raw p s = Some (r, set_kernel k (set_trace (trace s ++ [Sent p INADDR_ANY INADDR_BROADCAST true]) s)).
Proof.
  intros Hp He.
  destruct (wp_run _ _ _ (SendToDhcpPacket_safe p INADDR_ANY INADDR_BROADCAST (ifaceIndex (m_cltCnf s)) (Some MAC_BCAST_ADDR)
    Hp ltac:(done) ltac:(done) He (kernel s) I)) as (r & k & E & _ & _).
  exists r, k. unfold send_raw, act, lift_kernel, bind, get, modify. cbn [kernel set_trace]. by rewrite E.
Qed.
End Messages.

(** The state of a client on eth1 that has started. *)
Definition sample_cfg : DhcpClientCfg :=
  mkCfg 2 false 0 DHCP_IP_TYPE_V4 [2; 0; 0; 0; 0; 9] (str "eth1") WORKDIR [] [] [] [].
Definition sample_client (state : Z) (results : list Z) : Client :=
  mkClient state 0 0 0 0 0 0 0 0 0 0 SOCKET_MODE_RAW 0x1234 sample_cfg IPV4_TASK_RUNNING (str "eth1") ACTION_START_NEW
    (fun _ => 0) 0 DEFAULT_TIMEROUT [] (mkRouter [] [] false true false false true) 0 zero_result false 0 (task_loop 3 4)
    empty_store (no_calls results) 0 [].

Lemma client_messages_witness :
  let EN := sample_environment 1000 50 true in
  DhcpRequest 7 0x05000a0a 0x01000a0a (sample_client DHCP_STATE_REQUESTING []) =
    send_raw (message [2; 0; 0; 0; 0; 9] 7 0 0
      ([typ DHCP_REQUEST; client_id [2; 0; 0; 0; 0; 9]] ++ host_options ++
       [server_id 0x01000a0a; requested_ip 0x05000a0a; max_size; request_list]))
      (elapsed (sample_client DHCP_STATE_REQUESTING [])).
Proof.
  cbv zeta. apply (client_messages (EN := sample_environment 1000 50 true) 7 0x05000a0a 0x01000a0a
    (sample_client DHCP_STATE_REQUESTING [])). done.
Defined.

(** * The schedule of the DISCOVERs *)

Section Schedule.
Context {IT : InetText} {LT : InetTextLaws IT} {IP : InetPton} {LP : InetPtonLaws IT IP} {SO : StdSort} {SL : StdSortLaws SO}
  {SF : StoreFiles} {EN : Environment} {LE : EnvironmentLaws EN} {JL : JunkLaws EN}.

(** [InitSelecting] [n] times, each when the wait of the last is over. *)
Fixpoint discover_tries (n : nat) : M Client unit :=
  match n with
  | O => ret tt
  | S n' => let* due := get m_timeoutTimestamp in InitSelecting due ;; discover_tries n'
  end.

(** The seconds from the first try to the end of the [n]-th wait: the waits
    double up to 32 seconds. *)
Fixpoint waits (n : nat) : Z :=
  match n with O => 0 | S n' => waits n' + 2 ^ Z.min (Z.of_nat n') MAX_WAIT_TIMES end.

Definition is_discover_of (mac : bytes) (xid : Z) (a : action) : Prop :=
  exists secs, a = Sent (message mac xid secs 0 (discover_options mac)) INADDR_ANY INADDR_BROADCAST true.

Lemma timeout_sec_spec k : 0 <= k -> timeout_sec k = 2 ^ Z.min k MAX_WAIT_TIMES.
Proof.
  intros Hk. unfold timeout_sec, MAX_WAIT_TIMES, TIMEOUT_WAIT_SEC. rewrite Z.gtb_ltb.
  replace (if 5 <? k then 5 else k) with (Z.min k 5) by (destruct (Z.ltb_spec 5 k); lia).
  rewrite Z.shiftl_mul_pow2 by lia. unfold u32. rewrite Z.mul_1_l. apply Z.mod_small. split; [apply Z.pow_nonneg; lia|].
  apply Z.pow_lt_mono_r; lia.
Qed.

(** One try, [k] of them sent before. *)
Lemma InitSelecting_try t s : typed s -> is_time t -> is_wlan (ifaceName (m_cltCnf s)) = false ->
  m_sentPacketNum s <= TIMEOUT_TIMES_MAX ->
  wp (InitSelecting t) (fun _ s' =>
    m_timeoutTimestamp s' = t + 2 ^ Z.min (m_sentPacketNum s) MAX_WAIT_TIMES /\
    m_sentPacketNum s' = m_sentPacketNum s + 1 /\ m_dhcp4State s' = DHCP_STATE_SELECTING /\
    m_cltCnf s' = m_cltCnf s /\ m_transID s' = (if m_sentPacketNum s =? 0 then random_ (ticks s) else m_transID s) /\
    exists a, trace s' = trace s ++ [a] /\ is_discover_of (ifaceMac (m_cltCnf s)) (m_transID s') a) s.
Proof.
  intros Hs Ht Hw Hk. pose proof (t_sent s Hs) as Hn. unfold is_u32 in Hn. pose proof (state_mac s Hs) as [Hm Hu].
  unfold InitSelecting. wp_step. wp_step. rewrite Z.gtb_ltb, (proj2 (Z.ltb_ge _ _)) by done.
  set (s1 := if m_sentPacketNum s =? 0 then set_m_transID (random_ (ticks s)) (set_ticks (S (ticks s)) s) else s).
  assert (H1 : forall (m : M Client unit) Q, wp m Q s1 ->
    wp (when (m_sentPacketNum s =? 0) (let* id := GetRandomId in modify (set_m_transID id)) ;; m) Q s).
  { intros m Q H. unfold s1 in H. apply wp_bind. by destruct (m_sentPacketNum s =? 0). }
  assert (Ht1 : typed s1).
  { unfold s1. destruct (_ =? 0); [|done]. apply typed_xid; [apply random_range|by apply typed_ticks]. }
  apply H1. clear H1. wp_steps.
  rewrite (timeout_sec_spec (m_sentPacketNum s)) by lia.
  assert (Hp : wf_dhcp (message (ifaceMac (m_cltCnf s)) (m_transID s1) (secs_of s1) 0 (discover_options (ifaceMac (m_cltCnf s)))) /\
    is_Some (GetEndOptionIndex (c_options (message (ifaceMac (m_cltCnf s)) (m_transID s1) (secs_of s1) 0
      (discover_options (ifaceMac (m_cltCnf s))))))).
  { apply (client_message_wf (ifaceMac (m_cltCnf s))); [done|]. apply is_discover; [by apply t_xid|apply secs_u16]. }
  assert (Ec : m_cltCnf s1 = m_cltCnf s) by (unfold s1; by destruct (_ =? 0)).
  assert (En : m_sentPacketNum s1 = m_sentPacketNum s) by (unfold s1; by destruct (_ =? 0)).
  assert (Ex : m_transID s1 = (if m_sentPacketNum s =? 0 then random_ (ticks s) else m_transID s))
    by (unfold s1; by destruct (_ =? 0)).
  assert (Er : trace s1 = trace s) by (unfold s1; by destruct (_ =? 0)).
  clearbody s1. eapply wp_run_eq; [apply DhcpDiscover_sends; rewrite Ec; exact Hm|]. rewrite Ec.
  destruct Hp as [Hp He]. destruct (send_raw_run _ (elapsed s1) Hp He) as (r & k' & E). eapply wp_intro; [exact E|].
  assert (Ee : forall A (f : Client -> A), (forall v s, f (set_ticks v s) = f s) ->
    (forall v s, f (set_firstSendPacketTime_ v s) = f s) -> f (elapsed s1) = f s1).
  { intros A f H1 H2. unfold elapsed. cbv zeta. destruct (firstSendPacketTime_ _ =? 0); [by rewrite H2, H1|by rewrite H1]. }
  remember (elapsed s1) as s2 eqn:E2. clear E2.
  do 4 wp_step.
  apply wp_bind. match goal with |- wp (when ?b ?m) ?Q ?s => assert (Hskip : wp m Q s -> Q tt s -> wp (when b m) Q s) end.
  { intros H1 H2. by destruct (_ && _). }
  set (s3 := set_m_dhcp4State _ _). 
  assert (Hrest : wp (modify (set_m_timeoutTimestamp (t + 2 ^ Z.min (m_sentPacketNum s) MAX_WAIT_TIMES));; count_sent)
    (fun _ s' => m_timeoutTimestamp s' = t + 2 ^ Z.min (m_sentPacketNum s) MAX_WAIT_TIMES /\
    m_sentPacketNum s' = m_sentPacketNum s + 1 /\ m_dhcp4State s' = DHCP_STATE_SELECTING /\
    m_cltCnf s' = m_cltCnf s /\ m_transID s' = (if m_sentPacketNum s =? 0 then random_ (ticks s) else m_transID s) /\
    exists a, trace s' = trace s ++ [a] /\ is_discover_of (ifaceMac (m_cltCnf s)) (m_transID s') a) s3).
  { unfold count_sent. wp_steps. cbn. rewrite !Ee by done. split_and!; try done.
    - rewrite En, u32_small; [done|]. unfold is_u32, TIMEOUT_TIMES_MAX in *. lia.
    - rewrite Er. eexists. split; [done|]. by eexists. }
  apply Hskip; [|exact Hrest]. unfold TryCachedIp. wp_step. wp_step. wp_step. wp_step. wp_step; [by apply wp_ret|].
  cbn [m_cltCnf set_m_dhcp4State set_kernel set_trace]. rewrite Ee, Ec, Hw by done. by apply wp_ret.
Qed.

End Schedule.


Lemma sample_client_typed {EN : Environment} state results : is_state state -> typed (sample_client state results).
Proof.
  intros Hst. split; cbn; try done; try by split. 
  - split; [split; [done|by apply all_u8]|done].
  - apply zero_result_wf.
Qed.


(** * The timers of a lease *)

Section Timers.
Context {IT : InetText} {IP : InetPton} {SO : StdSort} {SF : StoreFiles} {EN : Environment} {LE : EnvironmentLaws EN}.

(** The states after [StopTimer] and [StartTimer]. *)
Definition stopped (t : TimerType) (s : Client) : Client :=
  if timerId s t =? 0 then s else set_timerId (<[t := 0]> (timerId s)) (set_trace (trace s ++ [TimerStopped t]) s).
Definition started (t : TimerType) (interval : Z) (s : Client) : Client :=
  if timerId s t =? 0 then
    set_timerId (<[t := create_timer (ticks s)]> (timerId s))
      (set_trace (trace s ++ [TimerStarted t interval]) (set_ticks (S (ticks s)) s))
  else s.

Lemma StopTimer_run t s : StopTimer t s = Some (tt, stopped t s).
Proof. unfold StopTimer, stopped, bind, get, when. by destruct (timerId s t =? 0). Qed.
Lemma StartTimer_run t i s : StartTimer t i s = Some (tt, started t i s).
Proof. unfold StartTimer, started, bind, get, when. by destruct (timerId s t =? 0). Qed.

Lemma stopped_id t s : timerId (stopped t s) t = 0.
Proof. unfold stopped. destruct (Z.eqb_spec (timerId s t) 0); [done|]. cbn. apply fn_lookup_insert. Qed.
Lemma stopped_other t t' s : t <> t' -> timerId (stopped t s) t' = timerId s t'.
Proof. intros H. unfold stopped. destruct (_ =? 0); [done|]. cbn. by apply fn_lookup_insert_ne. Qed.
Lemma started_other t t' i s : t <> t' -> timerId (started t i s) t' = timerId s t'.
Proof. intros H. unfold started. destruct (_ =? 0); [|done]. cbn. by apply fn_lookup_insert_ne. Qed.
Lemma started_id t i s : timerId s t = 0 -> timerId (started t i s) t <> 0.
Proof using LE.
  intros H. unfold started. rewrite H. cbn. rewrite fn_lookup_insert. apply timer_nonzero.
Qed.
Lemma started_trace t i s : timerId s t = 0 -> trace (started t i s) = trace s ++ [TimerStarted t i].
Proof. intros H. unfold started. by rewrite H. Qed.
Lemma stopped_trace t s : exists n, trace (stopped t s) = trace s ++ replicate n (TimerStopped t).
Proof.
  unfold stopped. destruct (_ =? 0); [exists 0%nat|exists 1%nat]; cbn; [by rewrite app_nil_r|done].
Qed.

(** The seconds of the lease that remain, as the code computes them. *)
Definition remaining_lease (lease elapsed : Z) : Z := if lease <? elapsed then lease else lease - elapsed.

Lemma ScheduleLeaseTimers_run s : IsPcDevice && bSpecificNetwork (m_routerCfg s) = false ->
  let elapsed := Z.max 0 (boot_seconds (ticks s) - m_renewalTimestampBoot s) in
  let r := remaining_lease (m_leaseTime s) elapsed * 1000 in
  ScheduleLeaseTimers false s = Some (tt,
    started TIMER_REMAINING_DELAY r (started TIMER_REBIND_DELAY (r * 7 / 8) (started TIMER_RENEW_DELAY (r / 2)
      (stopped TIMER_REMAINING_DELAY (stopped TIMER_REBIND_DELAY (stopped TIMER_RENEW_DELAY
        (set_ticks (S (ticks s)) s))))))).
Proof.
  intros Hpc. cbv zeta. unfold ScheduleLeaseTimers, query, bind, get, modify, ret. cbn [andb].
  rewrite !StopTimer_run. cbn [m_routerCfg set_ticks m_leaseTime m_renewalTimestampBoot]. rewrite Hpc, !StartTimer_run.
  unfold RENEWAL_SEC_MULTIPLE, REBIND_SEC_MULTIPLE, remaining_lease, USECOND_CONVERT.
  replace (if boot_seconds (ticks s) <? m_renewalTimestampBoot s then 0 else boot_seconds (ticks s) - m_renewalTimestampBoot s)
    with (Z.max 0 (boot_seconds (ticks s) - m_renewalTimestampBoot s)); [done|].
  destruct (Z.ltb_spec (boot_seconds (ticks s)) (m_renewalTimestampBoot s)); lia.
Qed.

Definition only_stops (l : list action) : Prop := Forall (fun a => exists t, a = TimerStopped t) l.

Lemma lease_timers_lemma s : IsPcDevice && bSpecificNetwork (m_routerCfg s) = false ->
  let elapsed := Z.max 0 (boot_seconds (ticks s) - m_renewalTimestampBoot s) in
  let r := remaining_lease (m_leaseTime s) elapsed * 1000 in
  exists s', ScheduleLeaseTimers false s = Some (tt, s') /\
    (exists stops, only_stops stops /\
      trace s' = trace s ++ stops ++ [TimerStarted TIMER_RENEW_DELAY (r / 2); TimerStarted TIMER_REBIND_DELAY (r * 7 / 8);
                                      TimerStarted TIMER_REMAINING_DELAY r]) /\
    timerId s' TIMER_RENEW_DELAY <> 0 /\ timerId s' TIMER_REBIND_DELAY <> 0 /\ timerId s' TIMER_REMAINING_DELAY <> 0.
Proof using LE.
  intros Hpc elapsed r. eexists. split; [by apply ScheduleLeaseTimers_run|]. fold elapsed. fold r.
  set (s1 := set_ticks (S (ticks s)) s). set (s4 := stopped TIMER_REMAINING_DELAY _).
  assert (H1 : timerId s4 TIMER_RENEW_DELAY = 0) by (unfold s4; rewrite !stopped_other by done; apply stopped_id).
  assert (H2 : timerId s4 TIMER_REBIND_DELAY = 0) by (unfold s4; rewrite stopped_other by done; apply stopped_id).
  assert (H3 : timerId s4 TIMER_REMAINING_DELAY = 0) by apply stopped_id.
  split; [|split_and!].
  - destruct (stopped_trace TIMER_RENEW_DELAY s1) as [n1 E1].
    destruct (stopped_trace TIMER_REBIND_DELAY (stopped TIMER_RENEW_DELAY s1)) as [n2 E2].
    destruct (stopped_trace TIMER_REMAINING_DELAY (stopped TIMER_REBIND_DELAY (stopped TIMER_RENEW_DELAY s1))) as [n3 E3].
    exists (replicate n1 (TimerStopped TIMER_RENEW_DELAY) ++ replicate n2 (TimerStopped TIMER_REBIND_DELAY) ++
      replicate n3 (TimerStopped TIMER_REMAINING_DELAY)). split.
    { unfold only_stops. rewrite !Forall_app. split_and!; apply Forall_replicate; by eexists. }
    rewrite !started_trace by (rewrite ?started_other by done; done). fold s4 in E3. rewrite E3, E2, E1.
    change (trace s1) with (trace s). by rewrite <- !app_assoc.
  - rewrite !started_other by done. by apply started_id.
  - rewrite started_other by done. apply started_id. by rewrite started_other.
  - apply started_id. by rewrite !started_other.
Qed.


(** A lease that has already run out is given its whole time again: the
    comparison chooses the lease time instead of zero. *)
Theorem expired_lease_restarted s : IsPcDevice && bSpecificNetwork (m_routerCfg s) = false ->
  m_leaseTime s < boot_seconds (ticks s) - m_renewalTimestampBoot s -> 0 <= m_leaseTime s ->
  exists s', ScheduleLeaseTimers false s = Some (tt, s') /\
    (exists before, trace s' = trace s ++ before ++ [TimerStarted TIMER_REMAINING_DELAY (m_leaseTime s * 1000)]) /\
    timerId s' TIMER_REMAINING_DELAY <> 0.
Proof using LE.
  intros Hpc He Hl. pose proof (lease_timers_lemma s Hpc) as H. cbv zeta in H. rewrite Z.max_r in H by lia.
  unfold remaining_lease in H. rewrite (proj2 (Z.ltb_lt _ _)) in H by lia.
  destruct H as (s' & E & (stops & _ & Et) & _ & _ & Hid). exists s'. split_and!; [done| |done].
  eexists (stops ++ [_; _]). rewrite Et, <- !app_assoc. cbn. reflexivity.
Qed.
End Timers.

Definition leased_client : Client := set_m_renewalTimestampBoot 20 (set_m_leaseTime 100 (sample_client DHCP_STATE_BOUND [])).


Lemma expired_lease_restarted_witness :
  let EN := sample_environment 1000 500 true in
  exists s', ScheduleLeaseTimers false leased_client = Some (tt, s') /\
    (exists before, trace s' = [] ++ before ++ [TimerStarted TIMER_REMAINING_DELAY 100000]) /\
    timerId s' TIMER_REMAINING_DELAY <> 0.
Proof.
  cbv zeta. pose proof (sample_environment_laws 1000 500 true ltac:(lia) ltac:(lia)).
  apply (expired_lease_restarted (EN := sample_environment 1000 500 true) leased_client); cbn; [done|lia|lia].
Defined.

(** * Replies *)

(** The options of a received packet: in the options field, terminated. *)
Definition has_options (p : DhcpPacket) (ts : list tlv) : Prop :=
  holds (c_options p) ts /\ Forall wf_tlv ts /\ Z.of_nat (length (encs ts)) + 1 < DHCP_OPT_SIZE.

Section Found.
Context (p : DhcpPacket) (ts : list tlv) (Hp : has_options p ts).

Lemma GetDhcpOption_found code : 0 < code < END_OPTION ->
  match value_in ts code with
  | Some d => exists off, GetDhcpOption p code = Some (Some (OPTION_FIELD, off), Z.of_nat (length d)) /\
      at_ptr p (OPTION_FIELD, off) (Z.of_nat (length d)) = Some d
  | None => GetDhcpOption p code = Some (None, 0)
  end.
Proof using Hp.
  intros Hc. destruct Hp as ([Hl [rest E]] & Hts & Hr). apply (GetDhcpOption_loop_finds p code Hc ts [] rest); try done.
  pose proof (length_encs ts). unfold DHCP_OPT_SIZE, option_fuel in *. lia.
Qed.

Lemma uint8_found code v data : 0 < code < END_OPTION -> value_in ts code = Some [v] ->
  GetDhcpOptionUint8 p code data = Some (true, v).
Proof using Hp.
  intros Hc Hv. pose proof (GetDhcpOption_found code Hc) as H. rewrite Hv in H. destruct H as (off & E & Ea).
  unfold GetDhcpOptionUint8. rewrite E, bind_some. cbn [length Z.of_nat Pos.of_succ_nat Z.ltb Z.compare].
  change (1 <? DHCP_UINT8_BYTES) with false. cbv iota. change (Z.of_nat (length [v])) with DHCP_UINT8_BYTES in Ea.
  by rewrite Ea.
Qed.

Lemma uint32_found code d data : 0 < code < END_OPTION -> value_in ts code = Some d -> length d = 4%nat ->
  GetDhcpOptionUint32 p code data = Some (true, if ParseIp d >? 0 then ntohl (ParseIp d) else data).
Proof using Hp.
  intros Hc Hv Hd. pose proof (GetDhcpOption_found code Hc) as H. rewrite Hv in H. destruct H as (off & E & Ea).
  unfold GetDhcpOptionUint32. rewrite E, bind_some, Hd. change (Z.of_nat 4 <? DHCP_UINT32_BYTES) with false. cbv iota.
  rewrite Hd in Ea. change (Z.of_nat 4) with DHCP_UINT32_BYTES in Ea. by rewrite Ea.
Qed.

Lemma uint32_missing code data : 0 < code < END_OPTION -> value_in ts code = None ->
  GetDhcpOptionUint32 p code data = Some (false, data).
Proof using Hp.
  intros Hc Hv. pose proof (GetDhcpOption_found code Hc) as H. rewrite Hv in H. unfold GetDhcpOptionUint32. by rewrite H.
Qed.
End Found.

Section Replies.
Context {IT : InetText} {LT : InetTextLaws IT} {IP : InetPton} {LP : InetPtonLaws IT IP} {SO : StdSort} {SL : StdSortLaws SO}
  {SF : StoreFiles} {EN : Environment} {LE : EnvironmentLaws EN} {JL : JunkLaws EN}.

(** The datagram is read as the packet. *)
Definition reads_as (s : Client) (received : option bytes) (p : DhcpPacket) : Prop :=
  m_socketMode s = SOCKET_MODE_RAW /\
  exists n, 0 <= n /\ GetDhcpRawPacket (junk_byte (ticks s)) zero_packet received = Some (n, p).

Lemma DhcpResponseDataCheck_read t received p s : reads_as s received p ->
  DhcpResponseDataCheck t received zero_packet s =
    (if negb (c_xid p =? m_transID s) then ret None
     else
       GetDhcpOffer p ;;
       let* '(ok, u8Message) := from_option (GetDhcpOptionUint8 p DHCP_MESSAGE_TYPE_OPTION 0) in
       ret (if ok : bool then Some (u8Message, p) else None)) (set_ticks (S (ticks s)) s).
Proof.
  intros (Hraw & n & Hn & E). unfold DhcpResponseDataCheck. unfold bind at 1. unfold get at 1. rewrite Hraw.
  change (SOCKET_MODE_RAW =? SOCKET_MODE_RAW) with true. cbv iota.
  unfold bind at 1. unfold bind at 1. unfold query at 1. unfold bind at 1. unfold bind at 1. unfold get at 1.
  unfold modify at 1. unfold ret at 1. cbv beta iota. unfold from_option at 1. rewrite E. cbv beta iota.
  unfold bind at 1. unfold get at 1. rewrite (proj2 (Z.ltb_ge n 0) Hn). done.
Qed.

(** What a reply that is the client's own does, on an interface without a
    cache. *)
Lemma DhcpResponseHandle_own t received p s : reads_as s received p -> c_xid p = m_transID s ->
  is_wlan (ifaceName (m_cltCnf s)) = false -> forall ts m, has_options p ts -> value_in ts DHCP_MESSAGE_TYPE_OPTION = Some [m] ->
  let s1 := set_ticks (S (ticks s)) s in
  DhcpResponseHandle t received s =
    (if m_dhcp4State s =? DHCP_STATE_SELECTING then DhcpOfferPacketHandle m p t s1
     else if (m_dhcp4State s =? DHCP_STATE_REQUESTING) || (m_dhcp4State s =? DHCP_STATE_RENEWING)
             || (m_dhcp4State s =? DHCP_STATE_REBINDING) || (m_dhcp4State s =? DHCP_STATE_INITREBOOT)
             || (m_dhcp4State s =? DHCP_STATE_RENEWED)
     then DhcpAckOrNakPacketHandle m p t s1 else Some (tt, s1)).
Proof.
  intros Hr Hx Hw ts m Hts Hm s1.
  assert (Echeck : DhcpResponseDataCheck t received zero_packet s = Some (Some (m, p), s1)).
  { rewrite (DhcpResponseDataCheck_read t received p s Hr), Hx, Z.eqb_refl. cbn [negb]. fold s1. unfold GetDhcpOffer, bind, get.
    change (m_cltCnf s1) with (m_cltCnf s). rewrite Hw. cbn [negb ret].
    rewrite (uint8_found p ts Hts DHCP_MESSAGE_TYPE_OPTION m) by done. done. }
  unfold DhcpResponseHandle. unfold bind at 1. rewrite Echeck. cbv iota beta. unfold bind, get.
  change (m_dhcp4State s1) with (m_dhcp4State s).
  destruct (_ =? DHCP_STATE_SELECTING); [done|]. by destruct (_ || _).
Qed.

(** A datagram with another transaction id than the client's changes nothing,
    in any state: replies to other clients and to earlier exchanges are
    ignored. *)
Theorem foreign_reply_ignored t received p s : reads_as s received p -> c_xid p <> m_transID s ->
  DhcpResponseHandle t received s = Some (tt, set_ticks (S (ticks s)) s).
Proof.
  intros Hr Hx. unfold DhcpResponseHandle. unfold bind at 1.
  by rewrite (DhcpResponseDataCheck_read t received p s Hr), (proj2 (Z.eqb_neq _ _) Hx).
Qed.

(** The client has asked [server] for [ip] once, and waits for a second. *)
Definition asks_for (xid ip server t : Z) (before : Client) (s : Client) : Prop :=
  let mac := ifaceMac (m_cltCnf before) in
  m_dhcp4State s = DHCP_STATE_REQUESTING /\ m_requestedIp4 s = ip /\ m_serverIp4 s = server /\
  m_timeoutTimestamp s = t + 1 /\ m_sentPacketNum s = 1 /\
  exists secs, trace s = trace before ++
    [Sent (message mac xid secs 0 (request_options mac ip server)) INADDR_ANY INADDR_BROADCAST true].

Lemma Requesting_first t s : typed s -> m_dhcp4State s = DHCP_STATE_REQUESTING -> m_sentPacketNum s = 0 ->
  wp (DhcpRequestHandle t) (fun _ => asks_for (m_transID s) (m_requestedIp4 s) (m_serverIp4 s) t s) s.
Proof using All.
  intros Hs Hst H0. pose proof (state_mac s Hs) as [Hm Hu].
  unfold DhcpRequestHandle. wp_step. wp_step. rewrite Hst.
  change (wp (Requesting t) (fun _ => asks_for (m_transID s) (m_requestedIp4 s) (m_serverIp4 s) t s) s).
  unfold Requesting. wp_step. wp_step. rewrite H0. change (0 >? TIMEOUT_TIMES_MAX) with false. cbv iota. do 9 wp_step.
  rewrite Hst. change (DHCP_STATE_REQUESTING =? DHCP_STATE_RENEWED) with false. cbv iota.
  change (timeout_sec 0 >? DHCP_FAILE_TIMEOUT_THR) with false.
  destruct (client_message_wf (ifaceMac (m_cltCnf s)) (message (ifaceMac (m_cltCnf s)) (m_transID s) (secs_of s) 0
      (request_options (ifaceMac (m_cltCnf s)) (m_requestedIp4 s) (m_serverIp4 s)))) as [Hp He]; [done| |].
  { apply is_request; [by apply t_xid|apply secs_u16|by apply t_requested|by apply t_server]. }
  eapply wp_run_eq; [by apply DhcpRequest_sends|]. destruct (send_raw_run _ (elapsed s) Hp He) as (r & k' & E).
  eapply wp_intro; [exact E|].
  assert (Ee : forall A (f : Client -> A), (forall v s, f (set_ticks v s) = f s) ->
    (forall v s, f (set_firstSendPacketTime_ v s) = f s) -> f (elapsed s) = f s).
  { intros A f H1 H2. unfold elapsed. cbv zeta. destruct (firstSendPacketTime_ _ =? 0); [by rewrite H2, H1|by rewrite H1]. }
  remember (elapsed s) as s2 eqn:E2. clear E2. unfold count_sent, when. wp_steps. unfold asks_for. cbn. rewrite !Ee by done.
  rewrite Hst, H0. split_and!; try done. by eexists.
Qed.

(** What an offer is taken from. *)
Lemma offer_taken t received p ts sid s : reads_as s received p ->
  c_xid p = m_transID s -> is_wlan (ifaceName (m_cltCnf s)) = false -> m_dhcp4State s = DHCP_STATE_SELECTING ->
  has_options p ts -> value_in ts DHCP_MESSAGE_TYPE_OPTION = Some [DHCP_OFFER] ->
  value_in ts SERVER_IDENTIFIER_OPTION = Some sid -> length sid = 4%nat -> u8b sid -> ParseIp sid <> 0 ->
  wp (DhcpResponseHandle t received) (fun _ s1 =>
    m_dhcp4State s1 = DHCP_STATE_REQUESTING /\ m_sentPacketNum s1 = 0 /\ m_transID s1 = c_xid p /\
    m_requestedIp4 s1 = c_yiaddr p /\ m_serverIp4 s1 = ParseIp sid /\ m_cltCnf s1 = m_cltCnf s /\ trace s1 = trace s) s.
Proof using LT.
  intros Hr Hx Hw Hst Hts Hm Hv Hl Hu Hnz.
  assert (E : DhcpResponseHandle t received s = DhcpOfferPacketHandle DHCP_OFFER p t (set_ticks (S (ticks s)) s)).
  { rewrite (DhcpResponseHandle_own t received p s Hr Hx Hw ts DHCP_OFFER Hts Hm), Hst, Z.eqb_refl. done. }
  pose proof (ParseIp_u32 sid Hu) as Hip. unfold is_u32 in Hip. eapply wp_run_eq; [exact E|]. clear E.
  unfold DhcpOfferPacketHandle. change (DHCP_OFFER =? DHCP_OFFER) with true. cbn [negb]. wp_step. eapply wp_from_option.
  eexists. split; [by apply (uint32_found p ts Hts SERVER_IDENTIFIER_OPTION sid 0)|]. cbv beta iota. cbn [negb].
  rewrite Z.gtb_ltb, (proj2 (Z.ltb_lt 0 _)) by lia. unfold ntohl. rewrite htonl_involutive_l by done.
  wp_steps. by cbn.
Qed.

End Replies.

(** A reply of 10.0.0.1 offering or granting 10.0.0.5, for the transaction
    0x1234, as a datagram and as a packet. *)
Definition reply_options (type : Z) : list tlv := [(53, [type]); (54, [10; 0; 0; 1]); (51, [0; 0; 0; 100]); (1, [255; 255; 255; 0])].
Definition reply_payload (type : Z) : bytes :=
  [2; 1; 6; 0; 0x34; 0x12] ++ zeros 10 ++ [10; 0; 0; 5] ++ zeros 216 ++ [0x63; 0x82; 0x53; 0x63] ++
  encs (reply_options type) ++ [255; 0; 0].
Definition reply_datagram (type : Z) : bytes := sample_datagram (reply_payload type).
Definition reply_packet (type : Z) : DhcpPacket :=
  match GetDhcpRawPacket 0 zero_packet (Some (reply_datagram type)) with Some (_, p) => p | None => zero_packet end.

Lemma reply_has_options type : type ∈ [DHCP_OFFER; DHCP_ACK; DHCP_NAK] -> has_options (reply_packet type) (reply_options type).
Proof.
  rewrite !elem_of_cons, elem_of_nil. intros [->|[->|[->|[]]]];
    (split; [split; [by vm_compute|match goal with |- context [reply_packet ?t] => exists (drop 22 (c_options (reply_packet t))) end; by vm_compute]|split; [|by vm_compute]];
     unfold reply_options; repeat (apply Forall_cons_2; [unfold wf_tlv, END_OPTION, OPTION_OVERLOAD_OPTION; cbn; lia|]); apply Forall_nil_2).
Qed.

Lemma foreign_reply_ignored_witness :
  let EN := sample_environment 1000 50 true in
  let s := set_m_transID 77 (sample_client DHCP_STATE_SELECTING []) in
  DhcpResponseHandle 1000 (Some (reply_datagram DHCP_OFFER)) s = Some (tt, set_ticks 1 s).
Proof.
  cbv zeta. apply (foreign_reply_ignored (EN := sample_environment 1000 50 true) 1000 (Some (reply_datagram DHCP_OFFER))
    (reply_packet DHCP_OFFER) (set_m_transID 77 (sample_client DHCP_STATE_SELECTING []))).
  - split; [done|]. exists 264. split; [done|by vm_compute].
  - by vm_compute.
Defined.

