(* ===== verification/ClientTransitions.v ===== *)
(** The states of the IPv4 client as an automaton
    (src/services/dhcp_client/src/dhcp_client_state_machine.cpp): which states
    each event can lead to, and that the handlers stay within this table.

    [goes x m L]: run in the state [x], [m] ends in one of the states of [L]. *)
From S2P Require Import Prelude AddressUtils OptionList CommonUtil DottedQuad ClientOptions RawPacket ResultStore ClientFunction ClientState ClientHandlers ClientMessages ClientEvents ClientInvariant ClientProperties.

#[local] Arguments str : simpl never.

(** * The automaton *)

(** What is due in a state leads to. *)
Definition due_moves (x : Z) : list Z :=
  if (x =? DHCP_STATE_INIT) || (x =? DHCP_STATE_SELECTING) then [x; DHCP_STATE_SELECTING]
  else if (x =? DHCP_STATE_REQUESTING) || (x =? DHCP_STATE_RENEWED) then [x; DHCP_STATE_INIT]
  else if x =? DHCP_STATE_BOUND then [DHCP_STATE_RENEWING]
  else if x =? DHCP_STATE_INITREBOOT then [x; DHCP_STATE_INIT]
  else if x =? DHCP_STATE_FAST_ARP then [x; DHCP_STATE_SLOW_ARP; DHCP_STATE_DECLINE]
  else if x =? DHCP_STATE_SLOW_ARP then [x; DHCP_STATE_BOUND; DHCP_STATE_DECLINE]
  else if x =? DHCP_STATE_DECLINE then [DHCP_STATE_BOUND; DHCP_STATE_INIT]
  else [x].

(** What a received datagram leads to. *)
Definition reply_moves (x : Z) : list Z :=
  if x =? DHCP_STATE_SELECTING then [x; DHCP_STATE_REQUESTING]
  else if (x =? DHCP_STATE_REQUESTING) || (x =? DHCP_STATE_INITREBOOT) then [x; DHCP_STATE_INIT; DHCP_STATE_FAST_ARP]
  else if (x =? DHCP_STATE_RENEWING) || (x =? DHCP_STATE_REBINDING) || (x =? DHCP_STATE_RENEWED)
  then [x; DHCP_STATE_INIT; DHCP_STATE_BOUND]
  else [x].

Definition renew_moves (x : Z) : list Z :=
  if (x =? DHCP_STATE_REQUESTING) || (x =? DHCP_STATE_RELEASED) || (x =? DHCP_STATE_RENEWED) then [DHCP_STATE_INIT]
  else if (x =? DHCP_STATE_BOUND) || (x =? DHCP_STATE_RENEWING) || (x =? DHCP_STATE_REBINDING) then [DHCP_STATE_RENEWED]
  else [x].

(** The states that an event can lead to from [x]. *)
Definition moves (e : event) (x : Z) : list Z :=
  match e with
  | Start _ _ _ | TaskBegins | TaskEnds => [x; DHCP_STATE_INIT; DHCP_STATE_INITREBOOT]
  | Stop | Configure _ => [x]
  | Renew => renew_moves x
  | Release => [DHCP_STATE_RELEASED]
  | Expire TIMER_RENEW_DELAY => [DHCP_STATE_RENEWING]
  | Expire TIMER_REBIND_DELAY => [DHCP_STATE_REBINDING]
  | Expire TIMER_SLOW_ARP => [x; DHCP_STATE_BOUND]
  | Expire _ => [x]
  | SlowArpTask => [x; DHCP_STATE_BOUND; DHCP_STATE_DECLINE]
  | Loop _ => due_moves x ++ reply_moves x
  end.

(** * Reasoning about the state alone *)

Definition steady {A} (m : M Client A) : Prop := forall s a s', m s = Some (a, s') -> m_dhcp4State s' = m_dhcp4State s.
Definition goes {A} (x : Z) (m : M Client A) (L : list Z) : Prop :=
  forall s a s', m_dhcp4State s = x -> m s = Some (a, s') -> m_dhcp4State s' ∈ L.

Section Rules.
Context {IT : InetText} {IP : InetPton} {SO : StdSort} {SF : StoreFiles} {EN : Environment}.

Lemma steady_ret {A} (a : A) : steady (ret a).
Proof. by intros s a' s' [= _ <-]. Qed.
Lemma steady_get {A} (f : Client -> A) : steady (get f).
Proof. by intros s a' s' [= _ <-]. Qed.
Lemma steady_modify f : (forall s, m_dhcp4State (f s) = m_dhcp4State s) -> steady (modify f).
Proof. intros H s a s' [= _ <-]. apply H. Qed.
Lemma steady_from_option {A} (o : option A) : steady (from_option o).
Proof. intros s a s'. unfold from_option. destruct o; [|done]. by intros [= _ <-]. Qed.
Lemma steady_lift {A} (m : M Kernel A) : steady (lift_kernel m).
Proof. intros s a s'. unfold lift_kernel. destruct (m _) as [[??]|]; [|done]. by intros [= _ <-]. Qed.
Lemma steady_bind {A B} (m : M Client A) (k : A -> M Client B) : steady m -> (forall a, steady (k a)) -> steady (bind m k).
Proof.
  intros Hm Hk s b s'. unfold bind. destruct (m s) as [[a s1]|] eqn:E; [|done]. intros E'.
  by rewrite (Hk _ _ _ _ E'), (Hm _ _ _ E).
Qed.
Lemma steady_when b m : steady m -> steady (when b m).
Proof. intros H. destruct b; [done|apply steady_ret]. Qed.

Lemma goes_steady {A} x (m : M Client A) L : steady m -> x ∈ L -> goes x m L.
Proof. intros H Hx s a s' Es E. by rewrite (H _ _ _ E), Es. Qed.
Lemma goes_bind {A B} x L1 (m : M Client A) (k : A -> M Client B) L : goes x m L1 ->
  (forall y a, y ∈ L1 -> goes y (k a) L) -> goes x (bind m k) L.
Proof.
  intros Hm Hk s b s' Es. unfold bind. destruct (m s) as [[a s1]|] eqn:E; [|done]. intros E'.
  exact (Hk _ a (Hm _ _ _ Es E) s1 b s' eq_refl E').
Qed.
Lemma goes_skip {A B} x (m : M Client A) (k : A -> M Client B) L : steady m -> (forall a, goes x (k a) L) -> goes x (bind m k) L.
Proof.
  intros Hm Hk. apply (goes_bind x [x]); [apply goes_steady; [done|by left]|]. intros y a ->%list_elem_of_singleton. apply Hk.
Qed.
Lemma goes_state {A} x (k : Z -> M Client A) L : goes x (k x) L -> goes x (bind (get m_dhcp4State) k) L.
Proof. intros H s a s' Es E. unfold bind, get in E. rewrite Es in E. by apply (H s a s'). Qed.
Lemma goes_set {A} x v (k : unit -> M Client A) L : goes v (k tt) L -> goes x (bind (modify (set_m_dhcp4State v)) k) L.
Proof. intros H s a s' _ E. by apply (H (set_m_dhcp4State v s) a s'). Qed.
Lemma goes_set_last x v L : v ∈ L -> goes x (modify (set_m_dhcp4State v)) L.
Proof. intros H s a s' _ [= _ <-]. exact H. Qed.
Lemma goes_when {A} x b m (k : unit -> M Client A) L : (b = true -> goes x (bind m k) L) -> (b = false -> goes x (k tt) L) ->
  goes x (bind (when b m) k) L.
Proof. destruct b; [intros H _; by apply H|intros _ H; by apply H]. Qed.
Lemma goes_when_last x b m L : (b = true -> goes x m L) -> x ∈ L -> goes x (when b m) L.
Proof. destruct b; [intros H _; by apply H|intros _ H; apply goes_steady; [apply steady_ret|done]]. Qed.
Lemma goes_mono {A} x (m : M Client A) L1 L : goes x m L1 -> L1 ⊆ L -> goes x m L.
Proof. intros H HL s a s' Es E. apply HL. by apply (H s a s'). Qed.
Lemma goes_assoc {A B C} x (m : M Client A) (k : A -> M Client B) (j : B -> M Client C) L :
  goes x (bind m (fun a => bind (k a) j)) L -> goes x (bind (bind m k) j) L.
Proof.
  intros H s c s' Es E. apply (H s c s' Es). revert E. unfold bind. by destruct (m s) as [[a s1]|].
Qed.
End Rules.

Create HintDb steady.
#[export] Hint Resolve steady_ret steady_get steady_from_option steady_lift : steady.

Ltac steady :=
  cbv beta;
  lazymatch goal with
  | |- steady (bind _ _) => apply steady_bind; [steady|intros; steady]
  | |- steady (when _ _) => apply steady_when; steady
  | |- steady (modify _) => apply steady_modify; intros; done
  | |- steady (let _ := _ in _) => cbv zeta; steady
  | |- steady (if ?b then _ else _) => destruct b; steady
  | |- steady (match ?x with _ => _ end) => destruct x; steady
  | |- _ => solve [auto with steady nocore]
  end.
Ltac states := first [apply list_elem_of_here | apply list_elem_of_further; states].
Ltac sublist := intros ?; rewrite ?elem_of_cons, ?elem_of_nil; tauto.
Ltac goes :=
  cbv beta;
  lazymatch goal with
  | |- goes _ (bind (get m_dhcp4State) _) _ => apply goes_state; goes
  | |- goes _ (bind (modify (set_m_dhcp4State _)) _) _ => apply goes_set; goes
  | |- goes _ (bind (bind _ _) _) _ => apply goes_assoc; goes
  | |- goes _ (bind (when _ _) _) _ =>
      first [apply goes_skip; [solve [steady]|intros; goes] | apply goes_when; intros; try discriminate; goes]
  | |- goes _ (bind (if ?b then _ else _) _) _ => first [apply goes_skip; [solve [steady]|intros; goes] | destruct b; goes]
  | |- goes _ (bind _ _) _ =>
      first [apply goes_skip; [solve [steady]|intros; goes]
            |eapply goes_bind; [solve [eauto with goes nocore]|intros ? ?; rewrite ?elem_of_cons, elem_of_nil;
               intros; destruct_or?; subst; try done; goes]]
  | |- goes _ (modify (set_m_dhcp4State _)) _ => apply goes_set_last; states
  | |- goes _ (when _ _) _ => first [apply goes_steady; [solve [steady]|states] | apply goes_when_last; [intros; goes|states]]
  | |- goes _ (let _ := _ in _) _ => cbv zeta; goes
  | |- goes _ (if ?b then _ else _) _ => destruct b eqn:?; goes
  | |- goes _ (match ?x with _ => _ end) _ => destruct x; goes
  | |- _ => first [apply goes_steady; [solve [steady]|states] | solve [eapply goes_mono; [solve [eauto with goes nocore]|sublist]]]
  end.
Create HintDb goes.

(** * The handlers that keep the state *)

Section Handlers.
Context {IT : InetText} {IP : InetPton} {SO : StdSort} {SF : StoreFiles} {EN : Environment}.

Lemma steady_query {A} (f : nat -> A) : steady (query f).
Proof. unfold query. steady. Qed.
Lemma steady_act a : steady (act a).
Proof. unfold act. steady. Qed.
Hint Resolve steady_query steady_act : steady.
Lemma steady_StopTimer t : steady (StopTimer t).
Proof. unfold StopTimer. steady. Qed.
Lemma steady_StartTimer t i : steady (StartTimer t i).
Proof. unfold StartTimer. steady. Qed.
Hint Resolve steady_StopTimer steady_StartTimer : steady.
Lemma steady_CloseAllRenewTimer : steady CloseAllRenewTimer.
Proof. unfold CloseAllRenewTimer. steady. Qed.
Lemma steady_ScheduleLeaseTimers b : steady (ScheduleLeaseTimers b).
Proof. unfold ScheduleLeaseTimers. destruct b; steady. Qed.
Lemma steady_StopIpv4 : steady StopIpv4.
Proof. unfold StopIpv4. steady. Qed.
Lemma steady_SetSocketMode m : steady (SetSocketMode m).
Proof. unfold SetSocketMode. steady. Qed.
Lemma steady_publish r : steady (publish r).
Proof. unfold publish. steady. Qed.
Hint Resolve steady_CloseAllRenewTimer steady_ScheduleLeaseTimers steady_StopIpv4 steady_SetSocketMode steady_publish : steady.
Lemma steady_PublishDhcpResultEvent n c r : steady (PublishDhcpResultEvent n c r).
Proof. unfold PublishDhcpResultEvent. steady. Qed.
Hint Resolve steady_PublishDhcpResultEvent : steady.
Lemma steady_publish_current c : steady (publish_current c).
Proof. unfold publish_current. steady. Qed.
Lemma steady_GetCachedDhcpResult b : steady (GetCachedDhcpResult b).
Proof. unfold GetCachedDhcpResult. steady. Qed.
Lemma steady_SaveIpInfoInLocalFile r : steady (ClientHandlers.SaveIpInfoInLocalFile r).
Proof. unfold ClientHandlers.SaveIpInfoInLocalFile. steady. Qed.
Hint Resolve steady_publish_current steady_GetCachedDhcpResult steady_SaveIpInfoInLocalFile : steady.
Lemma steady_TryCachedIp : steady TryCachedIp.
Proof. unfold TryCachedIp. steady. Qed.
Lemma steady_parse_result p r : steady (parse_result p r).
Proof. unfold parse_result. steady. Qed.
Lemma steady_count_sent : steady count_sent.
Proof. unfold count_sent. steady. Qed.
Lemma steady_send_raw p : steady (send_raw p).
Proof. unfold send_raw. steady. Qed.
Lemma steady_send_kernel p a b : steady (send_kernel p a b).
Proof. unfold send_kernel. steady. Qed.
Lemma steady_SetSecondsElapsed p : steady (SetSecondsElapsed p).
Proof. unfold SetSecondsElapsed. steady. Qed.
Lemma steady_mac_of : steady mac_of.
Proof. unfold mac_of. steady. Qed.
Lemma steady_GetRandomId : steady GetRandomId.
Proof. unfold GetRandomId. steady. Qed.
Hint Resolve steady_TryCachedIp steady_parse_result steady_count_sent steady_send_raw steady_send_kernel
  steady_SetSecondsElapsed steady_mac_of steady_GetRandomId : steady.
Lemma steady_DhcpDiscover x r : steady (DhcpDiscover x r).
Proof. unfold DhcpDiscover. steady. Qed.
Lemma steady_DhcpRequest x r v : steady (DhcpRequest x r v).
Proof. unfold DhcpRequest. steady. Qed.
Lemma steady_DhcpReboot x r : steady (DhcpReboot x r).
Proof. unfold DhcpReboot. steady. Qed.
Lemma steady_DhcpRenew x r v : steady (DhcpRenew x r v).
Proof. unfold DhcpRenew. steady. Qed.
Lemma steady_DhcpRelease r v : steady (DhcpRelease r v).
Proof. unfold DhcpRelease. steady. Qed.
Lemma steady_DhcpDecline x r v : steady (DhcpDecline x r v).
Proof. unfold DhcpDecline. steady. Qed.
Lemma steady_IsArpReachable t a : steady (IsArpReachable t a).
Proof. unfold IsArpReachable. steady. Qed.
Lemma steady_GetDhcpOffer p : steady (GetDhcpOffer p).
Proof. unfold GetDhcpOffer. steady. Qed.
Lemma steady_ParseDhcpAckPacket p t : steady (ParseDhcpAckPacket p t).
Proof. unfold ParseDhcpAckPacket. steady. Qed.
Hint Resolve steady_DhcpDiscover steady_DhcpRequest steady_DhcpReboot steady_DhcpRenew steady_DhcpRelease steady_DhcpDecline
  steady_IsArpReachable steady_GetDhcpOffer steady_ParseDhcpAckPacket : steady.
Lemma steady_InitSpecifiedClientCfg n v : steady (InitSpecifiedClientCfg n v).
Proof. unfold InitSpecifiedClientCfg. steady. Qed.
Lemma steady_GetClientNetworkInfo : steady GetClientNetworkInfo.
Proof. unfold GetClientNetworkInfo. steady. Qed.
Hint Resolve steady_InitSpecifiedClientCfg steady_GetClientNetworkInfo : steady.
Lemma steady_InitConfig n v : steady (InitConfig n v).
Proof. unfold InitConfig. steady. Qed.
Lemma steady_StartIpv4_exit a b : steady (StartIpv4_exit a b).
Proof. unfold StartIpv4_exit. steady. Qed.
Lemma steady_InitStartIpv4Thread : steady InitStartIpv4Thread.
Proof. unfold InitStartIpv4Thread. steady. Qed.
Lemma steady_publish_code c : steady (publish_code c).
Proof. unfold publish_code. steady. Qed.
Hint Resolve steady_InitConfig steady_StartIpv4_exit steady_InitStartIpv4Thread steady_publish_code : steady.
Lemma steady_GetIpTimerCallback : steady GetIpTimerCallback.
Proof. unfold GetIpTimerCallback. steady. Qed.
Lemma steady_RemainingDelayCallback : steady RemainingDelayCallback.
Proof. unfold RemainingDelayCallback. steady. Qed.
Lemma steady_StopIpv4Type : steady StopIpv4Type.
Proof. unfold StopIpv4Type. steady. Qed.
Lemma steady_SetConfiguration r : steady (SetConfiguration r).
Proof. unfold SetConfiguration. steady. Qed.
Hint Resolve steady_GetIpTimerCallback steady_RemainingDelayCallback steady_StopIpv4Type steady_SetConfiguration : steady.

(** * The handlers that change it *)

Lemma InitSelecting_goes t x : goes x (InitSelecting t) [x; DHCP_STATE_SELECTING].
Proof. unfold InitSelecting. goes. Qed.
Lemma SendReboot_goes i t x : goes x (SendReboot i t) [x; DHCP_STATE_INIT].
Proof. unfold SendReboot. goes. Qed.
Lemma Requesting_goes t x : goes x (Requesting t) [x; DHCP_STATE_INIT].
Proof. unfold Requesting. goes. Qed.
Lemma Renewing_steady t : steady (Renewing t).
Proof. unfold Renewing. steady. Qed.
Lemma Rebinding_steady t : steady (Rebinding t).
Proof. unfold Rebinding. steady. Qed.
Lemma FastArpDetect_goes x : goes x FastArpDetect [x; DHCP_STATE_SLOW_ARP; DHCP_STATE_DECLINE].
Proof. unfold FastArpDetect. goes. Qed.
Lemma enter_bound_goes t x : goes x (enter_bound t) [DHCP_STATE_BOUND].
Proof. unfold enter_bound. goes. Qed.
Hint Resolve InitSelecting_goes SendReboot_goes Requesting_goes FastArpDetect_goes enter_bound_goes : goes.
Hint Resolve Renewing_steady Rebinding_steady : steady.
Lemma Reboot_goes t x : goes x (Reboot t) [x; DHCP_STATE_INIT; DHCP_STATE_INITREBOOT].
Proof. unfold Reboot. goes. Qed.
Lemma Declining_goes t x : goes x (Declining t) [DHCP_STATE_BOUND; DHCP_STATE_INIT].
Proof. unfold Declining. goes. Qed.
Lemma IpConflictDetect_goes x : goes x IpConflictDetect [DHCP_STATE_FAST_ARP].
Proof. unfold IpConflictDetect. goes. Qed.
Lemma ParseDhcpNakPacket_goes t x : goes x (ParseDhcpNakPacket t) [DHCP_STATE_INIT].
Proof. unfold ParseDhcpNakPacket. goes. Qed.
Hint Resolve Reboot_goes Declining_goes IpConflictDetect_goes ParseDhcpNakPacket_goes : goes.
Lemma SlowArpDetectCallback_goes b x : goes x (SlowArpDetectCallback b) [x; DHCP_STATE_BOUND; DHCP_STATE_DECLINE].
Proof. unfold SlowArpDetectCallback. goes. Qed.
Lemma SlowArpTimeoutCallback_goes x : goes x SlowArpTimeoutCallback [x; DHCP_STATE_BOUND].
Proof. unfold SlowArpTimeoutCallback. goes. Qed.
Lemma SlowArpDetect_goes t x : goes x (SlowArpDetect t) [x; DHCP_STATE_BOUND; DHCP_STATE_DECLINE].
Proof. unfold SlowArpDetect. goes. Qed.
Hint Resolve SlowArpDetectCallback_goes SlowArpTimeoutCallback_goes SlowArpDetect_goes : goes.
Lemma slow_arp_task_goes x : goes x slow_arp_task [x; DHCP_STATE_BOUND; DHCP_STATE_DECLINE].
Proof. unfold slow_arp_task. goes. Qed.

Lemma DhcpRequestHandle_goes t x : goes x (DhcpRequestHandle t) (due_moves x).
Proof.
  unfold DhcpRequestHandle. apply goes_state. unfold due_moves.
  destruct (_ || _); [goes|]. destruct (_ || _); [goes|]. destruct (x =? DHCP_STATE_BOUND); [goes|].
  destruct (Z.eqb_spec x DHCP_STATE_RENEWING) as [->|]; [goes|]. destruct (Z.eqb_spec x DHCP_STATE_REBINDING) as [->|]; [goes|].
  destruct (x =? DHCP_STATE_INITREBOOT); [goes|]. destruct (Z.eqb_spec x DHCP_STATE_RELEASED) as [->|]; [goes|]. goes.
Qed.
Lemma DhcpOfferPacketHandle_goes m p t x : goes x (DhcpOfferPacketHandle m p t) [x; DHCP_STATE_REQUESTING].
Proof. unfold DhcpOfferPacketHandle. goes. Qed.
Lemma DhcpAckOrNakPacketHandle_goes m p t x :
  (x = DHCP_STATE_REQUESTING \/ x = DHCP_STATE_RENEWING \/ x = DHCP_STATE_REBINDING \/ x = DHCP_STATE_INITREBOOT \/ x = DHCP_STATE_RENEWED) ->
  goes x (DhcpAckOrNakPacketHandle m p t) (reply_moves x).
Proof.
  intros H. unfold DhcpAckOrNakPacketHandle. apply goes_state. unfold reply_moves.
  destruct_or? H; subst x; cbn; goes.
Qed.

Lemma DhcpResponseDataCheck_goes t r p x : goes x (DhcpResponseDataCheck t r p) (if x =? DHCP_STATE_INITREBOOT then [x; DHCP_STATE_INIT] else [x]).
Proof.
  destruct (Z.eqb_spec x DHCP_STATE_INITREBOOT) as [->|Hn]; [unfold DhcpResponseDataCheck; goes|].
  unfold DhcpResponseDataCheck. apply goes_skip; [steady|intros mode]. apply goes_skip; [destruct (_ =? _); steady|intros [n q]].
  apply goes_state. rewrite (proj2 (Z.eqb_neq _ _) Hn). goes.
Qed.

(** A packet that was read is handled in its state. *)
Lemma reply_goes t (reply : option (Z * DhcpPacket)) x : goes x (match reply with
  | None => ret tt
  | Some (u8Message, packet) =>
      let* state := get m_dhcp4State in
      if state =? DHCP_STATE_SELECTING then DhcpOfferPacketHandle u8Message packet t
      else if (state =? DHCP_STATE_REQUESTING) || (state =? DHCP_STATE_RENEWING) || (state =? DHCP_STATE_REBINDING)
              || (state =? DHCP_STATE_INITREBOOT) || (state =? DHCP_STATE_RENEWED)
      then DhcpAckOrNakPacketHandle u8Message packet t
      else ret tt
  end) (reply_moves x).
Proof.
  assert (Hx : x ∈ reply_moves x) by (unfold reply_moves; repeat case_match; states).
  destruct reply as [[m p]|]; [|by apply goes_steady; [steady|]]. apply goes_state. 
  destruct (Z.eqb_spec x DHCP_STATE_SELECTING) as [->|]; [apply DhcpOfferPacketHandle_goes|].
  destruct (_ || _) eqn:E; [|by apply goes_steady; [steady|]].
  apply DhcpAckOrNakPacketHandle_goes. rewrite !orb_true_iff, !Z.eqb_eq in E. tauto.
Qed.

Lemma DhcpResponseHandle_goes t r x : goes x (DhcpResponseHandle t r) (reply_moves x).
Proof.
  unfold DhcpResponseHandle. eapply goes_bind; [apply DhcpResponseDataCheck_goes|]. intros y a Hy.
  eapply goes_mono; [apply reply_goes|]. destruct (Z.eqb_spec x DHCP_STATE_INITREBOOT) as [->|].
  - rewrite !elem_of_cons, elem_of_nil in Hy. destruct Hy as [->|[->|[]]]; [done|cbn; sublist].
  - apply list_elem_of_singleton in Hy. by subst y.
Qed.
Hint Resolve DhcpRequestHandle_goes DhcpResponseHandle_goes : goes.

Lemma StartIpv4Loop_goes r x : goes x (StartIpv4Loop r) (due_moves x ++ reply_moves x).
Proof.
  assert (Hx : x ∈ reply_moves x) by (unfold reply_moves; repeat case_match; states).
  unfold StartIpv4Loop. do 2 (apply goes_skip; [steady|intros ?]). destruct (_ <=? 0).
  { eapply goes_mono; [apply DhcpRequestHandle_goes|]. intros ? ?. by apply elem_of_app; left. }
  destruct r; [eapply goes_mono; [apply DhcpResponseHandle_goes|]; intros ? ?; by apply elem_of_app; right|].
  apply goes_steady; [steady|]. by apply elem_of_app; right.
Qed.

Lemma DhcpInit_goes x : goes x DhcpInit [DHCP_STATE_INIT; DHCP_STATE_INITREBOOT].
Proof. unfold DhcpInit. goes. Qed.
Hint Resolve DhcpInit_goes : goes.
Lemma StartIpv4_goes x : goes x StartIpv4 [x; DHCP_STATE_INIT; DHCP_STATE_INITREBOOT].
Proof. unfold StartIpv4. goes. Qed.
Hint Resolve StartIpv4_goes : goes.
Lemma RunGetIPThreadFunc_goes x : goes x RunGetIPThreadFunc [x; DHCP_STATE_INIT; DHCP_STATE_INITREBOOT].
Proof. unfold RunGetIPThreadFunc. goes. Qed.
Hint Resolve RunGetIPThreadFunc_goes : goes.
Lemma task_ends_goes x : goes x task_ends [x; DHCP_STATE_INIT; DHCP_STATE_INITREBOOT].
Proof. unfold task_ends. apply goes_skip; [steady|intros t]. destruct t; goes. Qed.
Hint Resolve task_ends_goes : goes.
Lemma StartIpv4Type_goes n v a x : goes x (StartIpv4Type n v a) [x; DHCP_STATE_INIT; DHCP_STATE_INITREBOOT].
Proof. unfold StartIpv4Type. goes. Qed.
Hint Resolve StartIpv4Type_goes : goes.
Lemma ExecDhcpRenew_goes x : goes x ExecDhcpRenew (renew_moves x).
Proof.
  unfold ExecDhcpRenew. apply goes_state. unfold renew_moves.
  destruct ((x =? DHCP_STATE_REQUESTING) || _ || _) eqn:E; [|destruct ((x =? DHCP_STATE_BOUND) || _ || _); cbn [when]; goes].
  rewrite !orb_true_iff, !Z.eqb_eq in E. destruct_or? E; subst x; cbn; goes.
Qed.
Lemma ExecDhcpRelease_goes x : goes x ExecDhcpRelease [DHCP_STATE_RELEASED].
Proof. unfold ExecDhcpRelease. goes. Qed.
Lemma restart_goes a v r x : goes x (restart a v r) [v].
Proof. unfold restart. goes. Qed.
Hint Resolve restart_goes ExecDhcpRelease_goes ExecDhcpRenew_goes slow_arp_task_goes SlowArpTimeoutCallback_goes StartIpv4Loop_goes : goes.

(** * The refinement *)

Lemma handle_goes e x : goes x (handle e) (moves e x).
Proof.
  destruct e as [n v a| |r| | |t| | |r|]; cbn [handle moves].
  all: try (apply goes_steady; [steady|by left]).
  - eapply goes_bind; [apply StartIpv4Type_goes|]. intros y _ Hy. apply goes_steady; [steady|done].
  - eapply goes_bind; [apply ExecDhcpRenew_goes|]. intros y _ Hy. apply goes_steady; [steady|done].
  - eapply goes_bind; [apply ExecDhcpRelease_goes|]. intros y _ Hy. apply goes_steady; [steady|done].
  - destruct t; cbn [SetTimerCallback].
    + apply goes_steady; [steady|by left].
    + unfold RenewDelayCallback. apply goes_skip; [steady|intros _; apply restart_goes].
    + unfold RebindDelayCallback. apply goes_skip; [steady|intros _; apply restart_goes].
    + apply goes_steady; [steady|by left].
    + apply SlowArpTimeoutCallback_goes.
  - apply slow_arp_task_goes.
  - apply RunGetIPThreadFunc_goes.
  - apply StartIpv4Loop_goes.
  - apply task_ends_goes.
Qed.

(** A path of the automaton: each event moves the state or is skipped. *)
Fixpoint path (es : list event) (x y : Z) : Prop :=
  match es with [] => y = x | e :: es => exists z, (z = x \/ z ∈ moves e x) /\ path es z y end.

(** C7: The client refines the automaton of its states: along every history of
    calls, callbacks and datagrams the state member follows the table [moves]. *)
Theorem client_refines_automaton es s s' : run es s = Some (tt, s') -> path es (m_dhcp4State s) (m_dhcp4State s').
Proof.
  revert s. induction es as [|e es IH]; intros s; cbn [run path]; [by intros [= ->]|].
  unfold bind, next. destruct (enabled e s).
  - destruct (handle e s) as [[[] s1]|] eqn:E; [|done]. intros H. exists (m_dhcp4State s1). split; [|by apply IH].
    right. exact (handle_goes e _ s tt s1 eq_refl E).
  - intros H. exists (m_dhcp4State s). split; [by left|by apply IH].
Qed.

(** C37: A client becomes bound in three ways only: its loop, after the probes for a
    conflict or on a reply to a renewal (or when it gives up declining); the end
    of the slow probe; or the timer of the slow probe. *)
Theorem bound_entered e s s' : handle e s = Some (tt, s') ->
  m_dhcp4State s <> DHCP_STATE_BOUND -> m_dhcp4State s' = DHCP_STATE_BOUND ->
  match e with
  | Loop _ => m_dhcp4State s ∈ [DHCP_STATE_SLOW_ARP; DHCP_STATE_DECLINE; DHCP_STATE_RENEWING; DHCP_STATE_REBINDING;
                                 DHCP_STATE_RENEWED]
  | SlowArpTask | Expire TIMER_SLOW_ARP => True
  | _ => False
  end.
Proof.
  intros E Hn Hb. pose proof (handle_goes e _ s tt s' eq_refl E) as H. rewrite Hb in H. clear E Hb.
  remember (m_dhcp4State s) as x eqn:Ex. clear Ex s s'.
  destruct e as [n v a| |r| | |t| | |r|]; try destruct t; cbn [moves] in H; try exact I;
    try (apply elem_of_app in H; destruct H as [H|H]); unfold renew_moves, due_moves, reply_moves in H;
    unfold DHCP_STATE_BOUND, DHCP_STATE_INIT, DHCP_STATE_SELECTING, DHCP_STATE_REQUESTING, DHCP_STATE_RENEWING,
      DHCP_STATE_REBINDING, DHCP_STATE_INITREBOOT, DHCP_STATE_RELEASED, DHCP_STATE_RENEWED, DHCP_STATE_FAST_ARP,
      DHCP_STATE_SLOW_ARP, DHCP_STATE_DECLINE in *;
    repeat case_match; rewrite ?elem_of_cons, ?elem_of_nil in *; lia.
Qed.
End Handlers.

(** * A whole exchange *)

(** The client starts, is answered by an OFFER and an ACK of 10.0.0.1, finds no
    conflict and binds. *)
Definition handshake_events : list event :=
  [Start (str "eth1") false ACTION_START_NEW; TaskBegins; Loop None; Loop (Some (Some (reply_datagram DHCP_OFFER)));
   Loop None; Loop (Some (Some (reply_datagram DHCP_ACK))); Loop None; Loop None; Loop None; Loop None; SlowArpTask; TaskEnds].
Definition new_client : Client := NewClient (str "eth1") 0 blank_cfg zero_result empty_store (no_calls (replicate 80 0)).
Definition after (EN : Environment) (es : list event) : Client :=
  match run (EN := EN) es new_client with Some (_, s) => s | None => new_client end.

Lemma client_refines_automaton_witness :
  path handshake_events DHCP_STATE_INIT DHCP_STATE_BOUND.
Proof.
  apply (client_refines_automaton (EN := sample_environment 1000 50 true) handshake_events new_client
    (after (sample_environment 1000 50 true) handshake_events)). by vm_compute.
Defined.

(** A client whose renewal is granted. *)
Definition renewing_client : Client := set_m_timeoutTimestamp 2000 (sample_client DHCP_STATE_RENEWING (replicate 10 0)).
Definition renewed_client : Client :=
  match handle (EN := sample_environment 1000 50 true) (Loop (Some (Some (reply_datagram DHCP_ACK)))) renewing_client with
  | Some (_, s) => s
  | None => renewing_client
  end.

Lemma bound_entered_witness : m_dhcp4State renewing_client ∈ [DHCP_STATE_SLOW_ARP; DHCP_STATE_DECLINE; DHCP_STATE_RENEWING;
  DHCP_STATE_REBINDING; DHCP_STATE_RENEWED].
Proof.
  apply (bound_entered (EN := sample_environment 1000 50 true) (Loop (Some (Some (reply_datagram DHCP_ACK))))
    renewing_client renewed_client); by vm_compute.
Defined.


(** A start that is lost.  When the running task does not end within the 500
    ms that StartIpv4Type waits, the call still succeeds, but no task is
    posted for it: after the old task has ended the client is idle, sends
    nothing more, and even the timer that reports a failure to get an address
    does nothing. *)
Theorem start_lost : let EN := sample_environment 1000 50 false in
  let before := take 3 handshake_events in
  let s := after EN before in
  let s' := after EN (before ++ [Start (str "eth1") false ACTION_START_NEW; TaskEnds; TaskBegins; Loop None; Expire TIMER_GET_IP]) in
  fst <$> StartIpv4Type (EN := EN) (str "eth1") false ACTION_START_NEW s = Some DHCP_OPT_SUCCESS /\
  task s' = task_none /\ threadState_ s' = IPV4_TASK_IDLE /\
  exists timers, trace s' = trace s ++ timers /\ Forall (fun a => match a with TimerStarted _ _ | TimerStopped _ => True | _ => False end) timers.
Proof.
  split_and!; try by vm_compute. eexists [_; _]. split; [by vm_compute|]. by repeat (apply Forall_cons_2; [done|]).
Qed.
