(* ===== verification/Interop.v ===== *)
(** The two programs together: what the server
    (src/services/dhcp_server) reads from a datagram of the client
    (src/services/dhcp_client).

    The client's packet and the server's message are two models of one layout.
    [payload] is what the client sends of a packet, as SendToDhcpPacket cuts it;
    the server decodes it into the options the client meant, whatever an earlier
    message left in its buffer. *)
From S2P Require Import Prelude AddressUtils CommonUtil DottedQuad ClientOptions RawPacket ResultStore ClientFunction ClientState ClientMessages ClientInvariant ClientProperties OptionList Codec Binding AddressPool PoolInvariant Server ServerInvariant ServerProperties.

#[local] Arguments str : simpl never.

(** The option of the server for an option of the client. *)
Definition to_option (t : tlv) : DhcpOption := option_of t.1 (Z.of_nat (length t.2)) t.2.

(** What is sent of a packet with the options [ts]: up to the byte behind the
    end mark. *)
Definition payload (p : DhcpPacket) (ts : list tlv) : bytes := take (242 + length (encs ts)) (dhcp_bytes p).

(** Options the server keeps. *)
Definition readable (t : tlv) : Prop :=
  wf_tlv t /\ t.1 <> TIME_OFFSET_OPTION /\ (0 < length t.2)%nat.

Lemma pad_tlv t : wf_tlv t -> data (to_option t) = t.2 ++ zeros (256 - length t.2).
Proof.
  intros (_ & _ & H). unfold to_option, option_of. cbn [data]. change (Z.to_nat DHCP_OPTION_SIZE) with 256%nat.
  by rewrite pad_zeros by lia.
Qed.

Lemma enc_to_option t : wf_tlv t -> enc_option (to_option t) = enc t.
Proof.
  intros H. unfold enc_option. rewrite pad_tlv by done. unfold enc, to_option. cbn [code length_ option_of].
  by rewrite Nat2Z.id, take_app_length.
Qed.

Lemma encode_to_option ts : Forall wf_tlv ts -> encode (map to_option ts) = encs ts.
Proof.
  induction 1 as [|t ts Ht _ IH]; [done|]. cbn [map]. change (encode (to_option t :: map to_option ts))
    with (enc_option (to_option t) ++ encode (map to_option ts)). by rewrite enc_to_option, IH.
Qed.

Lemma copy_to_option t : wf_tlv t -> copy_option (to_option t) = to_option t.
Proof.
  intros H. pose proof (pad_tlv t H) as Hp. destruct H as (_ & _ & H). unfold copy_option. rewrite Hp.
  unfold to_option, option_of in *. cbn [code length_ data] in *. rewrite Hp.
  rewrite Nat2Z.id, take_app_length. do 2 f_equal. unfold zeros. by rewrite drop_replicate.
Qed.

Lemma decoded_to_option t : readable t -> decoded (to_option t).
Proof.
  intros (((Hc1 & Hc2) & Hc & Hl) & Ht & Hn). unfold END_OPTION in *. split; [|split].
  - split; [unfold is_u8; cbn; lia|split; [unfold is_u8; cbn; lia|]]. apply length_pad.
  - cbn. lia.
  - cbn. unfold PAD_OPTION, END_OPTION, TIME_OFFSET_OPTION in *. lia.
Qed.

Lemma opts_size_encs ts : Forall wf_tlv ts -> opts_size (map to_option ts) = Z.of_nat (length (encs ts)).
Proof.
  induction 1 as [|t ts Ht _ IH]; [done|]. change (encs (t :: ts)) with (enc t ++ encs ts).
  cbn [map]. change (opts_size (to_option t :: map to_option ts))
    with (OPT_HEADER_LENGTH + Z.of_nat (length t.2) + opts_size (map to_option ts)).
  rewrite IH, length_app, length_enc. change OPT_HEADER_LENGTH with 2. lia.
Qed.

Lemma opts_get_to_option ts c : opts_get (map to_option ts) c = (fun d => to_option (c, d)) <$> value_in ts c.
Proof.
  unfold opts_get. induction ts as [|[c' d] ts IH]; [done|]. cbn [map List.find value_in fst snd].
  cbn [to_option option_of code fst]. destruct (Z.eqb_spec c' c) as [->|]; [done|exact IH].
Qed.

Lemma value_in_app a b c : value_in (a ++ b) c = match value_in a c with Some d => Some d | None => value_in b c end.
Proof. induction a as [|t a IH]; [done|]. cbn [app value_in]. by destruct (t.1 =? c). Qed.

Lemma ParseIp_option c ip : is_u32 ip -> ParseIp (data (to_option (c, le32 ip))) = ip.
Proof.
  intros H. unfold to_option, option_of. cbn [data snd]. change (Z.to_nat DHCP_OPTION_SIZE) with 256%nat.
  rewrite pad_zeros by (cbn [le32 length]; lia). by apply ParseIp_le32.
Qed.

(** * The datagram *)

Section Read.
Context (mac : bytes) (xid secs ci : Z) (ts : list tlv).
Context (Hmac : length mac = 6%nat) (Hts : Forall readable ts) (Hroom : (length (encs ts) <= 244)%nat)
  (Hxid : is_u32 xid) (Hsecs : is_u16 secs) (Hci : is_u32 ci).

Let p := ClientMessages.message mac xid secs ci ts.

Lemma wf_ts : Forall wf_tlv ts.
Proof using All. eapply Forall_impl; [exact Hts|]. by intros ? []. Qed.

(** The part of the packet before the options array of the server's structure. *)
Definition fixed : bytes :=
  [BOOT_REQUEST; ETHERNET_TYPE; ETHERNET_LEN; 0] ++ le32 xid ++ le16 secs ++ le16 0 ++ le32 ci ++ le32 0 ++ le32 0 ++ le32 0 ++
  pad 16 mac ++ zeros 64 ++ zeros 128.

Lemma length_fixed : length fixed = 236%nat.
Proof using All. unfold fixed. rewrite !length_app, length_pad. done. Qed.

Lemma payload_is : payload p ts = fixed ++ MAGIC_COOKIE_DATA ++ encs ts ++ [END_OPTION; 0].
Proof using All.
  assert (E : exists rest, dhcp_bytes p = (fixed ++ MAGIC_COOKIE_DATA ++ encs ts ++ [END_OPTION; 0]) ++ rest).
  { unfold dhcp_bytes, p, fixed. cbn [c_op c_htype c_hlen c_hops c_xid c_secs c_flags c_ciaddr c_yiaddr c_siaddr c_giaddr
      c_chaddr c_sname c_file c_cookie c_options ClientMessages.message].
    change (le32 (htonl MAGIC_COOKIE)) with MAGIC_COOKIE_DATA. unfold image.
    replace (1779 - length (encs ts))%nat with (S (1778 - length (encs ts))) by lia.
    exists (zeros (1778 - length (encs ts))). rewrite <- !app_assoc. done. }
  destruct E as [rest E]. unfold payload. rewrite E. apply take_app_length'.
  rewrite !length_app, length_fixed. cbn [length]. change (length MAGIC_COOKIE_DATA) with 4%nat. lia.
Qed.

Lemma length_payload : length (payload p ts) = (242 + length (encs ts))%nat.
Proof using All.
  rewrite payload_is, !length_app, length_fixed. cbn [length]. change (length MAGIC_COOKIE_DATA) with 4%nat. lia.
Qed.

(** What the server's receive and decoding make of the datagram. *)
Definition received (m0 : DhcpMsgInfo) : DhcpMsgInfo :=
  receive_into m0 (Z.of_nat (length (payload p ts))) (payload p ts).

Lemma received_is m0 : exists rest,
  received m0 = mkMsgInfo (mkMessage BOOT_REQUEST ETHERNET_TYPE ETHERNET_LEN 0 xid secs 0 ci
    0 0 0 (pad 16 mac) (zeros 64) (zeros 128) (MAGIC_COOKIE_DATA ++ encs ts ++ END_OPTION :: rest))
    (242 + Z.of_nat (length (encs ts))) (options m0).
Proof using All.
  unfold received, receive_into. rewrite Nat2Z.id, take_ge by done. rewrite length_payload, payload_is.
  set (stale := drop _ _). exists (take (307 - length (encs ts)) (0 :: stale)).
  unfold set_packet, set_msg_length. cbn [msg_length options]. f_equal; [|lia].
  unfold message_of_bytes, field32, fixed. rewrite <- !app_assoc. f_equal.
  - by apply ParseIp_le32.
  - unfold field16. change (byte_at _ 8) with (secs mod 2 ^ 8). change (byte_at _ 9) with (secs / 2 ^ 8 mod 2 ^ 8).
    unfold is_u16 in Hsecs. Z.to_euclidean_division_equations; lia.
  - by apply ParseIp_le32.
  - pose proof (take_app_length' (pad 16 mac) (zeros 64 ++ zeros 128 ++ MAGIC_COOKIE_DATA ++ encs ts ++ [END_OPTION; 0] ++ stale) 16
      (eq_sym (length_pad _ _))) as E. exact E.
  - set (r := zeros 128 ++ _). clearbody r.
    pose proof (drop_app_length' (pad 16 mac) (zeros 64 ++ r) 16 (eq_sym (length_pad _ _))) as E.
    transitivity (take 64 (drop 16 (pad 16 mac ++ zeros 64 ++ r))); [done|]. by rewrite E.
  - set (r := MAGIC_COOKIE_DATA ++ _). clearbody r.
    pose proof (drop_app_length' (pad 16 mac) (zeros 64 ++ zeros 128 ++ r) 16 (eq_sym (length_pad _ _))) as E.
    transitivity (take 128 (drop 64 (drop 16 (pad 16 mac ++ zeros 64 ++ zeros 128 ++ r)))); [by rewrite drop_drop|]. by rewrite E.
  - set (r := MAGIC_COOKIE_DATA ++ _).
    pose proof (drop_app_length' (pad 16 mac) (zeros 64 ++ zeros 128 ++ r) 16 (eq_sym (length_pad _ _))) as E.
    transitivity (take 312 (drop 192 (drop 16 (pad 16 mac ++ zeros 64 ++ zeros 128 ++ r)))); [by rewrite drop_drop|].
    rewrite E. unfold r. change (drop 192 (zeros 64 ++ zeros 128 ++ ?l)) with l.
    change (MAGIC_COOKIE_DATA ++ encs ts ++ [END_OPTION; 0] ++ stale) with (MAGIC_COOKIE_DATA ++ (encs ts ++ [END_OPTION] ++ 0 :: stale)).
    rewrite take_app_ge by (cbn; lia). f_equal. change (length MAGIC_COOKIE_DATA) with 4%nat. rewrite take_app_ge by lia. f_equal.
    rewrite take_app_ge by (cbn; lia). cbn [app length]. f_equal. f_equal. lia.
Qed.

(** The options are those of the client, and the header is kept. *)
Lemma server_reads m0 : options m0 = [] -> exists m, ParseMessageOptions (received m0) = Some (RET_SUCCESS, m) /\
  options m = map to_option ts /\ op (packet m) = BOOTREQUEST /\ hlen (packet m) = 6 /\ Codec.xid (packet m) = xid /\
  Codec.chaddr (packet m) = pad 16 mac /\ ciaddr (packet m) = ci.
Proof using All.
  intros Hm0. destruct (received_is m0) as [rest E]. eexists. split.
  - rewrite (ParseMessageOptions_decodes (received m0) (map to_option ts) rest).
    + reflexivity.
    + apply Forall_map. eapply Forall_impl; [exact Hts|]. apply decoded_to_option.
    + by rewrite E.
    + rewrite E, encode_to_option by apply wf_ts. done.
    + rewrite opts_size_encs by apply wf_ts. unfold max_decoded_size. lia.
    + rewrite opts_size_encs by apply wf_ts. rewrite E. cbn [msg_length]. lia.
  - rewrite E. unfold set_options. cbn [options packet op hlen Codec.xid Codec.chaddr ciaddr]. split_and!; try done.
    rewrite map_map. apply map_ext_in. intros t Ht. apply copy_to_option.
    apply (Forall_forall wf_tlv ts); [apply wf_ts|by apply list_elem_of_In].
Qed.
End Read.

(** * The messages *)

Section Messages.
Context {EN : Environment}.
Context (mac : bytes) (Hmac : length mac = 6%nat) (Hmodel : product_model <> []).

Lemma readable_value code v : 0 < code < END_OPTION -> code <> OPTION_OVERLOAD_OPTION -> code <> TIME_OFFSET_OPTION ->
  0 < GetDhcpOptionDataLen code -> readable (value_option code v).
Proof using All.
  intros Hc Ho Ht Hn. split; [by apply wf_value|]. split; [done|]. cbn [value_option snd]. rewrite length_take.
  assert (H : (0 < length (value_bytes (GetDhcpOptionDataLen code) v))%nat)
    by (unfold value_bytes; repeat (destruct (_ =? _); [cbn; lia|]); cbn; lia). lia.
Qed.

Lemma readable_host : Forall readable host_options.
Proof using All.
  assert (H : forall code v, 0 < code < END_OPTION -> code <> OPTION_OVERLOAD_OPTION -> code <> TIME_OFFSET_OPTION -> v <> [] ->
    Forall readable (text_option code v)).
  { intros code v Hc Ho Ht Hv. pose proof (wf_text code v Hc Ho) as Hw. revert Hw. unfold text_option.
    destruct (_ <? _)%nat; intros Hw; [done|]. apply Forall_singleton. apply Forall_inv in Hw. split; [done|]. split; [done|].
    destruct v; [done|cbn; lia]. }
  apply Forall_app. split; by apply H.
Qed.

Lemma readable_client_id : readable (client_id mac).
Proof using All. split; [by apply wf_client_id|]. split; [done|cbn; lia]. Qed.

Lemma readable_request_list : readable request_list.
Proof using All. split; [apply wf_request_list|]. split; [done|cbn; lia]. Qed.

Lemma discover_readable : Forall readable (discover_options mac) /\ (length (encs (discover_options mac)) <= 244)%nat.
Proof using All.
  split.
  - unfold discover_options. repeat first [apply readable_host | apply Forall_app; split | apply Forall_cons; split
      | apply Forall_nil_2 | apply readable_client_id | apply readable_request_list | by apply readable_value].
  - enough (length (encs (discover_options mac)) < 245)%nat by lia. options_room.
Qed.

Lemma request_readable ip server : Forall readable (request_options mac ip server) /\
  (length (encs (request_options mac ip server)) <= 244)%nat.
Proof using All.
  split.
  - unfold request_options. repeat first [apply readable_host | apply Forall_app; split | apply Forall_cons; split
      | apply Forall_nil_2 | apply readable_client_id | apply readable_request_list | by apply readable_value].
  - enough (length (encs (request_options mac ip server)) < 245)%nat by lia. options_room.
Qed.

Lemma host_has code : code <> VENDOR_CLASS_IDENTIFIER_OPTION -> code <> HOST_NAME_OPTION -> value_in host_options code = None.
Proof using All.
  intros H1 H2. unfold host_options. rewrite value_in_app.
  assert (H : forall c v, code <> c -> value_in (text_option c v) code = None).
  { intros c v Hc. unfold text_option. destruct (_ <? _)%nat; [done|]. cbn. by rewrite (proj2 (Z.eqb_neq c code)) by congruence. }
  by rewrite !H.
Qed.

Lemma request_values ip server :
  value_in (request_options mac ip server) DHCP_MESSAGE_TYPE_OPTION = Some [DHCP_REQUEST] /\
  value_in (request_options mac ip server) REQUESTED_IP_ADDRESS_OPTION = Some (le32 ip) /\
  value_in (request_options mac ip server) SERVER_IDENTIFIER_OPTION = Some (le32 server).
Proof using All.
  unfold request_options. rewrite !value_in_app, !host_has by done. by split_and!.
Qed.
End Messages.

(** * The exchange *)

Section Exchange.
Context {PF : Platform} {IT : InetText} {NW : Network} {EN : Environment}.
Context (mac : bytes) (Hmac : length mac = 6%nat) (Hmodel : product_model <> []).

(** The DISCOVER and the REQUEST of the client as the server decodes them. *)
Definition discover_received (xid secs : Z) (m0 m : DhcpMsgInfo) : Prop :=
  ParseMessageOptions (received mac xid secs 0 (discover_options mac) m0) = Some (RET_SUCCESS, m).
Definition request_received (xid secs ip server : Z) (m0 m : DhcpMsgInfo) : Prop :=
  ParseMessageOptions (received mac xid secs 0 (request_options mac ip server) m0) = Some (RET_SUCCESS, m).

Lemma type_of ts t m : options m = map to_option ts -> value_in ts DHCP_MESSAGE_TYPE_OPTION = Some [t] ->
  exists o, opts_get (options m) DHCP_MESSAGE_TYPE_OPTION = Some o /\ length_ o = 1 /\ byte_at (data o) 0 = t.
Proof using Type. intros -> Hv. eexists. rewrite opts_get_to_option, Hv. by split. Qed.

Lemma dispatch_discover xid secs m0 m : discover_received xid secs m0 m -> is_u32 xid -> is_u16 secs -> options m0 = [] ->
  MessageProcess m = OnReceivedDiscover m /\ mac_of m = pad 16 mac.
Proof using All.
  intros E Hx Hs H0. destruct (discover_readable mac Hmac Hmodel) as [Hts Hroom].
  destruct (server_reads mac xid secs 0 _ Hmac Hts Hroom Hx Hs ltac:(done) m0 H0) as (m' & E' & Eo & _ & _ & _ & Ec & _).
  unfold discover_received in E. rewrite E in E'. injection E' as <-. split; [|done].
  destruct (type_of _ DHCP_DISCOVER m Eo) as (o & Eg & El & Et); [done|].
  unfold MessageProcess. by rewrite Eg, El, Et.
Qed.

Lemma dispatch_request xid secs ip server m0 m : request_received xid secs ip server m0 m -> is_u32 xid -> is_u16 secs ->
  is_u32 ip -> is_u32 server -> options m0 = [] ->
  MessageProcess m = OnReceivedRequest m /\ mac_of m = pad 16 mac /\ Forall decoded (options m) /\ ciaddr (packet m) = 0 /\
  GetRequestIpAddress m = ip /\ forall pl, serverId pl = server -> for_server m pl.
Proof using All.
  intros E Hx Hs Hi Hv H0. destruct (request_readable mac Hmac Hmodel ip server) as [Hts Hroom].
  destruct (server_reads mac xid secs 0 _ Hmac Hts Hroom Hx Hs ltac:(done) m0 H0) as (m' & E' & Eo & _ & _ & _ & Ec & Eci).
  unfold request_received in E. rewrite E in E'. injection E' as <-.
  destruct (request_values mac Hmac Hmodel ip server) as (V1 & V2 & V3).
  destruct (type_of _ _ m Eo V1) as (o & Eg & El & Et). split_and!; try done.
  - unfold MessageProcess. by rewrite Eg, El, Et.
  - rewrite Eo. apply Forall_map. eapply Forall_impl; [exact Hts|]. apply decoded_to_option.
  - unfold GetRequestIpAddress. rewrite Eo, opts_get_to_option, V2. by apply ParseIp_option.
  - intros pl Hpl. unfold for_server. rewrite Eo, opts_get_to_option, V3. cbn [fmap option_fmap option_map].
    by rewrite ParseIp_option.
Qed.

End Exchange.

