(* ===== verification/V6Message.v ===== *)
(** The messages of the DHCPv6 client
    (src/services/dhcp_v6_client/src/dhcp_v6_message.cpp and its header): the
    options and the seven messages it builds, and the decoding of a datagram, of
    an ADVERTISE and of a REPLY.

    A vector of bytes is a list; [None] is an access outside of it, or a loop
    that has not ended within its fuel.  A reference parameter is an argument
    and a result.  The conversions of IPv6 addresses are the C library's
    ([Inet6Text]); a clock reading and the random numbers a message takes are
    given to the function that builds it ([Fresh]). *)
From S2P Require Import Prelude AddressUtils ClientOptions.

Definition SOLICIT : Z := 1.
Definition ADVERTISE : Z := 2.
Definition REQUEST : Z := 3.
Definition CONFIRM : Z := 4.
Definition RENEW : Z := 5.
Definition REBIND : Z := 6.
Definition REPLY : Z := 7.
Definition RELEASE : Z := 8.
Definition DECLINE : Z := 9.
Definition RECONFIGURE : Z := 10.
Definition INFORMATION_REQUEST : Z := 11.
Definition RELAY_FORW : Z := 12.
Definition RELAY_REPL : Z := 13.

Definition OPTION_CLIENTID : Z := 1.
Definition OPTION_SERVERID : Z := 2.
Definition OPTION_IA_NA : Z := 3.
Definition OPTION_IAADDR : Z := 5.
Definition OPTION_ORO : Z := 6.
Definition OPTION_PREFERENCE : Z := 7.
Definition OPTION_ELAPSED_TIME : Z := 8.
Definition OPTION_STATUS_CODE : Z := 13.
Definition OPTION_DNS_SERVERS : Z := 23.
Definition OPTION_DOMAIN_LIST : Z := 24.

Definition STATUS_SUCCESS : Z := 0.
Definition STATUS_UNSPEC_FAIL : Z := 1.

Definition DHCPV6_MSG_HEADER_LEN : Z := 4.
Definition DHCPV6_OPTION_HDR_LEN : Z := 4.
Definition DHCPV6_IA_NA_HDR_LEN : Z := 12.
Definition DHCPV6_IAADDR_LEN : Z := 24.
Definition DHCPV6_IPV6_ADDR_LEN : Z := 16.
Definition DHCPV6_DEFAULT_IAID : Z := 1.
Definition DHCPV6_OPTION_CODE_LEN : Z := 2.
Definition DHCPV6_STATUS_CODE_HDR_LEN : Z := 2.
Definition DHCPV6_OPTION_CODE_OFFSET : Z := 2.
Definition DHCPV6_OPTION_CODE_SECOND_BYTE_OFFSET : Z := 1.
Definition DHCPV6_OPTION_LEN_SECOND_BYTE_OFFSET : Z := 3.
Definition DHCPV6_IA_NA_HDR_IAID_IDX : Z := 0.
Definition DHCPV6_IA_NA_HDR_T1_IDX : Z := 4.
Definition DHCPV6_IA_NA_HDR_T2_IDX : Z := 8.
Definition DHCPV6_IAADDR_PREF_LIFETIME_IDX : Z := DHCPV6_IPV6_ADDR_LEN.
Definition DHCPV6_IAADDR_VALID_LIFETIME_IDX : Z := DHCPV6_IPV6_ADDR_LEN + 4.
Definition DUID_TYPE_LLT : Z := 1.
Definition HARDWARE_TYPE_ETHERNET : Z := 1.
Definition BYTE_MASK : Z := 0xFF.
Definition UINT32_NUM_BYTES : Z := 4.
Definition SHIFT_8 : Z := 8.
Definition SHIFT_16 : Z := 16.
Definition SHIFT_24 : Z := 24.
Definition MAX_OPTIONS_PER_MESSAGE : Z := 64.
Definition MAX_DUID_LENGTH : Z := 128.
Definition MAX_IA_NA_OPTIONS : Z := 8.
Definition MAX_DNS_SERVERS : Z := 16.
Definition MAX_STATUS_MESSAGE_LENGTH : Z := 1024.
Definition IAADDR_MIN_LEN : Z := 24.
Definition MAX_TRANSACTION_ID : Z := 0xFFFFFF.
Definition DHCPV6_MAC_LEN : Z := 6.

Record DhcpV6Config := mkConfig {
  clientId : bytes; cfg_serverId : bytes; cfg_transactionId : Z; requestedOptions : list Z; stateless : bool;
  cfg_ipv6Addresses : list bytes; cfg_preferredLifetime : Z; cfg_validLifetime : Z
}.

Record DhcpV6Advertise := mkAdvertise {
  serverId : bytes; preference : Z; ipv6Addresses : list bytes; iaid : Z; t1 : Z; t2 : Z;
  preferredLifetime : Z; validLifetime : Z; dnsServers : list bytes; statusCode : Z; statusMessage : bytes
}.
(** [DhcpV6Advertise adv;]: its member initialisers. *)
Definition empty_advertise : DhcpV6Advertise := mkAdvertise [] 0 [] 0 0 0 0 0 [] STATUS_SUCCESS [].

Record DhcpV6Option := mkV6Option { code : Z; length_ : Z; data : bytes }.
Record DhcpV6MessageInfo := mkInfo { msgType : Z; transactionId : Z; options : list DhcpV6Option }.
Definition empty_info : DhcpV6MessageInfo := mkInfo 0 0 [].

(** Assignments to a member of a [DhcpV6Advertise]. *)
Definition set_serverId (v : bytes) (a : DhcpV6Advertise) : DhcpV6Advertise :=
  mkAdvertise v (preference a) (ipv6Addresses a) (iaid a) (t1 a) (t2 a) (preferredLifetime a) (validLifetime a)
    (dnsServers a) (statusCode a) (statusMessage a).
Definition set_preference (v : Z) (a : DhcpV6Advertise) : DhcpV6Advertise :=
  mkAdvertise (serverId a) v (ipv6Addresses a) (iaid a) (t1 a) (t2 a) (preferredLifetime a) (validLifetime a)
    (dnsServers a) (statusCode a) (statusMessage a).
Definition set_addresses (v : list bytes) (a : DhcpV6Advertise) : DhcpV6Advertise :=
  mkAdvertise (serverId a) (preference a) v (iaid a) (t1 a) (t2 a) (preferredLifetime a) (validLifetime a)
    (dnsServers a) (statusCode a) (statusMessage a).
Definition set_ia (i x1 x2 : Z) (a : DhcpV6Advertise) : DhcpV6Advertise :=
  mkAdvertise (serverId a) (preference a) (ipv6Addresses a) i x1 x2 (preferredLifetime a) (validLifetime a)
    (dnsServers a) (statusCode a) (statusMessage a).
Definition set_lifetimes (pref valid : Z) (a : DhcpV6Advertise) : DhcpV6Advertise :=
  mkAdvertise (serverId a) (preference a) (ipv6Addresses a) (iaid a) (t1 a) (t2 a) pref valid
    (dnsServers a) (statusCode a) (statusMessage a).
Definition set_dnsServers (v : list bytes) (a : DhcpV6Advertise) : DhcpV6Advertise :=
  mkAdvertise (serverId a) (preference a) (ipv6Addresses a) (iaid a) (t1 a) (t2 a) (preferredLifetime a)
    (validLifetime a) v (statusCode a) (statusMessage a).
Definition set_status (c : Z) (m : bytes) (a : DhcpV6Advertise) : DhcpV6Advertise :=
  mkAdvertise (serverId a) (preference a) (ipv6Addresses a) (iaid a) (t1 a) (t2 a) (preferredLifetime a)
    (validLifetime a) (dnsServers a) c m.

(** [inet_pton] and [inet_ntop] for AF_INET6: sixteen bytes. *)
Class Inet6Text := { inet6_pton : bytes -> option bytes; inet6_ntop : bytes -> bytes }.
Class Inet6TextLaws (I : Inet6Text) := {
  inet6_pton_wf : forall s a, inet6_pton s = Some a -> length a = 16%nat /\ Forall is_u8 a;
  inet6_pton_ntop : forall a, length a = 16%nat -> Forall is_u8 a -> inet6_pton (inet6_ntop a) = Some a;
  inet6_ntop_text : forall a, length a = 16%nat -> Forall is_u8 a ->
    (length (inet6_ntop a) < 46)%nat /\ Forall (fun c => is_u8 c /\ c <> 0) (inet6_ntop a)
}.

(** What a message takes from outside: the seconds of the clock, six random
    bytes, a random transaction identifier, and the hardware address read from
    the text of GetLocalMac, when there is one. *)
Record Fresh := mkFresh { fresh_seconds : Z; random_mac : bytes; random_id : Z }.
Record fresh_wf (f : Fresh) : Prop := {
  fresh_mac_length : length (random_mac f) = 6%nat;
  fresh_mac_bytes : Forall is_u8 (random_mac f);
  fresh_id_range : 1 <= random_id f <= MAX_TRANSACTION_ID
}.

(** The bytes of a 16-bit and of a 32-bit number, in network order. *)
Definition be16 (v : Z) : bytes := [Z.land (Z.shiftr v SHIFT_8) BYTE_MASK; Z.land v BYTE_MASK].
Definition be32 (v : Z) : bytes :=
  [Z.land (Z.shiftr v SHIFT_24) BYTE_MASK; Z.land (Z.shiftr v SHIFT_16) BYTE_MASK;
   Z.land (Z.shiftr v SHIFT_8) BYTE_MASK; Z.land v BYTE_MASK].

(** [data.size()]. *)
Definition size (l : bytes) : Z := Z.of_nat (length l).

(** [(data[i] << 8) | data[i + 1]], stored in a [uint16_t]. *)
Definition read16 (data : bytes) (offset : Z) : option Z :=
  a ← rd data offset; b ← rd data (offset + DHCPV6_OPTION_CODE_SECOND_BYTE_OFFSET);
  Some (u16 (Z.lor (Z.shiftl a SHIFT_8) b)).

Definition ParseUint32FromBytes (data : bytes) (offset : Z) : option Z :=
  if offset + UINT32_NUM_BYTES >? size data then Some 0
  else
    a ← rd data offset; b ← rd data (offset + 1); c ← rd data (offset + 2); d ← rd data (offset + 3);
    Some (Z.lor (Z.lor (Z.lor (u32 (Z.shiftl a SHIFT_24)) (Z.shiftl b SHIFT_16)) (Z.shiftl c SHIFT_8)) d).

(** * Building *)

Section Build.
Context {I6 : Inet6Text}.

Definition GenerateTransactionId (f : Fresh) : Z := random_id f.

(** [iface_mac]: the bytes read from the text of GetLocalMac, when the interface
    has a name, GetLocalMac succeeds and sscanf_s reads six. *)
Definition GenerateDuid (f : Fresh) (iface_mac : option bytes) : bytes :=
  let duid := [DUID_TYPE_LLT] ++ be16 HARDWARE_TYPE_ETHERNET in
  let time := u32 (fresh_seconds f) in
  let duid := duid ++ be32 time in
  match iface_mac with
  | Some bytes_ => duid ++ map u8 bytes_
  | None => duid ++ random_mac f
  end.

Definition BuildIdOption (code : Z) (duid : bytes) : DhcpV6Option := mkV6Option code (u16 (size duid)) duid.
Definition BuildClientIdOption (duid : bytes) : DhcpV6Option := BuildIdOption OPTION_CLIENTID duid.
Definition BuildServerIdOption (duid : bytes) : DhcpV6Option := BuildIdOption OPTION_SERVERID duid.

(** An option with its length set from its data. *)
Definition sized (code : Z) (data : bytes) : DhcpV6Option := mkV6Option code (u16 (size data)) data.

Definition BuildIaNaOption (iaid t1 t2 : Z) : DhcpV6Option :=
  sized OPTION_IA_NA (be32 iaid ++ be32 t1 ++ be32 t2).

(** The vector of 24 zeros, of which [memcpy_s] overwrites the address when the
    text is one. *)
Definition BuildIaAddrOption (ipv6Addr : bytes) (preferredLifetime validLifetime : Z) : DhcpV6Option :=
  let address := match inet6_pton (c_str ipv6Addr) with Some addr => addr | None => zeros 16 end in
  sized OPTION_IAADDR (address ++ be32 preferredLifetime ++ be32 validLifetime).

(** An option as it stands in a message. *)
Definition option_bytes (option : DhcpV6Option) : bytes :=
  be16 (code option) ++ be16 (length_ option) ++ data option.

Definition append_addresses (addresses : list bytes) (preferredLifetime validLifetime : Z) (data : bytes) : bytes :=
  data ++ concat (map (fun addr => option_bytes (BuildIaAddrOption addr preferredLifetime validLifetime)) addresses).

Definition BuildIaNaOptionWithAddresses (iaid t1 t2 : Z) (addresses : list bytes)
    (preferredLifetime validLifetime : Z) : DhcpV6Option :=
  let option := BuildIaNaOption iaid t1 t2 in
  sized (code option) (append_addresses addresses preferredLifetime validLifetime (data option)).

Definition BuildElapsedTimeOption (elapsedTime : Z) : DhcpV6Option := sized OPTION_ELAPSED_TIME (be16 elapsedTime).
Definition BuildOptionRequestOption (optionCodes : list Z) : DhcpV6Option :=
  sized OPTION_ORO (concat (map be16 optionCodes)).

Definition BuildMessage (msgType transactionId : Z) (options : list DhcpV6Option) : bytes :=
  [msgType; Z.land (Z.shiftr transactionId SHIFT_16) BYTE_MASK; Z.land (Z.shiftr transactionId SHIFT_8) BYTE_MASK;
   Z.land transactionId BYTE_MASK] ++ concat (map option_bytes options).

(** [config.clientId.empty() ? GenerateDuid() : config.clientId], and the same
    for the transaction. *)
Definition client_duid (f : Fresh) (config : DhcpV6Config) : bytes :=
  match clientId config with [] => GenerateDuid f None | duid => duid end.
Definition transaction_of (f : Fresh) (config : DhcpV6Config) : Z :=
  if truthy (cfg_transactionId config) then cfg_transactionId config else GenerateTransactionId f.

Definition requested_options : list Z := [OPTION_DNS_SERVERS; OPTION_DOMAIN_LIST].

Definition BuildSolicitMessage (f : Fresh) (config : DhcpV6Config) : bytes :=
  let options := [BuildClientIdOption (client_duid f config)] in
  let options := options ++ [BuildElapsedTimeOption 0] in
  let options := if negb (stateless config) then options ++ [BuildIaNaOption DHCPV6_DEFAULT_IAID 0 0] else options in
  let options := options ++ [BuildOptionRequestOption requested_options] in
  BuildMessage SOLICIT (transaction_of f config) options.

Definition BuildRequestMessage (f : Fresh) (config : DhcpV6Config) (advertise : DhcpV6Advertise) : bytes :=
  let options :=
    [BuildClientIdOption (client_duid f config);
     BuildServerIdOption (serverId advertise);
     BuildElapsedTimeOption 0;
     BuildIaNaOptionWithAddresses DHCPV6_DEFAULT_IAID (t1 advertise) (t2 advertise) (ipv6Addresses advertise)
       (preferredLifetime advertise) (validLifetime advertise);
     BuildOptionRequestOption requested_options] in
  BuildMessage REQUEST (transaction_of f config) options.

Definition BuildRenewMessage (f : Fresh) (config : DhcpV6Config) : bytes :=
  let options :=
    [BuildClientIdOption (client_duid f config);
     BuildServerIdOption (cfg_serverId config);
     BuildElapsedTimeOption 0;
     BuildIaNaOptionWithAddresses DHCPV6_DEFAULT_IAID 0 0 (cfg_ipv6Addresses config)
       (cfg_preferredLifetime config) (cfg_validLifetime config)] in
  BuildMessage RENEW (transaction_of f config) options.

Definition BuildRebindMessage (f : Fresh) (config : DhcpV6Config) : bytes :=
  let options :=
    [BuildClientIdOption (client_duid f config);
     BuildElapsedTimeOption 0;
     BuildIaNaOptionWithAddresses DHCPV6_DEFAULT_IAID 0 0 (cfg_ipv6Addresses config)
       (cfg_preferredLifetime config) (cfg_validLifetime config)] in
  BuildMessage REBIND (transaction_of f config) options.

Definition BuildReleaseMessage (f : Fresh) (config : DhcpV6Config) : bytes :=
  let options :=
    [BuildClientIdOption (client_duid f config);
     BuildServerIdOption (cfg_serverId config);
     BuildIaNaOption DHCPV6_DEFAULT_IAID 0 0] in
  BuildMessage RELEASE (transaction_of f config) options.

Definition BuildDeclineMessage (f : Fresh) (config : DhcpV6Config) (declinedAddrs : list bytes) : bytes :=
  let iaNaData := [0; 0; 0; DHCPV6_DEFAULT_IAID; 0; 0; 0; 0; 0; 0; 0; 0] in
  let iaNaData := append_addresses declinedAddrs 0 0 iaNaData in
  let options :=
    [BuildClientIdOption (client_duid f config);
     BuildServerIdOption (cfg_serverId config);
     sized OPTION_IA_NA iaNaData] in
  BuildMessage DECLINE (GenerateTransactionId f) options.

Definition BuildInformationRequestMessage (f : Fresh) (config : DhcpV6Config) : bytes :=
  let options :=
    [BuildClientIdOption (client_duid f config);
     BuildElapsedTimeOption 0;
     BuildOptionRequestOption requested_options] in
  BuildMessage INFORMATION_REQUEST (transaction_of f config) options.

End Build.

(** * Parsing *)

(** The loop over the options: the offset where it ends, or [None] when it
    returns [false], and the options found. *)
Fixpoint ParseV6Message_loop (fuel : nat) (data : bytes) (offset : Z) (options : list DhcpV6Option)
  : option (option Z * list DhcpV6Option) :=
  match fuel with
  | O => None
  | S fuel =>
      if offset + DHCPV6_OPTION_HDR_LEN <=? size data then
        code ← read16 data offset;
        let lenOffset := offset + DHCPV6_OPTION_CODE_OFFSET in
        length ← read16 data lenOffset;
        let offset := offset + DHCPV6_OPTION_HDR_LEN in
        if (length >? size data) || (offset >? size data - length) then Some (None, options)
        else
          content ← rd_n data offset length;
          ParseV6Message_loop fuel data (offset + length) (options ++ [mkV6Option code length content])
      else Some (Some offset, options)
  end.

Definition ParseV6Message (data : bytes) (message : DhcpV6MessageInfo) : option (bool * DhcpV6MessageInfo) :=
  if size data <? DHCPV6_MSG_HEADER_LEN then Some (false, message)
  else
    msgType ← rd data 0;
    if (msgType =? 0) || (msgType >? RELAY_REPL) then Some (false, message)
    else
      a ← rd data 1; b ← rd data 2; c ← rd data 3;
      let transactionId := Z.lor (Z.lor (Z.shiftl a SHIFT_16) (Z.shiftl b SHIFT_8)) c in
      '(offset, options) ← ParseV6Message_loop (S (length data)) data DHCPV6_MSG_HEADER_LEN [];
      let message := mkInfo msgType transactionId options in
      match offset with
      | None => Some (false, message)
      | Some offset => if negb (offset =? size data) then Some (false, message) else Some (true, message)
      end.

Section Parse.
Context {I6 : Inet6Text}.

Definition ParseClientIdOption (option : DhcpV6Option) (duid : bytes) : bool * bytes :=
  if size (data option) >? MAX_DUID_LENGTH then (false, duid) else (true, data option).
Definition ParseServerIdOption (option : DhcpV6Option) (duid : bytes) : bool * bytes :=
  if size (data option) >? MAX_DUID_LENGTH then (false, duid) else (true, data option).

Definition UpdateMinLifetime (current candidate : Z) : Z :=
  if (current =? 0) || (candidate <? current) then candidate else current.

(** Returns whether the option is long enough, and the address, preferred and
    valid lifetime; [inet_ntop] has a buffer of INET6_ADDRSTRLEN bytes and does
    not fail. *)
Definition ParseIaAddrOption (opt : DhcpV6Option) (ipv6Addr : bytes) (preferredLifetime validLifetime : Z)
  : option (bool * (bytes * Z * Z)) :=
  if size (data opt) <? DHCPV6_IAADDR_LEN then Some (false, (ipv6Addr, preferredLifetime, validLifetime))
  else
    addr ← rd_n (data opt) 0 DHCPV6_IPV6_ADDR_LEN;
    pref ← ParseUint32FromBytes (data opt) DHCPV6_IAADDR_PREF_LIFETIME_IDX;
    valid ← ParseUint32FromBytes (data opt) DHCPV6_IAADDR_VALID_LIFETIME_IDX;
    Some (true, (inet6_ntop addr, pref, valid)).

(** [addrCount] has been counted before [offset]. *)
Fixpoint ParseIaNaSubOptions_loop (fuel : nat) (data : bytes) (offset addrCount : Z) (adv : DhcpV6Advertise)
  : option (bool * DhcpV6Advertise) :=
  match fuel with
  | O => None
  | S fuel =>
      if offset + DHCPV6_OPTION_HDR_LEN <=? size data then
        subCode ← read16 data offset;
        subLen ← read16 data (offset + DHCPV6_OPTION_CODE_OFFSET);
        let offset := offset + DHCPV6_OPTION_HDR_LEN in
        if offset + subLen >? size data then Some (false, adv)
        else if (subCode =? OPTION_IAADDR) && (subLen >=? IAADDR_MIN_LEN) then
          if addrCount >=? MAX_IA_NA_OPTIONS then Some (true, adv)
          else
            content ← rd_n data offset subLen;
            '(ok, (ip, pref, valid)) ← ParseIaAddrOption (mkV6Option OPTION_IAADDR subLen content) [] 0 0;
            if ok : bool then
              ParseIaNaSubOptions_loop fuel data (offset + subLen) (addrCount + 1)
                (set_lifetimes (UpdateMinLifetime (preferredLifetime adv) pref)
                   (UpdateMinLifetime (validLifetime adv) valid)
                   (set_addresses (ipv6Addresses adv ++ [ip]) adv))
            else ParseIaNaSubOptions_loop fuel data (offset + subLen) addrCount adv
        else ParseIaNaSubOptions_loop fuel data (offset + subLen) addrCount adv
      else Some (true, adv)
  end.
Definition ParseIaNaSubOptions (data : bytes) (adv : DhcpV6Advertise) : option (bool * DhcpV6Advertise) :=
  ParseIaNaSubOptions_loop (S (length data)) data DHCPV6_IA_NA_HDR_LEN 0 adv.

Definition ParseIaNaOption (opt : DhcpV6Option) (adv : DhcpV6Advertise) : option (bool * DhcpV6Advertise) :=
  if size (data opt) <? DHCPV6_IA_NA_HDR_LEN then Some (false, adv)
  else
    iaid ← ParseUint32FromBytes (data opt) DHCPV6_IA_NA_HDR_IAID_IDX;
    t1 ← ParseUint32FromBytes (data opt) DHCPV6_IA_NA_HDR_T1_IDX;
    t2 ← ParseUint32FromBytes (data opt) DHCPV6_IA_NA_HDR_T2_IDX;
    ParseIaNaSubOptions (data opt) (set_lifetimes 0 0 (set_ia iaid t1 t2 adv)).

Fixpoint ParseDnsServersOption_loop (fuel : nat) (data : bytes) (offset serverCount : Z) (dnsServers : list bytes)
  : option (list bytes) :=
  match fuel with
  | O => None
  | S fuel =>
      if offset + DHCPV6_IPV6_ADDR_LEN <=? size data then
        if serverCount >=? MAX_DNS_SERVERS then Some dnsServers
        else
          addr ← rd_n data offset DHCPV6_IPV6_ADDR_LEN;
          ParseDnsServersOption_loop fuel data (offset + DHCPV6_IPV6_ADDR_LEN) (serverCount + 1)
            (dnsServers ++ [inet6_ntop addr])
      else Some dnsServers
  end.
Definition ParseDnsServersOption (opt : DhcpV6Option) (dnsServers : list bytes) : option (list bytes) :=
  ParseDnsServersOption_loop (S (length (data opt))) (data opt) 0 0 dnsServers.

Definition ParseStatusCodeOption (opt : DhcpV6Option) (statusCode : Z) (statusMessage : bytes)
  : option (bool * (Z * bytes)) :=
  if size (data opt) <? DHCPV6_STATUS_CODE_HDR_LEN then Some (false, (statusCode, statusMessage))
  else
    statusCode ← read16 (data opt) 0;
    if size (data opt) >? DHCPV6_STATUS_CODE_HDR_LEN then
      let msgLen := size (data opt) - DHCPV6_STATUS_CODE_HDR_LEN in
      let msgLen := if msgLen >? MAX_STATUS_MESSAGE_LENGTH then MAX_STATUS_MESSAGE_LENGTH else msgLen in
      statusMessage ← rd_n (data opt) DHCPV6_STATUS_CODE_HDR_LEN msgLen;
      Some (true, (statusCode, statusMessage))
    else Some (true, (statusCode, statusMessage)).

(** The cases of the switch in ParseReplyOptions. *)
Definition parse_reply_option (opt : DhcpV6Option) (adv : DhcpV6Advertise) : option DhcpV6Advertise :=
  if code opt =? OPTION_SERVERID then Some (set_serverId (snd (ParseServerIdOption opt (serverId adv))) adv)
  else if code opt =? OPTION_PREFERENCE then
    if size (data opt) >=? 1 then p ← rd (data opt) 0; Some (set_preference p adv) else Some adv
  else if code opt =? OPTION_IA_NA then
    '(ok, adv) ← ParseIaNaOption opt adv;
    Some (if negb ok then set_status STATUS_UNSPEC_FAIL (statusMessage adv) adv else adv)
  else if code opt =? OPTION_DNS_SERVERS then
    dns ← ParseDnsServersOption opt (dnsServers adv); Some (set_dnsServers dns adv)
  else if code opt =? OPTION_STATUS_CODE then
    '(_, (c, m)) ← ParseStatusCodeOption opt (statusCode adv) (statusMessage adv); Some (set_status c m adv)
  else Some adv.

Fixpoint ParseReplyOptions_loop (options : list DhcpV6Option) (optionCount : Z) (adv : DhcpV6Advertise)
  : option DhcpV6Advertise :=
  match options with
  | [] => Some adv
  | opt :: r =>
      let optionCount := optionCount + 1 in
      if optionCount >? MAX_OPTIONS_PER_MESSAGE then Some adv
      else adv ← parse_reply_option opt adv; ParseReplyOptions_loop r optionCount adv
  end.
Definition ParseReplyOptions (options : list DhcpV6Option) (adv : DhcpV6Advertise) : option DhcpV6Advertise :=
  ParseReplyOptions_loop options 0 adv.

Definition ParseV6Advertise (data : bytes) (advertise : DhcpV6Advertise) : option (bool * DhcpV6Advertise) :=
  '(ok, info) ← ParseV6Message data empty_info;
  if negb ok then Some (false, advertise)
  else if negb (msgType info =? ADVERTISE) then Some (false, advertise)
  else
    advertise ← ParseReplyOptions (options info) advertise;
    if negb (statusCode advertise =? STATUS_SUCCESS) then Some (false, advertise) else Some (true, advertise).

Definition ParseV6Reply (data : bytes) (reply : DhcpV6Advertise) : option (bool * DhcpV6Advertise) :=
  '(ok, info) ← ParseV6Message data empty_info;
  if negb ok then Some (false, reply)
  else if negb (msgType info =? REPLY) then Some (false, reply)
  else
    reply ← ParseReplyOptions (options info) reply;
    if negb (statusCode reply =? STATUS_SUCCESS) then Some (false, reply) else Some (true, reply).

End Parse.

(** * Well-formed messages *)

Record option_wf (o : DhcpV6Option) : Prop := {
  option_code : is_u16 (code o);
  option_length : length_ o = size (data o);
  option_fits : is_u16 (size (data o));
  option_data : Forall is_u8 (data o)
}.
Record info_wf (m : DhcpV6MessageInfo) : Prop := {
  info_type : SOLICIT <= msgType m <= RELAY_REPL;
  info_transaction : 0 <= transactionId m < 2 ^ 24;
  info_options : Forall option_wf (options m)
}.

(** * Reading what was written *)

Lemma land_byte v : Z.land v BYTE_MASK = v mod 256.
Proof. unfold BYTE_MASK. change 0xFF with (Z.ones 8). by rewrite Z.land_ones. Qed.

Lemma byte_of v n : 0 <= n -> is_u8 (Z.land (Z.shiftr v n) BYTE_MASK).
Proof. intros. rewrite land_byte. unfold is_u8. apply Z.mod_pos_bound. lia. Qed.

Lemma byte_low v : is_u8 (Z.land v BYTE_MASK).
Proof. rewrite land_byte. unfold is_u8. apply Z.mod_pos_bound. lia. Qed.

Lemma be16_u8 v : Forall is_u8 (be16 v).
Proof. unfold be16, SHIFT_8. repeat constructor; apply byte_of || apply byte_low; lia. Qed.
Lemma be32_u8 v : Forall is_u8 (be32 v).
Proof. unfold be32, SHIFT_8, SHIFT_16, SHIFT_24. repeat (constructor; [apply byte_of || apply byte_low; lia|]). constructor. Qed.
#[export] Hint Resolve be16_u8 be32_u8 : dhcp.

Lemma size_app a b : size (a ++ b) = size a + size b.
Proof. unfold size. rewrite length_app. lia. Qed.
Lemma size_nonneg l : 0 <= size l.
Proof. unfold size. lia. Qed.
Lemma size_cons x l : size (x :: l) = 1 + size l.
Proof. unfold size. cbn [length]. lia. Qed.

Lemma option_bytes_size o : size (option_bytes o) = 4 + size (data o).
Proof. unfold option_bytes. rewrite !size_app. unfold size, be16. cbn [length]. lia. Qed.

Lemma option_bytes_u8 o : Forall is_u8 (data o) -> Forall is_u8 (option_bytes o).
Proof. intros. unfold option_bytes. rewrite !Forall_app. auto with dhcp. Qed.

Lemma rd_at pre x rest i : i = size pre -> rd (pre ++ x :: rest) i = Some x.
Proof.
  intros ->. unfold rd, size. rewrite (proj2 (Z.ltb_ge _ _)) by lia. rewrite Nat2Z.id.
  by apply list_lookup_middle.
Qed.

Lemma rd_off pre l k : 0 <= k -> rd (pre ++ l) (size pre + k) = l !! Z.to_nat k.
Proof.
  intros. unfold rd, size. rewrite (proj2 (Z.ltb_ge _ _)) by lia.
  rewrite lookup_app_r by lia. f_equal. lia.
Qed.

Lemma rd_n_at pre d rest i n : i = size pre -> n = size d -> rd_n (pre ++ d ++ rest) i n = Some d.
Proof.
  intros -> ->. unfold rd_n, size. rewrite !length_app.
  rewrite (proj2 (Z.leb_le 0 _)), (proj2 (Z.leb_le (_ + _) _)) by lia. cbn [andb].
  by rewrite !Nat2Z.id, drop_app_length, take_app_length.
Qed.

(** Two bytes and four bytes as a number. *)
Lemma join16 a b : is_u8 b -> Z.lor (Z.shiftl a SHIFT_8) b = a * 256 + b.
Proof. intros. unfold SHIFT_8. rewrite Z.shiftl_mul_pow2 by lia. by apply lor_add_low. Qed.

Lemma be16_split v : is_u16 v -> be16 v = [v / 256; v mod 256].
Proof.
  unfold is_u16. intros H. unfold be16, SHIFT_8. rewrite !land_byte, Z.shiftr_div_pow2 by lia. change (2 ^ 8) with 256.
  rewrite (Z.mod_small (v / 256)); [done|]. split; [apply Z.div_pos; lia|apply Z.div_lt_upper_bound; lia].
Qed.

Lemma be16_join a b : is_u8 a -> is_u8 b -> be16 (a * 256 + b) = [a; b].
Proof.
  unfold is_u8. intros Ha Hb. rewrite be16_split by (unfold is_u16; lia).
  rewrite Z.div_add_l, Z.div_small, Z.add_0_r by lia. by rewrite (Z.add_comm (a * 256)), Z.mod_add, Z.mod_small by lia.
Qed.

Lemma read16_at pre c rest i : is_u16 c -> i = size pre -> read16 (pre ++ be16 c ++ rest) i = Some c.
Proof.
  intros Hc ->. rewrite be16_split by done. unfold read16. cbn [app].
  rewrite (rd_at pre (c / 256) _ (size pre)) by done. rewrite rd_off by done. rewrite bind_some.
  change ((_ :: ?x :: _) !! Z.to_nat DHCPV6_OPTION_CODE_SECOND_BYTE_OFFSET) with (Some x). rewrite bind_some.
  rewrite join16 by (unfold is_u8; apply Z.mod_pos_bound; lia).
  replace (c / 256 * 256 + c mod 256) with c by (pose proof (Z.div_mod c 256); lia).
  unfold u16. rewrite Z.mod_small; [done|]. done.
Qed.

Lemma join32 a b c d : is_u8 a -> is_u8 b -> is_u8 c -> is_u8 d ->
  Z.lor (Z.lor (Z.lor (u32 (Z.shiftl a SHIFT_24)) (Z.shiftl b SHIFT_16)) (Z.shiftl c SHIFT_8)) d =
  ((a * 256 + b) * 256 + c) * 256 + d.
Proof.
  unfold is_u8, SHIFT_8, SHIFT_16, SHIFT_24. intros Ha Hb Hc Hd. rewrite !Z.shiftl_mul_pow2 by lia.
  rewrite u32_small by (unfold is_u32; lia).
  rewrite (lor_add_low a (b * 2 ^ 16) 24) by lia.
  replace (a * 2 ^ 24 + b * 2 ^ 16) with ((a * 256 + b) * 2 ^ 16) by lia. rewrite lor_add_low by lia.
  replace ((a * 256 + b) * 2 ^ 16 + c * 2 ^ 8) with (((a * 256 + b) * 256 + c) * 2 ^ 8) by lia. rewrite lor_add_low by lia. lia.
Qed.

Lemma be32_digits v : is_u32 v -> exists a b c d, be32 v = [a; b; c; d] /\ is_u8 a /\ is_u8 b /\ is_u8 c /\ is_u8 d /\
  ((a * 256 + b) * 256 + c) * 256 + d = v.
Proof.
  intros H. exists (v / 2 ^ 24 mod 256), (v / 2 ^ 16 mod 256), (v / 2 ^ 8 mod 256), (v mod 256).
  unfold is_u32 in H. split; [unfold be32, SHIFT_8, SHIFT_16, SHIFT_24; by rewrite !land_byte, !Z.shiftr_div_pow2 by lia|].
  split_and!; try (unfold is_u8; apply Z.mod_pos_bound; lia).
  rewrite (Z.mod_small (v / 2 ^ 24)) by (split; [apply Z.div_pos; lia|apply Z.div_lt_upper_bound; lia]).
  replace (v / 2 ^ 24) with (v / 2 ^ 16 / 256) by (rewrite Z.div_div by lia; done).
  replace (v / 2 ^ 16 / 256 * 256 + v / 2 ^ 16 mod 256) with (v / 2 ^ 16) by (pose proof (Z.div_mod (v / 2 ^ 16) 256); lia).
  replace (v / 2 ^ 16) with (v / 2 ^ 8 / 256) by (rewrite Z.div_div by lia; done).
  replace (v / 2 ^ 8 / 256 * 256 + v / 2 ^ 8 mod 256) with (v / 2 ^ 8) by (pose proof (Z.div_mod (v / 2 ^ 8) 256); lia).
  change (2 ^ 8) with 256. pose proof (Z.div_mod v 256). lia.
Qed.

Lemma read32_at pre v rest i : is_u32 v -> i = size pre -> ParseUint32FromBytes (pre ++ be32 v ++ rest) i = Some v.
Proof.
  intros Hv ->. destruct (be32_digits v Hv) as (a & b & c & d & -> & Ha & Hb & Hc & Hd & <-).
  unfold ParseUint32FromBytes. rewrite Z.gtb_ltb, (proj2 (Z.ltb_ge _ _)).
  2:{ rewrite !size_app. unfold UINT32_NUM_BYTES. pose proof (size_nonneg rest). change (size [a; b; c; d]) with 4. lia. }
  change ([a; b; c; d] ++ rest) with (a :: [b; c; d] ++ rest). rewrite (rd_at pre a _ (size pre)) by done. rewrite !rd_off by lia. rewrite bind_some.
  change ((_ :: [?x; _; _] ++ _) !! Z.to_nat 1) with (Some x). rewrite bind_some.
  change ((_ :: [_; ?x; _] ++ _) !! Z.to_nat 2) with (Some x). rewrite bind_some.
  change ((_ :: [_; _; ?x] ++ _) !! Z.to_nat 3) with (Some x). rewrite bind_some. by rewrite join32.
Qed.

(** * Decoding a message *)

(** What follows in a sequence of bytes: less than a header, an option, or a
    header whose length exceeds what is left. *)
Lemma option_view rest : Forall is_u8 rest ->
  size rest < 4 \/
  (exists o rest', option_wf o /\ rest = option_bytes o ++ rest') \/
  (exists c l body, is_u16 c /\ is_u16 l /\ rest = be16 c ++ be16 l ++ body /\ size body < l).
Proof.
  intros H. destruct rest as [|a [|b [|c [|d body]]]]; [left; unfold size; cbn [length]; lia..|right].
  rewrite !Forall_cons in H. destruct H as (Ha & Hb & Hc & Hd & Hbody). unfold is_u8 in Ha, Hb, Hc, Hd.
  assert (is_u16 (a * 256 + b)) by (unfold is_u16; lia). assert (is_u16 (c * 256 + d)) by (unfold is_u16; lia).
  assert (E : a :: b :: c :: d :: body = be16 (a * 256 + b) ++ be16 (c * 256 + d) ++ body).
  { by rewrite !be16_join by (unfold is_u8; lia). }
  destruct (Z_lt_le_dec (size body) (c * 256 + d)) as [?|Hl]; [right; rewrite E; eauto 10|left].
  exists (mkV6Option (a * 256 + b) (c * 256 + d) (take (Z.to_nat (c * 256 + d)) body)), (drop (Z.to_nat (c * 256 + d)) body).
  assert (Hs : size (take (Z.to_nat (c * 256 + d)) body) = c * 256 + d).
  { unfold size in *. rewrite length_take. lia. }
  split; [constructor; cbn [code length_ data]; rewrite ?Hs; auto using Forall_take|].
  unfold option_bytes. cbn [code length_ data]. by rewrite E, <- !app_assoc, take_drop.
Qed.

Lemma header_fits pre c l body : size pre + DHCPV6_OPTION_HDR_LEN <=? size (pre ++ be16 c ++ be16 l ++ body) = true.
Proof. rewrite !size_app. apply Z.leb_le. pose proof (size_nonneg body). change (size (be16 c)) with 2. change (size (be16 l)) with 2. unfold DHCPV6_OPTION_HDR_LEN. lia. Qed.

(** The two numbers in front of an option. *)
Lemma header_at pre c l body : is_u16 c -> is_u16 l ->
  read16 (pre ++ be16 c ++ be16 l ++ body) (size pre) = Some c /\
  read16 (pre ++ be16 c ++ be16 l ++ body) (size pre + DHCPV6_OPTION_CODE_OFFSET) = Some l.
Proof.
  intros Hc Hl. split; [by apply read16_at|]. rewrite app_assoc. apply read16_at; [done|]. by rewrite size_app.
Qed.

Lemma split_option pre o rest : pre ++ option_bytes o ++ rest = pre ++ be16 (code o) ++ be16 (length_ o) ++ data o ++ rest.
Proof. unfold option_bytes. by rewrite <- !app_assoc. Qed.

Lemma content_at pre o rest : option_wf o ->
  rd_n (pre ++ option_bytes o ++ rest) (size pre + DHCPV6_OPTION_HDR_LEN) (length_ o) = Some (data o).
Proof.
  intros Ho. rewrite split_option, !app_assoc, <- (app_assoc _ (data o)). apply rd_n_at; [by rewrite !size_app, <- Z.add_assoc|apply Ho].
Qed.

Lemma option_eta o : mkV6Option (code o) (length_ o) (data o) = o.
Proof. by destruct o. Qed.

Lemma ParseV6Message_loop_step fuel pre o rest acc : option_wf o ->
  ParseV6Message_loop (S fuel) (pre ++ option_bytes o ++ rest) (size pre) acc =
  ParseV6Message_loop fuel ((pre ++ option_bytes o) ++ rest) (size (pre ++ option_bytes o)) (acc ++ [o]).
Proof.
  intros Ho. pose proof (option_length _ Ho) as Hl. pose proof (option_fits _ Ho) as Hf. pose proof (option_code _ Ho) as Hc.
  rewrite <- app_assoc. cbn [ParseV6Message_loop].
  assert (Hs : size (pre ++ option_bytes o ++ rest) = size pre + (4 + length_ o) + size rest).
  { rewrite !size_app, option_bytes_size. lia. }
  pose proof (size_nonneg pre). pose proof (size_nonneg rest). unfold is_u16 in Hf.
  rewrite Hs, (proj2 (Z.leb_le _ _)) by (unfold DHCPV6_OPTION_HDR_LEN; lia).
  rewrite split_option. destruct (header_at pre (code o) (length_ o) (data o ++ rest)) as [-> ->]; [done|by rewrite Hl|].
  rewrite !bind_some. cbv zeta. rewrite !Z.gtb_ltb, !(proj2 (Z.ltb_ge _ _)) by (unfold DHCPV6_OPTION_HDR_LEN; lia). cbn [orb].
  rewrite <- split_option, content_at, bind_some by done. f_equal; [|by rewrite option_eta].
  rewrite size_app, option_bytes_size. unfold DHCPV6_OPTION_HDR_LEN. lia.
Qed.

Lemma ParseV6Message_loop_short fuel pre rest acc : size rest < 4 ->
  ParseV6Message_loop (S fuel) (pre ++ rest) (size pre) acc = Some (Some (size pre), acc).
Proof.
  intros H. cbn [ParseV6Message_loop]. rewrite size_app, (proj2 (Z.leb_gt _ _)); [done|]. unfold DHCPV6_OPTION_HDR_LEN. lia.
Qed.

(** The loop reads the longest sequence of options and stops. *)
Lemma ParseV6Message_loop_spec fuel pre rest acc : Forall is_u8 rest -> (length rest < fuel)%nat ->
  exists os rest', Forall option_wf os /\ rest = concat (map option_bytes os) ++ rest' /\
  ((size rest' < 4 /\ ParseV6Message_loop fuel (pre ++ rest) (size pre) acc = Some (Some (size pre + size rest - size rest'), acc ++ os)) \/
   (size rest' >= 4 /\ ParseV6Message_loop fuel (pre ++ rest) (size pre) acc = Some (None, acc ++ os))).
Proof.
  revert pre rest acc. induction fuel as [|fuel IH]; intros pre rest acc Hr Hf; [lia|].
  destruct (option_view rest Hr) as [Hs|[(o & rest' & Ho & ->)|(c & l & body & Hc & Hl & -> & Hb)]].
  - exists [], rest. split_and!; [done|done|]. left. split; [done|].
    rewrite app_nil_r, ParseV6Message_loop_short by done. do 2 f_equal. f_equal. lia.
  - apply Forall_app in Hr as [_ Hr]. rewrite length_app in Hf.
    assert (length (option_bytes o) = (4 + length (data o))%nat) by (unfold option_bytes, be16; rewrite !length_app; cbn [length]; lia).
    destruct (IH (pre ++ option_bytes o) rest' (acc ++ [o]) Hr) as (os & rest2 & Hos & E & H2); [lia|].
    exists (o :: os), rest2. split_and!; [by constructor|cbn [map concat]; by rewrite E, app_assoc|].
    rewrite ParseV6Message_loop_step by done.
    destruct H2 as [[H2 H3]|[H2 H3]]; [left|right]; (split; [done|]); rewrite H3, <- (app_assoc acc); [|done].
    do 2 f_equal. f_equal. rewrite !size_app. lia.
  - exists [], (be16 c ++ be16 l ++ body). split_and!; [done|done|]. right. rewrite app_nil_r.
    pose proof (size_nonneg body). pose proof (size_nonneg pre). split; [rewrite !size_app; change (size (be16 c)) with 2; change (size (be16 l)) with 2; lia|].
    cbn [ParseV6Message_loop]. rewrite header_fits. destruct (header_at pre c l body Hc Hl) as [-> ->]. rewrite !bind_some. cbv zeta.
    rewrite !size_app, !Z.gtb_ltb. change (size (be16 c)) with 2. change (size (be16 l)) with 2. unfold DHCPV6_OPTION_HDR_LEN.
    destruct (Z.ltb_spec (size pre + (2 + (2 + size body))) l); [done|]. by rewrite (proj2 (Z.ltb_lt _ _)) by lia.
Qed.

Lemma join24 a b c : is_u8 a -> is_u8 b -> is_u8 c ->
  Z.lor (Z.lor (Z.shiftl a SHIFT_16) (Z.shiftl b SHIFT_8)) c = (a * 256 + b) * 256 + c.
Proof.
  unfold is_u8, SHIFT_8, SHIFT_16. intros Ha Hb Hc. rewrite !Z.shiftl_mul_pow2 by lia. rewrite lor_add_low by lia.
  replace (a * 2 ^ 16 + b * 2 ^ 8) with ((a * 256 + b) * 2 ^ 8) by lia. rewrite lor_add_low by lia. lia.
Qed.

Lemma BuildMessage_header a b c t os : is_u8 a -> is_u8 b -> is_u8 c ->
  BuildMessage t ((a * 256 + b) * 256 + c) os = t :: a :: b :: c :: concat (map option_bytes os).
Proof.
  unfold is_u8. intros Ha Hb Hc. unfold BuildMessage, SHIFT_16, SHIFT_8. rewrite !land_byte, !Z.shiftr_div_pow2 by lia.
  change (2 ^ 16) with (256 * 256). change (2 ^ 8) with 256. rewrite <- Z.div_div by lia.
  assert (E : forall x y, 0 <= y < 256 -> (x * 256 + y) / 256 = x).
  { intros. rewrite Z.div_add_l, Z.div_small by lia. lia. }
  assert (E' : forall x y, 0 <= y < 256 -> (x * 256 + y) mod 256 = y).
  { intros. rewrite Z.add_comm, Z.mod_add, Z.mod_small by lia. done. }
  by rewrite !E, !E', (Z.mod_small a) by lia.
Qed.

Lemma transaction_digits x : 0 <= x < 2 ^ 24 -> exists a b c, is_u8 a /\ is_u8 b /\ is_u8 c /\ x = (a * 256 + b) * 256 + c.
Proof.
  intros H. exists (x / 256 / 256), (x / 256 mod 256), (x mod 256). unfold is_u8.
  assert (0 <= x / 256 / 256 < 256).
  { rewrite Z.div_div by lia. split; [apply Z.div_pos; lia|apply Z.div_lt_upper_bound; lia]. }
  split_and!; try apply Z.mod_pos_bound; try lia. pose proof (Z.div_mod (x / 256) 256). pose proof (Z.div_mod x 256). lia.
Qed.

Lemma options_u8 os : Forall option_wf os -> Forall is_u8 (concat (map option_bytes os)).
Proof.
  induction 1 as [|o os Ho _ IH]; [constructor|]. cbn [map concat]. apply Forall_app. split; [|done].
  apply option_bytes_u8, Ho.
Qed.

(** The parser on a message with a header of a known type. *)
Lemma ParseV6Message_header t a b c body m0 : is_u8 a -> is_u8 b -> is_u8 c -> SOLICIT <= t <= RELAY_REPL ->
  ParseV6Message (t :: a :: b :: c :: body) m0 =
  '(offset, options) ← ParseV6Message_loop (5 + length body) ([t; a; b; c] ++ body) (size [t; a; b; c]) [];
  let message := mkInfo t ((a * 256 + b) * 256 + c) options in
  match offset with
  | None => Some (false, message)
  | Some offset => if negb (offset =? 4 + size body) then Some (false, message) else Some (true, message)
  end.
Proof.
  unfold SOLICIT, RELAY_REPL. intros Ha Hb Hc Ht.
  assert (Hs : size (t :: a :: b :: c :: body) = 4 + size body) by (rewrite !size_cons; lia).
  unfold ParseV6Message. rewrite Hs, (proj2 (Z.ltb_ge _ _)) by (pose proof (size_nonneg body); unfold DHCPV6_MSG_HEADER_LEN; lia).
  change (rd (t :: a :: b :: c :: body) 0) with (Some t). rewrite bind_some.
  rewrite (proj2 (Z.eqb_neq t 0)), Z.gtb_ltb, (proj2 (Z.ltb_ge _ _)) by (unfold RELAY_REPL; lia). cbn [orb].
  change (rd (t :: a :: b :: c :: body) 1) with (Some a). change (rd (t :: a :: b :: c :: body) 2) with (Some b).
  change (rd (t :: a :: b :: c :: body) 3) with (Some c). by rewrite !bind_some, join24.
Qed.

(** What the parser does with the options, wherever it stops. *)
Lemma ParseV6Message_spec d m0 : Forall is_u8 d ->
  ParseV6Message d m0 = Some (false, m0) \/
  exists t a b c os rest, d = t :: a :: b :: c :: concat (map option_bytes os) ++ rest /\
    is_u8 a /\ is_u8 b /\ is_u8 c /\ SOLICIT <= t <= RELAY_REPL /\ Forall option_wf os /\
    ParseV6Message d m0 = Some (bool_decide (rest = []), mkInfo t ((a * 256 + b) * 256 + c) os).
Proof.
  intros Hd. destruct d as [|t [|a [|b [|c body]]]]; [by left..|].
  rewrite !Forall_cons in Hd. destruct Hd as (Ht & Ha & Hb & Hc & Hbody).
  destruct ((t =? 0) || (t >? RELAY_REPL)) eqn:E.
  { left. unfold ParseV6Message. rewrite !size_cons, (proj2 (Z.ltb_ge _ _)) by (pose proof (size_nonneg body); unfold DHCPV6_MSG_HEADER_LEN; lia).
    change (rd (t :: a :: b :: c :: body) 0) with (Some t). by rewrite bind_some, E. }
  right. assert (Htt : SOLICIT <= t <= RELAY_REPL) by (unfold SOLICIT, RELAY_REPL in *; unfold is_u8 in Ht; btauto_hyps; lia).
  destruct (ParseV6Message_loop_spec (5 + length body) [t; a; b; c] body [] Hbody) as (os & rest & Hos & E2 & H2); [lia|].
  exists t, a, b, c, os, rest. rewrite E2. split_and!; try done; [by apply Htt|by apply Htt|].
  rewrite <- E2, ParseV6Message_header by done. change (size [t; a; b; c]) with 4 in *.
  destruct H2 as [[H2 ->]|[H2 ->]]; rewrite bind_some; cbn [app]; cbv zeta iota.
  2:{ rewrite bool_decide_eq_false_2; [done|]. intros ->. unfold size in H2. cbn [length] in H2. lia. }
  destruct rest as [|x rest].
  - rewrite bool_decide_eq_true_2, (proj2 (Z.eqb_eq _ _)); [done| |done]. change (size []) with 0. lia.
  - rewrite bool_decide_eq_false_2, (proj2 (Z.eqb_neq _ _)); [done| |done]. rewrite (size_cons x). pose proof (size_nonneg rest). lia.
Qed.

Lemma ParseV6Message_accepts d m0 m : Forall is_u8 d ->
  ParseV6Message d m0 = Some (true, m) ->
  info_wf m /\ d = BuildMessage (msgType m) (transactionId m) (options m).
Proof.
  intros Hd E. destruct (ParseV6Message_spec d m0 Hd) as [E2|(t & a & b & c & os & rest & -> & Ha & Hb & Hc & Htt & Hos & E2)];
    rewrite E in E2; [done|]. injection E2 as Er ->. symmetry in Er. apply bool_decide_eq_true in Er as ->. rewrite app_nil_r.
  split; [|by cbn [msgType transactionId options]; rewrite BuildMessage_header].
  constructor; cbn [msgType transactionId options]; [done| |done]. unfold is_u8 in *. lia.
Qed.

Lemma ParseV6Message_loop_builds os fuel pre acc : Forall option_wf os -> (length os < fuel)%nat ->
  ParseV6Message_loop fuel (pre ++ concat (map option_bytes os)) (size pre) acc =
  Some (Some (size pre + size (concat (map option_bytes os))), acc ++ os).
Proof.
  intros H. revert fuel pre acc. induction H as [|o os Ho _ IH]; intros [|fuel] pre acc Hf; cbn [length] in Hf; try lia; cbn [map concat].
  - rewrite ParseV6Message_loop_short by (unfold size; cbn [length]; lia). change (size (concat [])) with 0. by rewrite app_nil_r, Z.add_0_r.
  - rewrite ParseV6Message_loop_step, IH by (done || lia). rewrite <- (app_assoc acc), !size_app. do 3 f_equal. lia.
Qed.

Lemma options_length os : (length os <= length (concat (map option_bytes os)))%nat.
Proof. induction os as [|o os IH]; [done|]. cbn [map concat]. rewrite length_app. pose proof (option_bytes_size o) as E. unfold size in E. cbn [length]. lia. Qed.

Lemma ParseV6Message_builds m0 m : info_wf m ->
  ParseV6Message (BuildMessage (msgType m) (transactionId m) (options m)) m0 = Some (true, m).
Proof.
  intros [Ht Hx Ho]. destruct m as [t x os]. cbn [msgType transactionId options] in *.
  destruct (transaction_digits x Hx) as (a & b & c & Ha & Hb & Hc & ->).
  rewrite BuildMessage_header, ParseV6Message_header by done.
  rewrite ParseV6Message_loop_builds by (done || (pose proof (options_length os); lia)).
  rewrite bind_some. cbv zeta iota. by rewrite (proj2 (Z.eqb_eq _ _)).
Qed.

Lemma ParseV6Message_total d m0 : Forall is_u8 d -> exists ok m, ParseV6Message d m0 = Some (ok, m).
Proof. intros Hd. destruct (ParseV6Message_spec d m0 Hd) as [E|(t & a & b & c & os & rest & _ & _ & _ & _ & _ & _ & E)]; eauto. Qed.

(** * The addresses of an IA_NA option *)

Section Addresses.
Context {I6 : Inet6Text} {L6 : Inet6TextLaws I6}.

(** The sixteen bytes the client writes for a text: zeros for one that is not
    an address. *)
Definition address_of (ipv6Addr : bytes) : bytes :=
  match inet6_pton (c_str ipv6Addr) with Some addr => addr | None => zeros 16 end.

Lemma address_of_wf s : length (address_of s) = 16%nat /\ Forall is_u8 (address_of s).
Proof.
  unfold address_of. destruct (inet6_pton (c_str s)) as [a|] eqn:E; [by eapply inet6_pton_wf|].
  split; [done|]. apply all_u8. by vm_compute.
Qed.

Definition address_text (s : bytes) : Prop := exists a, length a = 16%nat /\ Forall is_u8 a /\ s = inet6_ntop a.

(** A text the library made is written as its own bytes. *)
Lemma address_of_ntop a : length a = 16%nat -> Forall is_u8 a -> address_of (inet6_ntop a) = a.
Proof.
  intros Ha Hu. unfold address_of. destruct (inet6_ntop_text a Ha Hu) as [_ Ht].
  assert (E : c_str (inet6_ntop a) = inet6_ntop a).
  { induction Ht as [|x l [_ Hx] _ IH]; [done|]. cbn [c_str]. by rewrite (proj2 (Z.eqb_neq _ _)), IH. }
  by rewrite E, inet6_pton_ntop.
Qed.

Lemma address_text_canonical s : address_text s -> inet6_ntop (address_of s) = s.
Proof. intros (a & Ha & Hu & ->). by rewrite address_of_ntop. Qed.

Lemma u16_small z : is_u16 z -> u16 z = z.
Proof. unfold is_u16, u16. intros. by apply Z.mod_small. Qed.

Lemma sized_wf c d : is_u16 c -> is_u16 (size d) -> Forall is_u8 d -> option_wf (sized c d).
Proof. intros Hc Hd Hu. unfold sized. constructor; cbn [code length_ data]; [done|by apply u16_small|done|done]. Qed.

Lemma BuildIaAddrOption_data s pref valid :
  data (BuildIaAddrOption s pref valid) = address_of s ++ be32 pref ++ be32 valid.
Proof. done. Qed.

Lemma BuildIaAddrOption_size s pref valid : size (data (BuildIaAddrOption s pref valid)) = 24.
Proof.
  rewrite BuildIaAddrOption_data, !size_app. unfold size. destruct (address_of_wf s) as [-> _]. done.
Qed.

Lemma BuildIaAddrOption_wf s pref valid : option_wf (BuildIaAddrOption s pref valid).
Proof.
  pose proof (BuildIaAddrOption_size s pref valid) as Hs. unfold BuildIaAddrOption in *. apply sized_wf; [by vm_compute| |].
  - cbn [data sized] in Hs. by rewrite Hs.
  - rewrite !Forall_app. split; [apply (address_of_wf s)|auto with dhcp].
Qed.

Lemma ParseIaAddrOption_built s pref valid ip p v : is_u32 pref -> is_u32 valid ->
  ParseIaAddrOption (BuildIaAddrOption s pref valid) ip p v = Some (true, (inet6_ntop (address_of s), pref, valid)).
Proof.
  intros Hp Hv. unfold ParseIaAddrOption. rewrite BuildIaAddrOption_size, BuildIaAddrOption_data.
  change (24 <? DHCPV6_IAADDR_LEN) with false. cbv iota.
  assert (Hs : size (address_of s) = 16) by (unfold size; destruct (address_of_wf s) as [-> _]; done).
  pose proof (rd_n_at [] (address_of s) (be32 pref ++ be32 valid) 0 DHCPV6_IPV6_ADDR_LEN eq_refl) as E. cbn [app] in E.
  rewrite E, bind_some by (by rewrite Hs). clear E.
  rewrite (read32_at (address_of s) pref _ DHCPV6_IAADDR_PREF_LIFETIME_IDX) by (done || by rewrite Hs). rewrite bind_some.
  rewrite app_assoc, <- (app_nil_r (be32 valid)).
  rewrite (read32_at (address_of s ++ be32 pref) valid [] DHCPV6_IAADDR_VALID_LIFETIME_IDX) by (done || by rewrite size_app, Hs). done.
Qed.

Lemma UpdateMinLifetime_idem c x : UpdateMinLifetime (UpdateMinLifetime c x) x = UpdateMinLifetime c x.
Proof. unfold UpdateMinLifetime. repeat case_match; btauto_hyps; try lia; done. Qed.

(** The reply with addresses of equal lifetimes added. *)
Definition with_addresses (pref valid : Z) (found : list bytes) (adv : DhcpV6Advertise) : DhcpV6Advertise :=
  match found with
  | [] => adv
  | _ => set_lifetimes (UpdateMinLifetime (preferredLifetime adv) pref) (UpdateMinLifetime (validLifetime adv) valid)
           (set_addresses (ipv6Addresses adv ++ found) adv)
  end.

Lemma with_addresses_cons pref valid ip found adv :
  with_addresses pref valid found
    (set_lifetimes (UpdateMinLifetime (preferredLifetime adv) pref) (UpdateMinLifetime (validLifetime adv) valid)
       (set_addresses (ipv6Addresses adv ++ [ip]) adv)) = with_addresses pref valid (ip :: found) adv.
Proof.
  destruct found as [|x found]; [done|]. unfold with_addresses. cbn -[UpdateMinLifetime].
  rewrite !UpdateMinLifetime_idem, <- app_assoc. done.
Qed.

(** The loop at an option. *)
Lemma ParseIaNaSubOptions_loop_option fuel pre o rest n adv : option_wf o ->
  ParseIaNaSubOptions_loop (S fuel) (pre ++ option_bytes o ++ rest) (size pre) n adv =
  let next := ParseIaNaSubOptions_loop fuel ((pre ++ option_bytes o) ++ rest) (size (pre ++ option_bytes o)) in
  if (code o =? OPTION_IAADDR) && (length_ o >=? IAADDR_MIN_LEN) then
    if n >=? MAX_IA_NA_OPTIONS then Some (true, adv)
    else
      '(ok, (ip, pref, valid)) ← ParseIaAddrOption (mkV6Option OPTION_IAADDR (length_ o) (data o)) [] 0 0;
      if ok : bool then next (n + 1) (set_lifetimes (UpdateMinLifetime (preferredLifetime adv) pref)
        (UpdateMinLifetime (validLifetime adv) valid) (set_addresses (ipv6Addresses adv ++ [ip]) adv))
      else next n adv
  else next n adv.
Proof.
  intros Ho. pose proof (option_length _ Ho) as Hl. pose proof (option_fits _ Ho) as Hf.
  rewrite <- app_assoc. cbn [ParseIaNaSubOptions_loop].
  assert (Hs : size (pre ++ option_bytes o ++ rest) = size pre + (4 + length_ o) + size rest).
  { rewrite !size_app, option_bytes_size. lia. }
  pose proof (size_nonneg pre). pose proof (size_nonneg rest). unfold is_u16 in Hf.
  rewrite Hs, (proj2 (Z.leb_le _ _)), split_option by (unfold DHCPV6_OPTION_HDR_LEN; lia).
  destruct (header_at pre (code o) (length_ o) (data o ++ rest)) as [-> ->]; [apply Ho|by rewrite Hl|].
  rewrite !bind_some. cbv zeta. rewrite !Z.gtb_ltb, (proj2 (Z.ltb_ge _ _)) by (unfold DHCPV6_OPTION_HDR_LEN; lia).
  rewrite <- split_option, content_at, bind_some by done.
  replace (size (pre ++ option_bytes o)) with (size pre + DHCPV6_OPTION_HDR_LEN + length_ o); [done|].
  rewrite size_app, option_bytes_size. unfold DHCPV6_OPTION_HDR_LEN. lia.
Qed.

(** At the end of the options the loop stops. *)
Lemma ParseIaNaSubOptions_loop_short fuel pre rest n adv : size rest < 4 ->
  ParseIaNaSubOptions_loop (S fuel) (pre ++ rest) (size pre) n adv = Some (true, adv).
Proof.
  intros H. cbn [ParseIaNaSubOptions_loop]. rewrite size_app, (proj2 (Z.leb_gt _ _)); [done|]. unfold DHCPV6_OPTION_HDR_LEN. lia.
Qed.

(** A header whose length exceeds what is left. *)
Lemma ParseIaNaSubOptions_loop_overlong fuel pre c l body n adv : is_u16 c -> is_u16 l -> size body < l ->
  ParseIaNaSubOptions_loop (S fuel) (pre ++ be16 c ++ be16 l ++ body) (size pre) n adv = Some (false, adv).
Proof.
  intros Hc Hl Hb. cbn [ParseIaNaSubOptions_loop]. rewrite header_fits.
  destruct (header_at pre c l body Hc Hl) as [-> ->]. rewrite !bind_some. cbv zeta.
  rewrite !size_app, Z.gtb_ltb, (proj2 (Z.ltb_lt _ _)); [done|].
  change (size (be16 c)) with 2. change (size (be16 l)) with 2. unfold DHCPV6_OPTION_HDR_LEN. lia.
Qed.

(** Addresses are read back, eight at most. *)
Lemma ParseIaNaSubOptions_loop_addresses pref valid addrs fuel pre n adv :
  is_u32 pref -> is_u32 valid -> (n <= 8)%nat -> (length addrs < fuel)%nat ->
  ParseIaNaSubOptions_loop fuel (append_addresses addrs pref valid pre) (size pre) (Z.of_nat n) adv =
  Some (true, with_addresses pref valid (map (fun s => inet6_ntop (address_of s)) (take (8 - n) addrs)) adv).
Proof.
  intros Hp Hv. revert fuel pre n adv. unfold append_addresses.
  induction addrs as [|s addrs IH]; intros [|fuel] pre n adv Hn Hf; cbn [length] in Hf; try lia; cbn [map concat].
  { rewrite ParseIaNaSubOptions_loop_short by done. by rewrite take_nil. }
  pose proof (BuildIaAddrOption_wf s pref valid) as Ho.
  assert (E : length_ (BuildIaAddrOption s pref valid) = 24) by (rewrite (option_length _ Ho); apply BuildIaAddrOption_size).
  rewrite ParseIaNaSubOptions_loop_option, E by done. cbv zeta.
  change ((code (BuildIaAddrOption s pref valid) =? OPTION_IAADDR) && (24 >=? IAADDR_MIN_LEN)) with true. cbv iota.
  rewrite Z.geb_leb. unfold MAX_IA_NA_OPTIONS. destruct (Z.leb_spec 8 (Z.of_nat n)) as [H8|H8].
  { replace (8 - n)%nat with 0%nat by lia. done. }
  replace (ParseIaAddrOption (mkV6Option OPTION_IAADDR 24 (data (BuildIaAddrOption s pref valid))) [] 0 0) with
    (Some (true, (inet6_ntop (address_of s), pref, valid))) by (symmetry; by apply (ParseIaAddrOption_built s)).
  rewrite bind_some. replace (Z.of_nat n + 1) with (Z.of_nat (S n)) by lia. rewrite IH by lia.
  rewrite with_addresses_cons. replace (8 - n)%nat with (S (8 - S n)) by lia. done.
Qed.

Lemma addresses_length addrs pref valid : (length addrs <= length (concat (map (fun s => option_bytes (BuildIaAddrOption s pref valid)) addrs)))%nat.
Proof.
  induction addrs as [|s addrs IH]; [done|]. cbn [map concat]. rewrite length_app.
  pose proof (option_bytes_size (BuildIaAddrOption s pref valid)) as E. unfold size in E. cbn [length]. lia.
Qed.

(** The members after an option IA_NA. *)
Definition with_ia_na (iaid t1 t2 pref valid : Z) (addrs : list bytes) (adv : DhcpV6Advertise) : DhcpV6Advertise :=
  with_addresses pref valid (map (fun s => inet6_ntop (address_of s)) (take 8 addrs)) (set_lifetimes 0 0 (set_ia iaid t1 t2 adv)).

Lemma ParseIaNaOption_built iaid t1 t2 pref valid addrs adv :
  is_u32 iaid -> is_u32 t1 -> is_u32 t2 -> is_u32 pref -> is_u32 valid ->
  ParseIaNaOption (BuildIaNaOptionWithAddresses iaid t1 t2 addrs pref valid) adv =
  Some (true, with_ia_na iaid t1 t2 pref valid addrs adv).
Proof.
  intros Hi H1 H2 Hp Hv. unfold ParseIaNaOption, BuildIaNaOptionWithAddresses. cbn [data sized BuildIaNaOption].
  set (h := be32 iaid ++ be32 t1 ++ be32 t2). set (tail := concat (map (fun s => option_bytes (BuildIaAddrOption s pref valid)) addrs)).
  change (append_addresses addrs pref valid h) with (h ++ tail).
  assert (Hh : size h = 12) by done. pose proof (size_nonneg tail).
  rewrite size_app, Hh, (proj2 (Z.ltb_ge _ _)) by (unfold DHCPV6_IA_NA_HDR_LEN; lia).
  assert (E1 : ParseUint32FromBytes (h ++ tail) DHCPV6_IA_NA_HDR_IAID_IDX = Some iaid).
  { unfold h. rewrite <- app_assoc. by apply (read32_at [] iaid). }
  assert (E2 : ParseUint32FromBytes (h ++ tail) DHCPV6_IA_NA_HDR_T1_IDX = Some t1).
  { unfold h. rewrite <- !app_assoc. by apply (read32_at (be32 iaid) t1). }
  assert (E3 : ParseUint32FromBytes (h ++ tail) DHCPV6_IA_NA_HDR_T2_IDX = Some t2).
  { unfold h. rewrite <- !app_assoc, (app_assoc (be32 iaid)). by apply (read32_at (be32 iaid ++ be32 t1) t2). }
  rewrite E1, bind_some, E2, bind_some, E3, bind_some. unfold ParseIaNaSubOptions.
  change DHCPV6_IA_NA_HDR_LEN with (size h). change 0 with (Z.of_nat 0) at 1.
  change (h ++ tail) with (append_addresses addrs pref valid h) at 2.
  rewrite ParseIaNaSubOptions_loop_addresses; [done|done|done|lia|]. rewrite length_app.
  pose proof (addresses_length addrs pref valid). unfold tail. lia.
Qed.
End Addresses.

(** * What a reply can hold *)

Lemma rd_total d i : Forall is_u8 d -> 0 <= i < size d -> exists x, rd d i = Some x /\ is_u8 x.
Proof.
  intros Hd Hi. unfold rd, size in *. rewrite (proj2 (Z.ltb_ge _ _)) by lia.
  destruct (lookup_lt_is_Some_2 d (Z.to_nat i)) as [x E]; [lia|]. exists x. split; [done|]. by eapply Forall_lookup_1.
Qed.

Lemma rd_n_total d i n : Forall is_u8 d -> 0 <= i -> 0 <= n -> i + n <= size d ->
  exists l, rd_n d i n = Some l /\ size l = n /\ Forall is_u8 l.
Proof.
  intros Hd Hi Hn Hs. unfold rd_n. unfold size in *. rewrite !(proj2 (Z.leb_le _ _)) by lia. cbn [andb]. eexists. split; [done|].
  rewrite length_take, length_drop. split; [lia|]. by apply Forall_take, Forall_drop.
Qed.

Lemma read16_total d i : Forall is_u8 d -> 0 <= i -> i + 2 <= size d -> exists v, read16 d i = Some v /\ is_u16 v.
Proof.
  intros Hd Hi Hs. unfold read16, DHCPV6_OPTION_CODE_SECOND_BYTE_OFFSET.
  destruct (rd_total d i) as (a & -> & _); [done|lia|]. destruct (rd_total d (i + 1)) as (b & -> & _); [done|lia|].
  rewrite !bind_some. eexists. split; [done|]. unfold u16, is_u16. apply Z.mod_pos_bound. lia.
Qed.

Lemma ParseUint32FromBytes_total d i : Forall is_u8 d -> 0 <= i -> exists v, ParseUint32FromBytes d i = Some v /\ is_u32 v.
Proof.
  intros Hd Hi. unfold ParseUint32FromBytes, UINT32_NUM_BYTES. destruct (i + 4 >? size d) eqn:E; btauto_hyps.
  { exists 0. split; [done|]. by apply check_u32. }
  destruct (rd_total d i) as (a & -> & Ha); [done|lia|]. destruct (rd_total d (i + 1)) as (b & -> & Hb); [done|lia|].
  destruct (rd_total d (i + 2)) as (c & -> & Hc); [done|lia|]. destruct (rd_total d (i + 3)) as (e & -> & He); [done|lia|].
  rewrite !bind_some, join32 by done. eexists. split; [done|]. unfold is_u32, is_u8 in *. lia.
Qed.

Section Reply.
Context {I6 : Inet6Text} {L6 : Inet6TextLaws I6}.

(** The types and bounds of the members of a decoded reply; [na] and [nd] bound
    the addresses and the name servers. *)
Record advertise_wf (na nd : Z) (adv : DhcpV6Advertise) : Prop := {
  adv_serverId : size (serverId adv) <= MAX_DUID_LENGTH /\ Forall is_u8 (serverId adv);
  adv_preference : is_u8 (preference adv);
  adv_ia : is_u32 (iaid adv) /\ is_u32 (t1 adv) /\ is_u32 (t2 adv);
  adv_lifetimes : is_u32 (preferredLifetime adv) /\ is_u32 (validLifetime adv);
  adv_addresses : Forall address_text (ipv6Addresses adv) /\ Z.of_nat (length (ipv6Addresses adv)) <= na;
  adv_dns : Forall address_text (dnsServers adv) /\ Z.of_nat (length (dnsServers adv)) <= nd;
  adv_status : is_u16 (statusCode adv) /\ size (statusMessage adv) <= MAX_STATUS_MESSAGE_LENGTH /\ Forall is_u8 (statusMessage adv)
}.

Lemma empty_advertise_wf : advertise_wf 0 0 empty_advertise.
Proof. split; cbn; unfold is_u8, is_u16, is_u32; split_and?; constructor || by vm_compute || lia. Qed.

Lemma advertise_wf_mono na nd na' nd' adv : na <= na' -> nd <= nd' -> advertise_wf na nd adv -> advertise_wf na' nd' adv.
Proof. intros Hn Hd []. split; try done; destruct_and?; split; (done || lia). Qed.

Lemma UpdateMinLifetime_range c x : is_u32 c -> is_u32 x -> is_u32 (UpdateMinLifetime c x).
Proof. unfold UpdateMinLifetime. by case_match. Qed.

Lemma ntop_text a : size a = 16 -> Forall is_u8 a -> address_text (inet6_ntop a).
Proof. intros Hs Hu. exists a. split_and!; [|done|done]. unfold size in Hs. lia. Qed.

Lemma ParseIaAddrOption_wf o : Forall is_u8 (data o) -> 24 <= size (data o) ->
  exists ip pref valid, ParseIaAddrOption o [] 0 0 = Some (true, (ip, pref, valid)) /\
    address_text ip /\ is_u32 pref /\ is_u32 valid.
Proof.
  intros Hu Hs. unfold ParseIaAddrOption, DHCPV6_IAADDR_LEN. rewrite (proj2 (Z.ltb_ge _ _)) by lia.
  destruct (rd_n_total (data o) 0 DHCPV6_IPV6_ADDR_LEN) as (a & -> & Ha & Hau); [done|done|done|unfold DHCPV6_IPV6_ADDR_LEN; lia|].
  destruct (ParseUint32FromBytes_total (data o) DHCPV6_IAADDR_PREF_LIFETIME_IDX) as (p & Hp & ?); [done..|].
  destruct (ParseUint32FromBytes_total (data o) DHCPV6_IAADDR_VALID_LIFETIME_IDX) as (v & Hv & ?); [done..|].
  rewrite bind_some, Hp, bind_some, Hv, bind_some. do 3 eexists. split_and!; [done| |done|done]. by apply ntop_text.
Qed.

Lemma with_address_wf na nd ip pref valid adv : address_text ip -> is_u32 pref -> is_u32 valid -> advertise_wf na nd adv ->
  advertise_wf (na + 1) nd (set_lifetimes (UpdateMinLifetime (preferredLifetime adv) pref)
    (UpdateMinLifetime (validLifetime adv) valid) (set_addresses (ipv6Addresses adv ++ [ip]) adv)).
Proof.
  intros Hip Hp Hv []. split; cbn -[UpdateMinLifetime]; try done; destruct_and?.
  - split; by apply UpdateMinLifetime_range.
  - rewrite Forall_app, length_app. cbn [length]. split; [auto|lia].
Qed.

Lemma ParseIaNaSubOptions_loop_wf nd fuel pre rest n na adv :
  Forall is_u8 rest -> (length rest < fuel)%nat -> 0 <= n <= 8 -> advertise_wf (na + n) nd adv ->
  exists ok adv', ParseIaNaSubOptions_loop fuel (pre ++ rest) (size pre) n adv = Some (ok, adv') /\ advertise_wf (na + 8) nd adv'.
Proof.
  revert pre rest n adv. induction fuel as [|fuel IH]; intros pre rest n adv Hr Hf Hn Hw; [lia|].
  assert (Hdone : advertise_wf (na + 8) nd adv) by (eapply advertise_wf_mono; [..|done]; lia).
  destruct (option_view rest Hr) as [Hs|[(o & rest' & Ho & ->)|(c & l & body & Hc & Hl & -> & Hb)]].
  - rewrite ParseIaNaSubOptions_loop_short by done. eauto.
  - apply Forall_app in Hr as [_ Hr]. rewrite length_app in Hf.
    assert (Hlen : (4 <= length (option_bytes o))%nat) by (pose proof (option_bytes_size o); pose proof (size_nonneg (data o)); unfold size in *; lia).
    rewrite ParseIaNaSubOptions_loop_option by done. cbv zeta.
    destruct ((code o =? OPTION_IAADDR) && (length_ o >=? IAADDR_MIN_LEN)) eqn:E; [|apply IH; (done || lia)].
    destruct (n >=? MAX_IA_NA_OPTIONS) eqn:E8; [eauto|]. unfold MAX_IA_NA_OPTIONS, IAADDR_MIN_LEN in *. btauto_hyps.
    destruct (ParseIaAddrOption_wf (mkV6Option OPTION_IAADDR (length_ o) (data o))) as (ip & p & v & -> & Hip & Hp & Hv);
      [apply Ho|cbn [data]; rewrite <- (option_length _ Ho); lia|].
    rewrite bind_some. apply IH; [done|lia|lia|]. replace (na + (n + 1)) with (na + n + 1) by lia. by apply with_address_wf.
  - rewrite ParseIaNaSubOptions_loop_overlong by done. eauto.
Qed.

Lemma ParseIaNaOption_wf na nd o adv : Forall is_u8 (data o) -> 0 <= na -> advertise_wf na nd adv ->
  exists ok adv', ParseIaNaOption o adv = Some (ok, adv') /\ advertise_wf (na + 8) nd adv'.
Proof.
  intros Hu Hn Hw. unfold ParseIaNaOption, DHCPV6_IA_NA_HDR_LEN. destruct (size (data o) <? 12) eqn:E; btauto_hyps.
  { do 2 eexists. split; [done|]. eapply advertise_wf_mono; [..|done]; lia. }
  destruct (ParseUint32FromBytes_total (data o) DHCPV6_IA_NA_HDR_IAID_IDX) as (i & Hi & ?); [done..|].
  destruct (ParseUint32FromBytes_total (data o) DHCPV6_IA_NA_HDR_T1_IDX) as (x1 & H1 & ?); [done..|].
  destruct (ParseUint32FromBytes_total (data o) DHCPV6_IA_NA_HDR_T2_IDX) as (x2 & H2 & ?); [done..|].
  rewrite Hi, bind_some, H1, bind_some, H2, bind_some. unfold ParseIaNaSubOptions.
  assert (Hl : (12 <= length (data o))%nat) by (unfold size in E; lia).
  pose proof (ParseIaNaSubOptions_loop_wf nd (S (length (data o))) (take 12 (data o)) (drop 12 (data o)) 0 na
    (set_lifetimes 0 0 (set_ia i x1 x2 adv))) as P.
  rewrite take_drop in P. replace (size (take 12 (data o))) with DHCPV6_IA_NA_HDR_LEN in P.
  2:{ unfold size. rewrite length_take. unfold DHCPV6_IA_NA_HDR_LEN. lia. }
  apply P; [by apply Forall_drop|rewrite length_drop; lia|lia|]. rewrite Z.add_0_r.
  by destruct Hw.
Qed.

Lemma ParseDnsServersOption_loop_wf d fuel off n dns :
  Forall is_u8 d -> 0 <= off <= size d -> size d - off < Z.of_nat fuel -> 0 <= n <= 16 -> Forall address_text dns ->
  exists dns', ParseDnsServersOption_loop fuel d off n dns = Some dns' /\ Forall address_text dns' /\
    Z.of_nat (length dns') + n <= Z.of_nat (length dns) + 16.
Proof.
  intros Hd. revert off n dns. induction fuel as [|fuel IH]; intros off n dns Ho Hf Hn Ht; cbn [ParseDnsServersOption_loop].
  { lia. }
  unfold DHCPV6_IPV6_ADDR_LEN, MAX_DNS_SERVERS. destruct (off + 16 <=? size d) eqn:E; btauto_hyps; [|eexists; split_and!; [done|done|lia]].
  destruct (n >=? 16) eqn:E2; btauto_hyps; [eexists; split_and!; [done|done|lia]|].
  destruct (rd_n_total d off 16) as (a & -> & Ha & Hu); [done|lia|lia|lia|]. rewrite bind_some.
  destruct (IH (off + 16) (n + 1) (dns ++ [inet6_ntop a])) as (dns' & -> & Ht' & Hl); [lia|lia|lia| |].
  { apply Forall_app. split; [done|]. repeat constructor. by apply ntop_text. }
  exists dns'. rewrite length_app in Hl. cbn [length] in Hl. split_and!; [done|done|lia].
Qed.

Lemma ParseStatusCodeOption_wf o c m : Forall is_u8 (data o) -> is_u16 c -> size m <= 1024 -> Forall is_u8 m ->
  exists ok c' m', ParseStatusCodeOption o c m = Some (ok, (c', m')) /\ is_u16 c' /\ size m' <= 1024 /\ Forall is_u8 m'.
Proof.
  intros Hu Hc Hm Hmu. unfold ParseStatusCodeOption, DHCPV6_STATUS_CODE_HDR_LEN, MAX_STATUS_MESSAGE_LENGTH.
  destruct (size (data o) <? 2) eqn:E; btauto_hyps; [by do 3 eexists|].
  destruct (read16_total (data o) 0) as (v & -> & Hv); [done|done|lia|]. rewrite bind_some.
  destruct (size (data o) >? 2) eqn:E2; btauto_hyps; [|by do 3 eexists].
  set (n := if size (data o) - 2 >? 1024 then 1024 else size (data o) - 2).
  assert (Hn : 0 <= n <= 1024 /\ 2 + n <= size (data o)) by (unfold n; case_match; btauto_hyps; lia).
  destruct (rd_n_total (data o) 2 n) as (l & -> & Hl & Hlu); [done|lia|lia|lia|]. rewrite bind_some.
  do 3 eexists. split_and!; [done|done|lia|done].
Qed.

Lemma parse_reply_option_wf na nd o adv : 0 <= na -> option_wf o -> advertise_wf na nd adv ->
  exists adv', parse_reply_option o adv = Some adv' /\ advertise_wf (na + 8) (nd + 16) adv'.
Proof.
  intros Hn [_ _ _ Hu] Hw. assert (Hmono : advertise_wf (na + 8) (nd + 16) adv) by (eapply advertise_wf_mono; [..|done]; lia).
  unfold parse_reply_option. case_match; [|case_match; [|case_match; [|case_match; [|case_match; [|by eauto]]]]].
  - eexists. split; [done|]. unfold ParseServerIdOption. case_match; btauto_hyps; [by destruct adv|]. destruct Hmono. by split.
  - case_match; [|by eauto]. btauto_hyps. destruct (rd_total (data o) 0) as (x & -> & Hx); [done|lia|].
    eexists. split; [done|]. destruct Hmono. by split.
  - destruct (ParseIaNaOption_wf na nd o adv Hu Hn Hw) as (ok & adv' & -> & Hw'). rewrite bind_some. eexists. split; [done|].
    assert (Hw2 : advertise_wf (na + 8) (nd + 16) adv') by (eapply advertise_wf_mono; [..|done]; lia).
    destruct ok; cbn [negb]; [done|]. destruct Hw2. destruct_and?. by split.
  - destruct Hw. destruct_and?.
    destruct (ParseDnsServersOption_loop_wf (data o) (S (length (data o))) 0 0 (dnsServers adv)) as (dns & E & Hd & Hl);
      [done|unfold size; lia|unfold size; lia|lia|done|]. unfold ParseDnsServersOption. rewrite E. eexists. split; [done|].
    destruct Hmono. split; try done. cbn [set_dnsServers dnsServers]. split; [done|lia].
  - destruct Hw. destruct_and?. destruct (ParseStatusCodeOption_wf o (statusCode adv) (statusMessage adv)) as (ok & c & m & -> & ?); [done..|].
    eexists. split; [done|]. destruct Hmono. by split.
Qed.

Lemma ParseReplyOptions_loop_wf os n adv : Forall option_wf os -> 0 <= n <= 64 -> advertise_wf (8 * n) (16 * n) adv ->
  exists adv', ParseReplyOptions_loop os n adv = Some adv' /\ advertise_wf 512 1024 adv'.
Proof.
  intros H. revert n adv. induction H as [|o os Ho _ IH]; intros n adv Hn Hw; cbn [ParseReplyOptions_loop].
  { eexists. split; [done|]. eapply advertise_wf_mono; [..|done]; lia. }
  unfold MAX_OPTIONS_PER_MESSAGE. destruct (n + 1 >? 64) eqn:E; btauto_hyps.
  { eexists. split; [done|]. eapply advertise_wf_mono; [..|done]; lia. }
  destruct (parse_reply_option_wf (8 * n) (16 * n) o adv) as (adv' & -> & Hw'); [lia|done..|]. rewrite bind_some.
  apply IH; [lia|]. replace (8 * (n + 1)) with (8 * n + 8) by lia. by replace (16 * (n + 1)) with (16 * n + 16) by lia.
Qed.

Lemma ParseReplyOptions_wf os : Forall option_wf os ->
  exists adv', ParseReplyOptions os empty_advertise = Some adv' /\ advertise_wf 512 1024 adv'.
Proof. intros H. apply (ParseReplyOptions_loop_wf os 0); [done|done|apply empty_advertise_wf]. Qed.

(** The two decoders of a reply differ in the type they expect. *)
Definition parse_typed (type : Z) (d : bytes) (adv : DhcpV6Advertise) : option (bool * DhcpV6Advertise) :=
  '(ok, info) ← ParseV6Message d empty_info;
  if negb ok then Some (false, adv)
  else if negb (msgType info =? type) then Some (false, adv)
  else
    adv ← ParseReplyOptions (options info) adv;
    if negb (statusCode adv =? STATUS_SUCCESS) then Some (false, adv) else Some (true, adv).

(** Refused, or a well-formed message of the type. *)
Definition reply_decoded (type : Z) (d : bytes) (r : option (bool * DhcpV6Advertise)) : Prop :=
  exists ok adv, r = Some (ok, adv) /\ advertise_wf 512 1024 adv /\
    (ok = true -> statusCode adv = STATUS_SUCCESS /\ exists m, info_wf m /\ msgType m = type /\
       ParseV6Message d empty_info = Some (true, m) /\ ParseReplyOptions (options m) empty_advertise = Some adv).

Lemma parse_typed_spec type d : Forall is_u8 d -> reply_decoded type d (parse_typed type d empty_advertise).
Proof.
  intros Hd. pose proof empty_advertise_wf as He. apply (advertise_wf_mono _ _ 512 1024) in He; [|lia..].
  unfold parse_typed, reply_decoded. destruct (ParseV6Message_total d empty_info Hd) as (ok & m & E). rewrite E, bind_some.
  destruct ok; cbn [negb]; [|by do 2 eexists]. destruct (ParseV6Message_accepts _ _ _ Hd E) as [Hm _].
  destruct (msgType m =? type) eqn:Et; cbn [negb]; [|by do 2 eexists]. btauto_hyps.
  destruct (ParseReplyOptions_wf (options m)) as (adv & Ea & Hw); [apply Hm|]. rewrite Ea, bind_some.
  destruct (statusCode adv =? STATUS_SUCCESS) eqn:Es; cbn [negb]; [|by do 2 eexists]. btauto_hyps.
  do 2 eexists. split_and!; [done|done|]. intros _. split; [done|]. by exists m.
Qed.

Lemma ParseV6Reply_spec d : Forall is_u8 d -> reply_decoded REPLY d (ParseV6Reply d empty_advertise).
Proof. apply parse_typed_spec. Qed.
Lemma ParseV6Advertise_spec d : Forall is_u8 d -> reply_decoded ADVERTISE d (ParseV6Advertise d empty_advertise).
Proof. apply parse_typed_spec. Qed.

(** Name servers are read back, sixteen at most. *)
Lemma ParseDnsServersOption_loop_built dns fuel pre n acc : (n <= 16)%nat -> (length dns < fuel)%nat ->
  Forall (fun a => size a = 16) dns ->
  ParseDnsServersOption_loop fuel (pre ++ concat dns) (size pre) (Z.of_nat n) acc =
  Some (acc ++ map inet6_ntop (take (16 - n) dns)).
Proof.
  intros Hn Hf Hd. revert fuel pre n acc Hn Hf. induction Hd as [|a dns Ha _ IH]; intros [|fuel] pre n acc Hn Hf; cbn [length] in Hf; try lia;
    cbn [concat ParseDnsServersOption_loop]; rewrite !size_app; unfold DHCPV6_IPV6_ADDR_LEN, MAX_DNS_SERVERS.
  { change (size []) with 0. rewrite (proj2 (Z.leb_gt _ _)), take_nil by lia. cbn [map]. by rewrite app_nil_r. }
  pose proof (size_nonneg (concat dns)). rewrite (proj2 (Z.leb_le _ _)), Z.geb_leb by lia.
  destruct (Z.leb_spec 16 (Z.of_nat n)) as [H16|H16].
  { replace (16 - n)%nat with 0%nat by lia. cbn [take map]. by rewrite app_nil_r. }
  rewrite rd_n_at, bind_some by done. replace (Z.of_nat n + 1) with (Z.of_nat (S n)) by lia.
  replace (size pre + 16) with (size (pre ++ a)) by (rewrite size_app; lia). rewrite app_assoc, IH by lia.
  replace (16 - n)%nat with (S (16 - S n)) by lia. cbn [take map]. by rewrite <- app_assoc.
Qed.

Lemma concat_length dns : Forall (fun a => size a = 16) dns -> size (concat dns) = 16 * Z.of_nat (length dns).
Proof. induction 1 as [|a dns Ha _ IH]; [done|]. cbn [concat length]. rewrite size_app. lia. Qed.

Lemma ParseDnsServersOption_built c dns acc : Forall (fun a => size a = 16) dns ->
  ParseDnsServersOption (sized c (concat dns)) acc = Some (acc ++ map inet6_ntop (take 16 dns)).
Proof.
  intros Hd. unfold ParseDnsServersOption. cbn [data sized].
  pose proof (concat_length dns Hd) as E. unfold size in E.
  apply (ParseDnsServersOption_loop_built dns _ [] 0); [lia|lia|done].
Qed.
End Reply.
