(* ===== verification/V6Text.v ===== *)
(** IPv6 addresses written in full, eight groups of four hexadecimal digits: an
    instance of the address conversions of V6Message that satisfies their laws,
    with which the witnesses compute. *)
From S2P Require Import Prelude AddressUtils ClientOptions V6Message.

(** A byte from two hexadecimal digits. *)
Definition hex_byte (a b : Z) : option Z :=
  let x := IsValidHexCharAndConvert a in
  let y := IsValidHexCharAndConvert b in
  if (x <? 0) || (y <? 0) then None else Some (x * 16 + y).

Fixpoint groups_text (a : bytes) : bytes :=
  match a with
  | [] | [_] => []
  | [x; y] => hex2 x ++ hex2 y
  | x :: y :: r => hex2 x ++ hex2 y ++ colon :: groups_text r
  end.

Fixpoint groups_of (s : bytes) : option bytes :=
  match s with
  | [a; b; c; d] => x ← hex_byte a b; y ← hex_byte c d; Some [x; y]
  | a :: b :: c :: d :: e :: r =>
      if e =? colon then x ← hex_byte a b; y ← hex_byte c d; l ← groups_of r; Some (x :: y :: l) else None
  | _ => None
  end.

#[export] Instance Full6 : Inet6Text := {
  inet6_pton s := l ← groups_of s; if (length l =? 16)%nat then Some l else None;
  inet6_ntop a := groups_text a
}.

Lemma hex_byte_u8 a b x : hex_byte a b = Some x -> is_u8 x.
Proof.
  unfold hex_byte, is_u8. assert (E : forall c, IsValidHexCharAndConvert c <= 15).
  { intros c. unfold IsValidHexCharAndConvert. repeat case_match; btauto_hyps; lia. }
  pose proof (E a). pose proof (E b). case_match; [done|]. btauto_hyps. intros [= <-]. lia.
Qed.

Lemma hex_byte_hex2 x : is_u8 x -> hex_byte (hex_digit (x / 16)) (hex_digit (x mod 16)) = Some x.
Proof.
  unfold is_u8. intros H. assert (0 <= x / 16 < 16 /\ 0 <= x mod 16 < 16) by (Z.to_euclidean_division_equations; lia).
  unfold hex_byte. rewrite !hex_digit_convert, !(proj2 (Z.ltb_ge _ 0)) by lia. cbn [orb]. f_equal. Z.to_euclidean_division_equations. lia.
Qed.

(** Induction on the groups of a text, and on pairs of bytes. *)
Lemma groups_of_u8 n : forall s l, (length s <= n)%nat -> groups_of s = Some l -> Forall is_u8 l.
Proof.
  induction n as [|n IH]; intros s l Hs E; destruct s as [|a [|b [|c [|d [|e r]]]]]; try done; cbn [length] in Hs; try lia; cbn [groups_of] in E.
  - destruct (hex_byte a b) as [x|] eqn:E1; [|done]. destruct (hex_byte c d) as [y|] eqn:E2; [|done]. injection E as <-.
    repeat constructor; by eapply hex_byte_u8.
  - destruct (e =? colon); [|done]. destruct (hex_byte a b) as [x|] eqn:E1; [|done]. destruct (hex_byte c d) as [y|] eqn:E2; [|done].
    destruct (groups_of r) as [l'|] eqn:E3; [|done]. injection E as <-.
    repeat (constructor; [by eapply hex_byte_u8|]). apply (IH r); [lia|done].
Qed.

Lemma groups_round n : forall a, (length a = 2 * S n)%nat -> Forall is_u8 a -> groups_of (groups_text a) = Some a.
Proof.
  induction n as [|n IH]; intros a Ha Hu; (destruct a as [|x [|y a]]; [done|done|]); cbn [length] in Ha;
    rewrite !Forall_cons in Hu; destruct Hu as (Hx & Hy & Hu).
  - destruct a; [|cbn [length] in Ha; lia]. cbn [groups_text hex2 app groups_of]. by rewrite !hex_byte_hex2.
  - destruct a as [|z [|w a]]; cbn [length] in Ha; try lia.
    change (groups_text (x :: y :: z :: w :: a)) with (hex2 x ++ hex2 y ++ colon :: groups_text (z :: w :: a)).
    cbn [hex2 app groups_of]. change (colon =? colon) with true. cbv iota.
    rewrite !hex_byte_hex2 by done. rewrite !bind_some, IH; [done|cbn [length]; lia|done].
Qed.

Lemma hex2_text x : is_u8 x -> Forall (fun c => is_u8 c /\ c <> 0) (hex2 x).
Proof.
  unfold is_u8. intros H. assert (0 <= x / 16 < 16 /\ 0 <= x mod 16 < 16) by (Z.to_euclidean_division_equations; lia).
  unfold hex2, hex_digit. repeat constructor; case_match; btauto_hyps; unfold is_u8; lia.
Qed.

Lemma groups_text_chars n : forall a, (length a = 2 * S n)%nat -> Forall is_u8 a ->
  length (groups_text a) = (5 * n + 4)%nat /\ Forall (fun c => is_u8 c /\ c <> 0) (groups_text a).
Proof.
  induction n as [|n IH]; intros a Ha Hu; (destruct a as [|x [|y a]]; [done|done|]); cbn [length] in Ha;
    rewrite !Forall_cons in Hu; destruct Hu as (Hx & Hy & Hu).
  - destruct a; [|cbn [length] in Ha; lia]. split; [done|]. cbn [groups_text]. apply Forall_app; split; by apply hex2_text.
  - destruct a as [|z [|w a]]; cbn [length] in Ha; try lia.
    change (groups_text (x :: y :: z :: w :: a)) with (hex2 x ++ hex2 y ++ colon :: groups_text (z :: w :: a)).
    destruct (IH (z :: w :: a)) as [Hl Hc]; [cbn [length]; lia|done|]. split; [rewrite !length_app; cbn [length hex2]; rewrite Hl; lia|].
    rewrite !Forall_app, Forall_cons. split_and!; try (by apply hex2_text); [unfold is_u8, colon; lia|done|done].
Qed.

#[export] Instance Full6Laws : Inet6TextLaws Full6.
Proof.
  split; cbn [inet6_pton inet6_ntop Full6].
  - intros s a. destruct (groups_of s) as [l|] eqn:E; [|done]. rewrite bind_some. case_match; [|done]. intros [= <-].
    split; [by apply Nat.eqb_eq|]. by eapply groups_of_u8.
  - intros a Ha Hu. by rewrite (groups_round 7), bind_some, Ha.
  - intros a Ha Hu. destruct (groups_text_chars 7 a) as [-> ?]; [done|done|]. split; [lia|done].
Qed.
