(* ===== verification/V6Codec.v ===== *)
(** The theorems on the DHCPv6 messages: what the client sends is decoded to the
    message it means, and what a server sends is decoded to the members of the
    reply, within the bounds of the decoder. *)
From S2P Require Import Prelude AddressUtils ClientOptions V6Message V6Text.

Section Codec.
Context {I6 : Inet6Text} {L6 : Inet6TextLaws I6}.

(** A configuration whose identifiers and addresses fit their options: an
    option holds 65535 bytes, an IA_NA option 2340 addresses. *)
Record config_wf (cfg : DhcpV6Config) : Prop := {
  cfg_client : is_u16 (size (clientId cfg)) /\ Forall is_u8 (clientId cfg);
  cfg_server : is_u16 (size (cfg_serverId cfg)) /\ Forall is_u8 (cfg_serverId cfg);
  cfg_transaction : 0 <= cfg_transactionId cfg <= MAX_TRANSACTION_ID;
  cfg_addresses : (length (cfg_ipv6Addresses cfg) <= 2340)%nat;
  cfg_lifetimes : is_u32 (cfg_preferredLifetime cfg) /\ is_u32 (cfg_validLifetime cfg)
}.

(** C22: A datagram is decoded or refused, without an access outside of it, and the
    decoded messages are exactly the well-formed ones: the decoder accepts a
    datagram as a message if and only if it is the encoding of this message,
    which has a known type, a 24-bit transaction and options whose lengths are
    those of their data. *)
Theorem ParseV6Message_inverts d m0 :
  Forall is_u8 d ->
  (exists ok m, ParseV6Message d m0 = Some (ok, m)) /\
  forall m, ParseV6Message d m0 = Some (true, m) <->
    info_wf m /\ d = BuildMessage (msgType m) (transactionId m) (options m).
Proof.
  intros Hd. split.
  - by apply ParseV6Message_total.
  - intros m. split; [by apply ParseV6Message_accepts|]. intros [Hm ->]. by apply ParseV6Message_builds.
Qed.

(** The options of the messages, with their bytes. *)
Definition id_option (c : Z) (duid : bytes) : DhcpV6Option := mkV6Option c (size duid) duid.
Definition elapsed_zero : DhcpV6Option := mkV6Option OPTION_ELAPSED_TIME 2 [0; 0].
Definition ask_dns : DhcpV6Option := mkV6Option OPTION_ORO 4 [0; 23; 0; 24].
Definition ia_na_empty : DhcpV6Option := mkV6Option OPTION_IA_NA 12 [0; 0; 0; 1; 0; 0; 0; 0; 0; 0; 0; 0].

(** An option IA_NA that a reader takes as these values and the first eight of
    these addresses. *)
Definition reads_as_ia_na (o : DhcpV6Option) (t1 t2 pref valid : Z) (addrs : list bytes) : Prop :=
  code o = OPTION_IA_NA /\ forall adv, ParseIaNaOption o adv = Some (true, with_ia_na 1 t1 t2 pref valid addrs adv).

Lemma elapsed_zero_wf : option_wf elapsed_zero.
Proof. split; try by vm_compute. by apply all_u8. Qed.
Lemma ask_dns_wf : option_wf ask_dns.
Proof. split; try by vm_compute. by apply all_u8. Qed.
Lemma ia_na_empty_wf : option_wf ia_na_empty.
Proof. split; try by vm_compute. by apply all_u8. Qed.
Lemma id_option_wf c duid : is_u16 c -> is_u16 (size duid) -> Forall is_u8 duid -> option_wf (id_option c duid).
Proof. intros. by split. Qed.

Lemma BuildIdOption_eq c duid : is_u16 (size duid) -> BuildIdOption c duid = id_option c duid.
Proof. intros. unfold BuildIdOption. by rewrite u16_small. Qed.

Lemma GenerateDuid_wf f : fresh_wf f -> size (GenerateDuid f None) = 13 /\ Forall is_u8 (GenerateDuid f None).
Proof.
  intros [Hl Hu _]. unfold GenerateDuid. rewrite !size_app, !Forall_app. unfold size at 4. rewrite Hl.
  split_and!; [done|by apply all_u8|auto with dhcp..].
Qed.

Lemma client_duid_wf f cfg : fresh_wf f -> config_wf cfg -> is_u16 (size (client_duid f cfg)) /\ Forall is_u8 (client_duid f cfg).
Proof.
  intros Hf [[Hc Hu] _ _ _ _]. unfold client_duid. destruct (clientId cfg) as [|x l]; [|done].
  destruct (GenerateDuid_wf f Hf) as [-> ?]. split; [|done]. by vm_compute.
Qed.

Lemma transaction_of_range f cfg : fresh_wf f -> config_wf cfg -> 0 <= transaction_of f cfg < 2 ^ 24.
Proof.
  intros [_ _ Hx] [_ _ Hc _ _]. unfold MAX_TRANSACTION_ID in *. unfold transaction_of, GenerateTransactionId. case_match; lia.
Qed.

Lemma concat_addresses_size addrs pref valid :
  size (concat (map (fun s => option_bytes (BuildIaAddrOption s pref valid)) addrs)) = 28 * Z.of_nat (length addrs).
Proof.
  induction addrs as [|s addrs IH]; [done|]. cbn [map concat length].
  rewrite size_app, option_bytes_size, BuildIaAddrOption_size, IH. lia.
Qed.

Lemma append_addresses_wf addrs pref valid h c : (length addrs <= 2340)%nat -> size h = 12 -> Forall is_u8 h -> is_u16 c ->
  option_wf (sized c (append_addresses addrs pref valid h)).
Proof.
  intros Hn Hs Hh Hc. unfold append_addresses. apply sized_wf; [done| |].
  - rewrite size_app, Hs, concat_addresses_size. unfold is_u16. lia.
  - apply Forall_app. split; [done|]. clear Hn. induction addrs as [|s addrs IH]; [done|]. cbn [map concat].
    apply Forall_app. split; [|done]. apply option_bytes_u8, BuildIaAddrOption_wf.
Qed.

Lemma ia_na_wf i x1 x2 addrs pref valid : (length addrs <= 2340)%nat ->
  option_wf (BuildIaNaOptionWithAddresses i x1 x2 addrs pref valid).
Proof.
  intros Hn. unfold BuildIaNaOptionWithAddresses. cbn [data code BuildIaNaOption sized].
  apply append_addresses_wf; [done|done| |done]. rewrite !Forall_app. auto with dhcp.
Qed.

Lemma ia_na_reads x1 x2 addrs pref valid : is_u32 x1 -> is_u32 x2 -> is_u32 pref -> is_u32 valid ->
  reads_as_ia_na (BuildIaNaOptionWithAddresses 1 x1 x2 addrs pref valid) x1 x2 pref valid addrs.
Proof. intros. split; [done|]. intros adv. by apply ParseIaNaOption_built. Qed.

(** A datagram decoded to a message. *)
Definition decodes (d : bytes) (t x : Z) (os : list DhcpV6Option) : Prop :=
  forall m0, ParseV6Message d m0 = Some (true, mkInfo t x os).

Lemma decodes_built t x os : SOLICIT <= t <= RELAY_REPL -> 0 <= x < 2 ^ 24 -> Forall option_wf os -> decodes (BuildMessage t x os) t x os.
Proof. intros Ht Hx Ho m0. by apply (ParseV6Message_builds m0 (mkInfo t x os)). Qed.

Ltac message_options :=
  repeat match goal with |- Forall _ (_ :: _) => constructor | |- Forall _ [] => constructor end;
  eauto using elapsed_zero_wf, ask_dns_wf, ia_na_empty_wf, ia_na_wf, id_option_wf.

(** * The messages of the client, one by one *)

Section Messages.
Context (f : Fresh) (cfg : DhcpV6Config) (Hf : fresh_wf f) (Hc : config_wf cfg).

Let x : Z := transaction_of f cfg.
Let client : DhcpV6Option := id_option OPTION_CLIENTID (client_duid f cfg).
Let server : DhcpV6Option := id_option OPTION_SERVERID (cfg_serverId cfg).

Lemma client_option : BuildClientIdOption (client_duid f cfg) = client /\ option_wf client.
Proof. destruct (client_duid_wf f cfg Hf Hc). split; [by apply BuildIdOption_eq|by apply id_option_wf]. Qed.
Lemma server_option : BuildServerIdOption (cfg_serverId cfg) = server /\ option_wf server.
Proof. destruct (cfg_server _ Hc). split; [by apply BuildIdOption_eq|by apply id_option_wf]. Qed.

Ltac build :=
  pose proof (transaction_of_range f cfg Hf Hc); destruct client_option as [-> ?]; try destruct server_option as [-> ?];
  apply decodes_built; [done|done|message_options].

Lemma BuildSolicitMessage_decodes :
  decodes (BuildSolicitMessage f cfg) SOLICIT x
    ([client; elapsed_zero] ++ (if stateless cfg then [] else [ia_na_empty]) ++ [ask_dns]).
Proof. unfold BuildSolicitMessage. destruct (stateless cfg); cbn [negb app]; build. Qed.

Lemma BuildInformationRequestMessage_decodes :
  decodes (BuildInformationRequestMessage f cfg) INFORMATION_REQUEST x [client; elapsed_zero; ask_dns].
Proof. unfold BuildInformationRequestMessage. build. Qed.

Lemma BuildRequestMessage_decodes adv : size (serverId adv) <= MAX_DUID_LENGTH -> Forall is_u8 (serverId adv) ->
  (length (ipv6Addresses adv) <= 2340)%nat ->
  decodes (BuildRequestMessage f cfg adv) REQUEST x
    [client; id_option OPTION_SERVERID (serverId adv); elapsed_zero;
     BuildIaNaOptionWithAddresses 1 (t1 adv) (t2 adv) (ipv6Addresses adv) (preferredLifetime adv) (validLifetime adv); ask_dns].
Proof.
  intros Hs Hu Hn. assert (is_u16 (size (serverId adv))) by (unfold is_u16, MAX_DUID_LENGTH in *; pose proof (size_nonneg (serverId adv)); lia).
  assert (option_wf (id_option OPTION_SERVERID (serverId adv))) by (by apply id_option_wf).
  unfold BuildRequestMessage, BuildServerIdOption. rewrite BuildIdOption_eq by done. build.
Qed.

Definition renewed_option : DhcpV6Option :=
  BuildIaNaOptionWithAddresses 1 0 0 (cfg_ipv6Addresses cfg) (cfg_preferredLifetime cfg) (cfg_validLifetime cfg).

Lemma renewed_option_wf : option_wf renewed_option.
Proof. apply ia_na_wf. apply Hc. Qed.

Lemma BuildRenewMessage_decodes : decodes (BuildRenewMessage f cfg) RENEW x [client; server; elapsed_zero; renewed_option].
Proof. pose proof renewed_option_wf. unfold BuildRenewMessage. build. Qed.

Lemma BuildRebindMessage_decodes : decodes (BuildRebindMessage f cfg) REBIND x [client; elapsed_zero; renewed_option].
Proof. pose proof renewed_option_wf. unfold BuildRebindMessage. build. Qed.

Lemma BuildReleaseMessage_decodes : decodes (BuildReleaseMessage f cfg) RELEASE x [client; server; ia_na_empty].
Proof. unfold BuildReleaseMessage. build. Qed.

Lemma BuildDeclineMessage_decodes declined : (length declined <= 2340)%nat ->
  decodes (BuildDeclineMessage f cfg declined) DECLINE (random_id f)
    [client; server; BuildIaNaOptionWithAddresses 1 0 0 declined 0 0].
Proof.
  intros Hd. assert (0 <= random_id f < 2 ^ 24) by (destruct Hf as [_ _ Hr]; unfold MAX_TRANSACTION_ID in Hr; lia).
  unfold BuildDeclineMessage. build.
Qed.
End Messages.


(** The options of a server's reply, decoded one by one. *)
Lemma parse_serverId server adv : size server <= 128 ->
  parse_reply_option (id_option OPTION_SERVERID server) adv = Some (set_serverId server adv).
Proof.
  intros Hs. unfold parse_reply_option. change (code (id_option OPTION_SERVERID server) =? OPTION_SERVERID) with true. cbv iota.
  unfold ParseServerIdOption, MAX_DUID_LENGTH. cbn [data id_option]. by rewrite Z.gtb_ltb, (proj2 (Z.ltb_ge _ _)).
Qed.

Lemma parse_ia_na i x1 x2 pref valid addrs adv : is_u32 i -> is_u32 x1 -> is_u32 x2 -> is_u32 pref -> is_u32 valid ->
  parse_reply_option (BuildIaNaOptionWithAddresses i x1 x2 addrs pref valid) adv = Some (with_ia_na i x1 x2 pref valid addrs adv).
Proof.
  intros. unfold parse_reply_option. cbn [code BuildIaNaOptionWithAddresses BuildIaNaOption sized].
  change (OPTION_IA_NA =? OPTION_SERVERID) with false. change (OPTION_IA_NA =? OPTION_PREFERENCE) with false.
  change (OPTION_IA_NA =? OPTION_IA_NA) with true. cbv iota. by rewrite ParseIaNaOption_built.
Qed.

Lemma parse_dns dns adv : Forall (fun a => size a = 16) dns ->
  parse_reply_option (sized OPTION_DNS_SERVERS (concat dns)) adv =
  Some (set_dnsServers (dnsServers adv ++ map inet6_ntop (take 16 dns)) adv).
Proof.
  intros Hd. unfold parse_reply_option. cbn [code sized].
  change (OPTION_DNS_SERVERS =? OPTION_SERVERID) with false. change (OPTION_DNS_SERVERS =? OPTION_PREFERENCE) with false.
  change (OPTION_DNS_SERVERS =? OPTION_IA_NA) with false. change (OPTION_DNS_SERVERS =? OPTION_DNS_SERVERS) with true. cbv iota.
  fold (sized OPTION_DNS_SERVERS (concat dns)). by rewrite ParseDnsServersOption_built.
Qed.

Lemma canonical_texts addrs : Forall address_text addrs -> map (fun s => inet6_ntop (address_of s)) addrs = addrs.
Proof. induction 1 as [|s l Hs _ IH]; [done|]. cbn [map]. by rewrite address_text_canonical, IH. Qed.

(** The options of such a reply. *)
Definition reply_options (client server : bytes) (i x1 x2 pref valid : Z) (addrs dns : list bytes) : list DhcpV6Option :=
  [id_option OPTION_CLIENTID client; id_option OPTION_SERVERID server;
   BuildIaNaOptionWithAddresses i x1 x2 addrs pref valid; sized OPTION_DNS_SERVERS (concat dns)].

Lemma reply_options_read client server i x1 x2 pref valid addrs dns :
  size server <= 128 -> is_u32 i -> is_u32 x1 -> is_u32 x2 -> is_u32 pref -> is_u32 valid ->
  addrs <> [] -> Forall address_text addrs -> Forall (fun a => size a = 16) dns ->
  ParseReplyOptions (reply_options client server i x1 x2 pref valid addrs dns) empty_advertise =
  Some (mkAdvertise server 0 (take 8 addrs) i x1 x2 pref valid (map inet6_ntop (take 16 dns)) STATUS_SUCCESS []).
Proof.
  intros Hs Hi H1 H2 Hp Hv Hne Ha Hd. unfold ParseReplyOptions, reply_options. cbn [ParseReplyOptions_loop].
  change (parse_reply_option (id_option OPTION_CLIENTID client) empty_advertise) with (Some empty_advertise).
  change (0 + 1 >? MAX_OPTIONS_PER_MESSAGE) with false. change (0 + 1 + 1 >? MAX_OPTIONS_PER_MESSAGE) with false.
  change (0 + 1 + 1 + 1 >? MAX_OPTIONS_PER_MESSAGE) with false. change (0 + 1 + 1 + 1 + 1 >? MAX_OPTIONS_PER_MESSAGE) with false. cbv iota.
  rewrite bind_some, parse_serverId, bind_some, parse_ia_na, bind_some, parse_dns, bind_some by done.
  unfold with_ia_na. rewrite canonical_texts by (by apply Forall_take). by destruct addrs.
Qed.

Lemma reply_options_wf client server i x1 x2 pref valid addrs dns :
  is_u16 (size client) -> Forall is_u8 client -> size server <= 128 -> Forall is_u8 server ->
  (length addrs <= 2340)%nat -> Forall (fun a => size a = 16 /\ Forall is_u8 a) dns -> (length dns <= 4095)%nat ->
  Forall option_wf (reply_options client server i x1 x2 pref valid addrs dns).
Proof.
  intros Hcs Hcu Hss Hsu Hn Hd Hnd. unfold reply_options. rewrite !Forall_cons, Forall_nil. split_and!; [..|done].
  - by apply id_option_wf.
  - apply id_option_wf; [done|unfold is_u16; pose proof (size_nonneg server); lia|done].
  - by apply ia_na_wf.
  - apply sized_wf; [done| |].
    + rewrite concat_length; [unfold is_u16; lia|]. eapply Forall_impl; [done|]. by intros a [? _].
    + clear -Hd. induction Hd as [|a l [_ Hu] _ IH]; [done|]. by apply Forall_app.
Qed.

Lemma reply_decoded_lemma x client server i x1 x2 pref valid addrs dns :
  0 <= x < 2 ^ 24 ->
  is_u16 (size client) -> Forall is_u8 client -> size server <= 128 -> Forall is_u8 server ->
  is_u32 i -> is_u32 x1 -> is_u32 x2 -> is_u32 pref -> is_u32 valid ->
  addrs <> [] -> (length addrs <= 2340)%nat -> Forall address_text addrs ->
  Forall (fun a => size a = 16 /\ Forall is_u8 a) dns -> (length dns <= 4095)%nat ->
  let os := reply_options client server i x1 x2 pref valid addrs dns in
  let adv := mkAdvertise server 0 (take 8 addrs) i x1 x2 pref valid (map inet6_ntop (take 16 dns)) STATUS_SUCCESS [] in
  ParseV6Reply (BuildMessage REPLY x os) empty_advertise = Some (true, adv) /\
  ParseV6Advertise (BuildMessage ADVERTISE x os) empty_advertise = Some (true, adv).
Proof.
  intros Hx Hcs Hcu Hss Hsu Hi H1 H2 Hp Hv Hne Hn Ha Hd Hnd os adv.
  assert (Ho : Forall option_wf os) by (by apply reply_options_wf).
  assert (Er : ParseReplyOptions os empty_advertise = Some adv).
  { apply reply_options_read; try done. eapply Forall_impl; [done|]. by intros a [? _]. }
  assert (E : forall t, SOLICIT <= t <= RELAY_REPL -> parse_typed t (BuildMessage t x os) empty_advertise = Some (true, adv)).
  { intros t Ht. unfold parse_typed. rewrite (decodes_built t x) by done.
    rewrite bind_some. cbn [negb msgType options]. rewrite Z.eqb_refl. cbn [negb]. by rewrite Er. }
  by split; apply E.
Qed.

(** A server's ADVERTISE or REPLY with an identifier, addresses and name servers
    is decoded to exactly these: the first eight addresses and the first sixteen
    servers, as texts, with the lifetimes of the addresses. *)
Theorem v6_reply_decoded x client server i x1 x2 pref valid addrs dns :
  0 <= x < 2 ^ 24 ->
  is_u16 (size client) -> Forall is_u8 client -> size server <= 128 -> Forall is_u8 server ->
  is_u32 i -> is_u32 x1 -> is_u32 x2 -> is_u32 pref -> is_u32 valid ->
  addrs <> [] -> (length addrs <= 2340)%nat -> Forall address_text addrs ->
  Forall (fun a => size a = 16 /\ Forall is_u8 a) dns -> (length dns <= 4095)%nat ->
  let os := reply_options client server i x1 x2 pref valid addrs dns in
  let adv := mkAdvertise server 0 (take 8 addrs) i x1 x2 pref valid (map inet6_ntop (take 16 dns)) STATUS_SUCCESS [] in
  ParseV6Reply (BuildMessage REPLY x os) empty_advertise = Some (true, adv) /\
  ParseV6Advertise (BuildMessage ADVERTISE x os) empty_advertise = Some (true, adv).
Proof. apply reply_decoded_lemma. Qed.

(** Whatever a datagram holds, decoding it as a reply reads only inside it and
    ends, and what is found is bounded: at most 512 addresses and 1024 name
    servers, all of them texts of addresses, an identifier of at most 128 bytes, a
    status message of at most 1024, numbers of their types; and a reply is
    accepted only when it is a well-formed REPLY with status success, or without
    one. *)
Theorem v6_reply_bounded d : Forall is_u8 d ->
  reply_decoded REPLY d (ParseV6Reply d empty_advertise) /\ reply_decoded ADVERTISE d (ParseV6Advertise d empty_advertise).
Proof. intros. split; [by apply ParseV6Reply_spec|by apply ParseV6Advertise_spec]. Qed.

(** The identifier the client makes is not a DUID-LLT: the type takes one byte
    where it has two, so a reader finds the type 256, and the hardware type and
    the time are one byte early. *)
Theorem GenerateDuid_malformed f mac : fresh_wf f -> (forall m, mac = Some m -> length m = 6%nat) ->
  read16 (GenerateDuid f mac) 0 = Some 256 /\ size (GenerateDuid f mac) = 13.
Proof.
  intros [Hl _ _] Hm. assert (E : exists r, GenerateDuid f mac = be16 256 ++ r /\ size r = 11).
  { unfold GenerateDuid. destruct mac as [m|]; eexists (1 :: _ ++ _); (split; [reflexivity|]); rewrite size_cons, size_app;
      unfold size; rewrite ?length_map, ?(Hm m eq_refl), ?Hl; done. }
  destruct E as (r & -> & Hr). split; [by apply (read16_at [] 256)|]. rewrite size_app, Hr. done.
Qed.

(** The lesser lifetime depends on the order: an address with lifetime zero,
    which is no longer valid, counts when it comes last and is forgotten when
    another follows. *)
Theorem UpdateMinLifetime_order a b : 0 < a -> 0 < b ->
  UpdateMinLifetime (UpdateMinLifetime 0 a) b = Z.min a b /\
  UpdateMinLifetime (UpdateMinLifetime 0 a) 0 = 0 /\ UpdateMinLifetime (UpdateMinLifetime 0 0) b = b.
Proof. intros Ha Hb. unfold UpdateMinLifetime. repeat case_match; btauto_hyps; lia. Qed.
End Codec.

(** * Concrete messages *)

Definition sample_duid : bytes := [0; 1; 0; 1; 41; 7; 9; 11; 2; 170; 187; 204; 221; 238].
Definition sample_fresh : Fresh := mkFresh 1700000000 [2; 1; 2; 3; 4; 5] 0x123456.
(** 2001:db8::1 and 2001:db8::2. *)
Definition sample_address (k : Z) : bytes := [0x20; 1; 0xd; 0xb8; 0; 0; 0; 0; 0; 0; 0; 0; 0; 0; 0; k].
Definition sample_config : DhcpV6Config :=
  mkConfig sample_duid sample_duid 0xabcdef [] false [inet6_ntop (sample_address 1)] 1800 3600.

Lemma sample_fresh_wf : fresh_wf sample_fresh.
Proof. split; [done|by apply all_u8|by vm_compute]. Qed.
Lemma sample_config_wf : config_wf sample_config.
Proof. split; [split; [by vm_compute|by apply all_u8]|split; [by vm_compute|by apply all_u8]|by vm_compute|cbn; lia|by split; apply check_u32]. Qed.
Lemma sample_text k : is_u8 k -> address_text (inet6_ntop (sample_address k)).
Proof. intros Hk. exists (sample_address k). split_and!; [done|unfold sample_address|done]. repeat (constructor; [by vm_compute || done|]). constructor. Qed.


Lemma v6_reply_decoded_witness :
  exists adv, ParseV6Reply (BuildMessage REPLY 7 (reply_options sample_duid sample_duid 1 0 0 1800 3600
      [inet6_ntop (sample_address 1); inet6_ntop (sample_address 2)] [sample_address 3])) empty_advertise = Some (true, adv) /\
    ipv6Addresses adv = [inet6_ntop (sample_address 1); inet6_ntop (sample_address 2)] /\ dnsServers adv = [inet6_ntop (sample_address 3)].
Proof.
  destruct (v6_reply_decoded 7 sample_duid sample_duid 1 0 0 1800 3600
    [inet6_ntop (sample_address 1); inet6_ntop (sample_address 2)] [sample_address 3]) as [H _];
    [done|by vm_compute|by apply all_u8|done|by apply all_u8|by apply check_u32..|done|cbn; lia| | |cbn; lia|].
  - repeat (constructor; [by apply sample_text|]). constructor.
  - constructor; [|constructor]. split; [done|by apply all_u8].
  - eexists. split; [exact H|done].
Defined.

Lemma v6_reply_bounded_witness : reply_decoded REPLY [7; 0; 0; 1; 0; 2; 255; 255] (ParseV6Reply [7; 0; 0; 1; 0; 2; 255; 255] empty_advertise).
Proof. apply v6_reply_bounded. by apply all_u8. Defined.

Lemma ParseV6Message_inverts_witness :
  ParseV6Message [1; 0; 0; 7; 0; 8; 0; 2; 0; 0] empty_info = Some (true, mkInfo SOLICIT 7 [elapsed_zero]).
Proof.
  apply (ParseV6Message_inverts [1; 0; 0; 7; 0; 8; 0; 2; 0; 0] empty_info); [by apply all_u8|]. split; [|done].
  split; [done|done|]. constructor; [|constructor]. split; try by vm_compute. by apply all_u8.
Defined.
