(* ===== verification/V6Machine.v ===== *)
(** The state machine of the DHCPv6 client
    (src/services/dhcp_v6_client/src/dhcp_v6_statemachine.cpp and its header).

    The class derives from a state-machine framework of another project, which
    calls GoInState and GoOutState of the states it enters and leaves and gives
    them messages, and which offers SwitchState, MessageExecutedLater, StopTimer
    and SendMessage.  What the handlers ask of the framework is recorded in the
    trace, in order; when and in which order the framework calls the handlers is
    left open, so the theorems hold for every sequence of calls.

    Each query of the clock or of a random number takes the next reading of a
    [V6Environment].  [None] is undefined behaviour. *)
From S2P Require Import Prelude AddressUtils ClientOptions V6Message.

Definition CMD_START : Z := 0x01.
Definition CMD_STOP : Z := 0x02.
Definition CMD_MESSAGE_RECEIVED : Z := 0x03.
Definition CMD_TIMEOUT : Z := 0x04.
Definition CMD_ERROR : Z := 0x05.
Definition CMD_DAD_CONFLICT : Z := 0x06.
Definition CMD_T2_TIMEOUT : Z := 0x07.
Definition CMD_EXPIRE_TIMEOUT : Z := 0x08.

Definition MS_PER_SECOND : Z := 1000.
Definition BASE_TIMEOUT_MS : Z := 1000.
Definition TIMEOUT_INCREMENT_MS : Z := 1000.
Definition DEFAULT_MAX_RETRIES : Z := 3.
Definition ERR_GENERIC : Z := -1.
Definition ERR_DAD_FAILED : Z := -3.
Definition ERR_LEASE_EXPIRED : Z := -4.
Definition ERR_RETRY_EXCEEDED : Z := -5.
Definition T2_LIFETIME_RATIO : Z := 80.
Definition LIFETIME_RATIO_BASE : Z := 100.
Definition T1_DIVISOR : Z := 2.
Definition INFINITE_LIFETIME : Z := 0xFFFFFFFF.

(** The states, and the tree they are put in. *)
Inductive V6State :=
| InitState | InfoRequestState | SolicitState | AdvertiseState | RequestState
| BoundState | RenewState | RebindState | ReleaseState | FailState.
#[export] Instance V6State_eq_dec : EqDecision V6State.
Proof. solve_decision. Defined.

Record DhcpV6Result := mkResult {
  res_ipv6Addresses : list bytes; res_dnsServers : list bytes; res_preferredLifetime : Z; res_validLifetime : Z;
  res_t1 : Z; res_t2 : Z; ready : bool
}.
Definition empty_result : DhcpV6Result := mkResult [] [] 0 0 0 0 false.

(** What the handlers ask of the framework, the socket and the client. *)
Inductive v6action :=
| StatePlus (s : V6State) (upper : option V6State)
| SetFirstState (s : V6State)
| StartStateMachine
| SwitchState (s : V6State)
| MessageExecutedLater (cmd : Z) (delay : Z)
| StopTimer (cmd : Z)
| SendMessage (cmd : Z) (obj : bytes)
| DhcpV6Send (message : bytes)
| Succeeded (result : DhcpV6Result)
| Failed (errorCode : Z)
| Expired.

Record V6 := mkV6 {
  socket_ : bool; iface_ : bytes; config_ : DhcpV6Config; result_ : DhcpV6Result; currentAdvertise_ : DhcpV6Advertise;
  transactionId_ : Z; retryCount_ : Z; maxRetries_ : Z; currentTimeout_ : Z; isStopping_ : bool;
  t2DeadlineMs_ : Z; expireDeadlineMs_ : Z;
  successCallback_ : bool; failureCallback_ : bool; expiredCallback_ : bool;
  readings : nat; v6trace : list v6action
}.

(** The record from its members; assignments replace one of them. *)
Definition eta6 (s : V6) : V6 :=
  mkV6 (socket_ s) (iface_ s) (config_ s) (result_ s) (currentAdvertise_ s) (transactionId_ s) (retryCount_ s)
    (maxRetries_ s) (currentTimeout_ s) (isStopping_ s) (t2DeadlineMs_ s) (expireDeadlineMs_ s)
    (successCallback_ s) (failureCallback_ s) (expiredCallback_ s) (readings s) (v6trace s).

Ltac set_v6 proj s v :=
  let e := eval unfold eta6 in (eta6 s) in
  match e with context C [proj s] => let r := context C [v] in exact r end.

Definition set_socket_ (v : bool) (s : V6) : V6 := ltac:(set_v6 socket_ s v).
Definition set_iface_ (v : bytes) (s : V6) : V6 := ltac:(set_v6 iface_ s v).
Definition set_config_ (v : DhcpV6Config) (s : V6) : V6 := ltac:(set_v6 config_ s v).
Definition set_result_ (v : DhcpV6Result) (s : V6) : V6 := ltac:(set_v6 result_ s v).
Definition set_currentAdvertise_ (v : DhcpV6Advertise) (s : V6) : V6 := ltac:(set_v6 currentAdvertise_ s v).
Definition set_transactionId_ (v : Z) (s : V6) : V6 := ltac:(set_v6 transactionId_ s v).
Definition set_retryCount_ (v : Z) (s : V6) : V6 := ltac:(set_v6 retryCount_ s v).
Definition set_currentTimeout_ (v : Z) (s : V6) : V6 := ltac:(set_v6 currentTimeout_ s v).
Definition set_isStopping_ (v : bool) (s : V6) : V6 := ltac:(set_v6 isStopping_ s v).
Definition set_t2DeadlineMs_ (v : Z) (s : V6) : V6 := ltac:(set_v6 t2DeadlineMs_ s v).
Definition set_expireDeadlineMs_ (v : Z) (s : V6) : V6 := ltac:(set_v6 expireDeadlineMs_ s v).
Definition set_callbacks_ (a b : bool) (s : V6) : V6 :=
  mkV6 (socket_ s) (iface_ s) (config_ s) (result_ s) (currentAdvertise_ s) (transactionId_ s) (retryCount_ s)
    (maxRetries_ s) (currentTimeout_ s) (isStopping_ s) (t2DeadlineMs_ s) (expireDeadlineMs_ s)
    a b (expiredCallback_ s) (readings s) (v6trace s).
Definition set_expiredCallback_ (v : bool) (s : V6) : V6 := ltac:(set_v6 expiredCallback_ s v).
Definition set_readings (v : nat) (s : V6) : V6 := ltac:(set_v6 readings s v).
Definition set_v6trace (v : list v6action) (s : V6) : V6 := ltac:(set_v6 v6trace s v).

(** The constructor. *)
Definition empty_config : DhcpV6Config := mkConfig [] [] 0 [] false [] 0 0.
Definition DhcpV6StateMachine : V6 :=
  mkV6 false [] empty_config empty_result empty_advertise 0 0 DEFAULT_MAX_RETRIES BASE_TIMEOUT_MS false 0 0
    false false false 0 [].

Class V6Environment := {
  fresh : nat -> Fresh;          (* clock and random numbers a message takes *)
  now_ms : nat -> Z;             (* GetCurrentTimeMs *)
  framework_starts : nat -> bool (* InitialStateMachine *)
}.
Class V6EnvironmentLaws (E : V6Environment) := {
  fresh_law : forall n, fresh_wf (fresh n);
  now_law : forall n, 0 <= now_ms n < 2 ^ 63
}.

(** A message of the framework: its name and the object it carries. *)
Record InternalMessage := mkMessage { GetMessageName : Z; GetMessageObj : bytes }.

Section Machine.
Context {I6 : Inet6Text} {EN : V6Environment}.

Definition reading {A} (r : nat -> A) : M V6 A :=
  let* n := get readings in modify (set_readings (S n)) ;; ret (r n).
Definition ask (a : v6action) : M V6 unit := modify (fun s => set_v6trace (v6trace s ++ [a]) s).

(** GenerateTransactionId and GetCurrentTimeMs. *)
Definition GenerateTransactionId_ : M V6 Z := let* f := reading fresh in ret (GenerateTransactionId f).
Definition GetCurrentTimeMs : M V6 Z := reading now_ms.

(** * The machine *)

Definition InitDhcpV6States : M V6 unit := ret tt.
Definition BuildStateTree : M V6 unit :=
  ask (StatePlus InitState None) ;;
  ask (StatePlus InfoRequestState (Some InitState)) ;;
  ask (StatePlus SolicitState (Some InitState)) ;;
  ask (StatePlus AdvertiseState (Some SolicitState)) ;;
  ask (StatePlus RequestState (Some InitState)) ;;
  ask (StatePlus BoundState (Some InitState)) ;;
  ask (StatePlus RenewState (Some BoundState)) ;;
  ask (StatePlus RebindState (Some BoundState)) ;;
  ask (StatePlus ReleaseState (Some InitState)) ;;
  ask (StatePlus FailState (Some InitState)).

Definition InitDhcpV6StateMachine : M V6 bool :=
  let* ok := reading framework_starts in
  if negb ok then ret false
  else
    InitDhcpV6States ;;
    BuildStateTree ;;
    ask (SetFirstState InitState) ;;
    ask StartStateMachine ;;
    ret true.

Definition SetSocket (socket : bool) : M V6 unit := modify (set_socket_ socket).
Definition SetConfig (config : DhcpV6Config) : M V6 unit :=
  modify (set_config_ config) ;;
  let* id := GenerateTransactionId_ in
  modify (set_transactionId_ id).
Definition SetResultCallback (successCallback failureCallback : bool) : M V6 unit :=
  modify (set_callbacks_ successCallback failureCallback).
Definition SetExpiredCallback (expiredCallback : bool) : M V6 unit := modify (set_expiredCallback_ expiredCallback).
Definition SetIfaceName (iface : bytes) : M V6 unit := modify (set_iface_ iface).
Definition SetStopping (stopping : bool) : M V6 unit := modify (set_isStopping_ stopping).
Definition IsStopping : M V6 bool := get isStopping_.
Definition IncrementRetryCount : M V6 unit := modify (fun s => set_retryCount_ (i32 (retryCount_ s + 1)) s).
Definition ResetRetryCount : M V6 unit := modify (set_retryCount_ 0).
Definition SetCurrentTimeout (timeout : Z) : M V6 unit := modify (set_currentTimeout_ timeout).
Definition SetCurrentAdvertise (adv : DhcpV6Advertise) : M V6 unit := modify (set_currentAdvertise_ adv).
Definition SetResult (res : DhcpV6Result) : M V6 unit := modify (set_result_ res).
Definition SetTransactionId (id : Z) : M V6 unit := modify (set_transactionId_ id).
Definition SetT2DeadlineMs (deadline : Z) : M V6 unit := modify (set_t2DeadlineMs_ deadline).
Definition SetExpireDeadlineMs (deadline : Z) : M V6 unit := modify (set_expireDeadlineMs_ deadline).
Definition ClearT2Deadline : M V6 unit := modify (set_t2DeadlineMs_ 0).
Definition ClearExpireDeadline : M V6 unit := modify (set_expireDeadlineMs_ 0).

Definition IsDhcpV6ConfiguredAddress (addr : bytes) : M V6 bool :=
  let* r := get result_ in ret (existsb (fun a => bool_decide (a = addr)) (res_ipv6Addresses r)).

(** CreateMessage of the framework does not fail. *)
Definition OnKernelDadConflict (addr : bytes) : M V6 unit :=
  let* ours := IsDhcpV6ConfiguredAddress addr in
  if negb ours then ret tt else ask (SendMessage CMD_DAD_CONFLICT addr).

Definition OnSuccess : M V6 unit :=
  let* cb := get successCallback_ in
  let* r := get result_ in
  when cb (ask (Succeeded r)).
Definition OnFailure (errorCode : Z) : M V6 unit :=
  let* cb := get failureCallback_ in when cb (ask (Failed errorCode)).
Definition OnLeaseExpired : M V6 unit :=
  let* cb := get expiredCallback_ in when cb (ask Expired).

Definition with_serverId (v : bytes) (c : DhcpV6Config) : DhcpV6Config :=
  mkConfig (clientId c) v (cfg_transactionId c) (requestedOptions c) (stateless c) (cfg_ipv6Addresses c)
    (cfg_preferredLifetime c) (cfg_validLifetime c).
Definition with_transactionId (v : Z) (c : DhcpV6Config) : DhcpV6Config :=
  mkConfig (clientId c) (cfg_serverId c) v (requestedOptions c) (stateless c) (cfg_ipv6Addresses c)
    (cfg_preferredLifetime c) (cfg_validLifetime c).
Definition with_lease (addrs : list bytes) (pref valid : Z) (c : DhcpV6Config) : DhcpV6Config :=
  mkConfig (clientId c) (cfg_serverId c) (cfg_transactionId c) (requestedOptions c) (stateless c) addrs pref valid.

(** The result of a reply; the product is of 32-bit numbers. *)
Definition lease_result (advertise : DhcpV6Advertise) (ready_ : bool) : DhcpV6Result :=
  let valid := validLifetime advertise in
  let isInfinite := valid =? INFINITE_LIFETIME in
  let finite := negb (valid =? 0) && negb isInfinite in
  mkResult (ipv6Addresses advertise) (dnsServers advertise) (preferredLifetime advertise) valid
    (if finite && (t1 advertise =? 0) then valid / T1_DIVISOR else t1 advertise)
    (if finite && (t2 advertise =? 0) then u32 (valid * T2_LIFETIME_RATIO) / LIFETIME_RATIO_BASE else t2 advertise)
    ready_.
Definition ProcessResultInfo (advertise : DhcpV6Advertise) : M V6 unit :=
  let* r := get result_ in
  modify (set_result_ (lease_result advertise (ready r))) ;;
  let* config := get config_ in
  modify (set_config_ (with_serverId (serverId advertise) config)).

(** [BASE_TIMEOUT_MS + (retryCount_ * TIMEOUT_INCREMENT_MS)]: unsigned. *)
Definition retry_timeout (retryCount : Z) : Z := u32 (BASE_TIMEOUT_MS + u32 (retryCount * TIMEOUT_INCREMENT_MS)).

(** The statements that start the timer of an exchange. *)
Definition start_retry_timer : M V6 unit :=
  let* n := get retryCount_ in
  let timeout := retry_timeout n in
  SetCurrentTimeout (u32 timeout) ;;
  IncrementRetryCount ;;
  ask (MessageExecutedLater CMD_TIMEOUT timeout).

Definition ProcessTimeoutWithRetry (message : bytes) : M V6 bool :=
  let* n := get retryCount_ in
  let* maximum := get maxRetries_ in
  if n >? maximum then
    OnFailure ERR_RETRY_EXCEEDED ;;
    ask (SwitchState FailState) ;;
    ret false
  else
    let* socket := get socket_ in
    when socket (ask (DhcpV6Send message)) ;;
    start_retry_timer ;;
    ret true.

Definition SendRenewOrRebindMsg (renew : bool) : M V6 unit :=
  let* socket := get socket_ in
  if negb socket then ret tt
  else
    let* config := get config_ in
    let* id := GenerateTransactionId_ in
    let config := with_transactionId id config in
    SetTransactionId id ;;
    let config := with_serverId (if renew then cfg_serverId config else []) config in
    let* r := get result_ in
    let config := with_lease (res_ipv6Addresses r) (res_preferredLifetime r) (res_validLifetime r) config in
    let* f := reading fresh in
    ask (DhcpV6Send (if renew then BuildRenewMessage f config else BuildRebindMessage f config)).

Definition ProcessRenewOrRebind (renew : bool) : M V6 unit :=
  let* socket := get socket_ in
  if negb socket then ret tt
  else
    let* nowMs := GetCurrentTimeMs in
    let* deadline := get (if renew then t2DeadlineMs_ else expireDeadlineMs_) in
    let deadlineCmd := if renew then CMD_T2_TIMEOUT else CMD_EXPIRE_TIMEOUT in
    if (deadline >? 0) && (nowMs >=? deadline) then
      if renew then
        ClearT2Deadline ;;
        ask (SwitchState RebindState)
      else
        OnFailure ERR_LEASE_EXPIRED ;;
        OnLeaseExpired ;;
        ClearExpireDeadline ;;
        ask (SwitchState InitState)
    else
      SendRenewOrRebindMsg renew ;;
      ResetRetryCount ;;
      let* n := get retryCount_ in
      let timeout := retry_timeout n in
      let remainingMs := if deadline >? nowMs then deadline - nowMs else 0 in
      if (deadline >? 0) && ((remainingMs >? 0) && (remainingMs <? timeout)) then
        SetCurrentTimeout (u32 remainingMs) ;;
        ask (MessageExecutedLater deadlineCmd remainingMs)
      else
        SetCurrentTimeout (u32 timeout) ;;
        IncrementRetryCount ;;
        ask (MessageExecutedLater CMD_TIMEOUT timeout).

(** * The states *)

(** InitState. *)
Definition Init_GoInState : M V6 unit :=
  ResetRetryCount ;;
  SetCurrentAdvertise empty_advertise ;;
  SetResult empty_result ;;
  SetStopping false.
Definition Init_ProcessStart : M V6 bool :=
  let* config := get config_ in
  (if stateless config then ask (SwitchState InfoRequestState) else ask (SwitchState SolicitState)) ;;
  ret true.
Definition Init_ExecuteStateMsg (msg : option InternalMessage) : M V6 bool :=
  match msg with
  | None => ret false
  | Some m => if GetMessageName m =? CMD_START then Init_ProcessStart else ret false
  end.

(** The message of an exchange with the machine's transaction. *)
Definition transaction_config : M V6 DhcpV6Config :=
  let* config := get config_ in
  let* id := get transactionId_ in
  ret (with_transactionId id config).

(** A received datagram as the states other than [InitState] take it: decoded,
    and of the machine's transaction. *)
Definition received_info (msg : InternalMessage) : M V6 (option DhcpV6MessageInfo) :=
  let* '(ok, msgInfo) := from_option (ParseV6Message (GetMessageObj msg) empty_info) in
  if negb ok then ret None
  else
    let* id := get transactionId_ in
    if negb (transactionId msgInfo =? id) then ret None else ret (Some msgInfo).

(** InfoRequestState. *)
Definition InfoRequest_GoInState : M V6 unit :=
  let* socket := get socket_ in
  if negb socket then ret tt
  else
    let* config := transaction_config in
    let* f := reading fresh in
    ask (DhcpV6Send (BuildInformationRequestMessage f config)) ;;
    start_retry_timer.
Definition InfoRequest_GoOutState : M V6 unit := ask (StopTimer CMD_TIMEOUT).
Definition InfoRequest_ProcessMessageReceived (msg : InternalMessage) : M V6 bool :=
  let* info := received_info msg in
  match info with
  | None => ret false
  | Some _ =>
      let* '(ok, reply) := from_option (ParseV6Reply (GetMessageObj msg) empty_advertise) in
      if negb ok then ret false
      else
        ProcessResultInfo reply ;;
        OnSuccess ;;
        ask (SwitchState InitState) ;;
        ret true
  end.
Definition InfoRequest_ProcessTimeout : M V6 bool :=
  let* config := transaction_config in
  let* f := reading fresh in
  let* r := ProcessTimeoutWithRetry (BuildInformationRequestMessage f config) in
  ret true.

(** ProcessStop of the states that have no lease, and of those that have one. *)
Definition ProcessStop_init : M V6 bool := ask (SwitchState InitState) ;; ret true.
Definition ProcessStop_release : M V6 bool := ask (SwitchState ReleaseState) ;; ret true.

Definition InfoRequest_ExecuteStateMsg (msg : option InternalMessage) : M V6 bool :=
  match msg with
  | None => ret false
  | Some m =>
      if GetMessageName m =? CMD_MESSAGE_RECEIVED then InfoRequest_ProcessMessageReceived m
      else if GetMessageName m =? CMD_TIMEOUT then InfoRequest_ProcessTimeout
      else if GetMessageName m =? CMD_STOP then ProcessStop_init
      else ret false
  end.

(** SolicitState. *)
Definition Solicit_GoInState : M V6 unit :=
  let* socket := get socket_ in
  if negb socket then ret tt
  else
    let* config := transaction_config in
    let* f := reading fresh in
    ask (DhcpV6Send (BuildSolicitMessage f config)) ;;
    ask (SwitchState AdvertiseState).
Definition Solicit_ExecuteStateMsg (msg : option InternalMessage) : M V6 bool :=
  match msg with
  | None => ret false
  | Some m => if GetMessageName m =? CMD_STOP then ProcessStop_init else ret false
  end.

(** AdvertiseState. *)
Definition Advertise_GoInState : M V6 unit :=
  ResetRetryCount ;;
  start_retry_timer.
Definition Advertise_GoOutState : M V6 unit := ask (StopTimer CMD_TIMEOUT).

Definition is_empty {A} (l : list A) : bool := match l with [] => true | _ => false end.

Definition Advertise_ProcessMessageReceived (msg : InternalMessage) : M V6 bool :=
  let* info := received_info msg in
  match info with
  | None => ret false
  | Some _ =>
      let* '(ok, advertise) := from_option (ParseV6Advertise (GetMessageObj msg) empty_advertise) in
      if negb ok then ret false
      else if is_empty (ipv6Addresses advertise) then ret true
      else
        let* current := get currentAdvertise_ in
        if preference advertise =? 0 then
          when (is_empty (ipv6Addresses current)) (SetCurrentAdvertise advertise) ;;
          ret true
        else
          let shouldUse := is_empty (ipv6Addresses current) in
          let shouldUse := shouldUse || (preference advertise >? preference current) in
          let* config := get config_ in
          if negb (is_empty (cfg_serverId config)) && negb (bool_decide (serverId advertise = cfg_serverId config)) then ret true
          else
            when shouldUse (SetCurrentAdvertise advertise ;; ask (SwitchState RequestState)) ;;
            ret true
  end.
Definition Advertise_ProcessTimeout : M V6 bool :=
  let* savedAdvertise := get currentAdvertise_ in
  if negb (is_empty (ipv6Addresses savedAdvertise)) then
    ask (SwitchState RequestState) ;;
    ret true
  else
    let* config := transaction_config in
    let* f := reading fresh in
    let* r := ProcessTimeoutWithRetry (BuildSolicitMessage f config) in
    ret true.
Definition Advertise_ExecuteStateMsg (msg : option InternalMessage) : M V6 bool :=
  match msg with
  | None => ret false
  | Some m =>
      if GetMessageName m =? CMD_MESSAGE_RECEIVED then Advertise_ProcessMessageReceived m
      else if GetMessageName m =? CMD_TIMEOUT then Advertise_ProcessTimeout
      else if GetMessageName m =? CMD_STOP then ProcessStop_init
      else ret false
  end.

(** RequestState. *)
Definition request_config : M V6 DhcpV6Config :=
  let* config := transaction_config in
  let* current := get currentAdvertise_ in
  ret (with_serverId (serverId current) config).
Definition Request_GoInState : M V6 unit :=
  let* socket := get socket_ in
  if negb socket then ret tt
  else
    let* config := request_config in
    let* current := get currentAdvertise_ in
    let* f := reading fresh in
    ask (DhcpV6Send (BuildRequestMessage f config current)) ;;
    ResetRetryCount ;;
    start_retry_timer.
Definition Request_GoOutState : M V6 unit := ask (StopTimer CMD_TIMEOUT).
Definition Request_ProcessMessageReceived (msg : InternalMessage) : M V6 bool :=
  let* info := received_info msg in
  match info with
  | None => ret false
  | Some msgInfo =>
      if negb (msgType msgInfo =? REPLY) then ret false
      else
        let* '(ok, reply) := from_option (ParseV6Reply (GetMessageObj msg) empty_advertise) in
        if negb ok then
          OnFailure ERR_GENERIC ;;
          ask (SwitchState FailState) ;;
          ret true
        else if is_empty (ipv6Addresses reply) then
          OnFailure ERR_GENERIC ;;
          ask (SwitchState FailState) ;;
          ret true
        else
          ProcessResultInfo reply ;;
          ask (SwitchState BoundState) ;;
          ret true
  end.
Definition Request_ProcessTimeout : M V6 bool :=
  let* config := request_config in
  let* current := get currentAdvertise_ in
  let* f := reading fresh in
  let* r := ProcessTimeoutWithRetry (BuildRequestMessage f config current) in
  ret true.
Definition Request_ExecuteStateMsg (msg : option InternalMessage) : M V6 bool :=
  match msg with
  | None => ret false
  | Some m =>
      if GetMessageName m =? CMD_MESSAGE_RECEIVED then Request_ProcessMessageReceived m
      else if GetMessageName m =? CMD_TIMEOUT then Request_ProcessTimeout
      else if GetMessageName m =? CMD_STOP then ProcessStop_init
      else ret false
  end.

(** BoundState. *)
Definition Bound_GoInState : M V6 unit :=
  OnSuccess ;;
  let* config := get config_ in
  if negb (stateless config) then
    let* result := get result_ in
    let t1 := res_t1 result in
    let t2 := res_t2 result in
    let validLifetime := res_validLifetime result in
    if validLifetime =? 0 then
      ClearT2Deadline ;;
      ClearExpireDeadline ;;
      ask (MessageExecutedLater CMD_TIMEOUT 0)
    else if validLifetime =? INFINITE_LIFETIME then ret tt
    else
      let* nowMs := GetCurrentTimeMs in
      SetT2DeadlineMs (u64 (nowMs + t2 * MS_PER_SECOND)) ;;
      SetExpireDeadlineMs (u64 (nowMs + validLifetime * MS_PER_SECOND)) ;;
      let t1Ms := t1 * MS_PER_SECOND in
      ask (MessageExecutedLater CMD_TIMEOUT t1Ms)
  else ret tt.
Definition Bound_GoOutState : M V6 unit :=
  ask (StopTimer CMD_TIMEOUT) ;;
  ClearT2Deadline ;;
  ClearExpireDeadline.
Definition Bound_ProcessTimeout : M V6 bool := ask (SwitchState RenewState) ;; ret true.
Definition Bound_ProcessDadConflict (msg : InternalMessage) : M V6 bool :=
  let addr := GetMessageObj msg in
  let* socket := get socket_ in
  when socket (
    let* config := get config_ in
    let* id := GenerateTransactionId_ in
    let* f := reading fresh in
    ask (DhcpV6Send (BuildDeclineMessage f (with_transactionId id config) [addr]))) ;;
  let* r := get result_ in
  SetResult (mkResult [] [] (res_preferredLifetime r) (res_validLifetime r) (res_t1 r) (res_t2 r) (ready r)) ;;
  ResetRetryCount ;;
  let* id := GenerateTransactionId_ in
  SetTransactionId id ;;
  let* config := get config_ in
  modify (set_config_ (with_serverId [] config)) ;;
  OnFailure ERR_DAD_FAILED ;;
  ask (SwitchState SolicitState) ;;
  ret true.
Definition Bound_ExecuteStateMsg (msg : option InternalMessage) : M V6 bool :=
  match msg with
  | None => ret false
  | Some m =>
      if GetMessageName m =? CMD_TIMEOUT then Bound_ProcessTimeout
      else if GetMessageName m =? CMD_STOP then ProcessStop_release
      else if GetMessageName m =? CMD_DAD_CONFLICT then Bound_ProcessDadConflict m
      else ret false
  end.

(** RenewState. *)
Definition Renew_GoInState : M V6 unit := ProcessRenewOrRebind true.
Definition Renew_GoOutState : M V6 unit := ask (StopTimer CMD_TIMEOUT) ;; ask (StopTimer CMD_T2_TIMEOUT).
Definition Renew_ProcessMessageReceived (msg : InternalMessage) : M V6 bool :=
  let* info := received_info msg in
  match info with
  | None => ret false
  | Some msgInfo =>
      if negb (msgType msgInfo =? REPLY) then ret false
      else
        let* '(ok, reply) := from_option (ParseV6Reply (GetMessageObj msg) empty_advertise) in
        if negb ok then ret false
        else if is_empty (ipv6Addresses reply) then
          ask (SwitchState RebindState) ;;
          ret true
        else
          ProcessResultInfo reply ;;
          ask (SwitchState BoundState) ;;
          ret true
  end.
Definition Renew_ProcessTimeout : M V6 bool := ProcessRenewOrRebind true ;; ret true.
Definition Renew_ExecuteStateMsg (msg : option InternalMessage) : M V6 bool :=
  match msg with
  | None => ret false
  | Some m =>
      if GetMessageName m =? CMD_MESSAGE_RECEIVED then Renew_ProcessMessageReceived m
      else if GetMessageName m =? CMD_TIMEOUT then Renew_ProcessTimeout
      else if GetMessageName m =? CMD_T2_TIMEOUT then
        ClearT2Deadline ;;
        ask (SwitchState RebindState) ;;
        ret true
      else if GetMessageName m =? CMD_STOP then ProcessStop_release
      else ret false
  end.

(** RebindState. *)
Definition Rebind_GoInState : M V6 unit := ProcessRenewOrRebind false.
Definition Rebind_GoOutState : M V6 unit := ask (StopTimer CMD_TIMEOUT) ;; ask (StopTimer CMD_EXPIRE_TIMEOUT).
Definition Rebind_ProcessMessageReceived (msg : InternalMessage) : M V6 bool :=
  let* info := received_info msg in
  match info with
  | None => ret false
  | Some msgInfo =>
      if negb (msgType msgInfo =? REPLY) then ret false
      else
        let* '(ok, reply) := from_option (ParseV6Reply (GetMessageObj msg) empty_advertise) in
        if negb ok then ret false
        else if is_empty (ipv6Addresses reply) then
          OnFailure ERR_LEASE_EXPIRED ;;
          OnLeaseExpired ;;
          ask (SwitchState InitState) ;;
          ret true
        else
          ProcessResultInfo reply ;;
          let* nowMs := GetCurrentTimeMs in
          (if negb (validLifetime reply =? INFINITE_LIFETIME)
           then SetExpireDeadlineMs (u64 (nowMs + validLifetime reply * MS_PER_SECOND))
           else ClearExpireDeadline) ;;
          ask (SwitchState BoundState) ;;
          ret true
  end.
Definition Rebind_ProcessTimeout : M V6 bool := ProcessRenewOrRebind false ;; ret true.
Definition Rebind_ExecuteStateMsg (msg : option InternalMessage) : M V6 bool :=
  match msg with
  | None => ret false
  | Some m =>
      if GetMessageName m =? CMD_MESSAGE_RECEIVED then Rebind_ProcessMessageReceived m
      else if GetMessageName m =? CMD_TIMEOUT then Rebind_ProcessTimeout
      else if GetMessageName m =? CMD_EXPIRE_TIMEOUT then
        OnFailure ERR_LEASE_EXPIRED ;;
        OnLeaseExpired ;;
        ClearExpireDeadline ;;
        ask (SwitchState InitState) ;;
        ret true
      else if GetMessageName m =? CMD_STOP then ProcessStop_release
      else ret false
  end.

(** ReleaseState. *)
Definition Release_GoInState : M V6 unit :=
  let* socket := get socket_ in
  if negb socket then ask (SwitchState InitState)
  else
    let* config := get config_ in
    let* id := GenerateTransactionId_ in
    let* f := reading fresh in
    ask (DhcpV6Send (BuildReleaseMessage f (with_transactionId id config))) ;;
    ask (SwitchState InitState).

(** FailState. *)
Definition Fail_ExecuteStateMsg (msg : option InternalMessage) : M V6 bool :=
  match msg with
  | None => ret false
  | Some m =>
      if GetMessageName m =? CMD_START then ask (SwitchState InitState) ;; ret true else ret false
  end.

(** The virtual functions of a state. *)
Definition GoInState (s : V6State) : M V6 unit :=
  match s with
  | InitState => Init_GoInState
  | InfoRequestState => InfoRequest_GoInState
  | SolicitState => Solicit_GoInState
  | AdvertiseState => Advertise_GoInState
  | RequestState => Request_GoInState
  | BoundState => Bound_GoInState
  | RenewState => Renew_GoInState
  | RebindState => Rebind_GoInState
  | ReleaseState => Release_GoInState
  | FailState => ret tt
  end.
Definition GoOutState (s : V6State) : M V6 unit :=
  match s with
  | InfoRequestState => InfoRequest_GoOutState
  | AdvertiseState => Advertise_GoOutState
  | RequestState => Request_GoOutState
  | BoundState => Bound_GoOutState
  | RenewState => Renew_GoOutState
  | RebindState => Rebind_GoOutState
  | InitState | SolicitState | ReleaseState | FailState => ret tt
  end.
Definition ExecuteStateMsg (s : V6State) (msg : option InternalMessage) : M V6 bool :=
  match s with
  | InitState => Init_ExecuteStateMsg msg
  | InfoRequestState => InfoRequest_ExecuteStateMsg msg
  | SolicitState => Solicit_ExecuteStateMsg msg
  | AdvertiseState => Advertise_ExecuteStateMsg msg
  | RequestState => Request_ExecuteStateMsg msg
  | BoundState => Bound_ExecuteStateMsg msg
  | RenewState => Renew_ExecuteStateMsg msg
  | RebindState => Rebind_ExecuteStateMsg msg
  | ReleaseState => ret false
  | FailState => Fail_ExecuteStateMsg msg
  end.

(** A call of a virtual function by the framework, or of a public method. *)
Inductive v6call :=
| GoIn (s : V6State)
| GoOut (s : V6State)
| Execute (s : V6State) (msg : option InternalMessage)
| Initialise
| Configure (config : DhcpV6Config)
| KernelDadConflict (addr : bytes)
| Stopping (stopping : bool).

Definition run_call (c : v6call) : M V6 unit :=
  match c with
  | GoIn s => GoInState s
  | GoOut s => GoOutState s
  | Execute s msg => ExecuteStateMsg s msg ;; ret tt
  | Initialise => InitDhcpV6StateMachine ;; ret tt
  | Configure config => SetConfig config
  | KernelDadConflict addr => OnKernelDadConflict addr
  | Stopping stopping => SetStopping stopping
  end.
Fixpoint run_calls (cs : list v6call) : M V6 unit :=
  match cs with
  | [] => ret tt
  | c :: r => run_call c ;; run_calls r
  end.

End Machine.
