(* ===== verification/V6Invariant.v ===== *)
(** The invariant of the DHCPv6 state machine: under any calls of its handlers,
    in any order, the members hold values of their types, every datagram sent is
    a well-formed message of a client, and a handler asks only for the changes of
    state its state allows. *)
From S2P Require Import Prelude AddressUtils ClientOptions V6Message V6Text V6Codec V6Machine.

(** The changes of state each state asks for. *)
Definition successors (s : V6State) : list V6State :=
  match s with
  | InitState => [InfoRequestState; SolicitState]
  | InfoRequestState => [InitState; FailState]
  | SolicitState => [AdvertiseState; InitState]
  | AdvertiseState => [RequestState; FailState; InitState]
  | RequestState => [BoundState; FailState; InitState]
  | BoundState => [RenewState; ReleaseState; SolicitState]
  | RenewState => [RebindState; BoundState; ReleaseState]
  | RebindState => [InitState; BoundState; ReleaseState]
  | ReleaseState => [InitState]
  | FailState => [InitState]
  end.

Definition anything {A} (a : A) : Prop := True.

(** One step; the functions called are looked up. *)
Ltac v6_step :=
  first [safe_step | eapply (safe_bind _ _ _ anything); [apply safe_if; intros ? | intros ? _]];
  cbv beta iota zeta; try solve [done | eauto with safe].
Ltac v6_steps := repeat v6_step; try solve [done | eauto with safe].

Section Invariant.
Context {I6 : Inet6Text} {L6 : Inet6TextLaws I6} {EN : V6Environment} {EL : V6EnvironmentLaws EN}.

Record result_wf (r : DhcpV6Result) : Prop := {
  r_addresses : Forall address_text (res_ipv6Addresses r) /\ (length (res_ipv6Addresses r) <= 512)%nat;
  r_dns : Forall address_text (res_dnsServers r) /\ (length (res_dnsServers r) <= 1024)%nat;
  r_preferred : is_u32 (res_preferredLifetime r);
  r_valid : is_u32 (res_validLifetime r);
  r_t1 : is_u32 (res_t1 r);
  r_t2 : is_u32 (res_t2 r)
}.

Record v6_wf (s : V6) : Prop := {
  w_config : config_wf (config_ s);
  w_result : result_wf (result_ s);
  w_current : advertise_wf 512 1024 (currentAdvertise_ s);
  w_transaction : 0 <= transactionId_ s <= MAX_TRANSACTION_ID;
  w_retry : - 2 ^ 31 <= retryCount_ s < 2 ^ 31;
  w_max : maxRetries_ s = DEFAULT_MAX_RETRIES;
  w_timeout : is_u32 (currentTimeout_ s);
  w_t2 : is_u64 (t2DeadlineMs_ s);
  w_expire : is_u64 (expireDeadlineMs_ s)
}.

(** The types of message a client sends. *)
Definition client_types : list Z := [SOLICIT; REQUEST; RENEW; REBIND; RELEASE; DECLINE; INFORMATION_REQUEST].

Definition action_wf (a : v6action) : Prop :=
  match a with
  | DhcpV6Send d => exists t x os, t ∈ client_types /\ 0 <= x <= MAX_TRANSACTION_ID /\ decodes d t x os
  | Succeeded r => result_wf r
  | MessageExecutedLater _ delay => 0 <= delay < 2 ^ 63
  | _ => True
  end.
Definition allowed (ts : list V6State) (a : v6action) : Prop :=
  match a with SwitchState t => t ∈ ts | _ => True end.

(** The state while a call runs that began with the trace [tr0] and may ask for
    the states [ts]. *)
Definition during (ts : list V6State) (tr0 : list v6action) (s : V6) : Prop :=
  v6_wf s /\ exists l, v6trace s = tr0 ++ l /\ Forall (fun a => action_wf a /\ allowed ts a) l.

Section Call.
Context (ts : list V6State) (tr0 : list v6action).
Notation J := (during ts tr0).

Lemma J_config s : J s -> config_wf (config_ s).
Proof. by intros [[] _]. Qed.
Lemma J_result s : J s -> result_wf (result_ s).
Proof. by intros [[] _]. Qed.
Lemma J_current s : J s -> advertise_wf 512 1024 (currentAdvertise_ s).
Proof. by intros [[] _]. Qed.
Lemma J_transaction s : J s -> 0 <= transactionId_ s <= MAX_TRANSACTION_ID.
Proof. by intros [[] _]. Qed.
Hint Resolve J_config J_result J_current J_transaction : safe.

Ltac assigned := intros Hv s [[] T]; split; [split; cbn; assumption|exact T].

Lemma J_set_config v : config_wf v -> forall s, J s -> J (set_config_ v s).
Proof. assigned. Qed.
Lemma J_set_result v : result_wf v -> forall s, J s -> J (set_result_ v s).
Proof. assigned. Qed.
Lemma J_set_current v : advertise_wf 512 1024 v -> forall s, J s -> J (set_currentAdvertise_ v s).
Proof. assigned. Qed.
Lemma J_set_transaction v : 0 <= v <= MAX_TRANSACTION_ID -> forall s, J s -> J (set_transactionId_ v s).
Proof. assigned. Qed.
Lemma J_set_retry v : - 2 ^ 31 <= v < 2 ^ 31 -> forall s, J s -> J (set_retryCount_ v s).
Proof. assigned. Qed.
Lemma J_set_timeout v : is_u32 v -> forall s, J s -> J (set_currentTimeout_ v s).
Proof. assigned. Qed.
Lemma J_set_t2 v : is_u64 v -> forall s, J s -> J (set_t2DeadlineMs_ v s).
Proof. assigned. Qed.
Lemma J_set_expire v : is_u64 v -> forall s, J s -> J (set_expireDeadlineMs_ v s).
Proof. assigned. Qed.
Lemma J_set_readings v : forall s, J s -> J (set_readings v s).
Proof. intros s [[] T]. split; [by split|exact T]. Qed.
Lemma J_set_stopping v : forall s, J s -> J (set_isStopping_ v s).
Proof. intros s [[] T]. split; [by split|exact T]. Qed.

Lemma modify_safe (g : V6 -> V6) : (forall s, J s -> J (g s)) -> safe J (modify g) anything.
Proof. intros H. by apply safe_modify. Qed.

Lemma reading_safe {A} (r : nat -> A) (P : A -> Prop) : (forall n, P (r n)) -> safe J (reading r) P.
Proof. intros H. unfold reading. safe_steps; [by apply J_set_readings|done]. Qed.

Lemma ask_safe a : action_wf a -> allowed ts a -> safe J (ask a) anything.
Proof.
  intros Ha Hs. apply safe_modify; [done|]. intros s [[] (l & E & Hl)]. split; [by split|].
  exists (l ++ [a]). split; [cbn; by rewrite E, app_assoc|]. apply Forall_app. split; [done|by constructor].
Qed.

Lemma fresh_safe : safe J (reading fresh) fresh_wf.
Proof. apply reading_safe, fresh_law. Qed.
Lemma clock_safe : safe J GetCurrentTimeMs (fun n => 0 <= n < 2 ^ 63).
Proof. apply reading_safe, now_law. Qed.
Lemma GenerateTransactionId_safe : safe J GenerateTransactionId_ (fun x => 0 <= x <= MAX_TRANSACTION_ID).
Proof.
  eapply safe_bind; [apply fresh_safe|]. intros f [_ _ H]. apply safe_ret. unfold GenerateTransactionId. lia.
Qed.
Hint Resolve fresh_safe clock_safe GenerateTransactionId_safe : safe.

(** The assignments. *)
Lemma ResetRetryCount_safe : safe J ResetRetryCount anything.
Proof. by apply modify_safe, J_set_retry. Qed.
Lemma IncrementRetryCount_safe : safe J IncrementRetryCount anything.
Proof. apply modify_safe. intros s Hs. apply J_set_retry; [|done]. unfold i32. pose proof (Z.mod_pos_bound (retryCount_ s + 1 + 2 ^ 31) (2 ^ 32)). lia. Qed.
Lemma SetCurrentTimeout_safe v : is_u32 v -> safe J (SetCurrentTimeout v) anything.
Proof. intros. by apply modify_safe, J_set_timeout. Qed.
Lemma SetCurrentAdvertise_safe v : advertise_wf 512 1024 v -> safe J (SetCurrentAdvertise v) anything.
Proof. intros. by apply modify_safe, J_set_current. Qed.
Lemma SetResult_safe v : result_wf v -> safe J (SetResult v) anything.
Proof. intros. by apply modify_safe, J_set_result. Qed.
Lemma SetTransactionId_safe v : 0 <= v <= MAX_TRANSACTION_ID -> safe J (SetTransactionId v) anything.
Proof. intros. by apply modify_safe, J_set_transaction. Qed.
Lemma SetT2DeadlineMs_safe v : is_u64 v -> safe J (SetT2DeadlineMs v) anything.
Proof. intros. by apply modify_safe, J_set_t2. Qed.
Lemma SetExpireDeadlineMs_safe v : is_u64 v -> safe J (SetExpireDeadlineMs v) anything.
Proof. intros. by apply modify_safe, J_set_expire. Qed.
Lemma ClearT2Deadline_safe : safe J ClearT2Deadline anything.
Proof. by apply modify_safe, J_set_t2. Qed.
Lemma ClearExpireDeadline_safe : safe J ClearExpireDeadline anything.
Proof. by apply modify_safe, J_set_expire. Qed.
Lemma SetStopping_safe v : safe J (SetStopping v) anything.
Proof. apply modify_safe, J_set_stopping. Qed.
Hint Resolve ResetRetryCount_safe IncrementRetryCount_safe SetCurrentTimeout_safe SetCurrentAdvertise_safe SetResult_safe
  SetTransactionId_safe SetT2DeadlineMs_safe SetExpireDeadlineMs_safe ClearT2Deadline_safe ClearExpireDeadline_safe
  SetStopping_safe u32_range u64_range : safe.
Hint Extern 1 (anything _) => exact I : safe.

Lemma ask_plain a : (match a with DhcpV6Send _ | Succeeded _ | MessageExecutedLater _ _ | SwitchState _ => False | _ => True end) ->
  safe J (ask a) anything.
Proof. intros H. apply ask_safe; by destruct a. Qed.
Hint Extern 2 (safe _ (ask (StopTimer _)) _) => by apply ask_plain : safe.
Hint Extern 2 (safe _ (ask (Failed _)) _) => by apply ask_plain : safe.
Hint Extern 2 (safe _ (ask Expired) _) => by apply ask_plain : safe.
Hint Extern 2 (safe _ (ask (SendMessage _ _)) _) => by apply ask_plain : safe.
Hint Extern 2 (safe _ (ask (StatePlus _ _)) _) => by apply ask_plain : safe.
Hint Extern 2 (safe _ (ask (SetFirstState _)) _) => by apply ask_plain : safe.
Hint Extern 2 (safe _ (ask StartStateMachine) _) => by apply ask_plain : safe.

Lemma ask_switch t : allowed ts (SwitchState t) -> safe J (ask (SwitchState t)) anything.
Proof. intros H. by apply ask_safe. Qed.
Lemma ask_later cmd n : 0 <= n < 2 ^ 63 -> safe J (ask (MessageExecutedLater cmd n)) anything.
Proof. intros H. by apply ask_safe. Qed.
Lemma ask_success r : result_wf r -> safe J (ask (Succeeded r)) anything.
Proof. intros H. by apply ask_safe. Qed.
Lemma ask_send d t x os : decodes d t x os -> t ∈ client_types -> 0 <= x <= MAX_TRANSACTION_ID -> safe J (ask (DhcpV6Send d)) anything.
Proof. intros H Ht Hx. apply ask_safe; [|done]. by exists t, x, os. Qed.
Hint Resolve ask_switch ask_success : safe.

Lemma OnSuccess_safe : safe J OnSuccess anything.
Proof. unfold OnSuccess. v6_steps. Qed.
Lemma OnFailure_safe e : safe J (OnFailure e) anything.
Proof. unfold OnFailure. v6_steps. Qed.
Lemma OnLeaseExpired_safe : safe J OnLeaseExpired anything.
Proof. unfold OnLeaseExpired. v6_steps. Qed.
Hint Resolve OnSuccess_safe OnFailure_safe OnLeaseExpired_safe : safe.

Lemma retry_timeout_range n : 0 <= retry_timeout n < 2 ^ 63.
Proof. unfold retry_timeout. pose proof (u32_range (BASE_TIMEOUT_MS + u32 (n * TIMEOUT_INCREMENT_MS))) as H. unfold is_u32 in H. lia. Qed.

Lemma start_retry_timer_safe : safe J start_retry_timer anything.
Proof. unfold start_retry_timer. v6_steps. apply ask_later, retry_timeout_range. Qed.
Hint Resolve start_retry_timer_safe : safe.

Lemma ProcessTimeoutWithRetry_safe d : safe J (ask (DhcpV6Send d)) anything -> allowed ts (SwitchState FailState) ->
  safe J (ProcessTimeoutWithRetry d) anything.
Proof. intros Hd Hf. unfold ProcessTimeoutWithRetry. v6_steps. Qed.

(** Assignments to a configuration. *)
Lemma with_transactionId_wf v c : 0 <= v <= MAX_TRANSACTION_ID -> config_wf c -> config_wf (with_transactionId v c).
Proof. intros Hv []. by split. Qed.
Lemma with_serverId_wf v c : is_u16 (size v) -> Forall is_u8 v -> config_wf c -> config_wf (with_serverId v c).
Proof. intros Hs Hu []. by split. Qed.
Lemma with_lease_wf r c : result_wf r -> config_wf c ->
  config_wf (with_lease (res_ipv6Addresses r) (res_preferredLifetime r) (res_validLifetime r) c).
Proof. intros [[_ Hl] _ ? ? _ _] []. split; try done. cbn. lia. Qed.
Lemma with_server_of_wf adv c : advertise_wf 512 1024 adv -> config_wf c -> config_wf (with_serverId (serverId adv) c).
Proof.
  intros [[Hs Hu] _ _ _ _ _ _] Hc. apply with_serverId_wf; [|done..]. unfold is_u16, MAX_DUID_LENGTH in *.
  pose proof (size_nonneg (serverId adv)). lia.
Qed.
Lemma no_server_wf c : config_wf c -> config_wf (with_serverId [] c).
Proof. apply with_serverId_wf; [by vm_compute|constructor]. Qed.
Hint Resolve with_transactionId_wf with_server_of_wf with_lease_wf no_server_wf : safe.

Lemma transaction_of_max f c : fresh_wf f -> config_wf c -> 0 <= transaction_of f c <= MAX_TRANSACTION_ID.
Proof. intros Hf Hc. pose proof (transaction_of_range f c Hf Hc). unfold MAX_TRANSACTION_ID. lia. Qed.

(** Sending the seven messages. *)
Ltac is_in := apply (bool_decide_unpack _); vm_compute; exact I.
Lemma send_solicit f c : fresh_wf f -> config_wf c -> safe J (ask (DhcpV6Send (BuildSolicitMessage f c))) anything.
Proof. intros. eapply ask_send; [by apply BuildSolicitMessage_decodes|is_in|by apply transaction_of_max]. Qed.
Lemma send_information_request f c : fresh_wf f -> config_wf c -> safe J (ask (DhcpV6Send (BuildInformationRequestMessage f c))) anything.
Proof. intros. eapply ask_send; [by apply BuildInformationRequestMessage_decodes|is_in|by apply transaction_of_max]. Qed.
Lemma send_request f c adv : fresh_wf f -> config_wf c -> advertise_wf 512 1024 adv -> safe J (ask (DhcpV6Send (BuildRequestMessage f c adv))) anything.
Proof.
  intros Hf Hc [[? ?] _ _ _ [_ ?] _ _]. eapply ask_send; [apply BuildRequestMessage_decodes; (done || lia)|is_in|by apply transaction_of_max].
Qed.
Lemma send_renew f c : fresh_wf f -> config_wf c -> safe J (ask (DhcpV6Send (BuildRenewMessage f c))) anything.
Proof. intros. eapply ask_send; [by apply BuildRenewMessage_decodes|is_in|by apply transaction_of_max]. Qed.
Lemma send_rebind f c : fresh_wf f -> config_wf c -> safe J (ask (DhcpV6Send (BuildRebindMessage f c))) anything.
Proof. intros. eapply ask_send; [by apply BuildRebindMessage_decodes|is_in|by apply transaction_of_max]. Qed.
Lemma send_release f c : fresh_wf f -> config_wf c -> safe J (ask (DhcpV6Send (BuildReleaseMessage f c))) anything.
Proof. intros. eapply ask_send; [by apply BuildReleaseMessage_decodes|is_in|by apply transaction_of_max]. Qed.
Lemma send_decline f c a : fresh_wf f -> config_wf c -> safe J (ask (DhcpV6Send (BuildDeclineMessage f c [a]))) anything.
Proof.
  intros Hf Hc. eapply ask_send; [apply BuildDeclineMessage_decodes; [done|done|cbn; lia]|is_in|]. destruct Hf as [_ _ H]. lia.
Qed.
Hint Resolve send_solicit send_information_request send_request send_renew send_rebind send_release send_decline : safe.

(** * The parts of the machine *)

Lemma lease_result_wf adv b : advertise_wf 512 1024 adv -> result_wf (lease_result adv b).
Proof.
  intros [_ _ (_ & H1 & H2) [Hp Hv] [Ha Hal] [Hd Hdl] _]. unfold lease_result. split; cbn; try (done || (split; [done|lia])).
  - case_match; [|done]. unfold is_u32, T1_DIVISOR in *. split; [apply Z.div_pos; lia|apply Z.div_lt_upper_bound; lia].
  - case_match; [|done]. pose proof (u32_range (validLifetime adv * T2_LIFETIME_RATIO)) as H0. unfold is_u32, LIFETIME_RATIO_BASE in *.
    split; [apply Z.div_pos; lia|apply Z.div_lt_upper_bound; lia].
Qed.
Hint Resolve lease_result_wf : safe.

Lemma ProcessResultInfo_safe adv : advertise_wf 512 1024 adv -> safe J (ProcessResultInfo adv) anything.
Proof.
  intros Ha. unfold ProcessResultInfo. v6_steps.
  - by apply J_set_result, lease_result_wf.
  - apply modify_safe. apply J_set_config. by apply with_server_of_wf; [|eapply J_config].
Qed.
Hint Resolve ProcessResultInfo_safe : safe.

Lemma transaction_config_safe : safe J transaction_config config_wf.
Proof. unfold transaction_config. v6_steps. Qed.
Lemma request_config_safe : safe J request_config config_wf.
Proof. unfold request_config. eapply safe_bind; [apply transaction_config_safe|]. intros c Hc. v6_steps. Qed.
Hint Resolve transaction_config_safe request_config_safe : safe.

Lemma SendRenewOrRebindMsg_safe renew : safe J (SendRenewOrRebindMsg renew) anything.
Proof.
  unfold SendRenewOrRebindMsg. apply safe_bind_get. intros s0 H0. apply safe_if; intros _; [v6_steps|].
  apply safe_bind_get. intros s1 H1. eapply safe_bind; [apply GenerateTransactionId_safe|]. intros id Hid. cbv zeta.
  eapply safe_bind; [by apply SetTransactionId_safe|]. intros _ _.
  apply safe_bind_get. intros s2 H2. eapply safe_bind; [apply fresh_safe|]. intros f Hf.
  assert (Hc : config_wf (with_serverId (cfg_serverId (with_transactionId id (config_ s1))) (with_transactionId id (config_ s1)))).
  { destruct (cfg_server _ (J_config _ H1)). apply with_serverId_wf; [done|done|]. eauto with safe. }
  destruct renew; [apply send_renew|apply send_rebind]; eauto with safe.
Qed.
Hint Resolve SendRenewOrRebindMsg_safe : safe.

Lemma ProcessRenewOrRebind_safe (renew : bool) : allowed ts (SwitchState (if renew then RebindState else InitState)) ->
  safe J (ProcessRenewOrRebind renew) anything.
Proof.
  intros Ha. unfold ProcessRenewOrRebind. apply safe_bind_get. intros s0 H0. apply safe_if; intros _; [v6_steps|].
  eapply safe_bind; [apply clock_safe|]. intros now Hnow. apply safe_bind_get. intros s1 H1. cbv zeta.
  assert (Hd : is_u64 ((if renew then t2DeadlineMs_ else expireDeadlineMs_) s1)) by (destruct renew; apply H1).
  set (deadline := (if renew then t2DeadlineMs_ else expireDeadlineMs_) s1) in *. apply safe_if; intros Hnow2.
  { destruct renew; v6_steps. }
  eapply safe_bind; [apply SendRenewOrRebindMsg_safe|]. intros _ _. eapply safe_bind; [apply ResetRetryCount_safe|]. intros _ _.
  apply safe_bind_get. intros s2 H2. cbv zeta. pose proof (retry_timeout_range (retryCount_ s2)).
  apply safe_if; intros Hr; (eapply safe_bind; [apply SetCurrentTimeout_safe, u32_range|intros _ _]).
  - apply ask_later. btauto_hyps. lia.
  - eapply safe_bind; [apply IncrementRetryCount_safe|]. intros _ _. by apply ask_later.
Qed.
Hint Resolve ProcessRenewOrRebind_safe : safe.

(** What a decoded datagram gives. *)
Lemma received_info_safe m : Forall is_u8 (GetMessageObj m) -> safe J (received_info m) anything.
Proof.
  intros Hm. unfold received_info. eapply safe_bind.
  { apply (safe_from_option _ _ (anything : bool * DhcpV6MessageInfo -> Prop)). destruct (ParseV6Message_total _ empty_info Hm) as (ok & i & ->). eexists. by split. }
  intros [ok i] _. v6_steps.
Qed.

Definition decoded (r : bool * DhcpV6Advertise) : Prop := advertise_wf 512 1024 (snd r).

Lemma reply_safe m : Forall is_u8 (GetMessageObj m) -> safe J (from_option (ParseV6Reply (GetMessageObj m) empty_advertise)) decoded.
Proof. intros Hm. apply safe_from_option. destruct (ParseV6Reply_spec _ Hm) as (ok & adv & -> & Ha & _). eexists. by split. Qed.
Lemma advertise_safe m : Forall is_u8 (GetMessageObj m) -> safe J (from_option (ParseV6Advertise (GetMessageObj m) empty_advertise)) decoded.
Proof. intros Hm. apply safe_from_option. destruct (ParseV6Advertise_spec _ Hm) as (ok & adv & -> & Ha & _). eexists. by split. Qed.

(** * The handlers *)

Definition bytes_of (msg : option InternalMessage) : Prop :=
  match msg with Some m => Forall is_u8 (GetMessageObj m) | None => True end.

Lemma Request_ProcessTimeout_safe : allowed ts (SwitchState FailState) -> safe J Request_ProcessTimeout anything.
Proof.
  intros H. unfold Request_ProcessTimeout. v6_steps. apply (safe_bind _ _ _ anything); [|intros ? _; by apply safe_ret].
  apply ProcessTimeoutWithRetry_safe; eauto with safe.
Qed.
Lemma ProcessStop_init_safe : allowed ts (SwitchState InitState) -> safe J ProcessStop_init anything.
Proof. intros H. unfold ProcessStop_init. v6_steps. Qed.
Lemma ProcessStop_release_safe : allowed ts (SwitchState ReleaseState) -> safe J ProcessStop_release anything.
Proof. intros H. unfold ProcessStop_release. v6_steps. Qed.
End Call.

#[local] Hint Resolve J_config J_result J_current J_transaction fresh_safe clock_safe GenerateTransactionId_safe
  ResetRetryCount_safe IncrementRetryCount_safe SetCurrentTimeout_safe SetCurrentAdvertise_safe SetResult_safe
  SetTransactionId_safe SetT2DeadlineMs_safe SetExpireDeadlineMs_safe ClearT2Deadline_safe ClearExpireDeadline_safe
  SetStopping_safe u32_range u64_range ask_switch ask_success OnSuccess_safe OnFailure_safe OnLeaseExpired_safe
  start_retry_timer_safe with_transactionId_wf with_server_of_wf with_lease_wf no_server_wf
  send_solicit send_information_request send_request send_renew send_rebind send_release send_decline
  lease_result_wf ProcessResultInfo_safe transaction_config_safe request_config_safe ProcessRenewOrRebind_safe
  ProcessTimeoutWithRetry_safe empty_advertise_wf : safe.
#[local] Hint Extern 1 (anything _) => exact I : safe.
#[local] Hint Extern 2 (safe _ (ask (StopTimer _)) _) => by apply ask_plain : safe.
#[local] Hint Extern 2 (safe _ (ask (SendMessage _ _)) _) => by apply ask_plain : safe.
#[local] Hint Extern 2 (safe _ (ask (StatePlus _ _)) _) => by apply ask_plain : safe.
#[local] Hint Extern 2 (safe _ (ask (SetFirstState _)) _) => by apply ask_plain : safe.
#[local] Hint Extern 2 (safe _ (ask StartStateMachine) _) => by apply ask_plain : safe.
#[local] Hint Extern 2 (allowed _ _) => cbn; apply (bool_decide_unpack _); vm_compute; exact I : safe.

Context (tr0 : list v6action).
Notation Js s := (during (successors s) tr0).
Definition handles (s : V6State) (msg : option InternalMessage) : Prop :=
  bytes_of msg -> safe (Js s) (ExecuteStateMsg s msg) anything.
Definition enters (s : V6State) : Prop := safe (Js s) (GoInState s) anything.

(** A message of a state: no message, or one of the cases on its name. *)
Ltac handler := unfold handles; intros Hm; match goal with msg : option InternalMessage |- _ => destruct msg as [m|]; [|by apply safe_ret] end; cbn in Hm; cbn [ExecuteStateMsg];
  repeat (apply safe_if; intros _); try by apply safe_ret.

Lemma Init_handles msg : handles InitState msg.
Proof. handler. unfold Init_ProcessStart. v6_steps. Qed.
Lemma Fail_handles msg : handles FailState msg.
Proof. handler. v6_steps. Qed.
Lemma Solicit_handles msg : handles SolicitState msg.
Proof. handler. apply ProcessStop_init_safe. eauto with safe. Qed.

(** A reply the machine takes, from its datagram. *)
Ltac receives H := eapply safe_bind; [by apply received_info_safe|]; intros [info|] _; [|by apply safe_ret].

Lemma InfoRequest_handles msg : handles InfoRequestState msg.
Proof.
  handler.
  - unfold InfoRequest_ProcessMessageReceived. receives Hm.
    eapply safe_bind; [by apply reply_safe|]. intros [ok reply] Hr. v6_steps.
  - unfold InfoRequest_ProcessTimeout. v6_steps.
  - apply ProcessStop_init_safe. eauto with safe.
Qed.

Lemma Advertise_handles msg : handles AdvertiseState msg.
Proof.
  handler.
  - unfold Advertise_ProcessMessageReceived. receives Hm.
    eapply safe_bind; [by apply advertise_safe|]. intros [ok adv] Hr. v6_steps.
  - unfold Advertise_ProcessTimeout. v6_steps.
  - apply ProcessStop_init_safe. eauto with safe.
Qed.

Lemma Request_handles msg : handles RequestState msg.
Proof.
  handler.
  - unfold Request_ProcessMessageReceived. receives Hm. apply safe_if; intros _; [by apply safe_ret|].
    eapply safe_bind; [by apply reply_safe|]. intros [ok reply] Hr. v6_steps.
  - unfold Request_ProcessTimeout. v6_steps.
  - apply ProcessStop_init_safe. eauto with safe.
Qed.

Lemma cleared_result_wf r : result_wf r ->
  result_wf (mkResult [] [] (res_preferredLifetime r) (res_validLifetime r) (res_t1 r) (res_t2 r) (ready r)).
Proof. intros []. split; try done; (split; [constructor|cbn; lia]). Qed.

Hint Resolve cleared_result_wf : safe.

Lemma Bound_handles msg : handles BoundState msg.
Proof.
  handler.
  - unfold Bound_ProcessTimeout. v6_steps.
  - apply ProcessStop_release_safe. eauto with safe.
  - unfold Bound_ProcessDadConflict. v6_steps.
    apply J_set_config, no_server_wf. by eapply J_config.
Qed.

Lemma Renew_handles msg : handles RenewState msg.
Proof.
  handler.
  - unfold Renew_ProcessMessageReceived. receives Hm. apply safe_if; intros _; [by apply safe_ret|].
    eapply safe_bind; [by apply reply_safe|]. intros [ok reply] Hr. v6_steps.
  - unfold Renew_ProcessTimeout. v6_steps.
  - v6_steps.
  - apply ProcessStop_release_safe. eauto with safe.
Qed.

Lemma Rebind_handles msg : handles RebindState msg.
Proof.
  handler.
  - unfold Rebind_ProcessMessageReceived. receives Hm. apply safe_if; intros _; [by apply safe_ret|].
    eapply safe_bind; [by apply reply_safe|]. intros [ok reply] Hr. v6_steps.
  - unfold Rebind_ProcessTimeout. v6_steps.
  - v6_steps.
  - apply ProcessStop_release_safe. eauto with safe.
Qed.

Lemma all_handle s msg : handles s msg.
Proof.
  destruct s; [apply Init_handles|apply InfoRequest_handles|apply Solicit_handles|apply Advertise_handles|
    apply Request_handles|apply Bound_handles|apply Renew_handles|apply Rebind_handles| |apply Fail_handles].
  intros _. by apply safe_ret.
Qed.

(** * Entering and leaving a state *)

Lemma Bound_enters : enters BoundState.
Proof.
  unfold enters. cbn [GoInState]. unfold Bound_GoInState. v6_steps; apply ask_later; [lia|].
  match goal with H : Js BoundState s0 |- _ => pose proof (r_t1 _ (J_result _ _ _ H)) as Ht end.
  unfold is_u32, MS_PER_SECOND in *. lia.
Qed.

Lemma empty_result_wf : result_wf empty_result.
Proof. split; try by apply check_u32. all: (split; [constructor|cbn; lia]). Qed.
Lemma empty_adv_wf : advertise_wf 512 1024 empty_advertise.
Proof. eapply (advertise_wf_mono 0 0); [lia|lia|apply empty_advertise_wf]. Qed.
Hint Resolve empty_result_wf empty_adv_wf : safe.

Lemma all_enter s : enters s.
Proof.
  destruct s; unfold enters; cbn [GoInState]; try apply Bound_enters.
  - unfold Init_GoInState. v6_steps.
  - unfold InfoRequest_GoInState. v6_steps.
  - unfold Solicit_GoInState. v6_steps.
  - unfold Advertise_GoInState. v6_steps.
  - unfold Request_GoInState. v6_steps.
  - apply ProcessRenewOrRebind_safe. eauto with safe.
  - apply ProcessRenewOrRebind_safe. eauto with safe.
  - unfold Release_GoInState. v6_steps.
  - v6_steps.
Qed.

Lemma all_leave s : safe (Js s) (GoOutState s) anything.
Proof.
  destruct s; cbn [GoOutState]; unfold InfoRequest_GoOutState, Advertise_GoOutState, Request_GoOutState, Bound_GoOutState,
    Renew_GoOutState, Rebind_GoOutState; v6_steps.
Qed.

(** * Any call *)

(** The states a call may ask for, and what it may assume. *)
Definition call_targets (c : v6call) : list V6State :=
  match c with GoIn s | GoOut s | Execute s _ => successors s | _ => [] end.
Definition call_ok (c : v6call) : Prop :=
  match c with Execute _ msg => bytes_of msg | Configure config => config_wf config | _ => True end.

Lemma Initialise_safe : safe (during [] tr0) InitDhcpV6StateMachine anything.
Proof.
  unfold InitDhcpV6StateMachine, BuildStateTree, InitDhcpV6States.
  eapply safe_bind; [by apply (reading_safe _ _ _ anything)|]. intros ok _. v6_steps.
  apply (safe_bind _ _ _ anything); [by apply safe_ret|]. intros _ _.
  apply (safe_bind _ _ _ anything); [v6_steps|]. intros _ _. v6_steps.
Qed.

Lemma Configure_safe config : config_wf config -> safe (during [] tr0) (SetConfig config) anything.
Proof. intros Hc. unfold SetConfig. v6_steps. by apply J_set_config. Qed.

Lemma KernelDadConflict_safe addr : safe (during [] tr0) (OnKernelDadConflict addr) anything.
Proof.
  unfold OnKernelDadConflict, IsDhcpV6ConfiguredAddress. apply (safe_bind _ _ _ anything); [v6_steps|]. intros ours _. v6_steps.
Qed.

Lemma run_call_safe c : call_ok c -> safe (during (call_targets c) tr0) (run_call c) anything.
Proof.
  destruct c as [s|s|s msg| |config|addr|b]; cbn; intros Hc.
  - apply all_enter.
  - apply all_leave.
  - eapply safe_bind; [by apply all_handle|]. intros _ _. by apply safe_ret.
  - eapply safe_bind; [apply Initialise_safe|]. intros _ _. by apply safe_ret.
  - by apply Configure_safe.
  - apply KernelDadConflict_safe.
  - apply SetStopping_safe.
Qed.

End Invariant.

#[export] Hint Resolve J_config J_result J_current J_transaction fresh_safe clock_safe GenerateTransactionId_safe
  ResetRetryCount_safe IncrementRetryCount_safe SetCurrentTimeout_safe SetCurrentAdvertise_safe SetResult_safe
  SetTransactionId_safe SetT2DeadlineMs_safe SetExpireDeadlineMs_safe ClearT2Deadline_safe ClearExpireDeadline_safe
  SetStopping_safe ask_switch ask_success OnSuccess_safe OnFailure_safe OnLeaseExpired_safe
  start_retry_timer_safe ProcessResultInfo_safe ProcessRenewOrRebind_safe ProcessTimeoutWithRetry_safe
  Request_ProcessTimeout_safe ProcessStop_init_safe ProcessStop_release_safe : safe.
#[export] Hint Extern 1 (anything _) => exact I : safe.
#[export] Hint Extern 2 (allowed _ _) => cbn; apply (bool_decide_unpack _); vm_compute; exact I : safe.
