(* ===== verification/V6Properties.v ===== *)
(** The theorems on the DHCPv6 state machine: safety under any calls, when a
    lease is taken, retransmissions, renewal and expiry, and the whole exchange. *)
From S2P Require Import Prelude AddressUtils ClientOptions V6Message V6Text V6Codec V6Machine V6Invariant.

(** * Concrete surroundings *)

(** The clock stands at 1000 s. *)
#[export] Instance sample_environment : V6Environment :=
  { fresh _ := sample_fresh; now_ms _ := 1000000; framework_starts _ := true }.
#[export] Instance sample_environment_laws : V6EnvironmentLaws sample_environment.
Proof. split; intros n; [apply sample_fresh_wf|cbn; lia]. Qed.

(** The machine of a client with a socket and callbacks. *)
Definition connected (config : DhcpV6Config) (transaction : Z) : V6 :=
  mkV6 true [] config empty_result empty_advertise transaction 0 DEFAULT_MAX_RETRIES BASE_TIMEOUT_MS false 0 0
    true true true 0 [].
Definition sample_client : DhcpV6Config := mkConfig sample_duid [] 0 [] false [] 0 0.

Lemma sample_client_wf : config_wf sample_client.
Proof. split; [split; [by vm_compute|by apply all_u8]|split; [by vm_compute|constructor]|by vm_compute|cbn; lia|by split; apply check_u32]. Qed.

Section Properties.
Context {I6 : Inet6Text} {L6 : Inet6TextLaws I6} {EN : V6Environment} {EL : V6EnvironmentLaws EN}.

Lemma connected_wf config x : config_wf config -> 0 <= x <= MAX_TRANSACTION_ID -> v6_wf (connected config x).
Proof.
  intros Hc Hx. split; cbn; try done; try apply empty_result_wf; try apply empty_adv_wf; unfold is_u64; by vm_compute || lia.
Qed.

(** One call, with what it adds to the trace. *)
Lemma run_call_adds c s : v6_wf s -> call_ok c ->
  exists s' l, run_call c s = Some (tt, s') /\ v6_wf s' /\ v6trace s' = v6trace s ++ l /\
    Forall (fun a => action_wf a /\ allowed (call_targets c) a) l.
Proof.
  intros Hs Hc. assert (Hd : during (call_targets c) (v6trace s) s).
  { split; [done|]. exists []. by rewrite app_nil_r. }
  apply (run_call_safe (v6trace s) c Hc) in Hd. apply wp_run in Hd as ([] & s' & E & _ & W & l & El & Hl).
  by exists s', l.
Qed.

(** C3: Whatever the framework calls, in whatever order, with whatever datagrams, the
    handlers are defined, the members keep their types and bounds, and each call
    asks only for the changes of state its state allows, sends only well-formed
    client messages of 24-bit transactions, reports only typed results and starts
    only timers that fit. *)
Theorem v6_safe cs s :
  v6_wf s -> Forall call_ok cs ->
  exists s' segments, run_calls cs s = Some (tt, s') /\ v6_wf s' /\ v6trace s' = v6trace s ++ concat segments /\
    Forall2 (fun c l => Forall (fun a => action_wf a /\ allowed (call_targets c) a) l) cs segments.
Proof.
  intros Hs Hcs. revert s Hs. induction Hcs as [|c cs Hc _ IH]; intros s Hs; cbn [run_calls].
  { exists s, []. cbn. rewrite app_nil_r. by split_and!. }
  destruct (run_call_adds c s Hs Hc) as (s1 & l & E & W & El & Hl). unfold bind. rewrite E.
  destruct (IH s1 W) as (s' & ls & E' & W' & El' & Hls). exists s', (l :: ls). split_and!; [done|done| |by constructor].
  cbn [concat]. by rewrite El', El, app_assoc.
Qed.

(** * Taking a lease *)

(** A datagram is the answer the machine waits for: a well-formed REPLY of its
    transaction, without an error, with addresses. *)
Definition answers (s : V6) (d : bytes) (reply : DhcpV6Advertise) : Prop :=
  (exists os, ParseV6Message d empty_info = Some (true, mkInfo REPLY (transactionId_ s) os)) /\
  ParseV6Reply d empty_advertise = Some (true, reply) /\ ipv6Addresses reply <> [].

Lemma received_run msg s : Forall is_u8 (GetMessageObj msg) ->
  exists r, received_info msg s = Some (r, s) /\
    forall info, r = Some info -> ParseV6Message (GetMessageObj msg) empty_info = Some (true, info) /\ transactionId info = transactionId_ s.
Proof.
  intros Hm. unfold received_info, bind. destruct (ParseV6Message_total _ empty_info Hm) as (ok & info & E). rewrite E. cbn.
  destruct ok; cbn [negb]; [|by exists None]. unfold get. destruct (transactionId info =? transactionId_ s) eqn:Ex; cbn [negb]; [|by exists None].
  apply Z.eqb_eq in Ex. exists (Some info). split; [done|]. by intros ? [= <-].
Qed.

Lemma answers_intro s d info reply : ParseV6Message d empty_info = Some (true, info) -> transactionId info = transactionId_ s ->
  msgType info = REPLY -> ParseV6Reply d empty_advertise = Some (true, reply) -> is_empty (ipv6Addresses reply) = false -> answers s d reply.
Proof.
  intros E Ex Et Er Ha. split; [|split; [done|by destruct (ipv6Addresses reply)]]. destruct info as [t x os]. cbn in *. subst. by exists os.
Qed.

(** What a handler adds while it may ask for [ts] does not ask for another state. *)
Lemma not_asked {A} (m : M V6 A) ts s t : v6_wf s -> t ∉ ts -> safe (during ts (v6trace s)) m anything ->
  wp m (fun _ s' => forall l, v6trace s' = v6trace s ++ l -> SwitchState t ∉ l) s.
Proof.
  intros W Ht H. assert (Hd : during ts (v6trace s) s) by (split; [done|exists []; by rewrite app_nil_r]).
  apply H in Hd. eapply wp_mono; [done|]. intros a s' [_ [_ (l & El & Hl)]] l' El'. rewrite El in El'. apply app_inv_head in El' as <-.
  intros Hin. rewrite Forall_forall in Hl. by destruct (Hl _ Hin).
Qed.

Lemma not_asked_adds {A} (m : M V6 A) ts s t (Q : A -> V6 -> list v6action -> Prop) : v6_wf s -> t ∉ ts ->
  safe (during ts (v6trace s)) m anything ->
  wp m (fun a s' => forall l, v6trace s' = v6trace s ++ l -> SwitchState t ∈ l -> Q a s' l) s.
Proof. intros W Ht H. eapply wp_mono; [by eapply not_asked|]. intros a s' H' l El Hin. by destruct (H' l El). Qed.

Lemma ProcessResultInfo_wp reply s :
  wp (ProcessResultInfo reply) (fun _ s' => result_ s' = lease_result reply (ready (result_ s)) /\
    cfg_serverId (config_ s') = serverId reply /\ v6trace s' = v6trace s) s.
Proof. unfold ProcessResultInfo. wp_steps. by split_and!. Qed.

Lemma reading_wp {A} (r : nat -> A) s (Q : A -> V6 -> Prop) :
  Q (r (readings s)) (set_readings (S (readings s)) s) -> wp (reading r) Q s.
Proof. intros H. unfold reading. by wp_steps. Qed.

(** What the machine does with an acceptable reply. *)
Definition taken (s : V6) (m : InternalMessage) (s' : V6) : Prop :=
  exists reply, answers s (GetMessageObj m) reply /\
    result_ s' = lease_result reply (ready (result_ s)) /\ cfg_serverId (config_ s') = serverId reply.
Definition taken_if_bound (s : V6) (m : InternalMessage) (s' : V6) : Prop :=
  forall l, v6trace s' = v6trace s ++ l -> SwitchState BoundState ∈ l -> taken s m s'.

Lemma not_bound {A} (c : M V6 A) ts s m : v6_wf s -> BoundState ∉ ts -> safe (during ts (v6trace s)) c anything ->
  wp c (fun _ s' => taken_if_bound s m s') s.
Proof. intros W Ht H. eapply wp_mono; [by eapply not_asked|]. intros a s' H' l El Hin. by destruct (H' l El). Qed.

(** The three handlers of a REPLY have one shape. *)
Lemma reply_handler m s (no_reply empty bound : DhcpV6Advertise -> M V6 bool) : v6_wf s -> Forall is_u8 (GetMessageObj m) ->
  (forall adv, wp (no_reply adv) (fun _ s' => taken_if_bound s m s') s) ->
  (forall adv, wp (empty adv) (fun _ s' => taken_if_bound s m s') s) ->
  (forall adv s1, result_ s1 = lease_result adv (ready (result_ s)) -> cfg_serverId (config_ s1) = serverId adv ->
     wp (bound adv) (fun _ s' => result_ s' = result_ s1 /\ config_ s' = config_ s1) s1) ->
  wp (let* info := received_info m in
      match info with
      | None => ret false
      | Some msgInfo =>
          if negb (msgType msgInfo =? REPLY) then ret false
          else
            let* '(ok, reply) := from_option (ParseV6Reply (GetMessageObj m) empty_advertise) in
            if negb ok then no_reply reply
            else if is_empty (ipv6Addresses reply) then empty reply
            else ProcessResultInfo reply ;; bound reply
      end) (fun _ s' => taken_if_bound s m s') s.
Proof.
  intros W Hm Hno Hempty Hbound.
  assert (Hret : wp (ret false : M V6 bool) (fun _ s' => taken_if_bound s m s') s).
  { apply (not_bound _ []); [done|by apply not_elem_of_nil|by apply safe_ret]. }
  destruct (received_run m s Hm) as (r & Er & Hr). unfold bind at 1, wp. rewrite Er. fold (@wp V6 bool).
  destruct r as [info|]; [|exact Hret]. destruct (Hr info eq_refl) as [Ep Ex].
  destruct (msgType info =? REPLY) eqn:Et; cbn [negb]; [|exact Hret]. apply Z.eqb_eq in Et.
  destruct (ParseV6Reply_spec _ Hm) as (ok & reply & E & _). rewrite E.
  change (wp (if negb ok then no_reply reply else if is_empty (ipv6Addresses reply) then empty reply else ProcessResultInfo reply ;; bound reply)
    (fun _ s' => taken_if_bound s m s') s).
  destruct ok; cbn [negb]; [|apply Hno]. destruct (is_empty (ipv6Addresses reply)) eqn:Ee; [apply Hempty|].
  apply wp_bind. eapply wp_mono; [apply ProcessResultInfo_wp|]. intros _ s1 (R1 & C1 & _). cbv beta.
  eapply wp_mono; [by apply Hbound|]. intros _ s' [R' C'] l _ _. exists reply.
  split; [by eapply answers_intro|]. by rewrite R', C'.
Qed.

Ltac no_bound targets := apply (not_bound _ targets); [done|by apply (bool_decide_unpack _); vm_compute|v6_steps].

Lemma Request_takes m s : v6_wf s -> Forall is_u8 (GetMessageObj m) ->
  wp (Request_ProcessMessageReceived m) (fun _ s' => taken_if_bound s m s') s.
Proof.
  intros W Hm. apply reply_handler; [done|done|..].
  - intros adv. no_bound [FailState].
  - intros adv. no_bound [FailState].
  - intros adv s1 R C. unfold ask. by wp_steps.
Qed.

Lemma Renew_takes m s : v6_wf s -> Forall is_u8 (GetMessageObj m) ->
  wp (Renew_ProcessMessageReceived m) (fun _ s' => taken_if_bound s m s') s.
Proof.
  intros W Hm. apply reply_handler; [done|done|..].
  - intros adv. no_bound (@nil V6State).
  - intros adv. no_bound [RebindState].
  - intros adv s1 R C. unfold ask. by wp_steps.
Qed.

Lemma Rebind_takes m s : v6_wf s -> Forall is_u8 (GetMessageObj m) ->
  wp (Rebind_ProcessMessageReceived m) (fun _ s' => taken_if_bound s m s') s.
Proof.
  intros W Hm. apply reply_handler; [done|done|..].
  - intros adv. no_bound (@nil V6State).
  - intros adv. no_bound [InitState].
  - intros adv s1 R C. unfold GetCurrentTimeMs. apply wp_bind, reading_wp. apply wp_bind.
    apply wp_if; intros _; unfold SetExpireDeadlineMs, ClearExpireDeadline, ask; by wp_steps.
Qed.

(** The handler of a message, as seen by who waits for [BoundState]. *)
Definition bound_only_if_taken (m : InternalMessage) (s s' : V6) : Prop :=
  forall l, v6trace s' = v6trace s ++ l -> SwitchState BoundState ∈ l -> GetMessageName m = CMD_MESSAGE_RECEIVED /\ taken s m s'.

Lemma on_received (m : InternalMessage) (c other : M V6 bool) s ts : v6_wf s ->
  wp c (fun _ s' => taken_if_bound s m s') s -> BoundState ∉ ts -> safe (during ts (v6trace s)) other anything ->
  wp (if GetMessageName m =? CMD_MESSAGE_RECEIVED then c else other) (fun _ s' => bound_only_if_taken m s s') s.
Proof.
  intros W Hc Ht Ho. apply wp_if; intros E.
  - apply Z.eqb_eq in E. eapply wp_mono; [done|]. intros b s' H l El Hin. split; [done|]. by apply (H l).
  - eapply wp_mono; [by eapply (not_asked other)|]. intros b s' H l El Hin. by destruct (H l El).
Qed.

Lemma bound_only_by_reply st m s : v6_wf s -> Forall is_u8 (GetMessageObj m) -> st ∈ [RequestState; RenewState; RebindState] ->
  wp (ExecuteStateMsg st (Some m)) (fun _ s' => bound_only_if_taken m s s') s.
Proof.
  intros W Hm Hst. rewrite !elem_of_cons in Hst.
  destruct Hst as [->|[->|[->|Hst]]]; [..|by apply not_elem_of_nil in Hst]; cbn [ExecuteStateMsg].
  - apply (on_received _ _ _ _ [FailState; InitState]); [done|by apply Request_takes|by apply (bool_decide_unpack _); vm_compute|v6_steps].
  - apply (on_received _ _ _ _ [RebindState; ReleaseState]); [done|by apply Renew_takes|by apply (bool_decide_unpack _); vm_compute|].
    unfold Renew_ProcessTimeout. v6_steps.
  - apply (on_received _ _ _ _ [InitState; ReleaseState]); [done|by apply Rebind_takes|by apply (bool_decide_unpack _); vm_compute|].
    unfold Rebind_ProcessTimeout. v6_steps.
Qed.

Lemma bound_states st : BoundState ∈ successors st -> st ∈ [RequestState; RenewState; RebindState].
Proof.
  intros H. destruct st; first [exfalso; revert H; apply (bool_decide_unpack _); vm_compute; exact I
                               | apply (bool_decide_unpack _); vm_compute; exact I].
Qed.

(** C8: The machine enters [BoundState] only when it must: a handler asks for it
    only in [RequestState], [RenewState] or [RebindState], on receiving a
    well-formed REPLY of its own transaction, with status success and at least
    one address; and then the lease is exactly the one of this reply and the
    server is its server. *)
Theorem v6_bound_by_reply st msg s :
  v6_wf s -> bytes_of msg ->
  exists b s' l, ExecuteStateMsg st msg s = Some (b, s') /\ v6trace s' = v6trace s ++ l /\
    (SwitchState BoundState ∈ l ->
     st ∈ [RequestState; RenewState; RebindState] /\
     exists m reply, msg = Some m /\ GetMessageName m = CMD_MESSAGE_RECEIVED /\ answers s (GetMessageObj m) reply /\
       result_ s' = lease_result reply (ready (result_ s)) /\ cfg_serverId (config_ s') = serverId reply).
Proof.
  intros W Hm. destruct (run_call_adds (Execute st msg) s W Hm) as (s' & l & E & _ & El & Hl). cbn [run_call] in E.
  unfold bind in E. destruct (ExecuteStateMsg st msg s) as [[b s2]|] eqn:E2; [|done]. injection E as ->.
  exists b, s', l. split; [done|]. split; [done|]. intros Hin.
  assert (Hst : st ∈ [RequestState; RenewState; RebindState]).
  { apply bound_states. rewrite Forall_forall in Hl. apply (Hl _ Hin). }
  split; [done|]. destruct msg as [m|].
  - pose proof (bound_only_by_reply st m s W Hm Hst) as P. unfold wp in P. rewrite E2 in P.
    destruct (P l El Hin) as [Hn (reply & ? & ? & ?)]. by exists m, reply.
  - assert (s' = s) as -> by (destruct st; by injection E2). rewrite <- (app_nil_r (v6trace s)) in El at 1.
    apply app_inv_head in El as <-. by apply not_elem_of_nil in Hin.
Qed.

(** * Retransmission *)

(** The message an exchange repeats. *)
Definition exchange_message (st : V6State) (s : V6) (f : Fresh) : bytes :=
  let config := with_transactionId (transactionId_ s) (config_ s) in
  let current := currentAdvertise_ s in
  match st with
  | InfoRequestState => BuildInformationRequestMessage f config
  | AdvertiseState => BuildSolicitMessage f config
  | _ => BuildRequestMessage f (with_serverId (serverId current) config) current
  end.

Definition timeout_message : option InternalMessage := Some (mkMessage CMD_TIMEOUT []).

(** What a retransmission leaves as it is. *)
Definition same_exchange (s s' : V6) : Prop :=
  socket_ s' = socket_ s /\ config_ s' = config_ s /\ transactionId_ s' = transactionId_ s /\ currentAdvertise_ s' = currentAdvertise_ s /\
  maxRetries_ s' = maxRetries_ s /\ failureCallback_ s' = failureCallback_ s.

(** The machine waits in an exchange, after [n] transmissions. *)
Record waiting (st : V6State) (n : Z) (s : V6) : Prop := {
  wait_state : st ∈ [InfoRequestState; AdvertiseState; RequestState];
  wait_socket : socket_ s = true;
  wait_callback : failureCallback_ s = true;
  wait_count : retryCount_ s = n;
  wait_max : maxRetries_ s = DEFAULT_MAX_RETRIES;
  wait_no_offer : st = AdvertiseState -> ipv6Addresses (currentAdvertise_ s) = []
}.

(** A timeout of the exchange is a transmission with retry. *)
Lemma exchange_timeout st n s : waiting st n s ->
  ExecuteStateMsg st timeout_message s =
  (let* r := ProcessTimeoutWithRetry (exchange_message st s (fresh (readings s))) in ret true) (set_readings (S (readings s)) s).
Proof.
  intros [Hst _ _ _ _ Ho]. rewrite !elem_of_cons in Hst.
  destruct Hst as [->|[->|[->|Hst]]]; [..|by apply not_elem_of_nil in Hst]; cbn [ExecuteStateMsg timeout_message]; [reflexivity| |reflexivity].
  change (Advertise_ExecuteStateMsg timeout_message) with Advertise_ProcessTimeout.
  unfold Advertise_ProcessTimeout. change (bind (get currentAdvertise_) ?k s) with (k (currentAdvertise_ s) s).
  cbv beta. rewrite (Ho eq_refl). reflexivity.
Qed.

Lemma retry_timeout_small n : 0 <= n <= 3 -> retry_timeout n = 1000 * (n + 1).
Proof. intros H. unfold retry_timeout, BASE_TIMEOUT_MS, TIMEOUT_INCREMENT_MS. rewrite !u32_small; unfold is_u32; rewrite ?u32_small; unfold is_u32; lia. Qed.

Lemma retransmit st n s : waiting st n s -> 0 <= n <= 3 ->
  exists s', run_call (Execute st timeout_message) s = Some (tt, s') /\ waiting st (n + 1) s' /\ same_exchange s s' /\
    readings s' = S (readings s) /\
    v6trace s' = v6trace s ++ [DhcpV6Send (exchange_message st s (fresh (readings s))); MessageExecutedLater CMD_TIMEOUT (1000 * (n + 1))].
Proof.
  intros W Hn. pose proof (exchange_timeout st n s W) as E. destruct W as [Hst Hs Hf Hr Hm Ho].
  assert (P : wp (ExecuteStateMsg st timeout_message) (fun _ s' => waiting st (n + 1) s' /\ same_exchange s s' /\
    readings s' = S (readings s) /\
    v6trace s' = v6trace s ++ [DhcpV6Send (exchange_message st s (fresh (readings s))); MessageExecutedLater CMD_TIMEOUT (1000 * (n + 1))]) s).
  { unfold wp. rewrite E. set (d := exchange_message st s (fresh (readings s))).
    change (wp (let* r := ProcessTimeoutWithRetry d in ret true) (fun _ s' => waiting st (n + 1) s' /\ same_exchange s s' /\
      readings s' = S (readings s) /\ v6trace s' = v6trace s ++ [DhcpV6Send d; MessageExecutedLater CMD_TIMEOUT (1000 * (n + 1))])
      (set_readings (S (readings s)) s)).
    clearbody d. destruct s. cbn in Hs, Hf, Hr, Hm, Ho. subst.
    unfold ProcessTimeoutWithRetry, start_retry_timer, ask, SetCurrentTimeout, IncrementRetryCount. wp_steps; cbn -[retry_timeout].
    - cbn in *. btauto_hyps. unfold DEFAULT_MAX_RETRIES in *. lia.
    - rewrite retry_timeout_small, <- app_assoc by lia. split_and!; [|by split_and!|done|done].
      split; cbn; try done. unfold i32. rewrite Z.mod_small by lia. lia.
    - done. }
  apply wp_run in P as (b & s' & E' & P). exists s'. cbn [run_call]. unfold bind at 1. by rewrite E'.
Qed.

Lemma last_give st s : waiting st 4 s ->
  exists s', run_call (Execute st timeout_message) s = Some (tt, s') /\
    v6trace s' = v6trace s ++ [Failed ERR_RETRY_EXCEEDED; SwitchState FailState].
Proof.
  intros W. pose proof (exchange_timeout st 4 s W) as E. destruct W as [Hst Hs Hf Hr Hm Ho].
  cbn [run_call]. unfold bind at 1. rewrite E. set (d := exchange_message st s (fresh (readings s))). clearbody d.
  destruct s. cbn in Hs, Hf, Hr, Hm, Ho. subst. eexists. split; [reflexivity|]. cbn. by rewrite <- app_assoc.
Qed.


(** * Renewal and expiry *)

Lemma ask_wp a s (Q : unit -> V6 -> Prop) : Q tt (set_v6trace (v6trace s ++ [a]) s) -> wp (ask a) Q s.
Proof. intros H. unfold ask. by wp_steps. Qed.

(** The members the message takes its content from. *)
Definition lease_config (renew : bool) (s : V6) (x : Z) : DhcpV6Config :=
  with_lease (res_ipv6Addresses (result_ s)) (res_preferredLifetime (result_ s)) (res_validLifetime (result_ s))
    (with_serverId (if renew then cfg_serverId (config_ s) else []) (with_transactionId x (config_ s))).
Definition lease_message (renew : bool) (s : V6) : bytes :=
  let x := random_id (fresh (readings s)) in
  let f := fresh (S (readings s)) in
  if renew then BuildRenewMessage f (lease_config renew s x) else BuildRebindMessage f (lease_config renew s x).

Lemma SendRenewOrRebindMsg_wp renew s : socket_ s = true ->
  wp (SendRenewOrRebindMsg renew) (fun _ s' => v6trace s' = v6trace s ++ [DhcpV6Send (lease_message renew s)] /\
    transactionId_ s' = random_id (fresh (readings s)) /\ t2DeadlineMs_ s' = t2DeadlineMs_ s /\
    expireDeadlineMs_ s' = expireDeadlineMs_ s) s.
Proof.
  intros Hs. unfold SendRenewOrRebindMsg, GenerateTransactionId_, SetTransactionId. apply wp_bind, wp_get. rewrite Hs. cbn [negb].
  apply wp_bind, wp_get, wp_bind, wp_bind, reading_wp, wp_ret, wp_bind, wp_modify, wp_bind, wp_get, wp_bind, reading_wp, ask_wp.
  by split_and!.
Qed.

(** The timer that follows: at the deadline when it is less than a second away,
    after a second otherwise. *)
Definition next_timer (renew : bool) (deadline now : Z) : v6action :=
  if (0 <? deadline) && (deadline - now <? 1000)
  then MessageExecutedLater (if renew then CMD_T2_TIMEOUT else CMD_EXPIRE_TIMEOUT) (deadline - now)
  else MessageExecutedLater CMD_TIMEOUT 1000.

Lemma ProcessRenewOrRebind_wp (renew : bool) s : socket_ s = true -> failureCallback_ s = true -> expiredCallback_ s = true ->
  let deadline := if renew then t2DeadlineMs_ s else expireDeadlineMs_ s in
  let now := now_ms (readings s) in
  let s1 := set_readings (S (readings s)) s in
  wp (ProcessRenewOrRebind renew) (fun _ s' =>
    v6trace s' = v6trace s ++
      (if (0 <? deadline) && (deadline <=? now)
       then if renew then [SwitchState RebindState] else [Failed ERR_LEASE_EXPIRED; Expired; SwitchState InitState]
       else [DhcpV6Send (lease_message renew s1); next_timer renew deadline now]) /\
    ((0 <? deadline) && (deadline <=? now) = false -> transactionId_ s' = random_id (fresh (S (readings s))))) s.
Proof.
  intros Hs Hf He deadline now s1. unfold ProcessRenewOrRebind, GetCurrentTimeMs. apply wp_bind, wp_get. rewrite Hs. cbn [negb].
  apply wp_bind, reading_wp, wp_bind, wp_get. fold now s1.
  replace ((if renew then t2DeadlineMs_ else expireDeadlineMs_) s1) with deadline by (by destruct renew).
  rewrite Z.geb_leb, !Z.gtb_ltb. apply wp_if; intros E; rewrite E.
  - destruct renew.
    + unfold ClearT2Deadline. apply wp_bind, wp_modify, ask_wp. by split.
    + unfold OnFailure, OnLeaseExpired, ClearExpireDeadline. apply wp_bind, wp_bind, wp_get. 
      replace (failureCallback_ s1) with true by (symmetry; exact Hf).
      apply ask_wp, wp_bind, wp_bind, wp_get. 
      replace (expiredCallback_ (set_v6trace (v6trace s1 ++ [Failed ERR_LEASE_EXPIRED]) s1)) with true by (symmetry; exact He).
      apply ask_wp, wp_bind, wp_modify, ask_wp. split; [cbn; by rewrite <- !app_assoc|done].
  - apply wp_bind. eapply wp_mono; [by apply SendRenewOrRebindMsg_wp|]. intros _ s2 (T2 & X2 & _ & _). cbv beta.
    unfold ResetRetryCount, SetCurrentTimeout, IncrementRetryCount. apply wp_bind, wp_modify, wp_bind, wp_get. cbv zeta.
    change (retry_timeout (retryCount_ (set_retryCount_ 0 s2))) with 1000.
    assert (Hc : (0 <? deadline) && ((0 <? (if now <? deadline then deadline - now else 0)) &&
                 ((if now <? deadline then deadline - now else 0) <? 1000)) = (0 <? deadline) && (deadline - now <? 1000)).
    { apply andb_false_iff in E. destruct (Z.ltb_spec 0 deadline); cbn [andb]; [|done].
      destruct E as [E|E]; [done|]. apply Z.leb_gt in E. rewrite (proj2 (Z.ltb_lt now deadline)), (proj2 (Z.ltb_lt 0 _)) by lia. done. }
    rewrite Hc. unfold next_timer. apply wp_if; intros Eb; rewrite Eb.
    + apply wp_bind, wp_modify, ask_wp. split; [|by intros _; cbn; rewrite X2].
      cbn -[lease_message]. rewrite T2, <- app_assoc. cbn -[lease_message]. do 3 f_equal.
      apply andb_true_iff in Eb as [Eb1 _]. apply andb_false_iff in E as [E|E]; [by rewrite E in Eb1|]. apply Z.leb_gt in E.
      by rewrite (proj2 (Z.ltb_lt now deadline)) by lia.
    + apply wp_bind, wp_modify, wp_bind, wp_modify, ask_wp. split; [|by intros _; cbn; rewrite X2].
      cbn -[lease_message]. by rewrite T2, <- app_assoc.
Qed.

(** A message of the client for its lease. *)
Definition lease_message_of (renew : bool) (s : V6) (x : Z) (d : bytes) : Prop :=
  exists duid ia, (clientId (config_ s) <> [] -> duid = clientId (config_ s)) /\
    decodes d (if renew then RENEW else REBIND) x
      (id_option OPTION_CLIENTID duid :: (if renew then [id_option OPTION_SERVERID (cfg_serverId (config_ s))] else []) ++ [elapsed_zero; ia]) /\
    reads_as_ia_na ia 0 0 (res_preferredLifetime (result_ s)) (res_validLifetime (result_ s)) (res_ipv6Addresses (result_ s)).

Lemma lease_message_spec renew s : v6_wf s -> lease_message_of renew s (random_id (fresh (readings s))) (lease_message renew s).
Proof.
  intros W. set (x := random_id (fresh (readings s))). set (f := fresh (S (readings s))). set (c := lease_config renew s x).
  pose proof (fresh_id_range _ (fresh_law (readings s))) as Hx. fold x in Hx.
  assert (Hc : config_wf c).
  { unfold c, lease_config. apply with_lease_wf; [apply W|]. destruct (cfg_server _ (w_config _ W)).
    apply with_serverId_wf; [by destruct renew; [|by vm_compute]|by destruct renew|]. apply with_transactionId_wf; [lia|apply W]. }
  assert (Ht : transaction_of f c = x).
  { unfold transaction_of. change (cfg_transactionId c) with x. unfold truthy. by rewrite (proj2 (Z.eqb_neq x 0)) by lia. }
  exists (client_duid f c), (renewed_option c). split_and!.
  - intros Hne. unfold client_duid. change (clientId c) with (clientId (config_ s)). by destruct (clientId (config_ s)).
  - unfold lease_message. cbv zeta. fold x f. destruct renew; fold c; cbn [app].
    + pose proof (BuildRenewMessage_decodes f c (fresh_law _) Hc) as P. rewrite Ht in P. exact P.
    + pose proof (BuildRebindMessage_decodes f c (fresh_law _) Hc) as P. rewrite Ht in P. exact P.
  - destruct (r_preferred _ (w_result _ W)), (r_valid _ (w_result _ W)). unfold renewed_option.
    change (cfg_ipv6Addresses c) with (res_ipv6Addresses (result_ s)).
    change (cfg_preferredLifetime c) with (res_preferredLifetime (result_ s)).
    change (cfg_validLifetime c) with (res_validLifetime (result_ s)).
    apply ia_na_reads; [by apply check_u32..|done|done].
Qed.

(** C15: In [RenewState] and [RebindState] the lease is renewed every second, and never
    past its deadline.  On entry and on every timeout the machine sends a RENEW to
    its server, or a REBIND to all, for the addresses it holds, with a new
    transaction, and wakes up in at most a second and no later than T2, or the
    end of the lease; once this time has come it sends nothing and asks for
    [RebindState], or reports that the lease has expired and starts over. *)
Theorem v6_renewal (renew : bool) c s :
  v6_wf s -> socket_ s = true -> failureCallback_ s = true -> expiredCallback_ s = true ->
  let st := if renew then RenewState else RebindState in
  let deadline := if renew then t2DeadlineMs_ s else expireDeadlineMs_ s in
  let now := now_ms (readings s) in
  c = GoIn st \/ c = Execute st timeout_message ->
  exists s', run_call c s = Some (tt, s') /\
    if (0 <? deadline) && (deadline <=? now)
    then v6trace s' = v6trace s ++
      (if renew then [SwitchState RebindState] else [Failed ERR_LEASE_EXPIRED; Expired; SwitchState InitState])
    else exists d cmd delay,
      v6trace s' = v6trace s ++ [DhcpV6Send d; MessageExecutedLater cmd delay] /\
      lease_message_of renew s (transactionId_ s') d /\
      0 < delay <= 1000 /\ (0 < deadline -> now + delay <= deadline).
Proof.
  intros W Hs Hf He st deadline now Hc.
  destruct (wp_run _ _ _ (ProcessRenewOrRebind_wp renew s Hs Hf He)) as ([] & s' & E & T & X). fold deadline now in T, X.
  exists s'. split.
  { destruct Hc as [-> | ->]; subst st; destruct renew; [exact E|exact E| |]; cbn [run_call].
    - change (ExecuteStateMsg RenewState timeout_message) with Renew_ProcessTimeout. unfold Renew_ProcessTimeout, bind. by rewrite E.
    - change (ExecuteStateMsg RebindState timeout_message) with Rebind_ProcessTimeout. unfold Rebind_ProcessTimeout, bind. by rewrite E. }
  destruct ((0 <? deadline) && (deadline <=? now)) eqn:Ed; [exact T|]. specialize (X eq_refl).
  set (s1 := set_readings (S (readings s)) s) in T.
  assert (W1 : v6_wf s1) by (destruct W; by split).
  pose proof (lease_message_spec renew s1 W1) as L. change (readings s1) with (S (readings s)) in L. rewrite <- X in L.
  unfold next_timer in T. apply andb_false_iff in Ed.
  destruct ((0 <? deadline) && (deadline - now <? 1000)) eqn:En; exists (lease_message renew s1).
  - do 2 eexists. split; [exact T|]. split; [exact L|]. btauto_hyps. destruct Ed as [Ed|Ed]; [lia|]. apply Z.leb_gt in Ed. lia.
  - do 2 eexists. split; [exact T|]. split; [exact L|]. split; [lia|]. intros Hd.
    apply andb_false_iff in En as [En|En]; [apply Z.ltb_ge in En; lia|]. apply Z.ltb_ge in En. lia.
Qed.

(** * The timers of a lease *)

(** T1 and T2 of a lease with a finite lifetime: what the server says, or half
    and four fifths of the lifetime, the product in 32 bits. *)
Definition lease_t1 (adv : DhcpV6Advertise) : Z := if t1 adv =? 0 then validLifetime adv / 2 else t1 adv.
Definition lease_t2 (adv : DhcpV6Advertise) : Z := if t2 adv =? 0 then u32 (validLifetime adv * 80) / 100 else t2 adv.

Lemma lease_times adv b : validLifetime adv <> 0 -> validLifetime adv <> INFINITE_LIFETIME ->
  res_t1 (lease_result adv b) = lease_t1 adv /\ res_t2 (lease_result adv b) = lease_t2 adv.
Proof.
  intros H0 Hi. unfold lease_result, lease_t1, lease_t2, T1_DIVISOR, T2_LIFETIME_RATIO, LIFETIME_RATIO_BASE. cbn [res_t1 res_t2].
  by rewrite (proj2 (Z.eqb_neq _ _) H0), (proj2 (Z.eqb_neq _ _) Hi).
Qed.

Lemma Bound_GoInState_wp s : successCallback_ s = true -> stateless (config_ s) = false ->
  let valid := res_validLifetime (result_ s) in
  let now := now_ms (readings s) in
  wp Bound_GoInState (fun _ s' =>
    result_ s' = result_ s /\ config_ s' = config_ s /\
    (valid = 0 -> v6trace s' = v6trace s ++ [Succeeded (result_ s); MessageExecutedLater CMD_TIMEOUT 0] /\
       t2DeadlineMs_ s' = 0 /\ expireDeadlineMs_ s' = 0) /\
    (valid = INFINITE_LIFETIME -> v6trace s' = v6trace s ++ [Succeeded (result_ s)]) /\
    (valid <> 0 -> valid <> INFINITE_LIFETIME ->
       v6trace s' = v6trace s ++ [Succeeded (result_ s); MessageExecutedLater CMD_TIMEOUT (res_t1 (result_ s) * 1000)] /\
       t2DeadlineMs_ s' = u64 (now + res_t2 (result_ s) * 1000) /\ expireDeadlineMs_ s' = u64 (now + valid * 1000))) s.
Proof.
  intros Hcb Hst valid now.
  unfold Bound_GoInState, OnSuccess, ClearT2Deadline, ClearExpireDeadline, SetT2DeadlineMs, SetExpireDeadlineMs, GetCurrentTimeMs.
  apply wp_bind, wp_bind, wp_get, wp_bind, wp_get. rewrite Hcb. apply ask_wp, wp_bind, wp_get. cbn [config_ set_v6trace]. rewrite Hst. cbn [negb].
  apply wp_bind, wp_get. cbv zeta. cbn [result_ set_v6trace]. fold valid.
  apply wp_if; intros E0; [apply Z.eqb_eq in E0|apply Z.eqb_neq in E0; apply wp_if; intros Ei; [apply Z.eqb_eq in Ei|apply Z.eqb_neq in Ei]].
  - apply wp_bind, wp_modify, wp_bind, wp_modify, ask_wp. split_and!; [done|done| |by rewrite E0|done]. intros _. split_and!; [|done..]. cbn. by rewrite <- app_assoc.
  - apply wp_ret. by split_and!.
  - apply wp_bind, reading_wp, wp_bind, wp_modify, wp_bind, wp_modify, ask_wp. split_and!; [done..|]. intros _ _. split_and!; [|done..].
    cbn. by rewrite <- app_assoc.
Qed.

(** C29: Entering [BoundState] with the lease of a reply reports it and sets its
    timers: a timeout at T1, the deadlines of T2 and of the end; none for an
    infinite lifetime; and for the lifetime zero a timeout at once.  When the
    server leaves T1 and T2 to the client and the lifetime is at most 53687091
    seconds, they are half and four fifths of it, in this order. *)
Theorem v6_bound_timers adv b s :
  advertise_wf 512 1024 adv -> successCallback_ s = true -> stateless (config_ s) = false -> result_ s = lease_result adv b ->
  0 <= now_ms (readings s) < 2 ^ 63 ->
  let valid := validLifetime adv in
  let now := now_ms (readings s) in
  exists s', run_call (GoIn BoundState) s = Some (tt, s') /\
    (valid = 0 -> v6trace s' = v6trace s ++ [Succeeded (result_ s); MessageExecutedLater CMD_TIMEOUT 0] /\
       t2DeadlineMs_ s' = 0 /\ expireDeadlineMs_ s' = 0) /\
    (valid = INFINITE_LIFETIME -> v6trace s' = v6trace s ++ [Succeeded (result_ s)]) /\
    (valid <> 0 -> valid <> INFINITE_LIFETIME ->
       v6trace s' = v6trace s ++ [Succeeded (result_ s); MessageExecutedLater CMD_TIMEOUT (1000 * lease_t1 adv)] /\
       t2DeadlineMs_ s' = now + 1000 * lease_t2 adv /\ expireDeadlineMs_ s' = now + 1000 * valid /\
       (t1 adv = 0 -> t2 adv = 0 -> valid <= 53687091 ->
          lease_t1 adv = valid / 2 /\ lease_t2 adv = valid * 80 / 100 /\ lease_t1 adv <= lease_t2 adv <= valid)).
Proof.
  intros Ha Hcb Hst Hr Hnow valid now. destruct (adv_lifetimes _ _ _ Ha) as [_ Hv]. fold valid in Hv.
  pose proof (lease_result_wf adv b Ha) as Hw.
  pose proof (Bound_GoInState_wp s Hcb Hst) as P. cbv zeta in P.
  replace (res_validLifetime (result_ s)) with valid in P by (by rewrite Hr).
  apply wp_run in P as ([] & s' & E & _ & _ & P0 & Pi & P). exists s'. split; [exact E|]. split; [exact P0|]. split; [exact Pi|]. intros H0 Hi.
  destruct (P H0 Hi) as (T & D2 & De). destruct (lease_times adv b H0 Hi) as [E1 E2].
  pose proof (r_t2 _ Hw) as Ht2. rewrite E2 in Ht2. unfold is_u32 in Hv, Ht2. rewrite Hr, E1 in T. rewrite Hr, E2, u64_small in D2 by (unfold is_u64; lia).
  rewrite u64_small in De by (unfold is_u64; lia). rewrite Hr. split_and!; [by rewrite T, (Z.mul_comm (lease_t1 adv))|lia|lia|].
  intros Z1 Z2 Hmax. unfold lease_t1, lease_t2. rewrite Z1, Z2. cbn [Z.eqb]. fold valid. rewrite u32_small by (unfold is_u32; lia).
  pose proof (Z.mul_div_le valid 2 ltac:(lia)).
  split_and!; [done|done|apply Z.div_le_lower_bound; lia|apply Z.div_le_upper_bound; lia].
Qed.

(** One second more and the product wraps: T2 is 0, so the lease is rebound as
    soon as T1 has passed and never renewed. *)
Theorem v6_t2_wraps b :
  let adv := mkAdvertise [] 0 [] 1 0 0 53687092 53687092 [] 0 [] in
  res_t1 (lease_result adv b) = 26843546 /\ res_t2 (lease_result adv b) = 0.
Proof. by vm_compute. Qed.

(** * The whole exchange *)

Definition received_message (d : bytes) : option InternalMessage := Some (mkMessage CMD_MESSAGE_RECEIVED d).

(** The calls of an exchange whose offer has the preference zero: it is kept, and
    requested at the next timeout. *)
Definition exchange_calls (offer reply : bytes) : list v6call :=
  [Execute InitState (Some (mkMessage CMD_START [])); GoIn SolicitState; GoIn AdvertiseState;
   Execute AdvertiseState (received_message offer); Execute AdvertiseState timeout_message; GoOut AdvertiseState;
   GoIn RequestState; Execute RequestState (received_message reply); GoOut RequestState; GoIn BoundState].

Lemma received_message_run d info s : ParseV6Message d empty_info = Some (true, info) -> transactionId info = transactionId_ s ->
  received_info (mkMessage CMD_MESSAGE_RECEIVED d) s = Some (Some info, s).
Proof. intros E Ex. unfold received_info, bind, from_option, get, ret. cbn [GetMessageObj]. rewrite E. cbn [negb]. by rewrite Ex, Z.eqb_refl. Qed.

Lemma keep_offer d info adv s : ParseV6Message d empty_info = Some (true, info) -> transactionId info = transactionId_ s ->
  ParseV6Advertise d empty_advertise = Some (true, adv) -> ipv6Addresses adv <> [] -> preference adv = 0 ->
  ipv6Addresses (currentAdvertise_ s) = [] ->
  run_call (Execute AdvertiseState (received_message d)) s = Some (tt, set_currentAdvertise_ adv s).
Proof.
  intros E Ex Ea Ha Hp Hc. cbn [run_call]. unfold bind at 1.
  change (ExecuteStateMsg AdvertiseState (received_message d)) with (Advertise_ProcessMessageReceived (mkMessage CMD_MESSAGE_RECEIVED d)).
  unfold Advertise_ProcessMessageReceived, bind at 1. rewrite (received_message_run d info s E Ex). cbn [GetMessageObj].
  unfold bind, from_option, get. rewrite Ea. cbn [negb]. destruct (ipv6Addresses adv) as [|x l] eqn:El; [done|]. cbn [is_empty].
  by rewrite Hp, Hc.
Qed.

Lemma take_reply d info reply s : ParseV6Message d empty_info = Some (true, info) -> transactionId info = transactionId_ s ->
  msgType info = REPLY -> ParseV6Reply d empty_advertise = Some (true, reply) -> ipv6Addresses reply <> [] ->
  run_call (Execute RequestState (received_message d)) s =
  Some (tt, set_v6trace (v6trace s ++ [SwitchState BoundState])
    (set_config_ (with_serverId (serverId reply) (config_ s)) (set_result_ (lease_result reply (ready (result_ s))) s))).
Proof.
  intros E Ex Et Er Ha. cbn [run_call]. unfold bind at 1.
  change (ExecuteStateMsg RequestState (received_message d)) with (Request_ProcessMessageReceived (mkMessage CMD_MESSAGE_RECEIVED d)).
  unfold Request_ProcessMessageReceived, bind at 1. rewrite (received_message_run d info s E Ex), Et. cbn [GetMessageObj Z.eqb Pos.eqb negb REPLY].
  unfold bind, from_option. rewrite Er. cbn [negb]. destruct (ipv6Addresses reply) as [|a l] eqn:El; [done|]. reflexivity.
Qed.

(** Evaluates a call on a state given by its members. *)
Ltac evaluate := cbv -[stateless serverId ipv6Addresses preference validLifetime with_transactionId with_serverId lease_result fresh
  BuildSolicitMessage BuildRequestMessage is_empty res_t1 res_t2 res_validLifetime now_ms Z.mul u64].

Lemma exchange_run config x offer reply info1 info2 adv1 adv2 :
  stateless config = false ->
  ParseV6Message offer empty_info = Some (true, info1) -> transactionId info1 = x ->
  ParseV6Advertise offer empty_advertise = Some (true, adv1) -> ipv6Addresses adv1 <> [] -> preference adv1 = 0 ->
  ParseV6Message reply empty_info = Some (true, info2) -> transactionId info2 = x -> msgType info2 = REPLY ->
  ParseV6Reply reply empty_advertise = Some (true, adv2) -> ipv6Addresses adv2 <> [] ->
  validLifetime adv2 <> 0 -> validLifetime adv2 <> INFINITE_LIFETIME ->
  let c := with_transactionId x config in
  exists s', run_calls (exchange_calls offer reply) (connected config x) = Some (tt, s') /\
    v6trace s' = [SwitchState SolicitState; DhcpV6Send (BuildSolicitMessage (fresh 0) c); SwitchState AdvertiseState;
      MessageExecutedLater CMD_TIMEOUT 1000; SwitchState RequestState; StopTimer CMD_TIMEOUT;
      DhcpV6Send (BuildRequestMessage (fresh 1) (with_serverId (serverId adv1) c) adv1); MessageExecutedLater CMD_TIMEOUT 1000;
      SwitchState BoundState; StopTimer CMD_TIMEOUT; Succeeded (lease_result adv2 false);
      MessageExecutedLater CMD_TIMEOUT (res_t1 (lease_result adv2 false) * 1000)] /\
    result_ s' = lease_result adv2 false /\ cfg_serverId (config_ s') = serverId adv2.
Proof.
  intros Hst E1 X1 A1 N1 P1 E2 X2 T2 A2 N2 V0 Vi c. unfold exchange_calls, connected.
  assert (R : forall c s s1 r, run_call c s = Some (tt, s1) -> run_calls (c :: r) s = run_calls r s1).
  { intros c0 s s1 r H. cbn [run_calls]. unfold bind. by rewrite H. }
  assert (Hne : is_empty (ipv6Addresses adv1) = false) by (by destruct (ipv6Addresses adv1)).
  erewrite R; [|evaluate; rewrite Hst; reflexivity].
  erewrite R; [|evaluate; reflexivity].
  erewrite R; [|evaluate; reflexivity].
  erewrite R; [|eapply keep_offer; eauto]. cbn [set_currentAdvertise_].
  erewrite R; [|evaluate; rewrite Hne; reflexivity].
  erewrite R; [|evaluate; reflexivity].
  erewrite R; [|evaluate; reflexivity].
  erewrite R; [|eapply take_reply; eauto]. cbn [set_v6trace set_config_ set_result_ socket_ iface_ config_ result_ currentAdvertise_ transactionId_ retryCount_ maxRetries_ currentTimeout_ isStopping_ t2DeadlineMs_ expireDeadlineMs_ successCallback_ failureCallback_ expiredCallback_ readings v6trace].
  erewrite R; [|evaluate; reflexivity].
  match goal with |- context [run_calls [GoIn BoundState] ?s] => set (s9 := s) end.
  assert (C9 : successCallback_ s9 = true) by reflexivity.
  assert (S9 : stateless (config_ s9) = false) by exact Hst.
  assert (R9 : result_ s9 = lease_result adv2 false) by reflexivity.
  pose proof (Bound_GoInState_wp s9 C9 S9) as P. cbv zeta in P. rewrite R9 in P.
  apply wp_run in P as ([] & s' & E & Er & Ec & _ & _ & P).
  exists s'. split; [by apply (R (GoIn BoundState) _ _ [])|]. destruct (P V0 Vi) as (T & _ & _).
  split; [exact T|]. rewrite Er, Ec. by split.
Qed.

(** What a server offers or grants, the message that says it, and what the
    client keeps of it. *)
Record Grant := mkGrant {
  g_server : bytes; g_t1 : Z; g_t2 : Z; g_preferred : Z; g_valid : Z; g_addresses : list bytes; g_dns : list bytes
}.
Record grant_wf (g : Grant) : Prop := {
  g_server_wf : size (g_server g) <= 128 /\ Forall is_u8 (g_server g);
  g_times : is_u32 (g_t1 g) /\ is_u32 (g_t2 g) /\ is_u32 (g_preferred g) /\ is_u32 (g_valid g);
  g_addresses_wf : g_addresses g <> [] /\ (length (g_addresses g) <= 2340)%nat /\ Forall address_text (g_addresses g);
  g_dns_wf : Forall (fun a => size a = 16 /\ Forall is_u8 a) (g_dns g) /\ (length (g_dns g) <= 4095)%nat
}.
Definition grant_options (client : bytes) (g : Grant) : list DhcpV6Option :=
  reply_options client (g_server g) 1 (g_t1 g) (g_t2 g) (g_preferred g) (g_valid g) (g_addresses g) (g_dns g).
Definition granted (g : Grant) : DhcpV6Advertise :=
  mkAdvertise (g_server g) 0 (take 8 (g_addresses g)) 1 (g_t1 g) (g_t2 g) (g_preferred g) (g_valid g)
    (map inet6_ntop (take 16 (g_dns g))) STATUS_SUCCESS [].

Lemma grant_decoded x client g : 0 <= x < 2 ^ 24 -> is_u16 (size client) -> Forall is_u8 client -> grant_wf g ->
  ParseV6Reply (BuildMessage REPLY x (grant_options client g)) empty_advertise = Some (true, granted g) /\
  ParseV6Advertise (BuildMessage ADVERTISE x (grant_options client g)) empty_advertise = Some (true, granted g) /\
  forall t, SOLICIT <= t <= RELAY_REPL ->
    ParseV6Message (BuildMessage t x (grant_options client g)) empty_info = Some (true, mkInfo t x (grant_options client g)).
Proof.
  intros Hx Hc Hu [[Hs Hsu] (H1 & H2 & Hp & Hv) (Hne & Hl & Ha) [Hd Hdl]].
  destruct (reply_decoded_lemma x client (g_server g) 1 (g_t1 g) (g_t2 g) (g_preferred g) (g_valid g) (g_addresses g) (g_dns g)) as [E1 E2];
    try done.
  split_and!; [exact E1|exact E2|]. intros t Ht. apply decodes_built; [done|done|]. by apply reply_options_wf.
Qed.

Lemma take_not_nil {A} n (l : list A) : l <> [] -> take (S n) l <> [].
Proof. by destruct l. Qed.

(** C5: The whole exchange, for any server: after CMD_START the client sends a
    SOLICIT, keeps the offer, requests it from its server when the timer ends,
    takes the lease of the answer, reports it and starts the timer of T1.  Both
    messages are of its transaction, and the REQUEST names the server and the
    addresses of the offer. *)
Theorem v6_exchange config x client offer grant :
  config_wf config -> stateless config = false -> 1 <= x <= MAX_TRANSACTION_ID ->
  is_u16 (size client) -> Forall is_u8 client -> grant_wf offer -> grant_wf grant ->
  g_valid grant <> 0 -> g_valid grant <> INFINITE_LIFETIME ->
  let calls := exchange_calls (BuildMessage ADVERTISE x (grant_options client offer)) (BuildMessage REPLY x (grant_options client grant)) in
  exists s' solicit request duid duid' ia,
    run_calls calls (connected config x) = Some (tt, s') /\
    v6trace s' = [SwitchState SolicitState; DhcpV6Send solicit; SwitchState AdvertiseState;
      MessageExecutedLater CMD_TIMEOUT 1000; SwitchState RequestState; StopTimer CMD_TIMEOUT;
      DhcpV6Send request; MessageExecutedLater CMD_TIMEOUT 1000;
      SwitchState BoundState; StopTimer CMD_TIMEOUT; Succeeded (result_ s');
      MessageExecutedLater CMD_TIMEOUT (1000 * lease_t1 (granted grant))] /\
    decodes solicit SOLICIT x [id_option OPTION_CLIENTID duid; elapsed_zero; ia_na_empty; ask_dns] /\
    decodes request REQUEST x [id_option OPTION_CLIENTID duid'; id_option OPTION_SERVERID (g_server offer); elapsed_zero; ia; ask_dns] /\
    reads_as_ia_na ia (g_t1 offer) (g_t2 offer) (g_preferred offer) (g_valid offer) (take 8 (g_addresses offer)) /\
    res_ipv6Addresses (result_ s') = take 8 (g_addresses grant) /\
    res_dnsServers (result_ s') = map inet6_ntop (take 16 (g_dns grant)) /\
    res_validLifetime (result_ s') = g_valid grant /\ cfg_serverId (config_ s') = g_server grant.
Proof.
  intros Hc Hst Hx Hcs Hcu Ho Hg V0 Vi calls.
  assert (Hx24 : 0 <= x < 2 ^ 24) by (unfold MAX_TRANSACTION_ID in Hx; lia).
  destruct (grant_decoded x client offer Hx24 Hcs Hcu Ho) as (_ & Ea & Ema).
  destruct (grant_decoded x client grant Hx24 Hcs Hcu Hg) as (Er & _ & Emr).
  destruct (exchange_run config x _ _ _ _ _ _ Hst (Ema ADVERTISE ltac:(done)) eq_refl Ea (take_not_nil 7 _ (proj1 (g_addresses_wf _ Ho))) eq_refl
    (Emr REPLY ltac:(done)) eq_refl eq_refl Er (take_not_nil 7 _ (proj1 (g_addresses_wf _ Hg))) V0 Vi) as (s' & R & T & Res & S).
  set (c := with_transactionId x config) in *.
  assert (Hcc : config_wf c) by (apply with_transactionId_wf; [lia|done]).
  assert (Ht : forall f, transaction_of f c = x).
  { intros f. unfold transaction_of. change (cfg_transactionId c) with x. unfold truthy. by rewrite (proj2 (Z.eqb_neq x 0)) by lia. }
  destruct Ho as [[Hs Hsu] (H1 & H2 & Hp & Hv) (_ & Hl & _) _].
  set (c2 := with_serverId (serverId (granted offer)) c) in *.
  assert (Hc2 : config_wf c2).
  { apply with_serverId_wf; [|done|done]. unfold is_u16. cbn [serverId granted]. pose proof (size_nonneg (g_server offer)). lia. }
  pose proof (BuildSolicitMessage_decodes (fresh 0) c (fresh_law 0) Hcc) as D1. rewrite Ht in D1.
  change (stateless c) with (stateless config) in D1. rewrite Hst in D1.
  pose proof (BuildRequestMessage_decodes (fresh 1) c2 (fresh_law 1) Hc2 (granted offer) Hs Hsu) as D2.
  change (transaction_of (fresh 1) c2) with (transaction_of (fresh 1) c) in D2. rewrite Ht in D2.
  do 6 eexists. split; [exact R|]. split; [rewrite T, Res|].
  { do 12 f_equal. destruct (lease_times (granted grant) false V0 Vi) as [-> _]. f_equal. lia. }
  split; [exact D1|]. split; [apply D2; cbn [ipv6Addresses granted]; rewrite length_take; lia|].
  split; [by apply ia_na_reads|]. rewrite Res. split_and!; [done|done|done|exact S].
Qed.
End Properties.

(** * Concrete runs *)

Definition sample_grant : Grant :=
  mkGrant sample_duid 0 0 1800 3600 [inet6_ntop (sample_address 1)] [sample_address 3].
Lemma sample_grant_wf : grant_wf sample_grant.
Proof.
  split; [split; [done|by apply all_u8]|split_and!; by apply check_u32| |].
  - split_and!; [done|cbn; lia|]. constructor; [by apply sample_text|constructor].
  - split; [|cbn; lia]. constructor; [|constructor]. split; [done|by apply all_u8].
Qed.

Lemma v6_exchange_witness :
  exists s', run_calls (exchange_calls (BuildMessage ADVERTISE 7 (grant_options sample_duid sample_grant))
      (BuildMessage REPLY 7 (grant_options sample_duid sample_grant))) (connected sample_client 7) = Some (tt, s') /\
    res_ipv6Addresses (result_ s') = [inet6_ntop (sample_address 1)].
Proof.
  destruct (v6_exchange sample_client 7 sample_duid sample_grant sample_grant)
    as (s' & _ & _ & _ & _ & _ & R & _ & _ & _ & _ & A & _);
    [apply sample_client_wf|done|done|by vm_compute|by apply all_u8|apply sample_grant_wf|apply sample_grant_wf|done|done|].
  exists s'. split; [exact R|exact A].
Defined.

Lemma v6_safe_witness :
  exists s', run_calls [GoIn SolicitState; Execute AdvertiseState (received_message [2; 0; 0; 7; 0; 1])] (connected sample_client 7) = Some (tt, s').
Proof.
  destruct (v6_safe [GoIn SolicitState; Execute AdvertiseState (received_message [2; 0; 0; 7; 0; 1])] (connected sample_client 7))
    as (s' & _ & R & _).
  - apply connected_wf; [apply sample_client_wf|done].
  - constructor; [done|]. constructor; [|constructor]. by apply all_u8.
  - exists s'. exact R.
Defined.

Lemma v6_bound_by_reply_witness :
  exists b s', ExecuteStateMsg RequestState (received_message (BuildMessage REPLY 7 (grant_options sample_duid sample_grant)))
    (connected sample_client 7) = Some (b, s').
Proof.
  destruct (v6_bound_by_reply RequestState (received_message (BuildMessage REPLY 7 (grant_options sample_duid sample_grant)))
    (connected sample_client 7)) as (b & s' & _ & E & _).
  - apply connected_wf; [apply sample_client_wf|done].
  - apply all_u8. by vm_compute.
  - exists b, s'. exact E.
Defined.

(** A machine in its first exchange. *)
Definition sample_waiting : V6 := set_retryCount_ 1 (connected sample_client 7).


(** A bound client with 2.5 seconds until T2. *)
Definition sample_bound : V6 :=
  set_t2DeadlineMs_ 1002500 (set_result_ (lease_result (granted sample_grant) false) (connected sample_config 7)).

Lemma v6_renewal_witness :
  exists s' d cmd delay, run_call (GoIn RenewState) sample_bound = Some (tt, s') /\
    v6trace s' = [DhcpV6Send d; MessageExecutedLater cmd delay] /\ lease_message_of true sample_bound (transactionId_ s') d.
Proof.
  destruct (v6_renewal true (GoIn RenewState) sample_bound) as (s' & R & d & cmd & delay & T & L & _); [|done..|by left|].
  - pose proof (connected_wf sample_config 7 sample_config_wf ltac:(done)) as W. destruct W. split; try assumption.
    apply lease_result_wf. destruct (grant_decoded 7 sample_duid sample_grant) as (Er & _ & _);
      [done|by vm_compute|by apply all_u8|apply sample_grant_wf|].
    destruct (ParseV6Reply_spec (BuildMessage REPLY 7 (grant_options sample_duid sample_grant))) as (ok & adv & E & A & _).
    { apply all_u8. by vm_compute. } rewrite Er in E. injection E as _ <-. exact A.
  - exists s', d, cmd, delay. split; [exact R|]. split; [exact T|exact L].
Defined.

Lemma v6_bound_timers_witness :
  exists s', run_call (GoIn BoundState) sample_bound = Some (tt, s') /\
    v6trace s' = [Succeeded (result_ sample_bound); MessageExecutedLater CMD_TIMEOUT 1800000] /\
    t2DeadlineMs_ s' = 3880000 /\ expireDeadlineMs_ s' = 4600000.
Proof.
  destruct (v6_bound_timers (granted sample_grant) false sample_bound) as (s' & R & _ & _ & P); [|done|done|done|by vm_compute|].
  - split; try (by vm_compute); try (by split; [vm_compute|apply all_u8; vm_compute]); try (by split_and!; apply check_u32).
    + split; [|done]. constructor; [by apply sample_text|constructor].
    + split; [|done]. constructor; [|constructor]. by apply sample_text.
  - destruct P as (T & D2 & De & _); [done|done|]. exists s'. split; [exact R|]. split; [exact T|]. split; [exact D2|exact De].
Defined.
