(* ===== verification/V6Client.v ===== *)
(** The DHCPv6 client around its state machine (dhcp_v6_client/src/dhcp_v6_client.cpp
    and dhcp_v6_socket.cpp with their headers): the socket, the thread that
    receives, start and stop, and the callbacks.

    The state [V6Client] has the members of the client and of its socket, the
    machine, the descriptors of the process and what the client did.  System calls
    give the readings of a [V6Platform].  Assigning a thread to a [std::thread] that
    is still joinable ends the program; it is [undef] here.  The machine asks
    for a datagram to be sent and reports results by its actions ([v6action]), which
    [perform] gives to the socket and the callbacks after each of its calls. *)
From S2P Require Import Prelude AddressUtils RawPacket V6Message V6Machine.

Definition RECV_TIMEOUT_MS : Z := 1000.
Definition SOCK_RECV_TIMEOUT : Z := -2.
Definition DHCPV6_SERVER_PORT : Z := 547.
Definition DHCPV6_CLIENT_PORT : Z := 546.
Definition DEFAULT_MULTICAST_HOP_LIMIT : Z := 255.
Definition DHCPV6_RECV_BUFFER_SIZE : Z := 4096.
Definition MULTICAST_RELAY_AGENTS_AND_SERVERS : bytes := str "ff02::1:2".

(** What recvfrom gives: an error, which may be EWOULDBLOCK or EAGAIN, or a
    datagram and its source port, in network byte order. *)
Inductive Received := recv_failed (again : bool) | recv_from (sin6_port : Z) (data : bytes).

Class V6Platform := {
  v6_socket : nat -> gset Z -> Z;          (* in a process with those descriptors *)
  v6_setsockopt : nat -> Z;
  v6_nametoindex : bytes -> nat -> Z;
  v6_bind : nat -> Z;
  v6_sendto : nat -> Z;
  v6_recvfrom : nat -> Received
}.
Class V6PlatformLaws (P : V6Platform) := {
  v6_socket_law : forall n fds, v6_socket n fds = -1 \/ (0 <= v6_socket n fds /\ v6_socket n fds ∉ fds);
  v6_recvfrom_law : forall n port d, v6_recvfrom n = recv_from port d ->
    Forall is_u8 d /\ Z.of_nat (length d) <= DHCPV6_RECV_BUFFER_SIZE
}.

(** The thread of DhcpV6ReceiveLoop as its [std::thread] has it. *)
Inductive Thread := not_joinable | receiving | returned.
Definition joinable (t : Thread) : bool := match t with not_joinable => false | _ => true end.

Inductive v6event :=
| Sent (data : bytes) (sin6_port scope_id : Z)
| Closed (fd : Z)
| Posted (message : InternalMessage)              (* SendMessage *)
| Delivered (data : bytes)                        (* SendMessage of a CMD_MESSAGE_RECEIVED with the data *)
| HandlerThreadStopped
| OnDhcpV6Success (callback : Z) (result : DhcpV6Result)
| OnDhcpV6Failed (callback : Z) (errorCode : Z)
| OnDhcpV6Expired (callback : Z).

Record V6Client := mkV6Client {
  client_iface_ : bytes; stateMachine_ : V6; client_config_ : DhcpV6Config; client_result_ : DhcpV6Result;
  callback_ : option Z; isClientRunning_ : bool; isStopRequested_ : bool; messageThread_ : Thread;
  socketFd_ : Z; sin6_scope_id : Z; v6_open : gset Z; v6_events : list v6event; v6_reads : nat
}.
Definition eta_client6 (s : V6Client) : V6Client :=
  mkV6Client (client_iface_ s) (stateMachine_ s) (client_config_ s) (client_result_ s) (callback_ s)
    (isClientRunning_ s) (isStopRequested_ s) (messageThread_ s) (socketFd_ s) (sin6_scope_id s) (v6_open s)
    (v6_events s) (v6_reads s).
Ltac set_c6 proj s v :=
  let e := eval unfold eta_client6 in (eta_client6 s) in
  match e with context C [proj s] => let r := context C [v] in exact r end.
Definition set_stateMachine_ (v : V6) (s : V6Client) : V6Client := ltac:(set_c6 stateMachine_ s v).
Definition set_client_config_ (v : DhcpV6Config) (s : V6Client) : V6Client := ltac:(set_c6 client_config_ s v).
Definition set_client_result_ (v : DhcpV6Result) (s : V6Client) : V6Client := ltac:(set_c6 client_result_ s v).
Definition set_callback_ (v : option Z) (s : V6Client) : V6Client := ltac:(set_c6 callback_ s v).
Definition set_isClientRunning_ (v : bool) (s : V6Client) : V6Client := ltac:(set_c6 isClientRunning_ s v).
Definition set_isStopRequested_ (v : bool) (s : V6Client) : V6Client := ltac:(set_c6 isStopRequested_ s v).
Definition set_messageThread_ (v : Thread) (s : V6Client) : V6Client := ltac:(set_c6 messageThread_ s v).
Definition set_socketFd_ (v : Z) (s : V6Client) : V6Client := ltac:(set_c6 socketFd_ s v).
Definition set_sin6_scope_id (v : Z) (s : V6Client) : V6Client := ltac:(set_c6 sin6_scope_id s v).
Definition set_v6_open (v : gset Z) (s : V6Client) : V6Client := ltac:(set_c6 v6_open s v).
Definition set_v6_events (v : list v6event) (s : V6Client) : V6Client := ltac:(set_c6 v6_events s v).
Definition set_v6_reads (v : nat) (s : V6Client) : V6Client := ltac:(set_c6 v6_reads s v).

Section Client6.
Context {I6 : Inet6Text} {EN : V6Environment} {PL : V6Platform}.

Definition platform {A} (r : nat -> A) : M V6Client A :=
  let* n := get v6_reads in modify (set_v6_reads (S n)) ;; ret (r n).
Definition event6 (e : v6event) : M V6Client unit := modify (fun s => set_v6_events (v6_events s ++ [e]) s).

(** * The socket *)

Definition close6 (fd : Z) : M V6Client unit :=
  modify (fun s => set_v6_open (v6_open s ∖ {[fd]}) s) ;; event6 (Closed fd).

Definition CreateUdpSocket : M V6Client Z :=
  let* fds := get v6_open in
  let* sock := platform (fun n => v6_socket n fds) in
  if sock <? 0 then ret ERR_GENERIC
  else
    modify (fun s => set_v6_open (v6_open s ∪ {[sock]}) s) ;;
    let* r := platform v6_setsockopt in
    if r <? 0 then close6 sock ;; ret ERR_GENERIC else ret sock.

Definition SetSocketOptions : M V6Client Z :=
  let* r := platform v6_setsockopt in
  if r <? 0 then ret ERR_GENERIC
  else
    platform v6_setsockopt ;;
    platform v6_setsockopt ;;
    let* iface := get client_iface_ in
    let* ifIndex := platform (v6_nametoindex iface) in
    when (ifIndex >? 0) (platform v6_setsockopt ;; ret tt) ;;
    ret 0.

Definition BindSocket (iface : bytes) : M V6Client Z :=
  let* ifIndex := platform (v6_nametoindex iface) in
  if ifIndex =? 0 then ret ERR_GENERIC
  else
    modify (set_sin6_scope_id ifIndex) ;;
    let* r := platform v6_bind in
    ret (if r <? 0 then ERR_GENERIC else 0).

Definition JoinMulticastGroup (multicastAddr : bytes) : M V6Client Z :=
  match inet6_pton multicastAddr with
  | None => ret ERR_GENERIC
  | Some _ => let* r := platform v6_setsockopt in ret (if r <? 0 then ERR_GENERIC else 0)
  end.

Definition Close : M V6Client unit :=
  let* fd := get socketFd_ in
  when (fd >=? 0) (close6 fd ;; modify (set_socketFd_ (-1))).

Definition DhcpV6Init : M V6Client Z :=
  let* fd := CreateUdpSocket in
  modify (set_socketFd_ fd) ;;
  if fd <? 0 then ret ERR_GENERIC
  else
    let* r := SetSocketOptions in
    if r <? 0 then Close ;; ret ERR_GENERIC
    else
      let* iface := get client_iface_ in
      let* r := BindSocket iface in
      if r <? 0 then Close ;; ret ERR_GENERIC
      else
        let* r := JoinMulticastGroup MULTICAST_RELAY_AGENTS_AND_SERVERS in
        if r <? 0 then Close ;; ret ERR_GENERIC else ret 0.

Definition DhcpV6Send_socket (data : bytes) : M V6Client Z :=
  let* fd := get socketFd_ in
  if fd <? 0 then ret ERR_GENERIC
  else
    match inet6_pton MULTICAST_RELAY_AGENTS_AND_SERVERS with
    | None => ret ERR_GENERIC
    | Some _ =>
        let* scope := get sin6_scope_id in
        event6 (Sent data (htons DHCPV6_SERVER_PORT) scope) ;;
        let* sent := platform v6_sendto in
        if sent <? 0 then ret ERR_GENERIC
        else if negb (sent =? size data) then ret ERR_GENERIC
        else ret 0
    end.

(** Returns the code and the data, which stay as they were unless it is 0. *)
Definition DhcpV6Receive (data : bytes) : M V6Client (Z * bytes) :=
  let* fd := get socketFd_ in
  if fd <? 0 then ret (ERR_GENERIC, data)
  else
    platform v6_setsockopt ;;
    let* received := platform v6_recvfrom in
    match received with
    | recv_failed again => ret (if again then SOCK_RECV_TIMEOUT else ERR_GENERIC, data)
    | recv_from port d => if negb (port =? htons DHCPV6_SERVER_PORT) then ret (ERR_GENERIC, data) else ret (0, d)
    end.

(** * The machine *)

(** The callbacks the constructor gives the machine. *)
Definition result_callback (result : DhcpV6Result) : M V6Client unit :=
  let* cb := get callback_ in
  modify (set_client_result_ result) ;;
  match cb with Some cb => event6 (OnDhcpV6Success cb result) | None => ret tt end.
Definition failure_callback (errorCode : Z) : M V6Client unit :=
  let* cb := get callback_ in
  match cb with Some cb => event6 (OnDhcpV6Failed cb errorCode) | None => ret tt end.
Definition expired_callback : M V6Client unit :=
  let* cb := get callback_ in
  match cb with Some cb => event6 (OnDhcpV6Expired cb) | None => ret tt end.

Definition perform (a : v6action) : M V6Client unit :=
  match a with
  | DhcpV6Send d => DhcpV6Send_socket d ;; ret tt
  | Succeeded r => result_callback r
  | Failed e => failure_callback e
  | Expired => expired_callback
  | SendMessage cmd obj => event6 (Posted (mkMessage cmd obj))
  | _ => ret tt
  end.
Fixpoint performs (l : list v6action) : M V6Client unit :=
  match l with [] => ret tt | a :: l => perform a ;; performs l end.

(** A call of the machine, and what it asks for. *)
Definition on_machine {A} (m : M V6 A) : M V6Client A :=
  let* v6 := get stateMachine_ in
  match m v6 with
  | None => undef
  | Some (a, v6') =>
      modify (set_stateMachine_ v6') ;;
      performs (drop (length (v6trace v6)) (v6trace v6')) ;;
      ret a
  end.
Definition SendMessage_ (cmd : Z) : M V6Client unit := event6 (Posted (mkMessage cmd [])).

(** * The client *)

(** The constructor, with the hardware address GenerateDuid reads. *)
Definition fresh_client (iface : bytes) (fds : gset Z) : V6Client :=
  mkV6Client iface DhcpV6StateMachine empty_config empty_result None false false not_joinable (-1) 0 fds [] 0.
Definition DhcpV6Client (f : Fresh) (iface_mac : option bytes) : M V6Client unit :=
  let* iface := get client_iface_ in
  on_machine (SetSocket true) ;;
  on_machine (SetIfaceName iface) ;;
  on_machine (SetResultCallback true true) ;;
  on_machine (SetExpiredCallback true) ;;
  modify (set_client_config_ (mkConfig (GenerateDuid f iface_mac) [] 0 [] false [] 0 0)) ;;
  let* config := get client_config_ in
  on_machine (SetConfig config).

Definition DhcpV6ConfigureStateless (stateless_ : bool) : M V6Client unit :=
  let* c := get client_config_ in
  modify (set_client_config_ (mkConfig (clientId c) (cfg_serverId c) 0 (requestedOptions c) stateless_
    (cfg_ipv6Addresses c) (cfg_preferredLifetime c) (cfg_validLifetime c))) ;;
  let* config := get client_config_ in
  on_machine (SetConfig config).

Definition start_thread : M V6Client unit :=
  let* t := get messageThread_ in
  if joinable t then undef else modify (set_messageThread_ receiving).

Definition DhcpV6Start : M V6Client Z :=
  let* running := get isClientRunning_ in
  if running then ret 0
  else
    let* r := DhcpV6Init in
    if negb (r =? 0) then ret ERR_GENERIC
    else
      let* ok := on_machine InitDhcpV6StateMachine in
      if negb ok then ret ERR_GENERIC
      else
        modify (fun s => set_client_config_ (with_serverId [] (client_config_ s)) s) ;;
        let* config := get client_config_ in
        on_machine (SetConfig config) ;;
        modify (set_isClientRunning_ true) ;;
        start_thread ;;
        SendMessage_ CMD_START ;;
        ret 0.

(** [join] waits for the thread, which reads the flags and a closed socket. *)
Definition DhcpV6Stop : M V6Client Z :=
  let* running := get isClientRunning_ in
  if negb running then ret 0
  else
    modify (set_isClientRunning_ false) ;;
    modify (set_isStopRequested_ true) ;;
    on_machine (SetStopping true) ;;
    SendMessage_ CMD_STOP ;;
    Close ;;
    let* t := get messageThread_ in
    when (joinable t) (modify (set_messageThread_ not_joinable)) ;;
    event6 HandlerThreadStopped ;;
    modify (set_callback_ None) ;;
    modify (fun s => set_client_result_ (mkResult [] [] (res_preferredLifetime (client_result_ s))
      (res_validLifetime (client_result_ s)) (res_t1 (client_result_ s)) (res_t2 (client_result_ s))
      (ready (client_result_ s))) s) ;;
    ret 0.

Definition IsRunning : M V6Client bool := get isClientRunning_.
Definition DhcpV6RegisterCallback (callback : option Z) : M V6Client Z := modify (set_callback_ callback) ;; ret 0.

Definition Client_OnKernelDadConflict (addr : bytes) : M V6Client unit :=
  let* running := get isClientRunning_ in
  if negb running then ret tt else on_machine (OnKernelDadConflict addr).
Definition Client_IsDhcpV6ConfiguredAddress (addr : bytes) : M V6Client bool :=
  let* running := get isClientRunning_ in
  if negb running then ret false else on_machine (IsDhcpV6ConfiguredAddress addr).

(** One round of the loop of the thread; when it ends the thread has returned. *)
Definition DhcpV6ReceiveLoop_round : M V6Client unit :=
  let* running := get isClientRunning_ in
  let* stopping := get isStopRequested_ in
  if running && negb stopping then
    let* '(r, buffer) := DhcpV6Receive [] in
    if r =? 0 then event6 (Delivered buffer)
    else if r =? SOCK_RECV_TIMEOUT then ret tt
    else if r =? ERR_GENERIC then
      let* running := get isClientRunning_ in
      let* stopping := get isStopRequested_ in
      when (running && negb stopping) (SendMessage_ CMD_ERROR ;; modify (set_messageThread_ returned))
    else ret tt
  else modify (set_messageThread_ returned).
Definition receive_round : M V6Client unit :=
  let* t := get messageThread_ in
  match t with receiving => DhcpV6ReceiveLoop_round | _ => ret tt end.

(** The destructor of the client, and then of the socket. *)
Definition destroy : M V6Client unit := DhcpV6Stop ;; Close.

End Client6.
