(* ===== verification/V6ClientProperties.v ===== *)
(** The theorems on the DHCPv6 client: its invariant under any uses, any
    datagrams and any calls of the framework; what reaches the machine; and three
    faults of its socket and thread. *)
From S2P Require Import Prelude AddressUtils RawPacket V6Message V6Text V6Codec V6Machine V6Invariant V6Properties V6Client.

Section Invariant.
Context {I6 : Inet6Text} {L6 : Inet6TextLaws I6} {EN : V6Environment} {EL : V6EnvironmentLaws EN}.
Context {PL : V6Platform} {LP : V6PlatformLaws PL}.

(** What the client does is well-formed: it sends client messages to the port
    of servers, hands the machine datagrams and reports typed results. *)
Definition event_wf (e : v6event) : Prop :=
  match e with
  | Sent d port _ => port = htons 547 /\ exists t x os, t ∈ client_types /\ 0 <= x <= MAX_TRANSACTION_ID /\ decodes d t x os
  | Delivered d => Forall is_u8 d /\ Z.of_nat (length d) <= DHCPV6_RECV_BUFFER_SIZE
  | OnDhcpV6Success _ r => result_wf r
  | _ => True
  end.

Record good (F : gset Z) (s : V6Client) : Prop := {
  g_machine : v6_wf (stateMachine_ s);
  g_config : config_wf (client_config_ s);
  g_result : result_wf (client_result_ s);
  g_open : forall fd, fd ∈ v6_open s <-> fd ∈ F \/ (socketFd_ s = fd /\ 0 <= fd);
  g_own : 0 <= socketFd_ s -> socketFd_ s ∉ F;
  g_events : Forall event_wf (v6_events s)
}.
(** A client that does not run has neither a thread nor a socket. *)
Definition idle (s : V6Client) : Prop :=
  isClientRunning_ s = false -> messageThread_ s = not_joinable /\ socketFd_ s < 0.

(** The members of the thread and of the socket during a call. *)
Definition at_ (F : gset Z) (b : bool) (t : Thread) (fd : Z) (s : V6Client) : Prop :=
  good F s /\ isClientRunning_ s = b /\ messageThread_ s = t /\ socketFd_ s = fd.

Section At.
Context (F : gset Z) (b : bool) (t : Thread) (fd : Z).
Notation J := (at_ F b t fd).

Ltac keep_good := intros s [[] E]; split; [done|]; split; [split; cbn; try assumption|exact E].

Lemma platform_safe {A} (r : nat -> A) (P : A -> Prop) : (forall n, P (r n)) -> safe J (platform r) P.
Proof. intros H s [[] E]. split; [apply H|]. split; [by split|exact E]. Qed.
Lemma platform_any {A} (r : nat -> A) : safe J (platform r) (fun _ => True).
Proof. by apply platform_safe. Qed.
Lemma event6_safe e : event_wf e -> safe J (event6 e) (fun _ => True).
Proof. intros He. keep_good. apply Forall_app. auto. Qed.
Lemma set_scope_safe v : safe J (modify (set_sin6_scope_id v)) (fun _ => True).
Proof. keep_good. Qed.
Lemma set_result_safe r : result_wf r -> safe J (modify (set_client_result_ r)) (fun _ => True).
Proof. intros Hr. keep_good. Qed.
Lemma set_callback_safe c : safe J (modify (set_callback_ c)) (fun _ => True).
Proof. keep_good. Qed.
Lemma set_config_safe c : config_wf c -> safe J (modify (set_client_config_ c)) (fun _ => True).
Proof. intros Hc. keep_good. Qed.
Lemma set_stop_safe c : safe J (modify (set_isStopRequested_ c)) (fun _ => True).
Proof. keep_good. Qed.
Lemma set_machine_safe m : v6_wf m -> safe J (modify (set_stateMachine_ m)) (fun _ => True).
Proof. intros Hm. keep_good. Qed.
Hint Resolve platform_any set_scope_safe set_callback_safe set_stop_safe : safe.

Ltac c6_step :=
  lazymatch goal with |- safe _ (event6 _) _ => fail | _ => idtac end;
  first [apply safe_bind_get; intros ? ? | apply (safe_bind _ _ _ (fun _ => True)); [|intros ? _] | safe_step];
  cbv beta iota zeta; try solve [done | eauto with safe].
Ltac c6_steps := repeat c6_step.

Lemma SetSocketOptions_safe : safe J SetSocketOptions (fun _ => True).
Proof. unfold SetSocketOptions. c6_steps. Qed.
Lemma BindSocket_safe i : safe J (BindSocket i) (fun _ => True).
Proof. unfold BindSocket. c6_steps. Qed.
Lemma JoinMulticastGroup_safe a : safe J (JoinMulticastGroup a) (fun _ => True).
Proof. unfold JoinMulticastGroup. destruct (inet6_pton a); c6_steps. Qed.

Lemma send_safe d : (exists t x os, t ∈ client_types /\ 0 <= x <= MAX_TRANSACTION_ID /\ decodes d t x os) ->
  safe J (DhcpV6Send_socket d) (fun _ => True).
Proof.
  intros Hd. unfold DhcpV6Send_socket. c6_steps. by apply event6_safe.
Qed.
Lemma result_callback_safe r : result_wf r -> safe J (result_callback r) (fun _ => True).
Proof.
  intros Hr. unfold result_callback. apply safe_bind_get; intros s Hs.
  apply (safe_bind _ _ _ (fun _ => True)); [by apply set_result_safe|]. intros _ _.
  destruct (callback_ s); [by apply event6_safe|by apply safe_ret].
Qed.

Lemma performs_safe l : Forall action_wf l -> safe J (performs l) (fun _ => True).
Proof.
  induction 1 as [|a l Ha _ IH]; cbn [performs]; [by apply safe_ret|].
  apply (safe_bind _ _ _ (fun _ => True)); [|by auto]. destruct a; cbn [perform]; try by apply safe_ret.
  - by apply event6_safe.
  - apply (safe_bind _ _ _ (fun _ => True)); [by apply send_safe|]. intros _ _. by apply safe_ret.
  - by apply result_callback_safe.
  - unfold failure_callback. apply safe_bind_get; intros s Hs. destruct (callback_ s); [by apply event6_safe|by apply safe_ret].
  - unfold expired_callback. apply safe_bind_get; intros s Hs. destruct (callback_ s); [by apply event6_safe|by apply safe_ret].
Qed.

(** A call of the machine that keeps its types keeps those of the client. *)
Lemma on_machine_safe {A} (m : M V6 A) ts (P : A -> Prop) :
  (forall tr0, safe (during ts tr0) m P) -> safe J (on_machine m) P.
Proof.
  intros H. unfold on_machine. apply safe_bind_get; intros s Hs.
  assert (D : during ts (v6trace (stateMachine_ s)) (stateMachine_ s)).
  { split; [by destruct Hs as [[] _]|]. exists []. by rewrite app_nil_r. }
  apply (H (v6trace (stateMachine_ s))) in D. apply wp_run in D as (a & m' & -> & Ha & W & l & E & Hl).
  rewrite E, drop_app_length. apply (safe_bind _ _ _ (fun _ => True)); [by apply set_machine_safe|]. intros _ _.
  apply (safe_bind _ _ _ (fun _ => True)); [|by intros _ _; apply safe_ret]. apply performs_safe.
  eapply Forall_impl; [exact Hl|]. by intros x [].
Qed.
End At.

(** * The socket *)

Lemma good_new F s x : good F s -> socketFd_ s < 0 -> 0 <= x -> x ∉ v6_open s ->
  good (F ∪ {[x]}) (set_v6_open (v6_open s ∪ {[x]}) s) /\ x ∉ F.
Proof.
  intros [] Hs Hx Hn. split; [|intros Hf; apply Hn, g_open0; by left]. split; cbn; try assumption; [|lia].
  intros fd. rewrite !elem_of_union, g_open0. set_solver.
Qed.
Lemma good_drop F s x : good (F ∪ {[x]}) s -> x ∉ F -> socketFd_ s < 0 -> good F (set_v6_open (v6_open s ∖ {[x]}) s).
Proof.
  intros [] Hx Hs. split; cbn; try assumption; [|lia].
  intros fd. rewrite elem_of_difference, g_open0, elem_of_union, elem_of_singleton. split; [naive_solver|].
  intros [Hf|[? ?]]; [|lia]. split; [by do 2 left|]. by intros ->.
Qed.
Lemma good_take F s x : good (F ∪ {[x]}) s -> x ∉ F -> 0 <= x -> socketFd_ s < 0 -> good F (set_socketFd_ x s).
Proof.
  intros [] Hx H0 Hs. split; cbn; try assumption; [|done].
  intros fd. rewrite g_open0, elem_of_union, elem_of_singleton. split; [|naive_solver].
  intros [[Hf| ->]|[? ?]]; [by left|by right|lia].
Qed.
Lemma good_close F s : good F s -> 0 <= socketFd_ s ->
  good F (set_socketFd_ (-1) (set_v6_open (v6_open s ∖ {[socketFd_ s]}) s)).
Proof.
  intros [] H0. split; cbn; try assumption; [|lia].
  intros fd. rewrite elem_of_difference, g_open0, elem_of_singleton. split.
  - intros [[Hf|[<- _]] Hn]; [by left|done].
  - intros [Hf|[<- ?]]; [|lia]. split; [by left|]. intros ->. by apply g_own0.
Qed.
Lemma good_none F s : good F s -> socketFd_ s < 0 -> good F (set_socketFd_ (-1) s).
Proof.
  intros [] H0. split; cbn; try assumption; [|lia]. intros fd. rewrite g_open0. split; (intros [?|[? ?]]; [by left|lia]).
Qed.

Lemma wp_platform {A} (r : nat -> A) (Q : A -> V6Client -> Prop) s : Q (r (v6_reads s)) (set_v6_reads (S (v6_reads s)) s) -> wp (platform r) Q s.
Proof. done. Qed.

Lemma CreateUdpSocket_wp F b t fd s : at_ F b t fd s -> fd < 0 ->
  wp CreateUdpSocket (fun r s' => (r = ERR_GENERIC /\ at_ F b t fd s') \/
    (0 <= r /\ r ∉ F /\ at_ (F ∪ {[r]}) b t fd s')) s.
Proof.
  intros [G E] Hfd. unfold CreateUdpSocket. apply wp_bind, wp_get, wp_bind, wp_platform.
  assert (Hs : socketFd_ s < 0) by (destruct E as (_ & _ & ->); done).
  apply wp_if; intros El; [apply wp_ret; left; split; [done|]; by split; [destruct G; split|]|].
  apply Z.ltb_ge in El. destruct (v6_socket_law (v6_reads s) (v6_open s)) as [X|[_ Hn]]; [lia|].
  destruct (good_new F s _ G Hs El Hn) as [G' Hf]. apply wp_bind, wp_modify, wp_bind, wp_platform.
  apply wp_if; intros _.
  - apply wp_bind. unfold close6. apply wp_bind, wp_modify, wp_modify, wp_ret. left. split; [done|]. split; [|exact E].
    destruct (good_drop F _ _ G' Hf Hs). split; try assumption. apply Forall_app. split; [assumption|by constructor].
  - apply wp_ret. right. split; [done|]. split; [done|]. split; [|exact E]. destruct G'. by split.
Qed.

Lemma Close_wp F b t fd s : at_ F b t fd s -> wp Close (fun _ s' => exists fd', fd' < 0 /\ at_ F b t fd' s') s.
Proof.
  intros [G (Eb & Et & Ef)]. unfold Close. apply wp_bind, wp_get. rewrite Z.geb_leb. apply wp_when; intros E.
  - apply Z.leb_le in E. unfold close6. apply wp_bind, wp_bind, wp_modify, wp_modify, wp_modify.
    exists (-1). split; [done|]. split; [|done]. destruct (good_close F s G E). split; try assumption.
    apply Forall_app. split; [assumption|by constructor].
  - apply Z.leb_gt in E. by exists (socketFd_ s).
Qed.

Lemma DhcpV6Init_wp F b t fd s : at_ F b t fd s -> fd < 0 ->
  wp DhcpV6Init (fun r s' => exists fd', at_ F b t fd' s' /\ ((r = 0 /\ 0 <= fd') \/ (r = ERR_GENERIC /\ fd' < 0))) s.
Proof.
  intros A Hfd. unfold DhcpV6Init. apply wp_bind. eapply wp_mono; [by apply (CreateUdpSocket_wp F b t fd)|].
  intros x s1 [[-> [G (Eb & Et & Ef)]]|(Hx & Hn & [G (Eb & Et & Ef)])]; apply wp_bind, wp_modify.
  { apply wp_if; intros E; [|done]. apply wp_ret. exists (-1). split; [split; [apply good_none; [done|lia]|done]|by right]. }
  assert (A1 : at_ F b t x (set_socketFd_ x s1)) by (split; [apply good_take; [done..|lia]|done]).
  revert A1. generalize (set_socketFd_ x s1). clear - L6 EL LP Hx. intros s1 A1.
  assert (FAIL : forall s, at_ F b t x s -> wp (Close ;; ret ERR_GENERIC) (fun r s' => exists fd', at_ F b t fd' s' /\
    ((r = 0 /\ 0 <= fd') \/ (r = ERR_GENERIC /\ fd' < 0))) s).
  { intros s As. apply wp_bind. eapply wp_mono; [by apply (Close_wp F b t x)|]. intros _ s' (fd' & Hf & A'). apply wp_ret. exists fd'. auto. }
  rewrite (proj2 (Z.ltb_ge x 0)) by done. apply wp_bind. eapply wp_mono; [by apply (SetSocketOptions_safe F b t x)|].
  intros r s2 [_ A2]. apply wp_if; intros _; [by apply FAIL|]. apply wp_bind, wp_get, wp_bind.
  eapply wp_mono; [by apply (BindSocket_safe F b t x)|]. intros r' s3 [_ A3]. apply wp_if; intros _; [by apply FAIL|]. apply wp_bind.
  eapply wp_mono; [by apply (JoinMulticastGroup_safe F b t x)|]. intros r'' s4 [_ A4]. apply wp_if; intros _; [by apply FAIL|].
  apply wp_ret. exists x. auto.
Qed.

Lemma DhcpV6Receive_safe F b t fd d : safe (at_ F b t fd) (DhcpV6Receive d)
  (fun r => fst r = 0 -> Forall is_u8 (snd r) /\ Z.of_nat (length (snd r)) <= DHCPV6_RECV_BUFFER_SIZE).
Proof.
  unfold DhcpV6Receive. apply safe_bind_get; intros s Hs. apply safe_if; intros _; [by apply safe_ret|].
  apply (safe_bind _ _ _ (fun _ => True)); [apply platform_any|]. intros _ _.
  eapply safe_bind.
  { apply (platform_safe F b t fd v6_recvfrom (fun r => forall port d, r = recv_from port d ->
      Forall is_u8 d /\ Z.of_nat (length d) <= DHCPV6_RECV_BUFFER_SIZE)). intros n. apply v6_recvfrom_law. }
  intros [again|port d'] Hr; [apply safe_ret; by destruct again|]. apply safe_if; intros _; apply safe_ret; [done|].
  intros _. by apply (Hr port).
Qed.

(** * The client *)

(** A use of the client, a round of its thread, or a call of the framework. *)
Inductive v6use :=
| u_start | u_stop | u_register (callback : option Z) | u_configure (stateless_ : bool) | u_conflict (addr : bytes)
| u_configured (addr : bytes) | u_receive | u_framework (c : v6call).
Definition use_ok (u : v6use) : Prop := match u with u_framework c => call_ok c | _ => True end.
Definition run_use (u : v6use) : M V6Client unit :=
  match u with
  | u_start => DhcpV6Start ;; ret tt
  | u_stop => DhcpV6Stop ;; ret tt
  | u_register cb => DhcpV6RegisterCallback cb ;; ret tt
  | u_configure b => DhcpV6ConfigureStateless b
  | u_conflict a => Client_OnKernelDadConflict a
  | u_configured a => Client_IsDhcpV6ConfiguredAddress a ;; ret tt
  | u_receive => receive_round
  | u_framework c => on_machine (run_call c)
  end.
Fixpoint run_uses (us : list v6use) : M V6Client unit :=
  match us with [] => ret tt | u :: us => run_use u ;; run_uses us end.

Definition sound (F : gset Z) (s : V6Client) : Prop := good F s /\ idle s.

Lemma sound_at F s : sound F s -> at_ F (isClientRunning_ s) (messageThread_ s) (socketFd_ s) s.
Proof. by intros [G _]. Qed.
Lemma at_sound F b t fd s : (b = false -> t = not_joinable /\ fd < 0) -> at_ F b t fd s -> sound F s.
Proof. intros H [G (Eb & Et & Ef)]. split; [done|]. intros E. rewrite Et, Ef. apply H. congruence. Qed.

(** What keeps the members of thread and socket keeps the client sound. *)
Lemma safe_sound {A} F (m : M V6Client A) (P : A -> Prop) :
  (forall b t fd, safe (at_ F b t fd) m P) -> safe (sound F) m (fun _ => True).
Proof.
  intros H s S. pose proof S as [_ Id]. eapply wp_mono; [by apply H, sound_at|]. intros a s' [_ A']. split; [done|].
  by eapply at_sound.
Qed.

Lemma config_wf_with c duid b : config_wf c -> is_u16 (size duid) /\ Forall is_u8 duid ->
  config_wf (mkConfig duid [] 0 (requestedOptions c) b (cfg_ipv6Addresses c) (cfg_preferredLifetime c) (cfg_validLifetime c)).
Proof. intros [] H. split; cbn; [done|split; [by vm_compute|constructor]|by vm_compute|assumption|assumption]. Qed.
Lemma config_wf_stateless c b : config_wf c ->
  config_wf (mkConfig (clientId c) (cfg_serverId c) 0 (requestedOptions c) b (cfg_ipv6Addresses c) (cfg_preferredLifetime c)
    (cfg_validLifetime c)).
Proof. intros []. split; cbn; try assumption. by vm_compute. Qed.

Lemma set_machine_config F b t fd : safe (at_ F b t fd) (let* config := get client_config_ in on_machine (SetConfig config)) (fun _ => True).
Proof.
  apply safe_bind_get; intros s [G _]. apply (on_machine_safe F b t fd _ []). intros tr0. eapply safe_mono; [apply Configure_safe|done].
  by destruct G.
Qed.

Lemma ConfigureStateless_safe F b t fd v : safe (at_ F b t fd) (DhcpV6ConfigureStateless v) (fun _ => True).
Proof.
  unfold DhcpV6ConfigureStateless. apply safe_bind_get; intros s [G _].
  apply (safe_bind _ _ _ (fun _ => True)); [|intros _ _; apply set_machine_config].
  apply set_config_safe, config_wf_stateless. by destruct G.
Qed.

Context (FW : forall n, framework_starts n = true).

Lemma Initialise_starts tr0 : safe (during [] tr0) InitDhcpV6StateMachine (fun ok => ok = true).
Proof using All.
  unfold InitDhcpV6StateMachine, BuildStateTree, InitDhcpV6States.
  eapply safe_bind; [apply (reading_safe _ _ _ (fun ok => ok = true)), FW|]. intros ok ->. cbn [negb].
  apply (safe_bind _ _ _ anything); [by apply safe_ret|]. intros _ _.
  repeat (apply (safe_bind _ _ _ anything); [|intros _ _]); try (by apply safe_ret); by repeat (apply (safe_bind _ _ _ anything); [|intros _ _]); apply ask_safe.
Qed.

Lemma DhcpV6Start_safe F : safe (sound F) DhcpV6Start (fun _ => True).
Proof using All.
  intros s S. unfold DhcpV6Start. apply wp_bind, wp_get, wp_if; intros Er; [by split|].
  pose proof (sound_at _ _ S) as A. destruct S as [_ Id]. destruct (Id Er) as [Et Ef]. rewrite Er, Et in A.
  apply wp_bind. eapply wp_mono; [by apply (DhcpV6Init_wp _ _ _ _ _ A)|].
  intros r s1 (fd & A1 & [[-> Hfd]|[-> Hfd]]); [|apply wp_ret; split; [done|]; eapply at_sound; [|exact A1]; auto].
  cbn [negb Z.eqb]. apply wp_bind.
  eapply wp_mono; [apply (on_machine_safe F false not_joinable fd _ [] _ Initialise_starts _ A1)|]. intros ok s2 [-> A2].
  cbn [negb]. apply wp_bind. destruct A2 as [G2 E2].
  eapply wp_mono.
  { apply (set_config_safe F false not_joinable fd (with_serverId [] (client_config_ s2))); [|by split].
    destruct G2 as [? [] ?]. split; cbn; try assumption. split; [by vm_compute|constructor]. }
  intros _ s3 [_ A3]. apply wp_bind, wp_get, wp_bind.
  eapply wp_mono; [exact (wp_bind_inv (get client_config_) _ _ _ (set_machine_config F false not_joinable fd s3 A3))|].
  intros [] s4 [_ [G4 (_ & Et4 & Ef4)]]. apply wp_bind, wp_modify, wp_bind. unfold start_thread. apply wp_bind, wp_get.
  change (messageThread_ (set_isClientRunning_ true s4)) with (messageThread_ s4). rewrite Et4. cbn [joinable].
  apply wp_modify, wp_bind, wp_modify, wp_ret. split; [done|]. split; [|done]. destruct G4. split; try assumption.
  apply Forall_app. split; [assumption|by constructor].
Qed.

Lemma shortened_result r : result_wf r ->
  result_wf (mkResult [] [] (res_preferredLifetime r) (res_validLifetime r) (res_t1 r) (res_t2 r) (ready r)).
Proof. intros []. split; cbn; try assumption; split; [constructor|cbn; lia|constructor|cbn; lia]. Qed.

Lemma DhcpV6Stop_safe F : safe (sound F) DhcpV6Stop (fun _ => True).
Proof using L6 EL LP.
  intros s S. unfold DhcpV6Stop. apply wp_bind, wp_get, wp_if; intros Er; [by split|].
  pose proof (sound_at _ _ S) as [G _]. apply wp_bind, wp_modify, wp_bind, wp_modify. set (s1 := set_isStopRequested_ _ _).
  assert (A1 : at_ F false (messageThread_ s) (socketFd_ s) s1) by (split; [by destruct G; split|done]).
  clearbody s1. apply wp_bind.
  eapply wp_mono; [exact (on_machine_safe F _ _ _ (SetStopping true) [] anything (fun tr0 => SetStopping_safe _ _ true) s1 A1)|].
  intros [] s2 [_ A2]. apply wp_bind. eapply wp_mono; [exact (event6_safe F _ _ _ (Posted (mkMessage CMD_STOP [])) I s2 A2)|].
  intros [] s3 [_ A3]. apply wp_bind. eapply wp_mono; [exact (Close_wp _ _ _ _ _ A3)|]. intros [] s4 (fd & Hfd & A4).
  apply wp_bind, wp_get, wp_bind.
  apply (wp_mono _ (fun _ s' => at_ F false not_joinable fd s')).
  { destruct A4 as [G4 (Eb & Et & Ef)]. apply wp_when; intros J; [apply wp_modify; split; [by destruct G4; split|done]|].
    split; [done|]. split; [done|]. split; [|done]. by destruct (messageThread_ s4). }
  clear s4 A4. intros [] s4 A4. apply wp_bind. eapply wp_mono; [exact (event6_safe F _ _ _ HandlerThreadStopped I s4 A4)|].
  intros [] s5 [_ A5]. apply wp_bind. eapply wp_mono; [exact (set_callback_safe F _ _ _ None s5 A5)|]. intros [] s6 [_ A6].
  apply wp_bind, wp_modify, wp_ret. split; [done|]. eapply (at_sound F false not_joinable fd); [done|].
  destruct A6 as [[] E6]. split; [split; try assumption; by apply shortened_result|exact E6].
Qed.

Lemma receive_round_safe F : safe (sound F) receive_round (fun _ => True).
Proof using L6 EL LP.
  intros s S. unfold receive_round. apply wp_bind, wp_get. destruct (messageThread_ s) eqn:Et; [by split| |by split].
  unfold DhcpV6ReceiveLoop_round. apply wp_bind, wp_get, wp_bind, wp_get.
  assert (Er : isClientRunning_ s = true).
  { destruct S as [_ Id]. destruct (isClientRunning_ s) eqn:E; [done|]. destruct (Id E). congruence. }
  pose proof (sound_at _ _ S) as A. rewrite Er in A |- *.
  assert (END : forall s', at_ F true (messageThread_ s) (socketFd_ s) s' ->
    wp (modify (set_messageThread_ returned)) (fun _ s' => True /\ sound F s') s').
  { intros s' [[] E]. apply wp_modify. split; [done|]. split; [by split|]. intros H. cbn in H. destruct E. congruence. }
  apply wp_if; intros _; [|by apply END]. apply wp_bind.
  eapply wp_mono; [exact (DhcpV6Receive_safe F _ _ _ [] s A)|]. intros [r d] s1 [Hr A1]. cbn in Hr.
  apply wp_if; intros E0.
  { apply Z.eqb_eq in E0. eapply wp_mono; [exact (event6_safe F _ _ _ (Delivered d) (Hr E0) s1 A1)|].
    intros [] s2 [_ A2]. split; [done|]. by apply (at_sound F true (messageThread_ s) (socketFd_ s)). }
  apply wp_if; intros _; [apply wp_ret; split; [done|]; by apply (at_sound F true (messageThread_ s) (socketFd_ s))|].
  apply wp_if; intros _; [|apply wp_ret; split; [done|]; by apply (at_sound F true (messageThread_ s) (socketFd_ s))].
  apply wp_bind, wp_get, wp_bind, wp_get, wp_when; intros _; [|split; [done|]; by apply (at_sound F true (messageThread_ s) (socketFd_ s))].
  apply wp_bind. eapply wp_mono; [exact (event6_safe F _ _ _ (Posted (mkMessage CMD_ERROR [])) I s1 A1)|].
  intros [] s2 [_ A2]. by apply END.
Qed.

Lemma run_use_safe F u : use_ok u -> safe (sound F) (run_use u) (fun _ => True).
Proof using All.
  intros Hu. destruct u; cbn [run_use] in *.
  - eapply safe_bind; [apply DhcpV6Start_safe|]. intros ? _. by apply safe_ret.
  - eapply safe_bind; [apply DhcpV6Stop_safe|]. intros ? _. by apply safe_ret.
  - apply (safe_sound F _ (fun _ => True)). intros b t fd. unfold DhcpV6RegisterCallback.
    apply (safe_bind _ _ _ (fun _ => True)); [|by intros; apply safe_ret].
    apply (safe_bind _ _ _ (fun _ => True)); [apply set_callback_safe|by intros; apply safe_ret].
  - apply (safe_sound F _ (fun _ => True)). intros. apply ConfigureStateless_safe.
  - apply (safe_sound F _ (fun _ => True)). intros b t fd. unfold Client_OnKernelDadConflict. apply safe_bind_get; intros s Hs.
    apply safe_if; intros _; [by apply safe_ret|]. apply (on_machine_safe F b t fd _ []). intros tr0.
    eapply safe_mono; [apply KernelDadConflict_safe|done].
  - apply (safe_sound F _ (fun _ => True)). intros b t fd. unfold Client_IsDhcpV6ConfiguredAddress.
    apply (safe_bind _ _ _ (fun _ => True)); [|by intros; apply safe_ret]. apply safe_bind_get; intros s Hs.
    apply safe_if; intros _; [by apply safe_ret|]. apply (on_machine_safe F b t fd _ []). intros tr0.
    unfold IsDhcpV6ConfiguredAddress. apply safe_bind_get. intros. by apply safe_ret.
  - apply receive_round_safe.
  - apply (safe_sound F _ (fun _ => True)). intros b t fd. apply (on_machine_safe F b t fd _ (call_targets c)). intros tr0.
    eapply safe_mono; [by apply run_call_safe|done].
Qed.

Lemma run_uses_safe F us : Forall use_ok us -> safe (sound F) (run_uses us) (fun _ => True).
Proof using All.
  induction 1 as [|u us Hu _ IH]; cbn [run_uses]; [by apply safe_ret|].
  eapply safe_bind; [by apply run_use_safe|]. by intros [] _.
Qed.

Lemma empty_config_wf : config_wf empty_config.
Proof. split; [split; [by vm_compute|constructor]..|by vm_compute|cbn; lia|by split; apply check_u32]. Qed.
Lemma fresh_client_sound iface F : sound F (fresh_client iface F).
Proof.
  split; [|done]. split; cbn; try lia.
  - split; cbn; try done; try apply empty_result_wf; try apply empty_adv_wf; try apply empty_config_wf; unfold is_u64; by vm_compute || lia.
  - apply empty_config_wf.
  - apply empty_result_wf.
  - intros fd. split; [by left|]. intros [?|[? ?]]; [done|lia].
  - constructor.
Qed.


Lemma DhcpV6Client_safe f mac F : fresh_wf f -> (forall m, mac = Some m -> length m = 6%nat) ->
  safe (sound F) (DhcpV6Client f mac) (fun _ => True).
Proof using L6 EL LP.
  intros Hf Hm. apply (safe_sound F _ (fun _ => True)). intros b t fd. unfold DhcpV6Client. apply safe_bind_get; intros s Hs.
  assert (SET : forall g : V6 -> V6, (forall tr0 v, during [] tr0 v -> during [] tr0 (g v)) ->
    safe (at_ F b t fd) (on_machine (modify g)) (fun _ => True)).
  { intros g Hg. apply (on_machine_safe F b t fd _ []). intros tr0. by apply safe_modify, Hg. }
  do 4 (apply (safe_bind _ _ _ (fun _ => True)); [apply SET; intros tr0 v [[] T]; (split; [by split|exact T])|intros _ _]).
  apply (safe_bind _ _ _ (fun _ => True)); [|intros _ _; apply set_machine_config].
  apply set_config_safe. split; cbn; [|split; [by vm_compute|constructor]|by vm_compute|lia|by split; apply check_u32].
  destruct (GenerateDuid_malformed f mac Hf Hm) as [_ E]. rewrite E. split; [by vm_compute|].
  destruct mac as [m|]; [|by apply (GenerateDuid_wf f Hf)]. unfold GenerateDuid. rewrite !Forall_app.
  destruct (GenerateDuid_wf f Hf) as [_ U]. unfold GenerateDuid in U. rewrite !Forall_app in U. destruct U as [U _].
  split; [exact U|]. apply Forall_forall. intros x Hx. apply list_elem_of_fmap in Hx as (y & -> & _).
  apply Z.mod_pos_bound. lia.
Qed.

End Invariant.

(** * What reaches the machine *)

Section Received.
Context {I6 : Inet6Text} {EN : V6Environment} {PL : V6Platform}.

(** The client runs and its thread waits for datagrams. *)
Definition listening (s : V6Client) : Prop :=
  isClientRunning_ s = true /\ isStopRequested_ s = false /\ messageThread_ s = receiving /\ 0 <= socketFd_ s.

(** The reading of the next recvfrom; one is taken before by setsockopt. *)
Definition next_received (s : V6Client) : Received := v6_recvfrom (S (v6_reads s)).

Definition after_round (es : list v6event) (t : Thread) (s : V6Client) : V6Client :=
  set_messageThread_ t (set_v6_events (v6_events s ++ es) (set_v6_reads (S (S (v6_reads s))) s)).

(** C32: A round hands a datagram of a server to the machine unchanged; a timeout
    changes nothing; after an error, and after a datagram of any other port, the thread
    ends although the client runs on. *)
Theorem receive_round_spec s : listening s ->
  receive_round s = Some (tt, match next_received s with
    | recv_from port d => if port =? htons 547 then after_round [Delivered d] receiving s
                          else after_round [Posted (mkMessage CMD_ERROR [])] returned s
    | recv_failed true => after_round [] receiving s
    | recv_failed false => after_round [Posted (mkMessage CMD_ERROR [])] returned s
    end).
Proof.
  intros (Er & Es & Et & Hf). unfold receive_round, DhcpV6ReceiveLoop_round, DhcpV6Receive. unfold bind, get. rewrite Et, Er, Es.
  cbn [negb andb]. rewrite (proj2 (Z.ltb_ge (socketFd_ s) 0)) by done. unfold platform, bind, get, modify, ret.
  unfold next_received. cbn [v6_reads set_v6_reads].
  destruct (v6_recvfrom (S (v6_reads s))) as [[]|port d].
  - unfold after_round. rewrite app_nil_r. cbn. by destruct s; cbn in *; subst.
  - cbn. by destruct s; cbn in *; subst.
  - change (htons DHCPV6_SERVER_PORT) with (htons 547). destruct (port =? htons 547) eqn:E; cbn [negb];
      cbn; by destruct s; cbn in *; subst.
Qed.

(** No state handles the error the thread posts. *)
Lemma error_ignored st d s : ExecuteStateMsg st (Some (mkMessage CMD_ERROR d)) s = Some (false, s).
Proof. by destruct st. Qed.
End Received.

(** * Executions *)

(** Addresses in full, and the abbreviated one of the servers' group. *)
Definition Group6 : Inet6Text := {|
  inet6_pton s := if bool_decide (s = MULTICAST_RELAY_AGENTS_AND_SERVERS) then Some ([255; 2] ++ zeros 11 ++ [1; 0; 2])
                  else @inet6_pton Full6 s;
  inet6_ntop := @inet6_ntop Full6 |}.
Lemma Group6_laws : Inet6TextLaws Group6.
Proof.
  split; cbn [inet6_pton inet6_ntop Group6].
  - intros s a. case_bool_decide; [|apply (@inet6_pton_wf _ Full6Laws)]. intros [= <-]. split; [done|]. repeat constructor; by vm_compute.
  - intros a Ha Hu. rewrite bool_decide_eq_false_2; [by apply (@inet6_pton_ntop _ Full6Laws)|]. intros E.
    destruct (groups_text_chars 7 a Ha Hu) as [L _]. cbn [inet6_ntop Full6] in E. by rewrite E in L.
  - apply (@inet6_ntop_text _ Full6Laws).
Qed.

(** Interface 7, the lowest free descriptors from 3 on, and what recvfrom gives. *)
Definition free_fd (fds : gset Z) : Z := default (-1) (head (filter (fun x => x ∉ fds) [3; 4; 5; 6; 7])).
Definition sample_platform (received : nat -> Received) : V6Platform := {|
  v6_socket _ fds := free_fd fds; v6_setsockopt _ := 0; v6_nametoindex _ _ := 7; v6_bind _ := 0; v6_sendto _ := 0;
  v6_recvfrom := received |}.

Lemma sample_platform_laws received : (forall n port d, received n = recv_from port d ->
  Forall is_u8 d /\ Z.of_nat (length d) <= DHCPV6_RECV_BUFFER_SIZE) -> V6PlatformLaws (sample_platform received).
Proof.
  intros H. split; [|exact H]. cbn. intros _ fds. unfold free_fd. destruct (head (filter _ _)) as [x|] eqn:E; [right|by left]. cbn.
  assert (x ∈ filter (fun x => x ∉ fds) [3; 4; 5; 6; 7]) as Hx by (destruct (filter _ _); [done|]; injection E as ->; by left).
  apply list_elem_of_filter in Hx as [Hn Hx]. split; [|done].
  repeat (apply elem_of_cons in Hx as [->|Hx]; [lia|]). by apply elem_of_nil in Hx.
Qed.

Definition from_server (d : bytes) (n : nat) : Received := recv_from (htons 547) d.
Lemma from_server_laws d : Forall is_u8 d -> Z.of_nat (length d) <= 4096 -> V6PlatformLaws (sample_platform (from_server d)).
Proof. intros Hu Hl. apply sample_platform_laws. by intros n port d' [= <- <-]. Qed.

Definition sample_uses : list v6use :=
  [u_register (Some 1); u_configure false; u_start; u_framework (GoIn InitState); u_framework (Execute InitState (Some (mkMessage CMD_START [])));
   u_receive; u_framework (Execute SolicitState (Some (mkMessage CMD_MESSAGE_RECEIVED [2; 1; 0; 0]))); u_stop].


(** The client after the uses, from its creation in a process without other
    descriptors. *)
Definition used (E : V6Environment) (us : list v6use) : option V6Client :=
  snd <$> (@DhcpV6Client Group6 E (sample_platform (from_server [2; 1; 0; 0])) sample_fresh None ;;
           @run_uses Group6 E (sample_platform (from_server [2; 1; 0; 0])) us) (fresh_client (str "wlan0") ∅).
Definition is_delivered (e : v6event) : bool := match e with Delivered _ => true | _ => false end.

(** A client that is stopped and started again runs, but its thread ends before
    it receives anything: the request to stop is never taken back. *)
Theorem restarted_client_deaf :
  exists s, used sample_environment [u_start; u_receive; u_stop; u_start; u_receive] = Some s /\
    isClientRunning_ s = true /\ messageThread_ s = returned /\ length (filter is_delivered (v6_events s)) = 1%nat.
Proof. eexists. split; [vm_compute; reflexivity|]. by vm_compute. Qed.

(** When the framework does not start, each attempt leaves a descriptor open. *)
Definition no_framework : V6Environment := {| fresh _ := sample_fresh; now_ms _ := 1000000; framework_starts _ := false |}.
Theorem failed_start_leaks :
  exists s, used no_framework [u_start; u_start; u_stop] = Some s /\
    isClientRunning_ s = false /\ v6_open s = {[3; 4]} /\ socketFd_ s = 4.
Proof. eexists. split; [vm_compute; reflexivity|]. split; [done|]. split; [|done]. apply (bool_decide_unpack _). by vm_compute. Qed.

(** A client that runs, with descriptor 3. *)
Definition sample_listener : V6Client :=
  mkV6Client (str "wlan0") (connected sample_client 258) sample_client empty_result None true false receiving 3 7 {[3]} [] 0.
Lemma receive_round_spec_witness :
  @receive_round (sample_platform (from_server [7; 0; 1; 2])) sample_listener =
  Some (tt, after_round [Delivered [7; 0; 1; 2]] receiving sample_listener).
Proof.
  assert (L : listening sample_listener) by (repeat split; cbn; lia).
  exact (@receive_round_spec (sample_platform (from_server [7; 0; 1; 2])) sample_listener L).
Defined.
