(* ===== verification/ArpChecker.v ===== *)
(** The checker for address conflicts (src/services/utils/src/dhcp_arp_checker.cpp
    and its header, with PostSyncTimeOutTask of dhcp_thread.cpp): it binds a
    socket on a helper thread, sends one ARP request and reads frames until a
    reply or a deadline.

    The state [Arp] has the members of a checker and the two tables the
    checkers of a process share, the tasks that bind and outlived the wait for
    them, the descriptors the process has open and the calls made.  What a
    system call gives is a reading of an [ArpEnvironment]; how the binding task
    and the wait for it interleave is one, [BindOutcome], and a task that outlived the
    wait goes on by the steps [task_begins] and [task_ends].  [None] is a loop
    that runs out of fuel. *)
From S2P Require Import Prelude AddressUtils Codec RawPacket.

Definition MAX_LENGTH : Z := 1500.
Definition OPT_SUCC : Z := 0.
Definition OPT_FAIL : Z := -1.
Definition MAC_ADDR_STRING_LENGTH : Z := 17.
Definition MAC_BROADCAST_VALUE : Z := 0xFF.
Definition MIN_PROGRESS_MS : Z := 1.
Definition TIMEOUT_EXPIRED : Z := 0.
Definition INVALID_SOCKET_FD : Z := -1.
Definition INVALID_INTERFACE_INDEX : Z := 0.
Definition INVALID_PROTOCOL : Z := 0.
Definition ERROR_FAILED : Z := -1.
Definition ERROR_TIMEOUT : Z := -2.
Definition IPV4_ALEN : Z := 4.
Definition ETH_ALEN : Z := 6.
Definition INTEGER_MAX : Z := 0x7FFFFFFF.
Definition ARPHRD_ETHER : Z := 1.
Definition ETH_P_IP : Z := 0x0800.
Definition ETH_P_ARP : Z := 0x0806.
Definition ARPOP_REQUEST : Z := 1.
Definition ARPOP_REPLY : Z := 2.
Definition BIND_DETECTION_TIMEOUT_MS : Z := 3000.

(** The packed structure, and its 28 bytes in memory. *)
Record ArpPacket := mkArpPacket {
  ar_hrd : Z; ar_pro : Z; ar_hln : Z; ar_pln : Z; ar_op : Z;
  ar_sha : bytes; ar_spa : bytes; ar_tha : bytes; ar_tpa : bytes
}.
Definition sizeof_ArpPacket : Z := 28.
Definition arp_bytes (p : ArpPacket) : bytes :=
  le16 (ar_hrd p) ++ le16 (ar_pro p) ++ [u8 (ar_hln p); u8 (ar_pln p)] ++ le16 (ar_op p) ++
  ar_sha p ++ ar_spa p ++ ar_tha p ++ ar_tpa p.
Definition arp_of_bytes (b : bytes) : ArpPacket :=
  mkArpPacket (w16 b 0) (w16 b 2) (byte_at b 4) (byte_at b 5) (w16 b 6) (part b 8 6) (part b 14 4) (part b 18 6)
    (part b 24 4).

(** How the task of BindSocketToInterface and the wait for it end: it returns
    in time with the result of bind; it is over after the wait expired and
    before the table of unwanted descriptors is locked; or it is still running,
    and may have begun. *)
Inductive BindOutcome :=
| bind_in_time (ret : Z)
| bind_just_late (ret : Z)
| bind_blocked (begun : bool).

Record BindTask := mkBindTask { t_fd : Z; t_ifaceIndex : Z; t_protocol : Z; t_iface : bytes; t_begun : bool }.

Inductive arp_call :=
| a_socket
| a_bind (fd ifaceIndex protocol : Z)
| a_sendto (fd ifaceIndex protocol : Z) (destHwaddr data : bytes)
| a_read (fd : Z) (data : bytes)
| a_close (fd : Z).

Record Arp := mkArp {
  m_isSocketCreated : bool; m_localIpAddr : Z; m_targetIpAddr : Z; m_localMacAddr : bytes; m_l2Broadcast : bytes;
  m_socketFd : Z; m_ifaceIndex : Z; m_protocol : Z;
  g_ongoingAttempts : gset bytes; g_unwantedFds : gmap bytes Z;
  tasks : list BindTask; open : gset Z; arp_calls : list arp_call; reads : nat
}.

Definition eta_arp (s : Arp) : Arp :=
  mkArp (m_isSocketCreated s) (m_localIpAddr s) (m_targetIpAddr s) (m_localMacAddr s) (m_l2Broadcast s)
    (m_socketFd s) (m_ifaceIndex s) (m_protocol s) (g_ongoingAttempts s) (g_unwantedFds s) (tasks s) (open s)
    (arp_calls s) (reads s).
Ltac set_arp proj s v :=
  let e := eval unfold eta_arp in (eta_arp s) in
  match e with context C [proj s] => let r := context C [v] in exact r end.

Definition set_m_localIpAddr (v : Z) (s : Arp) : Arp := ltac:(set_arp m_localIpAddr s v).
Definition set_m_targetIpAddr (v : Z) (s : Arp) : Arp := ltac:(set_arp m_targetIpAddr s v).
Definition set_m_localMacAddr (v : bytes) (s : Arp) : Arp := ltac:(set_arp m_localMacAddr s v).
Definition set_m_l2Broadcast (v : bytes) (s : Arp) : Arp := ltac:(set_arp m_l2Broadcast s v).
Definition set_g_ongoingAttempts (v : gset bytes) (s : Arp) : Arp := ltac:(set_arp g_ongoingAttempts s v).
Definition set_g_unwantedFds (v : gmap bytes Z) (s : Arp) : Arp := ltac:(set_arp g_unwantedFds s v).
Definition set_tasks (v : list BindTask) (s : Arp) : Arp := ltac:(set_arp tasks s v).
Definition set_open (v : gset Z) (s : Arp) : Arp := ltac:(set_arp open s v).
Definition set_arp_calls (v : list arp_call) (s : Arp) : Arp := ltac:(set_arp arp_calls s v).
Definition set_reads (v : nat) (s : Arp) : Arp := ltac:(set_arp reads s v).
(** The four members of the socket, assigned together. *)
Definition set_socket (created : bool) (fd ifaceIndex protocol : Z) (s : Arp) : Arp :=
  mkArp created (m_localIpAddr s) (m_targetIpAddr s) (m_localMacAddr s) (m_l2Broadcast s) fd ifaceIndex protocol
    (g_ongoingAttempts s) (g_unwantedFds s) (tasks s) (open s) (arp_calls s) (reads s).

(** The results of system calls; the [n]-th query takes the [n]-th reading.  A
    call that gives -1 sets errno, of which EINTR is told apart.  [new_fd] is
    the descriptor of socket in a process with those descriptors open. *)
Class ArpEnvironment := {
  if_nametoindex : bytes -> nat -> Z;
  new_fd : nat -> gset Z -> Z;
  fcntl : nat -> Z;
  bind_ends : nat -> BindOutcome;
  sendto : nat -> Z * bool;
  poll : nat -> Z -> Z;
  read : nat -> option bytes * bool;
  close_fd : nat -> Z;
  steady_clock : nat -> Z;    (* nanoseconds *)
  patience : nat              (* a call is interrupted fewer times in a row *)
}.
Class ArpEnvironmentLaws (E : ArpEnvironment) := {
  if_nametoindex_law : forall i n, is_u32 (if_nametoindex i n);
  new_fd_law : forall n fds, new_fd n fds = -1 \/ (0 <= new_fd n fds /\ new_fd n fds ∉ fds);
  sendto_law : forall n, exists k, (k < patience)%nat /\ sendto (n + k)%nat <> (-1, true);
  read_law : forall n, exists k, (k < patience)%nat /\ read (n + k)%nat <> (None, true);
  read_data : forall n d e, read n = (Some d, e) -> u8b d /\ (length d <= 1500)%nat;
  clock_law : forall n m, (n <= m)%nat -> 0 <= steady_clock n <= steady_clock m
}.

(** * The text of a hardware address *)

Definition is_hex (c : Z) : bool :=
  ((48 <=? c) && (c <=? 57)) || ((65 <=? c) && (c <=? 70)) || ((97 <=? c) && (c <=? 102)).

(** regex_match with "^([0-9A-Fa-f]{2}:){5}[0-9A-Fa-f]{2}$". *)
Fixpoint macPattern (groups : nat) (s : bytes) : bool :=
  match groups, s with
  | O, [a; b] => is_hex a && is_hex b
  | S groups, a :: b :: c :: s => is_hex a && is_hex b && (c =? colon) && macPattern groups s
  | _, _ => false
  end.

(** ["%02x"] of scanf: at most two hex digits.  The blanks, the sign and the
    prefix it also takes do not occur in a text that matches the pattern. *)
Definition scan_02x (s : bytes) : option (Z * bytes) :=
  match s with
  | a :: s' =>
      if negb (is_hex a) then None
      else match s' with
           | b :: s'' => if is_hex b then Some (16 * IsValidHexCharAndConvert a + IsValidHexCharAndConvert b, s'')
                         else Some (IsValidHexCharAndConvert a, s')
           | [] => Some (IsValidHexCharAndConvert a, s')
           end
  | [] => None
  end.

(** The values of ["%02x:...:%02x"] with [n + 1] conversions, as many as match. *)
Fixpoint scan_mac (n : nat) (s : bytes) : list Z :=
  match scan_02x s with
  | None => []
  | Some (v, s') =>
      match n, s' with
      | S n, c :: s'' => v :: (if c =? colon then scan_mac n s'' else [])
      | _, _ => [v]
      end
  end.

Definition MacArray2Str (macArray : bytes) (len : Z) : bytes :=
  if negb (len =? ETH_ALEN) then []
  else hex2 (byte_at macArray 0) ++ colon :: hex2 (byte_at macArray 1) ++ colon ::
       hex2 (byte_at macArray 2) ++ colon :: hex2 (byte_at macArray 3) ++ colon ::
       hex2 (byte_at macArray 4) ++ colon :: hex2 (byte_at macArray 5).

Section Checker.
Context {IT : InetText} {EN : ArpEnvironment}.

Definition reading {A} (r : nat -> A) : M Arp A :=
  let* n := get reads in modify (set_reads (S n)) ;; ret (r n).
Definition called (c : arp_call) : M Arp unit := modify (fun s => set_arp_calls (arp_calls s ++ [c]) s).
Definition close (fd : Z) : M Arp Z :=
  called (a_close fd) ;; modify (fun s => set_open (open s ∖ {[fd]}) s) ;; reading close_fd.

(** The constructor; the addresses are not initialised. *)
Definition DhcpArpChecker (localIp targetIp : Z) (localMac broadcast : bytes) (s : Arp) : Arp :=
  mkArp false localIp targetIp localMac broadcast INVALID_SOCKET_FD INVALID_INTERFACE_INDEX INVALID_PROTOCOL
    (g_ongoingAttempts s) (g_unwantedFds s) (tasks s) (open s) (arp_calls s) (reads s).

(** * The socket *)

Definition IsInterfaceSafe (iface : bytes) : M Arp bool :=
  let* ongoing := get g_ongoingAttempts in ret (negb (bool_decide (iface ∈ ongoing))).
Definition RecordInterfaceAttempt (iface : bytes) : M Arp unit :=
  modify (fun s => set_g_ongoingAttempts (g_ongoingAttempts s ∪ {[iface]}) s).
Definition ClearGlobalState : M Arp unit := modify (set_g_ongoingAttempts ∅).
Definition clear_attempt (iface : bytes) : M Arp unit :=
  modify (fun s => set_g_ongoingAttempts (g_ongoingAttempts s ∖ {[iface]}) s).
Definition forget_unwanted (iface : bytes) : M Arp unit :=
  let* unwanted := get g_unwantedFds in
  match unwanted !! iface with
  | Some unwantedFd => close unwantedFd ;; modify (fun s => set_g_unwantedFds (delete iface (g_unwantedFds s)) s)
  | None => ret tt
  end.

(** BindSocketToInterface up to the call of bind, and from its return. *)
Definition bind_begins (socketFd ifaceIndex protocol : Z) (iface : bytes) : M Arp unit :=
  RecordInterfaceAttempt iface ;; called (a_bind socketFd ifaceIndex (htons protocol)).
Definition bind_returns (socketFd : Z) (iface : bytes) (r : Z) : M Arp Z :=
  if negb (r =? 0) then clear_attempt iface ;; close socketFd ;; ret OPT_FAIL
  else clear_attempt iface ;; forget_unwanted iface ;; ret OPT_SUCC.
Definition BindSocketToInterface (socketFd ifaceIndex protocol : Z) (iface : bytes) (r : Z) : M Arp Z :=
  bind_begins socketFd ifaceIndex protocol iface ;; bind_returns socketFd iface r.

Definition GetInterfaceIndex (iface : bytes) : M Arp Z :=
  let* index := reading (if_nametoindex iface) in
  let ifaceIndex := i32 index in
  if ifaceIndex =? 0 then ret (-1)
  else if ifaceIndex >? INTEGER_MAX then ret (-1)
  else ret ifaceIndex.

Definition SetNonBlock : M Arp bool :=
  let* r := reading fcntl in
  if r <? 0 then ret false else let* r := reading fcntl in ret (r =? 0).

Definition CreateRawSocket (protocol : Z) : M Arp Z :=
  called a_socket ;;
  let* fds := get open in
  let* socketFd := reading (fun n => new_fd n fds) in
  if socketFd <? 0 then ret (-1)
  else
    modify (fun s => set_open (open s ∪ {[socketFd]}) s) ;;
    let* ok := SetNonBlock in
    if negb ok then close socketFd ;; ret (-1) else ret socketFd.

Definition PostSyncTimeOutTask (socketFd ifaceIndex protocol : Z) (iface : bytes) : M Arp Z :=
  let* outcome := reading bind_ends in
  match outcome with
  | bind_in_time r => BindSocketToInterface socketFd ifaceIndex protocol iface r
  | bind_just_late r => BindSocketToInterface socketFd ifaceIndex protocol iface r ;; ret ERROR_TIMEOUT
  | bind_blocked begun =>
      when begun (bind_begins socketFd ifaceIndex protocol iface) ;;
      modify (fun s => set_tasks (tasks s ++ [mkBindTask socketFd ifaceIndex protocol iface begun]) s) ;;
      ret ERROR_TIMEOUT
  end.

Definition CreateSocket (iface : bytes) (protocol : Z) : M Arp Z :=
  let* ifaceIndex := GetInterfaceIndex iface in
  if ifaceIndex <=? 0 then ret OPT_FAIL
  else
    let* socketFd := CreateRawSocket protocol in
    if socketFd <? 0 then ret OPT_FAIL
    else
      let* r := PostSyncTimeOutTask socketFd ifaceIndex protocol iface in
      if r =? ERROR_TIMEOUT then
        forget_unwanted iface ;;
        modify (fun s => set_g_unwantedFds (<[iface := socketFd]> (g_unwantedFds s)) s) ;;
        ret OPT_FAIL
      else if r =? ERROR_FAILED then ret OPT_FAIL
      else modify (set_socket true socketFd (u16 ifaceIndex) protocol) ;; ret OPT_SUCC.

Definition CloseSocket : M Arp Z :=
  let* fd := get m_socketFd in
  let* r := (if fd >=? 0 then close fd else ret OPT_FAIL) in
  modify (set_socket false (-1) 0 0) ;;
  ret r.
Definition Stop : M Arp unit := CloseSocket ;; ret tt.

(** * Start *)

Definition ParseAndValidateMacAddress (hwAddr : bytes) : M Arp bool :=
  if negb (Z.of_nat (length hwAddr) =? MAC_ADDR_STRING_LENGTH) then ret false
  else if negb (macPattern 5 hwAddr) then ret false
  else
    let macValues := scan_mac 5 hwAddr in
    if negb (Z.of_nat (length macValues) =? ETH_ALEN) then ret false
    else
      modify (set_m_localMacAddr (map u8 macValues)) ;;
      modify (set_m_l2Broadcast (replicate 6 MAC_BROADCAST_VALUE)) ;;
      ret true.

Definition CreateSocketWithTimeout (ifname : bytes) : M Arp bool :=
  let* ok := IsInterfaceSafe ifname in
  if negb ok then ret false
  else let* r := CreateSocket ifname ETH_P_ARP in ret (r =? OPT_SUCC).

Definition ValidateAndSetIpAddresses (senderIp targetIp : bytes) : M Arp bool :=
  match inet_aton senderIp with
  | None => ret false
  | Some ip =>
      modify (set_m_localIpAddr ip) ;;
      match inet_aton targetIp with
      | None => ret false
      | Some ip => modify (set_m_targetIpAddr ip) ;; ret true
      end
  end.

Definition is_empty (s : bytes) : bool := match s with [] => true | _ => false end.
Definition Start (ifname hwAddr senderIp targetIp : bytes) : M Arp bool :=
  if is_empty ifname || is_empty hwAddr || is_empty senderIp || is_empty targetIp then ret false
  else
    let* wasCreated := get m_isSocketCreated in
    when wasCreated Stop ;;
    let* ok := ParseAndValidateMacAddress hwAddr in
    if negb ok then ret false
    else
      let* ok := CreateSocketWithTimeout ifname in
      if negb ok then ret false else ValidateAndSetIpAddresses senderIp targetIp.

(** * Frames *)

Definition SetArpPacket (isFillSenderIp : bool) : M Arp ArpPacket :=
  let* mac := get m_localMacAddr in
  let* localIp := get m_localIpAddr in
  let* targetIp := get m_targetIpAddr in
  ret (mkArpPacket (htons ARPHRD_ETHER) (htons ETH_P_IP) ETH_ALEN IPV4_ALEN (htons ARPOP_REQUEST)
         (take 6 mac) (if isFillSenderIp then le32 localIp else zeros 4) (zeros 6) (le32 targetIp)).

Fixpoint sendto_loop (fuel : nat) (socketFd ifaceIndex protocol : Z) (destHwaddr buff : bytes) : M Arp Z :=
  match fuel with
  | O => undef
  | S fuel =>
      called (a_sendto socketFd ifaceIndex protocol destHwaddr buff) ;;
      let* '(r, interrupted) := reading sendto in
      if (r =? -1) && interrupted then sendto_loop fuel socketFd ifaceIndex protocol destHwaddr buff else ret r
  end.

Definition SendData (buff destHwaddr : bytes) : M Arp Z :=
  let* socketFd := get m_socketFd in
  let* ifaceIndex := get m_ifaceIndex in
  let* protocol := get m_protocol in
  if (socketFd <=? INVALID_SOCKET_FD) || (ifaceIndex =? INVALID_INTERFACE_INDEX) then ret OPT_FAIL
  else
    let* r := sendto_loop patience socketFd ifaceIndex (htons protocol) (take 6 destHwaddr) buff in
    ret (if r >? 0 then OPT_SUCC else OPT_FAIL).

(** [read], which writes what it gives over the start of the buffer. *)
Fixpoint read_loop (fuel : nat) (socketFd : Z) (buff : bytes) : M Arp (Z * bytes) :=
  match fuel with
  | O => undef
  | S fuel =>
      let* '(data, interrupted) := reading read in
      match data with
      | Some d => called (a_read socketFd d) ;; ret (Z.of_nat (length d), d ++ drop (length d) buff)
      | None => if interrupted then read_loop fuel socketFd buff else ret (-1, buff)
      end
  end.

Definition RecvData (buff : bytes) (count timeoutMillis : Z) : M Arp (Z * bytes) :=
  if count <=? 0 then ret (-1, buff)
  else
    let* socketFd := get m_socketFd in
    if socketFd <=? INVALID_SOCKET_FD then ret (-1, buff)
    else
      let* created := get m_isSocketCreated in
      if negb created then ret (-1, buff)
      else
        let* r := reading (fun n => poll n timeoutMillis) in
        if r <=? 0 then ret (0, buff)
        else
          let* '(nBytes, buff) := read_loop patience socketFd buff in
          ret (if nBytes <? 0 then 0 else nBytes, buff).

(** The condition of IsValidArpReply and ProcessReceivedPacket on a frame. *)
Definition is_reply (localMac : bytes) (targetIp : Z) (p : ArpPacket) : bool :=
  (ntohs (ar_hrd p) =? ARPHRD_ETHER) && (ntohs (ar_pro p) =? ETH_P_IP) && (ar_hln p =? ETH_ALEN) &&
  (ar_pln p =? IPV4_ALEN) && (ntohs (ar_op p) =? ARPOP_REPLY) &&
  negb (bool_decide (ar_sha p = take 6 localMac)) && bool_decide (ar_spa p = le32 targetIp).

Definition IsValidArpReply (recvBuff : bytes) (readLen : Z) : M Arp bool :=
  if readLen <? sizeof_ArpPacket then ret false
  else if (readLen <? sizeof_ArpPacket) || (readLen >? MAX_LENGTH) then ret false
  else
    let* mac := get m_localMacAddr in
    let* target := get m_targetIpAddr in
    ret (is_reply mac target (arp_of_bytes recvBuff)).

(** * Waiting *)

(** duration_cast of a difference of the clock. *)
Definition milliseconds (ns : Z) : Z := Z.quot ns 1000000.

Definition UpdateTimeoutCounters (startTime overallStartTime timeoutMillis leftMillis : Z) : M Arp (bool * Z) :=
  let* current := reading steady_clock in
  let elapsed := milliseconds (current - startTime) in
  let elapsed := if elapsed <=? 0 then MIN_PROGRESS_MS else elapsed in
  let leftMillis := if elapsed >? leftMillis then TIMEOUT_EXPIRED else leftMillis - elapsed in
  ret (negb (milliseconds (current - overallStartTime) >=? timeoutMillis), leftMillis).

Fixpoint WaitForArpReply_loop (fuel : nat) (timeoutMillis overallStartTime leftMillis : Z) (recvBuff : bytes)
    : M Arp (bool * Z) :=
  match fuel with
  | O => undef
  | S fuel =>
      if leftMillis >? 0 then
        let* startTime := reading steady_clock in
        let* '(readLen, recvBuff) := RecvData recvBuff MAX_LENGTH leftMillis in
        let* '(ok, leftMillis) := UpdateTimeoutCounters startTime overallStartTime timeoutMillis leftMillis in
        if negb ok then ret (false, 0)
        else if readLen <? 0 then ret (false, 0)
        else
          let* valid := IsValidArpReply recvBuff readLen in
          if valid then
            let* now := reading steady_clock in
            ret (true, u64 (milliseconds (now - overallStartTime)))
          else WaitForArpReply_loop fuel timeoutMillis overallStartTime leftMillis recvBuff
      else ret (false, 0)
  end.

(** The array the frames are read into starts with what is on the stack. *)
Definition wait_fuel (timeoutMillis : Z) : nat := S (Z.to_nat timeoutMillis).
Definition WaitForArpReply (stack : bytes) (timeoutMillis : Z) : M Arp (bool * Z) :=
  let* overallStartTime := reading steady_clock in
  WaitForArpReply_loop (wait_fuel timeoutMillis) timeoutMillis overallStartTime timeoutMillis stack.

(** Returns the result and [timeCost]. *)
Definition DoArpCheck (stack : bytes) (timeoutMillis : Z) (isFillSenderIp : bool) (timeCost : Z) : M Arp (bool * Z) :=
  let* created := get m_isSocketCreated in
  if negb created then ret (false, timeCost)
  else
    let* arpPacket := SetArpPacket isFillSenderIp in
    let* broadcast := get m_l2Broadcast in
    let* r := SendData (arp_bytes arpPacket) broadcast in
    if negb (r =? 0) then ret (false, timeCost) else WaitForArpReply stack timeoutMillis.

Definition SaveGwMacAddr (gwMacAddr : bytes) (gwMacLists : list bytes) : list bytes :=
  if negb (is_empty gwMacAddr) && negb (bool_decide (gwMacAddr ∈ gwMacLists)) then gwMacLists ++ [gwMacAddr]
  else gwMacLists.

Definition ProcessReceivedPacket (recvBuff : bytes) (readLen : Z) (gwMacLists : list bytes) : M Arp (list bytes) :=
  if (readLen >=? sizeof_ArpPacket) && (readLen <=? MAX_LENGTH) then
    let respPacket := arp_of_bytes recvBuff in
    let* mac := get m_localMacAddr in
    let* target := get m_targetIpAddr in
    if is_reply mac target respPacket
    then ret (SaveGwMacAddr (MacArray2Str (ar_sha respPacket) ETH_ALEN) gwMacLists)
    else ret gwMacLists
  else ret gwMacLists.

Fixpoint CollectGwMacAddresses_loop (fuel : nat) (timeoutMillis overallStartTime leftMillis : Z) (recvBuff : bytes)
    (gwMacLists : list bytes) : M Arp (list bytes) :=
  match fuel with
  | O => undef
  | S fuel =>
      if leftMillis >? 0 then
        let* startTime := reading steady_clock in
        let* '(readLen, recvBuff) := RecvData recvBuff MAX_LENGTH leftMillis in
        let* gwMacLists := ProcessReceivedPacket recvBuff readLen gwMacLists in
        let* '(ok, leftMillis) := UpdateTimeoutCounters startTime overallStartTime timeoutMillis leftMillis in
        if negb ok then ret gwMacLists
        else CollectGwMacAddresses_loop fuel timeoutMillis overallStartTime leftMillis recvBuff gwMacLists
      else ret gwMacLists
  end.
Definition CollectGwMacAddresses (stack : bytes) (timeoutMillis : Z) (gwMacLists : list bytes) : M Arp (list bytes) :=
  let* overallStartTime := reading steady_clock in
  CollectGwMacAddresses_loop (wait_fuel timeoutMillis) timeoutMillis overallStartTime timeoutMillis stack gwMacLists.

Definition GetGwMacAddrList (stack : bytes) (timeoutMillis : Z) (isFillSenderIp : bool) : M Arp (list bytes) :=
  let* created := get m_isSocketCreated in
  if negb created then ret []
  else
    let* arpPacket := SetArpPacket isFillSenderIp in
    let* broadcast := get m_l2Broadcast in
    let* r := SendData (arp_bytes arpPacket) broadcast in
    if negb (r =? 0) then ret [] else CollectGwMacAddresses stack timeoutMillis [].

(** IsArpReachable of the client's state machine, from the checker's
    constructor to its destructor. *)
Definition arp_reachable_check (junk : Z * Z * bytes * bytes) (stack ifName localMac ipAddress : bytes)
    (timeoutMillis : Z) : M Arp bool :=
  let '(localIp, targetIp, mac, broadcast) := junk in
  modify (DhcpArpChecker localIp targetIp mac broadcast) ;;
  Start ifName localMac (str "0.0.0.0") ipAddress ;;
  let* '(reachable, _) := DoArpCheck stack timeoutMillis false 0 in
  Stop ;;
  ret reachable.

(** * The tasks that outlived the wait *)

Definition task_begins (i : nat) : M Arp unit :=
  let* ts := get tasks in
  match ts !! i with
  | Some t =>
      if t_begun t then ret tt
      else
        bind_begins (t_fd t) (t_ifaceIndex t) (t_protocol t) (t_iface t) ;;
        modify (set_tasks (<[i := mkBindTask (t_fd t) (t_ifaceIndex t) (t_protocol t) (t_iface t) true]> ts))
  | None => ret tt
  end.
Definition task_ends (i : nat) (r : Z) : M Arp unit :=
  let* ts := get tasks in
  match ts !! i with
  | Some t =>
      if negb (t_begun t) then ret tt
      else
        bind_returns (t_fd t) (t_iface t) r ;;
        modify (set_tasks (delete i ts))
  | None => ret tt
  end.

End Checker.
