(* ===== verification/ArpProperties.v ===== *)
(** The theorems on the checker for address conflicts: what a probe sends and
    when it finds the address in use, the hardware addresses it collects, and the
    descriptors of its sockets. *)
From S2P Require Import Prelude AddressUtils DottedQuad Codec RawPacket ArpChecker.

(** * Frames

    A request asks for the target; RFC 5227 leaves the sender's address zero in
    a probe.  A reply for the target comes from a host other than this one. *)
Definition request_frame (mac : bytes) (localIp targetIp : Z) (fill : bool) : bytes :=
  [0; 1; 8; 0; 6; 4; 0; 1] ++ mac ++ (if fill then le32 localIp else zeros 4) ++ zeros 6 ++ le32 targetIp.
Definition reply_frame (mac : bytes) (targetIp : Z) (d : bytes) : bool :=
  (28 <=? Z.of_nat (length d)) && bool_decide (take 8 d = [0; 1; 8; 0; 6; 4; 0; 2]) &&
  negb (bool_decide (part d 8 6 = mac)) && bool_decide (part d 14 4 = le32 targetIp).
(** The answer of RFC 826 to a request, by a host [mac]. *)
Definition answer (mac request : bytes) : bytes :=
  take 6 request ++ [0; 2] ++ mac ++ part request 24 4 ++ part request 8 6 ++ part request 14 4.

Lemma ntohs_bytes a b : is_u8 a -> is_u8 b -> ntohs (a + 2 ^ 8 * b) = 2 ^ 8 * a + b.
Proof.
  unfold is_u8, ntohs, htons, u16. intros Ha Hb.
  rewrite (Z.mod_small (a + 2 ^ 8 * b)) by lia.
  rewrite (Z.mul_comm (2 ^ 8) b), Z.div_add, Z.div_small, Z.mod_add, Z.mod_small by lia. lia.
Qed.

Lemma ntohs_is a b h l : is_u8 a -> is_u8 b -> is_u8 h -> is_u8 l ->
  (ntohs (a + 2 ^ 8 * b) =? 2 ^ 8 * h + l) = (a =? h) && (b =? l).
Proof.
  intros Ha Hb Hh Hl. rewrite ntohs_bytes by done. unfold is_u8 in *.
  destruct (Z.eqb_spec a h), (Z.eqb_spec b l); cbn [andb]; (apply Z.eqb_eq || apply Z.eqb_neq); lia.
Qed.

Lemma eight_bytes a b c d e f g h :
  bool_decide ([a; b; c; d; e; f; g; h] = [0; 1; 8; 0; 6; 4; 0; 2]) =
  (a =? 0) && (b =? 1) && (c =? 8) && (d =? 0) && (e =? 6) && (f =? 4) && (g =? 0) && (h =? 2).
Proof.
  rewrite <- !andb_assoc. apply eq_iff_eq_true. rewrite bool_decide_eq_true, !andb_true_iff, !Z.eqb_eq.
  split; [intros E; by simplify_eq|]. intros (-> & -> & -> & -> & -> & -> & -> & ->). done.
Qed.

(** At least [n] elements. *)
Ltac split_list l n :=
  lazymatch n with
  | O => idtac
  | S ?n => let a := fresh "b" in destruct l as [|a l]; [exfalso; cbn in *; lia|]; split_list l n
  end.

Lemma is_reply_frame mac target d rest : u8b d -> (28 <= length d)%nat -> length mac = 6%nat ->
  is_reply mac target (arp_of_bytes (d ++ rest)) = reply_frame mac target d.
Proof.
  intros Hd Hl Hm. unfold reply_frame. rewrite (proj2 (Z.leb_le _ _)) by lia. cbn [andb].
  unfold is_reply, arp_of_bytes, w16.
  assert (Hp : forall i n, (i + n <= length d)%nat -> part (d ++ rest) i n = part d i n).
  { intros i n H. unfold part. rewrite drop_app_le by lia. apply take_app_le. rewrite length_drop. lia. }
  cbn [ar_hrd ar_pro ar_hln ar_pln ar_op ar_sha ar_spa ar_tha ar_tpa].
  rewrite !Hp by lia. rewrite (take_ge mac) by lia. do 2 f_equal.
  assert (E : take 8 d = [byte_at d 0; byte_at d 1; byte_at d 2; byte_at d 3; byte_at d 4; byte_at d 5; byte_at d 6;
    byte_at d 7]) by (do 8 (destruct d as [|? d]; [cbn in Hl; lia|]); done).
  assert (B : forall i, (i < length d)%nat -> byte_at (d ++ rest) i = byte_at d i)
    by (intros i Hi; unfold byte_at; by rewrite app_nth1).
  rewrite E, eight_bytes, !B by lia. cbn [Nat.add].
  assert (U : forall i, is_u8 (byte_at d i)) by (intros; by apply byte_at_is_u8).
  change ARPHRD_ETHER with (2 ^ 8 * 0 + 1). change ETH_P_IP with (2 ^ 8 * 8 + 0). change ARPOP_REPLY with (2 ^ 8 * 0 + 2).
  rewrite !ntohs_is by (try apply U; unfold is_u8; lia). rewrite !andb_assoc. done.
Qed.

Lemma arp_bytes_request mac localIp targetIp (fill : bool) : length mac = 6%nat ->
  arp_bytes (mkArpPacket (htons ARPHRD_ETHER) (htons ETH_P_IP) ETH_ALEN IPV4_ALEN (htons ARPOP_REQUEST)
    (take 6 mac) (if fill then le32 localIp else zeros 4) (zeros 6) (le32 targetIp)) =
  request_frame mac localIp targetIp fill.
Proof. intros Hm. unfold arp_bytes, request_frame. cbn [ar_sha ar_spa ar_tha ar_tpa]. by rewrite (take_ge mac) by lia. Qed.

(** The answer of another host is taken, an answer with the own hardware
    address is not. *)
Lemma answer_taken mac host localIp targetIp fill : length mac = 6%nat -> length host = 6%nat ->
  reply_frame mac targetIp (answer host (request_frame mac localIp targetIp fill)) = negb (bool_decide (host = mac)).
Proof.
  intros Hm Hh. do 6 (destruct mac as [|? mac]; [cbn in Hm; lia|]). destruct mac; [|cbn in Hm; lia].
  do 6 (destruct host as [|? host]; [cbn in Hh; lia|]). destruct host; [|cbn in Hh; lia].
  assert (L : forall x, exists a b c d, le32 x = [a; b; c; d]) by (intros; unfold le32; eauto).
  unfold reply_frame, answer, request_frame.
  destruct (L targetIp) as (t0 & t1 & t2 & t3 & ->), (L localIp) as (l0 & l1 & l2 & l3 & ->).
  destruct fill; cbn; rewrite (bool_decide_eq_true_2 ([t0; t1; t2; t3] = _)) by done; by rewrite andb_true_r.
Qed.

(** * One probe *)

(** What a probe changes: it takes readings and makes calls. *)
Definition quiet (m : nat) (cs : list arp_call) (s : Arp) : Arp := set_reads m (set_arp_calls (arp_calls s ++ cs) s).
Definition after (s : Arp) (cs : list arp_call) (s' : Arp) : Prop :=
  s' = quiet (reads s') cs s /\ (reads s <= reads s')%nat.

Lemma after_refl s : after s [] s.
Proof. split; [|done]. unfold quiet. rewrite app_nil_r. by destruct s. Qed.
Lemma after_trans s1 s2 s3 cs1 cs2 : after s1 cs1 s2 -> after s2 cs2 s3 -> after s1 (cs1 ++ cs2) s3.
Proof.
  intros [E1 L1] [E2 L2]. split; [|lia]. rewrite E2, E1. unfold quiet. cbn. by rewrite app_assoc.
Qed.
Lemma after_call s c : after s [c] (set_arp_calls (arp_calls s ++ [c]) s).
Proof. split; [|done]. by destruct s. Qed.
Lemma after_read s m : (reads s <= m)%nat -> after s [] (set_reads m s).
Proof. intros L. split; [|done]. unfold quiet. rewrite app_nil_r. by destruct s. Qed.

Section Probe.
Context {IT : InetText} {EN : ArpEnvironment} {LAWS : ArpEnvironmentLaws EN}.

Lemma reading_eq {A} (r : nat -> A) s : reading r s = Some (r (reads s), set_reads (S (reads s)) s).
Proof. done. Qed.

Lemma sendto_loop_spec fd i p dest buff fuel : forall s,
  (exists k, (k < fuel)%nat /\ sendto (reads s + k)%nat <> (-1, true)) ->
  exists r n s', sendto_loop fuel fd i p dest buff s = Some (r, s') /\ (0 < n)%nat /\
    after s (replicate n (a_sendto fd i p dest buff)) s' /\ exists m e, sendto m = (r, e).
Proof.
  induction fuel as [|fuel IH]; intros s (k & Hk & Hi); [lia|]. cbn [sendto_loop].
  set (s1 := set_arp_calls (arp_calls s ++ [a_sendto fd i p dest buff]) s).
  assert (A1 : after s [a_sendto fd i p dest buff] (set_reads (S (reads s)) s1)).
  { apply (after_trans s s1 _ [_] []); [apply after_call|]. apply after_read. cbn. lia. }
  unfold called, bind at 1, modify. fold s1. unfold bind. rewrite reading_eq. cbn [reads s1 set_arp_calls].
  destruct (sendto (reads s)) as [r e] eqn:E.
  destruct ((r =? -1) && e) eqn:Eb.
  - destruct k as [|k].
    { exfalso. apply andb_true_iff in Eb as [Er Ee]. apply Z.eqb_eq in Er. rewrite Nat.add_0_r in Hi. by subst. }
    destruct (IH (set_reads (S (reads s)) s1)) as (r' & n & s' & Er & Hn & A2 & Hr).
    { exists k. split; [lia|]. cbn [reads set_reads]. by rewrite Nat.add_succ_comm. }
    exists r', (S n), s'. split; [done|]. split; [lia|]. split; [|done].
    apply (after_trans _ _ _ [_] _ A1 A2).
  - exists r, 1%nat, (set_reads (S (reads s)) s1). split; [done|]. split; [lia|]. split; [done|eauto].
Qed.

Lemma read_loop_spec fd buff fuel : forall s,
  (exists k, (k < fuel)%nat /\ read (reads s + k)%nat <> (None, true)) ->
  exists s', (read_loop fuel fd buff s = Some ((-1, buff), s') /\ after s [] s') \/
    (exists d, read_loop fuel fd buff s = Some ((Z.of_nat (length d), d ++ drop (length d) buff), s') /\
       after s [a_read fd d] s' /\ u8b d /\ (length d <= 1500)%nat).
Proof.
  induction fuel as [|fuel IH]; intros s (k & Hk & Hi); [lia|]. cbn [read_loop]. unfold bind.
  rewrite reading_eq. destruct (read (reads s)) as [[d|] e] eqn:E.
  - eexists. right. exists d. split; [reflexivity|]. split; [|by apply (read_data _ _ _ E)].
    apply (after_trans s (set_reads (S (reads s)) s) _ [] [_]); [apply after_read; lia|apply after_call].
  - assert (A1 : after s [] (set_reads (S (reads s)) s)) by (apply after_read; lia).
    destruct e.
    + destruct k as [|k]; [rewrite Nat.add_0_r in Hi; by rewrite E in Hi|].
      destruct (IH (set_reads (S (reads s)) s)) as (s' & [[Er A2]|(d & Er & A2 & Hd)]).
      { exists k. split; [lia|]. cbn [reads set_reads]. by rewrite Nat.add_succ_comm. }
      * exists s'. left. split; [done|]. by apply (after_trans _ _ _ [] [] A1).
      * exists s'. right. exists d. split; [done|]. split; [|done]. by apply (after_trans _ _ _ [] [_] A1).
    + eexists. left. by split.
Qed.

(** The checker has a socket. *)
Definition connected (s : Arp) : Prop := m_isSocketCreated s = true /\ 0 <= m_socketFd s.

(** A read gives nothing, or a frame at the start of the buffer. *)
Lemma RecvData_spec buff left s : connected s ->
  exists n buff' s', RecvData buff MAX_LENGTH left s = Some ((n, buff'), s') /\
    ((n = 0 /\ buff' = buff /\ after s [] s') \/
     (exists d, n = Z.of_nat (length d) /\ buff' = d ++ drop (length d) buff /\
       after s [a_read (m_socketFd s) d] s' /\ u8b d /\ (length d <= 1500)%nat)).
Proof.
  intros [Hc Hf]. unfold RecvData. change (MAX_LENGTH <=? 0) with false. cbv iota. unfold bind at 1, get at 1.
  rewrite (proj2 (Z.leb_gt _ _)) by (unfold INVALID_SOCKET_FD; lia). unfold bind at 1, get at 1. rewrite Hc. cbn [negb].
  unfold bind. rewrite reading_eq.
  assert (A1 : after s [] (set_reads (S (reads s)) s)) by (apply after_read; lia).
  destruct (poll (reads s) left <=? 0); [do 3 eexists; split; [reflexivity|]; by left|].
  destruct (read_loop_spec (m_socketFd s) buff patience (set_reads (S (reads s)) s))
    as (s' & [[E A2]|(d & E & A2 & Hd)]); [apply read_law| |]; rewrite E; do 3 eexists; (split; [reflexivity|]); [left|right].
  - split; [done|]. split; [done|]. by apply (after_trans _ _ _ [] [] A1).
  - exists d. rewrite (proj2 (Z.ltb_ge _ _)) by lia. split; [done|]. split; [done|]. split; [|done].
    by apply (after_trans _ _ _ [] [_] A1).
Qed.

Lemma IsValidArpReply_spec d rest s : u8b d -> (length d <= 1500)%nat -> length (m_localMacAddr s) = 6%nat ->
  IsValidArpReply (d ++ rest) (Z.of_nat (length d)) s =
  Some (reply_frame (m_localMacAddr s) (m_targetIpAddr s) d, s).
Proof.
  intros Hd Hl Hm. unfold IsValidArpReply, MAX_LENGTH, sizeof_ArpPacket.
  destruct (Z.ltb_spec (Z.of_nat (length d)) 28).
  - unfold reply_frame. by rewrite (proj2 (Z.leb_gt _ _)) by lia.
  - rewrite orb_false_l, Z.gtb_ltb, (proj2 (Z.ltb_ge _ _)) by lia. unfold bind, get, ret. by rewrite is_reply_frame by (done || lia).
Qed.

(** One round of a loop makes progress of at least a millisecond. *)
Lemma UpdateTimeoutCounters_spec start overall t left s : 0 < left ->
  exists left' s', UpdateTimeoutCounters start overall t left s =
      Some ((negb (milliseconds (steady_clock (reads s) - overall) >=? t), left'), s') /\
    after s [] s' /\ (reads s < reads s')%nat /\ 0 <= left' <= left - 1.
Proof.
  intros Hl. unfold UpdateTimeoutCounters, bind. rewrite reading_eq. do 2 eexists. split; [reflexivity|].
  split; [apply after_read; lia|]. split; [cbn; lia|]. unfold MIN_PROGRESS_MS, TIMEOUT_EXPIRED.
  destruct (Z.leb_spec (milliseconds (steady_clock (reads s) - start)) 0).
  - destruct (Z.gtb_spec 1 left); lia.
  - destruct (Z.gtb_spec (milliseconds (steady_clock (reads s) - start)) left); lia.
Qed.

(** The frames read up to the first reply, and when none is taken: no reply
    among them, unless the last came when the time was over. *)
Definition late (overall t : Z) (s : Arp) : Prop :=
  exists m, (m < reads s)%nat /\ t <= milliseconds (steady_clock m - overall).
Definition no_reply (s : Arp) (fs : list bytes) : Prop :=
  Forall (fun f => reply_frame (m_localMacAddr s) (m_targetIpAddr s) f = false) fs.
Inductive verdict (overall t : Z) (s : Arp) : bool -> Z -> list bytes -> Arp -> Prop :=
| found_reply fs f m s' : no_reply s fs -> reply_frame (m_localMacAddr s) (m_targetIpAddr s) f = true ->
    (reads s <= m)%nat -> verdict overall t s true (u64 (milliseconds (steady_clock m - overall))) (fs ++ [f]) s'
| no_reply_found fs s' : no_reply s fs -> verdict overall t s false 0 fs s'
| reply_too_late fs f s' : no_reply s fs -> late overall t s' -> verdict overall t s false 0 (fs ++ [f]) s'.

Lemma after_members s cs s' : after s cs s' ->
  m_localMacAddr s' = m_localMacAddr s /\ m_targetIpAddr s' = m_targetIpAddr s /\ m_socketFd s' = m_socketFd s /\
  (connected s -> connected s').
Proof. intros [-> _]. done. Qed.

Lemma verdict_before overall t s s1 s' found cost fs new : after s (map (a_read (m_socketFd s)) new) s1 ->
  no_reply s new -> verdict overall t s1 found cost fs s' -> verdict overall t s found cost (new ++ fs) s'.
Proof.
  intros A N V. pose proof (after_members _ _ _ A) as (Em & Et & _). destruct A as [_ L].
  assert (W : forall l, no_reply s1 l -> no_reply s (new ++ l)).
  { intros l Hl. unfold no_reply in *. rewrite Em, Et in Hl. by apply Forall_app. }
  destruct V.
  - rewrite app_assoc. constructor; [auto|by rewrite <- Em, <- Et|lia].
  - apply no_reply_found. auto.
  - rewrite app_assoc. apply reply_too_late; auto.
Qed.

Lemma verdict_from overall t s s1 s' found cost fs : m_localMacAddr s1 = m_localMacAddr s ->
  m_targetIpAddr s1 = m_targetIpAddr s -> (reads s <= reads s1)%nat ->
  verdict overall t s1 found cost fs s' -> verdict overall t s found cost fs s'.
Proof.
  intros Em Et L V. assert (W : forall l, no_reply s1 l -> no_reply s l) by (unfold no_reply; by rewrite Em, Et).
  destruct V; [apply found_reply; [auto|by rewrite <- Em, <- Et|lia]|apply no_reply_found; auto|apply reply_too_late; auto].
Qed.

Lemma WaitForArpReply_loop_spec t overall fuel : forall left buff s, connected s -> length (m_localMacAddr s) = 6%nat ->
  (Z.to_nat left < fuel)%nat ->
  exists found cost fs s', WaitForArpReply_loop fuel t overall left buff s = Some ((found, cost), s') /\
    after s (map (a_read (m_socketFd s)) fs) s' /\ (length fs <= Z.to_nat left)%nat /\ verdict overall t s found cost fs s'.
Proof.
  induction fuel as [|fuel IH]; intros left buff s C Hm Hf; [lia|]. cbn [WaitForArpReply_loop]. rewrite Z.gtb_ltb.
  destruct (Z.ltb_spec 0 left) as [Hl|Hl].
  2: { exists false, 0, [], s. split; [done|]. split; [apply after_refl|]. split; [cbn; lia|]. by constructor; constructor. }
  unfold bind. rewrite reading_eq. set (s0 := set_reads (S (reads s)) s).
  assert (A0 : after s [] s0) by (apply after_read; lia).
  destruct (RecvData_spec buff left s0) as (n & buff' & s1 & -> & R); [done|].
  destruct (UpdateTimeoutCounters_spec (steady_clock (reads s)) overall t left s1 Hl) as (left' & s2 & -> & A2 & L2 & Hl').
  assert (A : exists new, after s (map (a_read (m_socketFd s)) new) s2 /\ (length new <= 1)%nat /\ 0 <= n /\
    IsValidArpReply buff' n s2 = Some (existsb (reply_frame (m_localMacAddr s) (m_targetIpAddr s)) new, s2)).
  { destruct R as [(-> & -> & A1)|(d & -> & -> & A1 & Hd & Hn)]; [exists []|exists [d]];
      (pose proof (after_trans _ _ _ _ _ A0 (after_trans _ _ _ _ _ A1 A2)) as A; rewrite ?app_nil_r in A;
       destruct (after_members _ _ _ A) as (Em & Et & _); split; [exact A|]; split; [cbn; lia|]; split; [lia|]).
    - done.
    - rewrite IsValidArpReply_spec by (done || by rewrite Em). cbn [existsb]. by rewrite Em, Et, orb_false_r. }
  clear R A0 A2. destruct A as (new & A & Hn & Hn0 & Hv). destruct (after_members _ _ _ A) as (Em & Et & Ef & C2).
  assert (N : existsb (reply_frame (m_localMacAddr s) (m_targetIpAddr s)) new = false -> no_reply s new).
  { intros E. apply Forall_forall. intros f Hin. apply not_true_iff_false. intros F. apply not_true_iff_false in E. apply E.
    apply existsb_exists. exists f. split; [by apply list_elem_of_In|done]. }
  rewrite Z.geb_leb, (proj2 (Z.ltb_ge n 0)) by done.
  destruct (Z.leb_spec t (milliseconds (steady_clock (reads s1) - overall))); cbn [negb].
  - exists false, 0, new, s2. split; [done|]. split; [done|]. split; [lia|].
    destruct new as [|f [|]]; [by constructor; constructor| |cbn in Hn; lia].
    apply (reply_too_late overall t s [] f); [constructor|]. exists (reads s1). split; [done|lia].
  - rewrite Hv. destruct (existsb _ new) eqn:E.
    + destruct new as [|f [|]]; [done| |cbn in Hn; lia]. cbn in E. rewrite orb_false_r in E.
      eexists true, _, [f], _. split; [by rewrite reading_eq|]. split.
      { apply (after_trans _ _ _ _ [] A). apply after_read. lia. }
      split; [cbn; lia|]. apply (found_reply overall t s []); [constructor|done|destruct A; lia].
    + destruct (IH left' buff' s2) as (found & cost & fs & s' & E' & A' & Hfs & V); [auto|by rewrite Em|lia|].
      exists found, cost, (new ++ fs), s'. split; [done|]. split.
      { rewrite map_app, <- Ef at 1. rewrite Ef in A' |- *. by apply (after_trans _ _ _ _ _ A). }
      split; [rewrite length_app; lia|]. eapply verdict_before; eauto.
Qed.

(** A checker that was started on an interface. *)
Record started (s : Arp) : Prop := {
  started_connected : connected s;
  started_index : m_ifaceIndex s <> 0;
  started_mac : length (m_localMacAddr s) = 6%nat;
  started_broadcast : m_l2Broadcast s = replicate 6 0xFF
}.

Definition request (s : Arp) (fill : bool) : arp_call :=
  a_sendto (m_socketFd s) (m_ifaceIndex s) (htons (m_protocol s)) (replicate 6 0xFF)
    (request_frame (m_localMacAddr s) (m_localIpAddr s) (m_targetIpAddr s) fill).

(** The request goes out, once more for each interruption. *)
Lemma arp_send_request fill s : started s ->
  exists r n s', (let* p := SetArpPacket fill in let* b := get m_l2Broadcast in SendData (arp_bytes p) b) s = Some (r, s') /\
    (0 < n)%nat /\ after s (replicate n (request s fill)) s' /\
    (r = 0 \/ (r <> 0 /\ exists m v e, sendto m = (v, e) /\ v <= 0)).
Proof.
  intros [[Hc Hf] Hi Hm Hb]. unfold SetArpPacket, SendData, bind, get, ret. cbv beta iota.
  rewrite arp_bytes_request by done.
  rewrite (proj2 (Z.leb_gt _ _)) by (unfold INVALID_SOCKET_FD; lia).
  rewrite (proj2 (Z.eqb_neq _ _)) by done. cbn [orb]. rewrite Hb.
  change (take 6 (replicate 6 0xFF)) with (replicate 6 0xFF).
  destruct (sendto_loop_spec (m_socketFd s) (m_ifaceIndex s) (htons (m_protocol s)) (replicate 6 0xFF)
    (request_frame (m_localMacAddr s) (m_localIpAddr s) (m_targetIpAddr s) fill) patience s) as (r & n & s' & E & Hn & A & m & e & Er);
    [apply sendto_law|].
  rewrite E. do 3 eexists. split; [reflexivity|]. split; [exact Hn|]. split; [exact A|].
  unfold OPT_SUCC, OPT_FAIL. destruct (Z.gtb_spec r 0); [by left|]. right. split; [done|]. eauto.
Qed.

(** C30: A probe of a started checker sends the ARP request for the target, a
    second time only when interrupted, and reads at most as many frames as it
    has milliseconds; it reports a conflict exactly when a frame that arrives in
    time is a reply for the target from another host, and changes nothing else. *)
Theorem arp_probe stack t fill cost0 s : started s ->
  exists found cost n fs s', DoArpCheck stack t fill cost0 s = Some ((found, cost), s') /\ (0 < n)%nat /\
    after s (replicate n (request s fill) ++ map (a_read (m_socketFd s)) fs) s' /\ (length fs <= Z.to_nat t)%nat /\
    ((found = false /\ fs = [] /\ exists m v e, sendto m = (v, e) /\ v <= 0) \/
     exists n0, (reads s <= n0)%nat /\ verdict (steady_clock n0) t s found cost fs s').
Proof.
  intros H. destruct (arp_send_request fill s H) as (r & n & s1 & E & Hn & A & Hr). destruct H as [C _ Hm _].
  destruct (after_members _ _ _ A) as (Em & Et & Ef & C1).
  assert (D : DoArpCheck stack t fill cost0 s = (if negb (r =? 0) then ret (false, cost0) else WaitForArpReply stack t) s1).
  { unfold DoArpCheck. unfold bind at 1, get at 1. rewrite (proj1 C). cbn [negb].
    change (bind (SetArpPacket fill) ?k s) with (bind (SetArpPacket fill) k s).
    transitivity (bind (let* p := SetArpPacket fill in let* b := get m_l2Broadcast in SendData (arp_bytes p) b)
      (fun r => if negb (r =? 0) then ret (false, cost0) else WaitForArpReply stack t) s).
    - rewrite bind_assoc. unfold bind at 1 4. by destruct (SetArpPacket fill s) as [[p sp]|].
    - unfold bind at 1. by rewrite E. }
  rewrite D. destruct Hr as [->|(Hr & Hs)].
  - cbn [negb Z.eqb]. unfold WaitForArpReply, bind. rewrite reading_eq.
    destruct (WaitForArpReply_loop_spec t (steady_clock (reads s1)) (wait_fuel t) t stack (set_reads (S (reads s1)) s1))
      as (found & cost & fs & s' & E' & A' & Hfs & V); [by apply C1|by rewrite <- Hm, <- Em|unfold wait_fuel; lia|].
    exists found, cost, n, fs, s'. split; [done|]. split; [done|].
    assert (A0 : after s (replicate n (request s fill)) (set_reads (S (reads s1)) s1)).
    { rewrite <- (app_nil_r (replicate _ _)). apply (after_trans _ _ _ _ _ A). apply after_read. lia. }
    split; [|split; [done|]].
    + change (m_socketFd (set_reads _ s1)) with (m_socketFd s1) in A'. rewrite Ef in A'. exact (after_trans _ _ _ _ _ A0 A').
    + right. exists (reads s1). split; [destruct A; lia|]. eapply verdict_from; [| | |exact V]; [exact Em|exact Et|]. destruct A. cbn. lia.
  - rewrite (proj2 (Z.eqb_neq r 0)) by done. exists false, cost0, n, [], s1. split; [done|]. split; [done|].
    cbn [map]. rewrite app_nil_r. split; [done|]. split; [cbn; lia|]. by left.
Qed.

(** * Gateways *)

Definition add_gateway (s : Arp) (gws : list bytes) (f : bytes) : list bytes :=
  if reply_frame (m_localMacAddr s) (m_targetIpAddr s) f
  then SaveGwMacAddr (MacArray2Str (part f 8 6) ETH_ALEN) gws else gws.

Lemma ProcessReceivedPacket_spec d rest gws s : u8b d -> (length d <= 1500)%nat -> length (m_localMacAddr s) = 6%nat ->
  ProcessReceivedPacket (d ++ rest) (Z.of_nat (length d)) gws s = Some (add_gateway s gws d, s).
Proof.
  intros Hd Hl Hm. unfold ProcessReceivedPacket, add_gateway, MAX_LENGTH, sizeof_ArpPacket. rewrite Z.geb_leb.
  destruct (Z.leb_spec 28 (Z.of_nat (length d))).
  - rewrite (proj2 (Z.leb_le _ 1500)) by lia. cbn [andb]. unfold bind, get. rewrite is_reply_frame by (done || lia).
    unfold arp_of_bytes. cbn [ar_sha]. replace (part (d ++ rest) 8 6) with (part d 8 6); [by destruct (reply_frame _ _ _)|].
    unfold part. rewrite drop_app_le by lia. rewrite take_app_le; [done|]. rewrite length_drop. lia.
  - cbn [andb]. unfold reply_frame. by rewrite (proj2 (Z.leb_gt _ _)) by lia.
Qed.

Lemma CollectGwMacAddresses_loop_spec t overall fuel : forall left buff gws s, connected s ->
  length (m_localMacAddr s) = 6%nat -> (Z.to_nat left < fuel)%nat ->
  exists fs s', CollectGwMacAddresses_loop fuel t overall left buff gws s = Some (foldl (add_gateway s) gws fs, s') /\
    after s (map (a_read (m_socketFd s)) fs) s' /\ (length fs <= Z.to_nat left)%nat.
Proof.
  induction fuel as [|fuel IH]; intros left buff gws s C Hm Hf; [lia|]. cbn [CollectGwMacAddresses_loop]. rewrite Z.gtb_ltb.
  destruct (Z.ltb_spec 0 left) as [Hl|Hl].
  2: { exists [], s. split; [done|]. split; [apply after_refl|cbn; lia]. }
  unfold bind. rewrite reading_eq. set (s0 := set_reads (S (reads s)) s).
  assert (A0 : after s [] s0) by (apply after_read; lia).
  destruct (RecvData_spec buff left s0) as (n & buff' & s1 & -> & R); [done|].
  destruct (UpdateTimeoutCounters_spec (steady_clock (reads s)) overall t left s1 Hl) as (left' & s2 & E2 & A2 & L2 & Hl').
  assert (A : exists new, after s (map (a_read (m_socketFd s)) new) s2 /\ (length new <= 1)%nat /\
    ProcessReceivedPacket buff' n gws s1 = Some (foldl (add_gateway s) gws new, s1)).
  { destruct R as [(-> & -> & A1)|(d & -> & -> & A1 & Hd & Hn)]; [exists []|exists [d]];
      (pose proof (after_trans _ _ _ _ _ A0 (after_trans _ _ _ _ _ A1 A2)) as A; rewrite ?app_nil_r in A;
       destruct (after_members _ _ _ (after_trans _ _ _ _ _ A0 A1)) as (Em & Et & _); split; [exact A|]; split; [cbn; lia|]).
    - done.
    - rewrite ProcessReceivedPacket_spec by (done || by rewrite Em). cbn [foldl]. unfold add_gateway. by rewrite Em, Et. }
  clear R A0 A2. destruct A as (new & A & Hn & ->). destruct (after_members _ _ _ A) as (Em & Et & Ef & C2). rewrite E2.
  destruct (negb _); cbn [negb]; [|by exists new, s2; split; [done|]; split; [done|lia]].
  destruct (IH left' buff' (foldl (add_gateway s) gws new) s2) as (fs & s' & E' & A' & Hfs); [auto|by rewrite Em|lia|].
  exists (new ++ fs), s'. rewrite E', foldl_app. split; [|split; [|rewrite length_app; lia]].
  - do 2 f_equal. generalize (foldl (add_gateway s) gws new). clear -Em Et. induction fs as [|f fs IHf]; intros l; [done|].
    cbn [foldl]. rewrite IHf. f_equal. unfold add_gateway. by rewrite Em, Et.
  - rewrite map_app. rewrite Ef in A'. by apply (after_trans _ _ _ _ _ A).
Qed.

Lemma gateways_spec s fs : forall gws, NoDup gws -> NoDup (foldl (add_gateway s) gws fs) /\
  forall m, m ∈ foldl (add_gateway s) gws fs <-> m ∈ gws \/
    exists f, f ∈ fs /\ reply_frame (m_localMacAddr s) (m_targetIpAddr s) f = true /\ m = MacArray2Str (part f 8 6) ETH_ALEN.
Proof.
  induction fs as [|f fs IH]; intros gws N; cbn [foldl]; [split; [done|]; set_solver|].
  assert (S1 : NoDup (add_gateway s gws f) /\ forall m, m ∈ add_gateway s gws f <-> m ∈ gws \/
    (reply_frame (m_localMacAddr s) (m_targetIpAddr s) f = true /\ m = MacArray2Str (part f 8 6) ETH_ALEN)).
  { unfold add_gateway. destruct (reply_frame _ _ f); [|split; [done|]; naive_solver].
    unfold SaveGwMacAddr. change (is_empty (MacArray2Str _ _)) with false. cbn [negb andb].
    case_bool_decide as B; cbn [negb]; [split; [done|]; naive_solver|].
    split; [apply NoDup_app; split; [done|]; split; [set_solver|apply NoDup_singleton]|]. intros m. set_solver. }
  destruct S1 as [N1 M1], (IH _ N1) as [N2 M2]. split; [done|]. intros m. rewrite M2, M1. setoid_rewrite elem_of_cons.
  naive_solver.
Qed.

(** The list of gateways has each sender of a reply for the target, once. *)
Theorem arp_gateways stack t fill s : started s ->
  exists gws n fs s', GetGwMacAddrList stack t fill s = Some (gws, s') /\ (0 < n)%nat /\
    after s (replicate n (request s fill) ++ map (a_read (m_socketFd s)) fs) s' /\ (length fs <= Z.to_nat t)%nat /\
    NoDup gws /\
    forall m, m ∈ gws <-> exists f, f ∈ fs /\ reply_frame (m_localMacAddr s) (m_targetIpAddr s) f = true /\
      m = MacArray2Str (part f 8 6) ETH_ALEN.
Proof.
  intros H. destruct (arp_send_request fill s H) as (r & n & s1 & E & Hn & A & Hr). destruct H as [C _ Hm _].
  destruct (after_members _ _ _ A) as (Em & Et & Ef & C1).
  assert (D : GetGwMacAddrList stack t fill s = (if negb (r =? 0) then ret [] else CollectGwMacAddresses stack t []) s1).
  { unfold GetGwMacAddrList. unfold bind at 1, get at 1. rewrite (proj1 C). cbn [negb].
    transitivity (bind (let* p := SetArpPacket fill in let* b := get m_l2Broadcast in SendData (arp_bytes p) b)
      (fun r => if negb (r =? 0) then ret [] else CollectGwMacAddresses stack t []) s).
    - rewrite bind_assoc. unfold bind at 1 4. by destruct (SetArpPacket fill s) as [[p sp]|].
    - unfold bind at 1. by rewrite E. }
  rewrite D. destruct (negb (r =? 0)).
  - exists [], n, [], s1. cbn [map]. rewrite app_nil_r. split; [done|]. do 2 (split; [done|]). split; [cbn; lia|].
    split; [constructor|]. set_solver.
  - unfold CollectGwMacAddresses, bind. rewrite reading_eq.
    destruct (CollectGwMacAddresses_loop_spec t (steady_clock (reads s1)) (wait_fuel t) t stack [] (set_reads (S (reads s1)) s1))
      as (fs & s' & E' & A' & Hfs); [by apply C1|by rewrite <- Hm, <- Em|unfold wait_fuel; lia|].
    assert (A0 : after s (replicate n (request s fill)) (set_reads (S (reads s1)) s1)).
    { rewrite <- (app_nil_r (replicate _ _)). apply (after_trans _ _ _ _ _ A). apply after_read. lia. }
    destruct (gateways_spec (set_reads (S (reads s1)) s1) fs [] (NoDup_nil_2)) as [N M].
    eexists _, n, fs, s'. split; [exact E'|]. split; [done|]. split.
    { change (m_socketFd (set_reads _ s1)) with (m_socketFd s1) in A'. rewrite Ef in A'. exact (after_trans _ _ _ _ _ A0 A'). }
    split; [done|]. split; [exact N|]. intros m. rewrite M. cbn [m_localMacAddr m_targetIpAddr set_reads].
    change (m_localMacAddr (set_reads _ s1)) with (m_localMacAddr s1).
    change (m_targetIpAddr (set_reads _ s1)) with (m_targetIpAddr s1). rewrite Em, Et. set_solver.
Qed.
End Probe.

(** * Executions *)

(** A kernel with interface 7 and the lowest free descriptors from 3 on, a clock
    of a millisecond per reading. *)
Definition lowest (fds : gset Z) : Z := default (-1) (head (filter (fun x => x ∉ fds) [3; 4; 5; 6; 7])).
Definition sample_kernel (binds : nat -> BindOutcome) (frame : bytes) : ArpEnvironment := {|
  if_nametoindex _ _ := 7; new_fd _ fds := lowest fds; fcntl _ := 0; bind_ends := binds; sendto _ := (28, false);
  poll _ _ := 1; read _ := (Some frame, false); close_fd _ := 0; steady_clock n := Z.of_nat n * 1000000; patience := 1 |}.

Lemma sample_kernel_laws binds frame : u8b frame -> (length frame <= 1500)%nat -> ArpEnvironmentLaws (sample_kernel binds frame).
Proof.
  intros Hu Hl. split; cbn.
  - intros _ _. unfold is_u32. lia.
  - intros _ fds. unfold lowest. destruct (head (filter _ _)) as [x|] eqn:E; [right|by left]. cbn.
    assert (x ∈ filter (fun x => x ∉ fds) [3; 4; 5; 6; 7]) as Hx by (destruct (filter _ _); [done|]; injection E as ->; by left).
    apply list_elem_of_filter in Hx as [Hn Hx]. split; [|done].
    repeat (apply elem_of_cons in Hx as [->|Hx]; [lia|]). by apply elem_of_nil in Hx.
  - intros n. exists 0%nat. split; [lia|done].
  - intros n. exists 0%nat. split; [lia|done].
  - intros n d e [= <- <-]. done.
  - intros n m L. lia.
Qed.

Definition sample_mac : bytes := [2; 0; 0; 0; 0; 1].
Definition other_mac : bytes := [2; 0; 0; 0; 0; 2].
Definition sample_reply : bytes := answer other_mac (request_frame sample_mac 0 (ParseIp [192; 168; 1; 5]) false).
(** A checker started on interface 7 with descriptor 3, for 192.168.1.5. *)
Definition sample_checker : Arp :=
  mkArp true 0 (ParseIp [192; 168; 1; 5]) sample_mac (replicate 6 0xFF) 3 7 ETH_P_ARP ∅ ∅ [] {[3]} [] 0.
Lemma sample_checker_started : started sample_checker.
Proof. split; [split; [done|cbn; lia]|done|done|done]. Qed.
Definition sample_laws binds : ArpEnvironmentLaws (sample_kernel binds sample_reply) :=
  sample_kernel_laws binds sample_reply ltac:(repeat constructor; unfold is_u8; vm_compute; intuition congruence) ltac:(vm_compute; lia).

Lemma arp_probe_witness :
  exists found cost n fs s',
    @DoArpCheck (sample_kernel (fun _ => bind_in_time 0) sample_reply) (zeros 1500) 200 false 0 sample_checker =
      Some ((found, cost), s') /\ (0 < n)%nat /\
    after sample_checker (replicate n (request sample_checker false) ++ map (a_read 3) fs) s' /\ (length fs <= 200)%nat /\
    ((found = false /\ fs = [] /\ exists m v e, @sendto (sample_kernel (fun _ => bind_in_time 0) sample_reply) m = (v, e) /\ v <= 0) \/
     exists n0, (0 <= n0)%nat /\
       @verdict (sample_kernel (fun _ => bind_in_time 0) sample_reply)
         (@steady_clock (sample_kernel (fun _ => bind_in_time 0) sample_reply) n0) 200 sample_checker found cost fs s').
Proof. exact (@arp_probe _ (sample_laws (fun _ => bind_in_time 0)) (zeros 1500) 200 false 0 sample_checker sample_checker_started). Defined.

Lemma arp_gateways_witness :
  exists gws n fs s',
    @GetGwMacAddrList (sample_kernel (fun _ => bind_in_time 0) sample_reply) (zeros 1500) 20 true sample_checker = Some (gws, s') /\
    (0 < n)%nat /\ after sample_checker (replicate n (request sample_checker true) ++ map (a_read 3) fs) s' /\
    (length fs <= 20)%nat /\ NoDup gws /\
    forall m, m ∈ gws <-> exists f, f ∈ fs /\ reply_frame sample_mac (ParseIp [192; 168; 1; 5]) f = true /\
      m = MacArray2Str (part f 8 6) ETH_ALEN.
Proof. exact (@arp_gateways _ (sample_laws (fun _ => bind_in_time 0)) (zeros 1500) 20 true sample_checker sample_checker_started). Defined.

(** The conflict is found with the first frame. *)
Example conflict_found :
  fst <$> @DoArpCheck (sample_kernel (fun _ => bind_in_time 0) sample_reply) (zeros 1500) 200 false 0 sample_checker =
  Some (true, 5).
Proof. vm_compute. reflexivity. Qed.
