(* ===== verification/ArpSockets.v ===== *)
(** The descriptors of the checkers for address conflicts.  Every descriptor of
    the process is one it had before, the socket of the checker, or one kept for
    closing because its bind outlived the wait; and an interface is refused only
    while a task is binding a socket to it.  This holds as long as no task fails after
    its wait expired: the last theorem shows what happens then. *)
From S2P Require Import Prelude AddressUtils DottedQuad Codec RawPacket ArpChecker ArpProperties.

Definition owns (socket : Z) (unwanted : gmap bytes Z) (fd : Z) : Prop :=
  (socket = fd /\ 0 <= fd) \/ exists i, unwanted !! i = Some fd.

(** The descriptors [fds] are those of others, [F], and the own ones, each held
    once. *)
Record held (F : gset Z) (created : bool) (socket : Z) (unwanted : gmap bytes Z) (fds : gset Z) : Prop := {
  held_all : forall fd, fd ∈ fds <-> fd ∈ F \/ owns socket unwanted fd;
  held_own : forall fd, owns socket unwanted fd -> fd ∉ F;
  held_once : forall i j fd, unwanted !! i = Some fd -> unwanted !! j = Some fd -> i = j;
  held_apart : forall i fd, unwanted !! i = Some fd -> 0 <= fd /\ fd <> socket;
  held_created : created = true <-> 0 <= socket
}.

Section Held.
Context {F : gset Z} {created : bool} {socket : Z} {unwanted : gmap bytes Z} {fds : gset Z}.

Lemma held_forget i u : held F created socket unwanted fds -> unwanted !! i = Some u ->
  held F created socket (delete i unwanted) (fds ∖ {[u]}).
Proof.
  intros [A O N P C] E. split.
  - intros fd. rewrite elem_of_difference, A, elem_of_singleton. unfold owns. setoid_rewrite lookup_delete_Some. split.
    + intros [[Hf|[?|(j & Hj)]] Hn]; [by left|right; by left|right; right]. exists j. split; [|done]. intros <-. by simplify_eq.
    + intros [Hf|[[? ?]|(j & Hij & Hj)]].
      * split; [by left|]. intros ->. apply (O u); [right; eauto|done].
      * split; [right; by left|]. intros ->. destruct (P i u E). lia.
      * split; [right; right; eauto|]. intros ->. by apply Hij, (N _ _ u).
  - intros fd [?|(j & Hj)]; apply O; [by left|]. apply lookup_delete_Some in Hj as [_ Hj]. right. eauto.
  - intros j k fd Hj Hk. apply lookup_delete_Some in Hj as [_ Hj]. apply lookup_delete_Some in Hk as [_ Hk]. by apply (N _ _ fd).
  - intros j fd Hj. apply lookup_delete_Some in Hj as [_ Hj]. by apply (P j).
  - done.
Qed.

(** A new descriptor, in hand. *)
Lemma held_new x : held F created socket unwanted fds -> 0 <= x -> x ∉ fds ->
  held (F ∪ {[x]}) created socket unwanted (fds ∪ {[x]}) /\ x ∉ F.
Proof.
  intros [A O N P C] Hx Hn. split; [|intros Hf; apply Hn, A; by left]. split; [| |done|done|done].
  - intros fd. rewrite !elem_of_union, A. set_solver.
  - intros fd Hfd. rewrite elem_of_union, elem_of_singleton. intros [Hf| ->]; [by apply (O fd)|]. apply Hn, A. by right.
Qed.

Lemma held_drop x : held (F ∪ {[x]}) created socket unwanted fds -> x ∉ F -> held F created socket unwanted (fds ∖ {[x]}).
Proof.
  intros [A O N P C] Hx. split; [| |done|done|done].
  - intros fd. rewrite elem_of_difference, A, elem_of_union, elem_of_singleton. split; [naive_solver|].
    intros [Hf|Ho]; [split; [by do 2 left|]; by intros ->|]. split; [by right|]. intros ->. apply (O x Ho). set_solver.
  - intros fd Ho Hf. apply (O fd Ho). set_solver.
Qed.

Lemma held_keep i x : held (F ∪ {[x]}) created socket unwanted fds -> x ∉ F -> 0 <= x -> unwanted !! i = None ->
  held F created socket (<[i := x]> unwanted) fds.
Proof.
  intros [A O N P C] Hx H0 Hi.
  assert (Ux : forall j, unwanted !! j <> Some x) by (intros j Hj; apply (O x); [right; eauto|set_solver]).
  assert (Sx : x <> socket) by (intros ->; apply (O socket); [by left|set_solver]). split.
  - intros fd. rewrite A, elem_of_union, elem_of_singleton. unfold owns. setoid_rewrite lookup_insert_Some. split.
    + intros [[Hf| ->]|[?|(j & Hj)]]; [by left|right; right; eauto|right; by left|right; right]. exists j. right.
      split; [|done]. intros ->. by simplify_eq.
    + intros [Hf|[?|(j & [[? ?]|[? Hj]])]]; [by do 2 left|right; by left|left; right; congruence|right; right; eauto].
  - intros fd [?|(j & Hj)] Hf; [apply (O fd); [by left|set_solver]|].
    apply lookup_insert_Some in Hj as [[? ->]|[? Hj]]; [done|]. apply (O fd); [right; eauto|set_solver].
  - intros j k fd Hj Hk. apply lookup_insert_Some in Hj as [[? ?]|[? Hj]]; apply lookup_insert_Some in Hk as [[? ?]|[? Hk]]; subst; [done| | |].
    + by apply Ux in Hk.
    + by apply Ux in Hj.
    + by apply (N _ _ fd).
  - intros j fd Hj. apply lookup_insert_Some in Hj as [[? <-]|[? Hj]]; [by split|by apply (P j)].
  - done.
Qed.

Lemma held_take x : held (F ∪ {[x]}) created socket unwanted fds -> x ∉ F -> 0 <= x -> created = false ->
  held F true x unwanted fds.
Proof.
  intros [A O N P C] Hx H0 ->.
  assert (S0 : socket < 0) by (apply Z.nle_gt; intros H; by apply C in H).
  assert (Ux : forall j, unwanted !! j <> Some x) by (intros j Hj; apply (O x); [right; eauto|set_solver]). split.
  - intros fd. rewrite A, elem_of_union, elem_of_singleton. unfold owns. split; [|naive_solver].
    intros [[Hf| ->]|[[? ?]|?]]; [by left|right; by left|lia|right; by right].
  - intros fd [[<- _]|Hu]; [done|]. intros Hf. apply (O fd); [by right|set_solver].
  - done.
  - intros i fd Hi. split; [by apply (P i)|]. intros ->. by apply (Ux i).
  - done.
Qed.

Lemma held_close : held F created socket unwanted fds -> 0 <= socket -> held F false (-1) unwanted (fds ∖ {[socket]}).
Proof.
  intros [A O N P C] H0. split; [| |done| |split; [done|lia]].
  - intros fd. rewrite elem_of_difference, A, elem_of_singleton. unfold owns. split.
    + intros [[Hf|[[<- _]|?]] Hn]; [by left|done|right; by right].
    + intros [Hf|[[? ?]|(i & Hi)]]; [|lia|].
      * split; [by left|]. intros ->. by apply (O socket); [left|].
      * split; [right; right; eauto|]. by destruct (P i fd Hi).
  - intros fd [[? ?]|Hu]; [lia|]. apply O. by right.
  - intros i fd Hi. destruct (P i fd Hi). split; [done|lia].
Qed.

Lemma held_nothing : held F created socket unwanted fds -> socket < 0 -> held F false (-1) unwanted fds.
Proof.
  intros [A O N P C] H0. split; [| |done| |split; [done|lia]].
  - intros fd. rewrite A. unfold owns. split; (intros [?|[[? ?]|?]]; [by left|lia|right; by right]).
  - intros fd [[? ?]|Hu]; [lia|]. apply O. by right.
  - intros i fd Hi. destruct (P i fd Hi). split; [done|lia].
Qed.
End Held.

(** * The operations *)

Definition accounted (F : gset Z) (s : Arp) : Prop :=
  held F (m_isSocketCreated s) (m_socketFd s) (g_unwantedFds s) (open s).
Definition binding (ts : list BindTask) (i : bytes) : Prop := exists t, t ∈ ts /\ t_begun t = true /\ t_iface t = i.
Definition attempts (s : Arp) : Prop := forall i, i ∈ g_ongoingAttempts s -> binding (tasks s) i.
Definition tidy (F : gset Z) (s : Arp) : Prop := accounted F s /\ attempts s.
(** The socket of the checker is as before. *)
Definition same_socket (s s' : Arp) : Prop := m_isSocketCreated s' = m_isSocketCreated s /\ m_socketFd s' = m_socketFd s.

(** One call, by one user or by a task that goes on. *)
Inductive arp_op :=
| op_new (localIp targetIp : Z) (mac broadcast : bytes)
| op_start (ifname hwAddr senderIp targetIp : bytes)
| op_check (stack : bytes) (timeoutMillis : Z) (isFillSenderIp : bool)
| op_gateways (stack : bytes) (timeoutMillis : Z) (isFillSenderIp : bool)
| op_stop
| op_task_begins (i : nat)
| op_task_ends (i : nat) (r : Z).

Section Sockets.
Context {IT : InetText} {EN : ArpEnvironment} {LAWS : ArpEnvironmentLaws EN}.

(** The destructor of the checker before and the constructor. *)
Definition run_op (op : arp_op) : M Arp unit :=
  match op with
  | op_new localIp targetIp mac broadcast => Stop ;; modify (DhcpArpChecker localIp targetIp mac broadcast)
  | op_start ifname hwAddr senderIp targetIp => Start ifname hwAddr senderIp targetIp ;; ret tt
  | op_check stack t fill => DoArpCheck stack t fill 0 ;; ret tt
  | op_gateways stack t fill => GetGwMacAddrList stack t fill ;; ret tt
  | op_stop => Stop
  | op_task_begins i => task_begins i
  | op_task_ends i r => task_ends i r
  end.
Fixpoint run_ops (ops : list arp_op) : M Arp unit :=
  match ops with [] => ret tt | op :: ops => run_op op ;; run_ops ops end.

(** No task fails after its wait expired. *)
Definition timely_op (op : arp_op) : Prop := match op with op_task_ends _ r => r = 0 | _ => True end.
Definition timely : Prop := forall n r, bind_ends n = bind_just_late r -> r = 0.

Lemma wp_reading {A} (r : nat -> A) (Q : A -> Arp -> Prop) s : Q (r (reads s)) (set_reads (S (reads s)) s) -> wp (reading r) Q s.
Proof. done. Qed.

Lemma close_wp fd (Q : Z -> Arp -> Prop) s :
  (forall r cs n, Q r (set_reads n (set_open (open s ∖ {[fd]}) (set_arp_calls cs s)))) -> wp (close fd) Q s.
Proof. intros H. apply H. Qed.

Lemma forget_unwanted_wp F i s : tidy F s ->
  wp (forget_unwanted i) (fun _ s' => tidy F s' /\ same_socket s s' /\ g_unwantedFds s' !! i = None) s.
Proof.
  intros [H K]. unfold forget_unwanted. apply wp_bind, wp_get. destruct (g_unwantedFds s !! i) as [u|] eqn:E.
  - apply wp_bind, close_wp. intros _ cs n. apply wp_modify. split; [split; [exact (held_forget i u H E)|exact K]|].
    split; [done|]. apply lookup_delete_eq.
  - by apply wp_ret.
Qed.

Lemma clear_attempt_wp F i s : tidy F s -> wp (clear_attempt i) (fun _ s' => tidy F s' /\ same_socket s s') s.
Proof. intros [H K]. apply wp_modify. split; [split; [exact H|]|done]. intros j Hj. apply K. cbn in Hj. set_solver. Qed.

(** A bind that returns: the descriptor in hand is kept or closed. *)
Lemma bind_returns_wp F fd i r s : tidy (F ∪ {[fd]}) s -> fd ∉ F ->
  wp (bind_returns fd i r) (fun res s' => same_socket s s' /\
    ((res = OPT_FAIL /\ r <> 0 /\ tidy F s') \/ (res = OPT_SUCC /\ r = 0 /\ tidy (F ∪ {[fd]}) s'))) s.
Proof.
  intros T Hfd. unfold bind_returns. apply wp_if; intros E; apply wp_bind; (eapply wp_mono; [by apply clear_attempt_wp|]).
  - intros _ s1 [[H1 K1] S1]. apply wp_bind, close_wp. intros _ cs n. apply wp_ret. split; [exact S1|]. left.
    split; [done|]. split; [by apply negb_true_iff, Z.eqb_neq in E|]. split; [exact (held_drop fd H1 Hfd)|exact K1].
  - intros _ s1 [T1 S1]. apply wp_bind. eapply wp_mono; [by apply forget_unwanted_wp|]. intros _ s2 (T2 & S2 & _).
    apply wp_ret. split; [unfold same_socket in *; intuition congruence|]. right. split; [done|]. split; [|done].
    apply negb_false_iff in E. by apply Z.eqb_eq.
Qed.

(** Recording the attempt of a bind that is over within the call. *)
Lemma BindSocketToInterface_wp F fd idx p i r s : tidy (F ∪ {[fd]}) s -> fd ∉ F ->
  wp (BindSocketToInterface fd idx p i r) (fun res s' => same_socket s s' /\
    ((res = OPT_FAIL /\ r <> 0 /\ tidy F s') \/ (res = OPT_SUCC /\ r = 0 /\ tidy (F ∪ {[fd]}) s'))) s.
Proof.
  intros [H K] Hfd. unfold BindSocketToInterface. apply wp_bind. unfold bind_begins, RecordInterfaceAttempt, called.
  apply wp_bind, wp_modify, wp_modify. set (s1 := set_arp_calls _ _).
  assert (E : bind_returns fd i r s1 = bind_returns fd i r (set_g_ongoingAttempts (g_ongoingAttempts s ∖ {[i]}) s1)).
  { assert (C : clear_attempt i s1 = clear_attempt i (set_g_ongoingAttempts (g_ongoingAttempts s ∖ {[i]}) s1)).
    { unfold clear_attempt, modify. do 2 f_equal. unfold set_g_ongoingAttempts; cbn. f_equal. set_solver. }
    unfold bind_returns, bind. destruct (negb (r =? 0)); by rewrite C. }
  assert (T : tidy (F ∪ {[fd]}) (set_g_ongoingAttempts (g_ongoingAttempts s ∖ {[i]}) s1)).
  { split; [exact H|]. intros j Hj. apply K. cbn in Hj. set_solver. }
  unfold wp. rewrite E. exact (bind_returns_wp F fd i r _ T Hfd).
Qed.

Lemma binding_app ts t i : binding ts i -> binding (ts ++ [t]) i.
Proof. intros (t' & Ht & Hb). exists t'. split; [set_solver|done]. Qed.

Lemma PostSyncTimeOutTask_wp F fd idx p i s : timely -> tidy (F ∪ {[fd]}) s -> fd ∉ F ->
  wp (PostSyncTimeOutTask fd idx p i) (fun res s' => same_socket s s' /\
    ((res = ERROR_FAILED /\ tidy F s') \/ ((res = ERROR_TIMEOUT \/ res = OPT_SUCC) /\ tidy (F ∪ {[fd]}) s'))) s.
Proof.
  intros TM T Hfd. unfold PostSyncTimeOutTask. apply wp_bind, wp_reading. set (s1 := set_reads _ s).
  assert (T1 : tidy (F ∪ {[fd]}) s1) by exact T. destruct (bind_ends (reads s)) as [r|r|begun] eqn:E.
  - eapply wp_mono; [by apply (BindSocketToInterface_wp F)|]. intros res s' [Sm [(-> & _ & T')|(-> & _ & T')]]; (split; [exact Sm|]);
      [by left|right; auto].
  - apply wp_bind. eapply wp_mono; [by apply (BindSocketToInterface_wp F)|]. intros res s' [Sm H]. apply wp_ret. split; [exact Sm|].
    right. split; [auto|]. apply TM in E. subst r. by destruct H as [(_ & ? & _)|(_ & _ & T')].
  - apply wp_bind, wp_when; intros ->.
    + unfold bind_begins, RecordInterfaceAttempt, called. apply wp_bind, wp_modify, wp_modify, wp_bind, wp_modify, wp_ret.
      split; [done|]. right. split; [auto|]. destruct T1 as [H K]. split; [exact H|]. intros j Hj.
      apply elem_of_union in Hj as [Hj|Hj]; [apply binding_app, K, Hj|]. apply elem_of_singleton in Hj as ->.
      eexists. split; [apply elem_of_app; right; by left|done].
    + apply wp_bind, wp_modify, wp_ret. split; [done|]. right. split; [auto|]. destruct T1 as [H K]. split; [exact H|].
      intros j Hj. apply binding_app, K, Hj.
Qed.

Lemma SetNonBlock_wp (Q : bool -> Arp -> Prop) s : (forall ok n, Q ok (set_reads n s)) -> wp SetNonBlock Q s.
Proof. intros H. unfold SetNonBlock. apply wp_bind, wp_reading, wp_if; intros _; [apply H|]. apply wp_bind, wp_reading. apply H. Qed.

Lemma CreateRawSocket_wp F p s : tidy F s ->
  wp (CreateRawSocket p) (fun r s' => same_socket s s' /\
    ((r = -1 /\ tidy F s') \/ (0 <= r /\ r ∉ F /\ tidy (F ∪ {[r]}) s'))) s.
Proof.
  intros [H K]. unfold CreateRawSocket, called. apply wp_bind, wp_modify, wp_bind, wp_get, wp_bind, wp_reading.
  set (s1 := set_reads _ _). set (fd := new_fd _ _). apply wp_if; intros E.
  - apply wp_ret. split; [done|]. by left.
  - apply Z.ltb_ge in E. destruct (new_fd_law (reads (set_arp_calls (arp_calls s ++ [a_socket]) s)) (open s)) as [X|[_ Hn]].
    { exfalso. unfold fd in E. cbn in X, E. lia. }
    destruct (held_new fd H E Hn) as [H' Hf]. apply wp_bind, wp_modify, wp_bind, SetNonBlock_wp. intros ok n.
    apply wp_if; intros _.
    + apply wp_bind, close_wp. intros _ cs m. apply wp_ret. split; [done|]. left. split; [done|].
      split; [exact (held_drop fd H' Hf)|exact K].
    + apply wp_ret. split; [done|]. right. split; [done|]. split; [done|]. by split.
Qed.

Lemma CreateSocket_wp F i p s : timely -> tidy F s -> m_isSocketCreated s = false ->
  wp (CreateSocket i p) (fun _ s' => tidy F s') s.
Proof.
  intros TM T C. unfold CreateSocket. apply wp_bind. unfold GetInterfaceIndex. apply wp_bind, wp_reading.
  set (s1 := set_reads _ s). assert (T1 : tidy F s1) by exact T. assert (C1 : m_isSocketCreated s1 = false) by exact C.
  assert (W : forall idx, wp (if idx <=? 0 then ret OPT_FAIL else
    let* socketFd := CreateRawSocket p in if socketFd <? 0 then ret OPT_FAIL else
      let* r := PostSyncTimeOutTask socketFd idx p i in
      if r =? ERROR_TIMEOUT then
        forget_unwanted i ;;
        modify (fun s => set_g_unwantedFds (<[i := socketFd]> (g_unwantedFds s)) s) ;; ret OPT_FAIL
      else if r =? ERROR_FAILED then ret OPT_FAIL
      else modify (set_socket true socketFd (u16 idx) p) ;; ret OPT_SUCC) (fun _ s' => tidy F s') s1).
  2: { cbv zeta. apply wp_if; intros _; [apply wp_ret, W|]. apply wp_if; intros _; apply wp_ret, W. }
  clearbody s1. clear T C. intros idx. apply wp_if; intros _; [done|]. apply wp_bind.
  eapply wp_mono; [by apply (CreateRawSocket_wp F)|]. intros fd s2 [S2 [[-> T2]|(H0 & Hf & T2)]]; [by apply wp_ret|].
  rewrite (proj2 (Z.ltb_ge fd 0)) by done. apply wp_bind.
  eapply wp_mono; [by apply (PostSyncTimeOutTask_wp F)|]. intros r s3 [S3 [[-> T3]|[[-> | ->] T3]]].
  - by apply wp_ret.
  - apply wp_bind. eapply wp_mono; [by apply forget_unwanted_wp|]. intros _ s4 ([H4 K4] & S4 & N4).
    apply wp_bind, wp_modify, wp_ret. split; [exact (held_keep i fd H4 Hf H0 N4)|exact K4].
  - apply wp_bind, wp_modify, wp_ret. destruct T3 as [H3 K3]. split; [|exact K3].
    refine (held_take fd H3 Hf H0 _). unfold same_socket in *. intuition congruence.
Qed.

Lemma CloseSocket_wp F s : tidy F s -> wp CloseSocket (fun _ s' => tidy F s' /\ m_isSocketCreated s' = false) s.
Proof.
  intros [H K]. unfold CloseSocket. apply wp_bind, wp_get, wp_bind. rewrite Z.geb_leb. destruct (Z.leb_spec 0 (m_socketFd s)).
  - apply close_wp. intros r cs n. apply wp_bind, wp_modify, wp_ret. split; [|done]. split; [exact (held_close H ltac:(assumption))|exact K].
  - apply wp_ret, wp_bind, wp_modify, wp_ret. split; [|done]. split; [exact (held_nothing H ltac:(assumption))|exact K].
Qed.

Lemma Stop_wp F s : tidy F s -> wp Stop (fun _ s' => tidy F s' /\ m_isSocketCreated s' = false) s.
Proof. intros T. apply wp_bind. eapply wp_mono; [by apply (CloseSocket_wp F)|]. intros r s' H. by apply wp_ret. Qed.

Lemma Start_wp F ifname hw sender target s : timely -> tidy F s -> wp (Start ifname hw sender target) (fun _ s' => tidy F s') s.
Proof.
  intros TM T. unfold Start. apply wp_if; intros _; [done|]. apply wp_bind, wp_get, wp_bind.
  apply (wp_mono _ (fun _ s' => tidy F s' /\ m_isSocketCreated s' = false)).
  { apply wp_when; intros E; [by apply Stop_wp|done]. }
  intros _ s1 [T1 C1]. apply wp_bind.
  apply (wp_mono _ (fun _ s' => tidy F s' /\ m_isSocketCreated s' = false)).
  { unfold ParseAndValidateMacAddress. repeat (apply wp_if; intros _; [done|]).
    apply wp_bind, wp_modify, wp_bind, wp_modify, wp_ret. done. }
  intros ok s2 [T2 C2]. apply wp_if; intros _; [done|]. apply wp_bind.
  apply (wp_mono _ (fun _ s' => tidy F s')).
  { unfold CreateSocketWithTimeout, IsInterfaceSafe. apply wp_bind, wp_bind, wp_get, wp_ret, wp_if; intros _; [done|].
    apply wp_bind. eapply wp_mono; [by apply (CreateSocket_wp F)|]. by intros r s' T'. }
  intros ok' s3 T3. apply wp_if; intros _; [done|]. unfold ValidateAndSetIpAddresses.
  destruct (inet_aton sender); [|done]. apply wp_bind, wp_modify. destruct (inet_aton target); done.
Qed.

(** Checks leave the sockets alone. *)
Lemma after_tidy F s cs s' : tidy F s -> after s cs s' -> tidy F s'.
Proof. intros T [-> _]. exact T. Qed.
Lemma arp_reading_safe F {A} (r : nat -> A) : safe (tidy F) (reading r) (fun _ => True).
Proof. by intros s T. Qed.
Lemma sendto_safe F fd i p d b : safe (tidy F) (sendto_loop patience fd i p d b) (fun _ => True).
Proof.
  intros s T. destruct (sendto_loop_spec fd i p d b patience s) as (r & n & s' & E & _ & A & _); [apply sendto_law|].
  eapply wp_intro; [exact E|]. split; [done|]. by eapply after_tidy.
Qed.
Lemma read_safe F fd b : safe (tidy F) (read_loop patience fd b) (fun _ => True).
Proof.
  intros s T. destruct (read_loop_spec fd b patience s) as (s' & [[E A]|(d & E & A & _)]); [apply read_law| |];
    (eapply wp_intro; [exact E|]; split; [done|]; by eapply after_tidy).
Qed.
Hint Resolve arp_reading_safe sendto_safe read_safe : safe.

Lemma RecvData_safe F b n t : safe (tidy F) (RecvData b n t) (fun _ => True).
Proof. unfold RecvData. safe_steps; try done; eauto with safe. Qed.
Lemma IsValidArpReply_safe F b n : safe (tidy F) (IsValidArpReply b n) (fun _ => True).
Proof. unfold IsValidArpReply. by safe_steps. Qed.
Lemma ProcessReceivedPacket_safe F b n l : safe (tidy F) (ProcessReceivedPacket b n l) (fun _ => True).
Proof. unfold ProcessReceivedPacket. by safe_steps. Qed.
Lemma SendData_safe F b d : safe (tidy F) (SendData b d) (fun _ => True).
Proof. unfold SendData. by safe_steps. Qed.
Hint Resolve RecvData_safe IsValidArpReply_safe ProcessReceivedPacket_safe SendData_safe : safe.

Lemma Update_safe F start overall t left : 0 < left ->
  safe (tidy F) (UpdateTimeoutCounters start overall t left) (fun r => 0 <= snd r <= left - 1).
Proof.
  intros Hl s T. destruct (UpdateTimeoutCounters_spec start overall t left s Hl) as (left' & s' & E & A & _ & B).
  eapply wp_intro; [exact E|]. split; [done|]. by eapply after_tidy.
Qed.

Lemma Wait_safe F t overall fuel : forall left b, (Z.to_nat left < fuel)%nat ->
  safe (tidy F) (WaitForArpReply_loop fuel t overall left b) (fun _ => True).
Proof.
  induction fuel as [|fuel IH]; intros left b Hf; [lia|]. cbn [WaitForArpReply_loop]. rewrite Z.gtb_ltb.
  destruct (Z.ltb_spec 0 left) as [Hl|Hl]; [|by apply safe_ret]. safe_step. safe_step. safe_steps.
  eapply safe_bind; [by apply Update_safe|]. intros [ok left'] Hl'. cbn in Hl'. safe_steps; try done. apply IH. lia.
Qed.
Lemma Collect_safe F t overall fuel : forall left b l, (Z.to_nat left < fuel)%nat ->
  safe (tidy F) (CollectGwMacAddresses_loop fuel t overall left b l) (fun _ => True).
Proof.
  induction fuel as [|fuel IH]; intros left b l Hf; [lia|]. cbn [CollectGwMacAddresses_loop]. rewrite Z.gtb_ltb.
  destruct (Z.ltb_spec 0 left) as [Hl|Hl]; [|by apply safe_ret]. safe_step. safe_step. safe_steps.
  eapply safe_bind; [by apply Update_safe|]. intros [ok left'] Hl'. cbn in Hl'. safe_steps; try done. apply IH. lia.
Qed.

Lemma SetArpPacket_safe F fill : safe (tidy F) (SetArpPacket fill) (fun _ => True).
Proof. unfold SetArpPacket. by safe_steps. Qed.
Lemma WaitForArpReply_safe F b t : safe (tidy F) (WaitForArpReply b t) (fun _ => True).
Proof. unfold WaitForArpReply. safe_steps. apply Wait_safe. unfold wait_fuel. lia. Qed.
Lemma CollectGwMacAddresses_safe F b t l : safe (tidy F) (CollectGwMacAddresses b t l) (fun _ => True).
Proof. unfold CollectGwMacAddresses. safe_steps. apply Collect_safe. unfold wait_fuel. lia. Qed.
Hint Resolve SetArpPacket_safe WaitForArpReply_safe CollectGwMacAddresses_safe : safe.

Lemma DoArpCheck_safe F b t fill : safe (tidy F) (DoArpCheck b t fill 0) (fun _ => True).
Proof. unfold DoArpCheck. safe_steps; eauto with safe. Qed.
Lemma GetGwMacAddrList_safe F b t fill : safe (tidy F) (GetGwMacAddrList b t fill) (fun _ => True).
Proof. unfold GetGwMacAddrList. safe_steps; eauto with safe. Qed.

(** * The tasks *)

Lemma binding_insert ts k t t' i : ts !! k = Some t -> t_begun t = false -> binding ts i -> binding (<[k := t']> ts) i.
Proof.
  intros Hk Hb (u & Hu & Bu & Iu). apply list_elem_of_lookup in Hu as (m & Hm). exists u. split; [|done].
  apply list_elem_of_lookup. exists m. rewrite list_lookup_insert_ne; [done|]. intros ->. congruence.
Qed.
Lemma binding_delete ts k t i : ts !! k = Some t -> t_iface t <> i -> binding ts i -> binding (delete k ts) i.
Proof.
  intros Hk Hb (u & Hu & Bu & Iu). exists u. split; [|done]. rewrite delete_take_drop.
  rewrite <- (take_drop_middle ts k t Hk) in Hu. apply elem_of_app in Hu as [Hu|Hu]; [by apply elem_of_app; left|].
  apply elem_of_cons in Hu as [->|Hu]; [done|]. by apply elem_of_app; right.
Qed.

Lemma task_begins_safe F i : safe (tidy F) (task_begins i) (fun _ => True).
Proof.
  intros s [H K]. unfold task_begins. apply wp_bind, wp_get. destruct (tasks s !! i) as [t|] eqn:E; [|done].
  apply wp_if; intros B; [done|]. unfold bind_begins, RecordInterfaceAttempt, called.
  apply wp_bind, wp_bind, wp_modify, wp_modify, wp_modify. split; [done|]. split; [exact H|].
  intros j Hj. apply elem_of_union in Hj as [Hj|Hj].
  - exact (binding_insert (tasks s) i t _ j E B (K j Hj)).
  - apply elem_of_singleton in Hj as ->. exists (mkBindTask (t_fd t) (t_ifaceIndex t) (t_protocol t) (t_iface t) true).
    split; [|done]. apply list_elem_of_lookup. exists i. change (<[i := mkBindTask (t_fd t) (t_ifaceIndex t) (t_protocol t) (t_iface t) true]> (tasks s) !! i =
      Some (mkBindTask (t_fd t) (t_ifaceIndex t) (t_protocol t) (t_iface t) true)).
    rewrite list_lookup_insert_eq; [done|by eapply lookup_lt_Some].
Qed.

Lemma forget_unwanted_tasks i s :
  wp (forget_unwanted i) (fun _ s' => g_ongoingAttempts s' = g_ongoingAttempts s /\ tasks s' = tasks s) s.
Proof.
  unfold forget_unwanted. apply wp_bind, wp_get. destruct (g_unwantedFds s !! i); [|done].
  apply wp_bind, close_wp. intros _ cs n. by apply wp_modify.
Qed.

Lemma arp_task_ends_safe F i : safe (tidy F) (task_ends i 0) (fun _ => True).
Proof.
  intros s [H K]. unfold task_ends. apply wp_bind, wp_get. destruct (tasks s !! i) as [t|] eqn:E; [|done].
  apply wp_if; intros B; [done|]. unfold bind_returns, clear_attempt. cbn [negb Z.eqb].
  apply wp_bind, wp_bind, wp_modify, wp_bind. set (s1 := set_g_ongoingAttempts _ s).
  assert (T1 : tidy F s1) by (split; [exact H|]; intros j Hj; apply K; cbn in Hj; set_solver).
  eapply wp_mono; [apply wp_and; [by apply (forget_unwanted_wp F)|apply forget_unwanted_tasks]|].
  intros _ s2 [[[H2 K2] _] [Og Ts]]. apply wp_ret, wp_modify. split; [done|]. split; [exact H2|].
  intros j Hj. cbn in Hj. rewrite Og in Hj. cbn in Hj. apply elem_of_difference in Hj as [Hj Hn].
  exact (binding_delete (tasks s) i t j E (fun e => Hn ltac:(set_solver)) (K j Hj)).
Qed.

Lemma run_op_safe F op : timely -> timely_op op -> safe (tidy F) (run_op op) (fun _ => True).
Proof.
  intros TM TO. destruct op; cbn in *.
  - intros s T. apply wp_bind. eapply wp_mono; [by apply Stop_wp|]. intros _ s' [[H K] C]. apply wp_modify.
    split; [done|]. split; [|exact K]. assert (m_socketFd s' < 0).
    { apply Z.nle_gt. intros L. apply (held_created _ _ _ _ _ H) in L. congruence. }
    exact (held_nothing H ltac:(assumption)).
  - intros s T. apply wp_bind. eapply wp_mono; [by apply (Start_wp F)|]. by intros ok s' T'.
  - eapply safe_bind; [apply DoArpCheck_safe|]. intros ? _. by apply safe_ret.
  - eapply safe_bind; [apply GetGwMacAddrList_safe|]. intros ? _. by apply safe_ret.
  - intros s T. eapply wp_mono; [by apply (Stop_wp F)|]. by intros _ s' [T' _].
  - apply task_begins_safe.
  - subst r. apply arp_task_ends_safe.
Qed.

Lemma run_ops_safe F ops : timely -> Forall timely_op ops -> safe (tidy F) (run_ops ops) (fun _ => True).
Proof.
  intros TM. induction 1 as [|op ops TO _ IH]; cbn [run_ops]; [by apply safe_ret|].
  eapply safe_bind; [by apply run_op_safe|]. by intros [] _.
Qed.

(** A process that has the descriptors [F] and has not used a checker. *)
Definition process (F : gset Z) : Arp := mkArp false 0 0 [] [] (-1) 0 0 ∅ ∅ [] F [] 0.

Lemma process_tidy F : tidy F (process F).
Proof.
  assert (N : forall fd, ~ owns (-1) ∅ fd) by (intros fd [[? ?]|(i & Hi)]; [lia|set_solver]).
  split; [|intros i Hi; set_solver]. split; cbn.
  - intros fd. split; [by left|]. intros [?|Ho]; [done|by apply N in Ho].
  - intros fd Ho. by apply N in Ho.
  - intros i j fd Hi. set_solver.
  - intros i fd Hi. set_solver.
  - split; [done|lia].
Qed.

(** * Starting *)

Definition addresses (mac broadcast : bytes) (s : Arp) : Prop := m_localMacAddr s = mac /\ m_l2Broadcast s = broadcast.

(** Calls whose results do not matter. *)
Ltac arp_steps :=
  repeat (first [apply safe_bind_get; intros ? ? | apply (safe_bind _ _ _ (fun _ => True)); [|intros ? _] | safe_step];
    cbv beta iota zeta; try solve [done | eauto with safe]).

Lemma arp_close_safe mac b fd : safe (addresses mac b) (close fd) (fun _ => True).
Proof. by intros s H. Qed.
Lemma reading_addresses mac b {A} (r : nat -> A) : safe (addresses mac b) (reading r) (fun _ => True).
Proof. by intros s H. Qed.
Hint Resolve arp_close_safe reading_addresses : safe.
Lemma forget_unwanted_safe mac b i : safe (addresses mac b) (forget_unwanted i) (fun _ => True).
Proof. unfold forget_unwanted. by safe_steps. Qed.
Hint Resolve forget_unwanted_safe : safe.
Lemma BindSocketToInterface_safe mac b fd idx p i r : safe (addresses mac b) (BindSocketToInterface fd idx p i r) (fun _ => True).
Proof. unfold BindSocketToInterface, bind_begins, bind_returns, RecordInterfaceAttempt, clear_attempt, called. arp_steps. Qed.
Hint Resolve BindSocketToInterface_safe : safe.
Lemma PostSyncTimeOutTask_safe mac b fd idx p i : safe (addresses mac b) (PostSyncTimeOutTask fd idx p i) (fun _ => True).
Proof.
  unfold PostSyncTimeOutTask, bind_begins, RecordInterfaceAttempt, called. arp_steps.
Qed.
Lemma arp_CreateRawSocket_safe mac b p : safe (addresses mac b) (CreateRawSocket p) (fun _ => True).
Proof. unfold CreateRawSocket, SetNonBlock, called. arp_steps. Qed.

Lemma CreateSocket_ok mac b i p s : addresses mac b s ->
  wp (CreateSocket i p) (fun r s' => addresses mac b s' /\
    (r = OPT_SUCC -> connected s' /\ m_protocol s' = p /\ exists n, m_ifaceIndex s' = u16 (i32 (if_nametoindex i n)))) s.
Proof.
  intros A. unfold CreateSocket, GetInterfaceIndex. apply wp_bind, wp_bind, wp_reading. set (idx := i32 _). cbv zeta.
  assert (A1 : addresses mac b (set_reads (S (reads s)) s)) by exact A. revert A1. generalize (set_reads (S (reads s)) s).
  intros s1 A1. apply wp_if; intros _; [by apply wp_ret|]. apply wp_if; intros _; [by apply wp_ret|]. apply wp_ret.
  apply wp_if; intros _; [by apply wp_ret|]. apply wp_bind. eapply wp_mono; [by apply (arp_CreateRawSocket_safe mac b)|].
  intros fd s2 [_ A2]. apply wp_if; intros E; [by apply wp_ret|]. apply wp_bind.
  eapply wp_mono; [by apply (PostSyncTimeOutTask_safe mac b)|]. intros r s3 [_ A3]. apply wp_if; intros _.
  { apply wp_bind. eapply wp_mono; [by apply (forget_unwanted_safe mac b)|]. intros _ s4 [_ A4].
    by apply wp_bind, wp_modify, wp_ret. }
  apply wp_if; intros _; [by apply wp_ret|]. apply wp_bind, wp_modify, wp_ret. split; [exact A3|]. intros _.
  apply Z.ltb_ge in E. split; [by split|]. split; [done|]. by exists (reads s).
Qed.

Lemma is_hex_digit d : 0 <= d < 16 -> is_hex (hex_digit d) = true.
Proof.
  intros Hd. unfold is_hex, hex_digit. destruct (d <? 10) eqn:E; [apply Z.ltb_lt in E|apply Z.ltb_ge in E];
    repeat match goal with |- context [?x <=? ?y] => destruct (Z.leb_spec x y); try lia end; done.
Qed.
Lemma scan_mac_hex2 n a s : is_u8 a -> scan_mac n (hex2 a ++ s) =
  match n, s with S n, c :: s => a :: (if c =? colon then scan_mac n s else []) | _, _ => [a] end.
Proof.
  intros Ha. unfold is_u8 in Ha. assert (0 <= a / 16 < 16 /\ 0 <= a mod 16 < 16) as [H1 H2] by (Z.div_mod_to_equations; lia).
  assert (S1 : scan_02x (hex2 a ++ s) = Some (a, s)).
  { unfold hex2. cbn [app scan_02x]. rewrite !is_hex_digit by done. cbn [negb]. rewrite !hex_digit_convert by done. do 2 f_equal. Z.div_mod_to_equations; lia. }
  destruct n; cbn [scan_mac]; rewrite S1; [done|]. by destruct s.
Qed.

(** The text of a hardware address is read back. *)
Lemma ParseAndValidateMacAddress_text mac s : u8b mac -> length mac = 6%nat ->
  ParseAndValidateMacAddress (MacArray2Str mac ETH_ALEN) s =
  Some (true, set_m_l2Broadcast (replicate 6 0xFF) (set_m_localMacAddr mac s)).
Proof.
  intros Hu Hl. do 6 (destruct mac as [|? mac]; [cbn in Hl; lia|]). destruct mac; [|cbn in Hl; lia]. clear Hl.
  repeat (apply Forall_cons in Hu as [? Hu]). clear Hu.
  assert (X : forall b, is_u8 b -> is_hex (hex_digit (b / 16)) = true /\ is_hex (hex_digit (b mod 16)) = true).
  { intros b Hb. unfold is_u8 in Hb. assert (0 <= b / 16 < 16 /\ 0 <= b mod 16 < 16) as [L1 L2] by (Z.div_mod_to_equations; lia).
    by rewrite !is_hex_digit. }
  unfold ParseAndValidateMacAddress. change (negb (Z.of_nat (length (MacArray2Str _ _)) =? _)) with false. cbv iota.
  match goal with |- context [MacArray2Str ?m ETH_ALEN] => assert (P : macPattern 5 (MacArray2Str m ETH_ALEN) = true);
    [|assert (V : scan_mac 5 (MacArray2Str m ETH_ALEN) = m)] end.
  - change (MacArray2Str _ _) with (hex2 z ++ colon :: hex2 z0 ++ colon :: hex2 z1 ++ colon :: hex2 z2 ++ colon :: hex2 z3 ++
      colon :: hex2 z4). unfold hex2. cbn [app macPattern]. unfold colon at 1 2 3 4 5. cbn [Z.eqb Pos.eqb].
    repeat match goal with H : is_u8 ?b |- _ => destruct (X b H) as [-> ->]; clear H end. done.
  - change (MacArray2Str _ _) with (hex2 z ++ colon :: hex2 z0 ++ colon :: hex2 z1 ++ colon :: hex2 z2 ++ colon :: hex2 z3 ++
      colon :: hex2 z4 ++ []). rewrite !scan_mac_hex2 by done. cbn [Z.eqb colon Pos.eqb].
    repeat (rewrite scan_mac_hex2 by done; cbn [Z.eqb colon Pos.eqb]). done.
  - rewrite P, V. cbn [negb length Z.of_nat]. unfold bind, modify, ret. cbn [map]. do 4 f_equal.
    unfold u8. by rewrite !Z.mod_small by done.
Qed.

(** A successful start leaves a checker that can probe: with its addresses, and
    on the interface when the lower 16 bits of its index are not zero. *)
Theorem Start_starts ifname mac sender target s : u8b mac -> length mac = 6%nat ->
  (forall n, u16 (i32 (if_nametoindex ifname n)) <> 0) ->
  wp (Start ifname (MacArray2Str mac ETH_ALEN) sender target) (fun ok s' => ok = true ->
    started s' /\ m_localMacAddr s' = mac /\ inet_aton sender = Some (m_localIpAddr s') /\
    inet_aton target = Some (m_targetIpAddr s')) s.
Proof.
  intros Hu Hl Hi. unfold Start. apply wp_if; intros _; [done|]. apply wp_bind, wp_get, wp_bind.
  apply (wp_mono _ (fun _ _ => True)).
  { apply wp_when; [|done]. intros _. unfold Stop, CloseSocket. apply wp_bind, wp_bind, wp_get, wp_bind.
    destruct (_ >=? 0); [apply close_wp; intros|apply wp_ret]; by apply wp_bind, wp_modify, wp_ret. }
  intros _ s1 _. apply wp_bind. unfold wp at 1. rewrite ParseAndValidateMacAddress_text by done. cbn [negb].
  apply wp_bind. unfold CreateSocketWithTimeout, IsInterfaceSafe. apply wp_bind, wp_bind, wp_get, wp_ret.
  apply wp_if; intros _; [by apply wp_ret|]. apply wp_bind.
  eapply wp_mono; [by apply (CreateSocket_ok mac (replicate 6 0xFF))|]. intros r s2 [[Am Ab] C]. apply wp_ret.
  apply wp_if; intros E; [done|]. apply negb_false_iff, Z.eqb_eq in E. destruct (C E) as (Cc & _ & n & Cn).
  unfold ValidateAndSetIpAddresses. destruct (inet_aton sender) as [ip|]; [|done]. apply wp_bind, wp_modify.
  destruct (inet_aton target) as [ip'|]; [|done]. apply wp_bind, wp_modify, wp_ret. intros _.
  split; [|done]. split; [exact Cc| |by rewrite <- Hl, <- Am|exact Ab]. change (m_ifaceIndex s2 <> 0). by rewrite Cn.
Qed.

(** C31: After any uses of the checkers and any steps of their tasks, with no
    bind that fails after its wait, the process has open the descriptors it had,
    the socket of the checker and those kept for closing, each held once and none
    of another part of the process closed; and an interface is refused only while a
    task is binding to it. *)
Theorem arp_descriptors F ops : timely -> Forall timely_op ops ->
  exists s', run_ops ops (process F) = Some (tt, s') /\ tidy F s'.
Proof.
  intros TM TO. destruct (wp_run _ _ _ (run_ops_safe F ops TM TO _ (process_tidy F))) as ([] & s' & E & _ & T). eauto.
Qed.
End Sockets.

(** * Executions *)

Definition start_probe : arp_op :=
  op_start (str "wlan0") (MacArray2Str sample_mac ETH_ALEN) (str "0.0.0.0") (str "192.168.1.5").

Definition after_run (binds : nat -> BindOutcome) (ops : list arp_op) : option Arp :=
  snd <$> @run_ops DottedQuad (sample_kernel binds sample_reply) ops (process ∅).

(** The bind of the first start outlives the wait and then fails; the second
    start gets the number of the closed descriptor and closes it again, as the
    descriptor kept for the first: the checker believes it has a socket. *)
Theorem own_socket_closed :
  exists s, after_run (fun n => if (n <? 5)%nat then bind_blocked true else bind_in_time 0)
      [start_probe; op_task_ends 0 (-1); start_probe] = Some s /\
    m_isSocketCreated s = true /\ m_socketFd s = 3 /\ 3 ∉ open s.
Proof.
  eexists. split; [vm_compute; reflexivity|]. split; [reflexivity|]. split; [reflexivity|].
  apply (bool_decide_unpack _). vm_compute. exact I.
Qed.

Lemma arp_descriptors_witness :
  exists s', @run_ops DottedQuad (sample_kernel (fun n => if (n <? 5)%nat then bind_blocked true else bind_in_time 0) sample_reply)
      [start_probe; op_task_ends 0 0; start_probe; op_check (zeros 1500) 200 false] (process {[0; 1; 2]}) = Some (tt, s') /\
    tidy {[0; 1; 2]} s'.
Proof.
  apply (@arp_descriptors DottedQuad _ (sample_kernel_laws (fun n => if (n <? 5)%nat then bind_blocked true else bind_in_time 0)
    sample_reply ltac:(repeat constructor; unfold is_u8; vm_compute; intuition congruence) ltac:(vm_compute; lia))).
  - intros n r E. unfold bind_ends, sample_kernel in E. by destruct (n <? 5)%nat.
  - repeat constructor.
Defined.
