(* ===== verification/Ipv6Info.v ===== *)
(** What the IPv6 client knows (dhcp_client/src/dhcp_ipv6_info.cpp) and its
    repository of DNS servers (dhcp_ipv6_dns_repository.cpp), with their headers.

    A [char] array of a [DhcpIpv6Info] is a list of 128 bytes, written with
    [memcpy_s]; a [std::map] is a [gmap] whose items come in the order of the keys
    ([map_items]).  An operation gives the value it returns and the new state.
    The order in which an [unordered_set] is walked and the order std::sort leaves
    equal elements in are those of a [StandardLibrary]; the clock readings are
    arguments.  Theorems: the arrays mirror the map of addresses, the array of
    the route the list of routes; what a repository has in use. *)
From S2P Require Import Prelude AddressUtils CommonUtil.

Definition DHCP_INET6_ADDRSTRLEN : Z := 128.
Definition IPV6_LIFETIME_INFINITY : Z := 0xFFFFFFFF.
Definition IPV6_LIFETIME_MIN : Z := 10 * 60.

Inductive AddrType := UNKNOW | DEFAULT | GLOBAL | SUBNET | RAND | UNIQUE | UNIQUE2.
#[export] Instance AddrType_dec : EqDecision AddrType.
Proof. solve_decision. Defined.
Inductive LifeType := VALID_LIFE | PREF_LIFE | ROUTE_LIFE | TEMP_VALID_LIFE | TEMP_PREF_LIFE.

Record DhcpIpv6Info := mkIpv6Info {
  linkIpv6Addr : bytes; globalIpv6Addr : bytes; ipv6SubnetAddr : bytes; randIpv6Addr : bytes;
  routeAddr : bytes; dnsAddr : bytes; dnsAddr2 : bytes; uniqueLocalAddr1 : bytes; uniqueLocalAddr2 : bytes;
  ipv6_status : Z; vectorDnsAddr : list bytes; lifetime : Z; defaultRouteAddr : list bytes;
  IpAddrMap : gmap bytes AddrType;
  validLifetime : Z; preferredLifetime : Z; routeLifetime : Z; tempValidLifetime : Z; tempPreferredLifetime : Z;
  raFlags : Z
}.
Definition eta_info (s : DhcpIpv6Info) : DhcpIpv6Info :=
  mkIpv6Info (linkIpv6Addr s) (globalIpv6Addr s) (ipv6SubnetAddr s) (randIpv6Addr s) (routeAddr s) (dnsAddr s)
    (dnsAddr2 s) (uniqueLocalAddr1 s) (uniqueLocalAddr2 s) (ipv6_status s) (vectorDnsAddr s) (lifetime s)
    (defaultRouteAddr s) (IpAddrMap s) (validLifetime s) (preferredLifetime s) (routeLifetime s)
    (tempValidLifetime s) (tempPreferredLifetime s) (raFlags s).
Ltac set_info proj s v :=
  let e := eval unfold eta_info in (eta_info s) in
  match e with context C [proj s] => let r := context C [v] in exact r end.
Definition set_linkIpv6Addr (v : bytes) (s : DhcpIpv6Info) : DhcpIpv6Info := ltac:(set_info linkIpv6Addr s v).
Definition set_globalIpv6Addr (v : bytes) (s : DhcpIpv6Info) : DhcpIpv6Info := ltac:(set_info globalIpv6Addr s v).
Definition set_ipv6SubnetAddr (v : bytes) (s : DhcpIpv6Info) : DhcpIpv6Info := ltac:(set_info ipv6SubnetAddr s v).
Definition set_randIpv6Addr (v : bytes) (s : DhcpIpv6Info) : DhcpIpv6Info := ltac:(set_info randIpv6Addr s v).
Definition set_routeAddr (v : bytes) (s : DhcpIpv6Info) : DhcpIpv6Info := ltac:(set_info routeAddr s v).
Definition set_dnsAddr (v : bytes) (s : DhcpIpv6Info) : DhcpIpv6Info := ltac:(set_info dnsAddr s v).
Definition set_dnsAddr2 (v : bytes) (s : DhcpIpv6Info) : DhcpIpv6Info := ltac:(set_info dnsAddr2 s v).
Definition set_uniqueLocalAddr1 (v : bytes) (s : DhcpIpv6Info) : DhcpIpv6Info := ltac:(set_info uniqueLocalAddr1 s v).
Definition set_uniqueLocalAddr2 (v : bytes) (s : DhcpIpv6Info) : DhcpIpv6Info := ltac:(set_info uniqueLocalAddr2 s v).
Definition set_ipv6_status (v : Z) (s : DhcpIpv6Info) : DhcpIpv6Info := ltac:(set_info ipv6_status s v).
Definition set_vectorDnsAddr (v : list bytes) (s : DhcpIpv6Info) : DhcpIpv6Info := ltac:(set_info vectorDnsAddr s v).
Definition set_lifetime (v : Z) (s : DhcpIpv6Info) : DhcpIpv6Info := ltac:(set_info lifetime s v).
Definition set_defaultRouteAddr (v : list bytes) (s : DhcpIpv6Info) : DhcpIpv6Info := ltac:(set_info defaultRouteAddr s v).
Definition set_IpAddrMap (v : gmap bytes AddrType) (s : DhcpIpv6Info) : DhcpIpv6Info := ltac:(set_info IpAddrMap s v).
Definition set_validLifetime (v : Z) (s : DhcpIpv6Info) : DhcpIpv6Info := ltac:(set_info validLifetime s v).
Definition set_preferredLifetime (v : Z) (s : DhcpIpv6Info) : DhcpIpv6Info := ltac:(set_info preferredLifetime s v).
Definition set_routeLifetime (v : Z) (s : DhcpIpv6Info) : DhcpIpv6Info := ltac:(set_info routeLifetime s v).
Definition set_tempValidLifetime (v : Z) (s : DhcpIpv6Info) : DhcpIpv6Info := ltac:(set_info tempValidLifetime s v).
Definition set_tempPreferredLifetime (v : Z) (s : DhcpIpv6Info) : DhcpIpv6Info := ltac:(set_info tempPreferredLifetime s v).

(** [memset_s] over a whole array, and the copy of a [std::string] with its
    terminator. *)
Definition memset_128 : bytes := zeros 128.
Definition copy_string (array s : bytes) : bool * bytes :=
  memcpy_s array DHCP_INET6_ADDRSTRLEN (s ++ [0]) (Z.of_nat (length s) + 1).

(** [Clear] leaves [raFlags] as it was. *)
Definition Clear (s : DhcpIpv6Info) : DhcpIpv6Info :=
  mkIpv6Info memset_128 memset_128 memset_128 memset_128 memset_128 memset_128 memset_128 memset_128 memset_128
    0 [] IPV6_LIFETIME_INFINITY [] ∅ IPV6_LIFETIME_INFINITY IPV6_LIFETIME_INFINITY IPV6_LIFETIME_INFINITY
    IPV6_LIFETIME_INFINITY IPV6_LIFETIME_INFINITY (raFlags s).

(** * Default routes *)

(** The loop over the routes: the first that fits is copied. *)
Fixpoint first_route (routes : list bytes) (array : bytes) : bool * bytes :=
  match routes with
  | [] => (false, array)
  | route :: routes =>
      if Z.of_nat (length route) >=? DHCP_INET6_ADDRSTRLEN then first_route routes array
      else
        let (ok, array) := copy_string array route in
        if ok then (true, array) else first_route routes array
  end.

Definition AddRoute (info : DhcpIpv6Info) (route : bytes) : bool * DhcpIpv6Info :=
  if bool_decide (route ∈ defaultRouteAddr info) then (false, info)
  else
    let info := set_defaultRouteAddr (defaultRouteAddr info ++ [route]) info in
    let (copied, array) := first_route (defaultRouteAddr info) memset_128 in
    (copied, set_routeAddr array info).

(** The loop from the last index down that erases every equal route. *)
Fixpoint erase_route (n : nat) (route : bytes) (routes : list bytes) (isChanged : bool) : bool * list bytes :=
  match n with
  | O => (isChanged, routes)
  | S i =>
      if bool_decide (routes !! i = Some route) then erase_route i route (delete i routes) true
      else erase_route i route routes isChanged
  end.

Definition RemoveRoute (info : DhcpIpv6Info) (route : bytes) : bool * DhcpIpv6Info :=
  let info := set_routeAddr memset_128 info in
  if Nat.eqb (length (defaultRouteAddr info)) 0 then (false, info)
  else
    let (isChanged, routes) := erase_route (length (defaultRouteAddr info)) route (defaultRouteAddr info) false in
    let info := set_defaultRouteAddr routes info in
    let (copied, array) := first_route routes memset_128 in
    (copied || isChanged, set_routeAddr array info).

(** * Addresses *)

(** The array a [switch] on the type selects, and its update; none for UNKNOW. *)
Definition type_array (info : DhcpIpv6Info) (type : AddrType) : option bytes :=
  match type with
  | DEFAULT => Some (linkIpv6Addr info)
  | GLOBAL => Some (globalIpv6Addr info)
  | SUBNET => Some (ipv6SubnetAddr info)
  | RAND => Some (randIpv6Addr info)
  | UNIQUE => Some (uniqueLocalAddr1 info)
  | UNIQUE2 => Some (uniqueLocalAddr2 info)
  | UNKNOW => None
  end.
Definition set_type_array (type : AddrType) (v : bytes) (info : DhcpIpv6Info) : DhcpIpv6Info :=
  match type with
  | DEFAULT => set_linkIpv6Addr v info
  | GLOBAL => set_globalIpv6Addr v info
  | SUBNET => set_ipv6SubnetAddr v info
  | RAND => set_randIpv6Addr v info
  | UNIQUE => set_uniqueLocalAddr1 v info
  | UNIQUE2 => set_uniqueLocalAddr2 v info
  | UNKNOW => info
  end.

Definition RemoveAddrInline (info : DhcpIpv6Info) (type : AddrType) : bool * DhcpIpv6Info :=
  match type_array info type with
  | Some _ => (true, set_type_array type memset_128 info)
  | None => (false, info)
  end.

Definition UpdateAddrInline (info : DhcpIpv6Info) (addr : bytes) (type : AddrType) : bool * DhcpIpv6Info :=
  if Nat.eqb (length addr) 0 || (Z.of_nat (length addr) >=? DHCP_INET6_ADDRSTRLEN) then (false, info)
  else
    let (removed, info) := RemoveAddrInline info type in
    if negb removed then (false, info)
    else
      match type_array info type with
      | None => (false, info)
      | Some array => let (ok, array) := copy_string array addr in (ok, set_type_array type array info)
      end.

(** [std::string::operator<], and the items of a [std::map] in its order. *)
Fixpoint string_ltb (a b : bytes) : bool :=
  match a, b with
  | _, [] => false
  | [], _ :: _ => true
  | x :: a, y :: b => (x <? y) || ((x =? y) && string_ltb a b)
  end.
Definition item_le (x y : bytes * AddrType) : Prop := string_ltb (fst y) (fst x) = false.
#[export] Instance item_le_dec : RelDecision item_le.
Proof. intros x y. unfold item_le. apply _. Defined.
Definition map_items (m : gmap bytes AddrType) : list (bytes * AddrType) := merge_sort item_le (map_to_list m).

Fixpoint find_fallback (type : AddrType) (items : list (bytes * AddrType)) (fallback : bytes) : bytes :=
  match items with
  | [] => fallback
  | (addr, t) :: items =>
      find_fallback type items (if bool_decide (t = type) && negb (Nat.eqb (length addr) 0) then addr else fallback)
  end.

Definition getTypeStr (info : DhcpIpv6Info) (type : AddrType) : bytes :=
  match type_array info type with Some array => c_str array | None => [] end.

Definition valid_length (addr : bytes) : bool :=
  negb (Nat.eqb (length addr) 0 || (Z.of_nat (length addr) >? DHCP_INET6_ADDRSTRLEN)).

Definition RemoveAddr (info : DhcpIpv6Info) (addr : bytes) : bool * DhcpIpv6Info :=
  if negb (valid_length addr) then (false, info)
  else
    match IpAddrMap info !! addr with
    | None => (false, info)
    | Some type =>
        let info := set_IpAddrMap (delete addr (IpAddrMap info)) info in
        let currentLatest := getTypeStr info type in
        if negb (Nat.eqb (length currentLatest) 0) && bool_decide (currentLatest = addr) then
          let fallback := find_fallback type (map_items (IpAddrMap info)) [] in
          if negb (Nat.eqb (length fallback) 0) then UpdateAddrInline info fallback type
          else RemoveAddrInline info type
        else (true, info)
    end.

Definition UpdateAddr (info : DhcpIpv6Info) (addr : bytes) (type : AddrType) : bool * DhcpIpv6Info :=
  if negb (valid_length addr) then (false, info)
  else
    let existing := IpAddrMap info !! addr in
    if bool_decide (existing = Some type) then (false, info)
    else
      let info := match existing with Some _ => snd (RemoveAddr info addr) | None => info end in
      let info := set_IpAddrMap (<[addr := type]> (IpAddrMap info)) info in
      UpdateAddrInline info addr type.

(** * Lifetimes *)

Definition AddLifetime (info : DhcpIpv6Info) (value : Z) (type : LifeType) : bool * DhcpIpv6Info :=
  let old := match type with
    | VALID_LIFE => validLifetime info
    | PREF_LIFE => preferredLifetime info
    | ROUTE_LIFE => routeLifetime info
    | TEMP_VALID_LIFE => tempValidLifetime info
    | TEMP_PREF_LIFE => tempPreferredLifetime info
    end in
  if old =? value then (true, info)
  else
    let info := match type with
      | VALID_LIFE => set_validLifetime value info
      | PREF_LIFE => set_preferredLifetime value info
      | ROUTE_LIFE => set_routeLifetime value info
      | TEMP_VALID_LIFE => set_tempValidLifetime value info
      | TEMP_PREF_LIFE => set_tempPreferredLifetime value info
      end in
    (true, set_lifetime (Z.min (tempValidLifetime info) (tempPreferredLifetime info)) info).

(** The result, and the file ModifyKernelFile is given with its content. *)
Definition UpdateUseTempAddr (realpath : bytes -> option bytes) (value : Z) (ifname : bytes)
    : bool * option (bytes * bytes) :=
  if Nat.eqb (length ifname) 0 then (false, None)
  else if value >=? IPV6_LIFETIME_INFINITY then (true, None)
  else
    let path := str "/proc/sys/net/ipv6/conf/" ++ ifname ++ str "/use_tempaddr" in
    if negb (IsValidPath realpath path) then (false, None)
    else if value <? IPV6_LIFETIME_MIN then (false, Some (path, str "1"))
    else (true, Some (path, str "2")).

(** * DNS servers *)

Module DnsServers.

Definition NUM_CURRENT_SERVERS : Z := 3.
Definition NUM_SERVERS : Z := 12.
Definition DEFAULT_MIN_RDNSS_LIFETIME : Z := 120.

Record DnsServerEntry := mkEntry { address : bytes; expiry : Z }.
#[export] Instance DnsServerEntry_dec : EqDecision DnsServerEntry.
Proof. solve_decision. Defined.

Record DnsServerRepository := mkRepository {
  currentServers_ : gset bytes; allServers_ : list DnsServerEntry; minLifetime_ : Z
}.
Definition NewRepository (minLifeTime : Z) : DnsServerRepository := mkRepository ∅ [] (u32 minLifeTime).
Definition ClearRepository (r : DnsServerRepository) : DnsServerRepository := mkRepository ∅ [] (minLifetime_ r).

Definition later (a b : DnsServerEntry) : Prop := expiry b <= expiry a.

(** Orders the standard of the language leaves open. *)
Class StandardLibrary := {
  set_iteration : gset bytes -> list bytes;
  sort_by_expiry : list DnsServerEntry -> list DnsServerEntry
}.
Class StandardLibraryLaws (L : StandardLibrary) := {
  set_iteration_law : forall X, set_iteration X ≡ₚ elements X;
  sort_by_expiry_permutes : forall l, sort_by_expiry l ≡ₚ l;
  sort_by_expiry_sorts : forall l, StronglySorted later (sort_by_expiry l)
}.

Fixpoint UpdateExistingEntry (addr : bytes) (new_expiry : Z) (all : list DnsServerEntry)
    : bool * list DnsServerEntry :=
  match all with
  | [] => (false, [])
  | e :: all =>
      if bool_decide (address e = addr) then (true, mkEntry (address e) new_expiry :: all)
      else let (found, all) := UpdateExistingEntry addr new_expiry all in (found, e :: all)
  end.

(** The loop from the last index down: [n] entries are left to look at. *)
Fixpoint remove_expired (n : nat) (now : Z) (all : list DnsServerEntry) (current : gset bytes) (changed : bool)
    : bool * (list DnsServerEntry * gset bytes) :=
  match n with
  | O => (changed, (all, current))
  | S i =>
      match all !! i with
      | None => (changed, (all, current))
      | Some e =>
          if (Z.of_nat i >=? NUM_SERVERS) || (expiry e <=? now) then
            remove_expired i now (delete i all) (current ∖ {[address e]}) (changed || bool_decide (address e ∈ current))
          else (changed, (all, current))
      end
  end.
Fixpoint fill_current (all : list DnsServerEntry) (current : gset bytes) (changed : bool) : bool * gset bytes :=
  match all with
  | [] => (changed, current)
  | e :: all =>
      if Z.of_nat (base.size current) <? NUM_CURRENT_SERVERS then
        fill_current all (current ∪ {[address e]}) (changed || negb (bool_decide (address e ∈ current)))
      else (changed, current)
  end.
Definition UpdateCurrentServers (now : Z) (r : DnsServerRepository) : bool * DnsServerRepository :=
  if Nat.eqb (length (allServers_ r)) 0 then (false, r)
  else
    let '(changed, (all, current)) :=
      remove_expired (length (allServers_ r)) now (allServers_ r) (currentServers_ r) false in
    let (changed, current) := fill_current all current changed in
    (changed, mkRepository current all (minLifetime_ r)).

Fixpoint add_entries (now new_expiry : Z) (addresses : list bytes) (all : list DnsServerEntry) : list DnsServerEntry :=
  match addresses with
  | [] => all
  | addr :: addresses =>
      let (found, all) := UpdateExistingEntry addr new_expiry all in
      let all := if negb found && (new_expiry >? now) then all ++ [mkEntry addr new_expiry] else all in
      add_entries now new_expiry addresses all
  end.

Section Repository.
Context {L : StandardLibrary}.

(** [now], and [later_now] read by UpdateCurrentServers, are milliseconds. *)
Definition AddServers (now later_now value : Z) (addresses : list bytes) (r : DnsServerRepository)
    : bool * DnsServerRepository :=
  if negb (value =? 0) && (value <? minLifetime_ r) then (false, r)
  else
    let new_expiry := u64 (now + u64 (value * 1000)) in
    let all := sort_by_expiry (add_entries now new_expiry addresses (allServers_ r)) in
    UpdateCurrentServers later_now (mkRepository (currentServers_ r) all (minLifetime_ r)).

(** [strcpy_s] fails on a text that does not fit. *)
Definition strcpy_128 (array s : bytes) : bool * bytes := copy_string array (c_str s).
Fixpoint set_servers (index : Z) (servers : list bytes) (info : DhcpIpv6Info) : bool * DhcpIpv6Info :=
  match servers with
  | [] => (true, info)
  | dnsServer :: servers =>
      let info := set_vectorDnsAddr (vectorDnsAddr info ++ [dnsServer]) info in
      let '(ok, info) :=
        if index =? 0 then let (ok, array) := strcpy_128 (dnsAddr info) dnsServer in (ok, set_dnsAddr array info)
        else if index =? 1 then let (ok, array) := strcpy_128 (dnsAddr2 info) dnsServer in (ok, set_dnsAddr2 array info)
        else (true, info) in
      if ok then set_servers (index + 1) servers info else (false, info)
  end.
Definition SetCurrentServers (r : DnsServerRepository) (info : DhcpIpv6Info) : bool * DhcpIpv6Info :=
  let info := set_dnsAddr2 memset_128 (set_dnsAddr memset_128 (set_vectorDnsAddr [] info)) in
  set_servers 0 (set_iteration (currentServers_ r)) info.
End Repository.
End DnsServers.
