(* ===== verification/Ipv6InfoProperties.v ===== *)
(** The theorems on what the IPv6 client knows: the arrays and the map of
    addresses, the default routes, and the DNS servers in use. *)
From S2P Require Import Prelude AddressUtils CommonUtil Ipv6Info.

(** * Arrays *)

(** A text an array holds: not empty, without a NUL, and short enough. *)
Definition short (a : bytes) : Prop := Z.of_nat (length a) < 128 /\ Forall (fun c => c <> 0) a.
Definition text (a : bytes) : Prop := a <> [] /\ short a.

Lemma c_str_app s r : Forall (fun c => c <> 0) s -> c_str (s ++ 0 :: r) = s.
Proof. induction 1 as [|c s Hc _ IH]; cbn; [done|]. by rewrite (proj2 (Z.eqb_neq c 0) Hc), IH. Qed.

Lemma copy_string_fits array s : Z.of_nat (length s) < 128 ->
  copy_string array s = (true, s ++ 0 :: drop (S (length s)) array).
Proof.
  intros H. unfold copy_string, memcpy_s, DHCP_INET6_ADDRSTRLEN. rewrite (proj2 (Z.leb_le _ _)) by lia.
  replace (Z.to_nat (Z.of_nat (length s) + 1)) with (S (length s)) by lia.
  rewrite take_ge by (rewrite length_app; cbn; lia). by rewrite <- app_assoc.
Qed.
Lemma copied_length array s : length array = 128%nat -> Z.of_nat (length s) < 128 ->
  length (s ++ 0 :: drop (S (length s)) array) = 128%nat.
Proof. intros Ha Hs. rewrite length_app. cbn. rewrite length_drop. lia. Qed.

Lemma type_array_set t v info u : t <> UNKNOW ->
  type_array (set_type_array t v info) u = if bool_decide (u = t) then Some v else type_array info u.
Proof. intros Ht. destruct t; try done; by destruct u. Qed.
Lemma type_array_none info t : type_array info t = None <-> t = UNKNOW.
Proof. by destruct t. Qed.
Lemma map_set_type_array t v info : IpAddrMap (set_type_array t v info) = IpAddrMap info.
Proof. by destruct t. Qed.
Lemma type_array_map m info t : type_array (set_IpAddrMap m info) t = type_array info t.
Proof. by destruct t. Qed.
Lemma shown_map m info t : getTypeStr (set_IpAddrMap m info) t = getTypeStr info t.
Proof. by destruct t. Qed.
Lemma shown_unknow info : getTypeStr info UNKNOW = [].
Proof. done. Qed.
Lemma memset_length : length memset_128 = 128%nat.
Proof. done. Qed.

(** * Addresses *)

(** The addresses are texts, and each array shows one of the addresses of its type when
    there is one. *)
Definition arrays_wf (info : DhcpIpv6Info) : Prop :=
  forall t array, type_array info t = Some array -> length array = 128%nat.
Record mirrored (info : DhcpIpv6Info) : Prop := {
  m_keys : forall a t, IpAddrMap info !! a = Some t -> text a;
  m_arrays : arrays_wf info;
  m_shown : forall t, getTypeStr info t = [] \/ IpAddrMap info !! getTypeStr info t = Some t;
  m_full : forall t a, IpAddrMap info !! a = Some t -> t <> UNKNOW -> getTypeStr info t <> []
}.

Lemma arrays_set t v info : arrays_wf info -> length v = 128%nat -> arrays_wf (set_type_array t v info).
Proof.
  intros W Hv u array. destruct (decide (t = UNKNOW)) as [->|Ht]; [apply W|].
  rewrite type_array_set by done. case_bool_decide; [by intros [= <-]|apply W].
Qed.

(** The effect of the two inline functions. *)
Lemma RemoveAddrInline_spec info t : t <> UNKNOW ->
  RemoveAddrInline info t = (true, set_type_array t memset_128 info).
Proof. intros Ht. unfold RemoveAddrInline. by destruct t. Qed.

Definition shows (info : DhcpIpv6Info) (t : AddrType) (a : bytes) (info' : DhcpIpv6Info) : Prop :=
  IpAddrMap info' = IpAddrMap info /\ (arrays_wf info -> arrays_wf info') /\
  forall u, getTypeStr info' u = if bool_decide (u = t) then a else getTypeStr info u.

Lemma shows_set info t a v : t <> UNKNOW -> c_str v = a -> length v = 128%nat -> shows info t a (set_type_array t v info).
Proof.
  intros Ht Ha Hv. split; [apply map_set_type_array|split; [by intros W; apply arrays_set|]]. intros u.
  unfold getTypeStr. rewrite type_array_set by done. by case_bool_decide.
Qed.

Lemma UpdateAddrInline_spec info a t : text a -> t <> UNKNOW ->
  exists info', UpdateAddrInline info a t = (true, info') /\ shows info t a info'.
Proof.
  intros (Hne & Hl & Hz) Ht. unfold UpdateAddrInline. destruct a as [|c a]; [done|].
  cbn [length Nat.eqb orb]. unfold DHCP_INET6_ADDRSTRLEN. rewrite Z.geb_leb, (proj2 (Z.leb_gt _ _)) by (cbn in Hl; lia).
  rewrite RemoveAddrInline_spec by done. cbn [negb]. rewrite type_array_set, bool_decide_true by done.
  rewrite copy_string_fits by done. eexists; split; [done|].
  assert (S : shows (set_type_array t memset_128 info) t (c :: a)
    (set_type_array t ((c :: a) ++ 0 :: drop (S (length (c :: a))) memset_128) (set_type_array t memset_128 info))).
  { apply shows_set; [done|by apply c_str_app|]. by apply copied_length. }
  destruct S as (S1 & S2 & S3). split; [by rewrite S1, map_set_type_array|]. split.
  - intros W. by apply S2, arrays_set.
  - intros u. rewrite S3. case_bool_decide; [done|]. destruct (shows_set info t [] memset_128 Ht) as (_ & _ & E); [done..|].
    rewrite E. by rewrite bool_decide_false.
Qed.
Lemma UpdateAddrInline_unknow info a : UpdateAddrInline info a UNKNOW = (false, info).
Proof. unfold UpdateAddrInline. by destruct (_ || _). Qed.

(** The address RemoveAddr falls back on. *)
Lemma find_fallback_found t items acc : (forall a u, (a, u) ∈ items -> a <> []) ->
  let r := find_fallback t items acc in (r = acc /\ forall a, (a, t) ∉ items) \/ (r <> [] /\ (r, t) ∈ items).
Proof.
  revert acc. induction items as [|[a u] items IH]; intros acc Hn; cbn [find_fallback]; [left; set_solver|].
  assert (Ha : a <> []) by (apply (Hn a u); left).
  replace (negb (Nat.eqb (length a) 0)) with true by (by destruct a). rewrite andb_true_r.
  specialize (IH (if bool_decide (u = t) then a else acc)) as [[E N]|[E I]]; [intros b v Hb; apply (Hn b v); by right| |].
  - rewrite E. case_bool_decide as D; [right; subst; set_solver|left; split; [done|]].
    intros b [Hb|Hb]%elem_of_cons; [congruence|by apply (N b)].
  - right. split; [done|by right].
Qed.

Lemma fallback_spec m t : (forall a u, m !! a = Some u -> a <> []) ->
  let r := find_fallback t (map_items m) [] in
  (r = [] /\ forall a, m !! a <> Some t) \/ (r <> [] /\ m !! r = Some t).
Proof.
  intros H. assert (P : forall a u, (a, u) ∈ map_items m <-> m !! a = Some u).
  { intros a u. unfold map_items. rewrite merge_sort_Permutation. apply elem_of_map_to_list. }
  destruct (find_fallback_found t (map_items m) []) as [[E N]|[E I]].
  - intros a u Hi%P. by apply (H a u).
  - left. split; [done|]. intros a Ha%P. by apply (N a).
  - right. split; [done|by apply P].
Qed.

Lemma valid_text a : text a -> valid_length a = true.
Proof.
  intros (Hn & Hl & _). unfold valid_length, DHCP_INET6_ADDRSTRLEN. destruct a; [done|].
  cbn [length Nat.eqb orb]. rewrite Z.gtb_ltb, (proj2 (Z.ltb_ge _ _)); [done|]. cbn in *. lia.
Qed.

Lemma RemoveAddr_spec info a : mirrored info -> text a ->
  exists info', RemoveAddr info a = (bool_decide (is_Some (IpAddrMap info !! a)), info') /\
    IpAddrMap info' = delete a (IpAddrMap info) /\ mirrored info'.
Proof.
  intros [K W S F] Ta. unfold RemoveAddr. rewrite valid_text by done. cbn [negb].
  destruct (IpAddrMap info !! a) as [t|] eqn:E.
  2:{ exists info. rewrite bool_decide_false by (intros [? ?]; done). by rewrite delete_id. }
  rewrite (bool_decide_true (is_Some (Some t))) by done. set (m := delete a (IpAddrMap info)). set (info1 := set_IpAddrMap m info).
  assert (Km : forall b u, m !! b = Some u -> IpAddrMap info !! b = Some u /\ b <> a).
  { intros b u [? ?]%lookup_delete_Some. done. }
  rewrite (shown_map m info t : getTypeStr info1 t = _).
  assert (Others : forall u, u <> t -> getTypeStr info u = [] \/ m !! getTypeStr info u = Some u).
  { intros u Hu. destruct (S u) as [?|Hs]; [by left|right]. apply lookup_delete_Some. split; [|done]. intros ->. congruence. }
  destruct (negb (Nat.eqb (length (getTypeStr info t)) 0) && bool_decide (getTypeStr info t = a)) eqn:C.
  - apply andb_prop in C as [_ Hs%bool_decide_eq_true].
    assert (Ht : t <> UNKNOW) by (intros ->; destruct Ta as [Ha _]; by rewrite <- Hs in Ha).
    change (IpAddrMap info1) with m.
    assert (Fm : forall b u, m !! b = Some u -> b <> []) by (intros b u [Hb _]%Km; by apply K in Hb as []).
    assert (Fin : forall info' b, shows info1 t b info' -> (b = [] /\ (forall c, m !! c <> Some t)) \/ m !! b = Some t /\ b <> [] ->
      IpAddrMap info' = m /\ mirrored info').
    { intros info' b (E1 & E2 & E3) Hb. split; [done|]. split.
      - rewrite E1. intros c u [Hc _]%Km. by apply (K c u).
      - apply E2. intros u array. unfold info1. rewrite type_array_map. apply W.
      - intros u. rewrite E1, E3. case_bool_decide as D; [destruct Hb as [[-> _]|[? _]]; subst; auto|].
        unfold info1. rewrite shown_map. by apply Others.
      - intros u c. rewrite E1, E3. intros Hc Hu. case_bool_decide as D; [subst u; destruct Hb as [[_ N]|[_ ?]]; [by destruct (N c)|done]|].
        unfold info1. rewrite shown_map. apply (F u c); [by apply Km|done]. }
    destruct (fallback_spec m t Fm) as [[-> N]|[Hn Hm]]; cbn [length Nat.eqb negb].
    + rewrite RemoveAddrInline_spec by done. eexists; split; [done|].
      apply (Fin _ []); [by apply shows_set|auto].
    + assert (Tf : text (find_fallback t (map_items m) [])) by (apply Km in Hm as [Hm _]; by apply K in Hm).
      destruct (UpdateAddrInline_spec info1 _ t Tf Ht) as (info' & -> & Hs').
      destruct (find_fallback t (map_items m) []) as [|c f] eqn:Ef; [done|]. cbn [length Nat.eqb negb].
      eexists; split; [done|]. apply (Fin _ (c :: f)); auto.
  - exists info1. split; [done|]. split; [done|]. split.
    + intros b u [Hb _]%Km. by apply (K b u).
    + intros u array. unfold info1. rewrite type_array_map. apply W.
    + intros u. unfold info1 at 1 2. rewrite shown_map. destruct (decide (u = t)) as [->|Hu]; [|by apply Others].
      destruct (S t) as [?|Hs]; [by left|right]. apply lookup_delete_Some. split; [|done]. intros Ha.
      rewrite <- Ha, bool_decide_true, andb_true_r in C by done. destruct Ta as [Hn _]. by destruct a, (getTypeStr info t).
    + intros u b [Hb _]%Km Hu. unfold info1. rewrite shown_map. by apply (F u b).
Qed.

Lemma UpdateAddr_spec info a t : mirrored info -> text a ->
  exists info', UpdateAddr info a t =
      (negb (bool_decide (IpAddrMap info !! a = Some t)) && negb (bool_decide (t = UNKNOW)), info') /\
    IpAddrMap info' = <[a := t]> (IpAddrMap info) /\ mirrored info' /\
    (IpAddrMap info !! a <> Some t -> t <> UNKNOW -> getTypeStr info' t = a).
Proof.
  intros H Ta. unfold UpdateAddr. rewrite valid_text by done. cbn [negb]. case_bool_decide as D.
  { exists info. by rewrite insert_id. }
  set (info0 := match IpAddrMap info !! a with Some _ => snd (RemoveAddr info a) | None => info end).
  assert (P : mirrored info0 /\ IpAddrMap info0 = delete a (IpAddrMap info)).
  { unfold info0. destruct (IpAddrMap info !! a) eqn:E; [|by rewrite delete_id].
    by destruct (RemoveAddr_spec info a H Ta) as (i & -> & ? & ?). }
  destruct P as ([K W S F] & E0). set (m := <[a:=t]> (IpAddrMap info0)). set (info1 := set_IpAddrMap m info0).
  assert (Em : m = <[a:=t]> (IpAddrMap info)) by (unfold m; by rewrite E0, insert_delete_eq).
  assert (Km : forall b u, m !! b = Some u -> text b).
  { intros b u [[-> _]|[_ Hb]]%lookup_insert_Some; [done|by apply (K b u)]. }
  assert (S' : forall u, getTypeStr info0 u = [] \/ m !! getTypeStr info0 u = Some u).
  { intros u. destruct (S u) as [?|Hs]; [by left|right]. apply lookup_insert_Some. right. split; [|done]. intros Ha.
    by rewrite <- Ha, E0, lookup_delete_eq in Hs. }
  destruct (decide (t = UNKNOW)) as [->|Ht].
  - rewrite UpdateAddrInline_unknow. exists info1. split; [done|]. split; [done|]. split; [|done]. split.
    + done.
    + intros u array. unfold info1. rewrite type_array_map. apply W.
    + intros u. unfold info1 at 1 2. rewrite shown_map. apply S'.
    + change (IpAddrMap info1) with m. intros u b [[_ ->]|[_ Hb]]%lookup_insert_Some Hu; [done|]. unfold info1. rewrite shown_map. by apply (F u b).
  - destruct (UpdateAddrInline_spec info1 a t Ta Ht) as (info' & -> & E1 & E2 & E3). exists info'.
    rewrite bool_decide_false by done. split; [done|]. split; [by rewrite E1|].
    split; [|by intros; rewrite E3, bool_decide_true]. split.
    + by rewrite E1.
    + apply E2. intros u array. unfold info1. rewrite type_array_map. apply W.
    + intros u. rewrite E1, E3. case_bool_decide as Du; [right; subst; apply lookup_insert_eq|].
      unfold info1 at 1 2. rewrite shown_map. apply S'.
    + intros u b. rewrite E1, E3. intros Hb Hu. case_bool_decide as Du; [by destruct Ta|]. unfold info1. rewrite shown_map.
      change (IpAddrMap info1) with m in Hb. apply lookup_insert_Some in Hb as [[_ ?]|[_ Hb]]; [done|by apply (F u b)].
Qed.

(** The uses of the two operations, and what they mean for the map. *)
Inductive addr_call := updated (a : bytes) (t : AddrType) | removed (a : bytes).
Definition call_text (c : addr_call) : Prop := match c with updated a _ | removed a => text a end.
Definition addr_step (info : DhcpIpv6Info) (c : addr_call) : bool * DhcpIpv6Info :=
  match c with updated a t => UpdateAddr info a t | removed a => RemoveAddr info a end.
Definition map_step (m : gmap bytes AddrType) (c : addr_call) : bool * gmap bytes AddrType :=
  match c with
  | updated a t => (negb (bool_decide (m !! a = Some t)) && negb (bool_decide (t = UNKNOW)), <[a := t]> m)
  | removed a => (bool_decide (is_Some (m !! a)), delete a m)
  end.
Fixpoint run_calls {S C} (step : S -> C -> bool * S) (s : S) (l : list C) : list bool * S :=
  match l with
  | [] => ([], s)
  | c :: l => let (b, s) := step s c in let (bs, s) := run_calls step s l in (b :: bs, s)
  end.

Lemma mirrored_clear info : mirrored (Clear info).
Proof.
  split; cbn.
  - intros a t. by rewrite lookup_empty.
  - by intros [] array [= <-].
  - intros t. left. by destruct t.
  - intros t a. by rewrite lookup_empty.
Qed.

Lemma calls_mirror l : Forall call_text l -> forall info, mirrored info ->
  exists info', run_calls addr_step info l = (fst (run_calls map_step (IpAddrMap info) l), info') /\
    IpAddrMap info' = snd (run_calls map_step (IpAddrMap info) l) /\ mirrored info'.
Proof.
  induction 1 as [|c l Hc _ IH]; intros info Hi; [by exists info|]. cbn [run_calls].
  destruct c as [a t|a]; cbn [addr_step map_step].
  - destruct (UpdateAddr_spec info a t Hi Hc) as (i & -> & E & Mi & _).
    destruct (IH i Mi) as (i' & -> & E' & Mi'). exists i'. rewrite E in *. by destruct (run_calls map_step _ _).
  - destruct (RemoveAddr_spec info a Hi Hc) as (i & -> & E & Mi).
    destruct (IH i Mi) as (i' & -> & E' & Mi'). exists i'. rewrite E in *. by destruct (run_calls map_step _ _).
Qed.

(** C20: The addresses the kernel reports, in any order and under any types, are
    kept as a map would: the operations report whether they changed something,
    and each array of the public structure always shows an address of its type
    that is still there, as long as there is one, also after the shown address
    is removed. *)
Theorem addresses_mirrored l info : Forall call_text l ->
  exists info', run_calls addr_step (Clear info) l = (fst (run_calls map_step ∅ l), info') /\
    IpAddrMap info' = snd (run_calls map_step ∅ l) /\
    forall t, t <> UNKNOW ->
      (getTypeStr info' t <> [] -> IpAddrMap info' !! getTypeStr info' t = Some t) /\
      ((exists a, IpAddrMap info' !! a = Some t) -> getTypeStr info' t <> []).
Proof.
  intros Hl. destruct (calls_mirror l Hl _ (mirrored_clear info)) as (i & E & Em & [K W S F]).
  exists i. split; [done|]. split; [done|]. intros t Ht. split.
  - intros Hn. by destruct (S t).
  - intros [a Ha]. by apply (F t a).
Qed.

Definition sample_info : DhcpIpv6Info := mkIpv6Info [] [] [] [] [] [] [] [] [] 0 [] 0 [] ∅ 0 0 0 0 0 0.
Definition sample_calls : list addr_call :=
  [updated (str "2001::1") GLOBAL; updated (str "2001::2") GLOBAL; removed (str "2001::2");
   updated (str "2001::1") RAND; removed (str "fe80::1")].
Lemma check_text s : forallb (fun c => negb (c =? 0)) s && negb (Nat.eqb (length s) 0) && Nat.ltb (length s) 128 = true -> text s.
Proof.
  intros [[H1 H2]%andb_prop H3]%andb_prop. split; [by destruct s|]. apply Nat.ltb_lt in H3. split; [lia|].
  apply List.Forall_forall. intros c Hc. rewrite forallb_forall in H1. apply H1 in Hc. by btauto_hyps.
Qed.
Lemma addresses_mirrored_witness :
  Forall call_text sample_calls /\ exists info', run_calls addr_step (Clear sample_info) sample_calls =
    ([true; true; true; true; false], info') /\ getTypeStr info' RAND = str "2001::1" /\ getTypeStr info' GLOBAL = [].
Proof.
  assert (H : Forall call_text sample_calls) by (repeat first [apply Forall_nil_2 | apply Forall_cons_2; [by apply check_text|]]).
  split; [done|]. destruct (addresses_mirrored sample_calls sample_info H) as (i & E & _ & _).
  exists i. rewrite E. split; [by vm_compute|].
  assert (D : i = snd (run_calls addr_step (Clear sample_info) sample_calls)) by (by rewrite E).
  rewrite D. split; vm_compute; reflexivity.
Defined.

(** * Default routes *)

Inductive route_call := route_added (r : bytes) | route_removed (r : bytes).
Definition route_text (c : route_call) : Prop := match c with route_added r | route_removed r => text r end.
Definition route_step (info : DhcpIpv6Info) (c : route_call) : bool * DhcpIpv6Info :=
  match c with route_added r => AddRoute info r | route_removed r => RemoveRoute info r end.
Definition routes_step (l : list bytes) (c : route_call) : bool * list bytes :=
  match c with
  | route_added r => if bool_decide (r ∈ l) then (false, l) else (true, l ++ [r])
  | route_removed r => (negb (Nat.eqb (length l) 0), filter (fun x => x <> r) l)
  end.

Record routed (info : DhcpIpv6Info) : Prop := {
  r_texts : Forall text (defaultRouteAddr info);
  r_distinct : NoDup (defaultRouteAddr info);
  r_shown : c_str (routeAddr info) = default [] (head (defaultRouteAddr info))
}.

Lemma first_route_spec routes array : Forall text routes ->
  exists array', first_route routes array = (negb (Nat.eqb (length routes) 0), array') /\
    match routes with [] => array' = array | r :: _ => c_str array' = r end.
Proof.
  intros H. destruct routes as [|r routes]; [by exists array|]. apply Forall_cons in H as [(Hn & Hl & Hz) _]. cbn [first_route].
  unfold DHCP_INET6_ADDRSTRLEN. rewrite Z.geb_leb, (proj2 (Z.leb_gt _ _)) by done. rewrite copy_string_fits by done.
  eexists; split; [done|]. by apply c_str_app.
Qed.

Lemma erase_route_spec r n l b : (n <= length l)%nat ->
  exists b', erase_route n r l b = (b', filter (fun x => x <> r) (take n l) ++ drop n l) /\
    (b' = true <-> b = true \/ r ∈ take n l).
Proof.
  revert l b. induction n as [|n IH]; intros l b Hn; cbn [erase_route].
  { exists b. rewrite drop_0. split; [done|]. cbn. set_solver. }
  destruct (lookup_lt_is_Some_2 l n) as [x Hx]; [lia|].
  assert (T : take (S n) l = take n l ++ [x]) by (by apply take_S_r). rewrite T, filter_app, filter_cons, filter_nil.
  rewrite Hx. destruct (decide (x = r)) as [->|D].
  - rewrite bool_decide_true, decide_False by (done || tauto).
    destruct (IH (delete n l) true) as (b' & E & Hb); [rewrite length_delete by eauto; lia|].
    exists b'. rewrite E. rewrite delete_take_drop, take_app_length', drop_app_length', app_nil_r by (rewrite length_take; lia). split; [done|].
    rewrite Hb. set_solver.
  - rewrite bool_decide_false, decide_True by (done || congruence).
    destruct (IH l b) as (b' & E & Hb); [lia|]. exists b'. rewrite E, (drop_S l x n Hx). split.
    + by rewrite <- app_assoc.
    + rewrite Hb. set_solver.
Qed.

Lemma route_step_spec info c : routed info -> route_text c ->
  exists info', route_step info c = (fst (routes_step (defaultRouteAddr info) c), info') /\
    defaultRouteAddr info' = snd (routes_step (defaultRouteAddr info) c) /\ routed info'.
Proof.
  intros [T N S] Hc. destruct c as [r|r]; cbn [route_step routes_step route_text] in *.
  - unfold AddRoute. case_bool_decide as D; [by exists info|].
    assert (T' : Forall text (defaultRouteAddr info ++ [r])) by (apply Forall_app; auto).
    destruct (first_route_spec (defaultRouteAddr info ++ [r]) memset_128 T') as (array & E & Ha).
    cbn [set_defaultRouteAddr defaultRouteAddr]. rewrite E, length_app. cbn [length]. rewrite Nat.add_comm. cbn [Nat.add Nat.eqb negb].
    eexists; split; [done|]. split; [done|]. split; cbn; [done| |].
    + apply NoDup_app. split; [done|]. split; [set_solver|apply NoDup_singleton].
    + destruct (defaultRouteAddr info); cbn in *; done.
  - unfold RemoveRoute. cbn [set_routeAddr defaultRouteAddr]. destruct (Nat.eqb (length (defaultRouteAddr info)) 0) eqn:E0.
    + apply Nat.eqb_eq, length_zero_iff_nil in E0. eexists; split; [done|]. cbn. rewrite E0. split; [done|].
      split; cbn; rewrite ?E0; [done|constructor|done].
    + destruct (erase_route_spec r (length (defaultRouteAddr info)) (defaultRouteAddr info) false) as (b & E & Hb); [done|].
      rewrite E, firstn_all, drop_all, app_nil_r. set (l := filter _ _).
      assert (Tl : Forall text l) by (apply Forall_forall; intros x [_ Hx]%list_elem_of_filter; by eapply Forall_forall in T).
      destruct (first_route_spec l memset_128 Tl) as (array & -> & Ha).
      assert (Hres : negb (Nat.eqb (length l) 0) || b = true).
      { destruct l as [|x l0] eqn:El; [|done]. cbn. apply Hb. right. rewrite firstn_all.
        destruct (defaultRouteAddr info) as [|y l'] eqn:Er; [done|].
        destruct (decide (y = r)) as [->|D]; [left|]. unfold l in El. by rewrite filter_cons, decide_True in El. }
      rewrite Hres. eexists; split; [done|]. split; [done|]. split; cbn; [done|by apply (NoDup_filter _ _ N)|]. by destruct l as [|x l0]; [rewrite Ha|].
Qed.

Lemma route_calls l : Forall route_text l -> forall info, routed info ->
  exists info', run_calls route_step info l = (fst (run_calls routes_step (defaultRouteAddr info) l), info') /\
    defaultRouteAddr info' = snd (run_calls routes_step (defaultRouteAddr info) l) /\ routed info'.
Proof.
  induction 1 as [|c l Hc _ IH]; intros info Hi; [by exists info|]. cbn [run_calls].
  destruct (route_step_spec info c Hi Hc) as (i & -> & E & Ri).
  destruct (IH i Ri) as (i' & -> & E' & Ri'). exists i'. rewrite E in *.
  destruct (routes_step _ c) as [b s]. cbn [snd fst] in *. by destruct (run_calls routes_step s l).
Qed.

(** The default routes are kept in the order of their arrival, each once, and the
    public structure shows the oldest that was not removed; a removal reports a
    change whenever there was a route at all, also when it removes none. *)
Theorem routes_kept l info : Forall route_text l ->
  exists info', run_calls route_step (Clear info) l = (fst (run_calls routes_step [] l), info') /\
    defaultRouteAddr info' = snd (run_calls routes_step [] l) /\ NoDup (defaultRouteAddr info') /\
    c_str (routeAddr info') = default [] (head (defaultRouteAddr info')).
Proof.
  intros Hl. destruct (route_calls l Hl (Clear info)) as (i & E & El & [T N S]); [by split; [constructor|constructor|]|].
  by exists i.
Qed.
Lemma routes_kept_witness :
  Forall route_text [route_added (str "fe80::1"); route_added (str "fe80::2"); route_removed (str "fe80::9"); route_removed (str "fe80::1")] /\
  exists info', run_calls route_step (Clear sample_info)
    [route_added (str "fe80::1"); route_added (str "fe80::2"); route_removed (str "fe80::9"); route_removed (str "fe80::1")]
    = ([true; true; true; true], info') /\ c_str (routeAddr info') = str "fe80::2".
Proof.
  set (l := [_; _; _; _]).
  assert (H : Forall route_text l) by (repeat first [apply Forall_nil_2 | apply Forall_cons_2; [by apply check_text|]]).
  split; [done|]. destruct (routes_kept l sample_info H) as (i & E & D & _ & S). exists i. split; [by rewrite E; vm_compute|].
  rewrite S, D. by vm_compute.
Defined.

(** * DNS servers *)

Section Dns.
Import DnsServers.
Context {L : StandardLibrary} {LL : StandardLibraryLaws L}.

Definition addresses_of (all : list DnsServerEntry) : list bytes := map address all.
(** The servers known, as a map from addresses to expiry times. *)
Definition table (all : list DnsServerEntry) : gmap bytes Z := list_to_map (map (fun e => (address e, expiry e)) all).

Lemma table_lookup all e : NoDup (addresses_of all) -> e ∈ all <-> table all !! address e = Some (expiry e).
Proof.
  intros N. unfold table. rewrite <- elem_of_list_to_map by (by rewrite <- list_fmap_compose).
  split.
  - intros H. apply list_elem_of_fmap. by exists e.
  - intros ([a x] & [= Ea Ex] & H)%list_elem_of_fmap. destruct e. cbn in *. by subst.
Qed.
Lemma table_dom all a : is_Some (table all !! a) <-> a ∈ addresses_of all.
Proof.
  unfold table. rewrite <- elem_of_dom, dom_list_to_map_L, elem_of_list_to_set.
  unfold addresses_of. by rewrite <- list_fmap_compose.
Qed.
Lemma table_permutation all all' : NoDup (addresses_of all) -> all ≡ₚ all' -> table all = table all'.
Proof.
  intros N P. apply list_to_map_proper; [by rewrite <- list_fmap_compose|]. by apply Permutation_map.
Qed.

Lemma UpdateExistingEntry_spec a x all :
  let r := UpdateExistingEntry a x all in
  fst r = bool_decide (a ∈ addresses_of all) /\ addresses_of (snd r) = addresses_of all /\
  table (snd r) = if fst r then <[a := x]> (table all) else table all.
Proof.
  induction all as [|e all (IH1 & IH2 & IH3)]; cbn [UpdateExistingEntry].
  { cbn. by rewrite bool_decide_false by set_solver. }
  destruct (decide (address e = a)) as [D|D]; [rewrite (bool_decide_true (address e = a)) by done; cbn|
    rewrite (bool_decide_false (address e = a)) by done].
  - rewrite bool_decide_true by (subst a; left). split; [done|]. split; [done|]. unfold table. cbn. rewrite D.
    by rewrite insert_insert_eq.
  - destruct (UpdateExistingEntry a x all) as [found all']. cbn in *. split.
    + rewrite IH1. apply bool_decide_ext. rewrite elem_of_cons. naive_solver.
    + split; [by rewrite IH2|]. unfold table in *. cbn. rewrite IH3. destruct found; [|done]. by rewrite insert_insert_ne.
Qed.

(** One announced address: an entry is renewed, or made when it lasts. *)
Definition announce (now x : Z) (m : gmap bytes Z) (a : bytes) : gmap bytes Z :=
  if bool_decide (is_Some (m !! a)) || (x >? now) then <[a := x]> m else m.

Lemma add_entries_spec now x l all : NoDup (addresses_of all) ->
  NoDup (addresses_of (add_entries now x l all)) /\
  table (add_entries now x l all) = fold_left (announce now x) l (table all) /\
  (forall a, a ∈ addresses_of all -> a ∈ addresses_of (add_entries now x l all)).
Proof.
  revert all. induction l as [|a l IH]; intros all N; cbn [add_entries fold_left]; [by split; [|split]|].
  pose proof (UpdateExistingEntry_spec a x all) as (F & A & T). destruct (UpdateExistingEntry a x all) as [found all1].
  cbn [fst snd] in *. assert (Ha : announce now x (table all) a = if found || (x >? now) then <[a:=x]> (table all) else table all).
  { unfold announce. rewrite F. by rewrite (bool_decide_ext _ _ (table_dom all a)). }
  rewrite Ha. destruct found; cbn [negb andb orb].
  - destruct (IH all1) as (H1 & H2 & H3); [by rewrite A|]. rewrite H2, T. split; [done|]. split; [done|].
    intros b Hb. apply H3. by rewrite A.
  - symmetry in F. apply bool_decide_eq_false in F. destruct (x >? now).
    + assert (Ea : addresses_of (all1 ++ [mkEntry a x]) = addresses_of all ++ [a]) by (unfold addresses_of in *; by rewrite map_app, A).
      destruct (IH (all1 ++ [mkEntry a x])) as (H1 & H2 & H3).
      { rewrite Ea. apply NoDup_app. split; [done|]. split; [set_solver|apply NoDup_singleton]. }
      split; [done|]. split; [|intros b Hb; apply H3; rewrite Ea; set_solver]. rewrite H2. f_equal.
      unfold table. rewrite map_app, list_to_map_app. cbn. fold (table all1). rewrite T.
      rewrite <- insert_union_r; [by rewrite map_union_empty|]. apply eq_None_not_Some. by rewrite table_dom.
    + destruct (IH all1) as (H1 & H2 & H3); [by rewrite A|]. rewrite H2, T. split; [done|]. split; [done|].
      intros b Hb. apply H3. by rewrite A.
Qed.

(** The entries kept are the first twelve that have not expired. *)
Lemma remove_expired_spec now all cur b : StronglySorted later all ->
  exists kept dropped b', all = kept ++ dropped /\
    remove_expired (length all) now all cur b = (b', (kept, cur ∖ list_to_set (addresses_of dropped))) /\
    (b' = true <-> b = true \/ exists a, a ∈ cur /\ a ∈ addresses_of dropped) /\
    (length kept <= 12)%nat /\ Forall (fun e => now < expiry e) kept /\
    ((length kept < 12)%nat -> Forall (fun e => expiry e <= now) dropped).
Proof.
  revert cur b. induction all as [|e all IH] using rev_ind; intros cur b S.
  { exists [], [], b. cbn. split; [done|]. split; [f_equal; f_equal; set_solver|]. split; [set_solver|]. split; [lia|].
    split; constructor. }
  assert (S' : StronglySorted later all) by (by apply StronglySorted_app in S as (_ & ? & _)).
  rewrite length_app, Nat.add_comm. cbn [length Nat.add remove_expired]. rewrite lookup_app_r, Nat.sub_diag by lia. cbn [lookup list_lookup].
  replace (delete (length all) (all ++ [e])) with all by (rewrite delete_middle, app_nil_r; done).
  destruct ((Z.of_nat (length all) >=? NUM_SERVERS) || (expiry e <=? now)) eqn:C.
  - destruct (IH (cur ∖ {[address e]}) (b || bool_decide (address e ∈ cur)) S') as (kept & dropped & b' & E & R & Hb & Hl & Hk & Hd).
    exists kept, (dropped ++ [e]), b'. split; [by rewrite app_assoc, <- E|]. rewrite R. split; [|split; [|split; [done|split; [done|]]]].
    + f_equal. f_equal. unfold addresses_of. rewrite map_app, list_to_set_app_L. cbn. set_solver.
    + rewrite Hb, orb_true_iff, bool_decide_eq_true. unfold addresses_of. rewrite map_app. cbn.
      split; [intros [[?|?]|?]; set_solver|]. intros [?|(a & Ha & Hx)]; [auto|].
      destruct (decide (a = address e)) as [->|D]; [auto|]. right. exists a. set_solver.
    + intros Hlt. apply Forall_app. split; [by apply Hd|]. apply Forall_singleton.
      apply orb_prop in C as [C|C]; [|by apply Z.leb_le]. rewrite Z.geb_leb in C. apply Z.leb_le in C. unfold NUM_SERVERS in C.
      assert (dropped <> []) by (intros ->; rewrite app_nil_r in E; subst; lia).
      destruct dropped as [|d dropped]; [done|]. apply Hd, Forall_cons in Hlt as [Hd0 _].
      apply StronglySorted_app in S as (S1 & _ & _). rewrite E in S1. specialize (S1 d e). unfold later in S1.
      assert (expiry e <= expiry d); [|lia]. apply S1; set_solver.
  - apply orb_false_elim in C as [C1 C2]. rewrite Z.geb_leb in C1. apply Z.leb_gt in C1, C2. unfold NUM_SERVERS in C1.
    exists (all ++ [e]), [], b. rewrite app_nil_r. split; [done|]. split; [f_equal; f_equal; set_solver|].
    split; [set_solver|]. rewrite length_app. cbn. split; [lia|]. split; [|constructor].
    apply Forall_app. split; [|by apply Forall_singleton]. apply StronglySorted_app in S as (S1 & _ & _).
    apply Forall_forall. intros d Hd. specialize (S1 d e). unfold later in S1. assert (expiry e <= expiry d); [|lia].
    apply S1; [done|set_solver].
Qed.

Lemma size_singleton_difference (a : bytes) (X : gset bytes) : (size ({[a]} ∖ X) <= 1)%nat.
Proof. rewrite <- (size_singleton (C := gset bytes) a). apply subseteq_size. set_solver. Qed.

Lemma fill_current_spec all cur b : NoDup (addresses_of all) -> (size cur <= 3)%nat ->
  exists b' cur', fill_current all cur b = (b', cur') /\
    cur ⊆ cur' /\ cur' ⊆ cur ∪ list_to_set (addresses_of all) /\ (size cur' <= 3)%nat /\
    (b' = true <-> b = true \/ cur' <> cur) /\
    ((size cur' < 3)%nat -> forall a, a ∈ addresses_of all -> a ∈ cur') /\
    (forall l1 e l2 e', all = l1 ++ e :: l2 -> e' ∈ l2 -> address e' ∈ cur' -> address e' ∉ cur -> address e ∈ cur').
Proof.
  revert cur b. induction all as [|e all IH]; intros cur b N Hs; cbn [fill_current].
  { exists b, cur. split; [done|]. split; [done|]. split; [set_solver|]. split; [done|]. split; [tauto|]. split; [set_solver|].
    by intros [] ? ? ?. }
  apply NoDup_cons in N as [Ne N].
  destruct (Z.of_nat (size cur) <? NUM_CURRENT_SERVERS) eqn:C.
  - apply Z.ltb_lt in C. unfold NUM_CURRENT_SERVERS in C.
    assert (Hs' : (size (cur ∪ {[address e]}) <= 3)%nat).
    { rewrite size_union_alt. pose proof (size_singleton_difference (address e) cur). lia. }
    destruct (IH _ (b || negb (bool_decide (address e ∈ cur))) N Hs') as (b' & cur' & -> & H1 & H2 & H3 & H4 & H5 & H6).
    exists b', cur'. split; [done|]. split; [set_solver|]. split; [cbn; set_solver|]. split; [done|]. split; [|split].
    + rewrite H4, orb_true_iff, negb_true_iff, bool_decide_eq_false. destruct (decide (address e ∈ cur)) as [D|D].
      * assert (E : cur ∪ {[address e]} = cur) by set_solver. rewrite E. tauto.
      * split; [|auto]. intros [[?|_]|Hn]; [auto|right; set_solver|right; set_solver].
    + intros Hlt a [->|Ha]%elem_of_cons; [set_solver|by apply H5].
    + intros [|x l1] e1 l2 e2 [= -> ->] He Hc Hn; [set_solver|].
      apply (H6 l1 e1 l2 e2 eq_refl He Hc). intros [?|E]%elem_of_union; [done|]. apply elem_of_singleton in E.
      apply Ne. rewrite <- E. apply list_elem_of_fmap. exists e2. split; [done|]. set_solver.
  - apply Z.ltb_ge in C. unfold NUM_CURRENT_SERVERS in C. exists b, cur. split; [done|].
    split; [done|]. split; [set_solver|]. split; [done|]. split; [tauto|]. split; [lia|]. by intros ????? ? ? ?.
Qed.

(** What holds of a repository between its operations. *)
Record repo_ok (r : DnsServerRepository) : Prop := {
  ro_distinct : NoDup (addresses_of (allServers_ r));
  ro_sorted : StronglySorted later (allServers_ r);
  ro_length : (length (allServers_ r) <= 12)%nat;
  ro_current : forall a, a ∈ currentServers_ r -> a ∈ addresses_of (allServers_ r);
  ro_size : size (currentServers_ r) = Nat.min 3 (length (allServers_ r))
}.

(** An announcement by the table of servers: it knows no expired server and the
    twelve that last longest, and uses up to three: those in use that are still known,
    then those that last longest. *)
Record announced (r : DnsServerRepository) (T : gmap bytes Z) (now : Z) (b : bool) (r' : DnsServerRepository) : Prop := {
  an_ok : repo_ok r';
  an_known : forall e, e ∈ allServers_ r' -> T !! address e = Some (expiry e) /\ now < expiry e;
  an_lasting : forall a y, T !! a = Some y -> now < y -> a ∈ addresses_of (allServers_ r') \/
    (length (allServers_ r') = 12%nat /\ Forall (fun e => y <= expiry e) (allServers_ r'));
  an_kept : forall a, a ∈ currentServers_ r -> a ∈ addresses_of (allServers_ r') -> a ∈ currentServers_ r';
  an_longest : forall e e', e ∈ allServers_ r' -> e' ∈ allServers_ r' -> expiry e' < expiry e ->
    address e' ∈ currentServers_ r' -> address e' ∉ currentServers_ r -> address e ∈ currentServers_ r';
  an_changed : b = true <-> currentServers_ r' <> currentServers_ r
}.

Lemma later_before all e e' : StronglySorted later all -> e ∈ all -> e' ∈ all -> expiry e' < expiry e ->
  exists l1 l2, all = l1 ++ e :: l2 /\ e' ∈ l2.
Proof.
  intros S He He' Hl. apply list_elem_of_split in He as (l1 & l2 & ->). exists l1, l2. split; [done|].
  apply elem_of_app in He' as [H1|[->|H2]%elem_of_cons]; [|lia|done].
  apply StronglySorted_app in S as (S1 & _ & _). specialize (S1 e' e H1). unfold later in S1.
  assert (expiry e <= expiry e'); [apply S1; set_solver|lia].
Qed.

Lemma size_addresses all : NoDup (addresses_of all) -> size (list_to_set (addresses_of all) : gset bytes) = length all.
Proof. intros N. rewrite size_list_to_set by done. apply length_map. Qed.

Lemma UpdateCurrentServers_spec now all r : NoDup (addresses_of all) -> StronglySorted later all ->
  (forall a, a ∈ currentServers_ r -> a ∈ addresses_of all) -> (size (currentServers_ r) <= 3)%nat ->
  exists b r', UpdateCurrentServers now (mkRepository (currentServers_ r) all (minLifetime_ r)) = (b, r') /\
    minLifetime_ r' = minLifetime_ r /\ announced r (table all) now b r'.
Proof.
  intros N S Hc Hs. set (cur := currentServers_ r) in *. unfold UpdateCurrentServers. cbn [allServers_ currentServers_ minLifetime_].
  destruct (Nat.eqb (length all) 0) eqn:E0.
  { apply Nat.eqb_eq, length_zero_iff_nil in E0 as ->. assert (Ec : cur = ∅) by set_solver.
    eexists _, _. split; [done|]. split; [done|]. split; cbn; fold cur; rewrite ?Ec; try set_solver.
    split; cbn; [constructor|constructor|lia|set_solver|done]. }
  destruct (remove_expired_spec now all cur false S) as (kept & dropped & b1 & E & -> & Hb1 & Hl & Hk & Hd).
  assert (A : addresses_of all = addresses_of kept ++ addresses_of dropped) by (by rewrite E; apply map_app).
  rewrite A in N. apply NoDup_app in N as (Nk & Ndj & Nd).
  assert (Sk : StronglySorted later kept) by (rewrite E in S; by apply StronglySorted_app in S as (_ & ? & _)).
  set (cur1 := cur ∖ list_to_set (addresses_of dropped)).
  assert (Hs1 : (size cur1 <= 3)%nat) by (etrans; [apply (subseteq_size cur1 cur); unfold cur1; set_solver|exact Hs]).
  destruct (fill_current_spec kept cur1 b1 Nk Hs1) as (b & cur' & -> & H1 & H2 & H3 & H4 & H5 & H6).
  assert (Sub : cur' ⊆ list_to_set (addresses_of kept)).
  { intros a Ha%H2. apply elem_of_list_to_set. apply elem_of_union in Ha as [Ha|Ha]; [|by apply elem_of_list_to_set in Ha].
    unfold cur1 in Ha. rewrite elem_of_difference, elem_of_list_to_set in Ha. destruct Ha as [Ha Hn]. apply Hc in Ha. rewrite A in Ha. set_solver. }
  assert (T : forall e, e ∈ all <-> table all !! address e = Some (expiry e)).
  { intros e. apply table_lookup. rewrite A. apply NoDup_app. by split; [|split]. }
  exists b, (mkRepository cur' kept (minLifetime_ r)). split; [done|]. split; [done|]. split; cbn [allServers_ currentServers_]; fold cur.
  - split; cbn [allServers_ currentServers_]; [done|done|done|intros a Ha%Sub; by apply elem_of_list_to_set in Ha|].
    pose proof (subseteq_size _ _ Sub) as Le. rewrite size_addresses in Le by done.
    destruct (decide (size cur' < 3)%nat) as [D|D]; [|lia].
    assert (Ge : (list_to_set (addresses_of kept) : gset bytes) ⊆ cur') by (intros a Ha%elem_of_list_to_set; by apply H5).
    apply subseteq_size in Ge. rewrite size_addresses in Ge by done. lia.
  - intros e He. split; [apply T; rewrite E; set_solver|]. by eapply Forall_forall in Hk.
  - intros a y Ha Hy. assert (Ia : mkEntry a y ∈ all) by (by apply T).
    rewrite E in Ia. apply elem_of_app in Ia as [Ia|Ia]; [left; apply list_elem_of_fmap; by exists (mkEntry a y)|].
    destruct (decide (length kept < 12)%nat) as [D|D].
    + apply Hd in D. eapply Forall_forall in D; [|done]. cbn in D. lia.
    + right. split; [lia|]. apply Forall_forall. intros e He. rewrite E in S. apply StronglySorted_app in S as (S1 & _ & _).
      by apply (S1 e (mkEntry a y)).
  - intros a Ha Hk'. apply H1. unfold cur1. rewrite elem_of_difference, elem_of_list_to_set. split; [done|]. intros Hdr. by apply (Ndj a).
  - intros e e' He He' Hlt Hin Hn. destruct (later_before kept e e' Sk He He' Hlt) as (l1 & l2 & E' & Hl2).
    apply (H6 l1 e l2 e' E' Hl2 Hin). unfold cur1. set_solver.
  - rewrite H4, Hb1. split.
    + intros [[?|(a & Ha & Hdr)]|Hn] Eq; [done| |].
      * rewrite <- Eq in Ha. apply Sub, elem_of_list_to_set in Ha. by apply (Ndj a).
      * apply Hn. apply set_eq. intros a. split; [|by apply H1]. intros Ha. unfold cur1.
        rewrite elem_of_difference, elem_of_list_to_set. split; [by rewrite <- Eq|]. intros Hdr. apply Sub, elem_of_list_to_set in Ha. by apply (Ndj a).
    + intros Hn. destruct (decide (cur' = cur1)) as [Eq|D]; [|by right]. left. right.
      destruct (decide (cur ∩ list_to_set (addresses_of dropped) = ∅)) as [Hno|Hx].
      2:{ apply set_choose_L in Hx as [a [Ha Hdr]%elem_of_intersection]. exists a. by apply elem_of_list_to_set in Hdr. }
      exfalso. apply Hn. rewrite Eq. unfold cur1. apply set_eq. intros a. rewrite elem_of_difference, elem_of_list_to_set. split; [tauto|].
      intros Ha. split; [done|]. intros Hdr. set_solver.
Qed.

(** C25: An announcement of DNS servers with a lifetime that is neither 0 nor below the
    least one updates the table of servers and leaves the repository consistent:
    it knows only servers that have not expired, at most twelve, those that
    last longest; exactly three of them (or all) are in use, where servers in use stay
    and the others are chosen by their time; and it reports a change exactly when
    the servers in use changed.  Any other announcement changes nothing. *)
Theorem AddServers_spec now later_now value l r : repo_ok r ->
  exists b r', AddServers now later_now value l r = (b, r') /\ minLifetime_ r' = minLifetime_ r /\
    if negb (value =? 0) && (value <? minLifetime_ r) then b = false /\ r' = r
    else announced r (fold_left (announce now (u64 (now + u64 (value * 1000)))) l (table (allServers_ r))) later_now b r'.
Proof.
  intros [N S Hl Hc Hs]. unfold AddServers. destruct (negb (value =? 0) && _); [by exists false, r|].
  set (x := u64 _). destruct (add_entries_spec now x l (allServers_ r) N) as (N' & T & K).
  set (all := sort_by_expiry _). assert (P : all ≡ₚ add_entries now x l (allServers_ r)) by apply sort_by_expiry_permutes.
  assert (Pa : addresses_of all ≡ₚ addresses_of (add_entries now x l (allServers_ r))) by (by apply Permutation_map).
  destruct (UpdateCurrentServers_spec later_now all r) as (b & r' & E & Em & A).
  - by rewrite Pa.
  - apply sort_by_expiry_sorts.
  - intros a Ha%Hc%K. by rewrite Pa.
  - lia.
  - exists b, r'. split; [done|]. split; [done|]. rewrite <- T, <- (table_permutation all); [done|by rewrite Pa|done].
Qed.

Lemma announce_lookup now x l m a :
  fold_left (announce now x) l m !! a = m !! a \/ fold_left (announce now x) l m !! a = Some x.
Proof.
  revert m. induction l as [|b l IH]; intros m; cbn [fold_left]; [by left|].
  destruct (IH (announce now x m b)) as [E|E]; [|by right]. rewrite E. unfold announce.
  destruct (_ || _); [|by left]. destruct (decide (a = b)) as [->|D]; [right; apply lookup_insert_eq|left; by apply lookup_insert_ne].
Qed.
Lemma announce_member now x l m a y : a ∈ l -> fold_left (announce now x) l m !! a = Some y -> y = x.
Proof.
  revert m. induction l as [|b l IH]; intros m; [by intros ?%not_elem_of_nil|]. cbn [fold_left].
  intros [->|Ha]%elem_of_cons Hy; [|by apply (IH (announce now x m b))].
  destruct (announce_lookup now x l (announce now x m b) b) as [E|E]; rewrite E in Hy; [|congruence].
  unfold announce in Hy. destruct (_ || _) eqn:C; [rewrite lookup_insert_eq in Hy; congruence|].
  apply orb_false_elim in C as [C _]. apply bool_decide_eq_false in C. rewrite Hy in C. by destruct C.
Qed.

(** A lifetime of 0 withdraws the servers. *)
Lemma AddServers_withdraws now later_now l r : repo_ok r -> is_u64 now -> now <= later_now ->
  exists b r', AddServers now later_now 0 l r = (b, r') /\ repo_ok r' /\
    forall a, a ∈ l -> a ∉ currentServers_ r' /\ a ∉ addresses_of (allServers_ r').
Proof.
  intros H Hn Hle. destruct (AddServers_spec now later_now 0 l r H) as (b & r' & E & _ & A). cbn [Z.eqb negb andb] in A.
  exists b, r'. split; [done|]. split; [by destruct A|]. intros a Ha.
  assert (F : a ∉ addresses_of (allServers_ r')).
  { intros (e & -> & He)%list_elem_of_fmap. destruct A as [_ A _ _ _ _]. destruct (A e He) as [T Hlt].
    apply announce_member in T; [|done]. cbn in T. rewrite Z.add_0_r in T. unfold u64 in T at 1.
    rewrite Z.mod_small in T by exact Hn. lia. }
  split; [|done]. intros Hc. by apply (ro_current _ (an_ok _ _ _ _ _ A)) in Hc.
Qed.

Lemma NewRepository_ok n : repo_ok (NewRepository n).
Proof. split; cbn; [constructor|constructor|lia|set_solver|done]. Qed.
Lemma ClearRepository_ok r : repo_ok (ClearRepository r).
Proof. split; cbn; [constructor|constructor|lia|set_solver|done]. Qed.

(** The servers in use reach the public structure. *)
Lemma SetCurrentServers_spec r info : (forall a, a ∈ currentServers_ r -> short a) ->
  let l := set_iteration (currentServers_ r) in
  exists info', SetCurrentServers r info = (true, info') /\ vectorDnsAddr info' = l /\
    c_str (dnsAddr info') = default [] (l !! 0%nat) /\ c_str (dnsAddr2 info') = default [] (l !! 1%nat) /\
    IpAddrMap info' = IpAddrMap info /\ (forall t, type_array info' t = type_array info t) /\
    defaultRouteAddr info' = defaultRouteAddr info /\ routeAddr info' = routeAddr info.
Proof.
  intros Ht l. assert (Hl : Forall short l).
  { apply Forall_forall. intros a Ha. apply Ht. unfold l in Ha. rewrite set_iteration_law in Ha. by apply elem_of_elements in Ha. }
  unfold SetCurrentServers. fold l. clearbody l.
  assert (C : forall a array, short a -> strcpy_128 array a = (true, a ++ 0 :: drop (S (length a)) array)).
  { intros a array (Hs & Hz). unfold strcpy_128. pose proof (c_str_app a [] Hz) as Ca.
    assert (Ea : c_str a = a); [|by rewrite Ea; apply copy_string_fits].
    clear - Hz. induction Hz as [|c a Hc _ IH]; cbn; [done|]. by rewrite (proj2 (Z.eqb_neq c 0) Hc), IH. }
  assert (R : forall l n i, Forall short l -> 2 <= n -> exists i', set_servers n l i = (true, i') /\
    i' = set_vectorDnsAddr (vectorDnsAddr i ++ l) i).
  { clear - C. induction l as [|a l IH]; intros n i Hl Hn; cbn [set_servers].
    { eexists; split; [done|]. rewrite app_nil_r. by destruct i. }
    apply Forall_cons in Hl as [Ha Hl]. rewrite (proj2 (Z.eqb_neq n 0)), (proj2 (Z.eqb_neq n 1)) by lia.
    destruct (IH (n + 1) (set_vectorDnsAddr (vectorDnsAddr i ++ [a]) i) Hl) as (i' & -> & ->); [lia|].
    eexists; split; [done|]. cbn. by rewrite <- app_assoc. }
  destruct l as [|a [|b l]]; cbn [set_servers].
  - eexists; split; [done|]. cbn. by split_and!.
  - apply Forall_cons in Hl as [Ha _]. cbn [Z.eqb]. rewrite C by done. eexists; split; [done|]. cbn. split_and!; try done. by apply c_str_app, Ha.
  - apply Forall_cons in Hl as [Ha [Hb Hl]%Forall_cons]. cbn [Z.eqb]. rewrite !C by done. change (0 + 1 =? 0) with false. change (0 + 1 =? 1) with true. cbv beta iota.
    match goal with |- context [set_servers ?n l ?i] => destruct (R l n i Hl) as (i' & -> & ->); [lia|] end.
    eexists; split; [done|]. cbn. split_and!; try done; [apply c_str_app, Ha|apply c_str_app, Hb].
Qed.
End Dns.

(** A standard library: the elements in the order of the set, a merge sort. *)
#[export] Instance later_dec : RelDecision DnsServers.later.
Proof. intros a b. unfold DnsServers.later. apply _. Defined.
#[export] Instance ordered_library : DnsServers.StandardLibrary :=
  {| DnsServers.set_iteration := elements; DnsServers.sort_by_expiry := merge_sort DnsServers.later |}.
#[export] Instance ordered_library_laws : DnsServers.StandardLibraryLaws ordered_library.
Proof.
  split; [done|intros l; apply merge_sort_Permutation|]. intros l. apply StronglySorted_merge_sort.
  - intros a b c. unfold DnsServers.later. lia.
  - intros a b. unfold DnsServers.later. lia.
Qed.

Lemma AddServers_spec_witness :
  let r := DnsServers.NewRepository 120 in
  repo_ok r /\ exists r', DnsServers.AddServers 1000 1001 600 [str "2001::53"; str "2001::35"; str "2001::53"] r = (true, r') /\
    DnsServers.currentServers_ r' = {[str "2001::53"; str "2001::35"]}.
Proof.
  intros r. split; [apply NewRepository_ok|].
  destruct (AddServers_spec 1000 1001 600 [str "2001::53"; str "2001::35"; str "2001::53"] r) as (b & r' & E & _); [apply NewRepository_ok|].
  exists r'. assert (D : (b, r') = DnsServers.AddServers 1000 1001 600 [str "2001::53"; str "2001::35"; str "2001::53"] r) by (by rewrite E).
  rewrite E. assert (Eb : b = true) by (change b with (fst (b, r')); rewrite D; by vm_compute).
  assert (Er : r' = snd (b, r')) by done. rewrite Er, D, Eb. split; [by rewrite <- D|]. vm_compute. reflexivity.
Defined.
