(* ===== verification/Ipv6State.v ===== *)
(** The state of the IPv6 client (dhcp_client/include/dhcp_ipv6_client.h), the system
    calls it makes, the memory of netlink messages, and its pure functions
    (dhcp_client/src/dhcp_ipv6_client.cpp): the scope of an address and the kinds of
    addresses.

    Every system call takes the next reading of an [Ipv6Platform].  The memory of a
    message is the list of bytes of its buffer; reading outside it is undefined. *)
From S2P Require Import Prelude AddressUtils RawPacket ClientFunction V6Message Ipv6Info.
Import DnsServers.

Definition INET6_ADDRSTRLEN : Z := 46.
Definition IPV6_ADDR_ANY : Z := 0.
Definition IPV6_ADDR_UNICAST : Z := 1.
Definition IPV6_ADDR_MULTICAST : Z := 2.
Definition IPV6_ADDR_SCOPE_MASK : Z := 0xF0.
Definition IPV6_ADDR_LOOPBACK : Z := 0x10.
Definition IPV6_ADDR_LINKLOCAL : Z := 0x20.
Definition IPV6_ADDR_SITELOCAL : Z := 0x40.
Definition IPV6_ADDR_COMPATV4 : Z := 0x80.
Definition IPV6_ADDR_MAPPED : Z := 0x1000.
Definition IPV6_ADDR_SCOPE_NODELOCAL : Z := 1.
Definition IPV6_ADDR_SCOPE_LINKLOCAL : Z := 2.
Definition IPV6_ADDR_SCOPE_SITELOCAL : Z := 5.
Definition IPV6_ADDR_SCOPE_GLOBAL : Z := 0x0E.
Definition IPV6_ADDR_SCOPE_TYPE (scope : Z) : Z := Z.shiftl scope 16.
Definition KERNEL_BUFF_SIZE : Z := 64 * 1024.
Definition NETLINK_RECV_BUFFER_SIZE : Z := 8192.
Definition RA_FLAG_MANAGED_MASK : Z := 1.
Definition RA_FLAG_OTHER_MASK : Z := 2.

(** * The state *)

Class Ipv6Platform := {
  n_nametoindex : nat -> bytes -> Z;               (* 0: no such interface *)
  n_kernel : nat -> list Z;                        (* results of the calls of GetLocalInterface *)
  n_ifreq : nat -> ifreq;
  n_realpath : bytes -> option bytes;
  n_file_opens : nat -> bool;
  n_socket : nat -> gset Z -> Z;                   (* in a process with those descriptors *)
  n_setsockopt : nat -> Z;
  n_bind : nat -> Z;
  n_send : nat -> Z;
  n_sendto : nat -> Z;
  n_recv : nat -> option bytes;                    (* on the socket of the thread; None: an error *)
  n_answer : nat -> option bytes;                  (* on the socket of a request *)
  n_readable : nat -> bool;                        (* select succeeds and FD_ISSET holds *)
  n_configured : nat -> bytes -> bool;             (* IsRunning and IsDhcpV6ConfiguredAddress of the DHCPv6 client *)
  n_malloc : nat -> bool;                          (* the buffer of the thread *)
  n_clock : nat -> Z;                              (* milliseconds *)
  n_pid : Z
}.
Class Ipv6PlatformLaws (P : Ipv6Platform) := {
  n_nametoindex_law : forall n s, is_u32 (n_nametoindex n s);
  n_socket_law : forall n fds, n_socket n fds = -1 \/ (0 <= n_socket n fds /\ n_socket n fds ∉ fds);
  n_recv_law : forall n d, n_recv n = Some d -> Forall is_u8 d;
  n_answer_law : forall n d, n_answer n = Some d -> Forall is_u8 d /\ Z.of_nat (length d) + 16 <= NETLINK_RECV_BUFFER_SIZE;
  n_hwaddr_law : forall n, length (ifr_hwaddr (n_ifreq n)) = 6%nat
}.

(** The netlink thread: its creation, its rounds and its end; it is joinable until
    it is joined. *)
Inductive NetThread := no_thread | created | looping | finished.
#[export] Instance NetThread_dec : EqDecision NetThread.
Proof. solve_decision. Defined.

Inductive ipv6_event :=
| Ipv6AddressChanged (callback : Z) (ifname : bytes) (info : DhcpIpv6Info)
| RaFlagsChanged (callback : Z) (ifname : bytes) (managed other : bool)
| DadResult (callback : Z) (ifname addr : bytes) (failed : bool)
| AddrRemoved (callback : Z) (ifname addr : bytes)
| Sendto (fd : Z) (data : bytes) (scope_id : Z)
| Written (file content : bytes).

Record Ipv6Client := mkIpv6Client {
  interfaceName : bytes; dhcpIpv6Info : DhcpIpv6Info; ipv6SocketFd : Z; runFlag_ : bool; ipv6Thread_ : NetThread;
  dhcpIpv6DnsRepository_ : DnsServerRepository; raFlagsQueried_ : bool; raFlags_ : Z; raReceived_ : bool;
  onIpv6AddressChanged_ : option Z; onRaFlagsChanged_ : option Z; onIpv6DadResult_ : option Z; onAddrRemoved_ : option Z;
  pDhcpV6Client_ : option Z; ra_timers : nat; n_open : gset Z; n_events : list ipv6_event; n_reads : nat
}.
Definition eta_n (s : Ipv6Client) : Ipv6Client :=
  mkIpv6Client (interfaceName s) (dhcpIpv6Info s) (ipv6SocketFd s) (runFlag_ s) (ipv6Thread_ s)
    (dhcpIpv6DnsRepository_ s) (raFlagsQueried_ s) (raFlags_ s) (raReceived_ s) (onIpv6AddressChanged_ s)
    (onRaFlagsChanged_ s) (onIpv6DadResult_ s) (onAddrRemoved_ s) (pDhcpV6Client_ s) (ra_timers s) (n_open s)
    (n_events s) (n_reads s).
Ltac set_n proj s v :=
  let e := eval unfold eta_n in (eta_n s) in
  match e with context C [proj s] => let r := context C [v] in exact r end.
Definition set_interfaceName (v : bytes) (s : Ipv6Client) : Ipv6Client := ltac:(set_n interfaceName s v).
Definition set_dhcpIpv6Info (v : DhcpIpv6Info) (s : Ipv6Client) : Ipv6Client := ltac:(set_n dhcpIpv6Info s v).
Definition set_ipv6SocketFd (v : Z) (s : Ipv6Client) : Ipv6Client := ltac:(set_n ipv6SocketFd s v).
Definition set_runFlag_ (v : bool) (s : Ipv6Client) : Ipv6Client := ltac:(set_n runFlag_ s v).
Definition set_ipv6Thread_ (v : NetThread) (s : Ipv6Client) : Ipv6Client := ltac:(set_n ipv6Thread_ s v).
Definition set_dhcpIpv6DnsRepository_ (v : DnsServerRepository) (s : Ipv6Client) : Ipv6Client := ltac:(set_n dhcpIpv6DnsRepository_ s v).
Definition set_raFlagsQueried_ (v : bool) (s : Ipv6Client) : Ipv6Client := ltac:(set_n raFlagsQueried_ s v).
Definition set_raFlags_ (v : Z) (s : Ipv6Client) : Ipv6Client := ltac:(set_n raFlags_ s v).
Definition set_raReceived_ (v : bool) (s : Ipv6Client) : Ipv6Client := ltac:(set_n raReceived_ s v).
Definition set_onIpv6AddressChanged_ (v : option Z) (s : Ipv6Client) : Ipv6Client := ltac:(set_n onIpv6AddressChanged_ s v).
Definition set_onRaFlagsChanged_ (v : option Z) (s : Ipv6Client) : Ipv6Client := ltac:(set_n onRaFlagsChanged_ s v).
Definition set_onIpv6DadResult_ (v : option Z) (s : Ipv6Client) : Ipv6Client := ltac:(set_n onIpv6DadResult_ s v).
Definition set_onAddrRemoved_ (v : option Z) (s : Ipv6Client) : Ipv6Client := ltac:(set_n onAddrRemoved_ s v).
Definition set_pDhcpV6Client_ (v : option Z) (s : Ipv6Client) : Ipv6Client := ltac:(set_n pDhcpV6Client_ s v).
Definition set_ra_timers (v : nat) (s : Ipv6Client) : Ipv6Client := ltac:(set_n ra_timers s v).
Definition set_n_open (v : gset Z) (s : Ipv6Client) : Ipv6Client := ltac:(set_n n_open s v).
Definition set_n_events (v : list ipv6_event) (s : Ipv6Client) : Ipv6Client := ltac:(set_n n_events s v).
Definition set_n_reads (v : nat) (s : Ipv6Client) : Ipv6Client := ltac:(set_n n_reads s v).

(** The constructor; the arrays of [dhcpIpv6Info] are not initialised. *)
Definition DhcpIpv6Client (ifname : bytes) (info : DhcpIpv6Info) (fds : gset Z) : Ipv6Client :=
  mkIpv6Client ifname info (-1) false no_thread (NewRepository DEFAULT_MIN_RDNSS_LIFETIME) false 0 false
    None None None None None 0 fds [] 0.

Definition reading6 {A} (r : nat -> A) : M Ipv6Client A :=
  let* n := get n_reads in modify (set_n_reads (S n)) ;; ret (r n).
Definition notify (e : ipv6_event) : M Ipv6Client unit := modify (fun s => set_n_events (n_events s ++ [e]) s).
(** An operation on [dhcpIpv6Info]. *)
Definition on_info {A} (f : DhcpIpv6Info -> A * DhcpIpv6Info) : M Ipv6Client A :=
  fun s => let (a, info) := f (dhcpIpv6Info s) in Some (a, set_dhcpIpv6Info info s).

(** * The memory of messages *)

Definition rd8 (m : bytes) (o : Z) : option Z := if o <? 0 then None else m !! Z.to_nat o.
Definition rd16 (m : bytes) (o : Z) : option Z := a ← rd8 m o; b ← rd8 m (o + 1); Some (a + 2 ^ 8 * b).
Definition rd32 (m : bytes) (o : Z) : option Z := a ← rd16 m o; b ← rd16 m (o + 2); Some (a + 2 ^ 16 * b).
Definition rds32 (m : bytes) (o : Z) : option Z := v ← rd32 m o; Some (i32 v).
Definition rd_bytes (m : bytes) (o n : Z) : option bytes :=
  if (0 <=? o) && (o + n <=? Z.of_nat (length m)) then Some (take (Z.to_nat n) (drop (Z.to_nat o) m)) else None.
Definition read {A} (o : option A) : M Ipv6Client A := from_option o.

(** The macros of netlink.h and rtnetlink.h. *)
Definition ALIGN4 (n : Z) : Z := (n + 3) / 4 * 4.
Definition sizeof_nlmsghdr : Z := 16.
Definition sizeof_rtattr : Z := 4.
Definition RTA_LENGTH (n : Z) : Z := sizeof_rtattr + n.
Definition nlmsg_len (m : bytes) (nlh : Z) : option Z := rd32 m nlh.
Definition nlmsg_type (m : bytes) (nlh : Z) : option Z := rd16 m (nlh + 4).
Definition NLMSG_DATA (nlh : Z) : Z := nlh + sizeof_nlmsghdr.
Definition rta_len (m : bytes) (rta : Z) : option Z := rd16 m rta.
Definition rta_type (m : bytes) (rta : Z) : option Z := rd16 m (rta + 2).
Definition RTA_DATA (rta : Z) : Z := rta + sizeof_rtattr.

(** NLMSG_OK and RTA_OK, which read the header when there is room for one. *)
Definition NLMSG_OK (m : bytes) (nlh len : Z) : option bool :=
  if len <? sizeof_nlmsghdr then Some false
  else l ← nlmsg_len m nlh; Some ((sizeof_nlmsghdr <=? l) && (l <=? len)).
Definition RTA_OK (m : bytes) (rta len : Z) : option bool :=
  if len <? sizeof_rtattr then Some false
  else l ← rta_len m rta; Some ((sizeof_rtattr <=? l) && (l <=? len)).

(** [for (...; RTA_OK(rta, len); rta = RTA_NEXT(rta, len)) body]: the body gets
    the attribute and the variables of the loop and says whether it goes on.
    Every attribute takes four bytes at least: [S (len / 4)] rounds are
    enough. *)
Fixpoint rta_loop {A} (fuel : nat) (m : bytes) (rta len : Z) (body : Z -> A -> M Ipv6Client (bool * A)) (a : A)
    : M Ipv6Client A :=
  match fuel with
  | O => undef
  | S fuel =>
      let* ok := read (RTA_OK m rta len) in
      if negb ok then ret a
      else
        let* '(go, a) := body rta a in
        if negb go then ret a
        else
          let* l := read (rta_len m rta) in
          rta_loop fuel m (rta + ALIGN4 l) (len - ALIGN4 l) body a
  end.
Definition for_rta {A} (m : bytes) (rta len : Z) (body : Z -> A -> M Ipv6Client (bool * A)) (a : A) : M Ipv6Client A :=
  rta_loop (S (Z.to_nat (len / 4))) m rta len body a.

(** * Addresses *)

Section Addresses.
Context {I6 : Inet6Text}.

Definition s6_addr (a : bytes) (i : nat) : Z := byte_at a i.
Definition s6_addr32 (a : bytes) (i : nat) : Z :=
  byte_at a (4 * i) + byte_at a (4 * i + 1) * 2 ^ 8 + byte_at a (4 * i + 2) * 2 ^ 16 + byte_at a (4 * i + 3) * 2 ^ 24.

Definition ipv6AddrScope2Type (scope : Z) : Z :=
  if scope =? IPV6_ADDR_SCOPE_NODELOCAL then Z.lor (IPV6_ADDR_SCOPE_TYPE IPV6_ADDR_SCOPE_NODELOCAL) IPV6_ADDR_LOOPBACK
  else if scope =? IPV6_ADDR_SCOPE_LINKLOCAL then Z.lor (IPV6_ADDR_SCOPE_TYPE IPV6_ADDR_SCOPE_LINKLOCAL) IPV6_ADDR_LINKLOCAL
  else if scope =? IPV6_ADDR_SCOPE_SITELOCAL then Z.lor (IPV6_ADDR_SCOPE_TYPE IPV6_ADDR_SCOPE_SITELOCAL) IPV6_ADDR_SITELOCAL
  else IPV6_ADDR_SCOPE_TYPE scope.

Definition GetAddrType (addr : bytes) : Z :=
  let st := s6_addr32 addr 0 in
  if negb (Z.land st (htonl 0xE0000000) =? htonl 0) && negb (Z.land st (htonl 0xE0000000) =? htonl 0xE0000000) then
    Z.lor IPV6_ADDR_UNICAST (IPV6_ADDR_SCOPE_TYPE IPV6_ADDR_SCOPE_GLOBAL)
  else if Z.land st (htonl 0xFF000000) =? htonl 0xFF000000 then
    Z.lor IPV6_ADDR_MULTICAST (ipv6AddrScope2Type (Z.land (s6_addr addr 1) 0x0F))
  else if Z.land st (htonl 0xFFC00000) =? htonl 0xFE800000 then
    Z.lor (Z.lor IPV6_ADDR_LINKLOCAL IPV6_ADDR_UNICAST) (IPV6_ADDR_SCOPE_TYPE IPV6_ADDR_SCOPE_LINKLOCAL)
  else if Z.land st (htonl 0xFFC00000) =? htonl 0xFEC00000 then
    Z.lor (Z.lor IPV6_ADDR_SITELOCAL IPV6_ADDR_UNICAST) (IPV6_ADDR_SCOPE_TYPE IPV6_ADDR_SCOPE_SITELOCAL)
  else if Z.land st (htonl 0xFE000000) =? htonl 0xFC000000 then
    Z.lor IPV6_ADDR_UNICAST (IPV6_ADDR_SCOPE_TYPE IPV6_ADDR_SCOPE_GLOBAL)
  else
    let global := Z.lor IPV6_ADDR_UNICAST (IPV6_ADDR_SCOPE_TYPE IPV6_ADDR_SCOPE_GLOBAL) in
    if Z.lor (s6_addr32 addr 0) (s6_addr32 addr 1) =? 0 then
      if s6_addr32 addr 2 =? 0 then
        if s6_addr32 addr 3 =? 0 then IPV6_ADDR_ANY
        else if s6_addr32 addr 3 =? htonl 1 then
          Z.lor (Z.lor IPV6_ADDR_LOOPBACK IPV6_ADDR_UNICAST) (IPV6_ADDR_SCOPE_TYPE IPV6_ADDR_SCOPE_LINKLOCAL)
        else Z.lor (Z.lor IPV6_ADDR_COMPATV4 IPV6_ADDR_UNICAST) (IPV6_ADDR_SCOPE_TYPE IPV6_ADDR_SCOPE_GLOBAL)
      else if s6_addr32 addr 3 =? htonl 0xFFFF then
        Z.lor IPV6_ADDR_MAPPED (IPV6_ADDR_SCOPE_TYPE IPV6_ADDR_SCOPE_GLOBAL)
      else global
    else global.

Definition GetAddrScope (addr : bytes) : Z := Z.land (GetAddrType addr) IPV6_ADDR_SCOPE_MASK.

(** The text in the buffer, [None] on a failure. *)
Definition GetIpFromS6Address (addr : bytes) (family : Z) : option bytes :=
  if negb (family =? AF_INET6) then None else Some (inet6_ntop addr).

(** The text left in [ipv6PrefixBuf]; [None] leaves the buffer as it was. *)
Definition GetIpv6Prefix (ipv6Addr : bytes) (prefixLen : Z) : option bytes :=
  if prefixLen >=? DHCP_INET6_ADDRSTRLEN then Some (take 127 ipv6Addr)
  else
    let ipv6AddrBuf := default (zeros 16) (inet6_pton ipv6Addr) in
    let byteIndex := prefixLen / 8 in
    let '(ok, ipv6Prefix) := memcpy_s (zeros 16) 16 ipv6AddrBuf byteIndex in
    if negb ok then None
    else
      let bitOffset := Z.land prefixLen 7 in
      let ipv6Prefix :=
        if negb (bitOffset =? 0) && (byteIndex <? 16) then
          <[Z.to_nat byteIndex := u8 (Z.land (s6_addr ipv6AddrBuf (Z.to_nat byteIndex)) (Z.shiftr 0xff00 bitOffset))]> ipv6Prefix
        else ipv6Prefix in
      Some (inet6_ntop ipv6Prefix).

Definition length_ok (len : Z) : bool := (0 <? len) && (len <=? DHCP_INET6_ADDRSTRLEN).

Definition IsGlobalIpv6Address (ipv6addr : bytes) (len : Z) : bool :=
  if negb (length_ok len) then false
  else
    match inet6_pton ipv6addr with
    | None => false
    | Some addr =>
        if bool_decide (take 4 addr = [0x20; 0x01; 0x0d; 0xb8]) then false
        else Z.land (s6_addr addr 0) 0xE0 =? 0x20
    end.
Definition IsUniqueLocalIpv6Address (ipv6addr : bytes) (len : Z) : bool :=
  if negb (length_ok len) then false
  else match inet6_pton ipv6addr with None => false | Some addr => Z.land (s6_addr addr 0) 0xFE =? 0xFC end.
Definition IsValidIpv6Address (ipv6addr : bytes) : bool := bool_decide (is_Some (inet6_pton ipv6addr)).

Definition IsEui64ModeIpv6Address (ipv6addr : bytes) (len : Z) (ifaceMac : bytes) : bool :=
  if negb (length_ok len) then false
  else
    match inet6_pton ipv6addr with
    | None => false
    | Some addr =>
        let ipv6Iid := take 8 (drop 8 addr) in
        if negb (byte_at ipv6Iid 3 =? 0xFF) || negb (byte_at ipv6Iid 4 =? 0xFE) then false
        else
          let reconstructedMac := [Z.lxor (byte_at ipv6Iid 0) 0x02; byte_at ipv6Iid 1; byte_at ipv6Iid 2;
                                   byte_at ipv6Iid 5; byte_at ipv6Iid 6; byte_at ipv6Iid 7] in
          bool_decide (take 6 ifaceMac = reconstructedMac)
    end.

(** AddIpv6Address, with what it reads: the hardware address, when there is one, and
    whether the DHCPv6 client configured the address. *)
Definition classify (ipv6addr : bytes) (len : Z) (ifaceMac : option bytes) (isDhcpV6Addr : bool) : AddrType :=
  match ifaceMac with
  | None => UNKNOW
  | Some ifaceMac =>
      if IsGlobalIpv6Address ipv6addr len then
        if IsEui64ModeIpv6Address ipv6addr len ifaceMac then GLOBAL
        else if isDhcpV6Addr then GLOBAL
        else RAND
      else if IsUniqueLocalIpv6Address ipv6addr len || IsValidIpv6Address ipv6addr then
        if IsEui64ModeIpv6Address ipv6addr len ifaceMac then UNIQUE else UNIQUE2
      else UNKNOW
  end.
End Addresses.
