(* ===== verification/Ipv6Client.v ===== *)
(** The client of router advertisements (dhcp_client/src/dhcp_ipv6_client.cpp and
    dhcp_ipv6_event.cpp): what it does when the kernel reports an address, a route or
    DNS servers, the parsing of netlink messages, its thread, start and stop.

    A call of a public method, a round of the netlink thread and the end of the
    wait of a detached thread ([timer_fires]) are one step each.  [join] runs the
    rest of the thread.  Destroying a joinable [std::thread] ends the program; it
    is [undef] here. *)
From S2P Require Import Prelude AddressUtils OptionList CommonUtil ClientOptions RawPacket ResultStore ClientFunction V6Message Ipv6Info Ipv6State.
Import DnsServers.

Definition RTM_NEWLINK : Z := 16.
Definition RTM_GETLINK : Z := 18.
Definition RTM_NEWADDR : Z := 20.
Definition RTM_DELADDR : Z := 21.
Definition RTM_NEWROUTE : Z := 24.
Definition RTM_DELROUTE : Z := 25.
Definition RTM_NEWNEIGH : Z := 28.
Definition RTM_GETNEIGH : Z := 30.
Definition RTM_NEWNDUSEROPT : Z := 68.
Definition NLMSG_DONE : Z := 3.
Definition RTA_DST : Z := 1.
Definition RTA_OIF : Z := 4.
Definition RTA_GATEWAY : Z := 5.
Definition RTA_CACHEINFO : Z := 12.
Definition NDA_DST : Z := 1.
Definition IFA_ADDRESS : Z := 1.
Definition IFA_CACHEINFO : Z := 6.
Definition IFLA_AF_SPEC : Z := 26.
Definition IFLA_INET6_FLAGS : Z := 1.
Definition IFF_UP : Z := 1.
Definition IFF_RUNNING : Z := 0x40.
Definition IFA_F_TEMPORARY : Z := 0x01.
Definition IFA_F_DADFAILED : Z := 0x08.
Definition RTPROT_KERNEL : Z := 2.
Definition RTPROT_RA : Z := 9.
Definition RTM_F_CLONED : Z := 0x200.
Definition NUD_REACHABLE : Z := 2.
Definition ND_RA_FLAG_MANAGED : Z := 0x80.
Definition ND_RA_FLAG_OTHER : Z := 0x40.
Definition ND_OPT_RDNSS : Z := 25.
Definition ND_OPT_MIN_LEN : Z := 3.
Definition KERNEL_ICMP_TYPE : Z := 134.
Definition USER_HZ : Z := 100.
Definition ND_ROUTER_SOLICIT : Z := 133.

Section Client.
Context {I6 : Inet6Text} {SL : StandardLibrary} {PL : Ipv6Platform}.

Definition close_n (fd : Z) : M Ipv6Client unit := modify (fun s => set_n_open (n_open s ∖ {[fd]}) s).
Definition open_n : M Ipv6Client Z :=
  let* fds := get n_open in
  let* fd := reading6 (fun n => n_socket n fds) in
  when (negb (fd <? 0)) (modify (fun s => set_n_open (n_open s ∪ {[fd]}) s)) ;;
  ret fd.

(** ModifyKernelFile, on a path that was checked. *)
Definition ModifyKernelFile (path content : bytes) : M Ipv6Client unit :=
  let* opened := reading6 n_file_opens in
  when opened (notify (Written path content)).

(** * What follows from a message *)

Definition PublishIpv6Result : M Ipv6Client unit :=
  let* ifname := get interfaceName in
  let* info := get dhcpIpv6Info in
  let* callback := get onIpv6AddressChanged_ in
  match callback with Some cb => notify (Ipv6AddressChanged cb ifname info) | None => ret tt end.

Definition SendRouterSolicitation : M Ipv6Client Z :=
  let* ifname := get interfaceName in
  let* sock := open_n in
  if sock <? 0 then ret (-1)
  else
    let* r := reading6 n_setsockopt in
    if r <? 0 then close_n sock ;; ret (-1)
    else
      let* scope := reading6 (fun n => n_nametoindex n ifname) in
      notify (Sendto sock ([ND_ROUTER_SOLICIT] ++ zeros 7) scope) ;;
      let* r := reading6 n_sendto in
      if r <? 0 then close_n sock ;; ret (-1) else close_n sock ;; ret 0.

(** The request of NLMSG_SPACE(sizeof(ndmsg)) = 28 bytes. *)
Definition fillRouteData : bytes :=
  le32 28 ++ take 2 (le32 RTM_GETNEIGH) ++ take 2 (le32 0x301) ++ le32 1 ++ le32 n_pid ++ zeros 12.
Definition getIpv6RouteAddr : M Ipv6Client unit :=
  let* fd := get ipv6SocketFd in
  notify (Sendto fd fillRouteData 0) ;;
  reading6 n_send ;; ret tt.

(** NotifyRaFlagsChanged *)
Definition NotifyRaFlagsChanged (managed other : bool) : M Ipv6Client unit :=
  let flags := Z.lor (if managed then RA_FLAG_MANAGED_MASK else 0) (if other then RA_FLAG_OTHER_MASK else 0) in
  let* ifname := get interfaceName in
  let* callback := get onRaFlagsChanged_ in
  (if Nat.eqb (length ifname) 0 then ret tt
   else match callback with Some cb => notify (RaFlagsChanged cb ifname managed other) | None => ret tt end) ;;
  modify (set_raFlags_ flags).

Definition inner_attribute (m : bytes) (innerRta : Z) : M Ipv6Client unit :=
  let* type := read (rta_type m innerRta) in
  if negb (type =? IFLA_INET6_FLAGS) then ret tt
  else
    let* len := read (rta_len m innerRta) in
    if len - sizeof_rtattr <? 4 then ret tt
    else
      let* flags := read (rd32 m (RTA_DATA innerRta)) in
      let flagByte := Z.land flags 0xFF in
      let other := negb (Z.land flagByte ND_RA_FLAG_MANAGED =? 0) in
      let managed := negb (Z.land flagByte ND_RA_FLAG_OTHER =? 0) in
      NotifyRaFlagsChanged managed other.
Definition af_attribute (m : bytes) (afRta : Z) : M Ipv6Client unit :=
  let* type := read (rta_type m afRta) in
  if negb (type =? AF_INET6) then ret tt
  else
    let* len := read (rta_len m afRta) in
    for_rta m (RTA_DATA afRta) (len - sizeof_rtattr) (fun rta _ => inner_attribute m rta ;; ret (true, tt)) tt.
Definition ParseAfSpecAttributes (m : bytes) (afRta afLen : Z) : M Ipv6Client unit :=
  for_rta m afRta afLen (fun rta _ => af_attribute m rta ;; ret (true, tt)) tt.

(** The request: an nlmsghdr and an ifinfomsg. *)
Definition link_request (ifIndex : Z) : bytes :=
  le32 32 ++ take 2 (le32 RTM_GETLINK) ++ take 2 (le32 1) ++ le32 1 ++ zeros 4 ++ zeros 4 ++ le32 ifIndex ++ zeros 8.
Definition BuildAndSendNetlinkRequest (ifIndex : Z) : M Ipv6Client (option bytes) :=
  let* sockFd := open_n in
  if sockFd <? 0 then ret None
  else
    notify (Sendto sockFd (link_request ifIndex) 0) ;;
    let* r := reading6 n_sendto in
    if r <? 0 then close_n sockFd ;; ret None
    else
      let* received := reading6 n_answer in
      close_n sockFd ;;
      ret received.

(** The loop over the answer.  [m] is the memory of the vector, which keeps its 8192
    bytes when it is shortened to the answer. *)
Fixpoint query_loop (fuel : nat) (m : bytes) (ifIndex nlh len : Z) : M Ipv6Client unit :=
  match fuel with
  | O => undef
  | S fuel =>
      let* ok := read (NLMSG_OK m nlh len) in
      if negb ok then ret tt
      else
        let* type := read (nlmsg_type m nlh) in
        let* msg_len := read (nlmsg_len m nlh) in
        if (type =? NLMSG_DONE) || negb (type =? RTM_NEWLINK) then ret tt
        else
          let ifm := NLMSG_DATA nlh in
          let* index := read (rd32 m (ifm + 4)) in
          if negb (index =? ifIndex) then query_loop fuel m ifIndex (nlh + ALIGN4 msg_len) (len - ALIGN4 msg_len)
          else
            let* flags := read (rd32 m (ifm + 8)) in
            if (Z.land flags IFF_RUNNING =? 0) || (Z.land flags IFF_UP =? 0) then ret tt
            else
              (* RTM_PAYLOAD takes the 12 bytes of an rtmsg away, not the 16 of an ifinfomsg *)
              let remaining := i32 (u32 (msg_len - 28)) in
              let* found := for_rta m (ifm + 16) remaining (fun rta _ =>
                let* type := read (rta_type m rta) in
                if type =? IFLA_AF_SPEC then
                  let* l := read (rta_len m rta) in
                  ParseAfSpecAttributes m (RTA_DATA rta) (l - sizeof_rtattr) ;;
                  ret (false, true)
                else ret (true, false)) false in
              if found then ret tt
              else query_loop fuel m ifIndex (nlh + ALIGN4 msg_len) (len - ALIGN4 msg_len)
  end.

Definition QueryInterfaceRaFlags : M Ipv6Client unit :=
  let* received := get raReceived_ in
  if negb received then ret tt
  else
    let* ifname := get interfaceName in
    if Nat.eqb (length ifname) 0 then ret tt
    else
      let* ifIndex := reading6 (fun n => n_nametoindex n ifname) in
      if ifIndex =? 0 then ret tt
      else
        let* response := BuildAndSendNetlinkRequest ifIndex in
        match response with
        | None => ret tt
        | Some data =>
            let m := pad (Z.to_nat NETLINK_RECV_BUFFER_SIZE) data in
            let len := Z.min (Z.of_nat (length data)) NETLINK_RECV_BUFFER_SIZE in
            query_loop (S (Z.to_nat (len / 16))) m ifIndex 0 len
        end.

Definition StartRaFlagsQueryTimer : M Ipv6Client unit :=
  let* queried := get raFlagsQueried_ in
  when (negb queried) (modify (set_raFlagsQueried_ true) ;; modify (fun s => set_ra_timers (S (ra_timers s)) s)).
Definition timer_fires : M Ipv6Client unit :=
  let* n := get ra_timers in
  match n with O => ret tt | S n => modify (set_ra_timers n) ;; QueryInterfaceRaFlags end.

Definition ProcessAddressChange (addr : bytes) (type : AddrType) (isUpdate : bool) : M Ipv6Client unit :=
  let* changed := on_info (fun info => if isUpdate then UpdateAddr info addr type else RemoveAddr info addr) in
  when changed (
    PublishIpv6Result ;;
    when (negb isUpdate) (
      let* ifname := get interfaceName in
      let* callback := get onAddrRemoved_ in
      match callback with Some cb => notify (AddrRemoved cb ifname addr) | None => ret tt end)) ;;
  if isUpdate && bool_decide (type = DEFAULT) then SendRouterSolicitation ;; StartRaFlagsQueryTimer
  else when (negb isUpdate && (bool_decide (type = GLOBAL) || bool_decide (type = RAND))) (SendRouterSolicitation ;; ret tt).

Definition GetInterfaceInfo : M Ipv6Client (option bytes) :=
  let* ifname := get interfaceName in
  let* results := reading6 n_kernel in
  let* answer := reading6 n_ifreq in
  match GetLocalInterface answer ifname 0 [] None (mkKernel results [] []) with
  | Some ((r, _, mac, _), _) => ret (if r =? DHCP_OPT_SUCCESS then Some mac else None)
  | None => undef
  end.

Definition AddIpv6Address (ipv6addr : bytes) (len : Z) : M Ipv6Client AddrType :=
  let* mac := GetInterfaceInfo in
  match mac with
  | None => ret UNKNOW
  | Some _ =>
      let* pClient := get pDhcpV6Client_ in
      let* configured := reading6 (fun n => n_configured n ipv6addr) in
      ret (classify ipv6addr len mac (bool_decide (is_Some pClient) && configured))
  end.

Definition interface_is (ifaIndex : Z) : M Ipv6Client bool :=
  let* ifname := get interfaceName in
  let* index := reading6 (fun n => n_nametoindex n ifname) in
  ret (i32 index =? ifaIndex).

Definition OnIpv6AddressUpdateEvent (addr : bytes) (ifaIndex scope : Z) (isUpdate : bool) : M Ipv6Client unit :=
  let* ours := interface_is ifaIndex in
  if negb ours then ret tt
  else
    let* type :=
      (if scope =? 0 then
         getIpv6RouteAddr ;;
         on_info (fun info => (tt, set_ipv6_status (Z.lor (ipv6_status info) 1) (set_ipv6SubnetAddr memset_128 info))) ;;
         AddIpv6Address addr INET6_ADDRSTRLEN
       else if scope =? IPV6_ADDR_LINKLOCAL then ret DEFAULT
       else ret UNKNOW) in
    if bool_decide (type = UNKNOW) then ret tt else ProcessAddressChange addr type isUpdate.

Definition OnIpv6RouteUpdateEvent (gateway dst : bytes) (ifaIndex : Z) (isAdd : bool) : M Ipv6Client unit :=
  let* ours := interface_is ifaIndex in
  if negb ours then ret tt
  else
    let* isChanged :=
      (if Nat.eqb (length dst) 0 && negb (Nat.eqb (length gateway) 0) then
         if isAdd then
           modify (set_raReceived_ true) ;;
           let* isChanged := on_info (fun info => AddRoute info gateway) in
           QueryInterfaceRaFlags ;;
           ret isChanged
         else
           let* isChanged := on_info (fun info => RemoveRoute info gateway) in
           SendRouterSolicitation ;;
           ret isChanged
       else ret false) in
    when isChanged PublishIpv6Result.

Fixpoint dns_addresses (m : bytes) (addrs : Z) (n : nat) : option (list bytes) :=
  match n with
  | O => Some []
  | S n => a ← rd_bytes m addrs 16; l ← dns_addresses m (addrs + 16) n; Some (inet6_ntop a :: l)
  end.

(** [data] and [len]: the options of the message. *)
Definition onIpv6DnsAddEvent (m : bytes) (data len ifaIndex : Z) : M Ipv6Client unit :=
  let* ours := interface_is ifaIndex in
  if negb ours then ret tt
  else
    on_info (fun info => (tt, set_ipv6_status (Z.lor (ipv6_status info) 2) info)) ;;
    let* optlen := read (rd8 m (data + 1)) in
    if optlen * 8 >? len then ret tt
    else
      let* type := read (rd8 m data) in
      if negb (type =? ND_OPT_RDNSS) then ret tt
      else if (optlen <? ND_OPT_MIN_LEN) || (Z.land optlen 1 =? 0) then ret tt
      else
        let numaddrs := (optlen - 1) / 2 in
        let* lifetime := read (rd32 m (data + 4)) in
        let* dnsAddrVector := read (dns_addresses m (data + 8) (Z.to_nat numaddrs)) in
        let* now := reading6 n_clock in
        let* later_now := reading6 n_clock in
        let* r := get dhcpIpv6DnsRepository_ in
        let (changed, r) := AddServers (u64 now) (u64 later_now) (ntohl lifetime) dnsAddrVector r in
        modify (set_dhcpIpv6DnsRepository_ r) ;;
        when changed (on_info (SetCurrentServers r) ;; PublishIpv6Result).

(** * Messages *)

(** The size [len] of the message covers its header of 16 bytes and its options. *)
Definition parseNdUserOptMessage (m : bytes) (msg len : Z) : M Ipv6Client unit :=
  if len <? 16 + 2 then ret tt
  else
    let* optlen := read (rd16 m (msg + 2)) in
    if optlen >? len then ret tt
    else
      let* family := read (rd8 m msg) in
      if negb (family =? AF_INET6) then ret tt
      else
        let* icmp_type := read (rd8 m (msg + 8)) in
        let* icmp_code := read (rd8 m (msg + 9)) in
        if negb (icmp_type =? KERNEL_ICMP_TYPE) || negb (icmp_code =? 0) then ret tt
        else
          let* ifindex := read (rds32 m (msg + 4)) in
          onIpv6DnsAddEvent m (msg + 16) optlen ifindex.

(** The texts of the two addresses, empty until they are read, and the interface. *)
Record RouteAttributes := mkRoute { rt_dst : bytes; rt_gateway : bytes; rt_ifindex : Z }.

Definition route_attribute (m : bytes) (rtmFamily rta : Z) (a : RouteAttributes) : M Ipv6Client (bool * RouteAttributes) :=
  let* type := read (rta_type m rta) in
  let* len := read (rta_len m rta) in
  if type =? RTA_GATEWAY then
    if len <? RTA_LENGTH 16 then ret (false, a)
    else
      let* addr := read (rd_bytes m (RTA_DATA rta) 16) in
      ret (match GetIpFromS6Address addr rtmFamily with
           | None => (false, a)
           | Some t => (true, mkRoute (rt_dst a) t (rt_ifindex a))
           end)
  else if type =? RTA_DST then
    if len <? RTA_LENGTH 16 then ret (false, a)
    else
      let* addr := read (rd_bytes m (RTA_DATA rta) 16) in
      ret (match GetIpFromS6Address addr rtmFamily with
           | None => (false, a)
           | Some t => (true, mkRoute t (rt_gateway a) (rt_ifindex a))
           end)
  else if type =? RTA_OIF then
    if len <? RTA_LENGTH 4 then ret (false, a)
    else let* v := read (rds32 m (RTA_DATA rta)) in ret (true, mkRoute (rt_dst a) (rt_gateway a) v)
  else if type =? RTA_CACHEINFO then
    if len <? RTA_LENGTH 32 then ret (false, a)
    else
      let* rta_expires := read (rds32 m (RTA_DATA rta + 8)) in
      when (rta_expires >? 0) (on_info (fun info => AddLifetime info (rta_expires / USER_HZ) ROUTE_LIFE) ;; ret tt) ;;
      ret (true, a)
  else ret (true, a).

Definition parseRouteAttributes (m : bytes) (rtMsg size : Z) : M Ipv6Client RouteAttributes :=
  let* rtmFamily := read (rd8 m rtMsg) in
  for_rta m (rtMsg + 12) size (route_attribute m rtmFamily) (mkRoute [] [] (-1)).

Definition parseNDRouteMessage (m : bytes) (hdrMsg : Z) : M Ipv6Client unit :=
  let* len := read (nlmsg_len m hdrMsg) in
  if (len <? 12 + 12) || (len <? 12 + 16) then ret tt
  else
    let rtMsg := NLMSG_DATA hdrMsg in
    let* protocol := read (rd8 m (rtMsg + 5)) in
    let* scope := read (rd8 m (rtMsg + 6)) in
    let* type := read (rd8 m (rtMsg + 7)) in
    let* src_len := read (rd8 m (rtMsg + 2)) in
    let* flags := read (rd32 m (rtMsg + 8)) in
    if (negb (protocol =? RTPROT_KERNEL) && negb (protocol =? RTPROT_RA)) || negb (scope =? 0) || negb (type =? 1)
       || negb (src_len =? 0) || negb (Z.land flags RTM_F_CLONED =? 0) then ret tt
    else
      let* a := parseRouteAttributes m rtMsg (len - 28) in
      let* nl_type := read (nlmsg_type m hdrMsg) in
      OnIpv6RouteUpdateEvent (rt_gateway a) (rt_dst a) (rt_ifindex a) (nl_type =? RTM_NEWROUTE).

(** Logs the address of the neighbour only. *)
Definition parseNewneighMessage (m : bytes) (nlh : Z) : M Ipv6Client unit :=
  let* len := read (nlmsg_len m nlh) in
  if len <? 12 + 16 then ret tt
  else
    let ndm := NLMSG_DATA nlh in
    let* family := read (rd8 m ndm) in
    let* state := read (rd16 m (ndm + 8)) in
    if negb (family =? AF_INET6) || negb (state =? NUD_REACHABLE) then ret tt
    else
      for_rta m (ndm + 12) (len - 28) (fun rta _ =>
        let* type := read (rta_type m rta) in
        if type =? NDA_DST then
          let* l := read (rta_len m rta) in
          if l <? RTA_LENGTH 16 then ret (false, tt)
          else let* _ := read (rd_bytes m (RTA_DATA rta) 16) in ret (false, tt)
        else ret (true, tt)) tt.

Record AddrAttributes := mkAddr { at_address : bytes; at_scope : Z; isTemporary : bool }.

Definition addr_attribute (m : bytes) (family flags rta : Z) (a : AddrAttributes) : M Ipv6Client (bool * AddrAttributes) :=
  let* type := read (rta_type m rta) in
  let* len := read (rta_len m rta) in
  if type =? IFA_ADDRESS then
    if len <? RTA_LENGTH 16 then ret (true, a)
    else
      let* addr := read (rd_bytes m (RTA_DATA rta) 16) in
      ret (match GetIpFromS6Address addr family with
           | None => (false, a)
           | Some t => (true, mkAddr t (GetAddrScope addr) (negb (Z.land flags IFA_F_TEMPORARY =? 0)))
           end)
  else if type =? IFA_CACHEINFO then
    if len <? RTA_LENGTH 16 then ret (true, a)
    else
      let* preferred := read (rd32 m (RTA_DATA rta)) in
      let* valid := read (rd32 m (RTA_DATA rta + 4)) in
      (if isTemporary a then
         on_info (fun info => AddLifetime info preferred TEMP_PREF_LIFE) ;;
         on_info (fun info => AddLifetime info valid TEMP_VALID_LIFE) ;;
         let* info := get dhcpIpv6Info in
         let* ifname := get interfaceName in
         match snd (UpdateUseTempAddr n_realpath (lifetime info) ifname) with
         | Some (path, content) => ModifyKernelFile path content
         | None => ret tt
         end
       else
         on_info (fun info => AddLifetime info preferred PREF_LIFE) ;;
         on_info (fun info => AddLifetime info valid VALID_LIFE) ;;
         ret tt) ;;
      ret (true, a)
  else ret (true, a).

Definition ParseAddrAttributes (m : bytes) (addrMsg len : Z) : M Ipv6Client AddrAttributes :=
  let* family := read (rd8 m addrMsg) in
  let* flags := read (rd8 m (addrMsg + 2)) in
  for_rta m (addrMsg + 8) len (addr_attribute m family flags) (mkAddr [] IPV6_ADDR_LINKLOCAL false).

Definition ParseAddrMessage (m : bytes) (hdrMsg : Z) : M Ipv6Client unit :=
  let* len := read (nlmsg_len m hdrMsg) in
  if len <? 16 + 8 then ret tt
  else
    let* nlType := read (nlmsg_type m hdrMsg) in
    if negb (nlType =? RTM_NEWADDR) && negb (nlType =? RTM_DELADDR) then ret tt
    else
      let addrMsg := NLMSG_DATA hdrMsg in
      let* a := ParseAddrAttributes m addrMsg (len - 24) in
      if Nat.eqb (length (at_address a)) 0 then ret tt
      else
        let* flags := read (rd8 m (addrMsg + 2)) in
        when ((at_scope a =? IPV6_ADDR_SCOPE_GLOBAL) && (nlType =? RTM_DELADDR)) (
          when (negb (Z.land flags IFA_F_DADFAILED =? 0)) (
            let* ifname := get interfaceName in
            let* callback := get onIpv6DadResult_ in
            match callback with Some cb => notify (DadResult cb ifname (at_address a) true) | None => ret tt end)) ;;
        let* index := read (rds32 m (addrMsg + 4)) in
        OnIpv6AddressUpdateEvent (at_address a) index (at_scope a) (nlType =? RTM_NEWADDR).

Definition ParseLinkMessage (m : bytes) (hdrMsg : Z) : M Ipv6Client unit :=
  let* msg_len := read (nlmsg_len m hdrMsg) in
  if msg_len <? 32 then ret tt
  else
    let ifi := NLMSG_DATA hdrMsg in
    let* family := read (rd8 m ifi) in
    if negb (family =? 0) && negb (family =? AF_INET6) then ret tt
    else
      let* ifIndex := read (rd32 m (ifi + 4)) in
      let* ifname := get interfaceName in
      if Nat.eqb (length ifname) 0 then ret tt
      else
        let* myIfIndex := reading6 (fun n => n_nametoindex n ifname) in
        if (myIfIndex =? 0) || negb (ifIndex =? myIfIndex) then ret tt
        else
          let* flags := read (rd32 m (ifi + 8)) in
          if (Z.land flags IFF_RUNNING =? 0) || (Z.land flags IFF_UP =? 0) then ret tt
          else
            for_rta m (ifi + 16) (msg_len - 32) (fun rta _ =>
              let* type := read (rta_type m rta) in
              when (type =? IFLA_AF_SPEC) (
                let* l := read (rta_len m rta) in
                ParseAfSpecAttributes m (RTA_DATA rta) (l - sizeof_rtattr)) ;;
              ret (true, tt)) tt.

(** The body of the loop of handleKernelEvent: whether it goes on. *)
Definition handle_message (m : bytes) (nlh : Z) : M Ipv6Client bool :=
  let* type := read (nlmsg_type m nlh) in
  if (type =? RTM_NEWADDR) || (type =? RTM_DELADDR) then ParseAddrMessage m nlh ;; ret true
  else if type =? RTM_NEWNDUSEROPT then
    let* len := read (nlmsg_len m nlh) in
    if len <? 16 + 16 then ret false
    else parseNdUserOptMessage m (NLMSG_DATA nlh) (len - 32) ;; ret true
  else if (type =? RTM_NEWROUTE) || (type =? RTM_DELROUTE) then parseNDRouteMessage m nlh ;; ret true
  else if type =? RTM_NEWNEIGH then parseNewneighMessage m nlh ;; ret true
  else if type =? RTM_NEWLINK then ParseLinkMessage m nlh ;; ret true
  else ret true.

(** Every message takes sixteen bytes at least. *)
Fixpoint handle_loop (fuel : nat) (m : bytes) (nlh len : Z) : M Ipv6Client unit :=
  match fuel with
  | O => undef
  | S fuel =>
      let* ok := read (NLMSG_OK m nlh len) in
      if negb ok then ret tt
      else
        let* type := read (nlmsg_type m nlh) in
        if type =? NLMSG_DONE then ret tt
        else
          let* go := handle_message m nlh in
          if negb go then ret tt
          else
            let* l := read (nlmsg_len m nlh) in
            handle_loop fuel m (nlh + ALIGN4 l) (len - ALIGN4 l)
  end.
Definition handleKernelEvent (data : bytes) (len : Z) : M Ipv6Client unit :=
  if len <? sizeof_nlmsghdr then ret tt else handle_loop (S (Z.to_nat (len / 16))) data 0 len.

(** * The thread, start and stop *)

Definition createKernelSocket : M Ipv6Client Z :=
  let* sockFd := open_n in
  if sockFd <? 0 then ret (-1)
  else
    let* r := reading6 n_setsockopt in
    if r <? 0 then close_n sockFd ;; ret (-1)
    else
      let* r := reading6 n_setsockopt in
      if r <? 0 then close_n sockFd ;; ret (-1)
      else
        let* r := reading6 n_setsockopt in
        if r <? 0 then close_n sockFd ;; ret (-1)
        else
          let* _ := reading6 n_setsockopt in
          let* r := reading6 n_bind in
          if r <? 0 then close_n sockFd ;; ret (-1) else ret sockFd.

Definition Reset : M Ipv6Client unit :=
  modify (fun s => set_dhcpIpv6DnsRepository_ (ClearRepository (dhcpIpv6DnsRepository_ s)) s) ;;
  on_info (fun info => (tt, Clear info)).

(** SetAcceptRa, SetRouterSolicitations and SetRouterSolicitationInterval differ in the name
    of the file. *)
Definition set_config (name content : bytes) : M Ipv6Client unit :=
  let* ifname := get interfaceName in
  let fileName := str "/proc/sys/net/ipv6/conf/" ++ ifname ++ str "/" ++ name in
  if negb (IsValidPath n_realpath fileName) then ret tt
  else
    let* opened := reading6 n_file_opens in
    when opened (notify (Written fileName content)).
Definition SetAcceptRa (content : bytes) : M Ipv6Client unit := set_config (str "accept_ra") content.
Definition SetRouterSolicitations (content : bytes) : M Ipv6Client unit := set_config (str "router_solicitations") content.
Definition SetRouterSolicitationInterval (content : bytes) : M Ipv6Client unit :=
  set_config (str "router_solicitation_interval") content.

(** StartIpv6 up to its loop, and the end of it. *)
Definition StartIpv6_begins : M Ipv6Client unit :=
  Reset ;;
  let* fd := createKernelSocket in
  modify (set_ipv6SocketFd fd) ;;
  if fd <? 0 then modify (set_runFlag_ false) ;; modify (set_ipv6Thread_ finished)
  else
    let* buff := reading6 n_malloc in
    if negb buff then
      close_n fd ;; modify (set_ipv6SocketFd (-1)) ;; modify (set_runFlag_ false) ;; modify (set_ipv6Thread_ finished)
    else modify (set_ipv6Thread_ looping).
Definition StartIpv6_ends : M Ipv6Client unit :=
  let* fd := get ipv6SocketFd in
  close_n fd ;;
  modify (set_ipv6SocketFd (-1)) ;;
  modify (set_ipv6Thread_ finished).

(** One turn of the loop: the buffer is cleared, then received into. *)
Definition StartIpv6_round : M Ipv6Client unit :=
  let* run := get runFlag_ in
  if negb run then StartIpv6_ends
  else
    let* fd := get ipv6SocketFd in
    if fd <? 0 then StartIpv6_ends
    else
      let* readable := reading6 n_readable in
      if negb readable then ret tt
      else
        let* received := reading6 n_recv in
        match received with
        | None | Some [] => ret tt
        | Some d =>
            handleKernelEvent (pad (Z.to_nat KERNEL_BUFF_SIZE) d) (Z.min (Z.of_nat (length d)) KERNEL_BUFF_SIZE)
        end.

Definition DhcpIpv6Start : M Ipv6Client unit :=
  modify (set_raFlags_ 0) ;;
  modify (set_raFlagsQueried_ false) ;;
  modify (set_raReceived_ false) ;;
  SetAcceptRa (str "2") ;;
  SetRouterSolicitations (str "6") ;;
  SetRouterSolicitationInterval (str "1") ;;
  StartIpv6_begins.

(** A step of the netlink thread. *)
Definition thread_step : M Ipv6Client unit :=
  let* t := get ipv6Thread_ in
  match t with created => DhcpIpv6Start | looping => StartIpv6_round | _ => ret tt end.

Definition StartIpv6Thread (ifname : bytes) : M Ipv6Client Z :=
  let* run := get runFlag_ in
  when (negb run) (
    modify (set_runFlag_ true) ;;
    modify (set_interfaceName ifname) ;;
    let* t := get ipv6Thread_ in
    match t with no_thread => modify (set_ipv6Thread_ created) | _ => ret tt end) ;;
  ret 0.

(** A thread that runs while [runFlag_] is false ends within two steps. *)
Definition join : M Ipv6Client unit := thread_step ;; thread_step.

Definition DhcpIPV6Stop : M Ipv6Client unit :=
  let* run := get runFlag_ in
  if negb run then ret tt
  else
    modify (set_runFlag_ false) ;;
    modify (set_raFlagsQueried_ false) ;;
    modify (set_raReceived_ false) ;;
    modify (set_raFlags_ 0) ;;
    let* fd := get ipv6SocketFd in
    when (fd >? 0) (close_n fd ;; modify (set_ipv6SocketFd (-1))) ;;
    let* t := get ipv6Thread_ in
    match t with no_thread => ret tt | _ => join ;; modify (set_ipv6Thread_ no_thread) end ;;
    modify (set_onIpv6AddressChanged_ None) ;;
    modify (set_onAddrRemoved_ None) ;;
    modify (set_onRaFlagsChanged_ None) ;;
    modify (set_pDhcpV6Client_ None).

(** The destructor; the members are destroyed after its body, and with them the
    thread. *)
Definition destroy6 : M Ipv6Client unit :=
  DhcpIPV6Stop ;;
  let* t := get ipv6Thread_ in
  match t with no_thread => ret tt | _ => undef end.

(** * The other methods *)

Definition IsRunning6 : M Ipv6Client bool := get runFlag_.
Definition SetCallback (callback : option Z) : M Ipv6Client unit := modify (set_onIpv6AddressChanged_ callback).
Definition SetRaFlagsCallback (callback : option Z) : M Ipv6Client unit := modify (set_onRaFlagsChanged_ callback).
Definition SetDadResultCallback (callback : option Z) : M Ipv6Client unit := modify (set_onIpv6DadResult_ callback).
Definition SetAddrRemovedCallback (callback : option Z) : M Ipv6Client unit := modify (set_onAddrRemoved_ callback).
Definition GetRaFlags : M Ipv6Client Z := get raFlags_.
Definition ResetRaFlags : M Ipv6Client unit := modify (set_raFlags_ 0).
Definition SetDhcpV6Client (client : option Z) : M Ipv6Client unit := modify (set_pDhcpV6Client_ client).
Definition UnRegisterDhcpV6Callbacks : M Ipv6Client unit :=
  modify (set_pDhcpV6Client_ None) ;; modify (set_onRaFlagsChanged_ None) ;; modify (set_onIpv6DadResult_ None).
Definition GetIpv6InfoSnapshot : M Ipv6Client (bool * DhcpIpv6Info) :=
  let* info := get dhcpIpv6Info in ret (true, info).
End Client.
