(* ===== verification/Ipv6Invariant.v ===== *)
(** The invariant of the IPv6 client: its descriptors, its repository and what it
    publishes; no message of the kernel makes it read outside its buffer, and each of
    its methods keeps the invariant. *)
From S2P Require Import Prelude AddressUtils CommonUtil RawPacket ClientOptions ClientFunction V6Message Ipv6Info Ipv6InfoProperties Ipv6State Ipv6Client.
Import DnsServers.

(** * Reading memory *)

Section Memory.
Context (m : bytes) (Hm : Forall is_u8 m).

Lemma rd8_ok o : 0 <= o < Z.of_nat (length m) -> defined (rd8 m o) is_u8.
Proof.
  intros H. unfold rd8. rewrite (proj2 (Z.ltb_ge _ _)) by lia.
  destruct (lookup_lt_is_Some_2 m (Z.to_nat o)) as [b Hb]; [lia|]. exists b. split; [done|]. by eapply Forall_lookup in Hm.
Qed.
Lemma rd16_ok o : 0 <= o -> o + 2 <= Z.of_nat (length m) -> defined (rd16 m o) is_u16.
Proof.
  intros H1 H2. unfold rd16. eapply defined_bind; [apply rd8_ok; lia|]. intros a Ha.
  eapply defined_bind; [apply rd8_ok; lia|]. intros b Hb. apply defined_some. unfold is_u8, is_u16 in *. lia.
Qed.
Lemma rd32_ok o : 0 <= o -> o + 4 <= Z.of_nat (length m) -> defined (rd32 m o) is_u32.
Proof.
  intros H1 H2. unfold rd32. eapply defined_bind; [apply rd16_ok; lia|]. intros a Ha.
  eapply defined_bind; [apply rd16_ok; lia|]. intros b Hb. apply defined_some. unfold is_u16, is_u32 in *. lia.
Qed.
Lemma rds32_ok o : 0 <= o -> o + 4 <= Z.of_nat (length m) -> defined (rds32 m o) (fun _ => True).
Proof. intros H1 H2. unfold rds32. eapply defined_bind; [by apply rd32_ok|]. intros a Ha. by apply defined_some. Qed.
Lemma rd_bytes_ok o n : 0 <= o -> 0 <= n -> o + n <= Z.of_nat (length m) ->
  defined (rd_bytes m o n) (fun b => length b = Z.to_nat n /\ Forall is_u8 b).
Proof.
  intros H1 H2 H3. unfold rd_bytes. rewrite (proj2 (Z.leb_le 0 o)), (proj2 (Z.leb_le _ _)) by lia. apply defined_some.
  split; [rewrite length_take, length_drop; lia|]. by apply Forall_take, Forall_drop.
Qed.
Lemma rta_len_ok o : 0 <= o -> o + 2 <= Z.of_nat (length m) -> defined (rta_len m o) is_u16.
Proof. apply rd16_ok. Qed.
Lemma rta_type_ok o : 0 <= o -> o + 4 <= Z.of_nat (length m) -> defined (rta_type m o) is_u16.
Proof. intros. apply rd16_ok; lia. Qed.
Lemma nlmsg_len_ok o : 0 <= o -> o + 4 <= Z.of_nat (length m) -> defined (nlmsg_len m o) is_u32.
Proof. apply rd32_ok. Qed.
Lemma nlmsg_type_ok o : 0 <= o -> o + 16 <= Z.of_nat (length m) -> defined (nlmsg_type m o) is_u16.
Proof. intros. apply rd16_ok; lia. Qed.
End Memory.

Lemma ALIGN4_ge n : n <= ALIGN4 n.
Proof. unfold ALIGN4. pose proof (Z.div_mod (n + 3) 4). pose proof (Z.mod_pos_bound (n + 3) 4). lia. Qed.

Lemma safe_read {S A} (I : S -> Prop) (o : option A) (R : A -> Prop) : defined o R -> safe I (from_option o) R.
Proof. apply safe_from_option. Qed.
Lemma safe_known {S A B} (I : S -> Prop) (o : option A) (a : A) (k : A -> M S B) R :
  o = Some a -> safe I (k a) R -> safe I (bind (from_option o) k) R.
Proof. intros -> H s Hs. by apply H. Qed.

(** Reads of a memory [m] whose bounds follow from the context. *)
Ltac read_ok :=
  apply safe_from_option;
  first [apply rd8_ok | apply rta_len_ok | apply rta_type_ok | apply nlmsg_len_ok | apply nlmsg_type_ok | apply rd16_ok
        | apply rds32_ok | apply rd32_ok | apply rd_bytes_ok];
  first [assumption | unfold NLMSG_DATA, RTA_DATA, sizeof_nlmsghdr, sizeof_rtattr, RTA_LENGTH in *; lia].
Ltac net_step :=
  match goal with
  | H : ?o = Some _ |- safe _ (bind (read ?o) _) _ => apply (safe_known _ _ _ _ _ H)
  | |- safe _ (bind (read _) _) _ => eapply safe_bind; [read_ok|cbv beta; intros ? ?]
  | |- safe _ (bind _ _) _ => first [apply safe_bind_get; intros ? ? | apply (safe_bind _ _ _ (fun _ => True)); [|intros ? _]]
  | _ => safe_step
  end; cbv beta iota zeta; try solve [done | eauto with safe].
Ltac net_steps := repeat net_step.

(** The loop over attributes reads inside the memory when it starts with a length
    inside it. *)
Section Attributes.
Context (I : Ipv6Client -> Prop) (m : bytes) (Hm : Forall is_u8 m).

Definition attribute (rta l : Z) : Prop :=
  0 <= rta /\ rta_len m rta = Some l /\ 4 <= l /\ rta + l <= Z.of_nat (length m).

Lemma RTA_OK_spec rta len : 0 <= rta -> rta + len <= Z.of_nat (length m) ->
  RTA_OK m rta len = Some false \/
  exists l, RTA_OK m rta len = Some true /\ attribute rta l /\ l <= len /\ 4 <= len.
Proof.
  intros H1 H2. unfold RTA_OK, sizeof_rtattr. destruct (len <? 4) eqn:C; [by left|]. apply Z.ltb_ge in C.
  destruct (rta_len_ok m Hm rta) as (l & E & Hl); [lia..|]. rewrite E, bind_some.
  destruct ((4 <=? l) && (l <=? len)) eqn:C2; [right|by left]. btauto_hyps. exists l. split; [done|].
  split; [|done]. repeat split; [done|done|lia|lia].
Qed.

Lemma for_rta_safe {A} rta len (body : Z -> A -> M Ipv6Client (bool * A)) (P : A -> Prop) a :
  0 <= rta -> rta + len <= Z.of_nat (length m) -> P a ->
  (forall rta l a, attribute rta l -> P a -> safe I (body rta a) (fun r => P (snd r))) ->
  safe I (for_rta m rta len body a) P.
Proof.
  intros H1 H2 Ha Hb. unfold for_rta.
  assert (F : (0 < S (Z.to_nat (len / 4)))%nat /\ len < 4 * Z.of_nat (S (Z.to_nat (len / 4)))).
  { pose proof (Z.div_mod len 4). pose proof (Z.mod_pos_bound len 4). lia. }
  revert F. generalize (S (Z.to_nat (len / 4))) as fuel. intros fuel F. revert rta len a H1 H2 Ha F.
  induction fuel as [|fuel IH]; intros rta len a H1 H2 Ha [F1 F2]; [lia|]. cbn [rta_loop].
  destruct (RTA_OK_spec rta len H1 H2) as [E|(l & E & At & Hl & H4)]; apply (safe_known _ _ _ _ _ E); cbn [negb].
  { by apply safe_ret. }
  eapply safe_bind; [by apply (Hb rta l a)|]. intros [go a'] Ha'. cbn in Ha'. destruct go; cbn [negb]; [|by apply safe_ret].
  destruct At as (A1 & A2 & A3 & A4). apply (safe_known _ _ _ _ _ A2).
  pose proof (ALIGN4_ge l). apply IH; [lia|lia|done|lia].
Qed.
End Attributes.

(** * The invariant *)

(** What the client publishes: the addresses, routes and servers of the public structure
    are those it knows. *)
Record info_ok (info : DhcpIpv6Info) : Prop := {
  io_addresses : mirrored info;
  io_subnet : forall a, IpAddrMap info !! a <> Some SUBNET;
  io_routes : routed info;
  io_servers : Forall short (vectorDnsAddr info);
  io_dns : c_str (dnsAddr info) = default [] (vectorDnsAddr info !! 0%nat);
  io_dns2 : c_str (dnsAddr2 info) = default [] (vectorDnsAddr info !! 1%nat)
}.
Definition event_ok (e : ipv6_event) : Prop :=
  match e with
  | Ipv6AddressChanged _ _ info => info_ok info
  | DadResult _ _ _ _ => False            (* no failure of a DAD is ever reported *)
  | AddrRemoved _ _ a => text a
  | Sendto _ d _ => Forall is_u8 d
  | _ => True
  end.
Definition servers_ok (r : DnsServerRepository) : Prop := repo_ok r /\ Forall short (addresses_of (allServers_ r)).

Record live (F : gset Z) (t : NetThread) (run : bool) (fd : Z) (s : Ipv6Client) : Prop := {
  l_open : forall x, x ∈ n_open s <-> x ∈ F \/ (x = fd /\ 0 <= x);
  l_own : 0 <= fd -> fd ∉ F;
  l_fd : ipv6SocketFd s = fd;
  l_thread : ipv6Thread_ s = t;
  l_run : runFlag_ s = run;
  l_servers : servers_ok (dhcpIpv6DnsRepository_ s);
  l_events : Forall event_ok (n_events s)
}.

(** The parts of [dhcpIpv6Info]. *)
Lemma mirrored_ext info info' : IpAddrMap info' = IpAddrMap info -> (forall t, type_array info' t = type_array info t) ->
  mirrored info -> mirrored info'.
Proof.
  intros Em Et [K W S F]. assert (Es : forall t, getTypeStr info' t = getTypeStr info t) by (intros t; unfold getTypeStr; by rewrite Et).
  split; [by rewrite Em|intros t array; rewrite Et; apply W|intros t; rewrite Es, Em; apply S|intros t a; rewrite Es, Em; apply F].
Qed.
Lemma routed_ext info info' : defaultRouteAddr info' = defaultRouteAddr info -> routeAddr info' = routeAddr info ->
  routed info -> routed info'.
Proof. intros Er Ea [T N S]. split; [by rewrite Er|by rewrite Er|by rewrite Ea, Er]. Qed.

(** An operation that leaves the addresses, the routes and the servers alone. *)
Lemma info_ok_ext info info' : IpAddrMap info' = IpAddrMap info -> (forall t, type_array info' t = type_array info t) ->
  defaultRouteAddr info' = defaultRouteAddr info -> routeAddr info' = routeAddr info ->
  vectorDnsAddr info' = vectorDnsAddr info -> dnsAddr info' = dnsAddr info -> dnsAddr2 info' = dnsAddr2 info ->
  info_ok info -> info_ok info'.
Proof.
  intros E1 E2 E3 E4 E5 E6 E7 [A B C D E F]. split; [by eapply mirrored_ext|by rewrite E1|by eapply routed_ext|by rewrite E5|by rewrite E6, E5|by rewrite E7, E5].
Qed.

Lemma Clear_ok info : info_ok (Clear info).
Proof.
  split; [apply mirrored_clear|intros a; cbn; by rewrite lookup_empty|split; cbn; [constructor|constructor|done]|constructor|done|done].
Qed.
Lemma status_ok info v : info_ok info -> info_ok (set_ipv6_status v info).
Proof. by apply info_ok_ext. Qed.
Lemma AddLifetime_ok info v t : info_ok info -> info_ok (snd (AddLifetime info v t)).
Proof.
  unfold AddLifetime. intros H. destruct (_ =? v); [done|]. cbn [snd]. revert H. by apply info_ok_ext; try (intros u; destruct u); destruct t.
Qed.
Lemma subnet_ok info : info_ok info -> info_ok (set_ipv6SubnetAddr memset_128 info).
Proof.
  intros [[K W S G] B C D E F]. split; [|done|by apply (routed_ext info)|done|done|done]. split; [done| | |].
  - by apply (arrays_set SUBNET).
  - intros t. destruct (decide (t = SUBNET)) as [->|D']; [left; reflexivity|]. specialize (S t). by destruct t.
  - intros t a Ha Hu. destruct (decide (t = SUBNET)) as [->|D']; [by destruct (B a)|]. specialize (G t a Ha Hu). by destruct t.
Qed.

(** The operations on addresses leave the rest alone. *)
Definition same_rest (info info' : DhcpIpv6Info) : Prop :=
  defaultRouteAddr info' = defaultRouteAddr info /\ routeAddr info' = routeAddr info /\
  vectorDnsAddr info' = vectorDnsAddr info /\ dnsAddr info' = dnsAddr info /\ dnsAddr2 info' = dnsAddr2 info.
#[export] Instance same_rest_trans : Transitive same_rest.
Proof. intros a b c (A1 & A2 & A3 & A4 & A5) (B1 & B2 & B3 & B4 & B5). repeat split; by etrans. Qed.

Lemma same_rest_array info t v : same_rest info (set_type_array t v info).
Proof. by destruct t. Qed.
Lemma same_rest_remove info t : same_rest info (snd (RemoveAddrInline info t)).
Proof. unfold RemoveAddrInline. by destruct t. Qed.
Lemma same_rest_update info a t : same_rest info (snd (UpdateAddrInline info a t)).
Proof.
  unfold UpdateAddrInline. destruct (_ || _); [done|]. pose proof (same_rest_remove info t) as H.
  destruct (RemoveAddrInline info t) as [[] info1]; cbn [negb snd] in *; [|done].
  destruct (type_array info1 t); [|done]. destruct (copy_string _ _) as [ok array]. cbn [snd].
  etrans; [exact H|apply same_rest_array].
Qed.
Lemma RemoveAddr_rest info a : same_rest info (snd (RemoveAddr info a)).
Proof.
  unfold RemoveAddr. destruct (negb _); [done|]. destruct (_ !! a) as [t|]; [|done].
  destruct (_ && _); [|done]. destruct (negb _).
  - etrans; [|apply same_rest_update]. done.
  - etrans; [|apply same_rest_remove]. done.
Qed.
Lemma UpdateAddr_rest info a t : same_rest info (snd (UpdateAddr info a t)).
Proof.
  unfold UpdateAddr. destruct (negb _); [done|]. case_bool_decide; [done|].
  etrans; [|apply same_rest_update]. pose proof (RemoveAddr_rest info a). by destruct (_ !! a).
Qed.

Lemma info_ok_rest info info' : same_rest info info' -> mirrored info' -> (forall a, IpAddrMap info' !! a <> Some SUBNET) ->
  info_ok info -> info_ok info'.
Proof.
  intros (E1 & E2 & E3 & E4 & E5) M N [A B C D E F].
  split; [done|done|by eapply routed_ext|by rewrite E3|by rewrite E4, E3|by rewrite E5, E3].
Qed.
Lemma UpdateAddr_ok info a t : info_ok info -> text a -> t <> SUBNET -> info_ok (snd (UpdateAddr info a t)).
Proof.
  intros H Ta Ht. destruct (UpdateAddr_spec info a t (io_addresses _ H) Ta) as (i & E & Em & M & _).
  pose proof (UpdateAddr_rest info a t) as R. rewrite E in *. cbn [snd] in *. apply (info_ok_rest info); [done|done| |done].
  intros b. rewrite Em. intros [[_ ?]|[_ Hb]]%lookup_insert_Some; [done|]. by apply (io_subnet _ H) in Hb.
Qed.
Lemma RemoveAddr_ok info a : info_ok info -> text a -> info_ok (snd (RemoveAddr info a)).
Proof.
  intros H Ta. destruct (RemoveAddr_spec info a (io_addresses _ H) Ta) as (i & E & Em & M).
  pose proof (RemoveAddr_rest info a) as R. rewrite E in *. cbn [snd] in *. apply (info_ok_rest info); [done|done| |done].
  intros b. rewrite Em. intros [_ Hb]%lookup_delete_Some. by apply (io_subnet _ H) in Hb.
Qed.

(** The operations on routes leave the rest alone. *)
Lemma route_ok info c : info_ok info -> route_text c -> info_ok (snd (route_step info c)).
Proof.
  intros H Hc. destruct (route_step_spec info c (io_routes _ H) Hc) as (i & E & _ & R). rewrite E. cbn [snd].
  assert (X : exists v w, i = set_defaultRouteAddr v (set_routeAddr w info)).
  { revert E. destruct c as [r|r]; cbn [route_step]; unfold AddRoute, RemoveRoute.
    - case_bool_decide; [intros [= _ <-]; by exists (defaultRouteAddr info), (routeAddr info); destruct info|].
      destruct (first_route _ _) as [ok array]. intros [= _ <-]. by eexists _, _.
    - destruct (Nat.eqb _ 0); [intros [= _ <-]; by exists (defaultRouteAddr info), memset_128; destruct info|].
      destruct (erase_route _ _ _ _) as [b l]. destruct (first_route _ _) as [ok array]. intros [= _ <-]. by eexists _, _. }
  destruct X as (v & w & ->). destruct H as [A B C D E' F]. split; [|done|done|done|done|done].
  revert A. apply mirrored_ext; [done|by intros []].
Qed.

(** The repository, and the servers it gives. *)
Lemma servers_new n : servers_ok (NewRepository n).
Proof. split; [apply NewRepository_ok|constructor]. Qed.
Lemma servers_clear r : servers_ok (ClearRepository r).
Proof. split; [apply ClearRepository_ok|constructor]. Qed.
Lemma announce_source now x l m a y : fold_left (announce now x) l m !! a = Some y -> a ∈ l \/ is_Some (m !! a).
Proof.
  revert m. induction l as [|b l IH]; intros m; cbn [fold_left]; [intros H; right; by exists y|].
  intros [?|Ha]%IH; [left; by right|]. unfold announce in Ha. destruct (_ || _); [|by right].
  destruct (decide (a = b)) as [->|D]; [left; by left|right; by rewrite lookup_insert_ne in Ha].
Qed.

Section Servers.
Context {L : StandardLibrary} {LL : StandardLibraryLaws L}.

Lemma AddServers_ok now later_now value l r : servers_ok r -> Forall short l ->
  servers_ok (snd (AddServers now later_now value l r)).
Proof.
  intros [H T] Hl. destruct (AddServers_spec now later_now value l r H) as (b & r' & E & _ & A). rewrite E. cbn [snd].
  destruct (_ && _); [by destruct A as [_ ->]|]. split; [by destruct A|].
  apply Forall_forall. intros a (e & -> & He)%list_elem_of_fmap. destruct A as [_ A _ _ _ _]. destruct (A e He) as [Ht _].
  apply announce_source in Ht as [Ha|Ha%table_dom]; [by eapply Forall_forall in Hl|by eapply Forall_forall in T].
Qed.
Lemma SetCurrentServers_ok r info : servers_ok r -> info_ok info -> info_ok (snd (SetCurrentServers r info)).
Proof.
  intros [H T] Hi. assert (Hc : forall a, a ∈ currentServers_ r -> short a).
  { intros a Ha. apply (ro_current _ H) in Ha. by eapply Forall_forall in T. }
  destruct (SetCurrentServers_spec r info Hc) as (i & E & V & D1 & D2 & Em & Et & Er & Ea). rewrite E. cbn [snd].
  destruct Hi as [A B C D F G]. split; [by eapply mirrored_ext|by rewrite Em|by eapply routed_ext| |by rewrite D1, V|by rewrite D2, V].
  rewrite V. apply Forall_forall. intros a Ha. rewrite set_iteration_law in Ha. by apply Hc, elem_of_elements.
Qed.
End Servers.

(** * The methods keep the invariant *)

Section Invariant.
Context {I6 : Inet6Text} {L6 : Inet6TextLaws I6} {SL : StandardLibrary} {LL : StandardLibraryLaws SL}.
Context {PL : Ipv6Platform} {LP : Ipv6PlatformLaws PL}.

Lemma ntop_short a : length a = 16%nat -> Forall is_u8 a -> short (inet6_ntop a).
Proof.
  intros H1 H2. destruct (inet6_ntop_text a H1 H2) as [Hl Hz]. split; [lia|]. eapply Forall_impl; [exact Hz|]. by intros x [].
Qed.

Section At.
Context (F : gset Z) (t : NetThread) (run : bool) (fd : Z) (P : DhcpIpv6Info -> Prop).
Definition at6 (s : Ipv6Client) : Prop := live F t run fd s /\ P (dhcpIpv6Info s).
Notation J := at6.

Ltac keep_live := intros s [[] Hp]; split; [done|]; split; [split; cbn; assumption|exact Hp].

Lemma reading6_safe {A} (r : nat -> A) (Q : A -> Prop) : (forall n, Q (r n)) -> safe J (reading6 r) Q.
Proof. intros H s [[] Hp]. split; [apply H|]. split; [by split|exact Hp]. Qed.
Lemma reading6_any {A} (r : nat -> A) : safe J (reading6 r) (fun _ => True).
Proof. by apply reading6_safe. Qed.
Lemma notify_safe e : event_ok e -> safe J (notify e) (fun _ => True).
Proof. intros He s [[] Hp]. split; [done|]. split; [split; cbn; try assumption; apply Forall_app; auto|exact Hp]. Qed.
Lemma name_safe v : safe J (modify (set_interfaceName v)) (fun _ => True).
Proof. keep_live. Qed.
Lemma queried_safe v : safe J (modify (set_raFlagsQueried_ v)) (fun _ => True).
Proof. keep_live. Qed.
Lemma raflags_safe v : safe J (modify (set_raFlags_ v)) (fun _ => True).
Proof. keep_live. Qed.
Lemma received_safe v : safe J (modify (set_raReceived_ v)) (fun _ => True).
Proof. keep_live. Qed.
Lemma changed_cb_safe v : safe J (modify (set_onIpv6AddressChanged_ v)) (fun _ => True).
Proof. keep_live. Qed.
Lemma flags_cb_safe v : safe J (modify (set_onRaFlagsChanged_ v)) (fun _ => True).
Proof. keep_live. Qed.
Lemma dad_cb_safe v : safe J (modify (set_onIpv6DadResult_ v)) (fun _ => True).
Proof. keep_live. Qed.
Lemma removed_cb_safe v : safe J (modify (set_onAddrRemoved_ v)) (fun _ => True).
Proof. keep_live. Qed.
Lemma client6_safe v : safe J (modify (set_pDhcpV6Client_ v)) (fun _ => True).
Proof. keep_live. Qed.
Lemma timers_safe (f : Ipv6Client -> nat) : safe J (modify (fun s => set_ra_timers (f s) s)) (fun _ => True).
Proof. keep_live. Qed.
Lemma timers_safe' v : safe J (modify (set_ra_timers v)) (fun _ => True).
Proof. keep_live. Qed.
Lemma servers_safe r : servers_ok r -> safe J (modify (set_dhcpIpv6DnsRepository_ r)) (fun _ => True).
Proof. intros Hr s [[] Hp]. split; [done|]. by split; [split|]. Qed.
Hint Resolve reading6_any name_safe queried_safe raflags_safe received_safe changed_cb_safe flags_cb_safe dad_cb_safe
  removed_cb_safe client6_safe timers_safe timers_safe' : safe.

(** A socket that is opened and closed by the same function. *)
Lemma SendRouterSolicitation_safe : safe J SendRouterSolicitation (fun _ => True).
Proof.
  intros s [[] Hp]. unfold SendRouterSolicitation, open_n, close_n, notify, reading6, wp, bind, get, modify, ret, when. cbn.
  destruct (n_socket_law (n_reads s) (n_open s)) as [E|[E1 E2]].
  - rewrite E. cbn. split; [done|]. split; [by split|done].
  - apply Z.ltb_ge in E1. rewrite !E1. cbn. rewrite ?E1.
    assert (X : (n_open s ∪ {[n_socket (n_reads s) (n_open s)]}) ∖ {[n_socket (n_reads s) (n_open s)]} = n_open s) by set_solver.
    assert (Ev : event_ok (Sendto (n_socket (n_reads s) (n_open s)) ([ND_ROUTER_SOLICIT] ++ zeros 7)
      (n_nametoindex (S (S (n_reads s))) (interfaceName s)))) by (apply all_u8; by vm_compute).
    destruct (n_setsockopt _ <? 0); cbn; rewrite ?X; [split; [done|]; split; [by split|done]|].
    destruct (n_sendto _ <? 0); cbn; rewrite X; (split; [done|]); (split; [split; cbn; try assumption; apply Forall_app; auto|done]).
Qed.

Lemma is_u8_le32 x : Forall is_u8 (le32 x).
Proof. unfold le32, is_u8. repeat constructor; apply Z.mod_pos_bound; lia. Qed.

Lemma is_u8_request i : Forall is_u8 (link_request i).
Proof.
  unfold link_request. rewrite !Forall_app.
  split_and!; first [apply is_u8_le32|apply Forall_take, is_u8_le32|by apply Forall_replicate].
Qed.
Lemma BuildAndSend_safe i : safe J (BuildAndSendNetlinkRequest i)
  (fun r => match r with Some d => Forall is_u8 d /\ Z.of_nat (length d) + 16 <= NETLINK_RECV_BUFFER_SIZE | None => True end).
Proof.
  intros s [[] Hp]. unfold BuildAndSendNetlinkRequest, open_n, close_n, notify, reading6, wp, bind, get, modify, ret, when. cbn -[link_request].
  destruct (n_socket_law (n_reads s) (n_open s)) as [E|[E1 E2]].
  - rewrite E. cbn. split; [done|]. split; [by split|done].
  - apply Z.ltb_ge in E1. rewrite !E1. cbn -[link_request]. rewrite ?E1.
    assert (X : (n_open s ∪ {[n_socket (n_reads s) (n_open s)]}) ∖ {[n_socket (n_reads s) (n_open s)]} = n_open s) by set_solver.
    pose proof (is_u8_request i) as Hd.
    destruct (n_sendto _ <? 0); cbn; rewrite X.
    + split; [done|]. split; [split; cbn; try assumption; apply Forall_app; auto|done].
    + split; [|split; [split; cbn; try assumption; apply Forall_app; auto|done]].
      destruct (n_answer _) eqn:Ea; [|done]. by apply n_answer_law in Ea.
Qed.
Hint Resolve SendRouterSolicitation_safe : safe.

Lemma NotifyRaFlagsChanged_safe a b : safe J (NotifyRaFlagsChanged a b) (fun _ => True).
Proof.
  unfold NotifyRaFlagsChanged. cbv zeta. apply safe_bind_get; intros s0 _. apply safe_bind_get; intros s1 _.
  apply (safe_bind _ _ _ (fun _ => True)); [|intros _ _; apply raflags_safe].
  destruct (Nat.eqb _ 0); [by apply safe_ret|]. destruct (onRaFlagsChanged_ s1); [by apply notify_safe|by apply safe_ret].
Qed.
Hint Resolve NotifyRaFlagsChanged_safe : safe.

Section Mem.
Context (m : bytes) (Hm : Forall is_u8 m).

Lemma ParseAfSpecAttributes_safe rta len : 0 <= rta -> rta + len <= Z.of_nat (length m) ->
  safe J (ParseAfSpecAttributes m rta len) (fun _ => True).
Proof.
  intros H1 H2. unfold ParseAfSpecAttributes. apply for_rta_safe; [done..|]. intros af l [] (A1 & A2 & A3 & A4) _.
  apply (safe_bind _ _ _ (fun _ => True)); [|intros _ _; by apply safe_ret].
  unfold af_attribute. net_step. destruct (negb _); [by apply safe_ret|]. net_step.
  apply for_rta_safe; unfold RTA_DATA, sizeof_rtattr; [done|lia|lia|done|]. intros inner l' [] (B1 & B2 & B3 & B4) _.
  apply (safe_bind _ _ _ (fun _ => True)); [|intros _ _; by apply safe_ret].
  unfold inner_attribute. net_step. destruct (negb _); [by apply safe_ret|]. net_step.
  destruct (_ <? 4) eqn:C; [by apply safe_ret|]. apply Z.ltb_ge in C. unfold sizeof_rtattr in C. net_steps.
Qed.
End Mem.

Lemma nlmsg_ok m nlh len : Forall is_u8 m -> 0 <= nlh -> nlh + len <= Z.of_nat (length m) ->
  NLMSG_OK m nlh len = Some false \/
  exists l, NLMSG_OK m nlh len = Some true /\ nlmsg_len m nlh = Some l /\ 16 <= l <= len.
Proof.
  intros Hm H1 H2. unfold NLMSG_OK, sizeof_nlmsghdr. destruct (len <? 16) eqn:C; [by left|]. apply Z.ltb_ge in C.
  destruct (nlmsg_len_ok m Hm nlh) as (l & E & Hl); [lia..|]. rewrite E, bind_some.
  destruct ((16 <=? l) && (l <=? len)) eqn:C2; [right|by left]. btauto_hyps. by exists l.
Qed.

(** The loop over the answer of the kernel reads up to 16 bytes past its end. *)
Lemma query_loop_safe fuel m ifIndex nlh len : Forall is_u8 m -> 0 <= nlh -> nlh + len + 16 <= Z.of_nat (length m) ->
  (0 < fuel)%nat -> len < 16 * Z.of_nat fuel -> len < 2 ^ 31 -> safe J (query_loop fuel m ifIndex nlh len) (fun _ => True).
Proof.
  intros Hm. revert nlh len. induction fuel as [|fuel IH]; intros nlh len H1 H2 F1 F2 Hb; [lia|]. cbn [query_loop].
  destruct (nlmsg_ok m nlh len Hm H1) as [E|(l & E & El & Hl)]; [lia| |]; apply (safe_known _ _ _ _ _ E); cbn [negb];
    [by apply safe_ret|].
  net_step. apply (safe_known _ _ _ _ _ El). destruct (_ || _); [by apply safe_ret|].
  pose proof (ALIGN4_ge l) as G.
  assert (Next : safe J (query_loop fuel m ifIndex (nlh + ALIGN4 l) (len - ALIGN4 l)) (fun _ => True)) by (apply IH; lia).
  net_step. destruct (negb _); [exact Next|]. net_step. destruct (_ || _); [by apply safe_ret|].
  eapply (safe_bind _ _ _ (fun _ => True)); [|intros [] _; [by apply safe_ret|exact Next]].
  assert (R : i32 (u32 (l - 28)) = l - 28).
  { unfold i32, u32. destruct (Z.le_gt_cases 28 l).
    - rewrite (Z.mod_small (l - 28) (2 ^ 32)) by lia. rewrite Z.mod_small; lia.
    - replace ((l - 28) mod 2 ^ 32) with (l - 28 + 2 ^ 32) by (apply (Z.mod_unique _ _ (-1)); lia).
      replace (l - 28 + 2 ^ 32 + 2 ^ 31) with (l - 28 + 2 ^ 31 + 1 * 2 ^ 32) by lia.
      rewrite Z.mod_add by lia. rewrite Z.mod_small; lia. }
  rewrite R. apply for_rta_safe; [done|unfold NLMSG_DATA, sizeof_nlmsghdr; lia..|done|].
  intros rta l' _ (A1 & A2 & A3 & A4) _. net_step. destruct (_ =? IFLA_AF_SPEC); [|by apply safe_ret].
  apply (safe_known _ _ _ _ _ A2). apply (safe_bind _ _ _ (fun _ => True)); [|intros _ _; by apply safe_ret].
  apply ParseAfSpecAttributes_safe; [done|unfold RTA_DATA, sizeof_rtattr; lia..].
Qed.

Lemma padded_u8 n d : Forall is_u8 d -> Forall is_u8 (pad n d).
Proof. intros H. unfold pad. apply Forall_take, Forall_app. split; [done|]. apply Forall_replicate. unfold is_u8. lia. Qed.

Lemma QueryInterfaceRaFlags_safe : safe J QueryInterfaceRaFlags (fun _ => True).
Proof.
  unfold QueryInterfaceRaFlags. apply safe_bind_get; intros s0 _. destruct (negb _); [by apply safe_ret|].
  apply safe_bind_get; intros s1 _. destruct (Nat.eqb _ 0); [by apply safe_ret|].
  eapply safe_bind; [apply reading6_any|]. intros i _. destruct (i =? 0); [by apply safe_ret|].
  eapply safe_bind; [apply BuildAndSend_safe|]. intros [d|] Hd; [|by apply safe_ret]. destruct Hd as [Hd Hl]. cbv zeta.
  unfold NETLINK_RECV_BUFFER_SIZE in *.
  assert (E : Z.min (Z.of_nat (length d)) 8192 = Z.of_nat (length d)) by lia. rewrite E.
  assert (Q : Z.of_nat (length d) < 16 * Z.of_nat (S (Z.to_nat (Z.of_nat (length d) / 16)))).
  { pose proof (Z.div_mod (Z.of_nat (length d)) 16). pose proof (Z.mod_pos_bound (Z.of_nat (length d)) 16). lia. }
  apply query_loop_safe; [by apply padded_u8|lia|rewrite length_pad; lia|lia|exact Q|lia].
Qed.
Hint Resolve QueryInterfaceRaFlags_safe : safe.

Lemma StartRaFlagsQueryTimer_safe : safe J StartRaFlagsQueryTimer (fun _ => True).
Proof.
  unfold StartRaFlagsQueryTimer. apply safe_bind_get; intros s0 _. apply safe_when; [|done]. intros _.
  apply (safe_bind _ _ _ (fun _ => True)); [apply queried_safe|intros _ _; apply timers_safe].
Qed.
Lemma timer_fires_safe : safe J timer_fires (fun _ => True).
Proof.
  unfold timer_fires. apply safe_bind_get; intros s0 _. destruct (ra_timers s0); [by apply safe_ret|].
  apply (safe_bind _ _ _ (fun _ => True)); [apply timers_safe'|intros _ _; apply QueryInterfaceRaFlags_safe].
Qed.
Lemma interface_is_safe i : safe J (interface_is i) (fun _ => True).
Proof.
  unfold interface_is. apply safe_bind_get; intros s0 _. eapply safe_bind; [apply reading6_any|]. intros x _. by apply safe_ret.
Qed.
Lemma on_info_safe {A} (f : DhcpIpv6Info -> A * DhcpIpv6Info) : (forall info, P info -> P (snd (f info))) ->
  safe J (on_info f) (fun _ => True).
Proof.
  intros H s [[] Hp]. unfold wp, on_info. specialize (H _ Hp). destruct (f (dhcpIpv6Info s)) as [a info]. split; [done|].
  by split; [split|].
Qed.
Lemma ModifyKernelFile_safe p c : safe J (ModifyKernelFile p c) (fun _ => True).
Proof.
  unfold ModifyKernelFile. eapply safe_bind; [apply reading6_any|]. intros o _. apply safe_when; [|done]. intros _. by apply notify_safe.
Qed.
Lemma set_config_safe6 n c : safe J (set_config n c) (fun _ => True).
Proof.
  unfold set_config. apply safe_bind_get; intros s0 _. cbv zeta. destruct (negb _); [by apply safe_ret|].
  eapply safe_bind; [apply reading6_any|]. intros o _. apply safe_when; [|done]. intros _. by apply notify_safe.
Qed.
Lemma GetInterfaceInfo_safe : safe J GetInterfaceInfo (fun _ => True).
Proof.
  unfold GetInterfaceInfo. apply safe_bind_get; intros s0 _. eapply safe_bind; [apply reading6_any|]. intros rs _.
  eapply safe_bind; [apply reading6_any|]. intros a _.
  assert (D : exists x k, GetLocalInterface a (interfaceName s0) 0 [] None (mkKernel rs [] []) = Some (x, k)).
  { unfold GetLocalInterface. case_bool_decide; [by eexists _, _|]. unfold bind, syscall, ioctl, close. cbn.
    repeat match goal with |- context [if ?b then _ else _] => destruct b end; by eexists _, _. }
  destruct D as ([[[r i] mac] ad] & k & ->). by apply safe_ret.
Qed.
Lemma AddIpv6Address_safe a n : safe J (AddIpv6Address a n) (fun t => t <> SUBNET).
Proof.
  unfold AddIpv6Address. eapply safe_bind; [apply GetInterfaceInfo_safe|]. intros [mac|] _; [|by apply safe_ret].
  apply safe_bind_get; intros s0 _. eapply safe_bind; [apply reading6_any|]. intros c _. apply safe_ret.
  unfold classify. repeat (destruct (_ : bool)); done.
Qed.
End At.

(** While the thread handles messages the public structure is what the client knows. *)
Section Handling.
Context (F : gset Z) (t : NetThread) (run : bool) (fd : Z).
Notation J := (at6 F t run fd info_ok).
Hint Resolve reading6_any queried_safe raflags_safe received_safe SendRouterSolicitation_safe
  StartRaFlagsQueryTimer_safe QueryInterfaceRaFlags_safe interface_is_safe : safe.

Lemma PublishIpv6Result_safe : safe J PublishIpv6Result (fun _ => True).
Proof.
  unfold PublishIpv6Result. apply safe_bind_get; intros s0 _. apply safe_bind_get; intros s1 [_ Hi].
  apply safe_bind_get; intros s2 _. destruct (onIpv6AddressChanged_ s2); [by apply notify_safe|by apply safe_ret].
Qed.
Hint Resolve PublishIpv6Result_safe : safe.

Lemma ProcessAddressChange_safe a ty b : text a -> ty <> SUBNET -> safe J (ProcessAddressChange a ty b) (fun _ => True).
Proof.
  intros Ha Ht. unfold ProcessAddressChange. apply (safe_bind _ _ _ (fun _ => True)).
  { apply on_info_safe. intros info Hi. destruct b; [by apply UpdateAddr_ok|by apply RemoveAddr_ok]. }
  intros ch _. apply (safe_bind _ _ _ (fun _ => True)).
  { apply safe_when; [|done]. intros _. apply (safe_bind _ _ _ (fun _ => True)); [apply PublishIpv6Result_safe|]. intros _ _.
    apply safe_when; [|done]. intros _. apply safe_bind_get; intros s1 _. apply safe_bind_get; intros s2 _.
    destruct (onAddrRemoved_ s2); [by apply notify_safe|by apply safe_ret]. }
  intros _ _. destruct (b && _).
  - apply (safe_bind _ _ _ (fun _ => True)); [apply SendRouterSolicitation_safe|]. intros _ _. apply StartRaFlagsQueryTimer_safe.
  - apply safe_when; [|done]. intros _. apply (safe_bind _ _ _ (fun _ => True)); [apply SendRouterSolicitation_safe|].
    intros _ _. by apply safe_ret.
Qed.

Lemma getIpv6RouteAddr_safe : safe J getIpv6RouteAddr (fun _ => True).
Proof.
  unfold getIpv6RouteAddr. apply safe_bind_get; intros s0 _. apply (safe_bind _ _ _ (fun _ => True)).
  { apply notify_safe. cbn [event_ok]. unfold fillRouteData. rewrite !Forall_app.
    split_and!; first [apply is_u8_le32|apply Forall_take, is_u8_le32|by apply Forall_replicate]. }
  intros _ _. eapply safe_bind; [apply reading6_any|]. intros _ _. by apply safe_ret.
Qed.

Lemma OnIpv6AddressUpdateEvent_safe a i sc b : text a -> safe J (OnIpv6AddressUpdateEvent a i sc b) (fun _ => True).
Proof.
  intros Ha. unfold OnIpv6AddressUpdateEvent. eapply safe_bind; [apply interface_is_safe|]. intros ours _.
  destruct (negb ours); [by apply safe_ret|]. eapply (safe_bind _ _ _ (fun ty => ty <> SUBNET)).
  - destruct (sc =? 0); [|by destruct (_ =? _); apply safe_ret].
    apply (safe_bind _ _ _ (fun _ => True)); [apply getIpv6RouteAddr_safe|]. intros _ _.
    apply (safe_bind _ _ _ (fun _ => True)); [|intros _ _; apply AddIpv6Address_safe].
    apply on_info_safe. intros info Hi. by apply status_ok, subnet_ok.
  - intros ty Ht. case_bool_decide; [by apply safe_ret|by apply ProcessAddressChange_safe].
Qed.

Lemma OnIpv6RouteUpdateEvent_safe g d i b : short g -> safe J (OnIpv6RouteUpdateEvent g d i b) (fun _ => True).
Proof.
  intros Hg. unfold OnIpv6RouteUpdateEvent. eapply safe_bind; [apply interface_is_safe|]. intros ours _.
  destruct (negb ours); [by apply safe_ret|]. apply (safe_bind _ _ _ (fun _ => True)).
  2:{ intros ch _. apply safe_when; [|done]. intros _. apply PublishIpv6Result_safe. }
  destruct (_ && _) eqn:C; [|by apply safe_ret]. apply andb_prop in C as [_ C].
  assert (Tg : text g) by (split; [by destruct g|done]). destruct b.
  - apply (safe_bind _ _ _ (fun _ => True)); [apply received_safe|]. intros _ _.
    apply (safe_bind _ _ _ (fun _ => True)); [apply on_info_safe; intros info Hi; by apply (route_ok info (route_added g))|].
    intros ch _. apply (safe_bind _ _ _ (fun _ => True)); [apply QueryInterfaceRaFlags_safe|]. intros _ _. by apply safe_ret.
  - apply (safe_bind _ _ _ (fun _ => True)); [apply on_info_safe; intros info Hi; by apply (route_ok info (route_removed g))|].
    intros ch _. apply (safe_bind _ _ _ (fun _ => True)); [apply SendRouterSolicitation_safe|]. intros _ _. by apply safe_ret.
Qed.

Section Messages.
Context (m : bytes) (Hm : Forall is_u8 m).

Lemma dns_addresses_ok o n : 0 <= o -> o + 16 * Z.of_nat n <= Z.of_nat (length m) ->
  defined (dns_addresses m o n) (Forall short).
Proof.
  revert o. induction n as [|n IH]; intros o H1 H2; cbn [dns_addresses]; [by apply defined_some|].
  eapply defined_bind; [apply rd_bytes_ok; [done|lia..]|]. intros a [Ha1 Ha2]. eapply defined_bind; [apply IH; lia|].
  intros l Hl. apply defined_some. constructor; [by apply ntop_short|done].
Qed.

Lemma onIpv6DnsAddEvent_safe data len i : 0 <= data -> 0 <= len -> data + Z.max 2 len <= Z.of_nat (length m) ->
  safe J (onIpv6DnsAddEvent m data len i) (fun _ => True).
Proof.
  intros H1 H0 H2. unfold onIpv6DnsAddEvent. eapply safe_bind; [apply interface_is_safe|]. intros ours _.
  destruct (negb ours); [by apply safe_ret|].
  apply (safe_bind _ _ _ (fun _ => True)); [apply on_info_safe; intros info Hi; by apply status_ok|]. intros _ _.
  net_step. rename a into optlen, H into Ho. destruct (_ >? len) eqn:C; [by apply safe_ret|].
  rewrite Z.gtb_ltb in C. apply Z.ltb_ge in C.
  net_step. destruct (negb _); [by apply safe_ret|].
  destruct ((optlen <? ND_OPT_MIN_LEN) || (Z.land optlen 1 =? 0)) eqn:C2; [by apply safe_ret|].
  apply orb_false_elim in C2 as [C2 _]. apply Z.ltb_ge in C2. unfold ND_OPT_MIN_LEN in C2. cbv zeta.
  net_step. assert (N : 8 + 16 * ((optlen - 1) / 2) <= 8 * optlen).
  { pose proof (Z.div_mod (optlen - 1) 2). pose proof (Z.mod_pos_bound (optlen - 1) 2). lia. }
  assert (N0 : 0 <= (optlen - 1) / 2) by (apply Z.div_pos; lia).
  eapply safe_bind; [apply safe_from_option, (dns_addresses_ok (data + 8) (Z.to_nat ((optlen - 1) / 2))); lia|]. intros l Hl.
  eapply safe_bind; [apply reading6_any|]. intros now _. eapply safe_bind; [apply reading6_any|]. intros later_now _.
  apply safe_bind_get; intros s0 [[] _].
  pose proof (AddServers_ok (u64 now) (u64 later_now) (ntohl a0) l _ l_servers0 Hl) as R.
  destruct (AddServers _ _ _ _ _) as [ch r]. cbn [snd] in R.
  apply (safe_bind _ _ _ (fun _ => True)); [by apply servers_safe|]. intros _ _. apply safe_when; [|done]. intros _.
  apply (safe_bind _ _ _ (fun _ => True)); [|intros _ _; apply PublishIpv6Result_safe].
  apply on_info_safe. intros info Hi. by apply SetCurrentServers_ok.
Qed.

(** A message of the kernel that lies in the memory. *)
Definition message (nlh l : Z) : Prop :=
  0 <= nlh /\ nlmsg_len m nlh = Some l /\ 16 <= l /\ nlh + l <= Z.of_nat (length m).

Lemma parseNdUserOptMessage_safe msg len : 0 <= msg -> msg + 16 + len <= Z.of_nat (length m) ->
  safe J (parseNdUserOptMessage m msg len) (fun _ => True).
Proof.
  intros H1 H2. unfold parseNdUserOptMessage. destruct (len <? 16 + 2) eqn:C; [by apply safe_ret|]. apply Z.ltb_ge in C.
  net_step. rename a into optlen, H into Ho. destruct (optlen >? len) eqn:C2; [by apply safe_ret|].
  rewrite Z.gtb_ltb in C2. apply Z.ltb_ge in C2.
  net_step. destruct (negb _); [by apply safe_ret|]. net_step. net_step. destruct (_ || _); [by apply safe_ret|]. net_step.
  unfold is_u16 in Ho. apply onIpv6DnsAddEvent_safe; lia.
Qed.

Definition route_texts (a : RouteAttributes) : Prop := short (rt_dst a) /\ short (rt_gateway a).

Lemma short_nil : short [].
Proof. split; [cbn; lia|constructor]. Qed.

Lemma route_attribute_safe family rta l a : attribute m rta l -> route_texts a ->
  safe J (route_attribute m family rta a) (fun r => route_texts (snd r)).
Proof.
  intros (A1 & A2 & A3 & A4) [T1 T2]. unfold route_attribute. net_step. apply (safe_known _ _ _ _ _ A2).
  assert (G : forall s, short s -> route_texts (mkRoute (rt_dst a) s (rt_ifindex a)) /\ route_texts (mkRoute s (rt_gateway a) (rt_ifindex a))) by done.
  destruct (_ =? RTA_GATEWAY).
  { destruct (l <? RTA_LENGTH 16) eqn:C; [by apply safe_ret|]. apply Z.ltb_ge in C. unfold RTA_LENGTH, sizeof_rtattr in C.
    net_step. destruct H0 as [B1 B2]. apply safe_ret. unfold GetIpFromS6Address. destruct (negb _); [done|]. apply G. by apply ntop_short. }
  destruct (_ =? RTA_DST).
  { destruct (l <? RTA_LENGTH 16) eqn:C; [by apply safe_ret|]. apply Z.ltb_ge in C. unfold RTA_LENGTH, sizeof_rtattr in C.
    net_step. destruct H0 as [B1 B2]. apply safe_ret. unfold GetIpFromS6Address. destruct (negb _); [done|]. apply G. by apply ntop_short. }
  destruct (_ =? RTA_OIF).
  { destruct (l <? RTA_LENGTH 4) eqn:C; [by apply safe_ret|]. apply Z.ltb_ge in C. unfold RTA_LENGTH, sizeof_rtattr in C.
    net_step; by apply safe_ret. }
  destruct (_ =? RTA_CACHEINFO); [|by apply safe_ret].
  destruct (l <? RTA_LENGTH 32) eqn:C; [by apply safe_ret|]. apply Z.ltb_ge in C. unfold RTA_LENGTH, sizeof_rtattr in C.
  net_step. apply (safe_bind _ _ _ (fun _ => True)); [|intros _ _; by apply safe_ret].
  apply safe_when; [|done]. intros _. apply (safe_bind _ _ _ (fun _ => True)); [|intros _ _; by apply safe_ret].
  apply on_info_safe. intros info Hi. by apply AddLifetime_ok.
Qed.

Lemma parseNDRouteMessage_safe nlh l : message nlh l -> safe J (parseNDRouteMessage m nlh) (fun _ => True).
Proof.
  intros (M1 & M2 & M3 & M4). unfold parseNDRouteMessage. apply (safe_known _ _ _ _ _ M2).
  destruct (_ || _) eqn:C; [by apply safe_ret|]. apply orb_false_elim in C as [_ C]. apply Z.ltb_ge in C. cbv zeta.
  do 5 net_step. destruct (_ || _); [by apply safe_ret|]. eapply (safe_bind _ _ _ route_texts).
  - unfold parseRouteAttributes. net_step.
    apply for_rta_safe; [done|unfold NLMSG_DATA, sizeof_nlmsghdr; lia..|split; apply short_nil|].
    intros rta l' x At Hx. by eapply route_attribute_safe.
  - intros x [_ Hx]. net_step. by apply OnIpv6RouteUpdateEvent_safe.
Qed.

Lemma parseNewneighMessage_safe nlh l : message nlh l -> safe J (parseNewneighMessage m nlh) (fun _ => True).
Proof.
  intros (M1 & M2 & M3 & M4). unfold parseNewneighMessage. apply (safe_known _ _ _ _ _ M2).
  destruct (l <? _) eqn:C; [by apply safe_ret|]. apply Z.ltb_ge in C. cbv zeta. net_step. net_step.
  destruct (_ || _); [by apply safe_ret|].
  apply for_rta_safe; [done|unfold NLMSG_DATA, sizeof_nlmsghdr; lia..|done|].
  intros rta l' _ (A1 & A2 & A3 & A4) _. net_step. destruct (_ =? NDA_DST); [|by apply safe_ret].
  apply (safe_known _ _ _ _ _ A2). destruct (l' <? RTA_LENGTH 16) eqn:C'; [by apply safe_ret|]. apply Z.ltb_ge in C'.
  unfold RTA_LENGTH, sizeof_rtattr in C'. net_step; by apply safe_ret.
Qed.

Definition addr_texts (a : AddrAttributes) : Prop := short (at_address a) /\ at_scope a <> IPV6_ADDR_SCOPE_GLOBAL.

(** The scope is masked with 0xF0, so it is never 0x0E. *)
Lemma scope_not_global a : GetAddrScope a <> IPV6_ADDR_SCOPE_GLOBAL.
Proof.
  unfold GetAddrScope, IPV6_ADDR_SCOPE_MASK, IPV6_ADDR_SCOPE_GLOBAL. intros E.
  assert (B : Z.testbit (Z.land (GetAddrType a) 0xF0) 1 = Z.testbit 0x0E 1) by (by rewrite E).
  rewrite Z.land_spec in B. by rewrite andb_false_r in B.
Qed.

Lemma addr_attribute_safe family flags rta l a : attribute m rta l -> addr_texts a ->
  safe J (addr_attribute m family flags rta a) (fun r => addr_texts (snd r)).
Proof.
  intros (A1 & A2 & A3 & A4) T. unfold addr_attribute. net_step. apply (safe_known _ _ _ _ _ A2).
  destruct (_ =? IFA_ADDRESS).
  { destruct (l <? RTA_LENGTH 16) eqn:C; [by apply safe_ret|]. apply Z.ltb_ge in C. unfold RTA_LENGTH, sizeof_rtattr in C.
    net_step. destruct H0 as [B1 B2]. apply safe_ret. unfold GetIpFromS6Address. destruct (negb _); [done|]. split; [by apply ntop_short|apply scope_not_global]. }
  destruct (_ =? IFA_CACHEINFO); [|by apply safe_ret].
  destruct (l <? RTA_LENGTH 16) eqn:C; [by apply safe_ret|]. apply Z.ltb_ge in C. unfold RTA_LENGTH, sizeof_rtattr in C.
  net_step. net_step. apply (safe_bind _ _ _ (fun _ => True)); [|intros _ _; by apply safe_ret].
  assert (G : forall v ty, safe J (on_info (fun info => AddLifetime info v ty)) (fun _ => True)).
  { intros v ty. apply on_info_safe. intros info Hi. by apply AddLifetime_ok. }
  destruct (isTemporary a).
  - apply (safe_bind _ _ _ (fun _ => True)); [apply G|]. intros _ _. apply (safe_bind _ _ _ (fun _ => True)); [apply G|]. intros _ _.
    apply safe_bind_get; intros s0 _. apply safe_bind_get; intros s1 _.
    destruct (snd _) as [[path content]|]; [apply ModifyKernelFile_safe|by apply safe_ret].
  - apply (safe_bind _ _ _ (fun _ => True)); [apply G|]. intros _ _. apply (safe_bind _ _ _ (fun _ => True)); [apply G|]. intros _ _.
    by apply safe_ret.
Qed.

Lemma ParseAddrMessage_safe nlh l : message nlh l -> safe J (ParseAddrMessage m nlh) (fun _ => True).
Proof.
  intros (M1 & M2 & M3 & M4). unfold ParseAddrMessage. apply (safe_known _ _ _ _ _ M2).
  destruct (l <? _) eqn:C; [by apply safe_ret|]. apply Z.ltb_ge in C. net_step. destruct (_ && _); [by apply safe_ret|]. cbv zeta.
  eapply (safe_bind _ _ _ addr_texts).
  - unfold ParseAddrAttributes. net_step. net_step.
    apply for_rta_safe; [done|unfold NLMSG_DATA, sizeof_nlmsghdr; lia..|by split; [apply short_nil|]|].
    intros rta l' x At Hx. by eapply addr_attribute_safe.
  - intros x [Hx Hs]. destruct (Nat.eqb _ 0) eqn:C2; [by apply safe_ret|].
    assert (Tx : text (at_address x)) by (split; [by destruct (at_address x)|done]). net_step.
    apply (safe_bind _ _ _ (fun _ => True)).
    { apply safe_when; [|done]. intros [Hg%Z.eqb_eq _]%andb_prop. done. }
    intros _ _. net_step. by apply OnIpv6AddressUpdateEvent_safe.
Qed.

Lemma ParseLinkMessage_safe nlh l : message nlh l -> safe J (ParseLinkMessage m nlh) (fun _ => True).
Proof.
  intros (M1 & M2 & M3 & M4). unfold ParseLinkMessage. apply (safe_known _ _ _ _ _ M2).
  destruct (l <? 32) eqn:C; [by apply safe_ret|]. apply Z.ltb_ge in C. cbv zeta. net_step. destruct (_ && _); [by apply safe_ret|].
  net_step. apply safe_bind_get; intros s0 _. destruct (Nat.eqb _ 0); [by apply safe_ret|].
  eapply safe_bind; [apply reading6_any|]. intros i _. destruct (_ || _); [by apply safe_ret|]. net_step.
  destruct (_ || _); [by apply safe_ret|].
  apply for_rta_safe; [done|unfold NLMSG_DATA, sizeof_nlmsghdr; lia..|done|].
  intros rta l' _ (A1 & A2 & A3 & A4) _. net_step.
  apply (safe_bind _ _ _ (fun _ => True)); [|intros _ _; by apply safe_ret]. apply safe_when; [|done]. intros _.
  apply (safe_known _ _ _ _ _ A2). apply ParseAfSpecAttributes_safe; [done|unfold RTA_DATA, sizeof_rtattr; lia..].
Qed.

Lemma handle_message_safe nlh l : message nlh l -> safe J (handle_message m nlh) (fun _ => True).
Proof.
  intros Ml. pose proof Ml as (M1 & M2 & M3 & M4). unfold handle_message. net_step.
  assert (K : forall x : M Ipv6Client unit, safe J x (fun _ => True) -> safe J (x ;; ret true) (fun _ => True)).
  { intros x Hx. apply (safe_bind _ _ _ (fun _ => True)); [done|intros _ _; by apply safe_ret]. }
  destruct (_ || _); [by eapply K, ParseAddrMessage_safe|].
  destruct (_ =? RTM_NEWNDUSEROPT).
  { apply (safe_known _ _ _ _ _ M2). destruct (l <? _) eqn:C; [by apply safe_ret|]. apply Z.ltb_ge in C.
    apply K, parseNdUserOptMessage_safe; unfold NLMSG_DATA, sizeof_nlmsghdr; lia. }
  destruct (_ || _); [by eapply K, parseNDRouteMessage_safe|].
  destruct (_ =? RTM_NEWNEIGH); [by eapply K, parseNewneighMessage_safe|].
  destruct (_ =? RTM_NEWLINK); [by eapply K, ParseLinkMessage_safe|by apply safe_ret].
Qed.

Lemma handle_loop_safe fuel nlh len : 0 <= nlh -> nlh + len <= Z.of_nat (length m) -> (0 < fuel)%nat ->
  len < 16 * Z.of_nat fuel -> safe J (handle_loop fuel m nlh len) (fun _ => True).
Proof.
  revert nlh len. induction fuel as [|fuel IH]; intros nlh len H1 H2 F1 F2; [lia|]. cbn [handle_loop].
  destruct (nlmsg_ok m nlh len Hm H1 H2) as [E|(l & E & El & Hl)]; apply (safe_known _ _ _ _ _ E); cbn [negb]; [by apply safe_ret|].
  net_step. destruct (_ =? NLMSG_DONE); [by apply safe_ret|].
  eapply safe_bind; [apply (handle_message_safe nlh l); repeat split; [done|done|lia|lia]|]. intros go _.
  destruct (negb go); [by apply safe_ret|]. apply (safe_known _ _ _ _ _ El). pose proof (ALIGN4_ge l). apply IH; lia.
Qed.

Lemma handleKernelEvent_safe len : len <= Z.of_nat (length m) -> safe J (handleKernelEvent m len) (fun _ => True).
Proof.
  intros H. unfold handleKernelEvent. destruct (len <? _) eqn:C; [by apply safe_ret|]. apply Z.ltb_ge in C.
  unfold sizeof_nlmsghdr in C. pose proof (Z.div_mod len 16). pose proof (Z.mod_pos_bound len 16). apply handle_loop_safe; lia.
Qed.
End Messages.
End Handling.
End Invariant.
