(* ===== verification/Ipv6Properties.v ===== *)
(** The theorems on the IPv6 client: any use of it is safe and what it publishes is
    consistent; the kinds and scopes of addresses; announcements of DNS servers;
    and its faults. *)
From S2P Require Import Prelude AddressUtils CommonUtil RawPacket ClientOptions ClientFunction V6Message V6Text Ipv6Info Ipv6InfoProperties Ipv6State Ipv6Client Ipv6Invariant.
Import DnsServers.

(** * Uses of the client *)

Inductive ipv6_call :=
| starts (ifname : bytes) | stops | steps | fires | resets
| accepts (content : bytes) | solicits (content : bytes) | solicits_every (content : bytes)
| calls_back (cb : option Z) | flags_back (cb : option Z) | dad_back (cb : option Z) | removed_back (cb : option Z)
| resets_flags | has_v6 (client : option Z) | unregisters.

Section Uses.
Context {I6 : Inet6Text} {SL : StandardLibrary} {PL : Ipv6Platform}.

Definition run_ipv6 (c : ipv6_call) : M Ipv6Client unit :=
  match c with
  | starts ifname => StartIpv6Thread ifname ;; ret tt
  | stops => DhcpIPV6Stop
  | steps => thread_step
  | fires => timer_fires
  | resets => Reset
  | accepts v => SetAcceptRa v
  | solicits v => SetRouterSolicitations v
  | solicits_every v => SetRouterSolicitationInterval v
  | calls_back cb => SetCallback cb
  | flags_back cb => SetRaFlagsCallback cb
  | dad_back cb => SetDadResultCallback cb
  | removed_back cb => SetAddrRemovedCallback cb
  | resets_flags => ResetRaFlags
  | has_v6 b => SetDhcpV6Client b
  | unregisters => UnRegisterDhcpV6Callbacks
  end.
Fixpoint run_uses (l : list ipv6_call) : M Ipv6Client unit :=
  match l with [] => ret tt | c :: l => run_ipv6 c ;; run_uses l end.
End Uses.

Section Safety.
Context {I6 : Inet6Text} {L6 : Inet6TextLaws I6} {SL : StandardLibrary} {LL : StandardLibraryLaws SL}.
Context {PL : Ipv6Platform} {LP : Ipv6PlatformLaws PL}.

(** What is known of the public structure while the thread is in a state. *)
Definition known (t : NetThread) : DhcpIpv6Info -> Prop := match t with looping => info_ok | _ => fun _ => True end.
Definition shape (t : NetThread) (run : bool) (fd : Z) : Prop :=
  (t = looping -> 0 <= fd) /\ (t <> looping -> fd = -1) /\ (run = false -> t = no_thread \/ t = finished).
Context (F : gset Z) (HF : forall x, x ∈ F -> 0 <= x).
Definition steady (s : Ipv6Client) : Prop :=
  exists t run fd, shape t run fd /\ at6 F t run fd (known t) s.

Lemma steady_safe (m : M Ipv6Client unit) :
  (forall t run fd, safe (at6 F t run fd (known t)) m (fun _ => True)) -> safe (steady) m (fun _ => True).
Proof.
  intros H s (t & run & fd & Sh & A). eapply wp_mono; [by apply H|]. intros [] s' [_ A']. split; [done|]. by exists t, run, fd.
Qed.

Lemma createKernelSocket_spec t run P s : at6 F t run (-1) P s ->
  wp createKernelSocket (fun r s' => (r = -1 \/ 0 <= r) /\ live F t run r (set_ipv6SocketFd r s') /\ P (dhcpIpv6Info s')) s.
Proof.
  intros [[Ho _ Hf Ht Hr Hs He] Hp]. unfold createKernelSocket, open_n, close_n, reading6, wp, bind, get, modify, ret, when. cbn.
  assert (Ho' : forall x, x ∈ n_open s <-> x ∈ F) by (intros x; split; [intros [Hx|[-> Hx]]%Ho; [done|lia]|intros Hx; apply Ho; by left]).
  assert (Done : forall k, (-1 = -1 \/ 0 <= -1) /\ live F t run (-1) (set_ipv6SocketFd (-1) (set_n_reads k (set_n_open (n_open s) s))) /\ P (dhcpIpv6Info s)).
  { intros k. split; [by left|]. split; [split; cbn; [|lia|done..]|done].
    intros x. rewrite Ho'. split; [by left|intros [?|[-> ?]]; [done|lia]]. }
  destruct (n_socket_law (n_reads s) (n_open s)) as [E|[E1 E2]].
  - rewrite E. cbn. specialize (Done (S (n_reads s))). by destruct s.
  - apply Z.ltb_ge in E1. rewrite !E1. cbn. rewrite ?E1. set (fd := n_socket (n_reads s) (n_open s)) in *. apply Z.ltb_ge in E1.
    assert (X : (n_open s ∪ {[fd]}) ∖ {[fd]} = n_open s) by set_solver.
    destruct (n_setsockopt _ <? 0); cbn; [rewrite X; apply (Done (S (S (n_reads s))))|].
    destruct (n_setsockopt _ <? 0); cbn; [rewrite X; apply (Done (S (S (S (n_reads s)))))|].
    destruct (n_setsockopt _ <? 0); cbn; [rewrite X; apply (Done (S (S (S (S (n_reads s))))))|].
    destruct (n_bind _ <? 0); cbn; [rewrite X; apply (Done (S (S (S (S (S (S (n_reads s))))))))|].
    split; [by right|]. split; [|done]. split; cbn; try done.
    + intros x. rewrite elem_of_union, elem_of_singleton, Ho'. naive_solver.
    + intros _. by rewrite <- Ho'.
Qed.

(** The end of the loop, and its beginning. *)
Lemma StartIpv6_ends_spec t run fd P s : at6 F t run fd P s ->
  wp StartIpv6_ends (fun _ s' => at6 F finished run (-1) P s') s.
Proof.
  intros [[Ho Hw Hf Ht Hr Hs He] Hp]. unfold StartIpv6_ends, close_n. cbn. split; [|done]. split; cbn; try done.
  intros x. rewrite elem_of_difference, elem_of_singleton, Ho, Hf. split.
  - intros [[?|[-> ?]] Hn]; [by left|done].
  - intros [Hx|[-> ?]]; [|lia]. split; [by left|]. intros ->. by apply (Hw (HF _ Hx)).
Qed.

Lemma DhcpIpv6Start_spec run s : at6 F created run (-1) (known created) s ->
  wp DhcpIpv6Start (fun _ s' => (exists fd, 0 <= fd /\ at6 F looping run fd info_ok s') \/ at6 F finished false (-1) (known finished) s') s.
Proof.
  intros H. set (J := at6 F created run (-1) (fun _ => True)). change (J s) in H.
  assert (K : forall k (Q : unit -> Ipv6Client -> Prop) (m : M Ipv6Client unit), safe J m (fun _ => True) ->
    (forall s, J s -> wp k Q s) -> forall s, J s -> wp (m ;; k) Q s).
  { intros k Q m Hm Hk s0 Hs. apply wp_bind. eapply wp_mono; [by apply Hm|]. intros [] s1 [_ Hs1]. by apply Hk. }
  unfold DhcpIpv6Start. apply K; [apply raflags_safe| |done]. clear s H. intros s. apply K; [apply queried_safe|]. clear s. intros s.
  apply K; [apply received_safe|]. clear s. intros s. apply K; [apply set_config_safe6|]. clear s. intros s.
  apply K; [apply set_config_safe6|]. clear s. intros s. apply K; [apply set_config_safe6|]. clear s. intros s Hs.
  unfold StartIpv6_begins. apply wp_bind.
  assert (R : wp Reset (fun _ s' => at6 F created run (-1) info_ok s') s).
  { destruct Hs as [[] _]. unfold Reset. cbn. split; [|apply Clear_ok]. split; cbn; try done. apply servers_clear. }
  eapply wp_mono; [exact R|]. intros [] s1 H1. apply wp_bind. eapply wp_mono; [by apply createKernelSocket_spec|].
  intros fd s2 (Hfd & Hl & Hi). apply wp_bind, wp_modify. destruct (fd <? 0) eqn:C.
  - apply Z.ltb_lt in C. assert (fd = -1) as -> by lia. cbn. right. destruct Hl. split; [|done]. by split.
  - apply Z.ltb_ge in C. apply wp_bind. unfold reading6. apply wp_bind, wp_get, wp_bind, wp_modify, wp_ret.
    destruct (n_malloc _); cbn.
    + left. exists fd. split; [done|]. destruct Hl. split; [|done]. by split.
    + right. destruct Hl as [Ho Hw Hf Ht Hr Hs' He]. split; [|done]. split; cbn; try done.
      cbn in Ho. intros x. rewrite elem_of_difference, elem_of_singleton, Ho. split.
      * intros [[?|[-> ?]] Hn]; [by left|done].
      * intros [Hx|[-> ?]]; [|lia]. split; [by left|]. intros ->. by apply (Hw (HF _ Hx)).
Qed.

Lemma thread_step_safe : safe (steady) thread_step (fun _ => True).
Proof.
  intros s (t & run & fd & Sh & A). unfold thread_step. apply wp_bind, wp_get.
  destruct A as [[] Hp]. rewrite l_thread. pose proof Sh as (S1 & S2 & S3). destruct t.
  - apply wp_ret. split; [done|]. by exists no_thread, run, fd.
  - rewrite S2 in * by done. eapply wp_mono; [apply (DhcpIpv6Start_spec run); by split; [split|]|].
    intros [] s' [(fd' & Hf & A')|A']; (split; [done|]).
    + exists looping, run, fd'. split; [|done]. split; [done|]. split; [done|]. intros ->. by destruct (S3 eq_refl).
    + exists finished, false, (-1). split; [|done]. split; [done|]. split; [done|]. by right.
  - unfold StartIpv6_round. apply wp_bind, wp_get. rewrite l_run. destruct run; [|by destruct (S3 eq_refl)]. cbn [negb].
    apply wp_bind, wp_get. rewrite l_fd. specialize (S1 eq_refl). rewrite (proj2 (Z.ltb_ge _ _)) by done.
    assert (G : forall m, safe (at6 F looping true fd info_ok) m (fun _ : unit => True) ->
      wp m (fun _ s' => True /\ steady s') s).
    { intros m Hm. eapply wp_mono; [apply Hm; by split; [split|]|]. intros [] s' [_ A']. split; [done|]. by exists looping, true, fd. }
    apply G. eapply safe_bind; [apply reading6_any|]. intros b _. destruct (negb b); [by apply safe_ret|].
    eapply safe_bind; [apply (reading6_safe _ _ _ _ _ n_recv (fun r => forall d, r = Some d -> Forall is_u8 d)); intros n d; apply n_recv_law|].
    intros [[|x d]|] Hd; [by apply safe_ret| |by apply safe_ret]. specialize (Hd _ eq_refl).
    apply handleKernelEvent_safe; [by apply padded_u8|]. rewrite length_pad. unfold KERNEL_BUFF_SIZE. lia.
  - apply wp_ret. split; [done|]. by exists finished, run, fd.
Qed.

(** A thread that is joined has ended. *)
Lemma join_spec t fd s : t <> no_thread -> (t = looping \/ fd = -1) -> at6 F t false fd (fun _ => True) s ->
  wp join (fun _ s' => at6 F finished false (-1) (fun _ => True) s') s.
Proof.
  intros Ht Hfd A. unfold join. apply wp_bind.
  assert (End : forall t' fd' s', t' = looping \/ (t' = finished /\ fd' = -1) -> at6 F t' false fd' (fun _ => True) s' ->
    wp thread_step (fun _ s'' => at6 F finished false (-1) (fun _ => True) s'') s').
  { intros t' fd' s' Ht' A'. pose proof A' as [[] _]. unfold thread_step. apply wp_bind, wp_get. rewrite l_thread.
    destruct Ht' as [-> |[-> ->]]; [|by apply wp_ret]. unfold StartIpv6_round. apply wp_bind, wp_get. rewrite l_run.
    by eapply StartIpv6_ends_spec. }
  destruct t; [done| | |].
  - destruct Hfd as [?| ->]; [done|]. pose proof A as [[] _]. unfold thread_step at 1. apply wp_bind, wp_get. rewrite l_thread.
    eapply wp_mono; [by apply DhcpIpv6Start_spec|]. intros [] s' [(fd' & _ & [Hl _])|A']; [|eapply End; [|exact A']; auto].
    apply (End looping fd'); [by left|]. by split.
  - eapply wp_mono; [apply (End looping fd); [by left|done]|]. intros [] s' A'. eapply End; [|exact A']. auto.
  - destruct Hfd as [?| ->]; [done|]. eapply wp_mono; [apply (End finished (-1)); [by right|done]|]. intros [] s' A'. eapply End; [|exact A']. auto.
Qed.

Lemma DhcpIPV6Stop_spec s : steady s ->
  wp DhcpIPV6Stop (fun _ s' => steady s' /\ (runFlag_ s = true -> ipv6Thread_ s' = no_thread)) s.
Proof.
  intros (t & run & fd & (S1 & S2 & S3) & [[] Hp]). unfold DhcpIPV6Stop. apply wp_bind, wp_get. rewrite l_run.
  destruct run; cbn [negb].
  2:{ apply wp_ret. split; [|done]. by exists t, false, fd. }
  do 4 apply wp_bind, wp_modify. apply wp_bind, wp_get. cbn [set_raFlags_ set_raReceived_ set_raFlagsQueried_ set_runFlag_ ipv6SocketFd].
  rewrite l_fd. set (s1 := set_raFlags_ 0 _).
  assert (A1 : at6 F t false fd (fun _ => True) s1) by (by split; [split|]).
  apply wp_bind. apply (wp_mono _ (fun _ s' => exists fd', (t = looping \/ fd' = -1) /\ at6 F t false fd' (fun _ => True) s')).
  { destruct (fd >? 0) eqn:C; cbn [when].
    - rewrite Z.gtb_ltb in C. apply Z.ltb_lt in C. destruct A1 as [[Ho Hw Hf Ht Hr Hs He] _]. cbn. exists (-1). split; [by right|]. split; [|done].
      split; cbn; try done. intros x. rewrite elem_of_difference, elem_of_singleton. change (n_open s) with (n_open s1). rewrite Ho. split.
      + intros [[?|[-> ?]] Hn]; [by left|done].
      + intros [Hx|[-> ?]]; [|lia]. split; [by left|]. intros ->. by apply (Hw (HF _ Hx)).
    - apply wp_ret. exists fd. split; [|done]. destruct (decide (t = looping)); [by left|right; by apply S2]. }
  intros [] s2 (fd' & Hfd & A2). apply wp_bind, wp_get. assert (Et : ipv6Thread_ s2 = t) by (by destruct A2 as [[] _]). rewrite Et.
  apply wp_bind. apply (wp_mono _ (fun _ s' => at6 F no_thread false (-1) (fun _ => True) s')).
  - destruct t.
    + apply wp_ret. destruct Hfd as [?| ->]; [done|exact A2].
    + apply wp_bind. eapply wp_mono; [by apply (join_spec created fd')|]. intros [] s3 [[] _]. cbn. split; [by split|done].
    + apply wp_bind. eapply wp_mono; [by apply (join_spec looping fd')|]. intros [] s3 [[] _]. cbn. split; [by split|done].
    + apply wp_bind. eapply wp_mono; [by apply (join_spec finished fd')|]. intros [] s3 [[] _]. cbn. split; [by split|done].
  - intros [] s3 [[] _]. cbn. split; [|done]. exists no_thread, false, (-1). split; [|by split; [split|]].
    split; [done|]. split; [done|]. by left.
Qed.

Lemma run_ipv6_safe c : safe (steady) (run_ipv6 c) (fun _ => True).
Proof.
  destruct c; cbn [run_ipv6]; [| | |apply steady_safe; intros t run fd..].
  - intros s (t & run & fd & (S1 & S2 & S3) & [[] Hp]). unfold StartIpv6Thread, wp, bind, get, modify, ret, when. rewrite l_run.
    destruct run; cbn; [split; [done|]; exists t, true, fd; by split; [|by split; [split|]]|]. rewrite l_thread.
    destruct (S3 eq_refl) as [->| ->]; cbn; (split; [done|]).
    + exists created, true, fd. split; [split; [done|]; split; [by auto|done]|]. by split; [split|].
    + exists finished, true, fd. split; [split; [done|]; split; [by auto|done]|]. by split; [split|].
  - intros s H. eapply wp_mono; [by apply DhcpIPV6Stop_spec|]. by intros [] s' [? _].
  - apply thread_step_safe.
  - apply timer_fires_safe.
  - unfold Reset. apply (safe_bind _ _ _ (fun _ => True)).
    + intros s [[] Hp]. split; [done|]. split; [|done]. split; cbn; try done. apply servers_clear.
    + intros _ _. apply on_info_safe. intros info Hi. destruct t; try done. apply Clear_ok.
  - apply set_config_safe6.
  - apply set_config_safe6.
  - apply set_config_safe6.
  - apply changed_cb_safe.
  - apply flags_cb_safe.
  - apply dad_cb_safe.
  - apply removed_cb_safe.
  - apply raflags_safe.
  - apply client6_safe.
  - unfold UnRegisterDhcpV6Callbacks. apply (safe_bind _ _ _ (fun _ => True)); [apply client6_safe|]. intros _ _.
    apply (safe_bind _ _ _ (fun _ => True)); [apply flags_cb_safe|]. intros _ _. apply dad_cb_safe.
Qed.

Lemma constructor_steady ifname info : steady (DhcpIpv6Client ifname info F).
Proof.
  exists no_thread, false, (-1). split; [by split; [|split; [|auto]]|]. split; [|done].
  split; cbn; [|lia|done|done|done|apply servers_new|constructor].
  intros x. split; [by left|]. intros [?|[-> ?]]; [done|lia].
Qed.

End Safety.

(** A machine whose kernel reports a link-local address, a router, its DNS server and a
    global address. *)
Section Sample.
Definition le16 (x : Z) : bytes := take 2 (le32 x).
Definition rtattr (type : Z) (payload : bytes) : bytes := le16 (4 + Z.of_nat (length payload)) ++ le16 type ++ payload.
Definition nlmsg (type : Z) (payload : bytes) : bytes :=
  le32 (16 + Z.of_nat (length payload)) ++ le16 type ++ le16 0 ++ le32 0 ++ le32 0 ++ payload.
Definition addr_message (type index : Z) (flags : Z) (addr : bytes) (preferred valid : Z) : bytes :=
  nlmsg type ([10; 64; flags; 0] ++ le32 index ++ rtattr IFA_ADDRESS addr
              ++ rtattr IFA_CACHEINFO (le32 preferred ++ le32 valid ++ zeros 8)).
Definition route_message (type index : Z) (gateway : bytes) : bytes :=
  nlmsg type ([10; 0; 0; 0; 254; RTPROT_RA; 0; 1] ++ le32 0 ++ rtattr RTA_GATEWAY gateway ++ rtattr RTA_OIF (le32 index)).
Definition rdnss (lifetime : Z) (addrs : list bytes) : bytes :=
  [ND_OPT_RDNSS; 1 + 2 * Z.of_nat (length addrs); 0; 0] ++ be32 lifetime ++ concat addrs.
Definition dns_message (index : Z) (option : bytes) : bytes :=
  nlmsg RTM_NEWNDUSEROPT ([10; 0] ++ le16 (Z.of_nat (length option)) ++ le32 index ++ [134; 0] ++ zeros 6 ++ option).

Definition link_local : bytes := [0xfe; 0x80] ++ zeros 13 ++ [7].
Definition sample_router : bytes := [0xfe; 0x80] ++ zeros 13 ++ [1].
Definition sample_global : bytes := [0x24; 0x08; 0; 0; 0; 0; 0; 1; 0x02; 1; 2; 0xff; 0xfe; 3; 4; 5].
Definition sample_server : bytes := [0x24; 0x08] ++ zeros 13 ++ [0x53].
Definition sample_messages : list bytes :=
  [addr_message RTM_NEWADDR 3 0 link_local 4294967295 4294967295; route_message RTM_NEWROUTE 3 sample_router;
   dns_message 3 (rdnss 1200 [sample_server]); addr_message RTM_NEWADDR 3 0 sample_global 3600 7200].

(** The n-th reading of the netlink socket may give the whole of the messages. *)
Definition sample_net : Ipv6Platform := {|
  n_nametoindex _ _ := 3; n_kernel _ := [5; 0; 0; 0]; n_ifreq _ := mkIfreq 3 [0; 1; 2; 3; 4; 5] 0;
  n_realpath p := Some p; n_file_opens _ := true; n_socket _ fds := if bool_decide (9 ∈ fds) then (if bool_decide (10 ∈ fds) then -1 else 10) else 9;
  n_setsockopt _ := 0; n_bind _ := 0; n_send _ := 0; n_sendto _ := 0;
  n_recv _ := Some (concat sample_messages); n_answer _ := None; n_readable _ := true; n_configured _ _ := false;
  n_malloc _ := true; n_clock n := Z.of_nat n; n_pid := 77 |}.
End Sample.

Definition sample_uses6 : list ipv6_call :=
  [starts (str "wlan0"); calls_back (Some 1); steps; steps; fires; stops; starts (str "wlan0"); steps].
#[export] Instance sample_net_laws : Ipv6PlatformLaws sample_net.
Proof.
  split; cbn.
  - intros _ _. unfold is_u32. lia.
  - intros _ fds. case_bool_decide as D; [|by right]. case_bool_decide as D2; [by left|by right].
  - intros _ d [= <-]. apply all_u8. by vm_compute.
  - done.
  - done.
Qed.

(** * Scopes and kinds of addresses *)

(** The scope by the leading bytes of the address, as RFC 4291 lays them out. *)
Definition scope_of_bytes (b0 b1 : Z) : Z :=
  if b0 =? 0xff then
    (if b1 mod 16 =? 1 then IPV6_ADDR_LOOPBACK else if b1 mod 16 =? 2 then IPV6_ADDR_LINKLOCAL
     else if b1 mod 16 =? 5 then IPV6_ADDR_SITELOCAL else 0)
  else if (b0 =? 0xfe) && (0x80 <=? b1) && (b1 <? 0xc0) then IPV6_ADDR_LINKLOCAL
  else if (b0 =? 0xfe) && (0xc0 <=? b1) then IPV6_ADDR_SITELOCAL
  else 0.
Definition scope_of (a : bytes) : Z :=
  if bool_decide (take 12 a = zeros 12) then
    (if bool_decide (drop 12 a = [0; 0; 0; 0]) then 0
     else if bool_decide (drop 12 a = [0; 0; 0; 1]) then IPV6_ADDR_LOOPBACK else IPV6_ADDR_COMPATV4)
  else scope_of_bytes (byte_at a 0) (byte_at a 1).

Lemma land_low b0 b1 b2 b3 mask : is_u8 b0 -> is_u8 b1 -> is_u8 b2 -> is_u8 b3 -> 0 <= mask < 2 ^ 16 ->
  Z.land (b0 + b1 * 2 ^ 8 + b2 * 2 ^ 16 + b3 * 2 ^ 24) mask = Z.land (b0 + b1 * 2 ^ 8) mask.
Proof.
  unfold is_u8. intros H0 H1 H2 H3 Hm.
  assert (E : Z.land (Z.ones 16) mask = mask) by (rewrite Z.land_comm, Z.land_ones by lia; by apply Z.mod_small).
  rewrite <- E, !Z.land_assoc, !Z.land_ones by lia. f_equal.
  replace (b0 + b1 * 2 ^ 8 + b2 * 2 ^ 16 + b3 * 2 ^ 24) with (b0 + b1 * 2 ^ 8 + (b2 + b3 * 2 ^ 8) * 2 ^ 16) by lia.
  by rewrite Z.mod_add.
Qed.

(** The branches of GetAddrType that two bytes decide, and what they give. *)
Definition decided (b0 b1 : Z) : option Z :=
  let st := b0 + b1 * 2 ^ 8 in
  if negb (Z.land st 0xE0 =? 0) && negb (Z.land st 0xE0 =? 0xE0) then Some 0
  else if Z.land st 0xFF =? 0xFF then
    Some (Z.land (Z.lor IPV6_ADDR_MULTICAST (ipv6AddrScope2Type (Z.land b1 0x0F))) IPV6_ADDR_SCOPE_MASK)
  else if Z.land st 0xC0FF =? 0x80FE then Some 0x20
  else if Z.land st 0xC0FF =? 0xC0FE then Some 0x40
  else if Z.land st 0xFE =? 0xFC then Some 0
  else None.
Definition scope_check (b0 b1 : Z) : bool :=
  match decided b0 b1 with Some v => v =? scope_of_bytes b0 b1 | None => scope_of_bytes b0 b1 =? 0 end.
Definition all_bytes : list Z := map Z.of_nat (seq 0 256).
Lemma all_bytes_in b : is_u8 b -> b ∈ all_bytes.
Proof.
  intros H. apply list_elem_of_fmap. exists (Z.to_nat b). unfold is_u8 in H. split; [lia|]. apply elem_of_seq. lia.
Qed.
Lemma scope_checked b0 b1 : is_u8 b0 -> is_u8 b1 -> scope_check b0 b1 = true.
Proof.
  intros H0 H1. assert (C : forallb (fun b0 => forallb (scope_check b0) all_bytes) all_bytes = true) by (vm_compute; reflexivity).
  rewrite forallb_forall in C. specialize (C b0). rewrite forallb_forall in C.
  apply C; apply list_elem_of_In, all_bytes_in; done.
Qed.

Lemma nth_byte_u8 a i : Forall is_u8 a -> is_u8 (byte_at a i).
Proof.
  intros Hb. unfold byte_at. destruct (decide (i < length a)%nat) as [D|D].
  - eapply Forall_forall; [exact Hb|]. apply list_elem_of_In, nth_In. done.
  - rewrite nth_overflow by lia. unfold is_u8. lia.
Qed.

Lemma decided_scope a : length a = 16%nat -> Forall is_u8 a ->
  GetAddrScope a = match decided (byte_at a 0) (byte_at a 1) with
    | Some v => v
    | None =>
        if Z.lor (s6_addr32 a 0) (s6_addr32 a 1) =? 0 then
          if s6_addr32 a 2 =? 0 then
            if s6_addr32 a 3 =? 0 then 0 else if s6_addr32 a 3 =? htonl 1 then IPV6_ADDR_LOOPBACK else IPV6_ADDR_COMPATV4
          else 0
        else 0
    end.
Proof.
  intros Hl Hb. assert (B : forall i, is_u8 (byte_at a i)) by (intros i; by apply nth_byte_u8).
  assert (L : forall mask, 0 <= mask < 2 ^ 16 -> Z.land (s6_addr32 a 0) mask = Z.land (byte_at a 0 + byte_at a 1 * 2 ^ 8) mask).
  { intros mask Hm. unfold s6_addr32. apply (land_low (byte_at a 0) (byte_at a 1) (byte_at a 2) (byte_at a 3)); auto. }
  unfold GetAddrScope, GetAddrType, decided. cbv zeta.
  change (htonl 0xE0000000) with 0xE0. change (htonl 0xFF000000) with 0xFF. change (htonl 0xFFC00000) with 0xC0FF.
  change (htonl 0xFE800000) with 0x80FE. change (htonl 0xFEC00000) with 0xC0FE. change (htonl 0xFE000000) with 0xFE.
  change (htonl 0xFC000000) with 0xFC. change (htonl 0) with 0. rewrite !L by lia. unfold s6_addr.
  repeat match goal with |- context [if ?b then _ else _] => lazymatch b with context [if _ then _ else _] => fail | _ => destruct b; try reflexivity end end.
Qed.

Lemma word_zero a i : (4 * i + 4 <= length a)%nat -> Forall is_u8 a ->
  s6_addr32 a i = 0 <-> take 4 (drop (4 * i) a) = [0; 0; 0; 0].
Proof.
  intros Hl Hb. unfold s6_addr32, byte_at.
  assert (E : forall k, nth (4 * i + k) a 0 = nth k (drop (4 * i) a) 0) by (intros k; by rewrite nth_skipn).
  replace (4 * i)%nat with (4 * i + 0)%nat at 1 by lia. rewrite !E.
  assert (Hd : Forall is_u8 (drop (4 * i) a)) by (by apply Forall_drop).
  assert (Hn : (4 <= length (drop (4 * i) a))%nat) by (rewrite length_drop; lia).
  destruct (drop (4 * i) a) as [|x0 [|x1 [|x2 [|x3 r]]]]; cbn in Hn; try lia. cbn.
  repeat (apply Forall_cons in Hd as [? Hd]). unfold is_u8 in *. split; [intros; repeat f_equal; lia|by intros [= -> -> -> ->]].
Qed.

Lemma htonl_one a : length a = 4%nat -> Forall is_u8 a -> s6_addr32 a 0 = htonl 1 <-> a = [0; 0; 0; 1].
Proof.
  intros Hl Hb. destruct a as [|x0 [|x1 [|x2 [|x3 [|? ?]]]]]; try done. repeat (apply Forall_cons in Hb as [? Hb]).
  change (htonl 1) with (2 ^ 24). unfold s6_addr32, byte_at, is_u8 in *. cbn [nth Nat.mul Nat.add].
  split; [intros E; repeat f_equal; lia|by intros [= -> -> -> ->]].
Qed.

(** The scope the client gives an address is the one of its range: link-local
    fe80::/10, site-local fec0::/10, the multicast scopes 1, 2 and 5, the loopback
    address, the IPv4-compatible addresses, and 0 (treated as global) for all others. *)
Theorem GetAddrScope_ranges a : length a = 16%nat -> Forall is_u8 a -> GetAddrScope a = scope_of a.
Proof.
  intros Hl Hb. rewrite decided_scope by done. pose proof (scope_checked _ _ (nth_byte_u8 a 0 Hb) (nth_byte_u8 a 1 Hb)) as C.
  unfold scope_check in C. unfold scope_of.
  assert (P : take 12 a = take 4 (drop 0 a) ++ take 4 (drop 4 a) ++ take 4 (drop 8 a)).
  { do 16 (destruct a as [|? a]; [done|]). done. }
  assert (L4 : length (drop 12 a) = 4%nat) by (rewrite length_drop; lia).
  pose proof (word_zero a 0 ltac:(lia) Hb) as Z0. pose proof (word_zero a 1 ltac:(lia) Hb) as Z1.
  pose proof (word_zero a 2 ltac:(lia) Hb) as Z2. pose proof (word_zero a 3 ltac:(lia) Hb) as Z3.
  assert (E3 : s6_addr32 a 3 = s6_addr32 (drop 12 a) 0) by (unfold s6_addr32, byte_at; by rewrite !nth_skipn).
  pose proof (htonl_one (drop 12 a) L4 (Forall_drop _ _ _ Hb)) as One. rewrite <- E3 in One.
  rewrite (take_ge (drop (4 * 3) a)) in Z3 by (cbn [Nat.mul Nat.add]; lia). cbn [Nat.mul Nat.add] in Z0, Z1, Z2, Z3.
  case_bool_decide as D.
  - rewrite P in D. change (zeros 12) with ([0; 0; 0; 0] ++ [0; 0; 0; 0] ++ [0; 0; 0; 0]) in D.
    do 16 (destruct a as [|? a]; [done|]). cbn in D. injection D as -> -> -> -> -> -> -> -> -> -> -> ->.
    change (decided _ _) with (decided 0 0). change (decided 0 0) with (@None Z). cbv iota.
    rewrite (proj2 Z0), (proj2 Z1), (proj2 Z2) by done. cbn [Z.lor Z.eqb].
    destruct (s6_addr32 _ 3 =? 0) eqn:W; [apply Z.eqb_eq, Z3 in W; by rewrite bool_decide_true by exact W|].
    apply Z.eqb_neq in W. rewrite Z3 in W. rewrite bool_decide_false by exact W.
    destruct (s6_addr32 _ 3 =? htonl 1) eqn:W1; [apply Z.eqb_eq, One in W1; by rewrite bool_decide_true by exact W1|].
    apply Z.eqb_neq in W1. rewrite One in W1. by rewrite bool_decide_false by exact W1.
  - destruct (decided _ _) as [v|]; apply Z.eqb_eq in C; [done|]. rewrite C.
    destruct (Z.lor _ _ =? 0) eqn:W; [|done]. apply Z.eqb_eq, Z.lor_eq_0_iff in W as [W0 W1].
    destruct (s6_addr32 a 2 =? 0) eqn:W2; [|done]. apply Z.eqb_eq in W2. destruct D.
    rewrite P. by rewrite (proj1 Z0 W0), (proj1 Z1 W1), (proj1 Z2 W2).
Qed.
Lemma GetAddrScope_ranges_witness :
  length sample_global = 16%nat /\ Forall is_u8 sample_global /\ GetAddrScope sample_global = 0 /\ GetAddrScope link_local = 0x20.
Proof.
  assert (L : forall a, forallb (fun b => (0 <=? b) && (b <? 2 ^ 8)) a = true -> length a = 16%nat -> GetAddrScope a = scope_of a).
  { intros a Ha Hl. apply (GetAddrScope_ranges a Hl). by apply all_u8. }
  split; [done|]. split; [by apply all_u8|]. split; rewrite L by done; reflexivity.
Defined.

(** The interface identifier of a hardware address (RFC 4291, appendix A). *)
Definition eui64 (mac : bytes) : bytes :=
  match mac with
  | [m0; m1; m2; m3; m4; m5] => [Z.lxor m0 0x02; m1; m2; 0xFF; 0xFE; m3; m4; m5]
  | _ => []
  end.
(** 2000::/3 without the addresses for documentation. *)
Definition is_global (a : bytes) : Prop :=
  0x20 <= byte_at a 0 < 0x40 /\ take 4 a <> [0x20; 0x01; 0x0d; 0xb8].
#[export] Instance is_global_dec a : Decision (is_global a).
Proof. unfold is_global. apply _. Defined.

Section Kinds.
Context {I6 : Inet6Text} {L6 : Inet6TextLaws I6}.

Lemma lxor_2_2 x : Z.lxor (Z.lxor x 2) 2 = x.
Proof. by rewrite Z.lxor_assoc, Z.lxor_nilpotent, Z.lxor_0_r. Qed.

Lemma IsEui64_spec a mac : length a = 16%nat -> Forall is_u8 a -> length mac = 6%nat ->
  IsEui64ModeIpv6Address (inet6_ntop a) INET6_ADDRSTRLEN mac = bool_decide (drop 8 a = eui64 mac).
Proof.
  intros Hl Hb Hm. unfold IsEui64ModeIpv6Address. cbn [length_ok INET6_ADDRSTRLEN]. rewrite inet6_pton_ntop by done.
  change (negb (length_ok INET6_ADDRSTRLEN)) with false. cbv iota zeta.
  destruct mac as [|m0 [|m1 [|m2 [|m3 [|m4 [|m5 [|? ?]]]]]]]; try done.
  do 16 (destruct a as [|? a]; [done|]). destruct a; [|done]. cbn [take drop eui64 byte_at nth].
  destruct (_ || _) eqn:C.
  - rewrite bool_decide_false; [done|]. intros [= -> -> -> -> -> -> -> ->]. cbn in C. done.
  - btauto_hyps. subst. apply bool_decide_ext. split.
    + intros [= -> -> -> -> -> ->]. by rewrite lxor_2_2.
    + intros [= -> -> -> -> -> ->]. by rewrite lxor_2_2.
Qed.

Lemma global_range b : is_u8 b -> (Z.land b 0xE0 =? 0x20) = bool_decide (0x20 <= b < 0x40).
Proof.
  intros H. assert (C : forallb (fun b => Bool.eqb (Z.land b 0xE0 =? 0x20) (bool_decide (0x20 <= b < 0x40))) all_bytes = true) by (vm_compute; reflexivity).
  rewrite forallb_forall in C. by apply eqb_prop, C, list_elem_of_In, all_bytes_in.
Qed.

(** C40: An address with text of 16 bytes and an interface with a hardware address: the
    client takes it as a global address when it lies in 2000::/3 outside the documentation
    prefix and was formed from the hardware address (EUI-64) or configured by
    DHCPv6; as a temporary one when it is another address of that range; and
    as one of the two unique local addresses otherwise. *)
Theorem address_kinds a mac c : length a = 16%nat -> Forall is_u8 a -> length mac = 6%nat ->
  classify (inet6_ntop a) INET6_ADDRSTRLEN (Some mac) c =
    let own := bool_decide (drop 8 a = eui64 mac) in
    if bool_decide (is_global a) then (if own || c then GLOBAL else RAND) else (if own then UNIQUE else UNIQUE2).
Proof.
  intros Hl Hb Hm. unfold classify. rewrite IsEui64_spec by done. cbv zeta.
  assert (G : IsGlobalIpv6Address (inet6_ntop a) INET6_ADDRSTRLEN = bool_decide (is_global a)).
  { unfold IsGlobalIpv6Address. change (negb (length_ok INET6_ADDRSTRLEN)) with false. rewrite inet6_pton_ntop by done.
    unfold is_global. case_bool_decide as D; [by rewrite bool_decide_false by tauto|].
    unfold s6_addr. rewrite global_range by (by apply nth_byte_u8). apply bool_decide_ext. tauto. }
  rewrite G. assert (V : IsValidIpv6Address (inet6_ntop a) = true).
  { unfold IsValidIpv6Address. rewrite inet6_pton_ntop by done. by rewrite bool_decide_true. }
  rewrite V, orb_true_r. destruct (bool_decide (is_global a)); [|done]. by destruct (bool_decide (drop 8 a = _)), c.
Qed.
End Kinds.
Lemma address_kinds_witness :
  length sample_global = 16%nat /\ Forall is_u8 sample_global /\ length [0; 1; 2; 3; 4; 5] = 6%nat /\
  classify (inet6_ntop sample_global) INET6_ADDRSTRLEN (Some [0; 1; 2; 3; 4; 5]) false = GLOBAL.
Proof.
  assert (H : Forall is_u8 sample_global) by (by apply all_u8). split; [done|]. split; [done|]. split; [done|].
  rewrite (address_kinds sample_global [0; 1; 2; 3; 4; 5] false) by done. vm_compute. reflexivity.
Defined.

(** * Announcements of DNS servers *)

Section Rdnss.
Context {I6 : Inet6Text} {SL : StandardLibrary} {PL : Ipv6Platform}.

Lemma rd8_at pre x post : rd8 (pre ++ x :: post) (Z.of_nat (length pre)) = Some x.
Proof. unfold rd8. rewrite (proj2 (Z.ltb_ge _ _)) by lia. rewrite Nat2Z.id. by rewrite lookup_app_r, Nat.sub_diag by lia. Qed.
Lemma rd8_app pre l o : 0 <= o -> rd8 (pre ++ l) (Z.of_nat (length pre) + o) = rd8 l o.
Proof.
  intros H. unfold rd8. rewrite !(proj2 (Z.ltb_ge _ _)) by lia. rewrite lookup_app_r by lia. f_equal. lia.
Qed.
Lemma rd32_app pre l o : 0 <= o -> rd32 (pre ++ l) (Z.of_nat (length pre) + o) = rd32 l o.
Proof.
  intros H. unfold rd32, rd16. rewrite <- !Z.add_assoc. by rewrite !rd8_app by lia.
Qed.
Lemma rd_bytes_at pre l post : rd_bytes (pre ++ l ++ post) (Z.of_nat (length pre)) (Z.of_nat (length l)) = Some l.
Proof.
  unfold rd_bytes. rewrite (proj2 (Z.leb_le _ _)), (proj2 (Z.leb_le _ _)) by (rewrite ?length_app; lia).
  rewrite !Nat2Z.id. cbn [andb]. by rewrite drop_app_length, take_app_length.
Qed.

Lemma dns_addresses_at pre addrs post : Forall (fun a => length a = 16%nat) addrs ->
  dns_addresses (pre ++ concat addrs ++ post) (Z.of_nat (length pre)) (length addrs) = Some (map inet6_ntop addrs).
Proof.
  intros H. revert pre. induction H as [|a addrs Ha _ IH]; intros pre; [done|]. cbn [dns_addresses length concat map].
  rewrite <- (app_assoc a). pose proof (rd_bytes_at pre a (concat addrs ++ post)) as R. rewrite Ha in R. change (Z.of_nat 16) with 16 in R.
  rewrite R, bind_some. specialize (IH (pre ++ a)). rewrite length_app, Ha, Nat2Z.inj_add in IH. change (Z.of_nat 16) with 16 in IH.
  by rewrite <- app_assoc, <- Z.add_assoc in IH || rewrite <- app_assoc in IH; rewrite IH.
Qed.

Lemma rd32_be32 v post : is_u32 v -> exists x, rd32 (be32 v ++ post) 0 = Some x /\ ntohl x = v.
Proof.
  intros H. destruct (be32_digits v H) as (a & b & c & d & -> & Ha & Hb & Hc & Hd & E). eexists; split; [reflexivity|].
  unfold ntohl. rewrite htonl_arith. unfold is_u8 in *. rewrite <- E. clear E H.
  set (x := a + 2 ^ 8 * b + 2 ^ 16 * (c + 2 ^ 8 * d)).
  assert (E0 : x mod 2 ^ 8 = a) by (unfold x; symmetry; apply (Z.mod_unique _ _ (b + 2 ^ 8 * c + 2 ^ 16 * d)); lia).
  assert (E1 : x / 2 ^ 8 = b + 2 ^ 8 * c + 2 ^ 16 * d) by (unfold x; symmetry; apply (Z.div_unique _ _ _ a); lia).
  assert (E2 : x / 2 ^ 16 = c + 2 ^ 8 * d) by (unfold x; symmetry; apply (Z.div_unique _ _ _ (a + 2 ^ 8 * b)); lia).
  assert (E3 : x / 2 ^ 24 = d) by (unfold x; symmetry; apply (Z.div_unique _ _ _ (a + 2 ^ 8 * b + 2 ^ 16 * c)); lia).
  rewrite E0, E1, E2, E3. rewrite (Z.mod_small d) by lia.
  replace ((b + 2 ^ 8 * c + 2 ^ 16 * d) mod 2 ^ 8) with b by (apply (Z.mod_unique _ _ (c + 2 ^ 8 * d)); lia).
  replace ((c + 2 ^ 8 * d) mod 2 ^ 8) with c by (apply (Z.mod_unique _ _ d); lia). lia.
Qed.

(** C24: An RDNSS option (RFC 8106) of 1 to 127 servers, wherever it lies in the message,
    reaches the repository of the interface with its lifetime and the texts of its
    addresses in their order; when the servers in use change, the public structure
    gets them and is published. *)
Theorem rdnss_announced pre lifetime addrs post s :
  is_u32 lifetime -> Forall (fun a => length a = 16%nat) addrs -> (1 <= length addrs <= 127)%nat ->
  let m := pre ++ rdnss lifetime addrs ++ post in
  let index := i32 (n_nametoindex (n_reads s) (interfaceName s)) in
  let '(changed, r) := AddServers (u64 (n_clock (S (n_reads s)))) (u64 (n_clock (S (S (n_reads s))))) lifetime
                         (map inet6_ntop addrs) (dhcpIpv6DnsRepository_ s) in
  let info := set_ipv6_status (Z.lor (ipv6_status (dhcpIpv6Info s)) 2) (dhcpIpv6Info s) in
  exists s', onIpv6DnsAddEvent m (Z.of_nat (length pre)) (Z.of_nat (length (rdnss lifetime addrs))) index s = Some (tt, s') /\
    dhcpIpv6DnsRepository_ s' = r /\
    dhcpIpv6Info s' = (if changed then snd (SetCurrentServers r info) else info) /\
    n_events s' = n_events s ++
      match onIpv6AddressChanged_ s with
      | Some cb => if changed then [Ipv6AddressChanged cb (interfaceName s) (dhcpIpv6Info s')] else []
      | None => []
      end.
Proof.
  intros Hv Ha Hn. cbv zeta. destruct (AddServers _ _ _ _ _) as [changed r] eqn:EA.
  set (m := pre ++ _). set (data := Z.of_nat (length pre)).
  assert (Len : Z.of_nat (length (rdnss lifetime addrs)) = 8 * (1 + 2 * Z.of_nat (length addrs))).
  { unfold rdnss. rewrite !length_app. cbn [length]. destruct (be32_digits lifetime Hv) as (? & ? & ? & ? & -> & _).
    assert (C : length (concat addrs) = (16 * length addrs)%nat).
    { clear Hn EA m. induction Ha as [|a l Hl _ IH]; [done|]. cbn. rewrite length_app, IH, Hl. lia. }
    rewrite C. cbn [length]. lia. }
  assert (M : m = pre ++ [ND_OPT_RDNSS; 1 + 2 * Z.of_nat (length addrs); 0; 0] ++ be32 lifetime ++ concat addrs ++ post).
  { unfold m, rdnss. by rewrite <- !app_assoc. }
  assert (R0 : rd8 m data = Some ND_OPT_RDNSS) by (rewrite M; apply rd8_at).
  assert (R1 : rd8 m (data + 1) = Some (1 + 2 * Z.of_nat (length addrs))) by (rewrite M; unfold data; by rewrite rd8_app).
  destruct (rd32_be32 lifetime (concat addrs ++ post) Hv) as (x & Rx & Ex).
  assert (R4 : rd32 m (data + 4) = Some x).
  { rewrite M. unfold data. rewrite rd32_app by lia. pose proof (rd32_app [ND_OPT_RDNSS; 1 + 2 * Z.of_nat (length addrs); 0; 0] (be32 lifetime ++ concat addrs ++ post) 0 ltac:(lia)) as R.
    rewrite Rx in R. exact R. }
  assert (RA : dns_addresses m (data + 8) (length addrs) = Some (map inet6_ntop addrs)).
  { pose proof (dns_addresses_at (pre ++ [ND_OPT_RDNSS; 1 + 2 * Z.of_nat (length addrs); 0; 0] ++ be32 lifetime) addrs post Ha) as R.
    rewrite <- !app_assoc in R. rewrite M. rewrite !length_app in R. destruct (be32_digits lifetime Hv) as (? & ? & ? & ? & E & _).
    rewrite E in R |- *. cbn [length] in R. replace (Z.of_nat (length pre + (4 + 4))) with (data + 8) in R by (unfold data; lia). exact R. }
  set (optlen := 1 + 2 * Z.of_nat (length addrs)) in *.
  assert (Odd : Z.land optlen 1 =? 0 = false).
  { change 1 with (Z.ones 1) at 1. rewrite Z.land_ones by lia. apply Z.eqb_neq. change (2 ^ 1) with 2.
    unfold optlen. replace (1 + 2 * Z.of_nat (length addrs)) with (1 + Z.of_nat (length addrs) * 2) by lia. by rewrite Z.mod_add. }
  assert (Half : Z.to_nat ((optlen - 1) / 2) = length addrs).
  { unfold optlen. replace (1 + 2 * Z.of_nat (length addrs) - 1) with (Z.of_nat (length addrs) * 2) by lia. rewrite Z.div_mul by lia. lia. }
  unfold onIpv6DnsAddEvent, interface_is, reading6, read, bind, get, modify, ret, on_info, from_option.
  cbn [n_reads interfaceName set_n_reads]. rewrite Z.eqb_refl. cbn [negb set_dhcpIpv6Info dhcpIpv6Info].
  rewrite R1, Len, Z.gtb_ltb, (proj2 (Z.ltb_ge _ _)) by lia. rewrite R0. change (negb (ND_OPT_RDNSS =? ND_OPT_RDNSS)) with false.
  cbv iota. rewrite Odd, (proj2 (Z.ltb_ge optlen ND_OPT_MIN_LEN)) by (unfold optlen, ND_OPT_MIN_LEN; lia). cbn [orb].
  rewrite R4, Half, RA. cbn [n_reads set_n_reads dhcpIpv6DnsRepository_ set_dhcpIpv6Info]. rewrite Ex, EA.
  destruct changed; cbn [when].
  - unfold PublishIpv6Result, bind, get. cbn [interfaceName dhcpIpv6Info onIpv6AddressChanged_ set_dhcpIpv6DnsRepository_ set_n_reads set_dhcpIpv6Info].
    destruct (SetCurrentServers r _) as [ok info']. cbn [interfaceName dhcpIpv6Info onIpv6AddressChanged_ set_dhcpIpv6DnsRepository_ set_n_reads set_dhcpIpv6Info snd].
    destruct (onIpv6AddressChanged_ s); eexists; (split; [reflexivity|]); (split; [reflexivity|]); (split; [reflexivity|]); [reflexivity|].
    cbn. by rewrite app_nil_r.
  - eexists; split; [reflexivity|]. split; [reflexivity|]. split; [reflexivity|]. cbn. destruct (onIpv6AddressChanged_ s); by rewrite app_nil_r.
Qed.
End Rdnss.

Definition sample_v6 : Ipv6Client :=
  set_onIpv6AddressChanged_ (Some 1) (DhcpIpv6Client (str "wlan0") (Clear sample_info) ∅).
Lemma rdnss_announced_witness :
  is_u32 1200 /\ (1 <= length [sample_server] <= 127)%nat /\
  exists s', @onIpv6DnsAddEvent Full6 ordered_library sample_net (zeros 5 ++ rdnss 1200 [sample_server] ++ [7; 7]) 5
      (Z.of_nat (length (rdnss 1200 [sample_server]))) 3 sample_v6 = Some (tt, s') /\
    vectorDnsAddr (dhcpIpv6Info s') = [inet6_ntop sample_server] /\ length (n_events s') = 1%nat.
Proof.
  assert (H1 : is_u32 1200) by (by split). assert (H2 : (1 <= length [sample_server] <= 127)%nat) by (cbn; lia).
  split; [done|]. split; [done|].
  pose proof (rdnss_announced (I6 := Full6) (SL := ordered_library) (PL := sample_net) (zeros 5) 1200 [sample_server] [7; 7] sample_v6
    H1 ltac:(by repeat constructor) H2) as T. cbv zeta in T.
  destruct (AddServers _ _ _ _ _) as [changed r] eqn:EA. assert (Ec : changed = true).
  { change changed with (fst (changed, r)). rewrite <- EA. vm_compute. reflexivity. }
  subst changed. destruct T as (s' & E & Er & Ei & Ev). exists s'. split; [exact E|]. split.
  - rewrite Ei. change r with (snd (true, r)). rewrite <- EA. vm_compute. reflexivity.
  - rewrite Ev. reflexivity.
Defined.

(** * Faults *)

(** The kernel reports that an address failed its duplicate address detection, and the
    DHCPv6 client asked to be told: it is not. *)
Definition is_dad (e : ipv6_event) : bool := match e with DadResult _ _ _ _ => true | _ => false end.
Lemma dad_failure_lost :
  match @handleKernelEvent Full6 ordered_library sample_net (addr_message RTM_DELADDR 3 IFA_F_DADFAILED sample_global 0 0) 64
          (set_onIpv6DadResult_ (Some 2) sample_v6) with
  | Some (_, s) => existsb is_dad (n_events s) = false /\ onIpv6DadResult_ s = Some 2
  | None => False
  end.
Proof. vm_compute. by split. Qed.

(** When the socket cannot be made the thread ends but is not joined: a second start makes
    no thread although the client then runs, and destroying the client ends the
    program. *)
Definition no_socket_net : Ipv6Platform := {|
  n_nametoindex _ _ := 3; n_kernel _ := []; n_ifreq _ := mkIfreq 3 [0; 1; 2; 3; 4; 5] 0;
  n_realpath p := Some p; n_file_opens _ := true; n_socket _ fds := -1;
  n_setsockopt _ := 0; n_bind _ := 0; n_send _ := 0; n_sendto _ := 0;
  n_recv _ := None; n_answer _ := None; n_readable _ := true; n_configured _ _ := false; n_malloc _ := true; n_clock n := 0; n_pid := 77 |}.
Lemma failed_start_never_recovers :
  exists s, @run_uses Full6 ordered_library no_socket_net [starts (str "wlan0"); steps; starts (str "wlan0")]
      (DhcpIpv6Client [] sample_info ∅) = Some (tt, s) /\ runFlag_ s = true /\
    forall n, @run_uses Full6 ordered_library no_socket_net (replicate n steps) s = Some (tt, s).
Proof.
  assert (S : forall n s, ipv6Thread_ s = finished -> @run_uses Full6 ordered_library no_socket_net (replicate n steps) s = Some (tt, s)).
  { induction n as [|n IH]; intros s Hs; [done|]. cbn [replicate run_uses run_ipv6]. unfold thread_step, bind, get. rewrite Hs.
    unfold ret. by apply IH. }
  eexists. split; [vm_compute; reflexivity|]. split; [reflexivity|]. intros n. by apply S.
Qed.
Lemma failed_start_terminates :
  (@run_uses Full6 ordered_library no_socket_net [starts (str "wlan0"); steps] ;; @destroy6 Full6 ordered_library no_socket_net)
    (DhcpIpv6Client [] sample_info ∅) = None.
Proof. vm_compute. reflexivity. Qed.

(** The query of the flags takes twelve bytes off the length of a message whose header has
    sixteen: on a message without attributes it reads behind its end. *)
Lemma query_reads_past_end :
  query_loop 3 (nlmsg RTM_NEWLINK ([0; 0; 0; 0] ++ le32 3 ++ le32 (Z.lor IFF_UP IFF_RUNNING) ++ zeros 4)) 3 0 32 sample_v6 = None.
Proof. vm_compute. reflexivity. Qed.

(** The lifetime is the least of the lifetimes of temporary addresses only. *)
Lemma lifetime_of_temporary info v t : lifetime info = Z.min (tempValidLifetime info) (tempPreferredLifetime info) ->
  let info' := snd (AddLifetime info v t) in lifetime info' = Z.min (tempValidLifetime info') (tempPreferredLifetime info').
Proof. intros H. unfold AddLifetime. destruct (_ =? v); [done|]. by destruct t. Qed.
